(* ===== verification/_CoqProject ===== *)
-Q . S2P
Prelude.v
Triple.v
Resume.v
GoStrings.v
Errs.v
Batch.v
Model.v
Inputs.v
Infra.v
Dag.v
Sql.v
System.v
Version.v
Disk.v
Config.v
Files.v
Archive.v
Resolving.v
Volumes.v
FwRepo.v
IPTables.v
NFTables.v
FwTracker.v
NetOps.v
Networks.v
VMRepo.v
VMResolver.v
FcConfig.v
Spawn.v
VMControl.v
IPNet.v
Lease.v
Names.v
NetService.v
NetAPI.v
CloudInit.v
ConfigAPI.v
Assets.v
VMCreateInput.v
Enrich.v
VMAPI.v
VolumeAPI.v
VMCreate.v
SnapshotAPI.v
AppDb.v
AppFrames.v
Attach.v
Removal.v
Creation.v
Restoration.v
Keys.v
InUse.v
Conversation.v
FileTransfer.v
FileDelivery.v
Pipeline.v
Persist.v
Env.v
EnvSteps.v
