(* ===== verification/Prelude.v ===== *)
(** * mvmctl, verified

    [mvmctl] (Go, under [src/]) creates and runs Firecracker microVMs on one host:
    a command line over an API ([pkg/api]), which drives the domains
    ([internal/core/...]: VMs, networks, images, kernels, volumes, ...) over
    repositories in an SQLite database, the libraries of [internal/lib] (network
    arithmetic, firewall, workflow engine, error model, ...), and workflows that
    provision whole environments ([internal/workflow/env]).  This library models
    the parts that carry the program's own logic, and proves what makes them
    correct.

    ** The files

    - [Prelude]: results, the error monad [GoM], the state monad [ST], frames of
      programs ([upholds]), dynamic values, and the lemmas on lists, sets and integers
      the other files share.
    - [GoStrings]: the functions of Go's [strings] and [strconv] the program uses.
    - [Errs] ([pkg/errs]): codes, classes, domain errors and their chains of causes,
      operation results and batches.
    - [Model] ([internal/lib/model]): the records.
    - [Infra] ([internal/infra/slice.go], [internal/infra/pool]): de-duplication; the
      worker pool, [Seq] as a function and [Gather] as a step relation.
    - [Dag] ([internal/lib/workflow/dag.go]): the levels of a pipeline.
    - [Pipeline] ([internal/lib/workflow/pipeline.go, step.go, state.go]): running and
      tearing down the levels, as a step relation over interleavings.
    - [Persist] ([internal/lib/workflow/persist.go]): the state file of a workflow.
    - [Sql]: SQL statements as functions of tables, with failures.
    - [VMRepo], [VMResolver], [FcConfig], [VMControl] ([internal/core/vm]): the table of
      VMs behind the class [Repository]; finding a VM by name, address or id; the
      configuration Firecracker boots from; the life of one VM.
    - [IPNet] ([internal/lib/network/network.go], [internal/lib/validators]): IPv4
      arithmetic, allocation and overlap.
    - [Lease] ([internal/core/network/lease_*.go]): the leases of addresses, among the
      other processes that share the database.
    - [Names] ([internal/lib/validators], [internal/infra/constants.go]): what names,
      devices and arguments may be.
    - [System] ([internal/lib/system/runner.go], [internal/infra/cast.go]): running
      commands, the class [Runner]; quoting words for a shell.
    - [FwRepo], [IPTables], [NFTables], [FwTracker] ([internal/lib/firewall]): the tables
      of firewall rules; the two backends; the tracker that dispatches to one of
      them and collects batches.
    - [NetOps] ([internal/lib/network/netops.go]): bridges and TAP devices.
    - [Networks], [NetService] ([internal/core/network]): the table of networks and its
      resolver; the service that makes and removes their devices and rules.
    - [NetAPI] ([pkg/api/network.go], [pkg/api/inputs/network_*.go], the network setup of
      [pkg/api/vm.go]): the operations on networks.
    - [Version] ([internal/lib/version]), [Disk] ([internal/lib/disk]), [Files], [Archive]
      ([internal/lib/archive]): version constraints; sizes and root partitions; paths
      and the class of file operations; archives over a stream of members.
    - [Config], [ConfigAPI] ([internal/core/config], [pkg/api/config.go]): the settings, their
      overrides, and the operations on them.
    - [Resolving], [Volumes], [VolumeAPI] ([internal/core/volume], [pkg/api/volume.go]): the
      resolution of many identifiers, which several domains share; volumes.
    - [Assets] ([internal/core/image], [kernel], [binary], [key], [snapshot], [vsock]): the
      tables and resolvers of what machines are made from, and of their devices.
    - [Enrich] ([internal/enricher]): loading the relations of rows in batches.
    - [Spawn] ([internal/core/vm/spawner.go]): starting Firecracker.
    - [CloudInit] ([internal/core/cloudinit], [internal/service/nocloudnet]): the seed of the
      first boot, and the server that hands it out.
    - [VMCreateInput] ([pkg/api/inputs/vm_create.go]), [VMCreate], [VMAPI] ([pkg/api/vm.go]):
      the input of a creation; creating machines; the other operations on them.
    - [SnapshotAPI] ([pkg/api/snapshot.go]), [Keys] ([internal/core/key], [pkg/api/key.go]): taking,
      restoring and removing snapshots; SSH keys.
    - [Conversation], [FileTransfer], [FileDelivery] ([internal/service/agent/file_transfer.go],
      [internal/core/vsock/file_transfer.go]): two programs that talk over a connection;
      both ends of the copying of files between host and guest; what is delivered.
    - [Env], [EnvSteps] ([internal/workflow/env]): applying, destroying and comparing an
      environment; its ten types of steps.
    - [Inputs] ([pkg/api/inputs]): the input structs.
    - [Triple], [Resume], [Batch]: the logics the proofs share.  [Triple] has Hoare triples
      for programs that answer with errors; [Resume] has programs that can be stopped
      between any two calls, and what they keep; [Batch] is the frame [VMCreate] runs its
      goroutines in, as a step relation over schedules.
    - [AppDb], [AppFrames]: the tables of several domains in one database, next to any
      host, and the frames of programs on it.  [Attach], [Removal], [Creation],
      [Restoration], [InUse] prove there what attaching and detaching volumes, removing,
      creating and restoring machines and removing keys do to the tables.

    ** How they interact

    [Pipeline] runs what [Dag] sorted; the steps are any instance of the classes
    [Dag.Step] and [Pipeline.Runnable], and the callback that saves the state of a
    step is the code of [Persist].  [VMControl] acts on a VM through four classes:
    the repository ([VMRepo], which has the laws [RepositoryLaws] and whose SQLite
    implementation is proved to satisfy them), the host's processes, the
    Firecracker socket and the configuration files ([FcConfig]).  [VMResolver] is
    proved against the class alone.  [Lease] allocates with [IPNet] and stores
    through the class [LeaseRepository].  Errors are those of [Errs] everywhere.

    [Env] is written against a class of steps, [Env.EnvStep], with the contract
    [Env.saves]; [EnvSteps] gives the ten instances over the operations of [pkg/api]
    (the class [EnvAPI]) and discharges the contract.  [NetService] acts through the
    classes [NetOps], [NetworkRepository] and [Tracker]; [FwTracker] has an instance of
    [Tracker] per backend, [Networks] one of [NetworkRepository], [NetOps] one of the
    devices.  What the theorems need of [iptables] is the class [IPTables.Iptables],
    its documented behaviour, with a toy kernel that satisfies it
    ([IPTables.ToyKernel]).  [NetAPI] puts the SQL implementation next to any host
    ([NetAPI.Beside]) to speak of both at once.

    The operations on machines act through the classes of all their domains:
    [VMAPI], [VMCreate] and [SnapshotAPI] resolve with [VMResolver] and [Assets], load
    relations with [Enrich], start processes with [Spawn] and drive them with
    [VMControl], lease with [Lease], and set up devices with [NetService].  What the
    host does is behind classes too (files, processes, terminals, the provisioner of
    root file systems, the image cache), so the theorems hold among any host.
    [AppDb] gives instances of the classes of repositories over one database, and the
    machines' operations are composed with them in [Attach], [Removal], [Creation] and
    [Restoration].

    The two ends of [FileTransfer] share only a connection: each is a program of
    [Conversation], and what they do together is the run of the two over two queues
    of bytes, in any interleaving.

    ** The model

    A call that returns [(T, error)] is a [result], and one that also changes the
    world a function of [GoM W error T], which threads a world [W]: the database,
    the files, the processes.  An error keeps its cause, so that the wrapping of
    errors is visible.  A statement of SQL, or a system call, is one atomic action,
    which may fail for reasons of its own: the world carries the list of those
    failures ([Db.faults], [Fs.ioFaults]), so theorems quantify over them.
    Concurrency is explicit: goroutines are step relations ([Infra.gstep],
    [Pipeline.mstep]); other processes are functions run between statements
    ([Lease.others]); the ends of a connection are trees of sends, receives and system
    calls ([Conversation.talk]), stepped in any order ([Conversation.joint_determined]); a crash is any state between two system calls
    ([Persist.history]).

    Strings are sequences of bytes; the functions that depend on letter case, white
    space or printability are modelled for ASCII, and JSON strings are taken to be valid UTF-8.  [int] is [Z] with its wrap-around
    written out where a result can leave its range ([GoStrings.int64], [uint32],
    [byte]).  Maps are [gmap]s.  Log messages are left out.  Code that is not in
    the repository is a parameter: the LIKE operator and the row constraints of
    SQLite, [encoding/json] (for the payloads of a copy, a class with its round trips) and YAML, the parser of IPv6 text, SHA-256, and the
    programs [ip], [iptables] and [nft].

    ** Fuel

    The loops with fuel are the queue of [Dag.kahn] and the search [Dag.dfs], bounded
    by the numbers of steps and edges ([Dag.BuildDAG_errors] proves that it is
    enough on every input); [Errs.isNotFoundLoop], bounded by the size of the
    error ([Errs.IsNotFound_chain]); and [IPNet.allocLoop], whose fuel is the number
    of candidates.  The loops of [FileTransfer] that wait for the other end, and its
    walk of a directory, have fuel too:
    [FileDelivery.push_delivers] reaches its result with any fuel above the number of
    files and the lengths of their contents, and [FileDelivery.expandSources_terminates]
    with fuel above the number of directories.  Loops the program bounds itself keep
    their bounds: ten attempts at a lease, five at a guest CID, fifty looks at a
    socket.  The runs of goroutines are step relations without fuel; [Batch.batch_live] says that they end.

    ** The theorems

    - Workflows: [BuildDAG] sorts, each step one level above its dependencies;
      [Execute] starts a step only after its dependencies were applied, and its
      result accounts for every step; [Destroy] takes dependents first and visits
      every step in spite of failures; both always return; the state file is
      replaced at once and read back.
    - Addresses and leases: allocation gives the lowest free usable address, and [Lease]
      gives an address to one VM only, whatever other processes do to their own
      leases.
    - Machines: the transition table of the life of a VM, on error paths too; what
      [SnapshotCreate] leaves; a failed [Spawn] leaves no process; the table of VMs stays
      well formed; the command line of the kernel carries what the VM needs; an
      input that is accepted is within its bounds; enrichment in batches gives each
      row its own relations.
    - Operations on machines, on one database and among any host: [VMCreate] answers
      with machines that have their rows and touches no other row, in every
      interleaving of its goroutines and with cancellation; its goroutines do not
      deadlock, and none that succeeded is cleaned up; [SnapshotRestore] answers with
      the machines of the batch and their rows, made from the snapshot; [VMRemove]
      leaves no row, lease or attachment behind, and [VMPrune] spares what runs;
      [VolumeAttach] keeps a volume in the hands of one machine; [VolumeDetach] does its two
      writes, each of which may fail without being reported.  Except for [VMCreate],
      [SnapshotRestore] and [VolumeDetach], these suppose that no statement fails;
      [Removal.RemovalExamples.VMPrune_unremoved] shows what happens when one does.
    - Environments: whatever the interleaving, the state file lists what is complete,
      less what the steps asked to remove, and, while destroying, what remains; every step type saves its state before it
      answers; what was saved is reconstructed.
    - Firewall and networks: a batch replaces the chains of the program, in the tables
      it has rules for, by its rules; a synchronisation restores the active rules the
      database records, and leaves a table for which it records none as it is; the creation of a
      network is all or nothing in the table.
    - Names: the validators accept one language.
    - Settings keep the type of their default and read back what was set; versions are
      ordered by their numbers and then their pre-release; extracting an archive stays inside the destination; the
      upgrade lock of a guest agent has one holder.
    - Copying: a push of files to distinct, free targets on disks that do not fail delivers
      every file with its content and ends both sides, in every interleaving; a file is accepted only with the size and the digest
      announced for it.
    - Some theorems pin behaviour that looks unintended:
      [NetAPI.vmNetworkSetup_replaces], [NetService.Remove_refused_after_teardown],
      [InUse.KeyRemove_force_idle] and, outside the list of properties,
      [NFTables.nft_removed_rule_stays_removed], [VMControl.Reboot_does_not_start],
      [Attach.AttachExamples.VolumeDetach_unfreed],
      [FileDelivery.FileExamples.pull_escapes] (a guest chooses where a pulled file is written),
      [FileDelivery.FileExamples.pull_refusal_lost],
      [FileDelivery.FileExamples.empty_frame_panics],
      [Lease.LeaseSpecific_race] and [Errs.classForCode_gaps].

    ** Not modelled

    Of [pkg/api] the operations on images, kernels, binaries, hosts, caches and logs,
    which download, build and convert files, and the sessions with a guest (SSH,
    [exec], and around a copy the parsing of its arguments and the opening of its
    connection) are left out; of the environment workflow only [List], which reads
    the state directories for display; of [pkg/api/network.go] the conversion to JSON.
    The provisioners of root file systems, the image cache, the console relay and
    [CopyPreservingMetadata] are calls of the host.  Command-line parsing and display,
    the guest agent (its file transfer apart) and the other services are input and output around external
    programs, and are left out, as are tests and the legacy Python program. *)

From stdpp Require Export base list strings gmap sets.
From Stdlib Require Export ZArith Lia.

(** ** Results *)

(** A Go call returning [(T, error)]: a value, or an error. *)
Inductive result (E A : Type) : Type :=
  | Ok (a : A)
  | Err (e : E).
Arguments Ok {E A} a.
Arguments Err {E A} e.

(** The step functions of a computation on a world [W] that may return an error. *)
Definition GoM (W E A : Type) : Type := W → result E A * W.

#[export] Instance result_ret E : MRet (result E) := λ A a, Ok a.
#[export] Instance result_bind E : MBind (result E) :=
  λ A B f m, match m with Ok a => f a | Err e => Err e end.
#[export] Instance result_fmap E : FMap (result E) :=
  λ A B f m, match m with Ok a => Ok (f a) | Err e => Err e end.

#[export] Instance GoM_ret W E : MRet (GoM W E) := λ A a w, (Ok a, w).
#[export] Instance GoM_bind W E : MBind (GoM W E) := λ A B f m w,
  match m w with
  | (Ok a, w') => f a w'
  | (Err e, w') => (Err e, w')
  end.

(** [return err]. *)
Definition throw {W E A} (e : E) : GoM W E A := λ w, (Err e, w).

(** Both results of a call, for a caller that does not return on error. *)
Definition try {W E A} (m : GoM W E A) : GoM W E (result E A) := λ w,
  let '(r, w') := m w in (Ok r, w').

(** Execute the operations of the monad in the goal. *)
Ltac run := cbv [mret GoM_ret mbind GoM_bind throw try].

Lemma bind_try {W E A B} (m : GoM W E A) (k : result E A → GoM W E B) (w : W) :
  (r ← try m; k r) w = k (m w).1 (m w).2.
Proof. unfold try, mbind, GoM_bind. by destruct (m w). Qed.

Lemma bind_unfold {W E A B} (m : GoM W E A) (k : A → GoM W E B) (w : W) :
  (x ← m; k x) w = match m w with (Ok a, w') => k a w' | (Err e, w') => (Err e, w') end.
Proof. done. Qed.

Definition is_Ok {E A} (r : result E A) : bool :=
  match r with Ok _ => true | Err _ => false end.

(** ** Programs that only change the world *)

(** The functions without an error result. *)
Definition ST (W A : Type) : Type := W → A * W.

#[export] Instance ST_ret W : MRet (ST W) := λ A a w, (a, w).
#[export] Instance ST_bind W : MBind (ST W) := λ A B f m w, let '(a, w') := m w in f a w'.

(** A fallible call whose two results are both looked at. *)
Definition attempt {W E A} (m : GoM W E A) : ST W (result E A) := m.

(** A call that cannot fail, among calls that can. *)
Definition calls {W E A} (m : ST W A) : GoM W E A := λ w, let '(a, w') := m w in (Ok a, w').

(** [for _, x := range l { f(x) }]. *)
Fixpoint forEach {W A} (l : list A) (f : A → ST W unit) : ST W unit :=
  match l with
  | [] => mret ()
  | x :: l' => _ ← f x; forEach l' f
  end.

(** The same loop when an iteration may end the function: it answers whether to
    go on. *)
Fixpoint whileTrue {W A} (l : list A) (f : A → ST W bool) : ST W bool :=
  match l with
  | [] => mret true
  | x :: l' => more ← f x; if more : bool then whileTrue l' f else mret false
  end.

(** The same loop when an iteration may return out of the function. *)
Fixpoint forOk {W E A} (l : list A) (f : A → GoM W E unit) : GoM W E unit :=
  match l with
  | [] => mret ()
  | x :: l' => _ ← f x; forOk l' f
  end.

Lemma ST_bind_unfold {W A B} (m : ST W A) (k : A → ST W B) (w : W) :
  (x ← m; k x) w = k (m w).1 (m w).2.
Proof. unfold mbind, ST_bind. by destruct (m w). Qed.

(** A sequence that succeeds, in its two parts. *)
Lemma bind_Ok_inv {W E A B} (m : GoM W E A) (k : A → GoM W E B) w b w' :
  (x ← m; k x) w = (Ok b, w') → ∃ a w1, m w = (Ok a, w1) ∧ k a w1 = (Ok b, w').
Proof. unfold mbind, GoM_bind. destruct (m w) as [[a|e] w1]; [|done]. eauto. Qed.

Lemma bind_calls {W E A B} (m : ST W A) (k : A → GoM W E B) (w : W) :
  (x ← calls m; k x) w = k (m w).1 (m w).2.
Proof. unfold calls, mbind, GoM_bind. by destruct (m w). Qed.

(** The program moves the world along [R], whatever it answers. *)
Definition upholds {W A} (R : relation W) (m : ST W A) : Prop := ∀ w, R w (m w).2.

Section Upholds.
Context {W : Type} (R : relation W) `{!PreOrder R}.

Lemma upholds_ret {A} (a : A) : upholds R (mret (M := ST W) a).
Proof. intros w. simpl. reflexivity. Qed.

Lemma upholds_bind {A B} (m : ST W A) (k : A → ST W B) :
  upholds R m → (∀ a, upholds R (k a)) → upholds R (x ← m; k x).
Proof.
  intros Hm Hk w. rewrite ST_bind_unfold. etrans; [apply Hm|apply Hk].
Qed.

Lemma upholds_forEach {A} (l : list A) (f : A → ST W unit) :
  (∀ x, upholds R (f x)) → upholds R (forEach l f).
Proof.
  intros Hf. induction l as [|x l IH]; simpl; [apply upholds_ret|].
  apply upholds_bind; [apply Hf|by intros _].
Qed.

Lemma upholds_okret {E A} (a : A) : upholds (A := result E A) R (mret (M := GoM W E) a).
Proof. intros w. simpl. reflexivity. Qed.

Lemma upholds_throw {E A} (e : E) : upholds (A := result E A) R (throw e).
Proof. intros w. simpl. reflexivity. Qed.

Lemma upholds_okbind {E A B} (m : GoM W E A) (k : A → GoM W E B) :
  upholds (A := result E A) R m → (∀ a, upholds (A := result E B) R (k a)) →
  upholds (A := result E B) R (x ← m; k x).
Proof.
  intros Hm Hk w. rewrite bind_unfold. specialize (Hm w).
  destruct (m w) as [[a|e] w']; [|exact Hm]. etrans; [exact Hm|apply Hk].
Qed.

Lemma upholds_try {E A} (m : GoM W E A) :
  upholds (A := result E A) R m → upholds (A := result E (result E A)) R (try m).
Proof. intros Hm w. unfold try. specialize (Hm w). by destruct (m w). Qed.

Lemma upholds_calls {E A} (m : ST W A) :
  upholds R m → upholds (A := result E A) R (calls m).
Proof. intros Hm w. unfold calls. specialize (Hm w). by destruct (m w). Qed.

Lemma upholds_forOk {E A} (l : list A) (f : A → GoM W E unit) :
  (∀ x, upholds (A := result E unit) R (f x)) → upholds (A := result E unit) R (forOk l f).
Proof.
  intros Hf. induction l as [|x l IH]; simpl; [apply upholds_okret|].
  apply upholds_okbind; [apply Hf|by intros _].
Qed.
End Upholds.

(** Split a program into its calls. *)
Create HintDb upholds.
#[export] Hint Resolve upholds_ret upholds_okret upholds_throw upholds_try upholds_calls : upholds.

Ltac upholds :=
  repeat first
    [ solve [eauto with upholds typeclass_instances]
    | apply upholds_okbind; [typeclasses eauto| |intros]
    | apply upholds_bind; [typeclasses eauto| |intros]
    | apply upholds_forEach; [typeclasses eauto|intros]
    | apply upholds_forOk; [typeclasses eauto|intros]
    | apply upholds_try
    | apply upholds_calls
    | progress case_match ].

(** ** Dynamic values *)

(** Go's [any], for the values the code keeps in it: decoded YAML and JSON
    scalars, lists and maps.  [AnyStruct] is a struct kept in it, as the fields
    [encoding/json] would write. *)
Inductive any :=
  | AnyNil
  | AnyString (s : string)
  | AnyInt (z : Z)
  | AnyBool (b : bool)
  | AnyList (l : list any)
  | AnyMap (l : list (string * any))
  | AnyStruct (l : list (string * any)).

(** ** Lists *)
Section Filter.
Context {A : Type} (P : A → Prop) `{∀ x, Decision (P x)}.

Lemma length_filter_zero (l : list A) :
  length (filter P l) = 0 ↔ ∀ x, x ∈ l → ¬ P x.
Proof.
  induction l as [|y l IH]; [set_solver|].
  rewrite filter_cons. case_decide; simpl.
  - split; [lia|]. intros Hall. exfalso. apply (Hall y); [left|done].
  - rewrite IH. setoid_rewrite elem_of_cons. naive_solver.
Qed.

Lemma length_filter_pos (l : list A) :
  0 < length (filter P l) ↔ ∃ x, x ∈ l ∧ P x.
Proof.
  split.
  - intros Hl. destruct (filter P l) as [|x k] eqn:E; simpl in Hl; [lia|].
    exists x. apply and_comm, (list_elem_of_filter P). rewrite E. left.
  - intros (x & Hx & HP). destruct (decide (length (filter P l) = 0)) as [E|]; [|lia].
    exfalso. by apply (proj1 (length_filter_zero l) E x).
Qed.
End Filter.

Lemma head_filter_unique {A} (P : A → Prop) `{∀ x, Decision (P x)} (l : list A) (x : A) :
  x ∈ l → P x → (∀ y, y ∈ l → P y → y = x) → head (filter P l) = Some x.
Proof.
  intros Hx HP Hu. assert (x ∈ filter P l) as Hf by by apply list_elem_of_filter.
  destruct (filter P l) as [|y k] eqn:E; [by apply elem_of_nil in Hf|]. simpl. f_equal.
  assert (y ∈ filter P l) as [HPy Hy]%list_elem_of_filter by (rewrite E; left). auto.
Qed.

Lemma join_cons {A} (l : list A) (ls : list (list A)) : mjoin (l :: ls) = l ++ mjoin ls.
Proof. done. Qed.

Lemma Forall2_weaken {A B} (P Q : A → B → Prop) l k :
  Forall2 P l k → (∀ x y, x ∈ l → P x y → Q x y) → Forall2 Q l k.
Proof. induction 1 as [|x y l k Hx Hl IH]; intros HPQ; constructor; [apply HPQ; [by left|done]|]. apply IH. intros a b Ha. apply HPQ. by right. Qed.

Lemma NoDup_fmap_filter {A B} (f : A → B) (P : A → Prop) `{∀ x, Decision (P x)} (l : list A) :
  NoDup (f <$> l) → NoDup (f <$> filter P l).
Proof.
  induction l as [|x l IH]; intros Hl; [constructor|].
  rewrite fmap_cons in Hl. apply NoDup_cons in Hl as [Hx Hl].
  rewrite filter_cons. case_decide; [|auto].
  rewrite fmap_cons. apply NoDup_cons. split; [|auto].
  intros (y & Hy & Hin)%list_elem_of_fmap. apply list_elem_of_filter in Hin as [_ Hin].
  apply Hx. rewrite Hy. by apply list_elem_of_fmap_2.
Qed.

Lemma elem_of_fmap_inj {A B} (f : A → B) (l : list A) (x y : A) :
  NoDup (f <$> l) → x ∈ l → y ∈ l → f x = f y → x = y.
Proof.
  intros Hnd [i Hi]%list_elem_of_lookup [j Hj]%list_elem_of_lookup E.
  assert (i = j) as ->; [|congruence].
  eapply (NoDup_lookup (f <$> l)); [done|..]; rewrite list_lookup_fmap.
  - by rewrite Hi.
  - by rewrite Hj, E.
Qed.

(** Facts about duplicate-free lists. *)
Create HintDb nodup.
#[export] Hint Resolve NoDup_fmap_filter NoDup_seqZ NoDup_seq NoDup_singleton : nodup.

(** ** Finite sets *)
Lemma size_difference_add {K} `{Countable K} (X Y : gset K) (x : K) :
  x ∈ X → x ∉ Y → size (X ∖ ({[x]} ∪ Y)) < size (X ∖ Y).
Proof.
  intros HX HY. apply subset_size. split; [set_solver|].
  intros Hsub. assert (x ∈ X ∖ ({[x]} ∪ Y)); set_solver.
Qed.

Lemma size_elem_pos {K} `{Countable K} (X : gset K) (x : K) : x ∈ X → 0 < size X.
Proof.
  intros Hx. destruct (decide (size X = 0)) as [E|]; [|lia].
  apply size_empty_inv in E. set_solver.
Qed.

Lemma size_remove {K} `{Countable K} (X : gset K) (x : K) :
  x ∈ X → size (X ∖ {[x]}) = size X - 1.
Proof. intros Hx. rewrite size_difference by set_solver. by rewrite size_singleton. Qed.

(** ** Integers *)

(** Linear arithmetic with quotients and remainders by constant powers of two. *)
Ltac eval_pow2 :=
  repeat match goal with
  | |- context [(2 ^ ?n)%Z] =>
      let v := eval vm_compute in (2 ^ n)%Z in
      match v with Zpos _ => progress change (2 ^ n)%Z with v end
  | H : context [(2 ^ ?n)%Z] |- _ =>
      let v := eval vm_compute in (2 ^ n)%Z in
      match v with Zpos _ => progress change (2 ^ n)%Z with v in H end
  end.

Ltac div_lia := eval_pow2; Z.to_euclidean_division_equations; lia.
