(* ===== verification/Triple.v ===== *)
(** * Triples for programs that may return an error

    [triple P m Q X]: from a world in [P] the program ends in [Q] with its
    answer, or in [X] with its error.  One rule per construct of the monad. *)

From stdpp Require Import base.
From S2P Require Import Prelude.

Definition triple {W E A} (P : W → Prop) (m : GoM W E A) (Q : A → W → Prop) (X : E → W → Prop) : Prop :=
  ∀ w, P w → match m w with (Ok a, w') => Q a w' | (Err e, w') => X e w' end.

Section Rules.
Context {W E : Type}.
Implicit Types P : W → Prop.

Lemma triple_pre {A} P P' (m : GoM W E A) Q X : (∀ w, P w → P' w) → triple P' m Q X → triple P m Q X.
Proof. intros HP Hm w Hw. by apply Hm, HP. Qed.

Lemma triple_post {A} P (m : GoM W E A) (Q Q' : A → W → Prop) X :
  (∀ a w, Q' a w → Q a w) → triple P m Q' X → triple P m Q X.
Proof. intros HQ Hm w Hw. specialize (Hm w Hw). destruct (m w) as [[a|e] w']; auto. Qed.

Lemma triple_error {A} P (m : GoM W E A) Q (X X' : E → W → Prop) :
  (∀ e w, X' e w → X e w) → triple P m Q X' → triple P m Q X.
Proof. intros HX Hm w Hw. specialize (Hm w Hw). destruct (m w) as [[a|e] w']; auto. Qed.

Lemma triple_ret {A} P (a : A) (Q : A → W → Prop) (X : E → W → Prop) :
  (∀ w, P w → Q a w) → triple P (mret (M := GoM W E) a) Q X.
Proof. intros HQ w Hw. simpl. auto. Qed.

Lemma triple_throw {A} P (e : E) (Q : A → W → Prop) (X : E → W → Prop) :
  (∀ w, P w → X e w) → triple P (throw e) Q X.
Proof. intros HX w Hw. simpl. auto. Qed.

Lemma triple_bind {A B} P (m : GoM W E A) (k : A → GoM W E B) R Q X :
  triple P m R X → (∀ a, triple (R a) (k a) Q X) → triple P (x ← m; k x) Q X.
Proof.
  intros Hm Hk w Hw. rewrite bind_unfold. specialize (Hm w Hw).
  destruct (m w) as [[a|e] w']; [by apply Hk|done].
Qed.

Lemma triple_try {A} P (m : GoM W E A) (Q : result E A → W → Prop) X :
  triple P m (λ a, Q (Ok a)) (λ e, Q (Err e)) → triple P (try m) Q X.
Proof. intros Hm w Hw. specialize (Hm w Hw). unfold try. by destruct (m w) as [[a|e] w']. Qed.

Lemma triple_calls {A} P (m : ST W A) (Q : A → W → Prop) (X : E → W → Prop) :
  (∀ w, P w → Q (m w).1 (m w).2) → triple P (calls m) Q X.
Proof. intros Hm w Hw. specialize (Hm w Hw). unfold calls. by destruct (m w). Qed.

Lemma triple_if {A} P (b : bool) (m m' : GoM W E A) Q X :
  (b = true → triple P m Q X) → (b = false → triple P m' Q X) → triple P (if b then m else m') Q X.
Proof. destruct b; auto. Qed.

(** Facts that do not depend on the world. *)
Lemma triple_pure {A} (φ : Prop) P (m : GoM W E A) Q X :
  (φ → triple P m Q X) → triple (λ w, φ ∧ P w) m Q X.
Proof. intros Hm w [Hφ Hw]. by apply Hm. Qed.

Lemma triple_exists {A T} (P : T → W → Prop) (m : GoM W E A) Q X :
  (∀ t, triple (P t) m Q X) → triple (λ w, ∃ t, P t w) m Q X.
Proof. intros Hm w [t Hw]. by apply (Hm t). Qed.
End Rules.

(** The same for programs without an error result. *)
Definition leads {W A} (P : W → Prop) (m : ST W A) (Q : A → W → Prop) : Prop := ∀ w, P w → Q (m w).1 (m w).2.

Section Leads.
Context {W : Type}.
Implicit Types P : W → Prop.

Lemma leads_ret {A} P (a : A) (Q : A → W → Prop) : (∀ w, P w → Q a w) → leads P (mret (M := ST W) a) Q.
Proof. intros HQ w Hw. by apply HQ. Qed.

Lemma leads_bind {A B} P (m : ST W A) (k : A → ST W B) R Q :
  leads P m R → (∀ a, leads (R a) (k a) Q) → leads P (x ← m; k x) Q.
Proof. intros Hm Hk w Hw. rewrite ST_bind_unfold. by apply Hk, Hm. Qed.

Lemma leads_pre {A} P P' (m : ST W A) Q : (∀ w, P w → P' w) → leads P' m Q → leads P m Q.
Proof. intros HP Hm w Hw. by apply Hm, HP. Qed.

Lemma leads_post {A} P (m : ST W A) (Q Q' : A → W → Prop) :
  (∀ a w, Q' a w → Q a w) → leads P m Q' → leads P m Q.
Proof. intros HQ Hm w Hw. by apply HQ, Hm. Qed.

Lemma leads_pure {A} (φ : Prop) P (m : ST W A) Q : (φ → leads P m Q) → leads (λ w, φ ∧ P w) m Q.
Proof. intros Hm w [Hφ Hw]. by apply Hm. Qed.
End Leads.
