(* ===== verification/Resume.v ===== *)
(** * Programs that are interleaved with others

    A goroutine that shares the world with other goroutines is a resumption: a
    step is a call that is not interrupted, and between two steps the others may
    change the world.

    [within I G p]: every step of [p] moves a world that satisfies [I] along [G],
    to a world that does; [p] is looked at with the answers of such worlds.
    [stays R p Q s]: started in [s], with the others moving the world along [R]
    before each step and after the last one, [p] ends in [Q]. *)

From stdpp Require Import base tactics.
From S2P Require Import Prelude.

Inductive resume (S A : Type) : Type :=
  | Return (a : A)
  | Step (B : Type) (m : S → B * S) (k : B → resume S A).
Arguments Return {S A}.
Arguments Step {S A}.

Fixpoint rbind {S A B} (p : resume S A) (f : A → resume S B) : resume S B :=
  match p with
  | Return a => f a
  | Step X m k => Step X m (λ x, rbind (k x) f)
  end.

#[export] Instance resume_ret S : MRet (resume S) := λ A, Return.
#[export] Instance resume_bind S : MBind (resume S) := λ A B f p, rbind p f.

(** One step. *)
Definition call {S A} (m : ST S A) : resume S A := Step A m Return.

(** [if err != nil { return err }]. *)
Definition orReturn {S E A B} (p : resume S (result E A)) (k : A → resume S (result E B)) : resume S (result E B) :=
  r ← p; match r with Ok a => k a | Err err => mret (Err err) end.

(** Alone, it is a program of the state monad. *)
Fixpoint alone {S A} (p : resume S A) : ST S A :=
  match p with
  | Return a => λ s, (a, s)
  | Step X m k => λ s, let '(x, s') := m s in alone (k x) s'
  end.

Lemma alone_bind {S A B} (p : resume S A) (f : A → resume S B) s : alone (x ← p; f x) s = (x ← alone p; alone (f x)) s.
Proof.
  revert s. induction p as [a|X m k IH]; intros s; [done|].
  change (alone (x ← Step X m k; f x) s) with (let '(x, s') := m s in alone (y ← k x; f y) s').
  change ((x ← alone (Step X m k); alone (f x)) s) with
    (let '(a, s2) := (let '(x, s') := m s in alone (k x) s') in alone (f a) s2).
  destruct (m s) as [x s']. apply IH.
Qed.

Lemma alone_call {S A} (m : ST S A) s : alone (call m) s = m s.
Proof. cbn. by destruct (m s). Qed.

Section Guarantee.
Context {S : Type} (I : S → Prop) (G : relation S).

Definition guaranteed {A} (m : ST S A) : Prop := ∀ s, I s → G s (m s).2 ∧ I (m s).2.

Fixpoint within {A} (p : resume S A) : Prop :=
  match p with
  | Return _ => True
  | Step X m k => guaranteed m ∧ ∀ s, I s → within (k (m s).1)
  end.

Lemma within_ret {A} (a : A) : within (mret (M := resume S) a).
Proof. done. Qed.

Lemma within_call {A} (m : ST S A) : guaranteed m → within (call m).
Proof. by split. Qed.

Lemma within_bind {A B} (p : resume S A) (f : A → resume S B) : within p → (∀ a, within (f a)) → within (x ← p; f x).
Proof.
  intros Hp Hf. induction p as [a|X m k IH]; [apply Hf|]. destruct Hp as [Hm Hk]. split; [done|].
  intros s Hs. apply IH. by apply Hk.
Qed.

(** What a step answers in a world that satisfies [I]. *)
Lemma within_step {A B} (m : ST S A) (f : A → resume S B) :
  guaranteed m → (∀ s, I s → within (f (m s).1)) → within (x ← call m; f x).
Proof. by split. Qed.

Lemma within_orReturn {E A B} (p : resume S (result E A)) (k : A → resume S (result E B)) :
  within p → (∀ a, within (k a)) → within (orReturn p k).
Proof. intros Hp Hk. apply within_bind; [done|]. intros [a|e]; [apply Hk|done]. Qed.
End Guarantee.

Lemma within_weaken {S} (I : S → Prop) (G G' : relation S) {A} (p : resume S A) :
  (∀ s s', G s s' → G' s s') → within I G p → within I G' p.
Proof.
  intros HG. induction p as [a|X m k IH]; [done|]. intros [Hm Hk]. split.
  - intros s Hs. destruct (Hm s Hs). eauto.
  - intros s Hs. by apply IH, Hk.
Qed.

Section Rely.
Context {S : Type} (R : relation S) `{!PreOrder R}.

Fixpoint stays {A} (p : resume S A) (Q : A → S → Prop) (s : S) : Prop :=
  match p with
  | Return a => ∀ s', R s s' → Q a s'
  | Step X m k => ∀ s', R s s' → stays (k (m s').1) Q (m s').2
  end.

Lemma stays_moved {A} (p : resume S A) Q s s' : R s s' → stays p Q s → stays p Q s'.
Proof. intros Hr. destruct p as [a|X m k]; simpl; intros Hp s'' Hs; apply Hp; by etrans. Qed.

Lemma stays_post {A} (p : resume S A) (Q Q' : A → S → Prop) s : (∀ a s, Q' a s → Q a s) → stays p Q' s → stays p Q s.
Proof. intros HQ. revert s. induction p as [a|X m k IH]; simpl; intros s Hp; [auto|]. intros s' Hs. by apply IH, Hp. Qed.

Lemma stays_bind {A B} (p : resume S A) (f : A → resume S B) Q s :
  stays p (λ a s, stays (f a) Q s) s → stays (x ← p; f x) Q s.
Proof.
  revert s. induction p as [a|X m k IH]; intros s Hp.
  - apply (Hp s). reflexivity.
  - intros s' Hs. apply IH, Hp, Hs.
Qed.

Lemma stays_ret {A} (a : A) Q s : (∀ s', R s s' → Q a s') → stays (mret (M := resume S) a) Q s.
Proof. done. Qed.

Lemma stays_call {A} (m : ST S A) Q s : (∀ s' s'', R s s' → R (m s').2 s'' → Q (m s').1 s'') → stays (call m) Q s.
Proof. intros Hm s' Hs s'' Hs'. by apply Hm. Qed.

End Rely.
