(* ===== verification/GoStrings.v ===== *)
(** * Go's strings and numbers

    What the program uses of Go's [strings], [strconv] and [fmt] packages and of
    its integer types.  A Go string is a byte string; the functions that look at
    letter case or white space ([ToLower], [TrimSpace], [Fields]) are modelled
    on ASCII text, other bytes being neither letters nor spaces.  Nothing here
    is code of the repository. *)

From Stdlib Require Import Ascii.
From stdpp Require Import strings pretty.
From S2P Require Import Prelude.
#[local] Open Scope string_scope.

(** ** Characters *)

Definition isDigit (c : Ascii.ascii) : bool :=
  let n := Ascii.nat_of_ascii c in ((48 <=? n) && (n <=? 57))%nat.

Definition isSpace (c : Ascii.ascii) : bool :=
  let n := Ascii.nat_of_ascii c in (((9 <=? n) && (n <=? 13)) || (n =? 32))%nat.

(** The class [\s] of package [regexp]. *)
Definition reSpace (c : Ascii.ascii) : bool :=
  existsb (Nat.eqb (Ascii.nat_of_ascii c)) [9; 10; 12; 13; 32]%nat.

Definition lower (c : Ascii.ascii) : Ascii.ascii :=
  let n := Ascii.nat_of_ascii c in
  if ((65 <=? n) && (n <=? 90))%nat then Ascii.ascii_of_nat (n + 32) else c.

Definition dquote : string := String (Ascii.ascii_of_nat 34) "".

(** ** Package [strings] *)

Fixpoint ToLower (s : string) : string :=
  match s with
  | "" => ""
  | String c s' => String (lower c) (ToLower s')
  end.

Definition HasPrefix (s p : string) : bool := String.prefix p s.

(** [s[n:]], for [n] at most the length of [s]. *)
Fixpoint sdrop (n : nat) (s : string) : string :=
  match n, s with
  | 0, _ => s
  | S _, "" => ""
  | S n', String _ s' => sdrop n' s'
  end.

(** [s[:n]], for [n] at most the length of [s]. *)
Fixpoint stake (n : nat) (s : string) : string :=
  match n, s with
  | 0, _ => ""
  | S _, "" => ""
  | S n', String c s' => String c (stake n' s')
  end.

Definition TrimPrefix (s p : string) : string :=
  if HasPrefix s p then sdrop (String.length p) s else s.

(** [strings.Cut]: around the first occurrence of [sep], if any. *)
Fixpoint Cut (s sep : string) : option (string * string) :=
  if HasPrefix s sep then Some ("", sdrop (String.length sep) s)
  else
    match s with
    | "" => None
    | String c s' =>
        match Cut s' sep with
        | Some (before, after) => Some (String c before, after)
        | None => None
        end
    end.

(** Around the last occurrence of [sep], if any. *)
Fixpoint CutLast (s sep : string) : option (string * string) :=
  match s with
  | "" => if HasPrefix s sep then Some ("", sdrop (String.length sep) s) else None
  | String c s' =>
      match CutLast s' sep with
      | Some (before, after) => Some (String c before, after)
      | None => if HasPrefix s sep then Some ("", sdrop (String.length sep) s) else None
      end
  end.

Definition Contains (s sub : string) : bool :=
  match Cut s sub with Some _ => true | None => false end.

(** [strings.Split] on a one-character separator: never empty. *)
Fixpoint Split (s : string) (sep : Ascii.ascii) : list string :=
  match s with
  | "" => [""]
  | String c s' =>
      if Ascii.eqb c sep then "" :: Split s' sep
      else
        match Split s' sep with
        | p :: ps => String c p :: ps
        | [] => [String c ""]
        end
  end.

(** [strings.Fields]; [cur] is the word being read. *)
Fixpoint fieldsFrom (s cur : string) : list string :=
  match s with
  | "" => if decide (cur = "") then [] else [cur]
  | String c s' =>
      if isSpace c
      then (if decide (cur = "") then [] else [cur]) ++ fieldsFrom s' ""
      else fieldsFrom s' (cur ++ String c "")
  end.

Definition Fields (s : string) : list string := fieldsFrom s "".

Fixpoint TrimLeftSpace (s : string) : string :=
  match s with
  | String c s' => if isSpace c then TrimLeftSpace s' else s
  | "" => ""
  end.

Fixpoint srev (s : string) : string :=
  match s with "" => "" | String c s' => srev s' ++ String c "" end.

Definition TrimSpace (s : string) : string :=
  srev (TrimLeftSpace (srev (TrimLeftSpace s))).

Definition Join (l : list string) (sep : string) : string := String.concat sep l.

(** ** Package [strconv] *)

Definition Itoa (z : Z) : string := pretty z.

Definition hexDigit (n : nat) : Ascii.ascii :=
  Ascii.ascii_of_nat (if Nat.ltb n 10 then 48 + n else 87 + n).

(** One character of [strconv.Quote], for ASCII. *)
Definition quoteChar (c : Ascii.ascii) : string :=
  let n := Ascii.nat_of_ascii c in
  let esc (k : nat) : string := String (Ascii.ascii_of_nat 92) (String (Ascii.ascii_of_nat k) "") in
  match n with
  | 34 => esc 34
  | 92 => esc 92
  | 7 => esc 97
  | 8 => esc 98
  | 9 => esc 116
  | 10 => esc 110
  | 11 => esc 118
  | 12 => esc 102
  | 13 => esc 114
  | _ =>
      if (Nat.ltb n 32 || Nat.leb 127 n)%bool
      then esc 120 ++ String (hexDigit (n / 16)) (String (hexDigit (n mod 16)) "")
      else String c ""
  end.

(** [strconv.Quote] ([%q]). *)
Fixpoint quoteBody (s : string) : string :=
  match s with "" => "" | String c s' => quoteChar c ++ quoteBody s' end.

Definition Quote (s : string) : string := dquote ++ quoteBody s ++ dquote.

Fixpoint digits (s : string) (acc : Z) : option Z :=
  match s with
  | "" => Some acc
  | String c s' =>
      if isDigit c then digits s' (10 * acc + (Z.of_nat (Ascii.nat_of_ascii c) - 48))%Z
      else None
  end.

Definition minInt : Z := (- 2 ^ 63)%Z.
Definition maxInt : Z := (2 ^ 63 - 1)%Z.

(** [strconv.Atoi] on a 64-bit platform: an optional sign, at least one digit,
    and a value that fits [int]. *)
Definition Atoi (s : string) : option Z :=
  let '(neg, body) :=
    match s with
    | String "-"%char s' => (true, s')
    | String "+"%char s' => (false, s')
    | _ => (false, s)
    end in
  if decide (body = "") then None
  else
    match digits body 0 with
    | Some z =>
        let z := if neg : bool then (- z)%Z else z in
        if ((minInt <=? z)%Z && (z <=? maxInt)%Z) then Some z else None
    | None => None
    end.

(** ** Integers *)

(** The value of type [int] (64 bits, two's complement) congruent to [z]. *)
Definition int64 (z : Z) : Z := ((z + 2 ^ 63) mod 2 ^ 64 - 2 ^ 63)%Z.

Definition uint32 (z : Z) : Z := (z mod 2 ^ 32)%Z.

Definition byte (z : Z) : Z := (z mod 2 ^ 8)%Z.

(** ** Lemmas *)

Lemma HasPrefix_spec s p : HasPrefix s p = true ↔ ∃ t, s = p ++ t.
Proof.
  unfold HasPrefix. revert s. induction p as [|c p IH]; intros s.
  { split; [by exists s|by destruct s]. }
  destruct s as [|d s]; [split; [done|by intros [t [=]]]|]. simpl.
  destruct (Ascii.ascii_dec c d) as [->|Hcd].
  - rewrite IH. split; intros [t E]; exists t; [by rewrite E|by injection E].
  - split; [done|]. intros [t E]. injection E as -> _. done.
Qed.

Lemma sdrop_app p t : sdrop (String.length p) (p ++ t) = t.
Proof. by induction p. Qed.

Lemma TrimPrefix_app p t : TrimPrefix (p ++ t) p = t.
Proof.
  unfold TrimPrefix. rewrite (proj2 (HasPrefix_spec _ _)) by by exists t. apply sdrop_app.
Qed.

Lemma Cut_unfold s sep :
  Cut s sep =
    if HasPrefix s sep then Some ("", sdrop (String.length sep) s)
    else
      match s with
      | "" => None
      | String c s' =>
          match Cut s' sep with
          | Some (before, after) => Some (String c before, after)
          | None => None
          end
      end.
Proof. by destruct s. Qed.

Lemma Cut_Some s sep before after :
  Cut s sep = Some (before, after) → s = before ++ sep ++ after.
Proof.
  revert before. induction s as [|c s IH]; intros before; rewrite Cut_unfold;
    destruct (HasPrefix _ sep) eqn:Hp; try done.
  - destruct sep; [|done]. by intros [= <- <-].
  - apply HasPrefix_spec in Hp as [t ->]. intros [= <- <-]. by rewrite sdrop_app.
  - destruct (Cut s sep) as [[b a]|] eqn:E; [|done]. intros [= <- <-].
    by rewrite (IH b eq_refl) at 1.
Qed.

Lemma int64_small z : (minInt <= z <= maxInt)%Z → int64 z = z.
Proof. unfold int64, minInt, maxInt. intros Hz. rewrite Z.mod_small; lia. Qed.

Lemma int64_range z : (minInt <= int64 z <= maxInt)%Z.
Proof.
  unfold int64, minInt, maxInt. pose proof (Z.mod_pos_bound (z + 2 ^ 63) (2 ^ 64)). lia.
Qed.

Lemma uint32_range z : (0 <= uint32 z < 2 ^ 32)%Z.
Proof. apply Z.mod_pos_bound. lia. Qed.

Lemma uint32_small z : (0 <= z < 2 ^ 32)%Z → uint32 z = z.
Proof. apply Z.mod_small. Qed.

(** ** Words and white space *)

Fixpoint allChars (P : Ascii.ascii → bool) (s : string) : bool :=
  match s with "" => true | String c s' => P c && allChars P s' end.

(** No white space, and no white space and not empty. *)
Definition spaceFree (s : string) : bool := allChars (λ c, negb (isSpace c)) s.
Definition word (s : string) : Prop := s ≠ "" ∧ spaceFree s = true.

Lemma allChars_app P s t : allChars P (s ++ t) = allChars P s && allChars P t.
Proof.
  induction s as [|c s IH]; [done|]. change (String c s ++ t) with (String c (s ++ t)). simpl.
  by rewrite IH, andb_assoc.
Qed.

Lemma allChars_srev P s : allChars P (srev s) = allChars P s.
Proof.
  induction s as [|c s IH]; [done|]. simpl. rewrite allChars_app, IH. simpl.
  by rewrite andb_true_r, andb_comm.
Qed.

Lemma TrimLeftSpace_nil s : TrimLeftSpace s = "" → allChars isSpace s = true.
Proof. induction s as [|c s IH]; simpl; [done|]. destruct (isSpace c); [done|discriminate]. Qed.

Lemma TrimLeftSpace_all s : allChars isSpace (TrimLeftSpace s) = allChars isSpace s.
Proof. induction s as [|c s IH]; simpl; [done|]. destruct (isSpace c) eqn:E; simpl; [done|by rewrite E]. Qed.

Lemma srev_nil s : srev s = "" → s = "".
Proof. destruct s as [|c s]; [done|]. simpl. destruct (srev s); discriminate. Qed.

Lemma TrimSpace_nil s : TrimSpace s = "" → allChars isSpace s = true.
Proof.
  unfold TrimSpace. intros E%srev_nil%TrimLeftSpace_nil.
  by rewrite allChars_srev, TrimLeftSpace_all in E.
Qed.

Lemma fieldsFrom_spaces s : allChars isSpace s = true → Fields s = [].
Proof.
  unfold Fields. induction s as [|c s IH]; simpl; [done|].
  intros [-> Hs]%andb_prop. by rewrite IH.
Qed.

Lemma sapp_cons c s t : String c s ++ t = String c (s ++ t).
Proof. done. Qed.

Lemma sapp_nil_r s : s ++ "" = s.
Proof. induction s as [|c s IH]; [done|]. by rewrite sapp_cons, IH. Qed.

Lemma sapp_assoc s t u : s ++ (t ++ u) = (s ++ t) ++ u.
Proof. induction s as [|c s IH]; [done|]. by rewrite !sapp_cons, IH. Qed.

Lemma fieldsFrom_word w s cur :
  spaceFree w = true → fieldsFrom (w ++ s) cur = fieldsFrom s (cur ++ w).
Proof.
  revert cur. induction w as [|c w IH]; intros cur; [by rewrite sapp_nil_r|].
  unfold spaceFree. simpl. intros [Hc Hw]%andb_prop. apply negb_true_iff in Hc. rewrite Hc.
  rewrite IH by done. by rewrite <-sapp_assoc.
Qed.

(** [strings.Fields] undoes joining words with spaces. *)
Lemma Fields_Join ws : Forall word ws → Fields (Join ws " ") = ws.
Proof.
  unfold Fields, Join. induction ws as [|w ws IH]; [done|]. intros [[Hne Hw] Hws]%Forall_cons.
  destruct ws as [|w' ws].
  - simpl. rewrite <-(sapp_nil_r w) at 1. rewrite fieldsFrom_word by done. simpl.
    by rewrite decide_False.
  - change (String.concat " " (w :: w' :: ws)) with (w ++ (" " ++ String.concat " " (w' :: ws))).
    rewrite fieldsFrom_word by done. change ("" ++ w) with w.
    change (" " ++ ?s) with (String " "%char s). cbn [fieldsFrom].
    replace (isSpace " ") with true by done. rewrite decide_False by done.
    by rewrite (IH Hws).
Qed.

Lemma length_sapp s t : String.length (s ++ t) = (String.length s + String.length t)%nat.
Proof. induction s as [|c s IH]; [done|]. rewrite sapp_cons. simpl. by rewrite IH. Qed.

(** [strings.Cut] at a character that does not occur before. *)
Lemma Cut_char s (c : Ascii.ascii) t :
  allChars (λ d, negb (Ascii.eqb d c)) s = true →
  Cut (s ++ String c "" ++ t) (String c "") = Some (s, t).
Proof.
  induction s as [|d s IH]; intros Hs; rewrite Cut_unfold.
  - simpl. destruct (Ascii.ascii_dec c c); [|done]. by destruct t.
  - simpl in Hs. apply andb_prop in Hs as [Hd Hs]. rewrite sapp_cons. unfold HasPrefix. simpl.
    destruct (Ascii.ascii_dec c d) as [->|]; [by rewrite Ascii.eqb_refl in Hd|].
    fold (Cut (s ++ String c "" ++ t) (String c "")).
    change (s +:+ String c t) with (s ++ String c "" ++ t). by rewrite IH.
Qed.

Lemma Cut_char_None s (c : Ascii.ascii) :
  allChars (λ d, negb (Ascii.eqb d c)) s = true → Cut s (String c "") = None.
Proof.
  induction s as [|d s IH]; intros Hs; rewrite Cut_unfold; [done|].
  simpl in Hs. apply andb_prop in Hs as [Hd Hs]. unfold HasPrefix. simpl.
  destruct (Ascii.ascii_dec c d) as [->|]; [by rewrite Ascii.eqb_refl in Hd|]. by rewrite IH.
Qed.

(** ** Lines *)

Definition without (sep : Ascii.ascii) (s : string) : bool := allChars (λ c, negb (Ascii.eqb c sep)) s.

Lemma Split_whole sep s : without sep s = true → Split s sep = [s].
Proof.
  induction s as [|c s IH]; [done|]. intros [Hc%negb_true_iff Hs]%andb_true_iff.
  simpl. by rewrite Hc, IH.
Qed.

Lemma Split_first sep s t :
  without sep s = true → Split (s ++ String sep t) sep = (s :: Split t sep)%list.
Proof.
  induction s as [|c s IH]; intros Hs.
  - change ("" ++ String sep t) with (String sep t). simpl. by rewrite Ascii.eqb_refl.
  - apply andb_true_iff in Hs as [Hc%negb_true_iff Hs]. rewrite sapp_cons. simpl.
    by rewrite Hc, IH.
Qed.

(** Splitting joined pieces gives the pieces back. *)
Lemma Split_Join sep ls :
  ls ≠ [] → Forall (λ s, without sep s = true) ls → Split (Join ls (String sep "")) sep = ls.
Proof.
  unfold Join. intros Hne Hls. induction Hls as [|s ls Hs Hls IH]; [done|].
  destruct ls as [|s' ls]; [by apply Split_whole|].
  change (String.concat (String sep "") (s :: s' :: ls))
    with (s ++ String sep (String.concat (String sep "") (s' :: ls))).
  rewrite Split_first by done. by rewrite IH.
Qed.

(** A word has no white space, so no line break. *)
Lemma word_without sep s : isSpace sep = true → word s → without sep s = true.
Proof.
  intros Hsep [_ Hs]. unfold spaceFree, without in *. induction s as [|c s IH]; [done|].
  simpl in *. apply andb_true_iff in Hs as [Hc Hs]. apply andb_true_iff. split; [|auto].
  apply negb_true_iff. destruct (Ascii.eqb_spec c sep) as [->|]; [|done].
  by rewrite Hsep in Hc.
Qed.

Lemma without_app sep s t : without sep (s ++ t) = without sep s && without sep t.
Proof. apply allChars_app. Qed.

Lemma without_Join sep p ls :
  without sep p = true → Forall (λ s, without sep s = true) ls → without sep (Join ls p) = true.
Proof.
  unfold Join. intros Hp Hls. induction Hls as [|s ls Hs Hls IH]; [done|].
  destruct ls as [|s' ls]; [done|].
  change (String.concat p (s :: s' :: ls)) with (s ++ (p ++ String.concat p (s' :: ls))).
  by rewrite !without_app, Hs, Hp, IH.
Qed.

(** ** Decimal numerals *)

Lemma N_char_digit x : (x < 10)%N → isDigit (pretty_N_char x) = true ∧
  (Z.of_nat (nat_of_ascii (pretty_N_char x)) - 48 = Z.of_N x)%Z.
Proof.
  intros Hx. assert (x = 0 ∨ x = 1 ∨ x = 2 ∨ x = 3 ∨ x = 4 ∨ x = 5 ∨ x = 6 ∨ x = 7 ∨ x = 8 ∨ x = 9)%N as Hc by lia.
  destruct_or! Hc; subst; by vm_compute.
Qed.

Lemma pretty_N_go_digits x s :
  ∃ d, pretty_N_go x s = d ++ s ∧ allChars isDigit d = true ∧ (∀ t, digits (d ++ t) 0 = digits t (Z.of_N x)) ∧
       ((0 < x)%N → d ≠ "").
Proof.
  revert s. induction (N.lt_wf_0 x) as [x _ IH]; intros s. destruct (decide (x = 0)%N) as [->|Hx].
  { exists "". split_and!; [done..|lia]. }
  rewrite pretty_N_go_step by lia. set (c := pretty_N_char (x `mod` 10)).
  destruct (IH (x `div` 10)%N ltac:(apply N.div_lt; lia) (String c s)) as (d & Ed & Hd & Hv & _).
  destruct (N_char_digit (x `mod` 10) ltac:(apply N.mod_lt; lia)) as [Hc Hcv]. fold c in Hc, Hcv.
  exists (d ++ String c ""). split_and!.
  - by rewrite Ed, <- sapp_assoc.
  - rewrite allChars_app, Hd. simpl. by rewrite Hc.
  - intros t. rewrite <- sapp_assoc, sapp_cons, Hv. cbn [digits]. rewrite Hc, Hcv. f_equal.
    rewrite (N.div_mod x 10) at 3 by lia. lia.
  - intros _. destruct d; discriminate.
Qed.

(** The decimal numeral of a number that is not negative. *)
Lemma Itoa_digits n :
  (0 <= n)%Z → allChars isDigit (Itoa n) = true ∧ digits (Itoa n) 0 = Some n ∧ Itoa n ≠ "".
Proof.
  intros Hn. destruct n as [|p|p]; [done| |lia]. unfold Itoa, pretty, pretty_Z, pretty, pretty_positive, pretty, pretty_N.
  rewrite decide_False by done.
  destruct (pretty_N_go_digits (N.pos p) "") as (d & Ed & Hd & Hv & Hne). rewrite Ed, sapp_nil_r.
  split_and!; [done| |by apply Hne; lia]. specialize (Hv ""). by rewrite sapp_nil_r in Hv.
Qed.

Lemma allChars_impl (P Q : ascii → bool) s : (∀ c, P c = true → Q c = true) → allChars P s = true → allChars Q s = true.
Proof.
  intros HPQ. induction s as [|c s IH]; [done|]. simpl. intros [Hc Hs]%andb_true_iff. by rewrite HPQ, IH.
Qed.

Lemma srev_snoc s c : srev (s ++ String c "") = String c (srev s).
Proof. induction s as [|d s IH]; [done|]. rewrite sapp_cons. cbn [srev]. by rewrite IH. Qed.

Lemma srev_srev s : srev (srev s) = s.
Proof. induction s as [|c s IH]; [done|]. cbn [srev]. by rewrite srev_snoc, IH. Qed.

Lemma TrimSpace_spaceFree s : spaceFree s = true → TrimSpace s = s.
Proof.
  unfold spaceFree. assert (∀ t, allChars (λ c, negb (isSpace c)) t = true → TrimLeftSpace t = t) as Hl.
  { intros [|c t]; [done|]. simpl. intros [Hc _]%andb_true_iff. by destruct (isSpace c). }
  intros Hs. unfold TrimSpace. rewrite (Hl s Hs), (Hl (srev s)), srev_srev; [done|]. by rewrite allChars_srev.
Qed.
