(* ===== verification/Errs.v ===== *)
(** * Error values: [pkg/errs]

    The error type of the whole program ([domain.go]), its code table
    ([codes.go]), and the result types the API returns ([result.go],
    [batch.go]).  A Go [error] is a tree of wrapped causes; the checks
    ([IsNotFound], [IsRetryable], ...) walk it.  The theorems say that the walks
    stop and what they compute, and which codes the class table leaves out. *)

From stdpp Require Import gmap strings list.
From S2P Require Import Prelude.

(** ** Codes and classes *)

Definition Code := string.

Inductive Class_ :=
  | ClassUnknown
  | ClassValidation
  | ClassConflict
  | ClassRetryable
  | ClassInternal
  | ClassNeedsInteraction.

#[export] Instance Class_eq_dec : EqDecision Class_.
Proof. solve_decision. Defined.

(** VM domain *)
Definition CodeVMNotFound : Code := "vm.not_found".
Definition CodeVMAlreadyExists : Code := "vm.already_exists".
Definition CodeVMStateInvalid : Code := "vm.state.invalid".
Definition CodeVMCreateFailed : Code := "vm.create.failed".
Definition CodeVMBuilderFailed : Code := "vm.create.builder_failed".
Definition CodeVMResolveFailed : Code := "vm.resolve.failed".
Definition CodeVMResourceExhausted : Code := "vm.resource.exhausted".
Definition CodeVMBinaryNotFound : Code := "vm.create.binary_not_found".
Definition CodeVMImageNotFound : Code := "vm.create.image_not_found".
Definition CodeVMKernelNotFound : Code := "vm.create.kernel_not_found".
Definition CodeVMNetworkNotFound : Code := "vm.create.network_not_found".
Definition CodeVMSSHKeyNotFound : Code := "vm.create.ssh_key_not_found".
Definition CodeVMNameCollision : Code := "vm.name_collision".
Definition CodeVMAtomicFailed : Code := "vm.atomic_failed".
Definition CodeVMCreateFailure : Code := "vm.create_failure".
Definition CodeVMSnapshotFailed : Code := "vm.snapshot_failed".
Definition CodeVMLoadSnapshotFailed : Code := "vm.load_snapshot_failed".

(** Network domain *)
Definition CodeNetworkSubnetOverlap : Code := "network.subnet.overlap".
Definition CodeNetworkNotFound : Code := "network.not_found".
Definition CodeNetworkAlreadyExists : Code := "network.already_exists".
Definition CodeNetworkBridgeFailed : Code := "network.bridge.failed".
Definition CodeNetworkNATFailed : Code := "network.nat.failed".
Definition CodeNetworkLeaseFailed : Code := "network.lease.failed".
Definition CodeNetworkLeaseExhausted : Code := "network.lease.exhausted".
Definition CodeNetworkFirewallFailed : Code := "network.firewall.failed".
Definition CodeNetworkCreateFailed : Code := "network.create_failed".
Definition CodeNetworkRemoveFailed : Code := "network.remove_failed".
Definition CodeNetworkDefaultSetFailed : Code := "network.default_set_failed".
Definition CodeNetworkDefaultCreateFailed : Code := "network.default_created_failed".

(** Image domain *)
Definition CodeImageNotFound : Code := "image.not_found".
Definition CodeImageAlreadyExists : Code := "image.already_exists".
Definition CodeImagePullFailed : Code := "image.pull.failed".
Definition CodeImageImportFailed : Code := "image.import.failed".
Definition CodeImageChecksumMismatch : Code := "image.checksum.mismatch".
Definition CodeImageCorrupt : Code := "image.corrupt".
Definition CodeImageEmpty : Code := "image.empty".
Definition CodeImageFormatInvalid : Code := "image.format.invalid".
Definition CodeImageError : Code := "image.error".
Definition CodeImageCompressionError : Code := "image.compression.failed".
Definition CodeImageDecompressionError : Code := "image.decompression.failed".
Definition CodeRootPartitionDetection : Code := "image.root_partition_detection".
Definition CodeTieDetected : Code := "image.tie_detected".
Definition CodeImageAcquireFailed : Code := "image.acquire_failed".
Definition CodeImageWarmFailed : Code := "image.warm_failed".

(** Kernel domain *)
Definition CodeKernelNotFound : Code := "kernel.not_found".
Definition CodeKernelBuildFailed : Code := "kernel.build.failed".
Definition CodeKernelConfigFailed : Code := "kernel.config.failed".
Definition CodeKernelPullFailed : Code := "kernel.pull_failed".
Definition CodeKernelImportFailed : Code := "kernel.import_failed".
Definition CodeKernelDefaultSetFailed : Code := "kernel.default_set_failed".

(** Binary domain *)
Definition CodeBinaryNotFound : Code := "binary.not_found".
Definition CodeBinaryAlreadyExists : Code := "binary.already_exists".
Definition CodeBinaryVersionGate : Code := "binary.version.gate".
Definition CodeBinaryError : Code := "binary.error".
Definition CodeBinaryPullFailed : Code := "binary.pull_failed".
Definition CodeBinaryRemoveFailed : Code := "binary.remove_failed".
Definition CodeBinaryDefaultSetFailed : Code := "binary.default_set_failed".
Definition CodeBinaryEnsureDefaultFailed : Code := "binary.ensure_default_failed".
Definition CodeBinaryNoCIVersion : Code := "binary.no_ci_version".

(** Volume domain *)
Definition CodeVolumeNotFound : Code := "volume.not_found".
Definition CodeVolumeAlreadyExists : Code := "volume.already_exists".
Definition CodeVolumeError : Code := "volume.error".
Definition CodeVolumeResizeFailed : Code := "volume.resize_failed".

(** Key domain *)
Definition CodeKeyNotFound : Code := "key.not_found".
Definition CodeKeyAlreadyExists : Code := "key.already_exists".
Definition CodeKeyExportFailed : Code := "key.export.failed".
Definition CodeKeyDependencyMissing : Code := "key.dependency.missing".
Definition CodeKeyCreateFailed : Code := "key.create_failed".
Definition CodeKeyAddFailed : Code := "key.add_failed".
Definition CodeKeyDefaultSetFailed : Code := "key.default_set_failed".
Definition CodeKeyDefaultsClearFailed : Code := "key.defaults_clear_failed".

(** Host domain *)
Definition CodeHostInitFailed : Code := "host.init.failed".
Definition CodeHostCleanFailed : Code := "host.clean.failed".
Definition CodeHostResetFailed : Code := "host.reset.failed".
Definition CodePrivilegeRequired : Code := "host.privilege.required".
Definition CodePrivilegeSudoers : Code := "host.init.sudoers.failed".
Definition CodeHostInfoFailed : Code := "host.info_failed".
Definition CodeHostCapacityFailed : Code := "host.capacity_failed".

(** Cloud-init domain *)
Definition CodeCloudInitProvisionFailed : Code := "cloudinit.provision.failed".
Definition CodeCloudInitNetModeFailed : Code := "cloudinit.net_mode.failed".
Definition CodeCloudInitISOModeFailed : Code := "cloudinit.iso_mode.failed".
Definition CodeCloudInitInjectFailed : Code := "cloudinit.inject.failed".
Definition CodeCloudInitModeError : Code := "cloudinit.mode.error".
Definition CodeCloudInitOffModeError : Code := "cloudinit.off_mode.error".

(** Console domain *)
Definition CodeConsoleRelayFailed : Code := "console.relay.failed".
Definition CodeConsoleNotRunning : Code := "console.not_running".
Definition CodeConsoleKillFailed : Code := "console.kill_failed".

(** Logs domain *)
Definition CodeLogsError : Code := "logs.error".

(** Firecracker domain *)
Definition CodeFirecrackerError : Code := "firecracker.error".
Definition CodeFirecrackerClientError : Code := "firecracker.client.error".
Definition CodeFirecrackerSpawnError : Code := "firecracker.spawn.failed".
Definition CodeFirecrackerConfigError : Code := "firecracker.config.failed".
Definition CodeFirecrackerSocketNotFound : Code := "firecracker.socket.not_found".

(** GuestFS domain *)
Definition CodeGuestfsError : Code := "guestfs.error".
Definition CodeGuestfsNotAvailable : Code := "guestfs.not_available".
Definition CodeGuestfsWriteError : Code := "guestfs.write.failed".

(** LoopMount domain *)
Definition CodeLoopMountError : Code := "loopmount.error".
Definition CodeLoopMountBinaryNotFound : Code := "loopmount.binary.not_found".
Definition CodeLoopMountTimeout : Code := "loopmount.timeout".

(** SSH/CP domain *)
Definition CodeSSHError : Code := "ssh.error".
Definition CodeCPError : Code := "cp.error".
Definition CodeCPSourceNotFound : Code := "cp.source.not_found".
Definition CodeCPSourceFailed : Code := "cp.source.failed".
Definition CodeCPCopyFailed : Code := "cp.copy.failed".
Definition CodeCPDestinationExists : Code := "cp.destination.exists".
Definition CodeCPDestinationFailed : Code := "cp.destination.failed".
Definition CodeCPDestinationNotDir : Code := "cp.destination.not_directory".
Definition CodeCPMultiSourceNoVMDest : Code := "cp.multi_source_no_vm_destination".
Definition CodeCPResolveFailed : Code := "cp.resolve_failed".
Definition CodeCPNoVMSpecified : Code := "cp.no_vm_specified".
Definition CodeCPVMNoIP : Code := "cp.vm_no_ip".
Definition CodeCPVMNotFound : Code := "cp.vm_not_found".

(** Vsock domain *)
Definition CodeVsockNotFound : Code := "vsock.not_found".
Definition CodeVsockConnectionFailed : Code := "vsock.connection_failed".
Definition CodeVsockHandshakeFailed : Code := "vsock.handshake_failed".
Definition CodeAgentUnreachable : Code := "agent.unreachable".
Definition CodeVsockExecFailed : Code := "vsock.exec_failed".
Definition CodeVsockUpgradeInProgress : Code := "vsock.upgrade_in_progress".
Definition CodeVsockConfigNotFound : Code := "vsock.config.not_found".

(** Remote exec domain *)
Definition CodeUnauthorized : Code := "auth.unauthorized".
Definition CodeVMNotRunning : Code := "vm.not_running".

(** BundledAsset domain *)
Definition CodeBundledAssetError : Code := "bundled_asset.error".
Definition CodeBundledAssetNotFound : Code := "bundled_asset.not_found".

(** Snapshot domain *)
Definition CodeSnapshotNotFound : Code := "snapshot.not_found".
Definition CodeSnapshotAlreadyExists : Code := "snapshot.already_exists".
Definition CodeSnapshotCreateFailed : Code := "snapshot.create_failed".
Definition CodeSnapshotRestoreFailed : Code := "snapshot.restore_failed".
Definition CodeSnapshotRemoveFailed : Code := "snapshot.remove_failed".

(** Common *)
Definition CodeNetworkError : Code := "network.error".
Definition CodeKeyError : Code := "key.error".
Definition CodeVersionResolveFailed : Code := "version.resolve.failed".
Definition CodeInternal : Code := "internal".
Definition CodeNotImplemented : Code := "not_implemented".
Definition CodeValidationFailed : Code := "validation.failed".
Definition CodeDatabaseError : Code := "database.error".
Definition CodeMigrationFailed : Code := "database.migration.failed".
Definition CodeProcessError : Code := "process.error".
Definition CodeDownloadFailed : Code := "download.failed".
Definition CodeHTTPError : Code := "http.error".
Definition CodeConfigError : Code := "config.error".
Definition CodeCacheCleanFailed : Code := "cache.clean_failed".

(** Every code of the [const] block, in order. *)
Definition allCodes : list Code :=
  [CodeVMNotFound;
   CodeVMAlreadyExists;
   CodeVMStateInvalid;
   CodeVMCreateFailed;
   CodeVMBuilderFailed;
   CodeVMResolveFailed;
   CodeVMResourceExhausted;
   CodeVMBinaryNotFound;
   CodeVMImageNotFound;
   CodeVMKernelNotFound;
   CodeVMNetworkNotFound;
   CodeVMSSHKeyNotFound;
   CodeVMNameCollision;
   CodeVMAtomicFailed;
   CodeVMCreateFailure;
   CodeVMSnapshotFailed;
   CodeVMLoadSnapshotFailed;
   CodeNetworkSubnetOverlap;
   CodeNetworkNotFound;
   CodeNetworkAlreadyExists;
   CodeNetworkBridgeFailed;
   CodeNetworkNATFailed;
   CodeNetworkLeaseFailed;
   CodeNetworkLeaseExhausted;
   CodeNetworkFirewallFailed;
   CodeNetworkCreateFailed;
   CodeNetworkRemoveFailed;
   CodeNetworkDefaultSetFailed;
   CodeNetworkDefaultCreateFailed;
   CodeImageNotFound;
   CodeImageAlreadyExists;
   CodeImagePullFailed;
   CodeImageImportFailed;
   CodeImageChecksumMismatch;
   CodeImageCorrupt;
   CodeImageEmpty;
   CodeImageFormatInvalid;
   CodeImageError;
   CodeImageCompressionError;
   CodeImageDecompressionError;
   CodeRootPartitionDetection;
   CodeTieDetected;
   CodeImageAcquireFailed;
   CodeImageWarmFailed;
   CodeKernelNotFound;
   CodeKernelBuildFailed;
   CodeKernelConfigFailed;
   CodeKernelPullFailed;
   CodeKernelImportFailed;
   CodeKernelDefaultSetFailed;
   CodeBinaryNotFound;
   CodeBinaryAlreadyExists;
   CodeBinaryVersionGate;
   CodeBinaryError;
   CodeBinaryPullFailed;
   CodeBinaryRemoveFailed;
   CodeBinaryDefaultSetFailed;
   CodeBinaryEnsureDefaultFailed;
   CodeBinaryNoCIVersion;
   CodeVolumeNotFound;
   CodeVolumeAlreadyExists;
   CodeVolumeError;
   CodeVolumeResizeFailed;
   CodeKeyNotFound;
   CodeKeyAlreadyExists;
   CodeKeyExportFailed;
   CodeKeyDependencyMissing;
   CodeKeyCreateFailed;
   CodeKeyAddFailed;
   CodeKeyDefaultSetFailed;
   CodeKeyDefaultsClearFailed;
   CodeHostInitFailed;
   CodeHostCleanFailed;
   CodeHostResetFailed;
   CodePrivilegeRequired;
   CodePrivilegeSudoers;
   CodeHostInfoFailed;
   CodeHostCapacityFailed;
   CodeCloudInitProvisionFailed;
   CodeCloudInitNetModeFailed;
   CodeCloudInitISOModeFailed;
   CodeCloudInitInjectFailed;
   CodeCloudInitModeError;
   CodeCloudInitOffModeError;
   CodeConsoleRelayFailed;
   CodeConsoleNotRunning;
   CodeConsoleKillFailed;
   CodeLogsError;
   CodeFirecrackerError;
   CodeFirecrackerClientError;
   CodeFirecrackerSpawnError;
   CodeFirecrackerConfigError;
   CodeFirecrackerSocketNotFound;
   CodeGuestfsError;
   CodeGuestfsNotAvailable;
   CodeGuestfsWriteError;
   CodeLoopMountError;
   CodeLoopMountBinaryNotFound;
   CodeLoopMountTimeout;
   CodeSSHError;
   CodeCPError;
   CodeCPSourceNotFound;
   CodeCPSourceFailed;
   CodeCPCopyFailed;
   CodeCPDestinationExists;
   CodeCPDestinationFailed;
   CodeCPDestinationNotDir;
   CodeCPMultiSourceNoVMDest;
   CodeCPResolveFailed;
   CodeCPNoVMSpecified;
   CodeCPVMNoIP;
   CodeCPVMNotFound;
   CodeVsockNotFound;
   CodeVsockConnectionFailed;
   CodeVsockHandshakeFailed;
   CodeAgentUnreachable;
   CodeVsockExecFailed;
   CodeVsockUpgradeInProgress;
   CodeVsockConfigNotFound;
   CodeUnauthorized;
   CodeVMNotRunning;
   CodeBundledAssetError;
   CodeBundledAssetNotFound;
   CodeSnapshotNotFound;
   CodeSnapshotAlreadyExists;
   CodeSnapshotCreateFailed;
   CodeSnapshotRestoreFailed;
   CodeSnapshotRemoveFailed;
   CodeNetworkError;
   CodeKeyError;
   CodeVersionResolveFailed;
   CodeInternal;
   CodeNotImplemented;
   CodeValidationFailed;
   CodeDatabaseError;
   CodeMigrationFailed;
   CodeProcessError;
   CodeDownloadFailed;
   CodeHTTPError;
   CodeConfigError;
   CodeCacheCleanFailed].

(** ** Code to class and operation *)

Definition codeClassMap : gmap Code Class_ := list_to_map
  [(CodeVMNotFound, ClassValidation);
   (CodeVMAlreadyExists, ClassConflict);
   (CodeVMStateInvalid, ClassValidation);
   (CodeVMCreateFailed, ClassInternal);
   (CodeVMBuilderFailed, ClassInternal);
   (CodeVMResolveFailed, ClassValidation);
   (CodeVMResourceExhausted, ClassValidation);
   (CodeVMBinaryNotFound, ClassValidation);
   (CodeVMImageNotFound, ClassValidation);
   (CodeVMKernelNotFound, ClassValidation);
   (CodeVMNetworkNotFound, ClassValidation);
   (CodeVMSSHKeyNotFound, ClassValidation);
   (CodeVMNameCollision, ClassValidation);
   (CodeVMAtomicFailed, ClassInternal);
   (CodeVMCreateFailure, ClassInternal);
   (CodeVMSnapshotFailed, ClassInternal);
   (CodeVMLoadSnapshotFailed, ClassInternal);
   (CodeNetworkSubnetOverlap, ClassValidation);
   (CodeNetworkNotFound, ClassValidation);
   (CodeNetworkAlreadyExists, ClassConflict);
   (CodeNetworkBridgeFailed, ClassInternal);
   (CodeNetworkNATFailed, ClassInternal);
   (CodeNetworkLeaseFailed, ClassInternal);
   (CodeNetworkLeaseExhausted, ClassRetryable);
   (CodeNetworkFirewallFailed, ClassInternal);
   (CodeNetworkCreateFailed, ClassInternal);
   (CodeNetworkRemoveFailed, ClassInternal);
   (CodeNetworkDefaultSetFailed, ClassInternal);
   (CodeNetworkDefaultCreateFailed, ClassInternal);
   (CodeImageNotFound, ClassValidation);
   (CodeImageAlreadyExists, ClassConflict);
   (CodeImagePullFailed, ClassInternal);
   (CodeImageImportFailed, ClassInternal);
   (CodeImageChecksumMismatch, ClassValidation);
   (CodeImageCorrupt, ClassValidation);
   (CodeImageEmpty, ClassValidation);
   (CodeImageFormatInvalid, ClassValidation);
   (CodeImageError, ClassInternal);
   (CodeImageCompressionError, ClassInternal);
   (CodeImageDecompressionError, ClassInternal);
   (CodeRootPartitionDetection, ClassInternal);
   (CodeTieDetected, ClassInternal);
   (CodeImageAcquireFailed, ClassInternal);
   (CodeImageWarmFailed, ClassInternal);
   (CodeKernelNotFound, ClassValidation);
   (CodeKernelBuildFailed, ClassRetryable);
   (CodeKernelConfigFailed, ClassInternal);
   (CodeKernelPullFailed, ClassInternal);
   (CodeKernelImportFailed, ClassInternal);
   (CodeKernelDefaultSetFailed, ClassInternal);
   (CodeBinaryNotFound, ClassValidation);
   (CodeBinaryAlreadyExists, ClassConflict);
   (CodeBinaryVersionGate, ClassValidation);
   (CodeBinaryError, ClassInternal);
   (CodeBinaryPullFailed, ClassInternal);
   (CodeBinaryRemoveFailed, ClassInternal);
   (CodeBinaryDefaultSetFailed, ClassInternal);
   (CodeBinaryEnsureDefaultFailed, ClassInternal);
   (CodeBinaryNoCIVersion, ClassValidation);
   (CodeVolumeNotFound, ClassValidation);
   (CodeVolumeAlreadyExists, ClassConflict);
   (CodeVolumeError, ClassInternal);
   (CodeVolumeResizeFailed, ClassInternal);
   (CodeKeyNotFound, ClassValidation);
   (CodeKeyAlreadyExists, ClassConflict);
   (CodeKeyExportFailed, ClassValidation);
   (CodeKeyDependencyMissing, ClassValidation);
   (CodeKeyCreateFailed, ClassInternal);
   (CodeKeyAddFailed, ClassInternal);
   (CodeKeyDefaultSetFailed, ClassInternal);
   (CodeKeyDefaultsClearFailed, ClassInternal);
   (CodeHostInitFailed, ClassInternal);
   (CodeHostCleanFailed, ClassInternal);
   (CodeHostResetFailed, ClassInternal);
   (CodePrivilegeRequired, ClassNeedsInteraction);
   (CodePrivilegeSudoers, ClassValidation);
   (CodeHostInfoFailed, ClassInternal);
   (CodeHostCapacityFailed, ClassInternal);
   (CodeCloudInitProvisionFailed, ClassInternal);
   (CodeCloudInitNetModeFailed, ClassInternal);
   (CodeCloudInitISOModeFailed, ClassInternal);
   (CodeCloudInitInjectFailed, ClassInternal);
   (CodeCloudInitModeError, ClassValidation);
   (CodeCloudInitOffModeError, ClassInternal);
   (CodeConsoleRelayFailed, ClassInternal);
   (CodeConsoleNotRunning, ClassValidation);
   (CodeConsoleKillFailed, ClassInternal);
   (CodeLogsError, ClassInternal);
   (CodeFirecrackerError, ClassInternal);
   (CodeFirecrackerClientError, ClassInternal);
   (CodeFirecrackerSpawnError, ClassInternal);
   (CodeFirecrackerConfigError, ClassValidation);
   (CodeFirecrackerSocketNotFound, ClassValidation);
   (CodeGuestfsError, ClassInternal);
   (CodeGuestfsNotAvailable, ClassInternal);
   (CodeGuestfsWriteError, ClassInternal);
   (CodeLoopMountError, ClassInternal);
   (CodeLoopMountBinaryNotFound, ClassValidation);
   (CodeLoopMountTimeout, ClassRetryable);
   (CodeSSHError, ClassInternal);
   (CodeCPError, ClassInternal);
   (CodeCPSourceNotFound, ClassValidation);
   (CodeCPSourceFailed, ClassInternal);
   (CodeCPCopyFailed, ClassInternal);
   (CodeCPDestinationExists, ClassValidation);
   (CodeCPDestinationFailed, ClassInternal);
   (CodeCPDestinationNotDir, ClassValidation);
   (CodeCPMultiSourceNoVMDest, ClassValidation);
   (CodeCPResolveFailed, ClassInternal);
   (CodeCPNoVMSpecified, ClassValidation);
   (CodeCPVMNoIP, ClassInternal);
   (CodeCPVMNotFound, ClassValidation);
   (CodeVsockUpgradeInProgress, ClassConflict);
   (CodeBundledAssetError, ClassInternal);
   (CodeBundledAssetNotFound, ClassValidation);
   (CodeCacheCleanFailed, ClassInternal);
   (CodeSnapshotNotFound, ClassValidation);
   (CodeSnapshotAlreadyExists, ClassConflict);
   (CodeSnapshotCreateFailed, ClassInternal);
   (CodeSnapshotRestoreFailed, ClassInternal);
   (CodeSnapshotRemoveFailed, ClassInternal);
   (CodeNetworkError, ClassInternal);
   (CodeKeyError, ClassInternal);
   (CodeVersionResolveFailed, ClassInternal);
   (CodeInternal, ClassInternal);
   (CodeNotImplemented, ClassInternal);
   (CodeValidationFailed, ClassValidation);
   (CodeDatabaseError, ClassInternal);
   (CodeMigrationFailed, ClassInternal);
   (CodeProcessError, ClassInternal);
   (CodeDownloadFailed, ClassInternal);
   (CodeHTTPError, ClassInternal);
   (CodeConfigError, ClassValidation)].

Definition codeOpMap : gmap Code string := list_to_map
  [(CodeVMNotFound, "vm");
   (CodeVMAlreadyExists, "vm");
   (CodeVMStateInvalid, "vm");
   (CodeVMCreateFailed, "vm");
   (CodeVMBuilderFailed, "vm");
   (CodeVMResolveFailed, "vm");
   (CodeVMResourceExhausted, "vm");
   (CodeVMBinaryNotFound, "vm");
   (CodeVMImageNotFound, "vm");
   (CodeVMKernelNotFound, "vm");
   (CodeVMNetworkNotFound, "vm");
   (CodeVMSSHKeyNotFound, "vm");
   (CodeVMNameCollision, "vm");
   (CodeVMAtomicFailed, "vm");
   (CodeVMCreateFailure, "vm");
   (CodeVMSnapshotFailed, "vm");
   (CodeVMLoadSnapshotFailed, "vm");
   (CodeNetworkSubnetOverlap, "network");
   (CodeNetworkNotFound, "network");
   (CodeNetworkAlreadyExists, "network");
   (CodeNetworkBridgeFailed, "network");
   (CodeNetworkNATFailed, "network");
   (CodeNetworkLeaseFailed, "network");
   (CodeNetworkLeaseExhausted, "network");
   (CodeNetworkFirewallFailed, "network");
   (CodeNetworkCreateFailed, "network");
   (CodeNetworkRemoveFailed, "network");
   (CodeNetworkDefaultSetFailed, "network");
   (CodeNetworkDefaultCreateFailed, "network");
   (CodeImageNotFound, "image");
   (CodeImageAlreadyExists, "image");
   (CodeImagePullFailed, "image");
   (CodeImageImportFailed, "image");
   (CodeImageChecksumMismatch, "image");
   (CodeImageCorrupt, "image");
   (CodeImageEmpty, "image");
   (CodeImageFormatInvalid, "image");
   (CodeImageError, "image");
   (CodeImageCompressionError, "image");
   (CodeImageDecompressionError, "image");
   (CodeRootPartitionDetection, "image");
   (CodeTieDetected, "image");
   (CodeImageAcquireFailed, "image");
   (CodeImageWarmFailed, "image");
   (CodeKernelNotFound, "kernel");
   (CodeKernelBuildFailed, "kernel");
   (CodeKernelConfigFailed, "kernel");
   (CodeKernelPullFailed, "kernel");
   (CodeKernelImportFailed, "kernel");
   (CodeKernelDefaultSetFailed, "kernel");
   (CodeBinaryNotFound, "binary");
   (CodeBinaryAlreadyExists, "binary");
   (CodeBinaryVersionGate, "binary");
   (CodeBinaryError, "binary");
   (CodeBinaryPullFailed, "binary");
   (CodeBinaryRemoveFailed, "binary");
   (CodeBinaryDefaultSetFailed, "binary");
   (CodeBinaryEnsureDefaultFailed, "binary");
   (CodeBinaryNoCIVersion, "binary");
   (CodeVolumeNotFound, "volume");
   (CodeVolumeAlreadyExists, "volume");
   (CodeVolumeError, "volume");
   (CodeVolumeResizeFailed, "volume");
   (CodeKeyNotFound, "key");
   (CodeKeyAlreadyExists, "key");
   (CodeKeyExportFailed, "key");
   (CodeKeyDependencyMissing, "key");
   (CodeKeyCreateFailed, "key");
   (CodeKeyAddFailed, "key");
   (CodeKeyDefaultSetFailed, "key");
   (CodeKeyDefaultsClearFailed, "key");
   (CodeHostInitFailed, "host");
   (CodeHostCleanFailed, "host");
   (CodeHostResetFailed, "host");
   (CodePrivilegeRequired, "host");
   (CodePrivilegeSudoers, "host");
   (CodeHostInfoFailed, "host");
   (CodeHostCapacityFailed, "host");
   (CodeCloudInitProvisionFailed, "cloudinit");
   (CodeCloudInitNetModeFailed, "cloudinit");
   (CodeCloudInitISOModeFailed, "cloudinit");
   (CodeCloudInitInjectFailed, "cloudinit");
   (CodeCloudInitModeError, "cloudinit");
   (CodeCloudInitOffModeError, "cloudinit");
   (CodeConsoleRelayFailed, "console");
   (CodeConsoleNotRunning, "console");
   (CodeConsoleKillFailed, "console");
   (CodeLogsError, "logs");
   (CodeFirecrackerError, "vm");
   (CodeFirecrackerClientError, "vm");
   (CodeFirecrackerSpawnError, "vm");
   (CodeFirecrackerConfigError, "vm");
   (CodeFirecrackerSocketNotFound, "vm");
   (CodeGuestfsError, "guestfs");
   (CodeGuestfsNotAvailable, "guestfs");
   (CodeGuestfsWriteError, "guestfs");
   (CodeLoopMountError, "loopmount");
   (CodeLoopMountBinaryNotFound, "loopmount");
   (CodeLoopMountTimeout, "loopmount");
   (CodeSSHError, "ssh");
   (CodeCPError, "cp");
   (CodeCPSourceNotFound, "cp");
   (CodeCPSourceFailed, "cp");
   (CodeCPCopyFailed, "cp");
   (CodeCPDestinationExists, "cp");
   (CodeCPDestinationFailed, "cp");
   (CodeCPDestinationNotDir, "cp");
   (CodeCPMultiSourceNoVMDest, "cp");
   (CodeCPResolveFailed, "cp");
   (CodeCPNoVMSpecified, "cp");
   (CodeCPVMNoIP, "cp");
   (CodeCPVMNotFound, "cp");
   (CodeBundledAssetError, "asset");
   (CodeBundledAssetNotFound, "asset");
   (CodeVsockUpgradeInProgress, "vsock");
   (CodeCacheCleanFailed, "cache");
   (CodeSnapshotNotFound, "snapshot");
   (CodeSnapshotAlreadyExists, "snapshot");
   (CodeSnapshotCreateFailed, "snapshot");
   (CodeSnapshotRestoreFailed, "snapshot");
   (CodeSnapshotRemoveFailed, "snapshot");
   (CodeDatabaseError, "db");
   (CodeMigrationFailed, "db");
   (CodeProcessError, "process");
   (CodeDownloadFailed, "download");
   (CodeHTTPError, "http");
   (CodeConfigError, "config");
   (CodeNetworkError, "network");
   (CodeKeyError, "key");
   (CodeVersionResolveFailed, "version");
   (CodeValidationFailed, "");
   (CodeInternal, "");
   (CodeNotImplemented, "")].

Definition classForCode (code : Code) : Class_ :=
  match codeClassMap !! code with Some c => c | None => ClassUnknown end.

Definition opForCode (code : Code) : string :=
  match codeOpMap !! code with Some op => op | None => "" end.

(** ** Errors *)

(** The struct [DomainError], with the [error] interface as a parameter that
    the type [error] below fills in. *)
Record DomainErrorOf (error : Type) := DomainError_ {
  Code_ : Code;
  Message : string;
  Op : string;
  Entity : string;
  Class : Class_;
  Err_ : option error;
  Details : option (gmap string any);
}.
Arguments DomainError_ {error}.
Arguments Code_ {error}.
Arguments Message {error}.
Arguments Op {error}.
Arguments Entity {error}.
Arguments Class {error}.
Arguments Err_ {error}.
Arguments Details {error}.

Record NeedsInteraction := NeedsInteraction_ {
  NI_Code : string;
  NI_Message : string;
  NI_InputType : string;
  NI_Context : gmap string any;
}.

(** The dynamic types of a non-nil [error]: one made by [errors.New] or
    [fmt.Errorf] (its formatted message, and the cause a [%w] verb wrapped), a
    [*DomainError], or a [*NeedsInteraction]. *)
Inductive error :=
  | Errorf (msg : string) (cause : option error)
  | EDomain (d : DomainErrorOf error)
  | EInteraction (n : NeedsInteraction).

Notation DomainError := (DomainErrorOf error).

(** The method [Error] of each dynamic type. *)
Definition Error (e : error) : string :=
  match e with
  | Errorf msg _ => msg
  | EDomain d => Message d
  | EInteraction n => NI_Message n
  end.

(** [fmt.Errorf("...: %w", err)]. *)
Definition wrapf (what : string) (err : error) : error := Errorf (what ++ ": " ++ Error err) (Some err).

(** [errors.Unwrap]; [NeedsInteraction] has no [Unwrap] method. *)
Definition Unwrap (e : error) : option error :=
  match e with
  | Errorf _ cause => cause
  | EDomain d => Err_ d
  | EInteraction _ => None
  end.

(** [errors.As] with a [*DomainError] target: the first one of the chain. *)
Fixpoint AsDomainError (e : error) : option DomainError :=
  match e with
  | EDomain d => Some d
  | Errorf _ (Some cause) => AsDomainError cause
  | Errorf _ None | EInteraction _ => None
  end.

(** [AsDomainError] on a possibly nil [error]. *)
Definition AsDomainError' (e : option error) : option DomainError :=
  e ≫= AsDomainError.

Definition classFrom (e : error) : Class_ :=
  match AsDomainError e with Some de => Class de | None => ClassUnknown end.

(** ** Options and constructors *)

Definition ErrorOption := DomainError → DomainError.

Definition WithClass (c : Class_) : ErrorOption := λ e,
  DomainError_ (Code_ e) (Message e) (Op e) (Entity e) c (Err_ e) (Details e).

Definition WithEntity (entity : string) : ErrorOption := λ e,
  DomainError_ (Code_ e) (Message e) (Op e) entity (Class e) (Err_ e) (Details e).

(** [maps.Copy(e.Details, details)]: the new entries win. *)
Definition WithDetails (details : gmap string any) : ErrorOption := λ e,
  DomainError_ (Code_ e) (Message e) (Op e) (Entity e) (Class e) (Err_ e)
    (match Details e with
     | None => Some details
     | Some old => Some (details ∪ old)
     end).

Definition applyOptions (opts : list ErrorOption) (e : DomainError) : DomainError :=
  foldl (λ e opt, opt e) e opts.

Definition New (code : Code) (msg : string) (opts : list ErrorOption) : DomainError :=
  applyOptions opts (DomainError_ code msg (opForCode code) "" (classForCode code) None None).

Definition Wrap (code : Code) (err : error) (opts : list ErrorOption) : DomainError :=
  applyOptions opts
    (DomainError_ code (Error err) (opForCode code) "" (classFrom err) (Some err) None).

Definition WrapMsg (code : Code) (msg : string) (err : error) (opts : list ErrorOption)
    : DomainError :=
  applyOptions opts
    (DomainError_ code msg (opForCode code) "" (classFrom err) (Some err) None).

Definition NotFound (code : Code) (msg : string) (opts : list ErrorOption) : DomainError :=
  applyOptions opts (DomainError_ code msg (opForCode code) "" ClassValidation None None).

Definition AlreadyExists (code : Code) (msg : string) (opts : list ErrorOption) : DomainError :=
  applyOptions opts (DomainError_ code msg (opForCode code) "" ClassConflict None None).

(** ** Checks *)

(** The codes of the [switch] in [IsNotFound]. *)
Definition notFoundCodes : list Code :=
  [CodeVMNotFound; CodeNetworkNotFound; CodeImageNotFound;
   CodeKernelNotFound; CodeBinaryNotFound; CodeVolumeNotFound;
   CodeKeyNotFound; CodeCPSourceNotFound; CodeBundledAssetNotFound;
   CodeFirecrackerSocketNotFound; CodeLoopMountBinaryNotFound;
   CodeCPVMNotFound; CodeSnapshotNotFound].

(** The loop [for de := ...; de != nil; de = AsDomainError(de.Err)], with fuel. *)
Fixpoint isNotFoundLoop (fuel : nat) (de : option DomainError) : option bool :=
  match de with
  | None => Some false
  | Some d =>
      if decide (Code_ d ∈ notFoundCodes) then Some true
      else
        match fuel with
        | 0 => None
        | S f => isNotFoundLoop f (AsDomainError' (Err_ d))
        end
  end.

(** The length of the chain of causes, which bounds the loop. *)
Fixpoint chainLength (e : error) : nat :=
  match e with
  | Errorf _ (Some cause) => S (chainLength cause)
  | EDomain d => match Err_ d with Some cause => S (chainLength cause) | None => 0 end
  | Errorf _ None | EInteraction _ => 0
  end.

Definition IsNotFound (e : error) : option bool :=
  isNotFoundLoop (S (chainLength e)) (AsDomainError e).

Definition IsRetryable (e : error) : bool :=
  match AsDomainError e with
  | Some de => bool_decide (Class de = ClassRetryable)
  | None => false
  end.

Definition IsNeedsInteraction (e : error) : bool :=
  match AsDomainError e with
  | Some de => bool_decide (Class de = ClassNeedsInteraction)
  | None => false
  end.

(** [FormatExceptionDebug]; [stack] is what [debug.Stack] returns. *)
Definition FormatExceptionDebug (stack : string) (e : error) (includeStack : bool) : string :=
  if includeStack then (Error e ++ String (Ascii.ascii_of_nat 10) stack)%string else Error e.

(** ** Operation results *)

Definition StatusSuccess : string := "success".
Definition StatusSkipped : string := "skipped".
Definition StatusWarning : string := "warning".
Definition StatusError : string := "error".
Definition StatusFailure : string := "failure".

Record OperationResult := OperationResult_ {
  Status : string;
  OR_Code : string;
  OR_Message : string;
  Item : option any;
  Exception : option error;
  Metadata : option (gmap string any);
  Warnings : option (list string);
}.

(** The anonymous struct [MarshalJSON] hands to [json.Marshal]: the three
    fields it normalises (a nil map or slice becomes an empty one), and the
    other fields of the result. *)
Record OperationResultJSON := OperationResultJSON_ {
  J_exception : option string;
  J_metadata : gmap string any;
  J_warnings : list string;
  J_alias : string * string * string * option any;
}.

Definition OperationResult_MarshalJSON (r : OperationResult) : OperationResultJSON :=
  let metadata := match Metadata r with None => ∅ | Some m => m end in
  let warnings := match Warnings r with None => [] | Some w => w end in
  let exceptionStr := Error <$> Exception r in
  OperationResultJSON_ exceptionStr metadata warnings (Status r, OR_Code r, OR_Message r, Item r).

Definition IsOK (r : OperationResult) : bool :=
  bool_decide (Status r = StatusSuccess) || bool_decide (Status r = StatusSkipped)
  || bool_decide (Status r = StatusWarning).

Definition IsError (r : OperationResult) : bool :=
  bool_decide (Status r = StatusError) || bool_decide (Status r = StatusFailure).

(** [ToError]; the receiver may be nil. *)
Definition ToError (r : option OperationResult) : option DomainError :=
  match r with
  | None => None
  | Some r =>
      if negb (IsError r) then None
      else Some (DomainError_ (OR_Code r) (OR_Message r) (opForCode (OR_Code r)) ""
                   (classForCode (OR_Code r)) (Exception r) None)
  end.

Record BatchResult := BatchResult_ {
  BR_Items : list OperationResult;
  BR_Warnings : list string;
  BR_Metadata : gmap string any;
}.

Definition failedItem (item : OperationResult) : bool :=
  bool_decide (Status item = "error") || bool_decide (Status item = "failure").

Fixpoint errorsLoop (items : list OperationResult) (result : list OperationResult)
    : list OperationResult :=
  match items with
  | [] => result
  | item :: rest => errorsLoop rest (if failedItem item then result ++ [item] else result)
  end.

Definition Errors (br : BatchResult) : list OperationResult := errorsLoop (BR_Items br) [].

Fixpoint hasErrorsLoop (items : list OperationResult) : bool :=
  match items with
  | [] => false
  | item :: rest => if failedItem item then true else hasErrorsLoop rest
  end.

Definition HasErrors (br : BatchResult) : bool := hasErrorsLoop (BR_Items br).

Record BulkResultItem := BulkResultItem_ {
  BI_Item : any;
  BI_Error : option error;
}.

Definition BulkResultItem_MarshalJSON (i : BulkResultItem) : option string * any :=
  (Error <$> BI_Error i, BI_Item i).

Record BulkResult := BulkResult_ { BulkItems : list BulkResultItem }.

(** ** The chain of domain errors *)

(** Every [DomainError] of the chain of causes, outermost first. *)
Fixpoint domainChain (e : error) : list DomainError :=
  match e with
  | Errorf _ (Some cause) => domainChain cause
  | EDomain d => d :: match Err_ d with Some cause => domainChain cause | None => [] end
  | Errorf _ None | EInteraction _ => []
  end.

(** Induction on the chain of causes. *)
Fixpoint error_chain_ind (P : error → Prop)
    (Hplain : ∀ msg, P (Errorf msg None))
    (Hwrap : ∀ msg cause, P cause → P (Errorf msg (Some cause)))
    (Hleaf : ∀ d, Err_ d = None → P (EDomain d))
    (Hdom : ∀ d cause, Err_ d = Some cause → P cause → P (EDomain d))
    (Hint : ∀ n, P (EInteraction n)) (e : error) : P e :=
  let rec := error_chain_ind P Hplain Hwrap Hleaf Hdom Hint in
  match e with
  | Errorf msg None => Hplain msg
  | Errorf msg (Some cause) => Hwrap msg cause (rec cause)
  | EDomain (DomainError_ _ _ _ _ _ (Some cause) _ as d) => Hdom d cause eq_refl (rec cause)
  | EDomain (DomainError_ _ _ _ _ _ None _ as d) => Hleaf d eq_refl
  | EInteraction n => Hint n
  end.

Lemma AsDomainError_head e : AsDomainError e = head (domainChain e).
Proof. induction e using error_chain_ind; done. Qed.

(** The part of the chain below its first domain error. *)
Lemma domainChain_tail e d :
  AsDomainError e = Some d →
  domainChain e = d :: match Err_ d with Some cause => domainChain cause | None => [] end.
Proof. induction e using error_chain_ind; intros E; simplify_eq/=; auto. Qed.

Lemma chainLength_below e d cause :
  AsDomainError e = Some d → Err_ d = Some cause → chainLength cause < chainLength e.
Proof.
  induction e as [|? e IH|d' Hd|d' e Hd IH|] using error_chain_ind; simpl; intros E Hc;
    simplify_eq.
  - specialize (IH E Hc). lia.
  - rewrite Hd. lia.
Qed.

Lemma isNotFoundLoop_spec fuel e :
  chainLength e < fuel →
  isNotFoundLoop fuel (AsDomainError e) =
    Some (existsb (λ d, bool_decide (Code_ d ∈ notFoundCodes)) (domainChain e)).
Proof.
  revert e. induction fuel as [|fuel IH]; intros e Hf; [lia|].
  destruct (AsDomainError e) as [d|] eqn:E; simpl.
  2: { rewrite AsDomainError_head in E. by destruct (domainChain e). }
  rewrite (domainChain_tail e d) by done. simpl. case_decide; [by rewrite bool_decide_true|].
  rewrite bool_decide_false by done. simpl.
  destruct (Err_ d) as [cause|] eqn:Hc; [|by destruct fuel].
  apply IH. pose proof (chainLength_below e d cause E Hc). lia.
Qed.

(** ** Properties *)

(** [IsNotFound] always stops, and answers whether some domain error of
    the chain of causes carries one of the not-found codes, however deep. *)
Lemma IsNotFound_chain e :
  ∃ b, IsNotFound e = Some b ∧
    (b = true ↔ ∃ d, d ∈ domainChain e ∧ Code_ d ∈ notFoundCodes).
Proof.
  unfold IsNotFound. rewrite isNotFoundLoop_spec by lia. eexists. split; [done|].
  rewrite existsb_exists. setoid_rewrite bool_decide_eq_true.
  by setoid_rewrite <-list_elem_of_In.
Qed.

(** Wrapping layers: [fmt.Errorf] with [%w], [Wrap] and [WrapMsg] without options. *)
Inductive layer :=
  | LErrorf (msg : string)
  | LWrap (code : Code)
  | LWrapMsg (code : Code) (msg : string).

Definition wrapLayer (e : error) (l : layer) : error :=
  match l with
  | LErrorf msg => Errorf msg (Some e)
  | LWrap code => EDomain (Wrap code e [])
  | LWrapMsg code msg => EDomain (WrapMsg code msg e [])
  end.

Lemma wrapLayer_class e l : classFrom (wrapLayer e l) = classFrom e.
Proof. by destruct l. Qed.

(** The class travels up: whatever layers of [fmt.Errorf("...%w")], [Wrap]
    and [WrapMsg] are put around a domain error, the class read off the result
    is that error's class, so [IsRetryable] and [IsNeedsInteraction] still
    hold exactly when they held of it, and [IsNotFound] still finds its code. *)
Lemma wrapped_class (layers : list layer) (d : DomainError) :
  let e := foldl wrapLayer (EDomain d) layers in
  classFrom e = Class d ∧
  IsRetryable e = bool_decide (Class d = ClassRetryable) ∧
  IsNeedsInteraction e = bool_decide (Class d = ClassNeedsInteraction) ∧
  (Code_ d ∈ notFoundCodes → IsNotFound e = Some true).
Proof.
  intros e.
  assert (classFrom e = Class d ∧ is_Some (AsDomainError e) ∧ d ∈ domainChain e) as (Hc & [de Hde] & Hin).
  { subst e. induction layers as [|l layers IH] using rev_ind; [simpl; set_solver|].
    rewrite foldl_snoc, wrapLayer_class. destruct IH as (Hc & Hs & Hin).
    split; [done|]. destruct l; simpl; set_solver. }
  assert (Class de = Class d) as E by (unfold classFrom in Hc; by rewrite Hde in Hc).
  unfold IsRetryable, IsNeedsInteraction. rewrite Hde, E. split_and!; [done..|]. intros Hnf.
  unfold IsNotFound. rewrite isNotFoundLoop_spec by lia. f_equal.
  apply existsb_exists. exists d. split; [by apply list_elem_of_In|by apply bool_decide_true].
Qed.

(** The class table is not total: of the declared codes exactly these eight
    have no entry and get [ClassUnknown] (and the table has no other keys). *)
Lemma classForCode_gaps :
  NoDup allCodes ∧
  filter (λ c, classForCode c = ClassUnknown) allCodes =
    [CodeVsockNotFound; CodeVsockConnectionFailed; CodeVsockHandshakeFailed;
     CodeAgentUnreachable; CodeVsockExecFailed; CodeVsockConfigNotFound;
     CodeUnauthorized; CodeVMNotRunning] ∧
  dom codeClassMap ⊆ list_to_set (C := gset string) allCodes ∧
  dom codeOpMap = dom codeClassMap.
Proof.
  split_and!.
  - apply (bool_decide_unpack _). vm_compute. exact I.
  - vm_compute. reflexivity.
  - apply (bool_decide_unpack _). vm_compute. exact I.
  - apply (bool_decide_unpack _). vm_compute. exact I.
Qed.

(** A result that is an error becomes a domain error that keeps its code,
    message and exception, with the class and operation of its code; no other
    result becomes one; and no result is both an error and fine. *)
Lemma ToError_spec (r : OperationResult) :
  match ToError (Some r) with
  | Some d => (Status r = "error" ∨ Status r = "failure") ∧ IsOK r = false ∧
      Code_ d = OR_Code r ∧ Message d = OR_Message r ∧ Err_ d = Exception r ∧
      Class d = classForCode (OR_Code r) ∧ Op d = opForCode (OR_Code r)
  | None => Status r ≠ "error" ∧ Status r ≠ "failure"
  end.
Proof.
  unfold ToError, IsError, IsOK.
  destruct (decide (Status r = StatusError)) as [E|E]; [by rewrite E; split; [left|]|].
  destruct (decide (Status r = StatusFailure)) as [E'|E']; [by rewrite E'; split; [right|]|].
  rewrite !bool_decide_false by done. done.
Qed.

(** [Errors] lists the failed items of a batch in order, and [HasErrors]
    says whether there are any. *)
Lemma Errors_filter (br : BatchResult) :
  Errors br = filter (λ i, IsError i = true) (BR_Items br) ∧
  (HasErrors br = true ↔ Errors br ≠ []).
Proof.
  assert (∀ l acc, errorsLoop l acc = acc ++ filter (λ i, IsError i = true) l) as Hl.
  { induction l as [|i l IH]; intros acc; simpl; [by rewrite app_nil_r|].
    rewrite IH, filter_cons. change (IsError i) with (failedItem i).
    destruct (failedItem i); simpl; [by rewrite <-app_assoc|done]. }
  unfold Errors, HasErrors. rewrite Hl. split; [done|]. simpl.
  induction (BR_Items br) as [|i l IH]; simpl; [done|].
  rewrite filter_cons. change (IsError i) with (failedItem i). by destruct (failedItem i).
Qed.
