(* ===== verification/Batch.v ===== *)
(** * Batches of goroutines: the concurrent part of [VMCreate] and [vmBuilderCreate]

    [VMCreate] ([pkg/api/vm.go]) starts a goroutine per machine; each of them runs
    [vmBuilderCreate], which starts a goroutine of its own that cleans up when the
    context is cancelled while the steps of the creation run.  A machine is a
    [job]: its programs, over what its builder knows and the state all share.

    A step of the batch is a [choice] of the scheduler that is enabled; [next] is
    what it does.  [Main i]: one step of the goroutine of machine [i].
    [WatchCancelled], [WatchReleased], [Watch]: the goroutine that cleans up takes
    one of the branches of its [select], or makes one step.  [Cancel]: the caller's
    context is cancelled.  [Receive]: the collector takes a result.

    The channel of results has room for all of them: sending does not block. *)

From Stdlib Require Import Wellfounded Relation_Operators.
From Stdlib Require Import Lia Wf_nat.
From stdpp Require Import list relations.
From S2P Require Import Prelude Errs Resume.

(** Case analysis of the steps of a thread. *)
Ltac split_match E :=
  repeat match type of E with context [match ?x with _ => _ end] => destruct x eqn:? end; simplify_eq/=.
Ltac tstep_cases H :=
  let t := fresh "t" in let c := fresh "c" in let E := fresh "E" in
  destruct H as [t ? ? ? ? E|c t ? ? ? E]; destruct t as [? [?|?|?|? ?|?|?] [|?|] ?]; simpl in E; split_match E.

(** One of the elements of a list goes down in the order of its index. *)
Inductive someDown {J X} (R : J → relation X) : list J → relation (list X) :=
  | down_head j js x x' xs : R j x' x → someDown R (j :: js) (x' :: xs) (x :: xs)
  | down_tail j js x xs xs' : someDown R js xs' xs → someDown R (j :: js) (x :: xs') (x :: xs).

Lemma someDown_wf {J X} (R : J → relation X) js : (∀ j, well_founded (R j)) → well_founded (someDown R js).
Proof.
  intros HR. induction js as [|j js IH]; intros l; [constructor; inversion 1|].
  destruct l as [|x xs]; [constructor; inversion 1|].
  revert xs. induction (HR j x) as [x _ IHx]. intros xs. induction (IH xs) as [xs _ IHxs].
  constructor. intros l Hl. inversion Hl; subst; auto.
Qed.

Lemma someDown_insert {J X} (R : J → relation X) js xs i j x x' :
  js !! i = Some j → xs !! i = Some x → R j x' x → someDown R js (<[i := x']> xs) xs.
Proof.
  revert js xs. induction i as [|i IH]; intros [|j' js] [|y xs]; simpl; try done.
  - intros [= ->] [= ->]. by constructor.
  - intros. constructor. by apply IH.
Qed.

Section Batch.
Context {B S V : Type}.
#[local] Notation prog A := (resume (B * S) A).

Record job := Job_ {
  jb_start : B;
  jb_execute : prog (result error unit);
  (** The model of the machine and its row, when the steps succeeded. *)
  jb_save : prog (result error V);
  jb_cleanup : prog unit;
  jb_skipCleanup : bool;
  (** What is left to do once it was created. *)
  jb_publish : V → prog V;
}.

Inductive mainPhase :=
  | Executing (p : prog (result error unit))
  | Joining (r : result error unit)
  | Saving (p : prog (result error V))
  | Undoing (p : prog unit) (err : error)
  | Publishing (p : prog V)
  | Sent (r : result error V).

Inductive watchPhase :=
  | Waiting
  | Cleaning (p : prog unit)
  | Gone.

Record thread := Thread_ {
  th_local : B;
  th_main : mainPhase;
  th_watch : watchPhase;
  th_cleaned : bool;
}.

Record batch := Batch_ {
  bt_threads : list thread;
  (** The context of the caller, and the one of the batch. *)
  bt_cancelled : bool;
  bt_stopped : bool;
  bt_channel : list (nat * result error V);
  bt_received : list (nat * result error V);
  bt_state : S;
}.

Inductive choice :=
  | Cancel
  | Main (i : nat)
  | WatchCancelled (i : nat)
  | WatchReleased (i : nat)
  | Watch (i : nat)
  | Receive.

Context (jobs : list job) (cancelled : error) (atomic : bool).

(** The program of a goroutine makes one step; [None] at its end. *)
Definition advance {A} (p : prog A) (x : B * S) : A + prog A * (B * S) :=
  match p with
  | Return a => inl a
  | Step X m k => let '(y, x') := m x in inr (k y, x')
  end.

(** One step of the goroutine of a machine: its new phase, whether it cleaned,
    and the result when it sends one. *)
Definition mainNext (j : job) (t : thread) (s : S) : option (thread * S * option (result error V)) :=
  let '(Thread_ b ph wt cl) := t in
  match ph with
  | Executing p =>
      match advance p (b, s) with
      | inl r => Some (Thread_ b (Joining r) wt cl, s, None)
      | inr (p, (b, s)) => Some (Thread_ b (Executing p) wt cl, s, None)
      end
  | Joining r =>
      match wt with
      | Gone =>
          match (match r with Ok _ => if cl then Err cancelled else Ok () | Err err => Err err end) with
          | Ok _ => Some (Thread_ b (Saving (jb_save j)) wt cl, s, None)
          | Err err =>
              if jb_skipCleanup j || cl then Some (Thread_ b (Sent (Err err)) wt cl, s, Some (Err err))
              else Some (Thread_ b (Undoing (jb_cleanup j) err) wt true, s, None)
          end
      | _ => None
      end
  | Saving p =>
      match advance p (b, s) with
      | inl (Ok v) => Some (Thread_ b (Publishing (jb_publish j v)) wt cl, s, None)
      | inl (Err err) =>
          if jb_skipCleanup j || cl then Some (Thread_ b (Sent (Err err)) wt cl, s, Some (Err err))
          else Some (Thread_ b (Undoing (jb_cleanup j) err) wt true, s, None)
      | inr (p, (b, s)) => Some (Thread_ b (Saving p) wt cl, s, None)
      end
  | Undoing p err =>
      match advance p (b, s) with
      | inl _ => Some (Thread_ b (Sent (Err err)) wt cl, s, Some (Err err))
      | inr (p, (b, s)) => Some (Thread_ b (Undoing p err) wt cl, s, None)
      end
  | Publishing p =>
      match advance p (b, s) with
      | inl v => Some (Thread_ b (Sent (Ok v)) wt cl, s, Some (Ok v))
      | inr (p, (b, s)) => Some (Thread_ b (Publishing p) wt cl, s, None)
      end
  | Sent _ => None
  end.

(** [close(cleanupDone)] came after the steps. *)
Definition released (t : thread) : bool := match th_main t with Executing _ => false | _ => true end.

(** The three moves of the goroutine that cleans up. *)
Definition watchNext (j : job) (c : choice) (done : bool) (t : thread) (s : S) : option (thread * S) :=
  let '(Thread_ b ph wt cl) := t in
  match c, wt with
  | WatchCancelled _, Waiting =>
      if negb done then None
      else if jb_skipCleanup j || cl then Some (Thread_ b ph Gone cl, s)
      else Some (Thread_ b ph (Cleaning (jb_cleanup j)) true, s)
  | WatchReleased _, Waiting => if released t then Some (Thread_ b ph Gone cl, s) else None
  | Watch _, Cleaning p =>
      match advance p (b, s) with
      | inl _ => Some (Thread_ b ph Gone cl, s)
      | inr (p, (b, s)) => Some (Thread_ b ph (Cleaning p) cl, s)
      end
  | _, _ => None
  end.

Definition setThread (i : nat) (t : thread) (s : S) (b : batch) : batch :=
  Batch_ (<[i := t]> (bt_threads b)) (bt_cancelled b) (bt_stopped b) (bt_channel b) (bt_received b) s.

Definition send (i : nat) (r : option (result error V)) (b : batch) : batch :=
  match r with
  | Some r => Batch_ (bt_threads b) (bt_cancelled b) (bt_stopped b) (bt_channel b ++ [(i, r)]) (bt_received b) (bt_state b)
  | None => b
  end.

Definition watching (i : nat) (c : choice) (b : batch) : option batch :=
  j ← jobs !! i; t ← bt_threads b !! i;
  r ← watchNext j c (bt_cancelled b || bt_stopped b) t (bt_state b);
  let '(t, s) := r in Some (setThread i t s b).

Definition next (c : choice) (b : batch) : option batch :=
  match c with
  | Cancel =>
      if bt_cancelled b then None
      else Some (Batch_ (bt_threads b) true (bt_stopped b) (bt_channel b) (bt_received b) (bt_state b))
  | Main i =>
      j ← jobs !! i; t ← bt_threads b !! i;
      r ← mainNext j t (bt_state b);
      let '(t, s, sent) := r in Some (send i sent (setThread i t s b))
  | WatchCancelled i | WatchReleased i | Watch i => watching i c b
  | Receive =>
      match bt_channel b with
      | [] => None
      | (i, r) :: rest =>
          let failed := match r with Ok _ => false | Err _ => true end in
          Some (Batch_ (bt_threads b) (bt_cancelled b) (bt_stopped b || (failed && atomic)) rest
                  (bt_received b ++ [(i, r)]) (bt_state b))
      end
  end.

Definition startThread (j : job) : thread := Thread_ (jb_start j) (Executing (jb_execute j)) Waiting false.

Definition begin (s : S) : batch := Batch_ (startThread <$> jobs) false false [] [] s.

Definition bstep (b b' : batch) : Prop := ∃ c, next c b = Some b'.

(** The collector has a result of every goroutine. *)
Definition collected (b : batch) : Prop := length (bt_received b) = length jobs.

(** A schedule. *)
Fixpoint follow (cs : list choice) (b : batch) : option batch :=
  match cs with
  | [] => Some b
  | c :: rest => b ← next c b; follow rest b
  end.

Lemma follow_rtc cs b b' : follow cs b = Some b' → rtc bstep b b'.
Proof.
  revert b. induction cs as [|c cs IH]; intros b; simpl; [by intros [= ->]|].
  destruct (next c b) as [b1|] eqn:E; [|done]. intros Hf. eapply rtc_l; [by exists c|by apply IH].
Qed.

(** A fair scheduler: the first choice that is enabled, and the order turns. *)
Fixpoint drive (fuel : nat) (order : list choice) (b : batch) : batch :=
  match fuel, order with
  | O, _ | _, [] => b
  | Datatypes.S fuel, c :: rest =>
      match next c b with
      | Some b' => drive fuel (rest ++ [c]) b'
      | None => drive fuel (rest ++ [c]) b
      end
  end.

Lemma drive_rtc fuel order b : rtc bstep b (drive fuel order b).
Proof.
  revert order b. induction fuel as [|fuel IH]; intros [|c rest] b; cbn [drive]; try reflexivity.
  destruct (next c b) as [b'|] eqn:E; [|apply IH]. eapply rtc_l; [by exists c|apply IH].
Qed.

(** ** The steps, one goroutine at a time *)

(** What a step of a goroutine does to its thread and the state, and what it sends. *)
Inductive tstep (j : job) (done : bool) : thread → S → thread → S → option (result error V) → Prop :=
  | tstep_main t s t' s' r : mainNext j t s = Some (t', s', r) → tstep j done t s t' s' r
  | tstep_watch c t s t' s' : watchNext j c done t s = Some (t', s') → tstep j done t s t' s' None.

Inductive moves : batch → batch → Prop :=
  | moves_cancel b : bt_cancelled b = false →
      moves b (Batch_ (bt_threads b) true (bt_stopped b) (bt_channel b) (bt_received b) (bt_state b))
  | moves_thread b i j t t' s' r :
      jobs !! i = Some j → bt_threads b !! i = Some t →
      tstep j (bt_cancelled b || bt_stopped b) t (bt_state b) t' s' r →
      moves b (send i r (setThread i t' s' b))
  | moves_receive b i r rest stop :
      bt_channel b = (i, r) :: rest →
      moves b (Batch_ (bt_threads b) (bt_cancelled b) stop rest (bt_received b ++ [(i, r)]) (bt_state b)).

Lemma bstep_moves b b' : bstep b b' → moves b b'.
Proof.
  assert (∀ i c, watching i c b = Some b' → moves b b') as Hw.
  { intros i c. unfold watching. destruct (jobs !! i) as [j|] eqn:Ej; [|done]. simpl.
    destruct (bt_threads b !! i) as [t|] eqn:Et; [|done]. simpl.
    destruct (watchNext _ _ _ _ _) as [[t' s']|] eqn:E; [|done]. intros [= <-].
    by eapply (moves_thread b i j t t' s' None); [..|eapply tstep_watch]. }
  intros [[|i|i|i|i|] E]; simpl in E; eauto.
  - destruct (bt_cancelled b) eqn:Ec; [done|]. injection E as <-. by apply moves_cancel.
  - destruct (jobs !! i) as [j|] eqn:Ej; [|done]. simpl in E.
    destruct (bt_threads b !! i) as [t|] eqn:Et; [|done]. simpl in E.
    destruct (mainNext j t _) as [[[t' s'] r]|] eqn:Em; [|done]. injection E as <-.
    by eapply moves_thread; [..|eapply tstep_main].
  - destruct (bt_channel b) as [|[i r] rest] eqn:E'; [done|]. injection E as <-. by eapply moves_receive.
Qed.

(** ** Success and cleaning up exclude each other *)

Definition sound (t : thread) : Prop :=
  (th_watch t = Waiting → th_cleaned t = false) ∧
  match th_main t with
  | Executing _ | Joining _ => True
  | Saving _ | Publishing _ | Sent (Ok _) => th_watch t = Gone ∧ th_cleaned t = false
  | Undoing _ _ | Sent (Err _) => th_watch t = Gone
  end.

Lemma tstep_sound j done t s t' s' r : tstep j done t s t' s' r → sound t → sound t'.
Proof. intros Hs. tstep_cases Hs; unfold sound; simpl; repeat case_match; naive_solver. Qed.

(** ** A batch ends *)

(** How far a thread is: steps of its programs, whatever the state, and phases. *)
Definition shrinks {A} (q p : prog A) : Prop :=
  match p with Return _ => False | Step X m k => ∃ x, q = k x end.

Lemma shrinks_wf {A} : well_founded (shrinks (A := A)).
Proof. intros p. induction p as [a|X m k IH]; constructor; intros q; [done|]. intros [x ->]. apply IH. Qed.

Lemma advance_shrinks {A} (p q : prog A) x x' : advance p x = inr (q, x') → shrinks q p.
Proof. destruct p as [a|X m k]; simpl; [done|]. destruct (m x) as [y z]. intros [= <- _]. by exists y. Qed.

Inductive mainDown (j : job) : mainPhase → mainPhase → Prop :=
  | down_execute p q : shrinks q p → mainDown j (Executing q) (Executing p)
  | down_join p r : mainDown j (Joining r) (Executing p)
  | down_save r : mainDown j (Saving (jb_save j)) (Joining r)
  | down_saving p q : shrinks q p → mainDown j (Saving q) (Saving p)
  | down_refuse r err : mainDown j (Undoing (jb_cleanup j) err) (Joining r)
  | down_refused r err : mainDown j (Sent (Err err)) (Joining r)
  | down_undo p err : mainDown j (Undoing (jb_cleanup j) err) (Saving p)
  | down_fail p err : mainDown j (Sent (Err err)) (Saving p)
  | down_publish p v : mainDown j (Publishing (jb_publish j v)) (Saving p)
  | down_undoing p q err : shrinks q p → mainDown j (Undoing q err) (Undoing p err)
  | down_undone p err : mainDown j (Sent (Err err)) (Undoing p err)
  | down_publishing p q : shrinks q p → mainDown j (Publishing q) (Publishing p)
  | down_published p v : mainDown j (Sent (Ok v)) (Publishing p).

Inductive watchDown (j : job) : watchPhase → watchPhase → Prop :=
  | down_gone wt : wt ≠ Gone → watchDown j Gone wt
  | down_clean : watchDown j (Cleaning (jb_cleanup j)) Waiting
  | down_cleaning p q : shrinks q p → watchDown j (Cleaning q) (Cleaning p).

Lemma mainDown_wf j : well_founded (mainDown j).
Proof.
  assert (∀ r, Acc (mainDown j) (Sent r)) as Hsent by (intros r; constructor; inversion 1).
  assert (∀ p err, Acc (mainDown j) (Undoing p err)) as Hundo.
  { intros p err. induction (shrinks_wf p) as [p _ IH]. constructor. inversion 1; subst; auto. }
  assert (∀ p, Acc (mainDown j) (Publishing p)) as Hpub.
  { intros p. induction (shrinks_wf p) as [p _ IH]. constructor. inversion 1; subst; auto. }
  assert (∀ p, Acc (mainDown j) (Saving p)) as Hsave.
  { intros p. induction (shrinks_wf p) as [p _ IH]. constructor. inversion 1; subst; auto. }
  assert (∀ r, Acc (mainDown j) (Joining r)) as Hjoin by (intros r; constructor; inversion 1; subst; auto).
  intros [p|r|p|p err|p|r]; auto.
  induction (shrinks_wf p) as [p _ IH]. constructor. inversion 1; subst; auto.
Qed.

Lemma watchDown_wf j : well_founded (watchDown j).
Proof.
  assert (Acc (watchDown j) Gone) as Hgone by (constructor; inversion 1; done).
  assert (∀ p, Acc (watchDown j) (Cleaning p)) as Hclean.
  { intros p. induction (shrinks_wf p) as [p _ IH]. constructor. inversion 1; subst; auto. }
  intros [|p|]; auto. constructor. inversion 1; subst; auto.
Qed.

(** A thread goes down in one of its two parts. *)
Definition threadDown (j : job) (t' t : thread) : Prop :=
  symprod _ _ (mainDown j) (watchDown j) (th_main t', th_watch t') (th_main t, th_watch t).

Lemma threadDown_wf j : well_founded (threadDown j).
Proof.
  apply (wf_inverse_image _ _ _ (λ t, (th_main t, th_watch t))), wf_symprod; [apply mainDown_wf|apply watchDown_wf].
Qed.

Lemma tstep_down j done t s t' s' r : tstep j done t s t' s' r → threadDown j t' t.
Proof.
  intros Hs. unfold threadDown. tstep_cases Hs;
    repeat match goal with H : advance _ _ = inr _ |- _ => apply advance_shrinks in H end;
    first [ apply left_sym; by constructor | apply right_sym; by constructor ].
Qed.

Inductive batchDown : relation batch :=
  | down_cancel b b' : bt_cancelled b = false → bt_cancelled b' = true → batchDown b' b
  | down_threads b b' : bt_cancelled b' = bt_cancelled b →
      someDown threadDown jobs (bt_threads b') (bt_threads b) → batchDown b' b
  | down_channel b b' : bt_cancelled b' = bt_cancelled b → bt_threads b' = bt_threads b →
      length (bt_channel b') < length (bt_channel b) → batchDown b' b.

Lemma batchDown_wf : well_founded batchDown.
Proof.
  assert (∀ c, (∀ b, bt_cancelled b = true → c = false → Acc batchDown b) → ∀ b, bt_cancelled b = c → Acc batchDown b) as Hc.
  { intros c Hcase b. remember (bt_threads b) as ts eqn:Ets. revert b Ets.
    induction (someDown_wf threadDown jobs threadDown_wf ts) as [ts _ IHt]. intros b.
    remember (length (bt_channel b)) as n eqn:En. revert b En. induction (lt_wf n) as [n _ IHn].
    intros b -> -> Hb. constructor. inversion 1; subst.
    - apply Hcase; [done|congruence].
    - eapply IHt; [eassumption|done|congruence].
    - eapply IHn; [eassumption|done|congruence|congruence]. }
  assert (∀ b, bt_cancelled b = true → Acc batchDown b) as Ht by (by apply Hc).
  intros b. destruct (bt_cancelled b) eqn:E; [by apply Ht|]. eapply Hc; [|exact E]. auto.
Qed.

Lemma moves_down b b' : moves b b' → batchDown b' b.
Proof.
  destruct 1 as [b Hc|b i j t t' s' r Hj Ht Hs|b i r rest stop Hc].
  - by apply down_cancel.
  - apply tstep_down in Hs. apply down_threads; [by destruct r|].
    replace (bt_threads (send i r (setThread i t' s' b))) with (<[i := t']> (bt_threads b)) by (by destruct r).
    by eapply someDown_insert.
  - apply down_channel; simpl; [done|done|]. rewrite Hc. simpl. lia.
Qed.

(** No schedule of a batch is infinite. *)
Lemma batch_ends b : Acc (flip bstep) b.
Proof.
  apply (Acc_incl _ (flip bstep) batchDown); [|apply batchDown_wf]. intros b' b2 Hs. by apply moves_down, bstep_moves.
Qed.

(** ** Every goroutine sends one result *)

Definition results (b : batch) : list (nat * result error V) := (bt_received b ++ bt_channel b)%list.

Record counted (b : batch) : Prop := {
  counted_threads : length (bt_threads b) = length jobs;
  counted_once : NoDup ((results b).*1);
  counted_sent i r : (i, r) ∈ results b ↔ ∃ t, bt_threads b !! i = Some t ∧ th_main t = Sent r;
  counted_sound i t : bt_threads b !! i = Some t → sound t;
}.

Lemma tstep_sent j done t s t' s' r : tstep j done t s t' s' r →
  match r with
  | Some r => th_main t' = Sent r ∧ ∀ r', th_main t ≠ Sent r'
  | None => ∀ r', th_main t' = Sent r' ↔ th_main t = Sent r'
  end.
Proof. intros Hs. tstep_cases Hs; naive_solver. Qed.

Lemma begin_counted s : counted (begin s).
Proof.
  split; simpl.
  - by rewrite length_fmap.
  - constructor.
  - intros i r. split; [by intros ?%elem_of_nil|]. intros (t & Ht & E). apply list_lookup_fmap_Some in Ht as (j & -> & _). done.
  - intros i t Ht. apply list_lookup_fmap_Some in Ht as (j & -> & _). by split.
Qed.

Lemma moves_counted b b' : moves b b' → counted b → counted b'.
Proof.
  destruct 1 as [b Hc|b i j t t' s' r Hj Ht Hs|b i r rest stop Hc]; intros [Hlen Hnd Hsent Hsound].
  - by split.
  - pose proof (tstep_sent _ _ _ _ _ _ _ Hs) as Hr.
    assert (i < length (bt_threads b)) as Hi by by eapply lookup_lt_Some.
    assert (∀ k u, <[i := t']> (bt_threads b) !! k = Some u → (k = i ∧ u = t') ∨ (k ≠ i ∧ bt_threads b !! k = Some u)) as Hk.
    { intros k u. destruct (decide (k = i)) as [->|Hne]; [rewrite list_lookup_insert_eq by done|rewrite list_lookup_insert_ne by done]; naive_solver. }
    assert (∀ k u, <[i := t']> (bt_threads b) !! k = Some u → sound u) as Hs'.
    { intros k u [[-> ->]|[_ Hu]]%Hk; [eapply tstep_sound; [exact Hs|by eapply Hsound]|by eapply Hsound]. }
    assert (∀ k r', (k, r') ∈ results b ∧ k ≠ i ↔ ∃ u, <[i := t']> (bt_threads b) !! k = Some u ∧ th_main u = Sent r' ∧ k ≠ i) as Hother.
    { intros k r'. rewrite Hsent. split.
      - intros [(u & Hu & E) Hne]. exists u. by rewrite list_lookup_insert_ne.
      - intros (u & Hu & E & Hne). rewrite list_lookup_insert_ne in Hu by done. eauto. }
    destruct r as [r|].
    + destruct Hr as [Hr Hno]. split; simpl; [by rewrite length_insert| | |done].
      * unfold results. simpl. rewrite app_assoc, fmap_app. apply NoDup_app. split_and!; [done| |apply NoDup_singleton].
        intros k Hk1 Hk2%list_elem_of_singleton. simpl in Hk2. subst k.
        apply list_elem_of_fmap in Hk1 as ([k r'] & -> & Hk1). apply Hsent in Hk1 as (u & Hu & E). simpl in *. simplify_eq. by eapply Hno.
      * intros k r'. unfold results. simpl. rewrite app_assoc, elem_of_app, list_elem_of_singleton.
        destruct (decide (k = i)) as [->|Hne].
        -- rewrite list_lookup_insert_eq by done. split.
           ++ intros [Hin|[= ->]]; [|eauto]. apply Hsent in Hin as (u & Hu & E). simplify_eq. by exfalso; eapply Hno.
           ++ intros (u & [= <-] & E). right. congruence.
        -- specialize (Hother k r'). split; [intros [?|?]; [|naive_solver]|]; naive_solver.
    + split; simpl; [by rewrite length_insert|done| |done]. intros k r'. change (results _) with (results b).
      destruct (decide (k = i)) as [->|Hne]; [|specialize (Hother k r'); naive_solver].
      rewrite Hsent, list_lookup_insert_eq by done. split; intros (u & Hu & E); simplify_eq; eexists; (split; [done|]); by apply Hr.
  - assert (results (Batch_ (bt_threads b) (bt_cancelled b) stop rest (bt_received b ++ [(i, r)]) (bt_state b)) = results b) as E.
    { unfold results. simpl. by rewrite Hc, <- app_assoc. }
    split; simpl; [done|by rewrite E|by rewrite E|done].
Qed.

Lemma reachable_counted s b : rtc bstep (begin s) b → counted b.
Proof.
  intros Hr. pose proof (begin_counted s) as Hc. revert Hc. induction Hr as [|b1 b2 b3 Hs _ IH]; [done|].
  intros Hc. eapply IH, moves_counted, Hc. by apply bstep_moves.
Qed.

Lemma sent_bound s b i r : rtc bstep (begin s) b → (i, r) ∈ results b → i < length jobs.
Proof.
  intros Hr Hin. apply reachable_counted in Hr as Hc. apply (counted_sent b Hc) in Hin as (t & Ht & _).
  apply lookup_lt_Some in Ht. by rewrite (counted_threads b Hc) in Ht.
Qed.

(** A result of every goroutine was taken. *)
Lemma collected_every s b i : rtc bstep (begin s) b → collected b → i < length jobs → ∃ r, (i, r) ∈ bt_received b.
Proof.
  intros Hr Hcol Hi. apply reachable_counted in Hr as Hc.
  assert (NoDup ((bt_received b).*1)) as Hnd.
  { pose proof (counted_once b Hc) as Hn. unfold results in Hn. rewrite fmap_app in Hn. by apply NoDup_app in Hn as (? & _). }
  assert ((bt_received b).*1 ≡ₚ seq 0 (length jobs)) as Hp.
  { apply submseteq_length_Permutation; [|rewrite length_seq, length_fmap; unfold collected in Hcol; lia].
    apply NoDup_submseteq; [done|]. intros k ([k' r] & -> & Hin)%list_elem_of_fmap. apply elem_of_seq. simpl.
    split; [lia|]. apply (sent_bound s b k' r Hr). unfold results. set_solver. }
  assert (i ∈ (bt_received b).*1) as Hin by (rewrite Hp; apply elem_of_seq; lia).
  apply list_elem_of_fmap in Hin as ([i' r] & -> & Hin). by exists r.
Qed.

(** A goroutine that has not sent its result can move. *)
Lemma thread_moves b i : counted b → i < length jobs →
  (∃ r, (i, r) ∈ results b) ∨ ∃ c b', c ≠ Cancel ∧ next c b = Some b'.
Proof.
  intros [Hlen _ Hsent Hsound] Hi. destruct (lookup_lt_is_Some_2 _ _ Hi) as [j Hj]. rewrite <- Hlen in Hi.
  destruct (lookup_lt_is_Some_2 _ _ Hi) as [t Ht]. destruct (th_main t) as [p|r|p|p err|p|r] eqn:E; try (by left; exists r; apply Hsent; eauto).
  all: right; destruct t as [loc ph wt cl]; simpl in E; subst ph.
  2: { destruct wt as [|p|].
       - exists (WatchReleased i). eexists. split; [done|]. simpl. unfold watching. by rewrite Hj; simpl; rewrite Ht.
       - exists (Watch i). unfold next, watching. rewrite Hj. simpl. rewrite Ht. simpl.
         destruct (advance p _) as [?|[? [? ?]]]; eexists; by split.
       - exists (Main i). unfold next. rewrite Hj. simpl. rewrite Ht. simpl.
         repeat case_match; simplify_eq; eexists; by split. }
  all: exists (Main i); unfold next; rewrite Hj; simpl; rewrite Ht; simpl;
    destruct (advance p _) as [?|[? [? ?]]]; repeat case_match; simplify_eq; eexists; by split.
Qed.

(** C19. The goroutines of a creation do not deadlock, and they end: a batch that
    is reached either has collected a result of every goroutine or can make a step
    that is not the cancellation of the caller, and no schedule is infinite.  So
    [VMCreate] answers whenever the calls it makes do. *)
Theorem batch_live s b : rtc bstep (begin s) b →
  (collected b ∨ ∃ c b', c ≠ Cancel ∧ next c b = Some b') ∧ Acc (flip bstep) b.
Proof.
  intros Hr. split; [|apply batch_ends]. apply reachable_counted in Hr as Hc.
  destruct (bt_channel b) as [|[i r] rest] eqn:Ech.
  2: { right. exists Receive. unfold next. rewrite Ech. eexists. by split. }
  assert (∀ n, n ≤ length jobs → (∀ k, k < n → ∃ r, (k, r) ∈ results b) ∨ ∃ c b', c ≠ Cancel ∧ next c b = Some b') as Hall.
  { induction n as [|n IH]; intros Hn; [left; lia|]. destruct IH as [IH|?]; [lia| |by right].
    destruct (thread_moves b n Hc) as [Hn'|?]; [lia| |by right]. left. intros k Hk.
    destruct (decide (k = n)) as [->|]; [done|]. apply IH. lia. }
  destruct (Hall (length jobs)) as [Hsent|?]; [done|left|by right].
  unfold collected. transitivity (length (seq 0 (length jobs))); [|apply length_seq].
  rewrite <- (length_fmap fst). apply Permutation_length, NoDup_Permutation.
  - pose proof (counted_once b Hc) as Hnd. unfold results in Hnd. by rewrite Ech, app_nil_r in Hnd.
  - apply NoDup_seq.
  - intros k. rewrite elem_of_seq. split.
    + intros ([k' r] & -> & Hin)%list_elem_of_fmap. simpl.
      assert ((k', r) ∈ results b) as Hin' by (unfold results; set_solver).
      apply (counted_sent b Hc) in Hin' as (t & Ht & _). apply lookup_lt_Some in Ht. rewrite (counted_threads b Hc) in Ht. lia.
    + intros [_ Hk]. destruct (Hsent k) as [r Hin]; [lia|].
      unfold results in Hin. rewrite Ech, app_nil_r in Hin. by apply (list_elem_of_fmap_2 fst) in Hin.
Qed.

(** C18. A creation that answers with a machine was not cleaned up, and is not
    going to be: whenever, in any interleaving with the cancellation of the
    context, the goroutine of a machine is past its steps without an error, the
    goroutine that cleans up has ended and never started to; and a goroutine that
    undoes its own failed creation does so after the other one ended. *)
Theorem success_not_cleaned s b i t : rtc bstep (begin s) b → bt_threads b !! i = Some t →
  match th_main t with
  | Saving _ | Publishing _ | Sent (Ok _) => th_watch t = Gone ∧ th_cleaned t = false
  | Undoing _ _ | Sent (Err _) => th_watch t = Gone
  | Executing _ | Joining _ => th_watch t = Waiting → th_cleaned t = false
  end.
Proof.
  intros Hr Ht. apply reachable_counted in Hr as [_ _ _ Hs]. destruct (Hs _ _ Ht) as [Hw Hm].
  by destruct (th_main t) as [| | | | |[]].
Qed.
End Batch.

(** ** What a batch does to a table

    The state has a table with a row per machine.  A job is [tame] when its steps
    leave the table alone until it saves its machine, from then on change no
    other row, and end with a row that fits its answer, provided the others leave
    that row alone. *)
Section Rows.
Context {B S V K X : Type} (row : S → K → X) (own : K → B → Prop).
#[local] Notation T := (B * S)%type.

(** What the builder of a machine says of it. *)
Definition ofBuilder (k : K) (x : T) : Prop := own k x.1.

Definition sameRows (x x' : T) : Prop := ∀ k, row x'.2 k = row x.2 k.
Definition otherRows (k : K) (x x' : T) : Prop := ∀ k', k' ≠ k → row x'.2 k' = row x.2 k'.
(** What the others may do while this goroutine is past its steps. *)
Definition keepsRow (k : K) (x x' : T) : Prop := x'.1 = x.1 ∧ row x'.2 k = row x.2 k.

#[export] Instance keepsRow_preorder k : PreOrder (keepsRow k).
Proof. split; [by split|]. intros x y z [? ?] [? ?]. split; congruence. Qed.

(** [saved]: what the row is when the machine was saved; [made]: in the end. *)
Record tame (saved made : V → X → Prop) (k : K) (j : job (B := B) (S := S) (V := V)) : Prop := {
  tame_start : own k (jb_start j);
  tame_execute : within (ofBuilder k) sameRows (jb_execute j);
  tame_cleanup : within (ofBuilder k) sameRows (jb_cleanup j);
  tame_save : within (ofBuilder k) (otherRows k) (jb_save j);
  tame_publish v s : saved v (row s k) → within (ofBuilder k) (otherRows k) (jb_publish j v);
  tame_saved b s : own k b → stays (keepsRow k) (jb_save j)
    (λ r x, match r with Ok v => saved v (row x.2 k) | Err _ => row x.2 k = row s k end) (b, s);
  tame_published v b s : own k b → saved v (row s k) → stays (keepsRow k) (jb_publish j v) (λ v x, made v (row x.2 k)) (b, s);
}.

Context (saved made : V → X → Prop) (jobs : list (job (B := B) (S := S) (V := V))) (cancelled : error) (atomic : bool).
Context (keys : list K) (Hkeys : NoDup keys) (Htame : Forall2 (tame saved made) keys jobs).

(** Where a thread is, with the row it started from. *)
Definition placed (k : K) (x0 : X) (t : thread (B := B) (S := S) (V := V)) (s : S) : Prop :=
  sound t ∧ own k (th_local t) ∧ (∀ p, th_watch t = Cleaning p → within (ofBuilder k) sameRows p) ∧
  match th_main t with
  | Executing p => within (ofBuilder k) sameRows p ∧ row s k = x0
  | Joining _ => row s k = x0
  | Saving p => within (ofBuilder k) (otherRows k) p ∧
      stays (keepsRow k) p (λ r x, match r with Ok v => saved v (row x.2 k) | Err _ => row x.2 k = x0 end) (th_local t, s)
  | Undoing p _ => within (ofBuilder k) sameRows p ∧ row s k = x0
  | Publishing p => within (ofBuilder k) (otherRows k) p ∧ stays (keepsRow k) p (λ v x, made v (row x.2 k)) (th_local t, s)
  | Sent (Ok v) => made v (row s k)
  | Sent (Err _) => row s k = x0
  end.

(** The others may go on. *)
Lemma placed_moved k x0 t s s' : row s' k = row s k → placed k x0 t s → placed k x0 t s'.
Proof.
  intros E (Hs & Hb & Hw & Hm). split_and!; [done|done|done|].
  destruct (th_main t) as [p|r|p|p err|p|[v|err]]; rewrite ?E; try done;
    (destruct Hm as [Hm1 Hm2]; split; [done|]; eapply stays_moved; [apply _| |exact Hm2]; by split).
Qed.

Lemma advance_within {A} I G (p q : resume T A) x x' :
  I x → within I G p → advance p x = inr (q, x') → within I G q ∧ G x x' ∧ I x'.
Proof.
  destruct p as [a|Y m f]; [done|]. simpl. intros Hx [Hm Hf]. destruct (Hm x Hx) as [HG HI]. specialize (Hf x Hx).
  destruct (m x) as [y x1]. by intros [= <- <-].
Qed.

Lemma advance_done {A} (p : resume T A) a x : advance p x = inl a → p = Return a.
Proof. destruct p as [a'|Y m f]; simpl; [|by destruct (m x)]. by intros [= ->]. Qed.

Lemma advance_stays {A} k (p q : resume T A) Q x x' : stays (keepsRow k) p Q x → advance p x = inr (q, x') → stays (keepsRow k) q Q x'.
Proof.
  destruct p as [a|Y m f]; [done|]. simpl. intros Hp. specialize (Hp x). destruct (m x) as [y x1]. intros [= <- <-]. apply Hp. by split.
Qed.

(** A program that leaves the rows alone, next to others that leave this one. *)
Lemma stays_sameRows {A} k (p : resume T A) x :
  ofBuilder k x → within (ofBuilder k) sameRows p → stays (keepsRow k) p (λ _ x', ofBuilder k x' ∧ row x'.2 k = row x.2 k) x.
Proof.
  revert x. induction p as [a|Y m f IH]; intros x Hx Hp x1 [E1 E2].
  { split; [|done]. unfold ofBuilder. by rewrite E1. }
  destruct Hp as [Hm Hf]. assert (ofBuilder k x1) as Hx1 by (unfold ofBuilder; by rewrite E1).
  destruct (Hm x1 Hx1) as [Hs Hx2]. eapply stays_post; [|apply IH; [exact Hx2|by apply Hf]].
  intros a x3 [? E3]. split; [done|]. rewrite E3, <- E2. apply Hs.
Qed.

Lemma stays_after {A A'} k (p : resume T A) (f : A → resume T A') Q x :
  ofBuilder k x → within (ofBuilder k) sameRows p →
  (∀ a x', ofBuilder k x' → row x'.2 k = row x.2 k → stays (keepsRow k) (f a) Q x') → stays (keepsRow k) (a ← p; f a) Q x.
Proof.
  intros Hx Hp Hf. apply stays_bind; [apply _|]. eapply stays_post; [|by apply stays_sameRows].
  intros a x' [Hx' E]. by apply Hf.
Qed.

Lemma stays_done {A} k (a : A) (Q : A → T → Prop) x : stays (keepsRow k) (Return a) Q x → Q a x.
Proof. intros Hq. apply Hq. by split. Qed.

Lemma placed_step j done k x0 t s t' s' r :
  tame saved made k j → tstep cancelled j done t s t' s' r → placed k x0 t s →
  placed k x0 t' s' ∧ ∀ k', k' ≠ k → row s' k' = row s k'.
Proof.
  intros Hj Hstep (Hs & Hb & Hw & Hm). pose proof (tstep_sound _ _ _ _ _ _ _ _ Hstep Hs) as Hs'.
  cut (((own k (th_local t') ∧ (∀ p, th_watch t' = Cleaning p → within (ofBuilder k) sameRows p) ∧ match th_main t' with
    | Executing p => within (ofBuilder k) sameRows p ∧ row s' k = x0
    | Joining _ => row s' k = x0
    | Saving p => within (ofBuilder k) (otherRows k) p ∧
        stays (keepsRow k) p (λ r x, match r with Ok v => saved v (row x.2 k) | Err _ => row x.2 k = x0 end) (th_local t', s')
    | Undoing p _ => within (ofBuilder k) sameRows p ∧ row s' k = x0
    | Publishing p => within (ofBuilder k) (otherRows k) p ∧ stays (keepsRow k) p (λ v x, made v (row x.2 k)) (th_local t', s')
    | Sent (Ok v) => made v (row s' k)
    | Sent (Err _) => row s' k = x0
    end)) ∧ ∀ k', k' ≠ k → row s' k' = row s k'); [unfold placed; tauto|].
  clear Hs'. unfold sound in Hs. tstep_cases Hstep;
    repeat match goal with
    | H : advance _ _ = inl _ |- _ => apply advance_done in H as ->
    | H : ∀ q, Cleaning ?p = Cleaning q → _ |- _ => specialize (H p eq_refl)
    end;
    repeat match goal with
    | H : _ ∧ _ |- _ => destruct H
    | H : within _ _ ?p, E : advance ?p ?x = inr (_, ?x') |- _ =>
        let Hx := fresh in let Hg := fresh in let Hi := fresh in
        destruct (advance_within (ofBuilder k) _ _ _ x x' Hb H E) as (Hx & Hg & Hi); clear H
    | H : stays _ ?p _ _, E : advance ?p _ = inr _ |- _ => apply (advance_stays _ _ _ _ _ _ H) in E
    | H : stays _ (Return _) _ _ |- _ => apply stays_done in H; simpl in H
    end; try done.
  all: unfold sameRows, otherRows in *; simpl in *; split_and?; try done; try (by intros; congruence).
  all: try (intros ? [= <-]); try (by apply Hj); try (by eapply tame_saved); try (by eapply tame_publish);
    try (by eapply tame_published); eauto with congruence.
  all: match goal with |- match ?r with _ => _ end => destruct r; naive_solver end.
Qed.

Record rowsOK (s0 : S) (b : batch) : Prop := {
  rowsOK_others k : k ∉ keys → row (bt_state b) k = row s0 k;
  rowsOK_threads i k t : keys !! i = Some k → bt_threads b !! i = Some t → placed k (row s0 k) t (bt_state b);
}.

Lemma begin_rows s : rowsOK s (begin jobs s).
Proof.
  split; [done|]. intros i k t Hk Ht. apply list_lookup_fmap_Some in Ht as (j & -> & Hj).
  destruct (Forall2_lookup_lr _ _ _ _ _ _ Htame Hk Hj) as [? ? ? ? ? ? ?]. by split_and!.
Qed.

Lemma moves_rows s0 b b' : moves jobs cancelled b b' → rowsOK s0 b → rowsOK s0 b'.
Proof.
  destruct 1 as [b Hc|b i j t t' s' r Hj Ht Hs|b i r rest stop Hc]; intros [Ho Hp]; try by split.
  destruct (Forall2_lookup_r _ _ _ _ _ Htame Hj) as (k & Hk & Htj).
  destruct (placed_step _ _ _ _ _ _ _ _ _ Htj Hs (Hp _ _ _ Hk Ht)) as [Hp' Hrow].
  replace (send i r (setThread i t' s' b)) with (Batch_ (<[i := t']> (bt_threads b)) (bt_cancelled b) (bt_stopped b)
    (bt_channel (send i r (setThread i t' s' b))) (bt_received b) s') by (by destruct r).
  split; simpl.
  - intros k' Hk'. rewrite Hrow; [by apply Ho|]. intros ->. apply Hk'. by eapply list_elem_of_lookup_2.
  - intros i' k' u Hk' Hu. destruct (decide (i' = i)) as [->|Hne].
    + rewrite list_lookup_insert_eq in Hu by (by eapply lookup_lt_Some). simplify_eq. done.
    + rewrite list_lookup_insert_ne in Hu by done. eapply placed_moved; [|by apply (Hp i')].
      apply Hrow. intros ->. apply Hne. by eapply NoDup_lookup.
Qed.

(** Whatever the schedule, the rows of a table after a batch: a machine that was
    created has its row, and a creation that failed and everything else leave
    the table as it was. *)
Lemma batch_rows s0 b : rtc (bstep jobs cancelled atomic) (begin jobs s0) b →
  (∀ k, k ∉ keys → row (bt_state b) k = row s0 k) ∧
  ∀ i k r, keys !! i = Some k → (i, r) ∈ results b →
    match r with Ok v => made v (row (bt_state b) k) | Err _ => row (bt_state b) k = row s0 k end.
Proof.
  intros Hr. assert (rowsOK s0 b) as Hb.
  { pose proof (begin_rows s0) as H0. revert H0. induction Hr as [|b1 b2 b3 Hs _ IH]; [done|].
    intros H0. eapply IH, moves_rows, H0. by eapply bstep_moves. }
  split; [apply Hb|]. intros i k r Hk Hin. apply (reachable_counted jobs cancelled atomic _ _ Hr) in Hin as (t & Ht & E).
  destruct (rowsOK_threads _ _ Hb i k t Hk Ht) as (_ & _ & _ & Hm). by rewrite E in Hm.
Qed.
End Rows.
