(* ===== verification/Model.v ===== *)
(** * The model types: [internal/lib/model]

    The structs the domains share, with the fields of the source in its order
    (a pointer is an [option], a slice a [list], a string type a [string] with
    its constants), and their pure methods.  The fields holding resolved
    relations (pointers to other domains' items, filled in by the enricher and
    stored nowhere) are left out: no modelled operation reads them. *)

From stdpp Require Import gmap strings list pretty.
From S2P Require Import Prelude GoStrings.
#[local] Open Scope string_scope.


(** ** Firecracker configuration ([firecracker.go], [cloudinit.go], [vsock.go]) *)

Definition CloudInitMode := string.
Definition CloudInitModeOFF : CloudInitMode := "off".
Definition CloudInitModeINJECT : CloudInitMode := "inject".
Definition CloudInitModeNET : CloudInitMode := "net".
Definition CloudInitModeISO : CloudInitMode := "iso".
Definition CacheTypeWriteback : string := "Writeback".
Definition CacheTypeUnsafe : string := "Unsafe".

Record CpuidRegisterModifier := CpuidRegisterModifier_ {
  crm_Register : string;
  crm_Bitmap : string;
}.

Record CpuidLeafModifier := CpuidLeafModifier_ {
  clm_Leaf : string;
  clm_Subleaf : string;
  clm_Flags : Z;
  clm_Modifiers : list CpuidRegisterModifier;
}.

Record MsrModifier := MsrModifier_ {
  msr_Addr : string;
  msr_Bitmap : string;
}.

Record ArmRegisterModifier := ArmRegisterModifier_ {
  arm_Addr : string;
  arm_Bitmap : string;
}.

Record VcpuFeatures := VcpuFeatures_ {
  vcf_Index : Z;
  vcf_Bitmap : string;
}.

Record CpuConfig := CpuConfig_ {
  cpu_KvmCapabilities : list string;
  cpu_CpuidModifiers : list CpuidLeafModifier;
  cpu_MsrModifiers : list MsrModifier;
  cpu_RegModifiers : list ArmRegisterModifier;
  cpu_VcpuFeatures : list VcpuFeatures;
}.

Record DriveConfig := DriveConfig_ {
  dr_DriveID : string;
  dr_PathOnHost : string;
  dr_IsRootDevice : bool;
  dr_IsReadOnly : bool;
  dr_Partuuid : option string;
  dr_CacheType : string;
  dr_IOEngine : string;
  dr_RateLimiter : any;
  dr_Socket : option string;
}.

Record BootSourceConfig := BootSourceConfig_ {
  bs_BootArgs : string;
  bs_KernelImagePath : string;
  bs_InitrdPath : option string;
}.

Record NetworkInterfaceConfig := NetworkInterfaceConfig_ {
  ni_IfaceID : string;
  ni_GuestMAC : string;
  ni_HostDevName : string;
}.

Record MachineConfig := MachineConfig_ {
  mc_VCPUCount : Z;
  mc_MemSizeMiB : Z;
  mc_SMT : bool;
  mc_TrackDirtyPages : bool;
  mc_CPUTemplate : option string;
}.

Record LoggerConfig := LoggerConfig_ {
  lc_LogPath : string;
  lc_Level : string;
  lc_ShowLevel : bool;
  lc_ShowLogOrigin : bool;
}.

Record MetricsConfig := MetricsConfig_ {
  mt_MetricsPath : string;
}.

Record VsockConfig := VsockConfig_ {
  vs_GuestCID : Z;
  vs_UDSPath : string;
}.

Record FirecrackerVMConfig := FirecrackerVMConfig_ {
  fvc_BootSource : BootSourceConfig;
  fvc_Drives : list DriveConfig;
  fvc_NetworkInterfaces : list NetworkInterfaceConfig;
  fvc_MachineConfig : MachineConfig;
  fvc_Logger : option LoggerConfig;
  fvc_Metrics : option MetricsConfig;
  fvc_CPUConfig : option CpuConfig;
  fvc_Vsock : option VsockConfig;
}.

Record FirecrackerConfig := FirecrackerConfig_ {
  fc_VMDir : string;
  fc_RootfsPath : string;
  fc_BinaryPath : string;
  fc_KernelPath : string;
  fc_VCPUCount : Z;
  fc_MemSizeMiB : Z;
  fc_GuestIP : string;
  fc_GuestMAC : string;
  fc_TapName : string;
  fc_NetworkGateway : string;
  fc_NetworkNetmask : string;
  fc_ImageFSUUID : string;
  fc_ImageFSType : string;
  fc_BootArgs : string;
  fc_LSMFlags : string;
  fc_PCIEnabled : bool;
  fc_NestedVirt : bool;
  fc_EnableConsole : bool;
  fc_EnableLogging : bool;
  fc_EnableMetrics : bool;
  fc_LogLevel : string;
  fc_LogPath : string;
  fc_SerialOutputPath : string;
  fc_MetricsPath : string;
  fc_APISocketPath : string;
  fc_PIDPath : string;
  fc_ConfigPath : string;
  fc_CloudInitMode : option CloudInitMode;
  fc_CloudInitISOPath : option string;
  fc_CloudInitNoCloudURL : option string;
  fc_CPUConfig : option CpuConfig;
  fc_CPUVendor : option string;
  fc_CPUArchitecture : option string;
  fc_ExtraDrives : list DriveConfig;
  fc_RelayClientFD : option Z;
  fc_SnapshotMode : bool;
  fc_Writeback : bool;
  fc_Vsock : option VsockConfig;
}.

(** [config.PCIEnabled = v]. *)
Definition fcSetPCIEnabled (v : bool) (x : FirecrackerConfig) : FirecrackerConfig :=
  FirecrackerConfig_
    (fc_VMDir x) (fc_RootfsPath x) (fc_BinaryPath x) (fc_KernelPath x) (fc_VCPUCount x)
    (fc_MemSizeMiB x) (fc_GuestIP x) (fc_GuestMAC x) (fc_TapName x) (fc_NetworkGateway x)
    (fc_NetworkNetmask x) (fc_ImageFSUUID x) (fc_ImageFSType x) (fc_BootArgs x) (fc_LSMFlags x)
    v (fc_NestedVirt x) (fc_EnableConsole x) (fc_EnableLogging x) (fc_EnableMetrics x)
    (fc_LogLevel x) (fc_LogPath x) (fc_SerialOutputPath x) (fc_MetricsPath x) (fc_APISocketPath x)
    (fc_PIDPath x) (fc_ConfigPath x) (fc_CloudInitMode x) (fc_CloudInitISOPath x) (fc_CloudInitNoCloudURL x)
    (fc_CPUConfig x) (fc_CPUVendor x) (fc_CPUArchitecture x) (fc_ExtraDrives x) (fc_RelayClientFD x)
    (fc_SnapshotMode x) (fc_Writeback x) (fc_Vsock x).

(** [FirecrackerConfig{}]. *)
Definition fcZero : FirecrackerConfig :=
  FirecrackerConfig_
    "" "" "" "" 0%Z 0%Z "" ""
    "" "" "" "" "" "" "" false
    false false false false "" "" "" ""
    "" "" "" None None None None None
    None [] None false false None.

(** ** Virtual machines ([vm.go]) *)

Definition VMStatus := string.
Definition VMStatusStarting : VMStatus := "starting".
Definition VMStatusRunning : VMStatus := "running".
Definition VMStatusPaused : VMStatus := "paused".
Definition VMStatusStopping : VMStatus := "stopping".
Definition VMStatusStopped : VMStatus := "stopped".
Definition VMStatusCrashed : VMStatus := "crashed".
Definition VMStatusError : VMStatus := "error".

Record VMItem := VMItem_ {
  vm_ID : string;
  vm_Name : string;
  vm_Status : VMStatus;
  vm_PID : Z;
  vm_IPv4 : string;
  vm_MAC : string;
  vm_NetworkID : string;
  vm_TapDevice : string;
  vm_ImageID : string;
  vm_KernelID : string;
  vm_BinaryID : string;
  vm_APISocketPath : string;
  vm_ConfigPath : string;
  vm_CloudInitMode : string;
  vm_VCPUCount : Z;
  vm_MemSizeMiB : Z;
  vm_DiskSizeMiB : Z;
  vm_RootfsPath : string;
  vm_RootfsSuffix : string;
  vm_PCIEnabled : bool;
  vm_NestedVirt : bool;
  vm_RemoteExec : bool;
  vm_EnableLogging : bool;
  vm_EnableMetrics : bool;
  vm_EnableConsole : bool;
  vm_CreatedAt : string;
  vm_UpdatedAt : string;
  vm_RelaySocketPath : option string;
  vm_ProcessStartTime : option Z;
  vm_NocloudNetPort : option Z;
  vm_NocloudNetPID : option Z;
  vm_RelayPID : option Z;
  vm_ExitCode : option Z;
  vm_LogPath : option string;
  vm_SerialOutputPath : option string;
  vm_LSMFlags : string;
  vm_BootArgs : string;
  vm_LogLevel : string;
  vm_LogFilename : string;
  vm_SerialOutputFilename : string;
  vm_MetricsFilename : string;
  vm_APISocketFilename : string;
  vm_PIDFilename : string;
  vm_ConfigFilename : string;
  vm_ConsolePIDFilename : string;
  vm_ConsoleSocketFilename : string;
  vm_SSHKeys : list string;
  vm_SSHUser : option string;
  vm_VolumeIDs : list string;
  vm_CPUConfig : option CpuConfig;
}.

(** [VMItem{}]. *)
Definition vmZero : VMItem :=
  VMItem_
    "" "" "" 0%Z "" "" "" ""
    "" "" "" "" "" "" 0%Z 0%Z
    0%Z "" "" false false false false false
    false "" "" None None None None None
    None None None "" "" "" "" ""
    "" "" "" "" "" "" [] None
    [] None.

(** [vm.Status = status]. *)
Definition vmSetStatus (status : VMStatus) (x : VMItem) : VMItem :=
  VMItem_
    (vm_ID x) (vm_Name x) status (vm_PID x) (vm_IPv4 x)
    (vm_MAC x) (vm_NetworkID x) (vm_TapDevice x) (vm_ImageID x) (vm_KernelID x)
    (vm_BinaryID x) (vm_APISocketPath x) (vm_ConfigPath x) (vm_CloudInitMode x) (vm_VCPUCount x)
    (vm_MemSizeMiB x) (vm_DiskSizeMiB x) (vm_RootfsPath x) (vm_RootfsSuffix x) (vm_PCIEnabled x)
    (vm_NestedVirt x) (vm_RemoteExec x) (vm_EnableLogging x) (vm_EnableMetrics x) (vm_EnableConsole x)
    (vm_CreatedAt x) (vm_UpdatedAt x) (vm_RelaySocketPath x) (vm_ProcessStartTime x) (vm_NocloudNetPort x)
    (vm_NocloudNetPID x) (vm_RelayPID x) (vm_ExitCode x) (vm_LogPath x) (vm_SerialOutputPath x)
    (vm_LSMFlags x) (vm_BootArgs x) (vm_LogLevel x) (vm_LogFilename x) (vm_SerialOutputFilename x)
    (vm_MetricsFilename x) (vm_APISocketFilename x) (vm_PIDFilename x) (vm_ConfigFilename x) (vm_ConsolePIDFilename x)
    (vm_ConsoleSocketFilename x) (vm_SSHKeys x) (vm_SSHUser x) (vm_VolumeIDs x) (vm_CPUConfig x).

(** [vm.PID = pid]. *)
Definition vmSetPID (pid : Z) (x : VMItem) : VMItem :=
  VMItem_
    (vm_ID x) (vm_Name x) (vm_Status x) pid (vm_IPv4 x)
    (vm_MAC x) (vm_NetworkID x) (vm_TapDevice x) (vm_ImageID x) (vm_KernelID x)
    (vm_BinaryID x) (vm_APISocketPath x) (vm_ConfigPath x) (vm_CloudInitMode x) (vm_VCPUCount x)
    (vm_MemSizeMiB x) (vm_DiskSizeMiB x) (vm_RootfsPath x) (vm_RootfsSuffix x) (vm_PCIEnabled x)
    (vm_NestedVirt x) (vm_RemoteExec x) (vm_EnableLogging x) (vm_EnableMetrics x) (vm_EnableConsole x)
    (vm_CreatedAt x) (vm_UpdatedAt x) (vm_RelaySocketPath x) (vm_ProcessStartTime x) (vm_NocloudNetPort x)
    (vm_NocloudNetPID x) (vm_RelayPID x) (vm_ExitCode x) (vm_LogPath x) (vm_SerialOutputPath x)
    (vm_LSMFlags x) (vm_BootArgs x) (vm_LogLevel x) (vm_LogFilename x) (vm_SerialOutputFilename x)
    (vm_MetricsFilename x) (vm_APISocketFilename x) (vm_PIDFilename x) (vm_ConfigFilename x) (vm_ConsolePIDFilename x)
    (vm_ConsoleSocketFilename x) (vm_SSHKeys x) (vm_SSHUser x) (vm_VolumeIDs x) (vm_CPUConfig x).

(** [vm.ProcessStartTime = t]. *)
Definition vmSetStartTime (t : option Z) (x : VMItem) : VMItem :=
  VMItem_
    (vm_ID x) (vm_Name x) (vm_Status x) (vm_PID x) (vm_IPv4 x)
    (vm_MAC x) (vm_NetworkID x) (vm_TapDevice x) (vm_ImageID x) (vm_KernelID x)
    (vm_BinaryID x) (vm_APISocketPath x) (vm_ConfigPath x) (vm_CloudInitMode x) (vm_VCPUCount x)
    (vm_MemSizeMiB x) (vm_DiskSizeMiB x) (vm_RootfsPath x) (vm_RootfsSuffix x) (vm_PCIEnabled x)
    (vm_NestedVirt x) (vm_RemoteExec x) (vm_EnableLogging x) (vm_EnableMetrics x) (vm_EnableConsole x)
    (vm_CreatedAt x) (vm_UpdatedAt x) (vm_RelaySocketPath x) t (vm_NocloudNetPort x)
    (vm_NocloudNetPID x) (vm_RelayPID x) (vm_ExitCode x) (vm_LogPath x) (vm_SerialOutputPath x)
    (vm_LSMFlags x) (vm_BootArgs x) (vm_LogLevel x) (vm_LogFilename x) (vm_SerialOutputFilename x)
    (vm_MetricsFilename x) (vm_APISocketFilename x) (vm_PIDFilename x) (vm_ConfigFilename x) (vm_ConsolePIDFilename x)
    (vm_ConsoleSocketFilename x) (vm_SSHKeys x) (vm_SSHUser x) (vm_VolumeIDs x) (vm_CPUConfig x).

(** [vm.ExitCode = code]. *)
Definition vmSetExitCode (code : option Z) (x : VMItem) : VMItem :=
  VMItem_
    (vm_ID x) (vm_Name x) (vm_Status x) (vm_PID x) (vm_IPv4 x)
    (vm_MAC x) (vm_NetworkID x) (vm_TapDevice x) (vm_ImageID x) (vm_KernelID x)
    (vm_BinaryID x) (vm_APISocketPath x) (vm_ConfigPath x) (vm_CloudInitMode x) (vm_VCPUCount x)
    (vm_MemSizeMiB x) (vm_DiskSizeMiB x) (vm_RootfsPath x) (vm_RootfsSuffix x) (vm_PCIEnabled x)
    (vm_NestedVirt x) (vm_RemoteExec x) (vm_EnableLogging x) (vm_EnableMetrics x) (vm_EnableConsole x)
    (vm_CreatedAt x) (vm_UpdatedAt x) (vm_RelaySocketPath x) (vm_ProcessStartTime x) (vm_NocloudNetPort x)
    (vm_NocloudNetPID x) (vm_RelayPID x) code (vm_LogPath x) (vm_SerialOutputPath x)
    (vm_LSMFlags x) (vm_BootArgs x) (vm_LogLevel x) (vm_LogFilename x) (vm_SerialOutputFilename x)
    (vm_MetricsFilename x) (vm_APISocketFilename x) (vm_PIDFilename x) (vm_ConfigFilename x) (vm_ConsolePIDFilename x)
    (vm_ConsoleSocketFilename x) (vm_SSHKeys x) (vm_SSHUser x) (vm_VolumeIDs x) (vm_CPUConfig x).

(** [vm.CreatedAt, vm.UpdatedAt = created, updated]. *)
Definition vmSetTimes (created : string) (updated : string) (x : VMItem) : VMItem :=
  VMItem_
    (vm_ID x) (vm_Name x) (vm_Status x) (vm_PID x) (vm_IPv4 x)
    (vm_MAC x) (vm_NetworkID x) (vm_TapDevice x) (vm_ImageID x) (vm_KernelID x)
    (vm_BinaryID x) (vm_APISocketPath x) (vm_ConfigPath x) (vm_CloudInitMode x) (vm_VCPUCount x)
    (vm_MemSizeMiB x) (vm_DiskSizeMiB x) (vm_RootfsPath x) (vm_RootfsSuffix x) (vm_PCIEnabled x)
    (vm_NestedVirt x) (vm_RemoteExec x) (vm_EnableLogging x) (vm_EnableMetrics x) (vm_EnableConsole x)
    created updated (vm_RelaySocketPath x) (vm_ProcessStartTime x) (vm_NocloudNetPort x)
    (vm_NocloudNetPID x) (vm_RelayPID x) (vm_ExitCode x) (vm_LogPath x) (vm_SerialOutputPath x)
    (vm_LSMFlags x) (vm_BootArgs x) (vm_LogLevel x) (vm_LogFilename x) (vm_SerialOutputFilename x)
    (vm_MetricsFilename x) (vm_APISocketFilename x) (vm_PIDFilename x) (vm_ConfigFilename x) (vm_ConsolePIDFilename x)
    (vm_ConsoleSocketFilename x) (vm_SSHKeys x) (vm_SSHUser x) (vm_VolumeIDs x) (vm_CPUConfig x).

(** The part of a VM that has a column: the other fields are zero when it is read back. *)
Definition vmStored  (x : VMItem) : VMItem :=
  VMItem_
    (vm_ID x) (vm_Name x) (vm_Status x) (vm_PID x) (vm_IPv4 x)
    (vm_MAC x) (vm_NetworkID x) (vm_TapDevice x) (vm_ImageID x) (vm_KernelID x)
    (vm_BinaryID x) (vm_APISocketPath x) (vm_ConfigPath x) (vm_CloudInitMode x) (vm_VCPUCount x)
    (vm_MemSizeMiB x) (vm_DiskSizeMiB x) (vm_RootfsPath x) (vm_RootfsSuffix x) (vm_PCIEnabled x)
    (vm_NestedVirt x) (vm_RemoteExec x) (vm_EnableLogging x) (vm_EnableMetrics x) (vm_EnableConsole x)
    (vm_CreatedAt x) (vm_UpdatedAt x) (vm_RelaySocketPath x) (vm_ProcessStartTime x) (vm_NocloudNetPort x)
    (vm_NocloudNetPID x) (vm_RelayPID x) (vm_ExitCode x) (vm_LogPath x) (vm_SerialOutputPath x)
    (vm_LSMFlags x) (vm_BootArgs x) "" "" ""
    "" "" "" "" ""
    "" (vm_SSHKeys x) (vm_SSHUser x) (vm_VolumeIDs x) (vm_CPUConfig x).

(** ** Snapshots ([snapshot.go]) *)

Record SnapshotCreateConfig := SnapshotCreateConfig_ {
  sc_MemFile : string;
  sc_StateFile : string;
  sc_PauseOnly : bool;
  sc_PhantomRootfsPath : string;
  sc_RootfsPath : string;
}.

Record SnapshotRestoreConfig := SnapshotRestoreConfig_ {
  sr_MemFile : string;
  sr_StateFile : string;
  sr_Resume : bool;
  sr_NetworkOverrides : gmap string string;
  sr_VsockUDSPath : string;
  sr_RootfsPath : string;
}.

(** ** Networks and firewall rules ([network.go]) *)

Definition FirewallTable := string.
Definition FirewallTableFilter : FirewallTable := "filter".
Definition FirewallTableNat : FirewallTable := "nat".
Definition FirewallTableMangle : FirewallTable := "mangle".
Definition FirewallTableRaw : FirewallTable := "raw".
Definition FirewallTableSecurity : FirewallTable := "security".

Definition FirewallChain := string.
Definition FirewallChainMVMForward : FirewallChain := "MVM-FORWARD".
Definition FirewallChainMVMPostrouting : FirewallChain := "MVM-POSTROUTING".
Definition FirewallChainMVMNocloudNetIn : FirewallChain := "MVM-NOCLOUDNET-INPUT".

Definition FirewallRuleType := string.
Definition FirewallRuleTypeMasquerade : FirewallRuleType := "masquerade".
Definition FirewallRuleTypeForwardIn : FirewallRuleType := "forward_in".
Definition FirewallRuleTypeForwardOut : FirewallRuleType := "forward_out".
Definition FirewallRuleTypeNocloudNetInput : FirewallRuleType := "nocloudnet_input".

Definition FirewallProtocol := string.
Definition FirewallProtocolTCP : FirewallProtocol := "tcp".
Definition FirewallProtocolUDP : FirewallProtocol := "udp".
Definition FirewallProtocolICMP : FirewallProtocol := "icmp".
Definition FirewallProtocolAll : FirewallProtocol := "all".

Definition FirewallTarget := string.
Definition FirewallTargetMasquerade : FirewallTarget := "MASQUERADE".
Definition FirewallTargetAccept : FirewallTarget := "ACCEPT".
Definition FirewallTargetDrop : FirewallTarget := "DROP".
Definition FirewallTargetReject : FirewallTarget := "REJECT".
Definition FirewallTargetLog : FirewallTarget := "LOG".
Definition FirewallTargetMark : FirewallTarget := "MARK".

Definition FirewallWildcard := string.
Definition FirewallWildcardAnyCIDR : FirewallWildcard := "0.0.0.0/0".
Definition FirewallWildcardAnyInterface : FirewallWildcard := "*".

Definition FirewallPortAny : Z := 0.

Record NetworkItem := NetworkItem_ {
  nw_ID : string;
  nw_Name : string;
  nw_Subnet : string;
  nw_Bridge : string;
  nw_IPv4Gateway : string;
  nw_BridgeActive : bool;
  nw_NATEnabled : bool;
  nw_IsDefault : bool;
  nw_IsPresent : bool;
  nw_CreatedAt : string;
  nw_UpdatedAt : string;
  nw_DeletedAt : option string;
  nw_NATGateways : option string;
}.

Record NetworkLeaseItem := NetworkLeaseItem_ {
  ls_NetworkID : string;
  ls_IPv4 : string;
  ls_LeasedAt : string;
  ls_ID : option Z;
  ls_VMID : option string;
  ls_ExpiresAt : option string;
}.

Record FirewallRule := FirewallRule_ {
  fr_TableName : FirewallTable;
  fr_ChainName : FirewallChain;
  fr_RuleType : FirewallRuleType;
  fr_Protocol : FirewallProtocol;
  fr_Source : string;
  fr_Destination : string;
  fr_InInterface : string;
  fr_OutInterface : string;
  fr_Target : FirewallTarget;
  fr_SPort : Z;
  fr_DPort : Z;
  fr_NetworkID : string;
  fr_IsActive : bool;
  fr_ID : option Z;
  fr_NetworkName : option string;
  fr_CommentTag : option string;
  fr_CommandString : option string;
  fr_CreatedAt : option string;
  fr_LastVerifiedAt : option string;
}.

(** [Key]: [fmt.Sprintf("%s:%s:%s:%s:%s:%d:%d", ...)]. *)
Definition Key (r : FirewallRule) : string :=
  fr_TableName r ++ ":" ++ fr_ChainName r ++ ":" ++ fr_RuleType r ++ ":" ++
  fr_Source r ++ ":" ++ fr_OutInterface r ++ ":" ++ Itoa (fr_SPort r) ++ ":" ++
  Itoa (fr_DPort r).

Definition NewTapForwardRules (tap bridge networkID subnet : string) : list FirewallRule :=
  let wildcard := FirewallWildcardAnyCIDR in
  let rule ruleType source destination inInterface outInterface :=
    FirewallRule_ FirewallTableFilter FirewallChainMVMForward ruleType FirewallProtocolAll
      source destination inInterface outInterface FirewallTargetAccept
      FirewallPortAny FirewallPortAny networkID true
      None (Some bridge) None None None None in
  let '(src, dst) :=
    if decide (subnet = "") then (wildcard, wildcard) else (subnet, subnet) in
  [rule FirewallRuleTypeForwardOut src wildcard bridge tap;
   rule FirewallRuleTypeForwardIn wildcard dst tap bridge].

Record FirewallRuleResult := FirewallRuleResult_ {
  fres_Success : bool;
  fres_Rule : option FirewallRule;
  fres_ErrorMessage : option string;
  fres_CommandExecuted : option string;
}.

(** ** Volumes ([volume.go]) *)

Definition VolumeStatus := string.
Definition VolumeStatusAvailable : VolumeStatus := "available".
Definition VolumeStatusAttached : VolumeStatus := "attached".

Definition VolumeFormat := string.
Definition VolumeFormatRaw : VolumeFormat := "raw".
Definition VolumeFormatQCOW2 : VolumeFormat := "qcow2".

Record VolumeItem := VolumeItem_ {
  vol_ID : string;
  vol_Name : string;
  vol_SizeBytes : Z;
  vol_Format : VolumeFormat;
  vol_Path : string;
  vol_Status : VolumeStatus;
  vol_VMID : option string;
  vol_CreatedAt : string;
  vol_UpdatedAt : string;
  vol_IsReadOnly : bool;
  vol_IsShareable : bool;
  vol_CacheType : string;
}.

(** ** Workflow state ([workflow.go]) *)

Definition ResourceMap := gmap string any.

(** The getters; a nil map reads like an empty one. *)
Definition GetString (r : ResourceMap) (key : string) : string :=
  match r !! key with Some (AnyString s) => s | _ => "" end.

Definition GetBool (r : ResourceMap) (key : string) : bool :=
  match r !! key with
  | Some (AnyBool b) => b
  | Some (AnyString s) => bool_decide (s = "true") || bool_decide (s = "yes") || bool_decide (s = "1")
  | _ => false
  end.

Definition GetInt (r : ResourceMap) (key : string) : Z :=
  match r !! key with Some (AnyInt i) => i | _ => 0%Z end.

(** Nil when the key is missing or holds no list; items that are not strings
    are dropped. *)
Definition GetStringList (r : ResourceMap) (key : string) : option (list string) :=
  match r !! key with
  | Some (AnyList raw) =>
      Some (omap (λ item, match item with AnyString s => Some s | _ => None end) raw)
  | _ => None
  end.

Record ResourceMeta := ResourceMeta_ {
  rm_WasCreated : bool;
  rm_SpecHash : string;
}.

Record ResourceState := ResourceState_ {
  rs_Spec : ResourceMap;
  rs_Output : ResourceMap;
  rs_Meta : ResourceMeta;
}.

Record AppliedResource := AppliedResource_ {
  ar_Name : string;
  ar_Type : string;
  ar_Dependencies : list string;
  ar_State : ResourceState;
}.

Record WorkflowState := WorkflowState_ {
  ws_WorkflowID : string;
  ws_SpecPath : string;
  ws_SchemaVersion : string;
  ws_CreatedAt : string;
  ws_UpdatedAt : string;
  ws_ContentHash : string;
  ws_Resources : list AppliedResource;
}.

Record StepResult := StepResult_ {
  stepres_StepName : string;
  stepres_StepType : string;
  stepres_Status : string;
  stepres_Message : string;
}.

(** ** Images, kernels, binaries and SSH keys ([image.go], [kernel.go], [binary.go],
    [key.go]); a [float64] is kept as its 64 bits *)

Record ImageItem := ImageItem_ {
  img_ID : string;
  img_Type : string;
  img_Name : string;
  img_Arch : string;
  img_Path : string;
  img_FSType : string;
  img_MinRootfsSizeMiB : Z;
  img_OriginalSize : Z;
  img_IsDefault : bool;
  img_IsPresent : bool;
  img_IsImported : bool;
  img_PulledAt : string;
  img_CreatedAt : string;
  img_UpdatedAt : string;
  img_Version : string;
  img_Distro : string;
  img_FSUUID : string;
  img_CompressedSize : option Z;
  img_CompressionRatio : option Z;
  img_CompressedFormat : option string;
  img_DeletedAt : option string;
}.

Record KernelItem := KernelItem_ {
  krn_ID : string;
  krn_Name : string;
  krn_BaseName : string;
  krn_Version : string;
  krn_Arch : string;
  krn_Type : string;
  krn_Path : string;
  krn_IsDefault : bool;
  krn_IsPresent : bool;
  krn_CreatedAt : string;
  krn_UpdatedAt : string;
  krn_DeletedAt : option string;
  krn_Features : list string;
}.

Record BinaryItem := BinaryItem_ {
  bin_ID : string;
  bin_Type : string;
  bin_Version : string;
  bin_FullVersion : string;
  bin_CIVersion : option string;
  bin_Path : string;
  bin_IsDefault : bool;
  bin_IsPresent : bool;
  bin_CreatedAt : string;
  bin_UpdatedAt : string;
  bin_DeletedAt : option string;
}.

Record SSHKeyItem := SSHKeyItem_ {
  key_ID : string;
  key_Name : string;
  key_Fingerprint : string;
  key_Algorithm : string;
  key_Comment : string;
  key_PublicKeyPath : string;
  key_IsDefault : bool;
  key_IsPresent : bool;
  key_CreatedAt : string;
  key_UpdatedAt : string;
  key_PrivateKeyPath : option string;
}.

(** ** Snapshots in the database ([snapshot.go], [firecracker.go]) and vsock
    devices ([vsock.go]) *)

Record SnapshotExtraConfig := SnapshotExtraConfig_ {
  sx_BootArgs : string;
  sx_LSMFlags : string;
  sx_PCIEnabled : bool;
  sx_NestedVirt : bool;
  sx_Console : bool;
  sx_EnableLogging : bool;
  sx_EnableMetrics : bool;
  sx_LogLevel : string;
  sx_CPUConfig : option CpuConfig;
  sx_VsockPort : Z;
  sx_VsockCID : Z;
  sx_VsockToken : string;
}.

Record SnapshotItem := SnapshotItem_ {
  snap_ID : string;
  snap_Name : string;
  snap_SourceVMID : string;
  snap_SourceVMName : string;
  snap_SnapshotDir : string;
  snap_MemoryFile : string;
  snap_StateFile : string;
  snap_RootfsFile : string;
  snap_KernelID : string;
  snap_NetworkID : string;
  snap_BinaryID : string;
  snap_VCPUCount : Z;
  snap_MemSizeMiB : Z;
  snap_DiskSizeMiB : Z;
  snap_ImageID : string;
  snap_SSHKeys : list string;
  snap_SSHUser : option string;
  snap_ExtraConfig : option SnapshotExtraConfig;
  snap_CreatedAt : string;
  snap_UpdatedAt : string;
}.

(** A time is kept as its text. *)
Record VsockConfigItem := VsockConfigItem_ {
  vsk_ID : string;
  vsk_VmID : string;
  vsk_GuestCID : Z;
  vsk_UDSPath : string;
  vsk_Port : Z;
  vsk_Token : string;
  vsk_AgentVersion : string;
  vsk_Upgrading : bool;
  vsk_UpgradeStartedAt : option string;
}.
