(* ===== verification/Inputs.v ===== *)
(** * The inputs of the operations: [pkg/api/inputs]

    The structs a caller fills in, with the fields of the source in its order
    (a pointer is an [option], a slice a [list]).  Their [Resolve] methods are
    part of the operations. *)

From stdpp Require Import gmap strings list.
From S2P Require Import Prelude.

Record NetworkCreateInput := NetworkCreateInput_ {
  nci_Name : string;
  nci_Subnet : string;
  nci_IPv4Gateway : option string;
  nci_NATEnabled : bool;
  nci_NATGateways : list string;
  nci_SetDefault : bool;
}.

(** [input.Name = name] and [input.NATEnabled = b]. *)
Definition nci_setName (name : string) (i : NetworkCreateInput) : NetworkCreateInput :=
  NetworkCreateInput_ name (nci_Subnet i) (nci_IPv4Gateway i) (nci_NATEnabled i) (nci_NATGateways i) (nci_SetDefault i).
Definition nci_setNAT (b : bool) (i : NetworkCreateInput) : NetworkCreateInput :=
  NetworkCreateInput_ (nci_Name i) (nci_Subnet i) (nci_IPv4Gateway i) b (nci_NATGateways i) (nci_SetDefault i).

(** [NetworkCreateInput{}]. *)
Definition nciZero : NetworkCreateInput :=
  NetworkCreateInput_
    ""%string ""%string None false [] false.

Record NetworkInput := NetworkInput_ {
  nwi_Identifiers : list string;
  nwi_Force : bool;
  nwi_IncludeDeleted : bool;
}.

Record KeyCreateInput := KeyCreateInput_ {
  kci_Name : string;
  kci_Algorithm : string;
  kci_Bits : Z;
  kci_OutputDir : string;
  kci_Comment : string;
  kci_Overwrite : bool;
  kci_SetDefault : bool;
}.

(** [KeyCreateInput{}]. *)
Definition kciZero : KeyCreateInput :=
  KeyCreateInput_
    ""%string ""%string 0%Z ""%string ""%string false false.

(** [input.Name = name]. *)
Definition kci_setName (name : string) (i : KeyCreateInput) : KeyCreateInput :=
  KeyCreateInput_
    name (kci_Algorithm i) (kci_Bits i) (kci_OutputDir i) (kci_Comment i)
    (kci_Overwrite i) (kci_SetDefault i).

Record KeyInput := KeyInput_ {
  kyi_Identifiers : list string;
}.

Record BinaryPullInput := BinaryPullInput_ {
  bpi_Version : string;
  bpi_Type : string;
  bpi_GitRef : option string;
  bpi_SetDefault : bool;
  bpi_DownloadOverride : bool;
}.

(** [BinaryPullInput{}]. *)
Definition bpiZero : BinaryPullInput :=
  BinaryPullInput_
    ""%string ""%string None false false.

(** [input.Type = t]. *)
Definition bpi_setType (t : string) (i : BinaryPullInput) : BinaryPullInput :=
  BinaryPullInput_
    (bpi_Version i) t (bpi_GitRef i) (bpi_SetDefault i) (bpi_DownloadOverride i).

Record BinaryInput := BinaryInput_ {
  bni_Identifiers : list string;
  bni_Version : option string;
  bni_IncludeDeleted : bool;
}.

Record ImagePullInput := ImagePullInput_ {
  ipi_Type : string;
  ipi_Name : option string;
  ipi_Force : bool;
  ipi_SetDefault : bool;
  ipi_Version : string;
  ipi_NoCache : bool;
  ipi_Partition : Z;
  ipi_SkipOptimization : bool;
  ipi_DisabledDetectors : list string;
  ipi_OutputDir : string;
}.

(** [ImagePullInput{}]. *)
Definition ipiZero : ImagePullInput :=
  ImagePullInput_
    ""%string None false false ""%string false 0%Z false
    [] ""%string.

Record ImageImportInput := ImageImportInput_ {
  iii_Name : string;
  iii_Source : string;
  iii_Force : bool;
  iii_Format : string;
  iii_SetDefault : bool;
  iii_Version : string;
  iii_Partition : Z;
  iii_SkipOptimization : bool;
  iii_DisabledDetectors : list string;
}.

(** [ImageImportInput{}]. *)
Definition iiiZero : ImageImportInput :=
  ImageImportInput_
    ""%string ""%string false ""%string false ""%string 0%Z false
    [].

(** [input.Name = name]. *)
Definition iii_setName (name : string) (i : ImageImportInput) : ImageImportInput :=
  ImageImportInput_
    name (iii_Source i) (iii_Force i) (iii_Format i) (iii_SetDefault i)
    (iii_Version i) (iii_Partition i) (iii_SkipOptimization i) (iii_DisabledDetectors i).

Record ImageInput := ImageInput_ {
  imi_Identifiers : list string;
  imi_IncludeDeleted : bool;
}.

Record KernelPullInput := KernelPullInput_ {
  kpi_KernelType : string;
  kpi_Version : string;
  kpi_OutputDir : string;
  kpi_OutputName : string;
  kpi_OutputPath : string;
  kpi_Jobs : Z;
  kpi_KeepBuildDir : bool;
  kpi_CleanBuild : bool;
  kpi_KernelConfig : string;
  kpi_SetDefault : bool;
  kpi_Features : string;
  kpi_SkipChecksum : bool;
}.

(** [KernelPullInput{}]. *)
Definition kpiZero : KernelPullInput :=
  KernelPullInput_
    ""%string ""%string ""%string ""%string ""%string 0%Z false false
    ""%string false ""%string false.

(** [input.KernelType = t]. *)
Definition kpi_setType (t : string) (i : KernelPullInput) : KernelPullInput :=
  KernelPullInput_
    t (kpi_Version i) (kpi_OutputDir i) (kpi_OutputName i) (kpi_OutputPath i)
    (kpi_Jobs i) (kpi_KeepBuildDir i) (kpi_CleanBuild i) (kpi_KernelConfig i) (kpi_SetDefault i)
    (kpi_Features i) (kpi_SkipChecksum i).

Record VMCreateInput := VMCreateInput_ {
  vci_Name : string;
  vci_SSHKeys : list string;
  vci_VCPUCount : option Z;
  vci_MemSizeMib : string;
  vci_User : option string;
  vci_PCIEnabled : option bool;
  vci_NestedVirt : option bool;
  vci_AllowRemoteExec : option bool;
  vci_CPUTemplate : string;
  vci_CPUConfig : option (gmap string any);
  vci_EnableConsole : option bool;
  vci_EnableLogging : option bool;
  vci_EnableMetrics : option bool;
  vci_ImageID : option string;
  vci_KernelID : option string;
  vci_BinaryID : option string;
  vci_DiskSize : string;
  vci_RequestedGuestIP : option string;
  vci_SkipCINetworkConfig : bool;
  vci_BootArgs : string;
  vci_LSMFlags : string;
  vci_NetworkID : option string;
  vci_RequestedGuestMAC : option string;
  vci_CustomCloudInitConfig : option string;
  vci_CloudInitMode : option string;
  vci_CloudInitISOPath : option string;
  vci_KeepCloudInitISO : bool;
  vci_NocloudNetPort : option Z;
  vci_SkipCleanup : bool;
  vci_SkipDeblob : bool;
  vci_Count : option Z;
  vci_Atomic : bool;
  vci_Volumes : list string;
  vci_VsockPort : option Z;
  vci_Writeback : option bool;
}.

(** [VMCreateInput{}]. *)
Definition vciZero : VMCreateInput :=
  VMCreateInput_
    ""%string [] None ""%string None None None None
    ""%string None None None None None None None
    ""%string None false ""%string ""%string None None None
    None None false None false false None false
    [] None None.

(** [input.Name = name]. *)
Definition vci_setName (name : string) (i : VMCreateInput) : VMCreateInput :=
  VMCreateInput_
    name (vci_SSHKeys i) (vci_VCPUCount i) (vci_MemSizeMib i) (vci_User i)
    (vci_PCIEnabled i) (vci_NestedVirt i) (vci_AllowRemoteExec i) (vci_CPUTemplate i) (vci_CPUConfig i)
    (vci_EnableConsole i) (vci_EnableLogging i) (vci_EnableMetrics i) (vci_ImageID i) (vci_KernelID i)
    (vci_BinaryID i) (vci_DiskSize i) (vci_RequestedGuestIP i) (vci_SkipCINetworkConfig i) (vci_BootArgs i)
    (vci_LSMFlags i) (vci_NetworkID i) (vci_RequestedGuestMAC i) (vci_CustomCloudInitConfig i) (vci_CloudInitMode i)
    (vci_CloudInitISOPath i) (vci_KeepCloudInitISO i) (vci_NocloudNetPort i) (vci_SkipCleanup i) (vci_SkipDeblob i)
    (vci_Count i) (vci_Atomic i) (vci_Volumes i) (vci_VsockPort i) (vci_Writeback i).

(** [input.SSHKeys = keys]. *)
Definition vci_setSSHKeys (keys : list string) (i : VMCreateInput) : VMCreateInput :=
  VMCreateInput_
    (vci_Name i) keys (vci_VCPUCount i) (vci_MemSizeMib i) (vci_User i)
    (vci_PCIEnabled i) (vci_NestedVirt i) (vci_AllowRemoteExec i) (vci_CPUTemplate i) (vci_CPUConfig i)
    (vci_EnableConsole i) (vci_EnableLogging i) (vci_EnableMetrics i) (vci_ImageID i) (vci_KernelID i)
    (vci_BinaryID i) (vci_DiskSize i) (vci_RequestedGuestIP i) (vci_SkipCINetworkConfig i) (vci_BootArgs i)
    (vci_LSMFlags i) (vci_NetworkID i) (vci_RequestedGuestMAC i) (vci_CustomCloudInitConfig i) (vci_CloudInitMode i)
    (vci_CloudInitISOPath i) (vci_KeepCloudInitISO i) (vci_NocloudNetPort i) (vci_SkipCleanup i) (vci_SkipDeblob i)
    (vci_Count i) (vci_Atomic i) (vci_Volumes i) (vci_VsockPort i) (vci_Writeback i).

(** The references to other resources. *)
Definition vci_setRefs (network image kernel binary : option string) (i : VMCreateInput) : VMCreateInput :=
  VMCreateInput_
    (vci_Name i) (vci_SSHKeys i) (vci_VCPUCount i) (vci_MemSizeMib i) (vci_User i)
    (vci_PCIEnabled i) (vci_NestedVirt i) (vci_AllowRemoteExec i) (vci_CPUTemplate i) (vci_CPUConfig i)
    (vci_EnableConsole i) (vci_EnableLogging i) (vci_EnableMetrics i) image kernel
    binary (vci_DiskSize i) (vci_RequestedGuestIP i) (vci_SkipCINetworkConfig i) (vci_BootArgs i)
    (vci_LSMFlags i) network (vci_RequestedGuestMAC i) (vci_CustomCloudInitConfig i) (vci_CloudInitMode i)
    (vci_CloudInitISOPath i) (vci_KeepCloudInitISO i) (vci_NocloudNetPort i) (vci_SkipCleanup i) (vci_SkipDeblob i)
    (vci_Count i) (vci_Atomic i) (vci_Volumes i) (vci_VsockPort i) (vci_Writeback i).

Record KernelInput := KernelInput_ {
  kni_Identifiers : list string;
  kni_Force : bool;
  kni_IncludeDeleted : bool;
}.

Record VolumeInput := VolumeInput_ {
  vli_Identifiers : list string;
  vli_VMIdentifier : string;
}.

Record SnapshotInput := SnapshotInput_ {
  sni_Identifiers : list string;
  sni_Force : bool;
}.

Record VMInput := VMInput_ {
  vmi_Identifiers : list string;
  vmi_Force : bool;
}.

Record SSHInput := SSHInput_ {
  ssi_Identifier : string;
  ssi_User : option string;
  ssi_Key : option string;
  ssi_Cmd : option string;
  ssi_Timeout : option Z;
  ssi_Env : gmap string string;
}.

(** [SSHInput{}]. *)
Definition ssiZero : SSHInput :=
  SSHInput_
    ""%string None None None None ∅.

Record ExecInput := ExecInput_ {
  exi_Identifier : string;
  exi_Command : string;
  exi_User : string;
  exi_Timeout : Z;
  exi_Port : Z;
  exi_Env : gmap string string;
  exi_NoSync : bool;
}.

(** [ExecInput{}]. *)
Definition exiZero : ExecInput :=
  ExecInput_
    ""%string ""%string ""%string 0%Z 0%Z ∅ false.

(** [s.input.Env = env]. *)
Definition exi_setEnv (env : gmap string string) (i : ExecInput) : ExecInput :=
  ExecInput_
    (exi_Identifier i) (exi_Command i) (exi_User i) (exi_Timeout i) (exi_Port i)
    env (exi_NoSync i).

Record CPInput := CPInput_ {
  cpi_Sources : list string;
  cpi_Dest : string;
  cpi_Force : bool;
  cpi_NoSync : bool;
}.

(** [CPInput{}]. *)
Definition cpiZero : CPInput :=
  CPInput_
    [] ""%string false false.
