(* ===== verification/Infra.v ===== *)
(** * Shared infrastructure: [internal/infra/slice.go, pool/executor.go]

    Slice helpers and the worker pool behind every bulk operation.  [Seq] is a
    function; [Do] and [Gather] start a goroutine per item, and are modelled by
    a step relation in which the scheduler picks any enabled step: the loop
    starts the next goroutine, a goroutine acquires the semaphore, a running one
    finishes.  A call of [fn] takes effect in one step, when it finishes.  The
    theorems: never more than [workers] calls run at once, the pool cannot get
    stuck and stops, and the results are those of the items, in order. *)

From stdpp Require Import gmap strings list sets.
From S2P Require Import Prelude GoStrings Errs.

(** ** Slices ([slice.go]) *)

Fixpoint dedupLoop {A} `{Countable A} (items : list A) (seen : gset A) (result : list A) : list A :=
  match items with
  | [] => result
  | item :: rest =>
      if decide (item ∈ seen) then dedupLoop rest seen result
      else dedupLoop rest ({[item]} ∪ seen) (result ++ [item])
  end.

Definition Dedup {A} `{Countable A} (items : list A) : list A := dedupLoop items ∅ [].

Definition JoinStringsPtrs (result : option BatchResult) : string :=
  match result with
  | None => ""
  | Some r =>
      Join (foldl (λ msgs item, if decide (OR_Message item = ""%string) then msgs
                                else msgs ++ [OR_Message item]) [] (BR_Items r)) "; "
  end.

Lemma dedupLoop_spec {A} `{Countable A} (items : list A) seen result :
  (∀ x, x ∈ seen ↔ x ∈ result) → NoDup result →
  NoDup (dedupLoop items seen result) ∧
  (∀ x, x ∈ dedupLoop items seen result ↔ x ∈ result ∨ x ∈ items) ∧
  (∃ l, dedupLoop items seen result = result ++ l ∧ l `sublist_of` items).
Proof.
  revert seen result. induction items as [|x items IH]; intros seen result Hs Hnd; simpl.
  { split_and!; [done|set_solver|]. exists []. by rewrite app_nil_r. }
  case_decide as Hx.
  - destruct (IH seen result Hs Hnd) as (H1 & H2 & l & H3 & H4).
    split_and!; [done|set_solver|]. exists l. split; [done|]. by apply sublist_cons.
  - destruct (IH ({[x]} ∪ seen) (result ++ [x])) as (H1 & H2 & l & H3 & H4).
    + intros y. rewrite elem_of_union, elem_of_singleton, elem_of_app, list_elem_of_singleton, Hs. tauto.
    + apply NoDup_app. split_and!; [done|set_solver|apply NoDup_singleton].
    + split_and!; [done|set_solver|]. exists (x :: l). rewrite H3, <-app_assoc.
      split; [done|]. by apply sublist_skip.
Qed.

(** ** Results of a pool *)

(** [Result[R]]. *)
Record Result (R : Type) := Result_ { Value : R; Err_of : option error }.
Arguments Result_ {R}.
Arguments Value {R}.
Arguments Err_of {R}.

Definition autoWorkers (NumCPU n : Z) : Z :=
  let cpus := if decide (NumCPU < 1)%Z then 4%Z else NumCPU in
  let w := Z.min (cpus * 2) n in
  Z.max w 1.

(** ** [Seq] *)
Section Seq.
Context {W T R : Type} (zero : R).
Context (fn : T → W → (R * option error) * W).

(** The loop fills [results] from the front and stops at the first error;
    what it does not reach keeps the zero value. *)
Fixpoint Seq (items : list T) (w : W) : list (Result R) * W :=
  match items with
  | [] => ([], w)
  | item :: rest =>
      let '((v, err), w1) := fn item w in
      match err with
      | Some _ => (Result_ v err :: replicate (length rest) (Result_ zero None), w1)
      | None => let '(rs, w2) := Seq rest w1 in (Result_ v err :: rs, w2)
      end
  end.

(** The world before item [i] when every earlier call succeeds. *)
Fixpoint worldAt (items : list T) (i : nat) (w : W) : W :=
  match i, items with
  | S i', item :: rest => worldAt rest i' (fn item w).2
  | _, _ => w
  end.

(** [Seq] answers one result per item: up to the first item whose call
    fails, the value and error of that item's call, made on the world its
    predecessors left; after it, zero values and nil errors (so a reader of
    the results cannot tell a skipped item from a successful one by its error). *)
Lemma Seq_results (items : list T) (w : W) :
  let rs := (Seq items w).1 in
  length rs = length items ∧
  ∀ i item, items !! i = Some item →
    let '((v, err), _) := fn item (worldAt items i w) in
    ((∀ j r, j < i → rs !! j = Some r → Err_of r = None) → rs !! i = Some (Result_ v err)) ∧
    ((∃ j r, j < i ∧ rs !! j = Some r ∧ Err_of r ≠ None) → rs !! i = Some (Result_ zero None)).
Proof.
  revert w. induction items as [|x items IH]; intros w; [done|]. simpl.
  destruct (fn x w) as [[v err] w1] eqn:Ef. specialize (IH w1).
  destruct err as [e|].
  - split; [simpl; by rewrite length_replicate|]. intros [|i] item Hi; simplify_eq/=.
    + rewrite ?Ef. split; [done|]. intros (j & r & Hj & _). lia.
    + rewrite ?Ef. simpl. destruct (fn item _) as [[v' err'] w']. split.
      * intros Hall. specialize (Hall 0 (Result_ v (Some e))). simpl in Hall.
        discriminate Hall; [lia|done].
      * intros _. apply lookup_replicate. split; [done|]. by eapply lookup_lt_Some.
  - destruct (Seq items w1) as [rs w2] eqn:Es. simpl in *. destruct IH as [Hlen IH].
    split; [simpl; by rewrite Hlen|]. intros [|i] item Hi; simplify_eq/=.
    + rewrite ?Ef. split; [done|]. intros (j & r & Hj & _). lia.
    + rewrite ?Ef. simpl. specialize (IH i item Hi).
      destruct (fn item (worldAt items i w1)) as [[v' err'] w']. destruct IH as [IH1 IH2]. split.
      * intros Hall. apply IH1. intros j r Hj. apply (Hall (S j)). lia.
      * intros ([|j] & r & Hj & Hr & Hne); [by simplify_eq/=|]. apply IH2.
        exists j, r. split_and!; [lia|done|done].
Qed.
End Seq.

(** ** [Gather] and [Do] *)
Section Gather.
Context {W T R : Type} (zero : R).
Context (fn : T → W → (R * option error) * W).
Context (items : list T) (workers : nat).

(** [next]: the index of the loop; [waiting]: started goroutines that have not
    acquired the semaphore; [running]: those inside [fn]; [results]: the slice
    (for [Do], whose collected errors are those of its results); [done_]: how
    each call that finished was answered, in the order they finished. *)
Record gstate := GState {
  next : nat;
  stopped : bool;
  waiting : gset nat;
  running : gset nat;
  results : list (Result R);
  done_ : list (nat * Result R);
  world : W;
}.

Definition ginit (w : W) : gstate :=
  GState 0 false ∅ ∅ (replicate (length items) (Result_ zero None)) [] w.

Inductive gstep : gstate → gstate → Prop :=
  (** [if ctx.Err() != nil { break }]: the context may be cancelled at any time. *)
  | g_cancel st :
      stopped st = false → next st < length items →
      gstep st (GState (next st) true (waiting st) (running st) (results st) (done_ st) (world st))
  (** [wg.Add(1); go func(...)]. *)
  | g_spawn st :
      stopped st = false → next st < length items →
      gstep st (GState (S (next st)) false ({[next st]} ∪ waiting st) (running st)
                  (results st) (done_ st) (world st))
  (** [sem <- struct{}{}]: blocks while the channel's buffer is full. *)
  | g_acquire st i :
      i ∈ waiting st → size (running st) < workers →
      gstep st (GState (next st) (stopped st) (waiting st ∖ {[i]}) ({[i]} ∪ running st)
                  (results st) (done_ st) (world st))
  (** [v, err := fn(ctx, it); results[idx] = ...; <-sem; wg.Done()]. *)
  | g_finish st i item v err w' :
      i ∈ running st → items !! i = Some item → fn item (world st) = ((v, err), w') →
      gstep st (GState (next st) (stopped st) (waiting st) (running st ∖ {[i]})
                  (<[i := Result_ v err]> (results st)) (done_ st ++ [(i, Result_ v err)]) w').

(** [wg.Wait()] returns: the loop is over and every goroutine is done. *)
Definition gfinal (st : gstate) : Prop :=
  (stopped st = true ∨ next st = length items) ∧ waiting st = ∅ ∧ running st = ∅.

(** The index ranges and the disjointness of the three sets of goroutines. *)
Record ginv (st : gstate) : Prop := {
  gi_next : next st ≤ length items;
  gi_workers : size (running st) ≤ workers;
  gi_started : ∀ i, i < next st ↔ i ∈ waiting st ∨ i ∈ running st ∨ i ∈ (done_ st).*1;
  gi_waiting : ∀ i, i ∈ waiting st → i ∉ running st ∧ i ∉ (done_ st).*1;
  gi_running : ∀ i, i ∈ running st → i ∉ (done_ st).*1;
  gi_once : NoDup (done_ st).*1;
  gi_length : length (results st) = length items;
  gi_results : ∀ i r, (i, r) ∈ done_ st → results st !! i = Some r;
  gi_rest : ∀ i, i < length items → i ∉ (done_ st).*1 → results st !! i = Some (Result_ zero None);
}.

Lemma ginv_init w : ginv (ginit w).
Proof.
  split; simpl; try (set_solver || lia).
  - change (size (∅ : gset nat) ≤ workers). rewrite size_empty. lia.
  - intros i. split; [lia|set_solver].
  - constructor.
  - by rewrite length_replicate.
  - intros i Hi _. by apply lookup_replicate.
Qed.

Lemma ginv_step st st' : ginv st → gstep st st' → ginv st'.
Proof.
  intros [Hn Hw Hs Hwt Hr Ho Hl Hres Hrest].
  destruct 1 as [st|st Hst Hlt|st i Hi Hsz|st i item v err w' Hi Hit Hf]; split; simpl in *; try done.
  - intros i. rewrite elem_of_union, elem_of_singleton, Nat.lt_succ_r, Nat.le_lteq, Hs. naive_solver.
  - intros i [->%elem_of_singleton|]%elem_of_union; [|auto].
    assert (¬ next st < next st) as Hnn by lia. rewrite Hs in Hnn. tauto.
  - rewrite size_union, size_singleton by (apply Hwt in Hi; set_solver). lia.
  - intros j. rewrite Hs, elem_of_difference, elem_of_union, elem_of_singleton.
    destruct (decide (j = i)) as [->|]; naive_solver.
  - intros j [Hj Hne]%elem_of_difference. apply Hwt in Hj. set_solver.
  - intros j [->%elem_of_singleton|]%elem_of_union; [by apply Hwt|auto].
  - rewrite size_difference by set_solver. lia.
  - intros j. rewrite Hs, fmap_app, elem_of_app, elem_of_difference, elem_of_singleton. simpl.
    rewrite list_elem_of_singleton. destruct (decide (j = i)) as [->|]; naive_solver.
  - intros j Hj. destruct (Hwt j Hj) as [Hjr Hjd]. rewrite fmap_app, not_elem_of_app. simpl.
    rewrite list_elem_of_singleton. split; [set_solver|]. split; [done|]. by intros ->.
  - intros j [Hj Hne]%elem_of_difference. rewrite fmap_app, not_elem_of_app. simpl.
    rewrite list_elem_of_singleton. split; [auto|]. set_solver.
  - rewrite fmap_app. apply NoDup_app. split_and!; [done| |apply NoDup_singleton].
    intros j Hj. simpl. rewrite list_elem_of_singleton. intros ->. by apply (Hr i Hi).
  - by rewrite length_insert.
  - intros j r [Hj|Hj%list_elem_of_singleton]%elem_of_app.
    + rewrite list_lookup_insert_ne; [auto|]. intros ->. apply (Hr j Hi).
      apply list_elem_of_fmap. by exists (j, r).
    + injection Hj as -> ->. apply list_lookup_insert_eq. rewrite Hl. by eapply lookup_lt_Some.
  - intros j Hj. rewrite fmap_app, not_elem_of_app. simpl. rewrite list_elem_of_singleton.
    intros [Hjd Hne]. rewrite list_lookup_insert_ne by done. auto.
Qed.

Lemma ginv_reach w st : rtc gstep (ginit w) st → ginv st.
Proof.
  intros Hr. remember (ginit w) as st0. revert Heqst0.
  enough (ginv st0 → ginv st) as Hi by (intros ->; apply Hi, ginv_init).
  induction Hr; eauto using ginv_step.
Qed.

(** Steps left: the loop's, and two or one for each goroutine still at work. *)
Definition gmeasure (st : gstate) : nat :=
  (if stopped st then 0 else 1 + 3 * (length items - next st)) +
  2 * size (waiting st) + size (running st).

Lemma gmeasure_step st st' : ginv st → gstep st st' → gmeasure st' < gmeasure st.
Proof.
  intros [Hn Hw Hs Hwt Hr Ho Hl Hres Hrest].
  destruct 1 as [st Hst|st Hst Hlt|st i Hi Hsz|st i item v err w' Hi Hit Hf]; unfold gmeasure; simpl in *.
  - rewrite Hst. lia.
  - rewrite Hst. assert (next st ∉ waiting st).
    { intros Hin. assert (next st < next st); [apply Hs; by left|lia]. }
    rewrite size_union, size_singleton by set_solver. lia.
  - assert (i ∉ running st) by by apply Hwt.
    rewrite (size_union {[i]} (running st)), (size_remove (waiting st) i) by set_solver.
    rewrite size_singleton. pose proof (size_elem_pos (waiting st) i Hi). lia.
  - rewrite (size_remove (running st) i) by done. pose proof (size_elem_pos (running st) i Hi). lia.
Qed.

(** [Gather], whatever the scheduler and the cancellation of its context
    do: at most [workers] calls are in progress at any time. *)
Lemma Gather_bounded w st : rtc gstep (ginit w) st → size (running st) ≤ workers.
Proof. intros Hr. apply (ginv_reach w st Hr). Qed.

(** With at least one worker, [Gather] cannot get stuck and stops: from any
    reachable state that is not final a step is possible, and every step
    brings the end nearer. *)
Lemma Gather_terminates w st :
  0 < workers → rtc gstep (ginit w) st →
  (gfinal st ∨ ∃ st', gstep st st') ∧ (∀ st', gstep st st' → gmeasure st' < gmeasure st).
Proof.
  intros Hw Hreach. pose proof (ginv_reach w st Hreach) as Hi.
  split; [|intros st'; by apply gmeasure_step].
  destruct (decide (running st = ∅)) as [Hrun|[i Hir]%set_choose_L].
  - destruct (decide (waiting st = ∅)) as [Hwait|[i Hiw]%set_choose_L].
    + destruct (stopped st) eqn:Hst; [left; by split; [left|]|].
      pose proof (gi_next _ Hi). destruct (decide (next st = length items)) as [|Hne].
      * left. by split; [right|].
      * right. eexists. apply g_spawn; [done|lia].
    + right. eexists. apply (g_acquire st i); [done|]. by rewrite Hrun, size_empty.
  - right. assert (i < length items) as Hil.
    { pose proof (gi_next _ Hi). assert (i < next st); [|lia]. apply (gi_started _ Hi). auto. }
    destruct (lookup_lt_is_Some_2 items i Hil) as [item Hitem].
    destruct (fn item (world st)) as [[v err] w'] eqn:Ef. eexists. by eapply g_finish.
Qed.

(** When [Gather] returns, its results line up with its items: the slot
    of every item that was started holds the answer of the one call made for
    it, the slots of the items the cancelled loop skipped hold zero values;
    without cancellation every item was called exactly once. *)
Lemma Gather_results w st :
  rtc gstep (ginit w) st → gfinal st →
  length (results st) = length items ∧ NoDup (done_ st).*1 ∧
  (∀ i, i ∈ (done_ st).*1 ↔ i < next st) ∧
  (∀ i r, (i, r) ∈ done_ st → results st !! i = Some r) ∧
  (∀ i, next st ≤ i < length items → results st !! i = Some (Result_ zero None)) ∧
  (stopped st = false → (done_ st).*1 ≡ₚ seq 0 (length items)).
Proof.
  intros Hreach (Hend & Hwait & Hrun). pose proof (ginv_reach w st Hreach) as [].
  assert (∀ i, i ∈ (done_ st).*1 ↔ i < next st) as Hd.
  { intros i. rewrite gi_started0, Hwait, Hrun. set_solver. }
  split_and!; [done..| |].
  - intros i Hi. apply gi_rest0; [lia|]. rewrite Hd. lia.
  - intros Hst. destruct Hend as [Hst'|Hend]; [congruence|].
    apply NoDup_Permutation; [done|apply NoDup_seq|]. intros i.
    rewrite Hd, elem_of_seq. lia.
Qed.
End Gather.

(** ** Instances *)

(** Two items on one worker: the second goroutine waits for the first. *)
Module GatherExamples.
Definition double (x w : nat) : (nat * option error) * nat := ((2 * x, None), S w).
Definition two : list nat := [5; 7].
Notation step := (gstep double two 1).
Notation init := (ginit 0 two 0).

Lemma a_run :
  ∃ st, rtc step init st ∧ gfinal two st ∧ results st = [Result_ 10 None; Result_ 14 None].
Proof.
  eexists. split_and!.
  - eapply rtc_l; [apply g_spawn; [done|simpl; lia]|]. eapply rtc_l; [apply g_spawn; [done|simpl; lia]|].
    eapply rtc_l; [apply (g_acquire _ _ _ _ 0); simpl; [set_solver|vm_compute; lia]|].
    eapply rtc_l; [eapply (g_finish _ _ _ _ 0 5); [simpl; set_solver|done|reflexivity]|].
    eapply rtc_l; [apply (g_acquire _ _ _ _ 1); simpl; [set_solver|vm_compute; lia]|].
    eapply rtc_l; [eapply (g_finish _ _ _ _ 1 7); [simpl; set_solver|done|reflexivity]|]. apply rtc_refl.
  - split; [by right|]. simpl. split; set_solver.
  - done.
Qed.

Lemma Gather_bounded_witness : ∃ st, rtc step init st ∧ next st = 1 ∧ size (running st) ≤ 1.
Proof.
  assert (∃ st, rtc step init st ∧ next st = 1 ∧ size (running st) = 1) as (st & Hr & Hn & _).
  { eexists. split_and!.
    - eapply rtc_l; [apply g_spawn; [done|simpl; lia]|].
      eapply rtc_l; [apply (g_acquire _ _ _ _ 0); simpl; [set_solver|vm_compute; lia]|]. apply rtc_refl.
    - done.
    - vm_compute. reflexivity. }
  exists st. split; [exact Hr|]. split; [exact Hn|]. exact (Gather_bounded 0 double two 1 0 st Hr).
Defined.

Lemma Gather_terminates_witness :
  (gfinal two init ∨ ∃ st', step init st') ∧ (∀ st', step init st' → gmeasure two st' < gmeasure two init).
Proof. apply (Gather_terminates 0 double two 1 0 init); [lia|apply rtc_refl]. Defined.

Lemma Gather_results_witness :
  ∃ st : gstate (W := nat) (R := nat),
    results st = [Result_ 10 None; Result_ 14 None] ∧ (stopped st = false → (done_ st).*1 ≡ₚ [0; 1]).
Proof.
  destruct a_run as (st & Hr & Hf & E). exists st. split; [exact E|].
  exact (proj2 (proj2 (proj2 (proj2 (proj2 (Gather_results 0 double two 1 0 st Hr Hf)))))).
Defined.
End GatherExamples.
