(* ===== verification/Dag.v ===== *)
(** * The workflow DAG: [internal/lib/workflow/dag.go]

    [BuildDAG] sorts the steps of a pipeline into topological levels with
    Kahn's algorithm and, when it cannot, reports a cycle found by a
    depth-first search.  The file models both functions as they are written
    (the maps are [gmap]s keyed by step name, the queue a list, the nested
    levels slice a list of lists) and proves that [BuildDAG] succeeds exactly
    on the well-formed acyclic inputs, that its result is a partition of the
    steps in which a step sits one level above its deepest dependency, and
    that a reported path is a cycle. *)

From stdpp Require Import gmap strings list sets sorting.
From S2P Require Import Prelude.

(** ** The step interface

    The pure part of the Go interface [workflow.Step] ([step.go]): the methods
    [BuildDAG] reads. *)
Class Step (A : Type) := {
  Name : A → string;
  Type_ : A → string;
  Dependencies : A → list string;
}.

(** The errors [BuildDAG] returns, one constructor per [fmt.Errorf] site. *)
Inductive dag_error :=
  | DuplicateStepName (name : string)
  | MissingDependency (step dep : string)
  | CycleDetected (cyclePath : string).

Section BuildDAG.
Context {A : Type} `{Step A}.

(** The map [stepByName], filled while looking for duplicate names. *)
Fixpoint stepsByName (steps : list A) (stepByName : gmap string A)
    : result dag_error (gmap string A) :=
  match steps with
  | [] => Ok stepByName
  | s :: rest =>
      match stepByName !! Name s with
      | Some _ => Err (DuplicateStepName (Name s))
      | None => stepsByName rest (<[Name s := s]> stepByName)
      end
  end.

(** Every dependency must name an existing step. *)
Fixpoint checkDepsOf (name : string) (deps : list string)
    (stepByName : gmap string A) : result dag_error unit :=
  match deps with
  | [] => Ok ()
  | d :: rest =>
      match stepByName !! d with
      | None => Err (MissingDependency name d)
      | Some _ => checkDepsOf name rest stepByName
      end
  end.

Fixpoint checkDeps (steps : list A) (stepByName : gmap string A)
    : result dag_error unit :=
  match steps with
  | [] => Ok ()
  | s :: rest =>
      match checkDepsOf (Name s) (Dependencies s) stepByName with
      | Err e => Err e
      | Ok _ => checkDeps rest stepByName
      end
  end.

(** A Go map read: the zero value for a missing key. *)
Definition degree (inDegree : gmap string Z) (n : string) : Z :=
  default 0%Z (inDegree !! n).

Definition countIn (inDegree : gmap string Z) (s : A) : gmap string Z :=
  let m := match inDegree !! Name s with
           | None => <[Name s := 0%Z]> inDegree
           | Some _ => inDegree
           end in
  foldl (λ m _, <[Name s := (degree m (Name s) + 1)%Z]> m) m (Dependencies s).

Definition mkInDegree (steps : list A) : gmap string Z :=
  foldl countIn ∅ steps.

Definition dependents (adjacency : gmap string (list A)) (n : string) : list A :=
  default [] (adjacency !! n).

Definition addEdges (adjacency : gmap string (list A)) (s : A) : gmap string (list A) :=
  foldl (λ m dep, <[dep := dependents m dep ++ [s]]> m) adjacency (Dependencies s).

Definition mkAdjacency (steps : list A) : gmap string (list A) :=
  foldl addEdges ∅ steps.

(** The variables of the main loop. *)
Record kstate := KState {
  queue : list (A * nat);
  visited : gset string;
  levels : list (list A);
  inDegree : gmap string Z;
}.

(** [for len(levels) <= depth { levels = append(levels, nil) }] and the
    append to [levels[depth]]. *)
Definition addToLevel (depth : nat) (s : A) (lvls : list (list A)) : list (list A) :=
  let lvls := lvls ++ replicate (S depth - length lvls) [] in
  alter (λ l, l ++ [s]) depth lvls.

(** Decrement the in-degree of the dependents, queueing those that reach zero. *)
Fixpoint relax (deps : list A) (depth : nat)
    (inDeg : gmap string Z) (q : list (A * nat)) : gmap string Z * list (A * nat) :=
  match deps with
  | [] => (inDeg, q)
  | d :: rest =>
      let inDeg' := <[Name d := (degree inDeg (Name d) - 1)%Z]> inDeg in
      let q' := if decide (degree inDeg' (Name d) = 0%Z)
                then q ++ [(d, S depth)] else q in
      relax rest depth inDeg' q'
  end.

(** One turn of [for len(queue) > 0]; [None] when the loop ends. *)
Definition kahnStep (adjacency : gmap string (list A)) (st : kstate) : option kstate :=
  match queue st with
  | [] => None
  | (s, depth) :: rest =>
      if decide (Name s ∈ visited st)
      then Some (KState rest (visited st) (levels st) (inDegree st))
      else
        let '(inDeg, q) := relax (dependents adjacency (Name s)) depth (inDegree st) rest in
        Some (KState q ({[Name s]} ∪ visited st) (addToLevel depth s (levels st)) inDeg)
  end.

(** The loop, with fuel; [None] would mean that the fuel ran out. *)
Fixpoint kahn (fuel : nat) (adjacency : gmap string (list A)) (st : kstate) : option kstate :=
  match kahnStep adjacency st with
  | None => Some st
  | Some st' =>
      match fuel with
      | 0 => None
      | S f => kahn f adjacency st'
      end
  end.

Definition initQueue (steps : list A) (inDeg : gmap string Z) : list (A * nat) :=
  (λ s, (s, 0)) <$> filter (λ s, degree inDeg (Name s) = 0%Z) steps.

(** The variables of [detectCycle]'s closure. *)
Record dstate := DState {
  onPath : gset string;
  path : list string;
  dvisited : gset string;
}.

(** [for _, dep := range adjacency[node] { if dfs(dep.Name()) { return true } }] *)
Fixpoint dfsEach (dfs : string → dstate → option (bool * dstate))
    (deps : list A) (st : dstate) : option (bool * dstate) :=
  match deps with
  | [] => Some (false, st)
  | d :: rest =>
      match dfs (Name d) st with
      | Some (false, st') => dfsEach dfs rest st'
      | r => r
      end
  end.

Fixpoint dfs (fuel : nat) (adjacency : gmap string (list A))
    (node : string) (st : dstate) : option (bool * dstate) :=
  match fuel with
  | 0 => None
  | S f =>
      if decide (node ∈ onPath st) then
        Some (true, DState (onPath st) (path st ++ [node]) (dvisited st))
      else if decide (node ∈ dvisited st) then Some (false, st)
      else
        match dfsEach (dfs f adjacency) (dependents adjacency node)
                (DState ({[node]} ∪ onPath st) (path st ++ [node]) (dvisited st)) with
        | Some (false, st') =>
            Some (false, DState (onPath st' ∖ {[node]}) (take (length (path st') - 1) (path st'))
                           ({[node]} ∪ dvisited st'))
        | r => r
        end
  end.

(** The suffix of the path from the first occurrence of its last element. *)
Definition trimCycle (p : list string) : list string :=
  match last p with
  | None => p
  | Some cycleStart =>
      match list_find (λ n, n = cycleStart) p with
      | Some (cycleIdx, _) => drop cycleIdx p
      | None => p
      end
  end.

(** [detectCycle], with the joined path, "" when there is none, and the
    [visited] map it shares with its caller. *)
Definition detectCycle (fuel : nat) (start : string) (adjacency : gmap string (list A))
    (vis : gset string) : option (string * gset string) :=
  if decide (start ∈ vis) then Some ("", vis)
  else
    match dfs fuel adjacency start (DState ∅ [] vis) with
    | None => None
    | Some (true, st) => Some (String.concat " -> " (trimCycle (path st)), dvisited st)
    | Some (false, st) => Some ("", dvisited st)
    end.

(** The loop over the unvisited names: the first non-empty path, or "". *)
Fixpoint findCycle (fuel : nat) (unvisited : list string)
    (adjacency : gmap string (list A)) (vis : gset string) : option string :=
  match unvisited with
  | [] => Some ""
  | n :: rest =>
      if decide (n ∈ vis) then findCycle fuel rest adjacency vis
      else
        match detectCycle fuel n adjacency vis with
        | None => None
        | Some (cp, vis') =>
            if decide (cp = "") then findCycle fuel rest adjacency vis' else Some cp
        end
  end.

(** [BuildDAG].  The fuel given to the two loops is proved sufficient
    ([BuildDAG_total]), so the outer option is always [Some]. *)
Definition BuildDAG (steps : list A) : option (result dag_error (list (list A))) :=
  if decide (length steps = 0) then Some (Ok [])
  else
    match stepsByName steps ∅ with
    | Err e => Some (Err e)
    | Ok stepByName =>
        match checkDeps steps stepByName with
        | Err e => Some (Err e)
        | Ok _ =>
            let inDeg := mkInDegree steps in
            let adjacency := mkAdjacency steps in
            match kahn (length steps) adjacency
                    (KState (initQueue steps inDeg) ∅ [] inDeg) with
            | None => None
            | Some st =>
                if decide (size (visited st) = length steps) then Some (Ok (levels st))
                else
                  let unvisited := Name <$> filter (λ s, Name s ∉ visited st) steps in
                  match findCycle (S (length steps)) unvisited adjacency (visited st) with
                  | None => None
                  | Some cp =>
                      let cyclePath := if decide (cp = "")
                                       then String.concat ", " unvisited else cp in
                      Some (Err (CycleDetected cyclePath))
                  end
            end
        end
    end.
End BuildDAG.

Arguments kstate : clear implicits.


(** ** What the result of [BuildDAG] should be *)
Section Spec.
Context {A : Type} `{Step A}.

Definition atLevel (lvls : list (list A)) (k : nat) (s : A) : Prop :=
  ∃ l, lvls !! k = Some l ∧ s ∈ l.

(** [s] may sit at level [k]: its dependencies are all strictly below, and,
    unless [k] is zero, one of them is directly below. *)
Definition levelOK (lvls : list (list A)) (s : A) (k : nat) : Prop :=
  (∀ d, d ∈ Dependencies s → ∃ j s', j < k ∧ atLevel lvls j s' ∧ Name s' = d) ∧
  (∀ k', k = S k' → ∃ s', Name s' ∈ Dependencies s ∧ atLevel lvls k' s').

(** The dependencies are acyclic: they decrease some rank of the names. *)
Definition acyclic (steps : list A) : Prop :=
  ∃ rank : string → nat,
    ∀ s d, s ∈ steps → d ∈ Dependencies s → rank d < rank (Name s).

Definition closedDeps (steps : list A) : Prop :=
  ∀ s d, s ∈ steps → d ∈ Dependencies s → d ∈ Name <$> steps.

Definition pending (V : gset string) (s : A) : nat :=
  length (filter (λ d, d ∉ V) (Dependencies s)).

Definition cnt (n : string) (l : list A) : nat :=
  length (filter (λ x, Name x = n) l).

Definition occ (n : string) (s : A) : nat :=
  length (filter (λ d, d = n) (Dependencies s)).
End Spec.

(** ** Proofs: the tables *)
Section Tables.
Context {A : Type} `{Step A}.
Implicit Types (s x : A) (l : list A).

Lemma degree_insert m n n' z :
  degree (<[n := z]> m) n' = if decide (n = n') then z else degree m n'.
Proof. unfold degree. rewrite lookup_insert. by case_decide. Qed.

Lemma countIn_degree m s n :
  degree (countIn m s) n =
    (degree m n + if decide (Name s = n) then Z.of_nat (length (Dependencies s)) else 0)%Z.
Proof.
  unfold countIn.
  assert (∀ m0 ds, degree (foldl (λ m1 (_ : string), <[Name s:=(degree m1 (Name s) + 1)%Z]> m1) m0 ds) n
    = (degree m0 n + if decide (Name s = n) then Z.of_nat (length ds) else 0)%Z) as Hf.
  { intros m0 ds. revert m0. induction ds as [|d ds IH]; intros m0; simpl.
    - case_decide; lia.
    - rewrite IH, degree_insert. case_decide; subst; lia. }
  rewrite Hf. f_equal. destruct (m !! Name s) eqn:E; [done|].
  rewrite degree_insert. case_decide; [|done]. subst. unfold degree. by rewrite E.
Qed.

Lemma foldl_countIn_fresh l m n :
  n ∉ Name <$> l → degree (foldl countIn m l) n = degree m n.
Proof.
  revert m. induction l as [|s l IH]; intros m Hn; simpl; [done|].
  rewrite fmap_cons, not_elem_of_cons in Hn. destruct Hn as [Hs Hn].
  rewrite IH, countIn_degree by done. case_decide; [congruence|lia].
Qed.

Lemma mkInDegree_spec l s :
  NoDup (Name <$> l) → s ∈ l →
  degree (mkInDegree l) (Name s) = Z.of_nat (length (Dependencies s)).
Proof.
  unfold mkInDegree. assert (degree ∅ (Name s) = 0%Z) as He by done. revert He.
  generalize (∅ : gmap string Z). induction l as [|x l IH]; intros m Hm Hnd Hin; simpl.
  { set_solver. }
  rewrite fmap_cons in Hnd. apply NoDup_cons in Hnd as [Hx Hnd].
  apply elem_of_cons in Hin as [->|Hin].
  - rewrite foldl_countIn_fresh, countIn_degree, decide_True by done. lia.
  - apply IH; [|done..]. rewrite countIn_degree, decide_False; [lia|].
    intros Heq. apply Hx. rewrite Heq. by apply list_elem_of_fmap_2.
Qed.

Lemma dependents_insert m n n' l :
  dependents (<[n := l]> m) n' = if decide (n = n') then l else dependents m n'.
Proof. unfold dependents. rewrite lookup_insert. by case_decide. Qed.

Lemma addEdges_spec m s n :
  dependents (addEdges m s) n = dependents m n ++ replicate (occ n s) s.
Proof.
  unfold addEdges, occ. revert m. induction (Dependencies s) as [|d ds IH]; intros m; simpl.
  { by rewrite app_nil_r. }
  rewrite IH, dependents_insert, filter_cons.
  repeat case_decide; simplify_eq/=; [by rewrite <-app_assoc|done].
Qed.

Lemma mkAdjacency_spec l n :
  dependents (mkAdjacency l) n = l ≫= (λ s, replicate (occ n s) s).
Proof.
  unfold mkAdjacency.
  assert (∀ m, dependents (foldl addEdges m l) n =
    dependents m n ++ (l ≫= (λ s, replicate (occ n s) s))) as Hf.
  { induction l as [|s l IH]; intros m; simpl; [by rewrite app_nil_r|].
    by rewrite IH, addEdges_spec, <-app_assoc. }
  by rewrite Hf.
Qed.

Lemma occ_pos n s : n ∈ Dependencies s ↔ 0 < occ n s.
Proof. unfold occ. rewrite length_filter_pos. naive_solver. Qed.

Lemma dependents_elem l n x :
  x ∈ dependents (mkAdjacency l) n ↔ x ∈ l ∧ n ∈ Dependencies x.
Proof.
  rewrite mkAdjacency_spec, list_elem_of_bind, occ_pos. split.
  - intros (s & Hs & Hl). apply elem_of_replicate in Hs as [-> ?]. split; [done|lia].
  - intros [Hl Ho]. exists x. split; [|done]. apply elem_of_replicate. split; [done|lia].
Qed.

Lemma cnt_app n l l' : cnt n (l ++ l') = cnt n l + cnt n l'.
Proof. unfold cnt. by rewrite filter_app, length_app. Qed.

Lemma cnt_replicate n k x : cnt n (replicate k x) = if decide (Name x = n) then k else 0.
Proof.
  unfold cnt. induction k as [|k IH]; simpl; [by case_decide|].
  rewrite filter_cons. repeat case_decide; simpl; lia.
Qed.

Lemma cnt_bind_fresh m n l :
  m ∉ Name <$> l → cnt m (l ≫= (λ s, replicate (occ n s) s)) = 0.
Proof.
  induction l as [|y l IH]; intros Hm; [done|].
  rewrite fmap_cons, not_elem_of_cons in Hm. destruct Hm as [Hy Hm].
  rewrite bind_cons, cnt_app, cnt_replicate, IH, decide_False by congruence. done.
Qed.

Lemma cnt_dependents l n x :
  NoDup (Name <$> l) → x ∈ l →
  cnt (Name x) (dependents (mkAdjacency l) n) = occ n x.
Proof.
  rewrite mkAdjacency_spec. induction l as [|s l IH]; intros Hnd Hin; [set_solver|].
  rewrite fmap_cons in Hnd. apply NoDup_cons in Hnd as [Hs Hnd].
  rewrite bind_cons, cnt_app, cnt_replicate. apply elem_of_cons in Hin as [->|Hin].
  - rewrite decide_True, cnt_bind_fresh by done. lia.
  - rewrite IH by done. case_decide as Heq; [|lia].
    exfalso. apply Hs. rewrite Heq. by apply list_elem_of_fmap_2.
Qed.

(** Marking [n] as processed removes its occurrences from [pending]. *)
Lemma pending_add V n s :
  n ∉ V → pending V s = pending ({[n]} ∪ V) s + occ n s.
Proof.
  intros Hn. unfold pending, occ. induction (Dependencies s) as [|d ds IH]; simpl; [done|].
  rewrite !filter_cons.
  repeat case_decide; simpl; subst; first [lia | exfalso; set_solver].
Qed.

Lemma pending_zero V s : pending V s = 0 ↔ ∀ d, d ∈ Dependencies s → d ∈ V.
Proof.
  unfold pending. rewrite length_filter_zero. apply forall_proper. intros d.
  split; intros Hd Hin; [|set_solver]. apply dec_stable. naive_solver.
Qed.
End Tables.

(** ** Proofs: levels *)
Section Levels.
Context {A : Type} `{Step A}.
Implicit Types (s x : A) (lvls : list (list A)).

Lemma atLevel_join lvls x : x ∈ mjoin lvls ↔ ∃ k, atLevel lvls k x.
Proof.
  rewrite list_elem_of_join. unfold atLevel. setoid_rewrite list_elem_of_lookup at 2.
  naive_solver.
Qed.

Lemma atLevel_lt lvls k x : atLevel lvls k x → k < length lvls.
Proof. intros (l & Hl & _). by eapply lookup_lt_Some. Qed.

Lemma length_addToLevel k s lvls :
  length (addToLevel k s lvls) = Nat.max (length lvls) (S k).
Proof. unfold addToLevel. rewrite length_alter, length_app, length_replicate. lia. Qed.

Lemma atLevel_pad n lvls j x :
  atLevel (lvls ++ replicate n []) j x ↔ atLevel lvls j x.
Proof.
  unfold atLevel. split; intros (l & Hl & Hx); exists l; (split; [|done]).
  - apply lookup_app_Some in Hl as [Hl|[_ Hl]]; [done|].
    apply lookup_replicate in Hl as [-> _]. set_solver.
  - by apply lookup_app_l_Some.
Qed.

Lemma atLevel_addToLevel k s lvls j x :
  atLevel (addToLevel k s lvls) j x ↔ atLevel lvls j x ∨ (j = k ∧ x = s).
Proof.
  unfold addToLevel. set (n := S k - length lvls).
  rewrite <-(atLevel_pad n lvls). set (L := lvls ++ replicate n []).
  assert (is_Some (L !! k)) as [lk Hk].
  { apply lookup_lt_is_Some. unfold L. rewrite length_app, length_replicate. lia. }
  unfold atLevel. destruct (decide (j = k)) as [->|Hj].
  - rewrite list_lookup_alter_eq, Hk. simpl. split.
    + intros (l & [= <-] & Hx). apply elem_of_app in Hx as [Hx|Hx]; [eauto|].
      apply list_elem_of_singleton in Hx. auto.
    + intros [(l & [= <-] & Hx)|[_ ->]]; eexists; (split; [done|]); set_solver.
  - rewrite list_lookup_alter_ne by done. naive_solver.
Qed.

Lemma concat_alter_snoc k s lvls :
  k < length lvls → mjoin (alter (λ l, l ++ [s]) k lvls) ≡ₚ s :: mjoin lvls.
Proof.
  revert k. induction lvls as [|l lvls IH]; intros [|k] Hk; simpl in Hk; try lia.
  - change (alter _ 0 (l :: lvls)) with ((l ++ [s]) :: lvls).
    rewrite !join_cons, <-app_assoc. by rewrite (Permutation_middle l).
  - change (alter ?f (S k) (l :: lvls)) with (l :: alter f k lvls).
    rewrite !join_cons, IH by lia. by rewrite (Permutation_middle l).
Qed.

Lemma concat_addToLevel k s lvls :
  mjoin (addToLevel k s lvls) ≡ₚ s :: mjoin lvls.
Proof.
  unfold addToLevel. rewrite concat_alter_snoc.
  - rewrite join_app. apply Permutation_cons; [done|].
    assert (∀ n, mjoin (replicate n []) =@{list A} []) as -> by (induction 0; done).
    by rewrite app_nil_r.
  - rewrite length_app, length_replicate. lia.
Qed.

Lemma levelOK_mono lvls lvls' s k :
  (∀ j x, atLevel lvls j x → atLevel lvls' j x) → levelOK lvls s k → levelOK lvls' s k.
Proof. unfold levelOK. intros Hsub [H1 H2]. split; naive_solver. Qed.
End Levels.

(** ** Proofs: one round of [relax] *)
Section Relax.
Context {A : Type} `{Step A}.
Implicit Types (s x : A) (l : list A).

Lemma cnt_cons n x l : cnt n (x :: l) = (if decide (Name x = n) then 1 else 0) + cnt n l.
Proof. unfold cnt. rewrite filter_cons. by case_decide. Qed.

Lemma cnt_zero n l x : cnt n l = 0 → x ∈ l → Name x ≠ n.
Proof. unfold cnt. rewrite length_filter_zero. auto. Qed.

Lemma relax_degree l k inDeg q n :
  degree (relax l k inDeg q).1 n = (degree inDeg n - Z.of_nat (cnt n l))%Z.
Proof.
  revert inDeg q. induction l as [|x l IH]; intros inDeg q; simpl.
  { unfold cnt. simpl. lia. }
  rewrite IH, degree_insert, cnt_cons. case_decide; simplify_eq; lia.
Qed.

(** The steps queued by a round are those whose in-degree reached zero in it. *)
Lemma relax_queue l k inDeg q :
  (∀ x y, x ∈ l → y ∈ l → Name x = Name y → x = y) →
  (∀ x, x ∈ l → (Z.of_nat (cnt (Name x) l) ≤ degree inDeg (Name x))%Z) →
  ∃ new, (relax l k inDeg q).2 = q ++ ((λ x, (x, S k)) <$> new) ∧
    NoDup (Name <$> new) ∧
    ∀ x, x ∈ new ↔ x ∈ l ∧ degree inDeg (Name x) = Z.of_nat (cnt (Name x) l).
Proof.
  revert inDeg q. induction l as [|d l IH]; intros inDeg q Hinj Hle.
  { exists []. rewrite app_nil_r. split_and!; [done|constructor|set_solver]. }
  simpl. set (inDeg' := <[Name d:=_]> inDeg).
  assert (∀ n, degree inDeg' n =
    (degree inDeg n - Z.of_nat (if decide (Name d = n) then 1 else 0))%Z) as Hdeg.
  { intros n. unfold inDeg'. rewrite degree_insert. case_decide; subst; lia. }
  pose proof (Hle d ltac:(left)) as Hd. rewrite cnt_cons, decide_True in Hd by done.
  destruct (IH inDeg' (if decide (degree inDeg' (Name d) = 0%Z)
                       then q ++ [(d, S k)] else q)) as (new & Hq & Hnd & Hnew).
  { intros x y Hx Hy. apply Hinj; by right. }
  { intros x Hx. rewrite Hdeg. specialize (Hle x ltac:(by right)).
    rewrite cnt_cons in Hle. lia. }
  assert (∀ x, x ∈ new ↔ x ∈ l ∧
    degree inDeg (Name x) = Z.of_nat (cnt (Name x) (d :: l))) as Hnew'.
  { intros x. rewrite Hnew, Hdeg, cnt_cons. naive_solver lia. }
  rewrite Hq. clear Hq. case_decide as Hz.
  - rewrite Hdeg, decide_True in Hz by done.
    assert (cnt (Name d) l = 0) as Hc by lia.
    exists (d :: new). rewrite <-app_assoc. split_and!; [done|..].
    + rewrite fmap_cons. apply NoDup_cons. split; [|done].
      intros (y & Hy & Hyn)%list_elem_of_fmap. apply Hnew in Hyn as [Hyl _].
      by apply (cnt_zero _ _ y Hc).
    + intros x. rewrite !elem_of_cons, Hnew'. split; [|naive_solver].
      intros [->|?]; [|naive_solver]. split; [auto|].
      rewrite cnt_cons, decide_True by done. lia.
  - rewrite Hdeg, decide_True in Hz by done.
    exists new. split_and!; [done..|]. intros x. rewrite elem_of_cons, Hnew'.
    split; [naive_solver|]. intros [[->|Hx] E]; [|done]. split; [|done].
    rewrite cnt_cons, decide_True in E by done.
    destruct (decide (0 < cnt (Name d) l)) as [Hp|]; [|lia].
    apply length_filter_pos in Hp as (y & Hy & Hyn).
    replace d with y; [done|]. apply Hinj; [by right|by left|done].
Qed.
End Relax.

(** ** Proofs: the invariant of the main loop *)
Section Kahn.
Context {A : Type} `{Step A}.
Context (steps : list A) (Hnd : NoDup (Name <$> steps)) (Hcl : closedDeps steps).
Implicit Types (s x : A).

Record kinv (st : kstate A) : Prop := {
  ki_degree : ∀ s, s ∈ steps →
    degree (inDegree st) (Name s) = Z.of_nat (pending (visited st) s);
  ki_queue : ∀ s k, (s, k) ∈ queue st →
    s ∈ steps ∧ Name s ∉ visited st ∧ pending (visited st) s = 0;
  ki_queue_nodup : NoDup ((λ e, Name e.1) <$> queue st);
  ki_ready : ∀ s, s ∈ steps → pending (visited st) s = 0 →
    Name s ∈ visited st ∨ ∃ k, (s, k) ∈ queue st;
  ki_visited : ∀ n, n ∈ visited st ↔ ∃ s k, atLevel (levels st) k s ∧ Name s = n;
  ki_level_nodup : NoDup (Name <$> mjoin (levels st));
  ki_level_steps : ∀ s, s ∈ mjoin (levels st) → s ∈ steps;
  ki_exact : ∀ s k, atLevel (levels st) k s ∨ (s, k) ∈ queue st → levelOK (levels st) s k;
  ki_sorted : StronglySorted le (snd <$> queue st);
  ki_span : ∀ k k', k ∈ snd <$> queue st → k' ∈ snd <$> queue st → k' ≤ S k;
  ki_below : ∀ k, k ∈ snd <$> queue st → length (levels st) ≤ S k;
  ki_inhabited : ∀ k, k < length (levels st) → ∃ s, atLevel (levels st) k s;
}.

Lemma pending_empty s : pending ∅ s = length (Dependencies s).
Proof.
  unfold pending. f_equal. induction (Dependencies s) as [|d ds IH]; [done|].
  rewrite filter_cons, decide_True by set_solver. by rewrite IH.
Qed.

Lemma kinv_init :
  kinv (KState (initQueue steps (mkInDegree steps)) ∅ [] (mkInDegree steps)).
Proof.
  assert (∀ s k, (s, k) ∈ initQueue steps (mkInDegree steps) ↔
    k = 0 ∧ s ∈ steps ∧ pending ∅ s = 0) as Hq.
  { intros s k. unfold initQueue. rewrite list_elem_of_fmap.
    setoid_rewrite list_elem_of_filter. split.
    - intros (x & [= -> ->] & Hd & Hx). rewrite mkInDegree_spec in Hd by done.
      rewrite pending_empty. split_and!; [done..|lia].
    - intros (-> & Hs & Hp). exists s. rewrite mkInDegree_spec by done.
      rewrite pending_empty in Hp. by rewrite Hp. }
  assert (∀ k, k ∈ snd <$> initQueue steps (mkInDegree steps) → k = 0) as Hq0.
  { intros k ([s k'] & -> & Hs)%list_elem_of_fmap. by apply Hq in Hs as [-> _]. }
  split; simpl.
  - intros s Hs. by rewrite mkInDegree_spec, pending_empty.
  - intros s k (_ & Hs & Hp)%Hq. set_solver.
  - unfold initQueue. rewrite <-list_fmap_compose. simpl.
    by apply NoDup_fmap_filter.
  - intros s Hs Hp. right. exists 0. by apply Hq.
  - intros n. split; [set_solver|]. intros (s & k & (l & Hl & _) & _). by rewrite lookup_nil in Hl.
  - constructor.
  - set_solver.
  - intros s k [(l & Hl & _)|(-> & Hs & Hp)%Hq]; [by rewrite lookup_nil in Hl|].
    split; [|done]. intros d Hd. rewrite pending_zero in Hp. set_solver.
  - clear Hq. induction (initQueue _ _) as [|[s k] q IH]; simpl; constructor.
    + apply IH. intros k' Hk'. apply Hq0. by right.
    + apply Forall_forall. intros k' Hk'. rewrite (Hq0 k) by left. lia.
  - intros k k' ->%Hq0 ->%Hq0. lia.
  - intros k Hk. lia.
  - intros k Hk. lia.
Qed.

(** The names visited so far are those of distinct steps. *)
Lemma kinv_size st : kinv st → size (visited st) = length (mjoin (levels st)).
Proof.
  intros Hi. rewrite <-(length_fmap Name).
  rewrite <-(size_list_to_set (C := gset string)) by apply Hi. f_equal.
  apply set_eq. intros n. rewrite elem_of_list_to_set, (ki_visited _ Hi), list_elem_of_fmap.
  setoid_rewrite atLevel_join. naive_solver.
Qed.

Lemma kinv_submseteq st : kinv st → mjoin (levels st) ⊆+ steps.
Proof.
  intros Hi. apply NoDup_submseteq; [|apply Hi].
  eapply NoDup_fmap_1, Hi.
Qed.

Lemma kinv_bound st : kinv st → size (visited st) ≤ length steps.
Proof.
  intros Hi. rewrite kinv_size by done. by apply submseteq_length, kinv_submseteq.
Qed.

(** One round of [relax] in terms of [pending]. *)
Lemma relax_spec V s k inDeg q :
  Name s ∉ V →
  (∀ x, x ∈ steps → degree inDeg (Name x) = Z.of_nat (pending V x)) →
  let r := relax (dependents (mkAdjacency steps) (Name s)) k inDeg q in
  (∀ x, x ∈ steps → degree r.1 (Name x) = Z.of_nat (pending ({[Name s]} ∪ V) x)) ∧
  ∃ new, r.2 = q ++ ((λ x, (x, S k)) <$> new) ∧ NoDup (Name <$> new) ∧
    ∀ x, x ∈ new ↔ x ∈ steps ∧ Name s ∈ Dependencies x ∧ pending ({[Name s]} ∪ V) x = 0.
Proof.
  intros HV Hdeg r.
  assert (∀ x, x ∈ steps → degree inDeg (Name x) =
    Z.of_nat (pending ({[Name s]} ∪ V) x + cnt (Name x) (dependents (mkAdjacency steps) (Name s)))) as Hd.
  { intros x Hx. by rewrite Hdeg, (pending_add V (Name s)), cnt_dependents. }
  split.
  - intros x Hx. unfold r. rewrite relax_degree, Hd by done. lia.
  - destruct (relax_queue (dependents (mkAdjacency steps) (Name s)) k inDeg q)
      as (new & Hq & Hnew & Hin).
    + intros x y [Hx _]%dependents_elem [Hy _]%dependents_elem.
      by apply (elem_of_fmap_inj Name steps).
    + intros x [Hx _]%dependents_elem. rewrite Hd by done. lia.
    + exists new. split_and!; [done..|]. intros x. rewrite Hin, dependents_elem.
      split; intros Hx; destruct_and?; split_and?; try done.
      * rewrite Hd in * by done. lia.
      * rewrite Hd by done. lia.
Qed.

(** One turn of the loop, on the entry [(s, k)] at the head of the queue. *)
Section Turn.
Context (st : kstate A) (s : A) (k : nat) (rest : list (A * nat)).
Context (Hi : kinv st) (Eq : queue st = (s, k) :: rest).
Context (new : list A) (Hnn : NoDup (Name <$> new)).
Context (Hnew : ∀ x, x ∈ new ↔
  x ∈ steps ∧ Name s ∈ Dependencies x ∧ pending ({[Name s]} ∪ visited st) x = 0).

Lemma turn_head : s ∈ steps ∧ Name s ∉ visited st ∧ pending (visited st) s = 0.
Proof. apply (ki_queue _ Hi s k). rewrite Eq. left. Qed.

Lemma turn_rest x j : (x, j) ∈ rest →
  Name x ≠ Name s ∧ x ∈ steps ∧ Name x ∉ visited st ∧ pending (visited st) x = 0.
Proof.
  intros Hx. split; [|apply (ki_queue _ Hi x j); rewrite Eq; by right].
  pose proof (ki_queue_nodup _ Hi) as Hq. rewrite Eq, fmap_cons in Hq.
  apply NoDup_cons in Hq as [Hs _]. intros E. apply Hs. simpl. rewrite <-E.
  by apply (list_elem_of_fmap_2 (λ e, Name e.1) _ (x, j)).
Qed.

Lemma turn_depth j : j ∈ snd <$> rest → k ≤ j ≤ S k.
Proof.
  intros Hj. split.
  - pose proof (ki_sorted _ Hi) as Hso. rewrite Eq, fmap_cons in Hso.
    apply StronglySorted_inv in Hso as [_ Hso]. rewrite Forall_forall in Hso. by apply Hso.
  - apply (ki_span _ Hi); rewrite Eq, fmap_cons; [left|by right].
Qed.

Lemma turn_depths j :
  j ∈ snd <$> rest ++ ((λ x, (x, S k)) <$> new) → k ≤ j ≤ S k.
Proof.
  rewrite fmap_app, <-list_fmap_compose, elem_of_app.
  intros [Hj|(y & -> & _)%list_elem_of_fmap]; [by apply turn_depth|simpl; lia].
Qed.

Lemma turn_sub j x : atLevel (levels st) j x → atLevel (addToLevel k s (levels st)) j x.
Proof. rewrite atLevel_addToLevel. auto. Qed.

Lemma turn_level_below j x : atLevel (levels st) j x → j ≤ k.
Proof.
  intros Hj%atLevel_lt. assert (length (levels st) ≤ S k); [|lia].
  apply (ki_below _ Hi). rewrite Eq. left.
Qed.

(** A newly queued step is neither the one just processed nor visited. *)
Lemma turn_new_fresh y : y ∈ new → Name y ∉ {[Name s]} ∪ visited st.
Proof.
  destruct turn_head as (Hs & HsV & Hsp). rewrite pending_zero in Hsp.
  intros (Hy & Hsy & _)%Hnew. rewrite elem_of_union, elem_of_singleton. intros [E|HyV].
  - assert (y = s) as -> by by apply (elem_of_fmap_inj Name steps). by apply HsV, Hsp.
  - apply (ki_visited _ Hi) in HyV as (y' & j & Hj & E).
    assert (y' = y) as ->.
    { apply (elem_of_fmap_inj Name steps); [done| |done..].
      apply (ki_level_steps _ Hi), atLevel_join. eauto. }
    destruct (proj1 (ki_exact _ Hi y j (or_introl Hj)) _ Hsy) as (? & s' & _ & ? & ?).
    apply HsV, (ki_visited _ Hi). eauto.
Qed.

Lemma turn_queue x j : (x, j) ∈ rest ++ ((λ x, (x, S k)) <$> new) →
  x ∈ steps ∧ Name x ∉ {[Name s]} ∪ visited st ∧
  pending ({[Name s]} ∪ visited st) x = 0.
Proof.
  intros [Hx|(y & [= -> ->] & Hy)%list_elem_of_fmap]%elem_of_app.
  - destruct (turn_rest x j Hx) as (? & ? & ? & Hp). split_and!; [done|set_solver|].
    rewrite pending_zero in *. set_solver.
  - split_and!; [by apply Hnew|by apply turn_new_fresh|by apply Hnew].
Qed.

Lemma turn_queue_nodup :
  NoDup ((λ e, Name e.1) <$> rest ++ ((λ x, (x, S k)) <$> new)).
Proof.
  destruct turn_head as (Hs & HsV & _).
  pose proof (ki_queue_nodup _ Hi) as Hq. rewrite Eq, fmap_cons in Hq.
  apply NoDup_cons in Hq as [_ Hq].
  rewrite fmap_app, <-list_fmap_compose. apply NoDup_app. split_and!; [done| |done].
  intros n ([x j] & -> & He)%list_elem_of_fmap (y & E & Hy)%list_elem_of_fmap. simpl in E.
  destruct (turn_rest x j He) as (_ & Hx & _ & Hp). apply Hnew in Hy as (Hy & Hsy & _).
  assert (x = y) as -> by by apply (elem_of_fmap_inj Name steps).
  rewrite pending_zero in Hp. by apply HsV, Hp.
Qed.

Lemma turn_ready x :
  x ∈ steps → pending ({[Name s]} ∪ visited st) x = 0 →
  Name x ∈ {[Name s]} ∪ visited st ∨ ∃ j, (x, j) ∈ rest ++ ((λ x, (x, S k)) <$> new).
Proof.
  intros Hx Hp. destruct (decide (Name s ∈ Dependencies x)) as [Hd|Hd].
  { right. exists (S k). apply elem_of_app. right.
    apply (list_elem_of_fmap_2 (λ x, (x, S k))). by apply Hnew. }
  destruct (ki_ready _ Hi x Hx) as [HxV|[j Hj]].
  - rewrite pending_zero in *. set_solver.
  - left. set_solver.
  - rewrite Eq in Hj. apply elem_of_cons in Hj as [[= -> ->]|Hj]; [left; set_solver|].
    right. exists j. apply elem_of_app. by left.
Qed.

Lemma turn_exact x j :
  atLevel (addToLevel k s (levels st)) j x ∨ (x, j) ∈ rest ++ ((λ x, (x, S k)) <$> new) →
  levelOK (addToLevel k s (levels st)) x j.
Proof.
  assert (∀ x j, atLevel (levels st) j x ∨ (x, j) ∈ queue st →
    levelOK (addToLevel k s (levels st)) x j) as Hold.
  { intros x' j' Hx. eapply levelOK_mono; [apply turn_sub|]. by apply (ki_exact _ Hi). }
  rewrite Eq in Hold. rewrite elem_of_app, atLevel_addToLevel.
  intros [[Hx|[-> ->]]|[Hx|(y & [= -> ->] & Hy)%list_elem_of_fmap]].
  1-3: apply Hold; rewrite elem_of_cons; auto.
  apply Hnew in Hy as (Hy & Hsy & Hp). rewrite pending_zero in Hp. split.
  - intros d [Hd|Hd]%Hp%elem_of_union.
    + apply elem_of_singleton in Hd as ->. exists k, s. split_and!; [lia| |done].
      apply atLevel_addToLevel. auto.
    + apply (ki_visited _ Hi) in Hd as (x & j & Hj & <-).
      exists j, x. split_and!; [|by apply turn_sub|done]. apply turn_level_below in Hj. lia.
  - intros k' [= <-]. exists s. split; [done|]. apply atLevel_addToLevel. auto.
Qed.

Lemma turn_sorted : StronglySorted le (snd <$> rest ++ ((λ x, (x, S k)) <$> new)).
Proof.
  rewrite fmap_app, <-list_fmap_compose. simpl.
  pose proof (ki_sorted _ Hi) as Hso. rewrite Eq, fmap_cons in Hso.
  apply StronglySorted_inv in Hso as [Hso _]. apply StronglySorted_app. split_and!.
  - intros a b Ha%turn_depth (y & -> & Hy)%list_elem_of_fmap. simpl. lia.
  - done.
  - clear. induction new as [|y l IH]; simpl; constructor; [done|].
    apply Forall_forall. intros b (z & -> & _)%list_elem_of_fmap. simpl. lia.
Qed.

Lemma turn_level_nodup : NoDup (Name <$> mjoin (addToLevel k s (levels st))).
Proof.
  rewrite concat_addToLevel, fmap_cons. apply NoDup_cons. split; [|apply Hi].
  intros (x & Hx & Hxl)%list_elem_of_fmap. destruct turn_head as (_ & HsV & _).
  apply HsV. rewrite (ki_visited _ Hi). apply atLevel_join in Hxl as [j ?]. eauto.
Qed.

Lemma turn_below j :
  j ∈ snd <$> rest ++ ((λ x, (x, S k)) <$> new) →
  length (addToLevel k s (levels st)) ≤ S j.
Proof.
  intros Hj%turn_depths. rewrite length_addToLevel.
  assert (length (levels st) ≤ S k); [|lia]. apply (ki_below _ Hi). rewrite Eq. left.
Qed.

(** No gap: the level of the step is at most one beyond the existing ones. *)
Lemma turn_inhabited j :
  j < length (addToLevel k s (levels st)) → ∃ x, atLevel (addToLevel k s (levels st)) j x.
Proof.
  rewrite length_addToLevel. intros Hj. destruct (decide (j < length (levels st))) as [Hl|Hl].
  { destruct (ki_inhabited _ Hi j Hl) as [x Hx]. exists x. by apply turn_sub. }
  exists s. apply atLevel_addToLevel. right. split; [|done].
  destruct (decide (j = k)) as [|Hjk]; [done|exfalso].
  destruct (ki_exact _ Hi s k) as [_ Hk]; [right; rewrite Eq; left|].
  destruct (Hk (pred k)) as (x & _ & Hx%atLevel_lt); lia.
Qed.
End Turn.

Lemma kinv_step st st' :
  kinv st → kahnStep (mkAdjacency steps) st = Some st' →
  kinv st' ∧ size (visited st') = S (size (visited st)).
Proof.
  intros Hi. unfold kahnStep. destruct (queue st) as [|[s k] rest] eqn:Eq; [done|].
  destruct (turn_head st s k rest Hi Eq) as (Hs & HsV & _). rewrite decide_False by done.
  destruct (relax_spec (visited st) s k (inDegree st) rest HsV (ki_degree _ Hi))
    as (Hdeg & new & Hq & Hnn & Hnew).
  destruct (relax _ _ _ _) as [inDeg q]. simpl in *. subst q. intros [= <-].
  split; [|simpl; rewrite size_union, size_singleton by set_solver; lia].
  split; simpl.
  - exact Hdeg.
  - eauto using turn_queue.
  - eauto using turn_queue_nodup.
  - eauto using turn_ready.
  - intros n. rewrite elem_of_union, elem_of_singleton, (ki_visited _ Hi).
    setoid_rewrite atLevel_addToLevel. naive_solver.
  - eauto using turn_level_nodup.
  - intros x. rewrite concat_addToLevel, elem_of_cons. intros [->|Hx]; [done|].
    by apply (ki_level_steps _ Hi).
  - eauto using turn_exact.
  - eauto using turn_sorted.
  - intros j j' Hj Hj'. pose proof (turn_depths _ _ _ _ Hi Eq _ _ Hj).
    pose proof (turn_depths _ _ _ _ Hi Eq _ _ Hj'). lia.
  - eauto using turn_below.
  - eauto using turn_inhabited.
Qed.

(** The fuel is enough: the loop ends with an empty queue. *)
Lemma kahn_total fuel st :
  kinv st → length steps ≤ fuel + size (visited st) →
  ∃ st', kahn fuel (mkAdjacency steps) st = Some st' ∧ kinv st' ∧ queue st' = [].
Proof.
  revert st. induction fuel as [|fuel IH]; intros st Hi Hf; simpl;
    destruct (kahnStep _ st) as [st'|] eqn:E.
  - destruct (kinv_step st st' Hi E) as [Hi' Hs].
    pose proof (kinv_bound st' Hi'). lia.
  - exists st. split_and!; [done..|]. unfold kahnStep in E.
    destruct (queue st) as [|[]]; [done|]. case_decide; [done|]. by destruct (relax _ _ _ _).
  - destruct (kinv_step st st' Hi E) as [Hi' Hs]. apply IH; [done|lia].
  - exists st. split_and!; [done..|]. unfold kahnStep in E.
    destruct (queue st) as [|[]]; [done|]. case_decide; [done|]. by destruct (relax _ _ _ _).
Qed.
End Kahn.

(** ** Proofs: the depth-first search *)
Section Dfs.
Context {A : Type} `{Step A}.
Context (adj : gmap string (list A)).

(** An edge of the dependents graph, and walks along it. *)
Definition edge (a b : string) : Prop := ∃ x, x ∈ dependents adj a ∧ Name x = b.

Fixpoint walk (p : list string) : Prop :=
  match p with
  | a :: (b :: _) as p' => edge a b ∧ walk p'
  | _ => True
  end.

Definition linked (p : list string) (n : string) : Prop :=
  ∀ a, last p = Some a → edge a n.

Definition cycle (p : list string) : Prop :=
  walk p ∧ ∃ n q, p = n :: q ++ [n].

Lemma walk_cons a b p : walk (a :: b :: p) ↔ edge a b ∧ walk (b :: p).
Proof. done. Qed.

Lemma walk_snoc p n : walk p → linked p n → walk (p ++ [n]).
Proof.
  induction p as [|a p IH]; [done|]. destruct p as [|b p]; intros Hw Hl.
  - split; [|done]. by apply Hl.
  - destruct Hw as [He Hw]. split; [done|]. apply IH; [done|]. intros c Hc. by apply Hl.
Qed.

Lemma walk_drop i p : walk p → walk (drop i p).
Proof.
  revert p. induction i as [|i IH]; intros p Hw; [done|]. destruct p as [|a p]; [done|].
  apply IH. destruct p; [done|]. by destruct Hw.
Qed.

Lemma walk_lookup p i a b : walk p → p !! i = Some a → p !! S i = Some b → edge a b.
Proof.
  revert p. induction i as [|i IH]; intros [|c [|d p]] Hw Ha Hb; simplify_eq/=.
  - apply Hw.
  - apply (IH (d :: p)); [apply Hw|done..].
Qed.

Lemma trimCycle_cycle q n : walk (q ++ [n]) → n ∈ q → cycle (trimCycle (q ++ [n])).
Proof.
  intros Hw Hn. unfold trimCycle. rewrite last_snoc.
  destruct (list_find_elem_of (λ m, m = n) (q ++ [n]) n) as [[i m] Hf]; [set_solver|done|].
  rewrite Hf. split; [by apply walk_drop|].
  apply list_find_Some in Hf as (Hi & -> & Hmin).
  assert (i < length q) as Hiq.
  { apply list_elem_of_lookup in Hn as [j Hj]. pose proof (lookup_lt_Some _ _ _ Hj) as Hjq.
    destruct (decide (i ≤ j)) as [|Hij]; [lia|].
    exfalso. apply (Hmin j n); [|lia|done]. by rewrite lookup_app_l. }
  rewrite lookup_app_l in Hi by done. rewrite drop_app_le by lia.
  apply drop_S in Hi as ->. by exists n, (drop (S i) q).
Qed.

(** What an exhausted search has established about the names it marked:
    they have a rank that decreases along the edges. *)
Definition explored (V0 W : gset string) : Prop :=
  ∃ (rank : string → nat) (B : nat), (∀ n, rank n ≤ B) ∧
    ∀ n m, n ∈ W → n ∉ V0 → edge n m → m ∈ W ∧ (m ∉ V0 → rank m < rank n).

Lemma explored_refl V0 : explored V0 V0.
Proof. exists (λ _, 0), 0. split; [lia|set_solver]. Qed.

Lemma explored_add V0 W n :
  explored V0 W → (∀ m, edge n m → m ∈ W) → explored V0 ({[n]} ∪ W).
Proof.
  intros (rank & B & HB & Hr) Hn. destruct (decide (n ∈ W)) as [HnW|HnW].
  { replace ({[n]} ∪ W) with W by set_solver. by exists rank, B. }
  exists (λ m, if decide (m = n) then S B else rank m), (S B). split.
  { intros m. case_decide; [done|]. specialize (HB m). lia. }
  intros m m' [->%elem_of_singleton|Hm]%elem_of_union HmV He.
  - pose proof (Hn m' He) as Hm'. split; [set_solver|]. intros _.
    rewrite decide_False, decide_True by set_solver. specialize (HB m'). lia.
  - destruct (Hr m m' Hm HmV He) as [Hm' Hlt]. split; [set_solver|].
    intros Hm'V. rewrite !decide_False by set_solver. auto.
Qed.

Context (names : gset string).
Context (Hnames : ∀ a b, edge a b → b ∈ names).

(** A search that answers [true] has closed a cycle; one that answers
    [false] has explored its node and restored the path. *)
Definition dfsPost (V0 : gset string) (st : dstate) (goals : list string)
    (r : option (bool * dstate)) : Prop :=
  match r with
  | None => False
  | Some (true, st') => ∃ q n, path st' = q ++ [n] ∧ n ∈ q ∧ walk (q ++ [n])
  | Some (false, st') =>
      onPath st' = onPath st ∧ path st' = path st ∧
      dvisited st ⊆ dvisited st' ∧ explored V0 (dvisited st') ∧
      (∀ g, g ∈ goals → g ∈ dvisited st')
  end.

Definition dfsPre (V0 : gset string) (st : dstate) : Prop :=
  (∀ n, n ∈ onPath st ↔ n ∈ path st) ∧ walk (path st) ∧ explored V0 (dvisited st).

Lemma dfsEach_spec (V0 : gset string) f (deps : list A) st :
  dfsPre V0 st →
  (∀ d, d ∈ deps → linked (path st) (Name d) ∧ Name d ∈ names) →
  (∀ d st1, dfsPre V0 st1 → linked (path st1) (Name d) → Name d ∈ names →
    onPath st1 = onPath st → dfsPost V0 st1 [Name d] (f (Name d) st1)) →
  dfsPost V0 st (Name <$> deps) (dfsEach f deps st).
Proof.
  intros Hpre Hdeps Hf. revert st Hpre Hdeps Hf.
  induction deps as [|d deps IH]; intros st Hpre Hdeps Hf.
  { simpl. split_and!; [done..|apply Hpre|set_solver]. }
  destruct (Hdeps d ltac:(left)) as [Hl Hn]. simpl.
  pose proof (Hf d st Hpre Hl Hn eq_refl) as Hd.
  destruct (f (Name d) st) as [[[|] st']|]; [done| |done].
  destruct Hd as (Ho & Hp & Hv & He & Hg).
  assert (dfsPost V0 st' (Name <$> deps) (dfsEach f deps st')) as Hpost.
  { apply IH.
    - destruct Hpre as (H1 & H2 & H3). unfold dfsPre. by rewrite Ho, Hp.
    - intros x Hx. rewrite Hp. apply Hdeps. by right.
    - intros x st1 ??? Ho1. apply Hf; [done..|]. by rewrite Ho1, Ho. }
  unfold dfsPost in *. destruct (dfsEach f deps st') as [[[|] st'']|]; [done| |done].
  destruct Hpost as (Ho' & Hp' & Hv' & He' & Hg'). split_and!; [congruence|congruence| |done|].
  - set_solver.
  - intros g. simpl. rewrite elem_of_cons. intros [->|Hin]; [|by apply Hg'].
    apply Hv', Hg. left.
Qed.

Lemma dfs_spec V0 fuel node st :
  dfsPre V0 st → linked (path st) node → node ∈ names →
  size (names ∖ onPath st) < fuel →
  dfsPost V0 st [node] (dfs fuel adj node st).
Proof.
  revert node st. induction fuel as [|fuel IH]; intros node st Hpre Hl Hn Hf; [lia|].
  simpl. destruct Hpre as (Hop & Hw & He). case_decide as Hon.
  { exists (path st), node. split_and!; [done|by apply Hop|by apply walk_snoc]. }
  case_decide as Hv; [simpl; split_and!; [done..|set_solver]|].
  set (st1 := DState ({[node]} ∪ onPath st) (path st ++ [node]) (dvisited st)).
  assert (dfsPost V0 st1 (Name <$> dependents adj node)
    (dfsEach (dfs fuel adj) (dependents adj node) st1)) as Hpost.
  { apply dfsEach_spec.
    - split_and!; [|by apply walk_snoc|done]. intros m. simpl. rewrite elem_of_app.
      rewrite elem_of_union, Hop, list_elem_of_singleton, elem_of_singleton. tauto.
    - intros d Hd. assert (edge node (Name d)) as Hed by by exists d.
      split; [|by eapply Hnames]. intros a. simpl. rewrite last_snoc. by intros [= <-].
    - intros d st2 Hpre2 Hl2 Hn2 Ho2. apply IH; [done..|]. rewrite Ho2. simpl.
      pose proof (size_difference_add names (onPath st) node Hn Hon). lia. }
  destruct (dfsEach _ _ _) as [[[|] st']|]; [done| |done].
  destruct Hpost as (Ho & Hp & Hsub & He' & Hg). simpl in *.
  split_and!.
  - rewrite Ho. set_solver.
  - rewrite Hp, length_app. simpl. by rewrite Nat.add_sub, take_app_length.
  - set_solver.
  - apply explored_add; [done|]. intros m (x & Hx & <-). apply Hg. by apply list_elem_of_fmap_2.
  - set_solver.
Qed.

Lemma concat_sep_nonempty a b p : String.concat " -> " (a :: b :: p) ≠ "".
Proof. simpl. by destruct a. Qed.

Lemma cycle_path_nonempty p : cycle p → String.concat " -> " p ≠ "".
Proof.
  intros [_ (n & q & ->)]. destruct q as [|m q]; apply concat_sep_nonempty.
Qed.

(** [detectCycle] either finds a cycle or explores everything reachable. *)
Lemma detectCycle_spec V0 fuel start vis :
  explored V0 vis → start ∈ names → size names < fuel →
  ∃ cp vis', detectCycle fuel start adj vis = Some (cp, vis') ∧
    ((cp = "" ∧ vis ⊆ vis' ∧ start ∈ vis' ∧ explored V0 vis') ∨
     (∃ p, cycle p ∧ cp = String.concat " -> " p)).
Proof.
  intros He Hs Hf. unfold detectCycle. case_decide as Hv.
  { exists "", vis. split; [done|]. left. split_and!; done. }
  assert (dfsPost V0 (DState ∅ [] vis) [start] (dfs fuel adj start (DState ∅ [] vis))) as Hd.
  { apply dfs_spec; [|done|done|].
    - split_and!; [simpl; set_solver|done..].
    - simpl. by rewrite difference_empty_L. }
  destruct (dfs _ _ _ _) as [[[|] st]|]; [| |done].
  - destruct Hd as (q & n & Hp & Hn & Hw). eexists _, _. split; [done|]. right.
    eexists. split; [|done]. rewrite Hp. by apply trimCycle_cycle.
  - destruct Hd as (_ & _ & Hsub & He' & Hg). eexists _, _. split; [done|]. left.
    split_and!; [done..|set_solver|done].
Qed.

Lemma findCycle_spec V0 fuel l vis :
  explored V0 vis → (∀ n, n ∈ l → n ∈ names) → size names < fuel →
  ∃ cp, findCycle fuel l adj vis = Some cp ∧
    ((cp = "" ∧ ∃ W, vis ⊆ W ∧ (∀ n, n ∈ l → n ∈ W) ∧ explored V0 W) ∨
     (∃ p, cycle p ∧ cp = String.concat " -> " p)).
Proof.
  intros He Hl Hf. revert vis He Hl. induction l as [|n l IH]; intros vis He Hl; simpl.
  { exists "". split; [done|]. left. split; [done|]. exists vis. split_and!; [done|set_solver|done]. }
  assert (∀ m, m ∈ l → m ∈ names) as Hl' by set_solver. case_decide as Hv.
  { destruct (IH vis He Hl') as (cp & -> & Hcp). exists cp. split; [done|].
    destruct Hcp as [(-> & W & HW & Hin & HeW)|]; [left|by right].
    split; [done|]. exists W. split_and!; [done|set_solver|done]. }
  destruct (detectCycle_spec V0 fuel n vis He ltac:(set_solver) Hf) as (cp & vis' & -> & Hcp).
  destruct Hcp as [(-> & Hsub & Hn & He')|(p & Hp & ->)].
  - rewrite decide_True by done. destruct (IH vis' He' Hl') as (cp & -> & Hcp).
    exists cp. split; [done|]. destruct Hcp as [(-> & W & HW & Hin & HeW)|]; [left|by right].
    split; [done|]. exists W. split_and!; [set_solver..|done].
  - rewrite decide_False by by apply cycle_path_nonempty. eexists. split; [done|]. right. eauto.
Qed.
End Dfs.

(** ** Proofs: the input checks *)
Section Checks.
Context {A : Type} `{Step A}.
Implicit Types (steps pre post : list A) (s : A).

Lemma stepsByName_Ok steps m :
  NoDup (Name <$> steps) → (∀ s, s ∈ steps → m !! Name s = None) →
  ∃ m', stepsByName steps m = Ok m' ∧
    ∀ n, m' !! n = None ↔ m !! n = None ∧ n ∉ Name <$> steps.
Proof.
  revert m. induction steps as [|s l IH]; intros m Hnd Hm; simpl.
  { exists m. set_solver. }
  apply NoDup_cons in Hnd as [Hs Hnd]. rewrite (Hm s) by left.
  destruct (IH (<[Name s := s]> m) Hnd) as (m' & -> & Hm').
  { intros x Hx. rewrite lookup_insert_ne; [apply Hm; by right|].
    intros E. apply Hs. rewrite E. by apply list_elem_of_fmap_2. }
  exists m'. split; [done|]. intros n. rewrite Hm', lookup_insert_None, not_elem_of_cons. naive_solver.
Qed.

Lemma stepsByName_dup pre s post m :
  NoDup (Name <$> pre) → (∀ x, x ∈ pre → m !! Name x = None) →
  (Name s ∈ Name <$> pre ∨ is_Some (m !! Name s)) →
  stepsByName (pre ++ s :: post) m = Err (DuplicateStepName (Name s)).
Proof.
  revert m. induction pre as [|x l IH]; intros m Hnd Hm Hs; simpl.
  { destruct Hs as [Hs|[y ->]]; [set_solver|done]. }
  apply NoDup_cons in Hnd as [Hx Hnd]. rewrite (Hm x) by left. apply IH; [done|..].
  - intros y Hy. rewrite lookup_insert_ne; [apply Hm; by right|].
    intros E. apply Hx. rewrite E. by apply list_elem_of_fmap_2.
  - rewrite fmap_cons, elem_of_cons in Hs. rewrite lookup_insert_is_Some.
    destruct (decide (Name x = Name s)); naive_solver.
Qed.

(** A list without a repeated name, or its first repetition. *)
Lemma first_dup steps :
  NoDup (Name <$> steps) ∨
  ∃ pre s post, steps = pre ++ s :: post ∧ NoDup (Name <$> pre) ∧ Name s ∈ Name <$> pre.
Proof.
  induction steps as [|s l IH] using rev_ind; [left; constructor|].
  destruct IH as [Hnd|(pre & x & post & -> & Hp)].
  - destruct (decide (Name s ∈ Name <$> l)); [right; by exists l, s, []|left].
    rewrite fmap_app. apply NoDup_app. split_and!; [done|set_solver|apply NoDup_singleton].
  - right. exists pre, x, (post ++ [s]). by rewrite <-app_assoc.
Qed.

Lemma checkDepsOf_cases n deps (m : gmap string A) :
  (checkDepsOf n deps m = Ok () ∧ ∀ d, d ∈ deps → is_Some (m !! d)) ∨
  ∃ l1 d l2, deps = l1 ++ d :: l2 ∧ m !! d = None ∧ (∀ d', d' ∈ l1 → is_Some (m !! d')) ∧
    checkDepsOf n deps m = Err (MissingDependency n d).
Proof.
  induction deps as [|d ds IH]; simpl; [left; set_solver|].
  destruct (m !! d) eqn:E; [|right; exists [], d, ds; set_solver].
  destruct IH as [[-> Hds]|(l1 & d' & l2 & -> & Hd' & Hl1 & ->)].
  - left. set_solver.
  - right. exists (d :: l1), d', l2. set_solver.
Qed.

Lemma checkDeps_cases steps (m : gmap string A) :
  (checkDeps steps m = Ok () ∧ ∀ s d, s ∈ steps → d ∈ Dependencies s → is_Some (m !! d)) ∨
  ∃ s d, s ∈ steps ∧ d ∈ Dependencies s ∧ m !! d = None ∧
    checkDeps steps m = Err (MissingDependency (Name s) d).
Proof.
  induction steps as [|s l IH]; simpl; [left; set_solver|].
  destruct (checkDepsOf_cases (Name s) (Dependencies s) m)
    as [[-> Hs]|(l1 & d & l2 & Hd & Hm & _ & ->)].
  - destruct IH as [[-> Hl]|(x & d & Hx & Hd & Hm & ->)]; [left; set_solver|].
    right. exists x, d. set_solver.
  - right. exists s, d. rewrite Hd. set_solver.
Qed.
End Checks.

(** ** [BuildDAG] *)
Section Results.
Context {A : Type} `{Step A}.
Implicit Types (steps : list A) (lvls : list (list A)).

Lemma edge_steps steps a b :
  edge (mkAdjacency steps) a b ↔ ∃ x, x ∈ steps ∧ a ∈ Dependencies x ∧ Name x = b.
Proof. unfold edge. setoid_rewrite dependents_elem. naive_solver. Qed.

(** When steps remain after the main loop, every one of them waits for
    another, which an exploration of them all would contradict. *)
Lemma unvisited_not_explored steps st W :
  closedDeps steps → kinv steps st → queue st = [] →
  explored (mkAdjacency steps) (visited st) W →
  (∀ s, s ∈ steps → Name s ∉ visited st → Name s ∈ W) →
  ∀ s, s ∈ steps → Name s ∈ visited st.
Proof.
  intros Hcl Hi Hq (rank & B & HB & Hr) HW s Hs.
  destruct (decide (Name s ∈ visited st)) as [|Hv]; [done|exfalso].
  assert (∀ k x, B - rank (Name x) < k → x ∈ steps → Name x ∉ visited st → False) as Hind;
    [|by eapply (Hind (S (B - rank (Name s))) s); [lia|..]].
  induction k as [|k IH]; intros x Hk Hx Hxv; [lia|].
  destruct (decide (pending (visited st) x = 0)) as [Hp|Hp].
  { destruct (ki_ready _ _ Hi x Hx Hp) as [?|[j Hj]]; [done|]. rewrite Hq in Hj. set_solver. }
  assert (∃ d, d ∈ Dependencies x ∧ d ∉ visited st) as (d & Hd & Hdv).
  { apply (proj1 (length_filter_pos (λ d, d ∉ visited st) (Dependencies x))).
    unfold pending in Hp. lia. }
  destruct (proj1 (list_elem_of_fmap _ _ _) (Hcl x d Hx Hd)) as (y & -> & Hy).
  destruct (Hr (Name y) (Name x)) as [_ Hlt]; [by apply HW|done|apply edge_steps; eauto|].
  specialize (Hlt Hxv). apply (IH y); [|done..]. specialize (HB (Name y)). lia.
Qed.

Lemma cycle_not_acyclic steps p : cycle (mkAdjacency steps) p → ¬ acyclic steps.
Proof.
  intros [Hw (n & q & ->)] (rank & Hrank).
  assert (∀ l a b, walk (mkAdjacency steps) (a :: l ++ [b]) → rank a < rank b) as Hlt.
  { assert (∀ a b, edge (mkAdjacency steps) a b → rank a < rank b) as He.
    { intros a b (x & Hx & Ha & <-)%edge_steps. by apply Hrank. }
    induction l as [|c l IH]; intros a b; simpl.
    - intros [Hab _]. by apply He.
    - intros [Hac Hl]. apply He in Hac. apply IH in Hl. lia. }
  apply Hlt in Hw. lia.
Qed.

(** What [BuildDAG] answers once the input checks have passed. *)
Lemma BuildDAG_run steps :
  NoDup (Name <$> steps) → closedDeps steps →
  (∃ st, kinv steps st ∧ queue st = [] ∧ size (visited st) = length steps ∧
    BuildDAG steps = Some (Ok (levels st))) ∨
  (∃ p, cycle (mkAdjacency steps) p ∧
    BuildDAG steps = Some (Err (CycleDetected (String.concat " -> " p)))).
Proof.
  intros Hnd Hcl. unfold BuildDAG.
  destruct (kahn_total steps Hnd Hcl (length steps)
    (KState (initQueue steps (mkInDegree steps)) ∅ [] (mkInDegree steps)))
    as (st & Hk & Hi & Hq); [by apply kinv_init|simpl; lia|].
  case_decide as Hlen.
  { left. exists (KState [] ∅ [] (mkInDegree steps)). destruct steps; [|done].
    split_and!; [by apply (kinv_init [])|done..]. }
  destruct (stepsByName_Ok steps ∅ Hnd) as (m & -> & Hm); [done|].
  destruct (checkDeps_cases steps m) as [[-> _]|(s & d & Hs & Hd & Hmd & _)];
    [|apply Hm in Hmd as [_ []]; by apply (Hcl s)].
  rewrite Hk. case_decide as Hsz; [left; eauto|right].
  destruct (findCycle_spec (mkAdjacency steps) (list_to_set (Name <$> steps))
    ltac:(intros a b (x & Hx & _ & <-)%edge_steps; apply elem_of_list_to_set;
          by apply list_elem_of_fmap_2)
    (visited st) (S (length steps)) (Name <$> filter (λ s, Name s ∉ visited st) steps) (visited st))
    as (cp & -> & [(-> & W & _ & HW & He)|(p & Hp & ->)]).
  - apply explored_refl.
  - intros n (x & -> & Hx)%list_elem_of_fmap. apply list_elem_of_filter in Hx as [_ Hx].
    apply elem_of_list_to_set. by apply list_elem_of_fmap_2.
  - rewrite size_list_to_set by done. rewrite length_fmap. lia.
  - exfalso. apply Hsz. rewrite <-(length_fmap Name), <-(size_list_to_set (C := gset string)) by done.
    f_equal. apply set_eq. intros n. rewrite elem_of_list_to_set. split.
    + intros (s & k & Hs & <-)%(ki_visited _ _ Hi). apply list_elem_of_fmap_2, Hi, atLevel_join. eauto.
    + intros (s & -> & Hs)%list_elem_of_fmap.
      apply (unvisited_not_explored steps st W); [done..| |done].
      intros x Hx Hxv. apply HW, list_elem_of_fmap_2, list_elem_of_filter. done.
  - exists p. split; [done|]. by rewrite decide_False by by apply (cycle_path_nonempty (mkAdjacency steps)).
Qed.

Lemma kinv_partition steps st :
  kinv steps st → size (visited st) = length steps → mjoin (levels st) ≡ₚ steps.
Proof.
  intros Hi Hsz. apply submseteq_length_Permutation; [by apply kinv_submseteq|].
  rewrite <-(kinv_size steps), Hsz by done. done.
Qed.

(** Levels as [BuildDAG] promises them give a rank of the names. *)
Lemma levels_acyclic steps lvls :
  NoDup (Name <$> steps) → mjoin lvls ≡ₚ steps →
  (∀ k s, atLevel lvls k s → levelOK lvls s k) → acyclic steps.
Proof.
  intros Hnd Hp Hok.
  set (P n (l : list A) := Exists (λ s, Name s = n) l).
  exists (λ n, default 0 (fst <$> list_find (P n) lvls)). intros s d Hs Hd.
  assert (∀ n k x, atLevel lvls k x → Name x = n →
    ∃ j l y, list_find (P n) lvls = Some (j, l) ∧ j ≤ k ∧ atLevel lvls j y ∧ Name y = n) as Hfind.
  { intros n k x (l & Hl & Hx) Hn.
    destruct (list_find_elem_of (P n) lvls l) as [[j l'] Hf].
    { by eapply list_elem_of_lookup_2. } { apply Exists_exists. eauto. }
    pose proof Hf as (Hj & (y & Hy & HPy)%Exists_exists & Hmin)%list_find_Some.
    exists j, l', y. split_and!; [done| |by exists l'|done].
    destruct (decide (j ≤ k)) as [|Hjk]; [done|]. exfalso.
    apply (Hmin k l); [done|lia|]. apply Exists_exists. eauto. }
  rewrite <-Hp in Hs. apply atLevel_join in Hs as [k Hk].
  destruct (Hfind _ _ _ Hk eq_refl) as (i & l & y & Hf & Hik & Hy & E).
  assert (y = s) as ->.
  { apply (elem_of_fmap_inj Name steps); [done|rewrite <-Hp; apply atLevel_join; eauto..|done]. }
  rewrite Hf. simpl. destruct (Hok _ _ Hy) as [Hdeps _].
  destruct (Hdeps d Hd) as (j & x & Hji & Hx & Ed).
  destruct (Hfind _ _ _ Hx Ed) as (j' & l' & y' & Hf' & Hj' & _ & _).
  rewrite Hf'. simpl. lia.
Qed.

(** A successful run: the input checks passed and the main loop visited every step. *)
Lemma BuildDAG_Ok_inv steps lvls :
  BuildDAG steps = Some (Ok lvls) →
  NoDup (Name <$> steps) ∧ closedDeps steps ∧
  ∃ st, kinv steps st ∧ size (visited st) = length steps ∧ lvls = levels st.
Proof.
  intros HB. destruct (first_dup steps) as [Hnd|(pre & s & post & -> & Hnd & Hs)].
  2: { exfalso. revert HB. unfold BuildDAG. rewrite decide_False by (rewrite length_app; simpl; lia).
       by rewrite (stepsByName_dup pre s post) by auto. }
  assert (closedDeps steps) as Hcl.
  { destruct (decide (length steps = 0)); [destruct steps; [intros s d Hs; by apply elem_of_nil in Hs|done]|]. intros s d Hs Hd.
    unfold BuildDAG in HB. rewrite decide_False in HB by done.
    destruct (stepsByName_Ok steps ∅ Hnd) as (m & Hm & Hin); [done|]. rewrite Hm in HB.
    destruct (checkDeps_cases steps m) as [[_ Hd']|(x & e & _ & _ & _ & E)];
      [|by rewrite E in HB].
    destruct (decide (d ∈ Name <$> steps)) as [|Hn]; [done|].
    destruct (Hd' s d Hs Hd) as [y Hy]. by rewrite (proj2 (Hin d)) in Hy by done. }
  split_and!; [done..|].
  destruct (BuildDAG_run steps Hnd Hcl) as [(st & Hi & Hq & Hsz & E)|(p & _ & E)];
    rewrite E in HB; simplify_eq. eauto.
Qed.

(** The kinds of error, each with what it says of the input. *)
Lemma BuildDAG_error_cases steps :
  (∃ lvls, BuildDAG steps = Some (Ok lvls)) ∨
  (∃ pre s post, steps = pre ++ s :: post ∧ NoDup (Name <$> pre) ∧ Name s ∈ Name <$> pre ∧
     BuildDAG steps = Some (Err (DuplicateStepName (Name s)))) ∨
  (NoDup (Name <$> steps) ∧ ∃ s d, s ∈ steps ∧ d ∈ Dependencies s ∧ d ∉ Name <$> steps ∧
     BuildDAG steps = Some (Err (MissingDependency (Name s) d))) ∨
  (NoDup (Name <$> steps) ∧ closedDeps steps ∧ ∃ p, cycle (mkAdjacency steps) p ∧
     BuildDAG steps = Some (Err (CycleDetected (String.concat " -> " p)))).
Proof.
  destruct (first_dup steps) as [Hnd|(pre & s & post & -> & Hnd & Hs)].
  2: { right. left. exists pre, s, post. do 3 (split; [done|]).
       unfold BuildDAG. rewrite decide_False by (rewrite length_app; simpl; lia).
       by rewrite (stepsByName_dup pre s post) by auto. }
  destruct (decide (length steps = 0)) as [Hz|Hz].
  { left. exists []. unfold BuildDAG. by rewrite decide_True. }
  destruct (stepsByName_Ok steps ∅ Hnd) as (m & Hm & Hin); [done|].
  destruct (checkDeps_cases steps m) as [[_ Hd]|(s & d & Hs & Hd & Hmd & E)].
  - assert (closedDeps steps) as Hcl.
    { intros s d Hs Hsd. destruct (decide (d ∈ Name <$> steps)) as [|Hn]; [done|].
      destruct (Hd s d Hs Hsd) as [y Hy]. by rewrite (proj2 (Hin d)) in Hy by done. }
    destruct (BuildDAG_run steps Hnd Hcl) as [(st & _ & _ & _ & E)|(p & Hp & E)]; [eauto|].
    do 3 right. eauto.
  - right. right. left. split; [done|]. exists s, d.
    apply Hin in Hmd as [_ Hmd]. do 3 (split; [done|]).
    unfold BuildDAG. rewrite decide_False by done. by rewrite Hm, E.
Qed.

(** C28. [BuildDAG] sorts its steps: its levels are a permutation of the steps,
    none is empty, and a step sits exactly one level above its deepest
    dependency (so every dependency of a step is in an earlier level). *)
Theorem BuildDAG_sorts steps lvls :
  BuildDAG steps = Some (Ok lvls) →
  mjoin lvls ≡ₚ steps ∧ (∀ l, l ∈ lvls → l ≠ []) ∧
  (∀ k s, atLevel lvls k s → levelOK lvls s k).
Proof.
  intros (Hnd & Hcl & st & Hi & Hsz & ->)%BuildDAG_Ok_inv.
  split_and!; [by apply kinv_partition| |intros k s Hs; apply Hi; by left].
  intros l [k Hk]%list_elem_of_lookup ->. pose proof (lookup_lt_Some _ _ _ Hk) as Hlt.
  destruct (ki_inhabited _ _ Hi k Hlt) as (s & l & Hl & Hs). simplify_eq. set_solver.
Qed.

(** [BuildDAG] succeeds exactly on the inputs it should: distinct names,
    every dependency a step of the list, and no cyclic dependency. *)
Lemma BuildDAG_succeeds_iff steps :
  (∃ lvls, BuildDAG steps = Some (Ok lvls)) ↔
  NoDup (Name <$> steps) ∧ closedDeps steps ∧ acyclic steps.
Proof.
  split.
  - intros [lvls (Hnd & Hcl & st & Hi & Hsz & ->)%BuildDAG_Ok_inv]. split_and!; [done..|].
    apply (levels_acyclic steps (levels st)); [done|by apply kinv_partition|].
    intros k s Hs. apply Hi. by left.
  - intros (Hnd & Hcl & Hac).
    destruct (BuildDAG_run steps Hnd Hcl) as [(st & _ & _ & _ & E)|(p & Hp & _)]; [eauto|].
    by apply cycle_not_acyclic in Hp.
Qed.

(** [BuildDAG] returns on every input (neither loop exhausts its fuel), and
    each error tells the truth: a name reported as duplicate is repeated, a
    dependency reported as missing is one of the named step's and names no
    step, and a reported cycle is a closed walk along the dependents graph,
    so that the fallback message listing the unvisited names is dead code. *)
Lemma BuildDAG_errors steps :
  match BuildDAG steps with
  | None => False
  | Some (Ok _) => True
  | Some (Err (DuplicateStepName n)) => ¬ NoDup (Name <$> steps) ∧ n ∈ Name <$> steps
  | Some (Err (MissingDependency n d)) =>
      ∃ s, s ∈ steps ∧ Name s = n ∧ d ∈ Dependencies s ∧ d ∉ Name <$> steps
  | Some (Err (CycleDetected cp)) =>
      ∃ n q, cp = String.concat " -> " (n :: q ++ [n]) ∧
        ∀ i a b, (n :: q ++ [n]) !! i = Some a → (n :: q ++ [n]) !! S i = Some b →
          ∃ s, s ∈ steps ∧ Name s = b ∧ a ∈ Dependencies s
  end.
Proof.
  destruct (BuildDAG_error_cases steps)
    as [(l & ->)|[(pre & s & post & -> & _ & Hs & ->)
       |[(_ & s & d & Hs & Hd & Hn & ->)|(_ & _ & p & [Hw (n & q & ->)] & ->)]]]; [done|..].
  - rewrite fmap_app, fmap_cons. split; [|set_solver].
    intros (_ & Hd & _)%NoDup_app. apply (Hd (Name s)); [done|left].
  - eauto.
  - exists n, q. split; [done|]. intros i a b Ha Hb.
    apply (walk_lookup _ _ i a b) in Hw as (x & Hx & Hxa & Hxb)%edge_steps; eauto.
Qed.
End Results.

(** ** Examples: a diamond and a cycle *)
Module DagExamples.
Record tstep := TStep { tname : string; tdeps : list string }.

#[export] Instance tstep_step : Step tstep :=
  { Name := tname; Type_ := λ _, "vm"; Dependencies := tdeps }.

Definition diamond : list tstep :=
  [TStep "d" ["b"; "c"]; TStep "b" ["a"]; TStep "c" ["a"; "a"]; TStep "a" []].

Definition loop3 : list tstep :=
  [TStep "x" ["z"]; TStep "y" ["x"]; TStep "z" ["y"; "r"]; TStep "r" []; TStep "w" ["z"]].

Definition diamond_levels : list (list tstep) :=
  [[TStep "a" []]; [TStep "b" ["a"]; TStep "c" ["a"; "a"]]; [TStep "d" ["b"; "c"]]].

Example loop3_cycle : BuildDAG loop3 = Some (Err (CycleDetected "x -> y -> z -> x")).
Proof. vm_compute. reflexivity. Qed.

Lemma BuildDAG_sorts_witness :
  BuildDAG diamond = Some (Ok diamond_levels) ∧ mjoin diamond_levels ≡ₚ diamond.
Proof.
  assert (BuildDAG diamond = Some (Ok diamond_levels)) as E by (vm_compute; reflexivity).
  split; [exact E|]. exact (proj1 (BuildDAG_sorts _ _ E)).
Defined.
End DagExamples.
