(* ===== verification/Sql.v ===== *)
(** * SQL statements over tables

    The repositories of the program run SQL statements on an SQLite database.
    The engine is not code of the repository: a statement is modelled by what
    its text asks for, a function on the rows of the tables it names, run by
    [statement], which may fail for reasons of its own (a busy or corrupt
    database) before it touches the tables.  Those failures are the list
    [faults], consumed one entry per statement. *)

From stdpp Require Import gmap strings list sorting.
From S2P Require Import Prelude Errs.

Record Db (T : Type) := Db_ {
  tables : T;
  faults : list (option error);
  clock : string;
}.
Arguments Db_ {T}.
Arguments tables {T}.
Arguments faults {T}.
Arguments clock {T}.

(** Run one statement: [f] gets CURRENT_TIMESTAMP and the tables; an [Err]
    answer is a constraint violation, which rolls the statement back. *)
Definition statement {T A} (f : string → T → result error (A * T)) : GoM (Db T) error A :=
  λ db,
    match faults db with
    | Some e :: fs => (Err e, Db_ (tables db) fs (clock db))
    | fs =>
        match f (clock db) (tables db) with
        | Ok (a, t) => (Ok a, Db_ t (tail fs) (clock db))
        | Err e => (Err e, Db_ (tables db) (tail fs) (clock db))
        end
    end.

(** A SELECT. *)
Definition query {T A} (q : T → A) : GoM (Db T) error A :=
  statement (λ _ t, Ok (q t, t)).

(** A transaction: begin, the statements of [body], commit.  When any of them
    fails, the deferred rollback leaves the tables as they were. *)
Definition transaction {T A} (body : GoM (Db T) error A) : GoM (Db T) error A := λ db,
  let rollback (d : Db T) := Db_ (tables db) (faults d) (clock d) in
  match query (λ _, ()) db with
  | (Err e, db1) => (Err e, rollback db1)
  | (Ok _, db1) =>
      match body db1 with
      | (Err e, db2) => (Err e, rollback db2)
      | (Ok a, db2) =>
          match query (λ _, ()) db2 with
          | (Err e, db3) => (Err e, rollback db3)
          | (Ok _, db3) => (Ok a, db3)
          end
      end
  end.

(** The error of a failing call wrapped by [fmt.Errorf(msg+": %w", err)]. *)
Definition wrapErr {W A} (msg : string) (m : GoM W error A) : GoM W error A := λ w,
  match m w with
  | (Err e, w') => (Err (Errorf (msg ++ ": " ++ Error e)%string (Some e)), w')
  | r => r
  end.

(** ORDER BY on a text column: stable insertion. *)
Fixpoint insertBy {A} (key : A → string) (x : A) (l : list A) : list A :=
  match l with
  | [] => [x]
  | y :: l' => if decide (String.leb (key x) (key y)) then x :: l else y :: insertBy key x l'
  end.

Definition orderBy {A} (key : A → string) (l : list A) : list A :=
  foldr (insertBy key) [] l.

Lemma insertBy_perm {A} (key : A → string) x l : insertBy key x l ≡ₚ x :: l.
Proof.
  induction l as [|y l IH]; simpl; [done|]. case_decide; [done|].
  rewrite IH. constructor.
Qed.

Lemma orderBy_perm {A} (key : A → string) l : orderBy key l ≡ₚ l.
Proof. induction l as [|x l IH]; simpl; [done|]. by rewrite insertBy_perm, IH. Qed.

Section Statement.
Context {T A : Type} (f : string → T → result error (A * T)).

(** A statement that succeeds did what its text says; one that fails did nothing. *)
Lemma statement_Ok db a db' :
  statement f db = (Ok a, db') →
  f (clock db) (tables db) = Ok (a, tables db') ∧ clock db' = clock db.
Proof.
  unfold statement. destruct (faults db) as [|[e|] fs]; [|done|];
    destruct (f _ _) as [[]|]; intros; by simplify_eq/=.
Qed.

Lemma statement_Err db e db' :
  statement f db = (Err e, db') → tables db' = tables db ∧ clock db' = clock db.
Proof.
  unfold statement. destruct (faults db) as [|[e'|] fs];
    repeat case_match; intros; by simplify_eq/=.
Qed.

(** Without faults, a statement answers what its text says. *)
Lemma statement_healthy db :
  faults db = [] →
  statement f db =
    match f (clock db) (tables db) with
    | Ok (a, t) => (Ok a, Db_ t [] (clock db))
    | Err e => (Err e, Db_ (tables db) [] (clock db))
    end.
Proof. unfold statement. by intros ->. Qed.
End Statement.

Lemma query_tables {T A} (q : T → A) db r db' :
  query q db = (r, db') → tables db' = tables db ∧ clock db' = clock db.
Proof.
  unfold query. destruct r; intros E.
  - apply statement_Ok in E as [[= _ ->] ->]. done.
  - by apply statement_Err in E.
Qed.

Lemma query_Ok {T A} (q : T → A) db a db' :
  query q db = (Ok a, db') → a = q (tables db) ∧ tables db' = tables db.
Proof. intros E. apply statement_Ok in E as [[= <- <-] _]. done. Qed.

(** ** Ordering *)

#[local] Notation ordered_by key := (λ x y, String.leb (key x) (key y) = true).

Lemma insertBy_sorted {A} (key : A → string) x l :
  Sorted (ordered_by key) l → Sorted (ordered_by key) (insertBy key x l).
Proof.
  induction 1 as [|y l Hl IH Hy]; simpl; [by repeat constructor|]. case_decide as Hxy.
  - repeat (constructor; try done). by destruct (String.leb (key x) (key y)).
  - assert (String.leb (key y) (key x) = true) as Hyx.
    { destruct (String.leb_total (key x) (key y)) as [E|E]; [|done]. by rewrite E in Hxy. }
    constructor; [done|]. destruct Hy as [|z l Hz]; simpl; [by constructor|].
    case_decide; by constructor.
Qed.

Lemma orderBy_sorted {A} (key : A → string) l : Sorted (ordered_by key) (orderBy key l).
Proof. induction l; simpl; [constructor|by apply insertBy_sorted]. Qed.

(** ** Transactions *)

(** All of the statements of a transaction happened, or none did. *)
Lemma transaction_atomic {T A} (body : GoM (Db T) error A) db r db' :
  transaction body db = (r, db') →
  match r with
  | Ok a => ∃ db1 db2, tables db1 = tables db ∧ clock db1 = clock db ∧
              body db1 = (Ok a, db2) ∧ tables db' = tables db2
  | Err _ => tables db' = tables db
  end.
Proof.
  unfold transaction. destruct (query _ db) as [[[]|e] db1] eqn:E1; [|by intros [= <- <-]].
  apply query_tables in E1 as [Ht Hc].
  destruct (body db1) as [[a|e] db2] eqn:E2; [|by intros [= <- <-]].
  destruct (query _ db2) as [[[]|e] db3] eqn:E3; intros [= <- <-]; [|done].
  apply query_tables in E3 as [Ht3 _]. exists db1, db2. by rewrite Ht3.
Qed.

(** ** Rows with a key *)
Section Rows.
Context {A : Type} (key : A → string).

(** [INSERT ... ON CONFLICT(key) DO UPDATE]: an existing row becomes [merge old]. *)
Definition upsertBy (row : A) (merge : A → A) (t : list A) : list A :=
  if decide (key row ∈ key <$> t)
  then (λ old, if decide (key old = key row) then merge old else old) <$> t
  else (t ++ [row])%list.

(** [UPDATE ... WHERE key = ?]. *)
Definition updateRow (k : string) (f : A → A) (t : list A) : list A :=
  (λ x, if decide (key x = k) then f x else x) <$> t.

Lemma updateRow_column {B} (column : A → B) k f t :
  (∀ x, column (f x) = column x) → column <$> updateRow k f t = column <$> t.
Proof.
  intros Hf. unfold updateRow. rewrite <- list_fmap_compose. apply list_fmap_ext.
  intros i x _. simpl. case_decide; [apply Hf|done].
Qed.

Lemma elem_updateRow k f t x :
  (∀ x, key (f x) = key x) →
  x ∈ updateRow k f t ↔ (x ∈ t ∧ key x ≠ k) ∨ ∃ y, y ∈ t ∧ key y = k ∧ x = f y.
Proof.
  intros Hf. unfold updateRow. rewrite list_elem_of_fmap. split.
  - intros (y & -> & Hy). case_decide; [right; eauto|left; eauto].
  - intros [[Hx Hk]|(y & Hy & Hk & ->)].
    + exists x. by rewrite decide_False.
    + exists y. by rewrite decide_True.
Qed.

Lemma upsertBy_keys row merge t :
  (∀ x, key x = key row → key (merge x) = key row) → NoDup (key <$> t) →
  NoDup (key <$> upsertBy row merge t).
Proof.
  intros Hm Hnd. unfold upsertBy. case_decide as Hin.
  - assert (key <$> ((λ old, if decide (key old = key row) then merge old else old) <$> t) = key <$> t) as ->; [|done].
    rewrite <- list_fmap_compose. apply list_fmap_ext. intros i x _. simpl.
    case_decide as Hx; [|done]. by rewrite Hm, Hx.
  - rewrite fmap_app. apply NoDup_app. split_and!; [done| |apply NoDup_singleton].
    intros k Hk Hk'%list_elem_of_singleton. simpl in Hk'. congruence.
Qed.

(** Another column stays without duplicates when the new value is not that of
    a row with another key. *)
Lemma upsertBy_column (column : A → string) row merge t :
  (∀ x, key x = key row → column (merge x) = column row) →
  (∀ x, x ∈ t → column x = column row → key x = key row) →
  NoDup (key <$> t) → NoDup (column <$> t) → NoDup (column <$> upsertBy row merge t).
Proof.
  intros Hm Hu Hk Hnd. unfold upsertBy. case_decide as Hin.
  - induction t as [|x t IH]; [constructor|]. rewrite !fmap_cons in *.
    apply NoDup_cons in Hk as [Hxk Hk]. apply NoDup_cons in Hnd as [Hx Hnd].
    apply NoDup_cons. split.
    + intros (y' & Hy' & (y & -> & Hy)%list_elem_of_fmap)%list_elem_of_fmap.
      assert (key y ≠ key x) as Hne by (intros E; apply Hxk; rewrite <- E; by apply list_elem_of_fmap_2).
      destruct (decide (key x = key row)) as [Ex|Ex], (decide (key y = key row)) as [Ey|Ey].
      * congruence.
      * rewrite Hm in Hy' by done. destruct Ey. apply Hu; [by right|done].
      * rewrite Hm in Hy' by done. destruct Ex. apply Hu; [by left|done].
      * apply Hx. rewrite Hy'. by apply list_elem_of_fmap_2.
    + destruct (decide (key row ∈ key <$> t)) as [Hin'|Hin'].
      * apply IH; [|done..]. intros z Hz. apply Hu. by right.
      * assert (((λ old, if decide (key old = key row) then merge old else old) <$> t) = t) as ->; [|done].
        rewrite <- (list_fmap_id t) at 2. apply list_fmap_ext. intros i z Hz%list_elem_of_lookup_2. simpl.
        rewrite decide_False; [done|]. intros E. apply Hin'. rewrite <- E. by apply list_elem_of_fmap_2.
  - rewrite fmap_app. apply NoDup_app. split_and!; [done| |apply NoDup_singleton].
    intros c (x & -> & Hx)%list_elem_of_fmap Hc%list_elem_of_singleton.
    apply Hin. rewrite <- (Hu x Hx Hc). by apply list_elem_of_fmap_2.
Qed.
End Rows.
