(* ===== verification/System.v ===== *)
(** * Running commands: [internal/lib/system/runner.go], [internal/infra/cast.go]

    The programs [mvm] runs ([ip], [iptables], [nft], ...) are not code of the
    repository: a world that can run them is a class, with the result a caller
    sees.  Most callers look at the exit code alone; the option [Check], which
    makes an error of it, is [CheckedRun]. *)

From Stdlib Require Import Ascii.
From stdpp Require Import strings list.
From S2P Require Import Prelude GoStrings Errs.
#[local] Open Scope string_scope.

Record RunResult := RunResult_ {
  Stdout : string;
  Stderr : string;
  RR_ExitCode : Z;
}.

Definition Success (r : RunResult) : bool := (RR_ExitCode r =? 0)%Z.

(** [system.DefaultRunner.Run]: the arguments and the text given on the
    standard input. *)
Class Runner (W : Type) := Run : list string → string → ST W RunResult.

(** The text of an exit status that is not zero. *)
Definition commandFailed (args : list string) (r : RunResult) : error :=
  let stderr := TrimSpace (Stderr r) in
  let sanitized := if (100 <? String.length stderr)%nat then stake 100 stderr ++ "..." else stderr in
  EDomain (New CodeProcessError
    ("Command failed (exit " ++ Itoa (RR_ExitCode r) ++ "): " ++ default "" (head args) ++
     (if bool_decide (sanitized = "") then "" else String (ascii_of_nat 10) sanitized)) []).

(** [Run] with the option [Check].  A command that could not be run to its end
    has the exit code -1 and an error of its own, [notRun]. *)
Definition CheckedRun {W} `{Runner W} (notRun : list string → RunResult → error) (args : list string)
    : GoM W error RunResult := λ w,
  let '(r, w') := Run args "" w in
  (if (RR_ExitCode r =? 0)%Z then Ok r
   else if (RR_ExitCode r =? -1)%Z then Err (notRun args r)
   else Err (commandFailed args r), w').

(** The characters a shell takes as they are. *)
Definition shellSafe (c : ascii) : bool :=
  let n := nat_of_ascii c in
  (((97 <=? n) && (n <=? 122)) || ((65 <=? n) && (n <=? 90)) || ((48 <=? n) && (n <=? 57)))%nat
  || existsb (Ascii.eqb c) ["@"; "%"; "_"; "+"; "="; ":"; ","; "."; "/"; "-"]%char.

(** [strings.ReplaceAll] of one character. *)
Fixpoint ReplaceAll (s : string) (old : ascii) (new : string) : string :=
  match s with
  | "" => ""
  | String c s' => (if Ascii.eqb c old then new else String c "") ++ ReplaceAll s' old new
  end.

Definition quote : string := String (ascii_of_nat 39) "".

(** An embedded quote: the quote in double quotes, between quoted parts. *)
Definition escapedQuote : string := quote ++ dquote ++ quote ++ dquote ++ quote.

Definition ShlexQuote (s : string) : string :=
  if bool_decide (s = "") then quote ++ quote
  else if allChars shellSafe s then s
  else quote ++ ReplaceAll s (ascii_of_nat 39) escapedQuote ++ quote.

(** ** Shell words *)

(** What a POSIX shell reads inside and outside of quotes, for words made of
    the two kinds of quotes and safe characters. *)
Inductive shellMode := Plain | InSingle | InDouble.

Fixpoint shellWord (m : shellMode) (s : string) : option string :=
  match s with
  | "" => match m with Plain => Some "" | _ => None end
  | String c s' =>
      let n := nat_of_ascii c in
      match m with
      | Plain =>
          if (n =? 39)%nat then shellWord InSingle s'
          else if (n =? 34)%nat then shellWord InDouble s'
          else if shellSafe c then String c <$> shellWord Plain s'
          else None
      | InSingle => if (n =? 39)%nat then shellWord Plain s' else String c <$> shellWord InSingle s'
      | InDouble =>
          if (n =? 34)%nat then shellWord Plain s'
          else if existsb (Nat.eqb n) [36; 92; 96; 33] then None
          else String c <$> shellWord InDouble s'
      end
  end.

Lemma shellWord_safe (s t : string) :
  allChars shellSafe s = true → shellWord Plain (s ++ t) = (λ r, s ++ r) <$> shellWord Plain t.
Proof.
  induction s as [|c s IH]; simpl; intros Hs.
  - change ("" ++ t) with t. by destruct (shellWord Plain t).
  - apply andb_true_iff in Hs as [Hc Hs].
    assert (nat_of_ascii c ≠ 39 ∧ nat_of_ascii c ≠ 34) as [H39 H34].
    { split; intros E; rewrite <- (ascii_nat_embedding c) in Hc; rewrite E in Hc; discriminate Hc. }
    apply Nat.eqb_neq in H39, H34. rewrite H39, H34, Hc, IH by done. simpl.
    by destruct (shellWord Plain t).
Qed.

Lemma shellWord_escaped (t : string) :
  shellWord InSingle (escapedQuote ++ t) = String (ascii_of_nat 39) <$> shellWord InSingle t.
Proof. done. Qed.

Lemma shellWord_other (c : ascii) (t : string) :
  c ≠ ascii_of_nat 39 → shellWord InSingle (String c t) = String c <$> shellWord InSingle t.
Proof.
  intros Hc. simpl. destruct (Nat.eqb_spec (nat_of_ascii c) 39) as [E|]; [|done].
  destruct Hc. by rewrite <- (ascii_nat_embedding c), E.
Qed.

Lemma shellWord_single (s t : string) :
  shellWord InSingle (ReplaceAll s (ascii_of_nat 39) escapedQuote ++ t) =
    (λ r, s ++ r) <$> shellWord InSingle t.
Proof.
  induction s as [|c s IH].
  - change (ReplaceAll "" (ascii_of_nat 39) escapedQuote ++ t) with t.
    by destruct (shellWord InSingle t).
  - cbn [ReplaceAll]. rewrite <- sapp_assoc.
    destruct (Ascii.eqb_spec c (ascii_of_nat 39)) as [->|Hc].
    + rewrite shellWord_escaped, IH. by destruct (shellWord InSingle t).
    + change (String c "" ++ ReplaceAll s (ascii_of_nat 39) escapedQuote ++ t)
        with (String c (ReplaceAll s (ascii_of_nat 39) escapedQuote ++ t)).
      rewrite shellWord_other, IH by done. by destruct (shellWord InSingle t).
Qed.

(** A POSIX shell reads the quoted form of a string back as that string,
    whatever characters it contains: the recorded command of a rule can be run
    again as it is. *)
Theorem ShlexQuote_reads (s : string) : shellWord Plain (ShlexQuote s) = Some s.
Proof.
  unfold ShlexQuote. destruct (bool_decide_reflect (s = "")) as [->|Hs]; [done|].
  destruct (allChars shellSafe s) eqn:Hsafe.
  - pose proof (shellWord_safe s "" Hsafe) as E. by rewrite sapp_nil_r in E; rewrite E; simpl; rewrite sapp_nil_r.
  - change (shellWord InSingle (ReplaceAll s (ascii_of_nat 39) escapedQuote ++ quote) = Some s).
    rewrite shellWord_single. simpl. by rewrite sapp_nil_r.
Qed.
