(* ===== verification/Version.v ===== *)
(** * Versions: [internal/lib/version/compare.go, resolver.go]

    Versions of binaries, kernels and images are strings like [v1.15.0-rc1].
    [Compare] orders them, [Resolve] picks one of a list by a partial version,
    and [isAtLeast] decides whether a feature may be used.  The order is proved
    against a reference: the lexicographic order of lists of integers. *)

From Stdlib Require Import Ascii.
From stdpp Require Import strings list sorting.
From S2P Require Import Prelude GoStrings Errs.
#[local] Open Scope string_scope.

(** ** Reading integers *)

Definition maxUint64 : Z := (2 ^ 64 - 1)%Z.

(** [strconv.ParseUint] in base 10: it stops at the first overflow, and answers
    the largest value then. *)
Fixpoint uintValue (s : string) (n : Z) : option Z :=
  match s with
  | "" => Some n
  | String c s' =>
      if isDigit c then
        let n1 := (10 * n + (Z.of_nat (nat_of_ascii c) - 48))%Z in
        if (maxUint64 <? n1)%Z then Some maxUint64 else uintValue s' n1
      else None
  end.

(** The first result of [strconv.Atoi] when its error is not looked at. *)
Definition atoiValue (s : string) : Z :=
  let '(neg, body) :=
    match s with
    | String "-"%char s' => (true, s')
    | String "+"%char s' => (false, s')
    | _ => (false, s)
    end in
  if decide (body = "") then 0%Z
  else match uintValue body 0 with
       | None => 0%Z
       | Some un =>
           if neg : bool then (if (2 ^ 63 <? un)%Z then minInt else (- un)%Z)
           else (if (2 ^ 63 <=? un)%Z then maxInt else un)
       end.

(** ** [compare.go] *)

Definition splitVersion (v : string) : list Z := atoiValue <$> Split v ".".

(** [strings.TrimSuffix]. *)
Definition TrimSuffix (s suffix : string) : string := srev (TrimPrefix (srev s) (srev suffix)).

Definition isHexDigit (c : ascii) : bool :=
  let n := nat_of_ascii c in
  (((48 <=? n) && (n <=? 57)) || ((97 <=? n) && (n <=? 102)) || ((65 <=? n) && (n <=? 70)))%nat.

Definition isHex (s : string) : bool := negb (bool_decide (s = "")) && allChars isHexDigit s.

Definition stripGitMeta (pre : string) : string :=
  let pre := TrimSuffix pre "-dirty" in
  match CutLast pre "-g" with
  | Some (before, suffix) => if isHex suffix then before else pre
  | None => pre
  end.

Definition tryParseInt (s : string) : option Z := Atoi s.

(** In ascending order of precedence. *)
Definition knownPrefixes : list string := ["dev"; "alpha"; "beta"; "rc"].

Fixpoint splitPrefixLoop (s : string) (pfxs : list string) : option (string * Z) :=
  match pfxs with
  | [] => None
  | pfx :: rest =>
      if decide (s = pfx) then Some (pfx, 0%Z)
      else if HasPrefix s pfx then
        match Atoi (TrimPrefix s pfx) with
        | Some n => Some (pfx, n)
        | None => splitPrefixLoop s rest
        end
      else splitPrefixLoop s rest
  end.

Definition splitKnownPrefix (s : string) : option (string * Z) := splitPrefixLoop s knownPrefixes.

(** The index of the last prefix that is [p], or zero. *)
Fixpoint rankFrom (p : string) (pfxs : list string) (i : Z) (rank : Z) : Z :=
  match pfxs with
  | [] => rank
  | pfx :: rest => rankFrom p rest (i + 1)%Z (if decide (pfx = p) then i else rank)
  end.

Definition comparePrefix (a b : string) : Z :=
  (rankFrom a knownPrefixes 0 0 - rankFrom b knownPrefixes 0 0)%Z.

(** One pair of segments: [None] goes on to the next one. *)
Definition compareSegment (a b : string) : option Z :=
  match tryParseInt a, tryParseInt b with
  | Some aNum, Some bNum => if decide (aNum = bNum) then None else Some (int64 (aNum - bNum))
  | Some _, None => Some (-1)%Z
  | None, Some _ => Some 1%Z
  | None, None =>
      match splitKnownPrefix a, splitKnownPrefix b with
      | Some (aPfx, aN), Some (bPfx, bN) =>
          if decide (aPfx ≠ bPfx) then Some (comparePrefix aPfx bPfx)
          else if decide (aN ≠ bN) then Some (int64 (aN - bN))
          else None
      | _, _ =>
          if decide (a = b) then None
          else if String.ltb b a then Some 1%Z else Some (-1)%Z
      end
  end.

Fixpoint compareParts (aParts bParts : list string) : option Z :=
  match aParts, bParts with
  | a :: aParts', b :: bParts' =>
      match compareSegment a b with
      | Some r => Some r
      | None => compareParts aParts' bParts'
      end
  | _, _ => None
  end.

Definition comparePreReleaseParts (a b : string) : Z :=
  let aParts := Split a "." in
  let bParts := Split b "." in
  match compareParts aParts bParts with
  | Some r => r
  | None => (Z.of_nat (length aParts) - Z.of_nat (length bParts))%Z
  end.

(** [strings.Cut], the text after the separator empty when there is none. *)
Definition cutAt (s sep : string) : string * string := default (s, "") (Cut s sep).

Fixpoint compareNums (aParts bParts : list Z) : option Z :=
  match aParts, bParts with
  | a :: aParts', b :: bParts' => if decide (a = b) then compareNums aParts' bParts' else Some (int64 (a - b))
  | _, _ => None
  end.

Definition Compare (a b : string) : Z :=
  let '(aRelease, aPre) := cutAt (TrimPrefix a "v") "-" in
  let '(bRelease, bPre) := cutAt (TrimPrefix b "v") "-" in
  let aParts := splitVersion aRelease in
  let bParts := splitVersion bRelease in
  match compareNums aParts bParts with
  | Some r => r
  | None =>
      if decide (length aParts ≠ length bParts)
      then (Z.of_nat (length aParts) - Z.of_nat (length bParts))%Z
      else if bool_decide (aPre = "") && bool_decide (bPre = "") then 0%Z
      else if bool_decide (aPre = "") then 1%Z
      else if bool_decide (bPre = "") then (-1)%Z
      else
        let aPre := stripGitMeta aPre in
        let bPre := stripGitMeta bPre in
        if decide (aPre = bPre) then 0%Z else comparePreReleaseParts aPre bPre
  end.

(** *** At least *)

Fixpoint firstDifference (vParts mParts : list Z) : option bool :=
  match vParts, mParts with
  | v :: vParts', m :: mParts' =>
      if (m <? v)%Z then Some true
      else if (v <? m)%Z then Some false
      else firstDifference vParts' mParts'
  | _, _ => None
  end.

(** Slices are nil when a version cannot be read; read ones have an element. *)
Definition isAtLeast (vParts mParts : list Z) : bool :=
  if bool_decide (vParts = []) || bool_decide (mParts = []) then false
  else match firstDifference vParts mParts with
       | Some b => b
       | None => (length mParts <=? length vParts)%nat
       end.

(** The longest prefix of digits, and the rest. *)
Fixpoint spanDigits (s : string) : string * string :=
  match s with
  | String c s' => if isDigit c then let '(d, r) := spanDigits s' in (String c d, r) else ("", s)
  | "" => ("", "")
  end.

(** What [(\.\d+)*] takes at the start of [s]: the groups, and the rest; the
    fuel is the length of the text. *)
Fixpoint dottedGroups (fuel : nat) (s : string) : string * string :=
  match fuel, s with
  | S fuel', String "."%char s' =>
      let '(d, r) := spanDigits s' in
      if decide (d = "") then ("", s)
      else let '(g, r') := dottedGroups fuel' r in ("." ++ d ++ g, r')
  | _, _ => ("", s)
  end.

(** What [\d+(\.\d+)*] takes at the start of [s], and the rest. *)
Definition numericPrefix (s : string) : option (string * string) :=
  let '(d, r) := spanDigits s in
  if decide (d = "") then None
  else let '(g, r') := dottedGroups (String.length r) r in Some (d ++ g, r').

Definition newline : ascii := ascii_of_nat 10.

(** The numeric prefix of a text without a line break after it (which the dot of
    the pattern does not match). *)
Definition versionCleanPattern (v : string) : option string :=
  match numericPrefix v with
  | Some (cleaned, rest) => if without newline rest then Some cleaned else None
  | None => None
  end.

(** [strconv.Atoi] on every part, or nil. *)
Fixpoint atoiAll (parts : list string) : option (list Z) :=
  match parts with
  | [] => Some []
  | p :: rest => n ← Atoi p; nums ← atoiAll rest; Some (n :: nums)
  end.

Definition parseVersionNums (v : string) : list Z :=
  match versionCleanPattern v with
  | None => []
  | Some cleaned => default [] (atoiAll (Split cleaned "."))
  end.

Definition IsAtLeast (ver minVersion : string) : bool :=
  isAtLeast (parseVersionNums ver) (parseVersionNums minVersion).

Definition FeatureHotplug : string := "1.16".
Definition FeatureHotUnplug : string := "1.16".
Definition IsAtLeastFor (ver f : string) : bool := IsAtLeast ver f.

(** ** [resolver.go] *)

(** The message of [strconv.Atoi]. *)
Definition atoiError (s : string) : error :=
  let body := match s with
              | String "-"%char s' => s'
              | String "+"%char s' => s'
              | _ => s
              end in
  let what := if bool_decide (body = "") then "invalid syntax"
              else match uintValue body 0 with Some _ => "value out of range" | None => "invalid syntax" end in
  Errorf ("strconv.Atoi: parsing " ++ Quote s ++ ": " ++ what) None.

Record VersionSpec := VersionSpec_ {
  Major : option Z;
  Minor : option Z;
  Patch : option Z;
  IsLatest : bool;
}.

Definition IsPartial (s : VersionSpec) : bool :=
  bool_decide (Major s = None) || bool_decide (Minor s = None) || bool_decide (Patch s = None).

(** The part of a spec at index [i], if there is one. *)
Definition specPart (spec : string) (parts : list string) (i : nat) : result error (option Z) :=
  match parts !! i with
  | None => Ok None
  | Some p =>
      match Atoi p with
      | Some n => Ok (Some n)
      | None => Err (Errorf ("invalid version spec " ++ Quote spec ++ ": " ++ Error (atoiError p)) (Some (atoiError p)))
      end
  end.

Definition ParseSpec (spec : string) : result error VersionSpec :=
  let spec := TrimSpace spec in
  if bool_decide (spec = "") || bool_decide (spec = "latest") then Ok (VersionSpec_ None None None true)
  else
    let spec := if HasPrefix spec "v" || HasPrefix spec "V" then sdrop 1 spec else spec in
    let parts := Split spec "." in
    major ← specPart spec parts 0;
    minor ← specPart spec parts 1;
    patch ← specPart spec parts 2;
    Ok (VersionSpec_ major minor patch false).

(** The name and the version of [type:version]. *)
Definition ParseSelector (selector : string) : string * string :=
  match Cut selector ":" with
  | None => ("", selector)
  | Some (prefix, value) => (prefix, value)
  end.

Definition SemverKey (v : string) : list Z :=
  default [0%Z] (atoiAll (Split (TrimPrefix v "v") ".")).

(** [less] of the descending sort. *)
Fixpoint keyGreater (ki kj : list Z) : bool :=
  match ki, kj with
  | a :: ki', b :: kj' => if decide (a = b) then keyGreater ki' kj' else (b <? a)%Z
  | _, _ => (length kj <? length ki)%nat
  end.

(** [sort.SliceStable]: insertion, from the right, before the first element
    that is not less. *)
Fixpoint insertStable {A} (less : A → A → bool) (x : A) (l : list A) : list A :=
  match l with
  | [] => [x]
  | y :: l' => if less y x then y :: insertStable less x l' else x :: l
  end.

Definition sortStable {A} (less : A → A → bool) (l : list A) : list A := foldr (insertStable less) [] l.

Definition newestFirst (versions : list string) : list string :=
  sortStable (λ vi vj, keyGreater (SemverKey vi) (SemverKey vj)) versions.

Definition specParts (spec : VersionSpec) : list Z :=
  option_list (Major spec) ++ option_list (Minor spec) ++ option_list (Patch spec).

(** Whether the leading parts of a version are those of the spec. *)
Definition matchesSpec (parts : list Z) (v : string) : bool :=
  let vParts := Split (TrimPrefix v "v") "." in
  (length parts <=? length vParts)%nat &&
  forallb (λ '(p, s), bool_decide (Atoi s = Some p)) (zip parts vParts).

(** [%v] of a list of strings. *)
Definition showList (l : list string) : string := "[" ++ Join l " " ++ "]".

Definition showPart (p : option Z) : string := match p with Some z => Itoa z | None => "<nil>" end.

(** [showSpec] is [%#v] of a spec, which prints addresses. *)
Definition Version_Resolve (showSpec : VersionSpec → string) (versions : list string) (spec : VersionSpec)
    : result error string :=
  let failed (msg : string) : result error string := Err (EDomain (New CodeVersionResolveFailed msg [])) in
  match newestFirst versions with
  | [] => failed ("No versions available to resolve spec " ++ showSpec spec)
  | (newest :: _) as sorted =>
      if IsLatest spec then Ok newest
      else if negb (IsPartial spec) then
        let target := Join (Itoa <$> specParts spec) "." in
        if existsb (λ v, bool_decide (v = target) || bool_decide (TrimPrefix v "v" = target)) versions then Ok target
        else failed ("Version '" ++ target ++ "' not found in available versions: " ++ showList versions)
      else
        match List.find (matchesSpec (specParts spec)) sorted with
        | Some v => Ok (TrimPrefix v "v")
        | None =>
            failed ("No version matching spec (major=" ++ showPart (Major spec) ++ ", minor=" ++ showPart (Minor spec) ++
                    ", patch=" ++ showPart (Patch spec) ++ ") found in available versions: " ++ showList versions)
        end
  end.

(** *** [VersionGate] *)

Definition IsSatisfiedBy (version minimum : string) : bool :=
  let vParts := parseVersionNums version in
  let mParts := parseVersionNums minimum in
  if bool_decide (vParts = []) || bool_decide (mParts = []) then false else isAtLeast vParts mParts.

Definition Require_ (binaryName version minimum : string) : result error unit :=
  if bool_decide (version = "") then
    Err (EDomain (New CodeBinaryVersionGate
      ("Cannot determine " ++ binaryName ++ " version. " ++ binaryName ++ " v" ++ minimum ++ "+ required.") []))
  else if HasPrefix version "dev-" then Ok ()
  else if negb (IsSatisfiedBy version minimum) then
    Err (EDomain (New CodeBinaryVersionGate
      (binaryName ++ " v" ++ minimum ++ "+ required for this operation (current: v" ++ version ++
       "). Stop the VM first, perform the operation, then start it again.") []))
  else Ok ().

(** *** Sorting and reading *)

(** [sort.Slice] is of the standard library: [sortSlice less] is what it makes
    of a list. *)
Definition SortVersions (sortSlice : (string → string → bool) → list string → list string)
    (versions : list string) (ascending : bool) : list string :=
  sortSlice (λ vi vj, if ascending then (0 <? Compare vj vi)%Z else (0 <? Compare vi vj)%Z) versions.

Definition IsValidVersion (v : string) : bool :=
  match numericPrefix v with Some (_, rest) => bool_decide (rest = "") | None => false end.

(** The first match of [-v?(\d+(?:\.\d+) * )] in the name. *)
Fixpoint ExtractVersionFromFilename (name : string) : option string :=
  match name with
  | "" => None
  | String c s' =>
      if Ascii.eqb c "-" then
        match numericPrefix (TrimPrefix s' "v") with
        | Some (v, _) => Some v
        | None => ExtractVersionFromFilename s'
        end
      else ExtractVersionFromFilename s'
  end.

(** ** The reference order *)

(** The lexicographic order of lists of integers, shorter lists first. *)
Fixpoint lexCompare (a b : list Z) : comparison :=
  match a, b with
  | [], [] => Eq
  | [], _ => Lt
  | _, [] => Gt
  | x :: a', y :: b' => match (x ?= y)%Z with Eq => lexCompare a' b' | c => c end
  end.

Lemma lexCompare_refl a : lexCompare a a = Eq.
Proof. induction a as [|x a IH]; [done|]. simpl. by rewrite Z.compare_refl. Qed.

Lemma lexCompare_eq a b : lexCompare a b = Eq ↔ a = b.
Proof.
  split; [|intros ->; apply lexCompare_refl]. revert b.
  induction a as [|x a IH]; intros [|y b]; simpl; try done.
  destruct (Z.compare_spec x y) as [->| |]; [|done..]. intros E. f_equal. auto.
Qed.

Lemma lexCompare_antisym a b : lexCompare b a = CompOpp (lexCompare a b).
Proof.
  revert b. induction a as [|x a IH]; intros [|y b]; simpl; try done.
  rewrite (Z.compare_antisym x y). destruct (x ?= y)%Z; simpl; auto.
Qed.

Lemma lexCompare_trans a b c : lexCompare a b ≠ Gt → lexCompare b c ≠ Gt → lexCompare a c ≠ Gt.
Proof.
  revert b c. induction a as [|x a IH]; intros [|y b] [|z c]; simpl; try done.
  destruct (Z.compare_spec x y), (Z.compare_spec y z), (Z.compare_spec x z); subst; try done; try lia.
  apply IH.
Qed.

Lemma lexCompare_cons x a b : lexCompare (x :: a) (x :: b) = lexCompare a b.
Proof. simpl. by rewrite Z.compare_refl. Qed.

Lemma lexCompare_app a x y : lexCompare (a ++ x) (a ++ y) = lexCompare x y.
Proof. induction a as [|z a IH]; [done|]. by rewrite <- !app_comm_cons, lexCompare_cons. Qed.

(** Integers whose differences fit. *)
Definition small (z : Z) : Prop := (- 2 ^ 62 <= z < 2 ^ 62)%Z.

#[export] Instance small_dec z : Decision (small z).
Proof. unfold small. apply _. Defined.

Lemma small_sub x y : small x → small y → int64 (x - y) = (x - y)%Z.
Proof. unfold small. intros ? ?. apply int64_small. unfold minInt, maxInt. lia. Qed.

Lemma sub_compare x y : (x - y ?= 0)%Z = (x ?= y)%Z.
Proof. destruct (Z.compare_spec (x - y) 0), (Z.compare_spec x y); (done || lia). Qed.

Lemma length_compare {A} (a b : list A) :
  (Z.of_nat (length a) - Z.of_nat (length b) ?= 0)%Z = (length a ?= length b)%nat.
Proof. rewrite sub_compare. apply Nat2Z.inj_compare. Qed.

(** The three comparisons of lists of integers in the code are the reference. *)
Lemma compareNums_lex a b :
  Forall small a → Forall small b →
  match compareNums a b with
  | Some r => r ≠ 0%Z ∧ (r ?= 0)%Z = lexCompare a b
  | None => lexCompare a b = (length a ?= length b)%nat
  end.
Proof.
  intros Ha. revert b. induction Ha as [|x a Hx Ha IH]; intros b Hb; [by destruct b|].
  destruct Hb as [|y b Hy Hb]; [done|]. cbn [compareNums]. case_decide as E.
  - subst y. rewrite lexCompare_cons. specialize (IH b Hb).
    destruct (compareNums a b); [done|]. by rewrite IH.
  - rewrite small_sub by done. split; [lia|]. rewrite sub_compare. simpl.
    by destruct (Z.compare_spec x y).
Qed.

Lemma keyGreater_lex a b : keyGreater a b = true ↔ lexCompare a b = Gt.
Proof.
  revert b. induction a as [|x a IH]; intros [|y b]; simpl; try done.
  case_decide as E; [subst y; rewrite Z.compare_refl; apply IH|].
  destruct (Z.compare_spec x y); try done; rewrite Z.ltb_lt; split; (done || lia).
Qed.

Lemma firstDifference_lex v m :
  match firstDifference v m with
  | Some b => lexCompare v m = if b then Gt else Lt
  | None => lexCompare v m = (length v ?= length m)%nat
  end.
Proof.
  revert m. induction v as [|x v IH]; intros [|y m]; simpl; try done.
  destruct (Z.ltb_spec y x) as [Hxy|Hxy]; [by rewrite (proj2 (Z.compare_gt_iff x y)) by lia|].
  destruct (Z.ltb_spec x y) as [Hyx|Hyx]; [by rewrite (proj2 (Z.compare_lt_iff x y)) by lia|].
  assert (x = y) as -> by lia. rewrite Z.compare_refl. apply IH.
Qed.

(** *** Feature gates *)

Lemma isAtLeast_lex v m : isAtLeast v m = true ↔ v ≠ [] ∧ m ≠ [] ∧ lexCompare v m ≠ Lt.
Proof.
  unfold isAtLeast. destruct (bool_decide (v = [])) eqn:Ev; simpl.
  { apply bool_decide_eq_true in Ev. subst. split; [done|]. by intros [[] _]. }
  destruct (bool_decide (m = [])) eqn:Em; simpl.
  { apply bool_decide_eq_true in Em. subst. split; [done|]. by intros (_ & [] & _). }
  apply bool_decide_eq_false in Ev, Em. pose proof (firstDifference_lex v m) as Hf.
  destruct (firstDifference v m) as [[|]|]; rewrite Hf.
  - split; done.
  - split; [done|]. by intros (_ & _ & []).
  - rewrite Nat.leb_le. destruct (Nat.compare_spec (length v) (length m)); split; intros; try (done || lia).
    exfalso. naive_solver.
Qed.

(** *** Keys of versions *)

(** A segment of a pre-release that is a number, or a known word with one. *)
Definition segKey (s : string) : option (list Z) :=
  match Atoi s with
  | Some n => Some [0%Z; n]
  | None => match splitKnownPrefix s with
            | Some (p, n) => Some [1%Z; rankFrom p knownPrefixes 0 0; n]
            | None => None
            end
  end.

Fixpoint segKeys (l : list string) : option (list Z) :=
  match l with
  | [] => Some []
  | s :: l' => k ← segKey s; ks ← segKeys l'; Some (k ++ ks)%list
  end.

(** The key of a version: its numbers, and its pre-release unless it is a release. *)
Definition versionKey (v : string) : option (list Z * option (list Z)) :=
  let '(release, pre) := cutAt (TrimPrefix v "v") "-" in
  if decide (pre = "") then Some (splitVersion release, None)
  else ks ← segKeys (Split (stripGitMeta pre) "."); Some (splitVersion release, Some ks).

(** By the numbers, a release after its pre-releases. *)
Definition keyCompare (a b : list Z * option (list Z)) : comparison :=
  match lexCompare a.1 b.1 with
  | Eq => match a.2, b.2 with
          | None, None => Eq
          | None, Some _ => Gt
          | Some _, None => Lt
          | Some p, Some q => lexCompare p q
          end
  | c => c
  end.

(** The versions whose pre-release is made of numbers and known words, and
    whose numbers are not astronomic. *)
Definition smallKey (k : list Z * option (list Z)) : Prop :=
  Forall small k.1 ∧ match k.2 with Some p => Forall small p | None => True end.

Definition ranked (v : string) : Prop :=
  match versionKey v with Some k => smallKey k | None => False end.

#[export] Instance smallKey_dec k : Decision (smallKey k).
Proof. unfold smallKey. destruct (k.2); apply _. Defined.
#[export] Instance ranked_dec v : Decision (ranked v).
Proof. unfold ranked. destruct (versionKey v); apply _. Defined.

Lemma keyCompare_antisym a b : keyCompare b a = CompOpp (keyCompare a b).
Proof.
  unfold keyCompare. rewrite (lexCompare_antisym a.1). destruct (lexCompare a.1 b.1); simpl; try done.
  destruct a.2, b.2; try done. apply lexCompare_antisym.
Qed.

Lemma keyCompare_trans a b c : keyCompare a b ≠ Gt → keyCompare b c ≠ Gt → keyCompare a c ≠ Gt.
Proof.
  unfold keyCompare. intros H1 H2. pose proof (lexCompare_trans a.1 b.1 c.1) as Ht.
  pose proof (lexCompare_eq a.1 b.1) as E1. pose proof (lexCompare_eq b.1 c.1) as E2.
  pose proof (lexCompare_eq a.1 c.1) as E3. pose proof (lexCompare_antisym a.1 b.1) as A1.
  destruct (lexCompare a.1 b.1) eqn:Eab; [rewrite (proj1 E1 eq_refl) in *| |done].
  - destruct (lexCompare b.1 c.1) eqn:Ebc; try done.
    destruct a.2, b.2, c.2; try done. by apply lexCompare_trans with l0.
  - destruct (lexCompare b.1 c.1) eqn:Ebc; [rewrite <- (proj1 E2 eq_refl) in *; by rewrite Eab| |done].
    destruct (lexCompare a.1 c.1) eqn:Eac; [|done|by destruct Ht].
    rewrite (proj1 E3 eq_refl) in *. rewrite Ebc in A1. done.
Qed.

Lemma keyCompare_eq a b : keyCompare a b = Eq ↔ a = b.
Proof.
  unfold keyCompare. destruct a as [r p], b as [r' p']; cbn [fst snd].
  destruct (decide (r = r')) as [->|Hne].
  - rewrite lexCompare_refl. destruct p, p'; try done. rewrite lexCompare_eq. naive_solver.
  - destruct (lexCompare r r') eqn:E; [by apply lexCompare_eq in E|..]; split; (done || congruence).
Qed.

(** *** Segments *)

Lemma splitKnownPrefix_known s p n : splitKnownPrefix s = Some (p, n) → p ∈ knownPrefixes.
Proof.
  unfold splitKnownPrefix. generalize knownPrefixes as l. induction l as [|q l IH]; cbn [splitPrefixLoop]; [done|].
  intros E. destruct (decide (s = q)); [simplify_eq; left|].
  destruct (HasPrefix s q); [|right; auto]. destruct (Atoi _); [simplify_eq; left|right; auto].
Qed.

Lemma comparePrefix_rank p q :
  p ∈ knownPrefixes → q ∈ knownPrefixes → p ≠ q →
  comparePrefix p q ≠ 0%Z ∧ rankFrom p knownPrefixes 0 0 ≠ rankFrom q knownPrefixes 0 0.
Proof.
  unfold knownPrefixes. rewrite !elem_of_cons, !elem_of_nil.
  intros [->|[->|[->|[->|[]]]]] [->|[->|[->|[->|[]]]]] Hne; (by destruct Hne) || (split; vm_compute; done).
Qed.

(** Two segments with keys compare like their keys, whatever follows. *)
Lemma compareSegment_key a b ka kb :
  segKey a = Some ka → segKey b = Some kb → Forall small ka → Forall small kb →
  match compareSegment a b with
  | None => ka = kb
  | Some r => r ≠ 0%Z ∧ ∀ x y, lexCompare (ka ++ x)%list (kb ++ y)%list = (r ?= 0)%Z
  end.
Proof.
  unfold segKey, compareSegment, tryParseInt. intros Ea Eb Hka Hkb.
  destruct (Atoi a) as [na|]; [|destruct (splitKnownPrefix a) as [[p na]|] eqn:Ep; [|done]];
    (destruct (Atoi b) as [nb|]; [|destruct (splitKnownPrefix b) as [[q nb]|] eqn:Eq; [|done]]);
    simplify_eq; rewrite ?Forall_cons in Hka, Hkb; try (split; [done|intros; reflexivity]).
  - case_decide; [congruence|]. destruct Hka as (_ & Ha & _), Hkb as (_ & Hb & _).
    rewrite small_sub by done. split; [lia|]. intros x y. simpl. rewrite sub_compare.
    by destruct (Z.compare_spec na nb).
  - destruct Hka as (_ & _ & Ha & _), Hkb as (_ & _ & Hb & _).
    apply splitKnownPrefix_known in Ep, Eq. case_decide as Hpq; [|subst q].
    + destruct (comparePrefix_rank p q Ep Eq Hpq) as [Hc Hr]. split; [done|]. intros x y.
      cbn [app lexCompare]. unfold comparePrefix. rewrite Z.compare_refl, sub_compare.
      by destruct (Z.compare_spec (rankFrom p knownPrefixes 0 0) (rankFrom q knownPrefixes 0 0)).
    + case_decide as Hn; [|by subst nb]. rewrite small_sub by done. split; [lia|].
      intros x y. cbn [app lexCompare]. rewrite !Z.compare_refl, sub_compare. by destruct (Z.compare_spec na nb).
Qed.

Lemma segKeys_cons_inv s l ks :
  segKeys (s :: l) = Some ks → ∃ k ks', segKey s = Some k ∧ segKeys l = Some ks' ∧ ks = (k ++ ks')%list.
Proof. simpl. destruct (segKey s); [|done]. destruct (segKeys l); [|done]. simpl. naive_solver. Qed.

Lemma segKey_nonempty s k : segKey s = Some k → k ≠ [].
Proof. unfold segKey. destruct (Atoi s); [naive_solver|]. destruct (splitKnownPrefix s) as [[]|]; naive_solver. Qed.

Lemma compareParts_keys la lb ka kb :
  segKeys la = Some ka → segKeys lb = Some kb → Forall small ka → Forall small kb →
  (match compareParts la lb with
   | Some r => r
   | None => (Z.of_nat (length la) - Z.of_nat (length lb))%Z
   end ?= 0)%Z = lexCompare ka kb.
Proof.
  revert lb ka kb. induction la as [|a la IH]; intros [|b lb] ka kb Ea Eb Ha Hb; cbn [compareParts].
  - simpl in *. by simplify_eq.
  - apply segKeys_cons_inv in Eb as (k & ks & Ek%segKey_nonempty & _ & ->). simpl in Ea. simplify_eq.
    rewrite length_compare. by destruct k.
  - apply segKeys_cons_inv in Ea as (k & ks & Ek%segKey_nonempty & _ & ->). simpl in Eb. simplify_eq.
    rewrite length_compare. by destruct k.
  - apply segKeys_cons_inv in Ea as (k & ks & Ek & Eks & ->).
    apply segKeys_cons_inv in Eb as (k' & ks' & Ek' & Eks' & ->).
    apply Forall_app in Ha as [Hk Hks], Hb as [Hk' Hks'].
    pose proof (compareSegment_key a b k k' Ek Ek' Hk Hk') as Hs.
    destruct (compareSegment a b) as [r|].
    + destruct Hs as [_ Hs]. by rewrite Hs.
    + subst k'. rewrite lexCompare_app, <- (IH lb ks ks') by done. rewrite !length_cons.
      destruct (compareParts la lb); [done|]. f_equal. lia.
Qed.

(** On ranked versions, [Compare] is the order of the keys. *)
Lemma Compare_reference a b ka kb :
  versionKey a = Some ka → versionKey b = Some kb → smallKey ka → smallKey kb →
  (Compare a b ?= 0)%Z = keyCompare ka kb.
Proof.
  unfold versionKey, Compare. destruct (cutAt (TrimPrefix a "v") "-") as [ra pa], (cutAt (TrimPrefix b "v") "-") as [rb pb].
  intros Ea Eb [Hra Hpa] [Hrb Hpb].
  assert (∀ r p k, (if decide (p = "") then Some (splitVersion r, None)
    else ks ← segKeys (Split (stripGitMeta p) "."); Some (splitVersion r, Some ks)) = Some k → k.1 = splitVersion r)
    as Hfst.
  { intros r p k E. case_decide; [by injection E as <-|]. destruct (segKeys (Split (stripGitMeta p) ".")); [by injection E as <-|done]. }
  pose proof (Hfst _ _ _ Ea) as Eka. pose proof (Hfst _ _ _ Eb) as Ekb. clear Hfst.
  rewrite Eka in Hra. rewrite Ekb in Hrb. unfold keyCompare. rewrite Eka, Ekb.
  pose proof (compareNums_lex _ _ Hra Hrb) as Hn.
  destruct (compareNums (splitVersion ra) (splitVersion rb)) as [r|].
  { destruct Hn as [Hr Hc]. rewrite <- Hc. destruct (Z.compare_spec r 0); done. }
  rewrite Hn. destruct (decide (length (splitVersion ra) = length (splitVersion rb))) as [Hl|Hl].
  2:{ rewrite decide_True by done. rewrite length_compare.
      by destruct (Nat.compare_spec (length (splitVersion ra)) (length (splitVersion rb))). }
  rewrite decide_False by (intros Hne; by apply Hne). rewrite Hl, Nat.compare_refl.
  destruct (decide (pa = "")) as [->|Ha], (decide (pb = "")) as [->|Hb]; simplify_eq/=; [done|..].
  - destruct (segKeys (Split (stripGitMeta pb) ".")); [|done]. simplify_eq/=. by rewrite bool_decide_eq_false_2.
  - destruct (segKeys (Split (stripGitMeta pa) ".")); [|done]. simplify_eq/=. by rewrite bool_decide_eq_false_2.
  - rewrite !bool_decide_eq_false_2 by done. cbn [andb].
    destruct (segKeys (Split (stripGitMeta pa) ".")) as [sa|] eqn:Esa; [|done].
    destruct (segKeys (Split (stripGitMeta pb) ".")) as [sb|] eqn:Esb; [|done]. simplify_eq/=.
    case_decide as Epre.
    + rewrite Epre in Esa. simplify_eq. by rewrite lexCompare_refl.
    + by apply compareParts_keys.
Qed.

Definition keyOf (v : string) : list Z * option (list Z) := default ([], None) (versionKey v).

Lemma Compare_keyOf a b : ranked a → ranked b → (Compare a b ?= 0)%Z = keyCompare (keyOf a) (keyOf b).
Proof.
  unfold ranked, keyOf. destruct (versionKey a) eqn:Ea, (versionKey b) eqn:Eb; [|done..].
  intros. by apply Compare_reference.
Qed.

Lemma Compare_le a b : ranked a → ranked b → (Compare a b <= 0)%Z ↔ keyCompare (keyOf a) (keyOf b) ≠ Gt.
Proof. intros Ha Hb. by rewrite <- Z.compare_le_iff, Compare_keyOf. Qed.

(** C40. On ranked versions (each segment of the pre-release is a number or a known
    prefix, and all numbers are in [-2^62, 2^62)) the sign of [Compare] is that of the
    lexicographic comparison of the keys: first the numbers of the release, then the
    pre-release, a release above its pre-releases, a segment that is a number below
    one with a prefix, and prefixes by their rank and number.  So [Compare] is a total
    order there: it is antisymmetric and transitive, and equates exactly the versions
    with the same numbers and the same pre-release. *)
Theorem Compare_total_order (a b c : string) :
  ranked a → ranked b → ranked c →
  (Compare a b ?= 0)%Z = keyCompare (keyOf a) (keyOf b) ∧
  (Compare a b ?= 0)%Z = CompOpp (Compare b a ?= 0)%Z ∧
  ((Compare a b <= 0)%Z → (Compare b c <= 0)%Z → (Compare a c <= 0)%Z) ∧
  (Compare a b = 0%Z ↔ versionKey a = versionKey b).
Proof.
  intros Ha Hb Hc. split_and!.
  - by apply Compare_keyOf.
  - rewrite !Compare_keyOf by done. apply keyCompare_antisym.
  - rewrite !Compare_le by done. apply keyCompare_trans.
  - rewrite <- Z.compare_eq_iff, Compare_keyOf, keyCompare_eq by done. unfold ranked, keyOf in *.
    destruct (versionKey a), (versionKey b); naive_solver.
Qed.

(** With other pre-releases it is not an order: these three are a cycle. *)
Lemma Compare_cycle :
  (Compare "1.0.0-rc2" "1.0.0-rc10" < 0)%Z ∧ (Compare "1.0.0-rc10" "1.0.0-rc1x" < 0)%Z ∧
  (Compare "1.0.0-rc1x" "1.0.0-rc2" < 0)%Z.
Proof. vm_compute. auto. Qed.

(** *** Sorting *)
Section Sorting.
Context {A : Type} (less : A → A → bool).

Lemma insertStable_perm x l : insertStable less x l ≡ₚ x :: l.
Proof. induction l as [|y l IH]; simpl; [done|]. destruct (less y x); [|done]. rewrite IH. constructor. Qed.

Lemma sortStable_perm l : sortStable less l ≡ₚ l.
Proof. induction l as [|x l IH]; simpl; [done|]. by rewrite insertStable_perm, IH. Qed.

Lemma insertStable_sorted x s :
  (∀ y, y ∈ s → less y x = true → less x y = false) →
  Sorted (λ x y, less y x = false) s → Sorted (λ x y, less y x = false) (insertStable less x s).
Proof.
  intros Hx. induction 1 as [|y s Hs IH Hy]; simpl; [by repeat constructor|].
  destruct (less y x) eqn:E; [|by repeat constructor].
  constructor; [apply IH; intros; apply Hx; [by right|done]|].
  destruct Hy as [|z s Hz]; simpl; [constructor; apply Hx; [left|done]|].
  destruct (less z x); constructor; [done|]. apply Hx; [left|done].
Qed.

Lemma sortStable_sorted l :
  (∀ x y, x ∈ l → y ∈ l → less x y = true → less y x = false) →
  Sorted (λ x y, less y x = false) (sortStable less l).
Proof.
  induction l as [|x l IH]; intros Hl; simpl; [constructor|]. apply insertStable_sorted.
  - intros y Hy. rewrite sortStable_perm in Hy. apply Hl; [by right|left].
  - apply IH. intros y z Hy Hz. apply Hl; by right.
Qed.
End Sorting.

Lemma keyGreater_asym a b : keyGreater a b = true → keyGreater b a = false.
Proof.
  rewrite keyGreater_lex. intros E. destruct (keyGreater b a) eqn:E'; [|done].
  apply keyGreater_lex in E'. rewrite (lexCompare_antisym a b), E in E'. done.
Qed.

Lemma Sorted_strongly {A} (R : A → A → Prop) l :
  (∀ x y z, x ∈ l → y ∈ l → z ∈ l → R x y → R y z → R x z) → Sorted R l → StronglySorted R l.
Proof.
  intros Ht. induction 1 as [|x l Hl IH Hx]; [constructor|].
  assert (StronglySorted R l) as Hs.
  { apply IH. intros a b c ? ? ?. apply Ht; by right. }
  constructor; [done|]. destruct Hx as [|y l Hxy]; [constructor|].
  inversion Hs as [|? ? _ Hy]; subst. constructor; [done|]. rewrite Forall_forall in *.
  intros z Hz. apply (Ht x y z); set_solver.
Qed.

Definition newer (u v : string) : Prop := lexCompare (SemverKey v) (SemverKey u) ≠ Gt.

Lemma newestFirst_sorted versions : StronglySorted newer (newestFirst versions).
Proof.
  apply Sorted_StronglySorted.
  - intros u v w. unfold newer. intros ? ?. by apply lexCompare_trans with (SemverKey v).
  - eapply Sorted_ind with (P := λ l, Sorted newer l) (R := λ x y, keyGreater (SemverKey y) (SemverKey x) = false).
    + constructor.
    + intros x l _ IH Hx. constructor; [done|]. destruct Hx as [|y l Hy]; constructor.
      unfold newer. intros E%keyGreater_lex. by rewrite Hy in E.
    + apply sortStable_sorted. intros x y _ _. apply keyGreater_asym.
Qed.

Lemma find_sorted {A} (R : A → A → Prop) `{!Reflexive R} (f : A → bool) l x :
  StronglySorted R l → List.find f l = Some x → ∀ y, y ∈ l → f y = true → R x y.
Proof.
  induction 1 as [|z l Hl IH Hz]; simpl; [done|]. destruct (f z) eqn:E.
  - intros [= <-] y Hy _. apply elem_of_cons in Hy as [->|Hy]; [done|]. rewrite Forall_forall in Hz. auto.
  - intros Hf y Hy Hfy. apply elem_of_cons in Hy as [->|Hy]; [congruence|]. auto.
Qed.

Lemma elem_newestFirst v versions : v ∈ newestFirst versions ↔ v ∈ versions.
Proof. unfold newestFirst. by rewrite sortStable_perm. Qed.

Lemma find_elem {A} (f : A → bool) l x : List.find f l = Some x → x ∈ l ∧ f x = true.
Proof. intros [Hin Hf]%List.find_some. by rewrite <- list_elem_of_In in Hin. Qed.

(** What a spec asks for, and the answer for a version of the list. *)
Definition qualifies (spec : VersionSpec) (v : string) : Prop :=
  if IsLatest spec then True
  else if IsPartial spec then matchesSpec (specParts spec) v = true
  else v = Join (Itoa <$> specParts spec) "." ∨ TrimPrefix v "v" = Join (Itoa <$> specParts spec) ".".

Definition answerFor (spec : VersionSpec) (v : string) : string :=
  if IsLatest spec then v
  else if IsPartial spec then TrimPrefix v "v"
  else Join (Itoa <$> specParts spec) ".".

(** A version spec resolves exactly when some available version qualifies:
    any for the latest, those with the same leading numbers for a partial
    spec, the same version for an exact one; unless the spec is exact, the
    answer is a newest one among those. *)
Lemma Resolve_newest (showSpec : VersionSpec → string) (versions : list string) (spec : VersionSpec) :
  match Version_Resolve showSpec versions spec with
  | Ok v => ∃ u, u ∈ versions ∧ qualifies spec u ∧ v = answerFor spec u ∧
      (IsLatest spec || IsPartial spec = true → ∀ u', u' ∈ versions → qualifies spec u' → newer u u')
  | Err _ => ∀ u, u ∈ versions → ¬ qualifies spec u
  end.
Proof.
  assert (Reflexive newer) as Hrefl by (intros u; unfold newer; by rewrite lexCompare_refl).
  unfold Version_Resolve, qualifies, answerFor. pose proof (newestFirst_sorted versions) as Hs.
  destruct (newestFirst versions) as [|newest rest] eqn:E.
  { intros u Hu%elem_newestFirst. rewrite E in Hu. by apply elem_of_nil in Hu. }
  destruct (IsLatest spec); cbn [orb].
  { exists newest. split_and!; [apply elem_newestFirst; rewrite E; left|done..|]. intros _ u Hu _.
    apply elem_newestFirst in Hu. rewrite E in Hu. apply elem_of_cons in Hu as [->|Hu]; [done|].
    inversion Hs as [|? ? _ Hn]; subst. rewrite Forall_forall in Hn. auto. }
  destruct (IsPartial spec); cbn [negb]; [rewrite <- E in Hs |- *|].
  - destruct (List.find _ _) as [v|] eqn:Ef.
    + pose proof Ef as [Hin Hm]%find_elem. exists v. split_and!; [by apply elem_newestFirst|done..|].
      intros _ u Hu Hq. apply (find_sorted newer _ _ _ Hs Ef); [|done]. by apply elem_newestFirst.
    + intros u Hu%elem_newestFirst Hq. rewrite list_elem_of_In in Hu.
      by rewrite (List.find_none _ _ Ef _ Hu) in Hq.
  - destruct (existsb _ versions) eqn:Ef.
    + apply List.existsb_exists in Ef as (u & Hu & Hq). exists u. rewrite list_elem_of_In. split_and!; [done| |done..].
      apply orb_true_iff in Hq as [Hq|Hq]; apply bool_decide_eq_true in Hq; auto.
    + intros u Hu Hq. rewrite list_elem_of_In in Hu.
      assert (existsb (λ v, bool_decide (v = Join (Itoa <$> specParts spec) ".") ||
        bool_decide (TrimPrefix v "v" = Join (Itoa <$> specParts spec) ".")) versions = true) as Et; [|congruence].
      apply List.existsb_exists. exists u. split; [done|]. apply orb_true_iff.
      destruct Hq; [left|right]; by apply bool_decide_eq_true.
Qed.

(** A feature gate admits a version exactly when both read as numbers and
    the version is not below the minimum in the lexicographic order: [1.16]
    does not reach [1.16.0]. *)
Lemma IsAtLeast_order (ver minVersion : string) :
  IsAtLeast ver minVersion = true ↔
    parseVersionNums ver ≠ [] ∧ parseVersionNums minVersion ≠ [] ∧
    lexCompare (parseVersionNums ver) (parseVersionNums minVersion) ≠ Lt.
Proof. apply isAtLeast_lex. Qed.

(** Given what [sort.Slice] promises, [SortVersions] leaves the versions in
    order, newest first or oldest first, none lost. *)
Lemma SortVersions_sorted (sortSlice : (string → string → bool) → list string → list string)
    (versions : list string) (ascending : bool) :
  (∀ less l, (∀ x y z, x ∈ l → y ∈ l → z ∈ l → less x y = false → less y z = false → less x z = false) →
             (∀ x y, x ∈ l → y ∈ l → less x y = true → less y x = false) →
             sortSlice less l ≡ₚ l ∧ StronglySorted (λ x y, less y x = false) (sortSlice less l)) →
  Forall ranked versions →
  SortVersions sortSlice versions ascending ≡ₚ versions ∧
  StronglySorted (λ u v, if ascending then (Compare u v <= 0)%Z else (Compare v u <= 0)%Z)
    (SortVersions sortSlice versions ascending).
Proof.
  intros Hsort Hr. rewrite Forall_forall in Hr. unfold SortVersions.
  set (less := λ vi vj, if ascending then (0 <? Compare vj vi)%Z else (0 <? Compare vi vj)%Z).
  assert (∀ x y, less x y = false ↔ if ascending then (Compare y x <= 0)%Z else (Compare x y <= 0)%Z) as Hless.
  { intros x y. unfold less. by destruct ascending; rewrite Z.ltb_ge. }
  destruct (Hsort less versions) as [Hp Hs].
  - intros x y z Hx%Hr Hy%Hr Hz%Hr. rewrite !Hless.
    destruct ascending; rewrite !Compare_le by done; intros; by eapply keyCompare_trans.
  - intros x y Hx%Hr Hy%Hr E. apply Hless. unfold less in E.
    destruct ascending; rewrite Compare_le by done; apply Z.ltb_lt, Z.compare_gt_iff in E;
      rewrite Compare_keyOf in E by done; rewrite keyCompare_antisym, E; done.
  - split; [done|]. clear Hr Hp. induction Hs as [|x l Hl IH Hx]; constructor; [done|].
    eapply Forall_impl; [exact Hx|]. intros y Hxy. by apply Hless in Hxy.
Qed.

Module VersionExamples.
Lemma Compare_total_order_witness :
  (Compare "1.15.0-rc2" "1.15.0-rc10" <= 0)%Z ∧ (Compare "1.15.0-rc10" "v1.15.0" <= 0)%Z ∧
  (Compare "1.15.0-rc2" "v1.15.0" <= 0)%Z ∧
  (Compare "1.15.0-rc2" "1.15.0-rc10" ?= 0)%Z =
    keyCompare ([1; 15; 0]%Z, Some [1; 3; 2]%Z) ([1; 15; 0]%Z, Some [1; 3; 10]%Z).
Proof.
  assert (Compare "1.15.0-rc2" "1.15.0-rc10" <= 0)%Z as H1 by (vm_compute; discriminate).
  assert (Compare "1.15.0-rc10" "v1.15.0" <= 0)%Z as H2 by (vm_compute; discriminate).
  assert (ranked "1.15.0-rc2" ∧ ranked "1.15.0-rc10" ∧ ranked "v1.15.0") as (Ha & Hb & Hc)
    by (split_and!; apply (bool_decide_unpack _); vm_compute; exact I).
  destruct (Compare_total_order "1.15.0-rc2" "1.15.0-rc10" "v1.15.0" Ha Hb Hc) as (Hk & _ & Ht & _).
  split_and!; [exact H1|exact H2|exact (Ht H1 H2)|exact Hk].
Defined.

Lemma SortVersions_sorted_witness :
  SortVersions sortStable ["1.2"; "1.10-rc1"; "v1.10"; "0.9"] false ≡ₚ ["1.2"; "1.10-rc1"; "v1.10"; "0.9"].
Proof.
  apply (SortVersions_sorted sortStable ["1.2"; "1.10-rc1"; "v1.10"; "0.9"] false).
  - intros less l Ht Ha. split; [apply sortStable_perm|].
    apply Sorted_strongly; [|by apply sortStable_sorted].
    intros x y z. rewrite !sortStable_perm. intros Hx Hy Hz Hxy Hyz. exact (Ht z y x Hz Hy Hx Hyz Hxy).
  - apply (bool_decide_unpack _). vm_compute. exact I.
Defined.

Lemma Resolve_example :
  Version_Resolve (λ _, "") ["v1.9.2"; "v1.10.0"; "v1.10.1-rc1"; "1.8"] (VersionSpec_ (Some 1%Z) None None false) =
    Ok "1.10.0".
Proof. vm_compute. reflexivity. Qed.
End VersionExamples.
