(* ===== verification/Disk.v ===== *)
(** * Disk sizes and root partitions: [internal/lib/disk/disk.go]

    Sizes like [2.5G] are read as bytes and printed back, and the root partition
    of an image is the one several weighted detectors agree on.  Both compute
    with [float64]: a double is an integer times a power of two, and every
    operation rounds the exact result to 53 bits, half to even.  Doubles here
    have no largest or smallest exponent; where the source can leave the range
    of a double, the definitions say so.  A conversion to [int64] of a value that
    does not fit is left to the machine by the Go specification: it is the
    parameter [outOfRange]. *)

From Stdlib Require Import Ascii.
From stdpp Require Import gmap strings list pretty.
From S2P Require Import Prelude GoStrings Errs Version.
#[local] Open Scope string_scope.

(** ** Doubles *)

(** [mant * 2 ^ expo]. *)
Record float64 := Dbl { mant : Z; expo : Z }.

(** [a / b] to the nearest integer, ties to even. *)
Definition roundDiv (a b : Z) : Z :=
  let q := (a / b)%Z in
  let r := (a mod b)%Z in
  if (2 * r <? b)%Z then q
  else if (b <? 2 * r)%Z then (q + 1)%Z
  else if Z.even q then q else (q + 1)%Z.

(** [2 ^ e] is [up e / down e]. *)
Definition up (e : Z) : Z := (2 ^ Z.max 0 e)%Z.
Definition down (e : Z) : Z := (2 ^ Z.max 0 (- e))%Z.

(** [num / den / 2 ^ e] as a fraction. *)
Definition scaled (num den e : Z) : Z * Z := (num * down e, den * up e)%Z.

(** The exponent that leaves 53 bits of [num / den]. *)
Definition exponentOf (num den : Z) : Z :=
  let e0 := (Z.log2 (Z.abs num) - Z.log2 den - 53)%Z in
  let '(n, d) := scaled num den e0 in
  if (Z.abs n <? d * 2 ^ 53)%Z then e0 else (e0 + 1)%Z.

(** The double nearest to [num / den]. *)
Definition nearest (num den : Z) : float64 :=
  if (num =? 0)%Z then Dbl 0 0
  else
    let e := exponentOf num den in
    let '(n, d) := scaled num den e in
    Dbl (roundDiv n d) e.

(** The double nearest to [m * 2 ^ e]. *)
Definition dyadic (m e : Z) : float64 := nearest (m * up e) (down e).

Definition fmul (a b : float64) : float64 := dyadic (mant a * mant b) (expo a + expo b).

(** Both mantissas at the smaller exponent. *)
Definition aligned (a b : float64) : Z * Z * Z :=
  let e := Z.min (expo a) (expo b) in
  (mant a * 2 ^ (expo a - e), mant b * 2 ^ (expo b - e), e)%Z.

Definition fadd (a b : float64) : float64 := let '(m, n, e) := aligned a b in dyadic (m + n) e.
Definition fltb (a b : float64) : bool := let '(m, n, _) := aligned a b in (m <? n)%Z.
Definition fleb (a b : float64) : bool := let '(m, n, _) := aligned a b in (m <=? n)%Z.
Definition feqb (a b : float64) : bool := let '(m, n, _) := aligned a b in (m =? n)%Z.

(** The integer part, towards zero. *)
Definition ftrunc (a : float64) : Z := Z.quot (mant a * up (expo a)) (down (expo a)).

(** A decimal constant: [0.7] is [decimal 7 1]. *)
Definition decimal (n : Z) (places : Z) : float64 := nearest n (10 ^ places).

(** At least as large as the largest double (exactly: as [2 ^ 1024]). *)
Definition infinite (a : float64) : bool := (2 ^ 1024 <=? ftrunc a)%Z.

(** [%.<places>f]. *)
Definition padZeros (width : nat) (s : string) : string :=
  String.concat "" (replicate (width - String.length s) "0") ++ s.

Definition FormatFixed (places : nat) (a : float64) : string :=
  let p := (10 ^ Z.of_nat places)%Z in
  let n := Z.abs (roundDiv (mant a * up (expo a) * p) (down (expo a))) in
  (if (mant a <? 0)%Z then "-" else "") ++ Itoa (n / p) ++
  (if (0 <? places)%nat then "." ++ padZeros places (Itoa (n mod p)) else "").

(** ** Sizes *)

(** [strings.ToUpper], of ASCII. *)
Definition upperChar (c : ascii) : ascii :=
  let n := nat_of_ascii c in if ((97 <=? n) && (n <=? 122))%nat then ascii_of_nat (n - 32) else c.
Fixpoint ToUpper (s : string) : string :=
  match s with "" => "" | String c s' => String (upperChar c) (ToUpper s') end.

Definition sizeMultipliers (unit_ : string) : option Z :=
  if decide (unit_ = "B") then Some 1%Z
  else if decide (unit_ = "K") then Some (2 ^ 10)%Z
  else if decide (unit_ = "KB") then Some (2 ^ 10)%Z
  else if decide (unit_ = "M") then Some (2 ^ 20)%Z
  else if decide (unit_ = "MB") then Some (2 ^ 20)%Z
  else if decide (unit_ = "G") then Some (2 ^ 30)%Z
  else if decide (unit_ = "GB") then Some (2 ^ 30)%Z
  else if decide (unit_ = "T") then Some (2 ^ 40)%Z
  else if decide (unit_ = "TB") then Some (2 ^ 40)%Z
  else None.

(** What [([KMGT]?B?|[kmgt]?b?)?$] takes. *)
Definition sizeUnits : list string :=
  [""; "B"; "K"; "KB"; "M"; "MB"; "G"; "GB"; "T"; "TB"; "b"; "k"; "kb"; "m"; "mb"; "g"; "gb"; "t"; "tb"].

Fixpoint dropReSpace (s : string) : string :=
  match s with String c s' => if reSpace c then dropReSpace s' else s | "" => "" end.

(** [sizePattern]: the digits before and after the point, and the unit. *)
Definition sizePattern (s : string) : option (string * string * string) :=
  let '(whole, rest) := spanDigits s in
  if decide (whole = "") then None
  else
    let '(fraction, rest) :=
      match rest with
      | String "."%char rest' =>
          let '(d, rest'') := spanDigits rest' in
          if decide (d = "") then ("", rest) else (d, rest'')
      | _ => ("", rest)
      end in
    let unit_ := dropReSpace rest in
    if decide (unit_ ∈ sizeUnits) then Some (whole, fraction, unit_) else None.

(** [strconv.ParseFloat] of such a number: the nearest double, or an error
    beyond the largest. *)
Definition ParseFloat (whole fraction : string) : option float64 :=
  n ← digits (whole ++ fraction) 0;
  let v := decimal n (Z.of_nat (String.length fraction)) in
  if infinite v then None else Some v.

(** [int64(v)] of a double that is not negative. *)
Definition toInt64 (outOfRange : Z) (v : float64) : Z :=
  if (ftrunc v <? 2 ^ 63)%Z then ftrunc v else outOfRange.

Definition ParseDiskSize (outOfRange : Z) (s : string) : result error Z :=
  let invalid (msg : string) : result error Z := Err (EDomain (New CodeValidationFailed msg [])) in
  let upper := ToUpper (TrimSpace s) in
  match sizePattern upper with
  | None => invalid ("Invalid disk size format: '" ++ upper ++
      "'. Expected format: <number><unit> where unit is B, K, KB, M, MB, G, GB, T, TB")
  | Some (whole, fraction, unit_) =>
      let unit_ := if decide (unit_ = "") then "B" else unit_ in
      let numberStr := whole ++ (if decide (fraction = "") then "" else "." ++ fraction) in
      match ParseFloat whole fraction with
      | None => invalid ("Invalid number in disk size: '" ++ numberStr ++ "'")
      | Some number =>
          match sizeMultipliers unit_ with
          | None => invalid ("Unknown size unit: '" ++ unit_ ++ "'. Valid: B, K, KB, M, MB, G, GB, T, TB")
          | Some multiplier =>
              let bytesCount := toInt64 outOfRange (fmul number (nearest multiplier 1)) in
              if (bytesCount <? 0)%Z then invalid ("Disk size cannot be negative: " ++ upper)
              else Ok bytesCount
          end
      end
  end.

(** Largest first. *)
Definition formatDiskUnits : list (string * Z) :=
  [("T", 2 ^ 40); ("G", 2 ^ 30); ("M", 2 ^ 20); ("K", 2 ^ 10)]%Z.

(** A positive number divided by a power of two. *)
Definition fdiv (a : float64) (log : Z) : float64 := Dbl (mant a) (expo a - log).

Definition FormatDiskSize (bytesCount : Z) : string :=
  if (bytesCount =? 0)%Z then "0B"
  else match List.find (λ u, (u.2 <=? bytesCount)%Z) formatDiskUnits with
       | Some (suffix, size) =>
           let value := fdiv (nearest bytesCount 1) (Z.log2 size) in
           if feqb value (nearest (ftrunc value) 1) then Itoa (ftrunc value) ++ suffix
           else FormatFixed 1 value ++ suffix
       | None => Itoa bytesCount ++ "B"
       end.

Definition FormatSectorsHumanReadable (sizeSectors sectorSize : Z) : string :=
  let sectorSize := if (sectorSize =? 0)%Z then 512%Z else sectorSize in
  let sizeMib := fdiv (nearest (int64 (sizeSectors * sectorSize)) 1) 20 in
  if fleb (nearest 1024 1) sizeMib then FormatFixed 1 (fdiv sizeMib 10) ++ " GiB"
  else FormatFixed 1 sizeMib ++ " MiB".

(** ** Root partitions *)

Definition MinRootSizeMB : Z := 500.
Definition SizeTooSmallMB : Z := 100.

Record Partition := Partition_ {
  pt_Node : string;
  pt_Size : Z;
  pt_Type : string;
  pt_Name : string;
  pt_Label : string;
  pt_Fstype : string;
  pt_Start : Z;
}.

Definition DetectorWeights (key : string) : option float64 :=
  if decide (key = "type_code") then Some (decimal 10 1)
  else if decide (key = "label") then Some (decimal 8 1)
  else if decide (key = "size") then Some (decimal 5 1)
  else if decide (key = "filesystem") then Some (decimal 7 1)
  else None.

Definition DetectorScores (key : string) : option float64 :=
  if decide (key = "root_score") then Some (decimal 10 1)
  else if decide (key = "exclude_score") then Some (decimal (-10) 1)
  else if decide (key = "neutral_score") then Some (decimal 0 1)
  else if decide (key = "mbr_linux_score") then Some (decimal 5 1)
  else if decide (key = "label_root_score") then Some (decimal 10 1)
  else if decide (key = "label_exclude_score") then Some (decimal (-5) 1)
  else if decide (key = "size_largest_score") then Some (decimal 5 1)
  else if decide (key = "size_root_score") then Some (decimal 3 1)
  else if decide (key = "size_too_small_score") then Some (decimal (-5) 1)
  else None.

Definition getDetectorScore (key : string) (defaultVal : float64) : float64 := default defaultVal (DetectorScores key).
Definition getDetectorWeight (key : string) (defaultVal : float64) : float64 := default defaultVal (DetectorWeights key).

(** The interface of detectors. *)
Record PartitionDetector := PartitionDetector_ {
  det_Name : string;
  det_Weight : float64;
  det_Score : Partition → list Partition → float64;
}.

Definition GPTRootX8664 : string := "44479540-f297-41b2-9af7-d131d5f0458a".
Definition GPTRootAarch64 : string := "4f68bce3-e8cd-4db1-96e7-fbcaf984b709".
Definition GPTESP : string := "c12a7328-f81f-11d2-ba4b-00a0c93ec93b".
Definition GPTSwap : string := "0657fd6d-a4ab-43c4-84e5-0933c84b4f4f".
Definition MBRLinux : string := "83".
Definition MBREFI : string := "ef".
Definition MBRSwap : string := "82".
Definition MBRExtended : string := "85".
Definition MBRLVM : string := "8e".

Definition TypeCodeScore (partition : Partition) (allPartitions : list Partition) : float64 :=
  let partitionType := ToLower (pt_Type partition) in
  if bool_decide (partitionType ∈ ToLower <$> [GPTRootX8664; GPTRootAarch64]) then getDetectorScore "root_score" (decimal 10 1)
  else if bool_decide (partitionType = ToLower MBRLinux) then getDetectorScore "mbr_linux_score" (decimal 5 1)
  else if bool_decide (partitionType ∈ ToLower <$> [GPTESP; GPTSwap; MBREFI; MBRSwap; MBRExtended; MBRLVM])
  then getDetectorScore "exclude_score" (decimal (-10) 1)
  else getDetectorScore "neutral_score" (decimal 0 1).

Definition TypeCodeDetector : PartitionDetector :=
  PartitionDetector_ "type_code" (getDetectorWeight "type_code" (decimal 25 2)) TypeCodeScore.

Definition LabelScore (partition : Partition) (allPartitions : list Partition) : float64 :=
  let label := ToLower (if bool_decide (pt_Name partition = "") then pt_Label partition else pt_Name partition) in
  if existsb (Contains label) ["root"; "cloudimg"; "rootfs"] then getDetectorScore "label_root_score" (decimal 10 1)
  else if existsb (Contains label) ["esp"; "efi"; "boot"; "swap"] then getDetectorScore "label_exclude_score" (decimal (-5) 1)
  else getDetectorScore "neutral_score" (decimal 0 1).

Definition LabelDetector : PartitionDetector :=
  PartitionDetector_ "label" (getDetectorWeight "label" (decimal 25 2)) LabelScore.

(** [float64(size) * 512 / 1048576]; the two factors are powers of two. *)
Definition sizeInMB (size : Z) : float64 := fdiv (nearest size 1) 11.

Definition SizeScore (partition : Partition) (allPartitions : list Partition) : float64 :=
  let sizeMB := sizeInMB (pt_Size partition) in
  let maxSizeMB := foldl (λ m p,
    if (0 <? pt_Size p)%Z && fltb m (sizeInMB (pt_Size p)) then sizeInMB (pt_Size p) else m) (decimal 0 1) allPartitions in
  if fltb sizeMB (nearest SizeTooSmallMB 1) then getDetectorScore "size_too_small_score" (decimal (-5) 1)
  else if fleb (nearest MinRootSizeMB 1) sizeMB then
    (if fleb maxSizeMB sizeMB then getDetectorScore "size_largest_score" (decimal 5 1)
     else getDetectorScore "size_root_score" (decimal 3 1))
  else getDetectorScore "neutral_score" (decimal 0 1).

Definition SizeDetector : PartitionDetector :=
  PartitionDetector_ "size" (getDetectorWeight "size" (decimal 25 2)) SizeScore.

Definition FilesystemScore (partition : Partition) (allPartitions : list Partition) : float64 :=
  let fstype := ToLower (pt_Fstype partition) in
  if bool_decide (fstype ∈ ["ext4"; "btrfs"; "xfs"; "f2fs"]) then getDetectorScore "filesystem_root_score" (decimal 5 1)
  else if bool_decide (fstype = "vfat") then getDetectorScore "filesystem_vfat_score" (decimal (-8) 1)
  else getDetectorScore "neutral_score" (decimal 0 1).

Definition FilesystemDetector : PartitionDetector :=
  PartitionDetector_ "filesystem" (getDetectorWeight "filesystem" (decimal 25 2)) FilesystemScore.

Record RootPartitionDetector := RootPartitionDetector_ {
  rd_detectors : list PartitionDetector;
  rd_disabled : gset string;
}.

Definition NewRootPartitionDetector (disabledDetectors : list string) : RootPartitionDetector :=
  RootPartitionDetector_ [TypeCodeDetector; LabelDetector; SizeDetector; FilesystemDetector]
    (list_to_set disabledDetectors).

Definition Register (d : RootPartitionDetector) (detector : PartitionDetector) : RootPartitionDetector :=
  RootPartitionDetector_ (rd_detectors d ++ [detector]) (rd_disabled d).

Definition totalScore (d : RootPartitionDetector) (partitions : list Partition) (partition : Partition) : float64 :=
  foldl (λ total detector,
    if decide (det_Name detector ∈ rd_disabled d) then total
    else fadd total (fmul (det_Weight detector) (det_Score detector partition partitions)))
    (decimal 0 1) (rd_detectors d).

(** The largest score; [None] is minus infinity. *)
Definition bestOf (scores : list float64) : option float64 :=
  foldl (λ best s, match best with
                   | Some b => if fltb b s then Some s else Some b
                   | None => Some s
                   end) None scores.

(** The positions, from one, of the scores that equal [best]. *)
Fixpoint positionsOf (best : float64) (scores : list float64) (index : Z) : list Z :=
  match scores with
  | [] => []
  | s :: rest => (if feqb s best then [index] else []) ++ positionsOf best rest (index + 1)
  end.

Definition partitionsToMaps (partitions : list Partition) : any :=
  AnyList ((λ p, AnyMap [("node", AnyString (pt_Node p)); ("size", AnyInt (pt_Size p)); ("type", AnyString (pt_Type p));
    ("name", AnyString (pt_Name p)); ("label", AnyString (pt_Label p)); ("fstype", AnyString (pt_Fstype p));
    ("start", AnyInt (pt_Start p))]) <$> partitions).

Definition Detect (d : RootPartitionDetector) (partitions : list Partition) : result error Z :=
  match partitions with
  | [] => Err (EDomain (New CodeRootPartitionDetection "no partitions to evaluate" []))
  | [_] => Ok 1%Z
  | _ =>
      let scores := totalScore d partitions <$> partitions in
      let bestScore := default (decimal 0 1) (bestOf scores) in
      match positionsOf bestScore scores 1 with
      | [i] =>
          if fltb bestScore (decimal 0 1) then
            Err (EDomain (New CodeRootPartitionDetection
              ("Best score " ++ FormatFixed 6 bestScore ++ " < 0, no suitable root partition found")
              [WithDetails {[ "partitions" := partitionsToMaps partitions ]}]))
          else Ok i
      | bestPartitions =>
          Err (EDomain (New CodeTieDetected ("tie score " ++ FormatFixed 6 bestScore)
            [WithDetails {[ "tied_partitions" := AnyList ((λ i, AnyString (Itoa i)) <$> bestPartitions) ]}]))
      end
  end.

(** ** Rounding *)

Lemma up_pos e : (0 < up e)%Z.
Proof. unfold up. lia. Qed.
Lemma down_pos e : (0 < down e)%Z.
Proof. unfold down. lia. Qed.

Lemma up_down_add a b : (up (a + b) * (down a * down b) = up a * up b * down (a + b))%Z.
Proof.
  unfold up, down. rewrite <- !Z.pow_add_r by lia. f_equal. lia.
Qed.

(** The value of a double, as a relation: [d] is exactly [num / den]. *)
Definition isValue (d : float64) (num den : Z) : Prop := (mant d * up (expo d) * den = num * down (expo d))%Z.

Lemma roundDiv_exact a b : (0 < b)%Z → roundDiv (a * b) b = a.
Proof.
  intros Hb. unfold roundDiv. rewrite Z.div_mul, Z.mod_mul by lia.
  destruct (Z.ltb_spec (2 * 0) b); lia.
Qed.

(** 53 bits are enough for a fraction that is an integer below [2 ^ 53] times a
    power of two. *)
Lemma exponentOf_small num den m e :
  (0 < num)%Z → (0 < den)%Z → (0 < m < 2 ^ 53)%Z → (num * down e = m * up e * den)%Z → (exponentOf num den <= e)%Z.
Proof.
  intros Hn Hd Hm E. unfold exponentOf, scaled.
  pose proof (Z.log2_spec num Hn) as [Hnl Hnu]. pose proof (Z.log2_spec den Hd) as [Hdl Hdu].
  pose proof (Z.log2_nonneg num). pose proof (Z.log2_nonneg den).
  rewrite (Z.abs_eq num) by lia. set (a := Z.log2 num) in *. set (b := Z.log2 den) in *.
  set (e0 := (a - b - 53)%Z). rewrite Z.abs_eq by (pose proof (down_pos e0); apply Z.mul_nonneg_nonneg; lia).
  assert (a - b - 53 <= e)%Z as He0.
  { destruct (Z.le_gt_cases (a - b - 53) e) as [|Hgt]; [done|exfalso].
    (* 2^a <= num, den < 2^(b+1), m < 2^53 *)
    assert (2 ^ a * down e < 2 ^ 53 * up e * 2 ^ Z.succ b)%Z as Hlt.
    { pose proof (down_pos e). pose proof (up_pos e).
      apply Z.le_lt_trans with (num * down e)%Z; [apply Z.mul_le_mono_nonneg_r; lia|]. rewrite E.
      apply Z.lt_trans with (2 ^ 53 * up e * den)%Z.
      - apply Z.mul_lt_mono_pos_r; [lia|]. apply Z.mul_lt_mono_pos_r; lia.
      - apply Z.mul_lt_mono_pos_l; [apply Z.mul_pos_pos|]; lia. }
    unfold up, down in Hlt. rewrite <- !Z.pow_add_r in Hlt by lia.
    apply Z.pow_lt_mono_r_iff in Hlt; lia. }
  destruct (Z.ltb_spec (num * down e0) (den * up e0 * 2 ^ 53)) as [_|Hge]; [done|].
  destruct (Z.le_gt_cases (e0 + 1) e) as [|Hgt]; [done|exfalso]. assert (e = e0) as -> by lia.
  pose proof (up_pos e0). assert (0 < den * up e0)%Z by (apply Z.mul_pos_pos; lia). nia.
Qed.

Lemma nearest_exact num den m e :
  (0 < num)%Z → (0 < den)%Z → (0 < m < 2 ^ 53)%Z → (num * down e = m * up e * den)%Z →
  isValue (nearest num den) num den.
Proof.
  intros Hn Hd Hm E. unfold nearest. rewrite (proj2 (Z.eqb_neq num 0)) by lia.
  pose proof (exponentOf_small num den m e Hn Hd Hm E) as Hle. set (x := exponentOf num den) in *.
  unfold scaled, isValue. cbn [mant expo].
  pose proof (up_down_add x (e - x)) as Hud. replace (x + (e - x))%Z with e in Hud by lia.
  assert (down (e - x) = 1)%Z as Hd1. { unfold down. by rewrite Z.max_l by lia. }
  rewrite Hd1 in Hud. pose proof (up_pos x). pose proof (down_pos x). pose proof (up_pos e). pose proof (down_pos e).
  assert (num * down x = m * up (e - x) * (den * up x))%Z as ->.
  { apply (Z.mul_cancel_r _ _ (down e)); [lia|].
    transitivity (m * den * (up e * (down x * 1)))%Z; [|rewrite Hud; ring].
    transitivity (num * down e * down x)%Z; [ring|]. rewrite E. ring. }
  rewrite roundDiv_exact by nia. nia.
Qed.

(** Doubles that are integers. *)
Definition isInt (d : float64) (z : Z) : Prop := (mant d * up (expo d) = z * down (expo d))%Z.

Lemma ftrunc_int d z : isInt d z → ftrunc d = z.
Proof. unfold isInt, ftrunc. intros ->. pose proof (down_pos (expo d)). apply Z.quot_mul. lia. Qed.

Lemma up_nonneg e : (0 <= e)%Z → up e = (2 ^ e)%Z ∧ down e = 1%Z.
Proof. intros. unfold up, down. by rewrite Z.max_r, Z.max_l by lia. Qed.

Lemma nearest_int m e : (0 <= m < 2 ^ 53)%Z → (0 <= e)%Z → isInt (nearest (m * 2 ^ e) 1) (m * 2 ^ e).
Proof.
  intros Hm He. destruct (decide (m = 0)%Z) as [->|Hne]; [done|].
  assert (0 < 2 ^ e)%Z by lia. destruct (up_nonneg e He) as [Hu Hd].
  pose proof (nearest_exact (m * 2 ^ e) 1 m e ltac:(nia) ltac:(lia) ltac:(lia)) as Hv.
  unfold isValue in Hv. unfold isInt. rewrite <- Hv; [ring|]. rewrite Hu, Hd. ring.
Qed.

Lemma fmul_int a b x y m e :
  isInt a x → isInt b y → (x * y = m * 2 ^ e)%Z → (0 <= m < 2 ^ 53)%Z → (0 <= e)%Z → isInt (fmul a b) (x * y).
Proof.
  intros Ha Hb Exy Hm He. unfold fmul, dyadic.
  set (E := (expo a + expo b)%Z). pose proof (up_down_add (expo a) (expo b)) as Hud. fold E in Hud.
  pose proof (down_pos (expo a)). pose proof (down_pos (expo b)). pose proof (down_pos E). pose proof (up_pos E).
  assert (mant a * mant b * up E = x * y * down E)%Z as Hprod.
  { apply (Z.mul_cancel_r _ _ (down (expo a) * down (expo b))); [apply Z.neq_mul_0; lia|].
    transitivity (mant a * mant b * (up E * (down (expo a) * down (expo b))))%Z; [ring|]. rewrite Hud.
    transitivity ((mant a * up (expo a)) * (mant b * up (expo b)) * down E)%Z; [ring|]. rewrite Ha, Hb. ring. }
  rewrite Hprod, Exy. destruct (decide (m = 0)%Z) as [->|Hne].
  { done. }
  destruct (up_nonneg e He) as [Hu Hd]. assert (0 < 2 ^ e)%Z by lia.
  pose proof (nearest_exact (m * 2 ^ e * down E) (down E) m e ltac:(nia) ltac:(lia) ltac:(lia)) as Hv.
  unfold isValue in Hv. unfold isInt. apply (Z.mul_cancel_r _ _ (down E)); [lia|].
  rewrite Hv; [ring|]. rewrite Hu, Hd. ring.
Qed.

Lemma fdiv_int a k z : (0 <= k)%Z → isInt a (z * 2 ^ k) → isInt (fdiv a k) z.
Proof.
  intros Hk Ha. unfold isInt, fdiv in *. cbn [mant expo].
  pose proof (up_down_add (expo a) (- k)) as Hud. replace (expo a + - k)%Z with (expo a - k)%Z in Hud by lia.
  assert (down (- k) = 2 ^ k ∧ up (- k) = 1)%Z as [Hd Hu].
  { unfold up, down. split; [f_equal; lia|]. by replace (Z.max 0 (- k)) with 0%Z by lia. }
  rewrite Hd, Hu in Hud. pose proof (down_pos (expo a)). assert (0 < 2 ^ k)%Z by lia.
  apply (Z.mul_cancel_r _ _ (down (expo a) * 2 ^ k)); [apply Z.neq_mul_0; lia|].
  transitivity (mant a * (up (expo a - k) * (down (expo a) * 2 ^ k)))%Z; [ring|]. rewrite Hud.
  transitivity (mant a * up (expo a) * down (expo a - k))%Z; [ring|]. rewrite Ha. ring.
Qed.

Lemma feqb_int a b z : isInt a z → isInt b z → feqb a b = true.
Proof.
  intros Ha Hb. unfold feqb, aligned. set (e := Z.min (expo a) (expo b)).
  assert (∀ d, isInt d z → (e <= expo d)%Z → (mant d * 2 ^ (expo d - e) * up e = z * down e)%Z) as Hd.
  { intros d Hd Hle. unfold isInt in Hd. pose proof (up_down_add e (expo d - e)) as Hud.
    replace (e + (expo d - e))%Z with (expo d) in Hud by lia.
    destruct (up_nonneg (expo d - e) ltac:(lia)) as [Hu Hd1]. rewrite Hu, Hd1 in Hud.
    pose proof (down_pos (expo d)). apply (Z.mul_cancel_r _ _ (down (expo d))); [lia|].
    transitivity (mant d * (up e * 2 ^ (expo d - e) * down (expo d)))%Z; [ring|]. rewrite <- Hud.
    transitivity (mant d * up (expo d) * down e)%Z; [ring|]. rewrite Hd. ring. }
  apply Z.eqb_eq. pose proof (up_pos e). apply (Z.mul_cancel_r _ _ (up e)); [lia|].
  rewrite !Hd by (done || lia). done.
Qed.

(** ** Texts *)

Lemma spanDigits_app d r :
  allChars isDigit d = true → spanDigits (d ++ r) = (d ++ (spanDigits r).1, (spanDigits r).2).
Proof.
  induction d as [|c d IH]; intros Hd; [apply surjective_pairing|]. simpl in Hd.
  apply andb_true_iff in Hd as [Hc Hd]. rewrite sapp_cons. cbn [spanDigits]. rewrite Hc, IH by done. done.
Qed.

Lemma digit_char c : isDigit c = true → isSpace c = false ∧ upperChar c = c.
Proof.
  unfold isDigit, isSpace, upperChar. intros Hc. apply andb_true_iff in Hc as [H1 H2].
  apply Nat.leb_le in H1, H2.
  replace (97 <=? nat_of_ascii c)%nat with false by (symmetry; apply Nat.leb_gt; lia).
  replace (nat_of_ascii c <=? 13)%nat with false by (symmetry; apply Nat.leb_gt; lia).
  replace (nat_of_ascii c =? 32)%nat with false by (symmetry; apply Nat.eqb_neq; lia).
  by rewrite andb_false_r.
Qed.

Lemma ToUpper_app s t : ToUpper (s ++ t) = ToUpper s ++ ToUpper t.
Proof. induction s as [|c s IH]; [done|]. rewrite sapp_cons. cbn [ToUpper]. by rewrite IH. Qed.

Lemma ToUpper_digits d : allChars isDigit d = true → ToUpper d = d.
Proof.
  induction d as [|c d IH]; [done|]. simpl. intros [Hc Hd]%andb_true_iff. destruct (digit_char c Hc) as [_ ->]. by rewrite IH.
Qed.

(** The units the patterns take, in capitals. *)
Definition capitalUnits : list string := [""; "B"; "K"; "KB"; "M"; "MB"; "G"; "GB"; "T"; "TB"].

Definition multiplierOf (unit_ : string) : Z := default 1%Z (sizeMultipliers unit_).

Lemma capital_unit unit_ :
  unit_ ∈ capitalUnits →
  ToUpper unit_ = unit_ ∧ spaceFree unit_ = true ∧ spanDigits unit_ = ("", unit_) ∧ unit_ ∈ sizeUnits ∧
  (∀ rest, unit_ ≠ String "." rest) ∧ dropReSpace unit_ = unit_ ∧
  (∃ k, (0 <= k)%Z ∧ sizeMultipliers (if decide (unit_ = "") then "B" else unit_) = Some (2 ^ k)%Z ∧
        multiplierOf unit_ = (2 ^ k)%Z).
Proof.
  intros Hu. unfold capitalUnits in Hu. rewrite !elem_of_cons, elem_of_nil in Hu. destruct_or! Hu; subst; try done;
    (split_and!; [done|done|done|apply (bool_decide_unpack _); vm_compute; exact I|intros rest; discriminate|done|]);
    first [ by exists 0%Z | by exists 10%Z | by exists 20%Z | by exists 30%Z | by exists 40%Z ].
Qed.

(** A whole number of units that fits is read exactly. *)
Lemma ParseDiskSize_run outOfRange n unit_ :
  (0 <= n < 2 ^ 53)%Z → unit_ ∈ capitalUnits →
  let bytesCount := (n * multiplierOf unit_)%Z in
  ParseDiskSize outOfRange (Itoa n ++ unit_) =
    if (bytesCount <? 2 ^ 63)%Z then Ok bytesCount
    else if (outOfRange <? 0)%Z
    then Err (EDomain (New CodeValidationFailed ("Disk size cannot be negative: " ++ Itoa n ++ unit_) []))
    else Ok outOfRange.
Proof.
  intros Hn Hu bytesCount. destruct (capital_unit unit_ Hu) as (Hup & Hsp & Hspan & Hin & Hdot & Hdrop & k & Hk & Hm & Hmu).
  destruct (Itoa_digits n ltac:(lia)) as (Hd & Hv & Hne). unfold ParseDiskSize.
  rewrite TrimSpace_spaceFree.
  2: { unfold spaceFree in *. rewrite allChars_app, Hsp, andb_true_r. eapply allChars_impl; [|exact Hd].
       intros c Hc. by destruct (digit_char c Hc) as [-> _]. }
  rewrite ToUpper_app, ToUpper_digits, Hup by done.
  assert (sizePattern (Itoa n ++ unit_) = Some (Itoa n, "", unit_)) as ->.
  { unfold sizePattern. rewrite spanDigits_app, Hspan by done. cbn [fst snd]. rewrite sapp_nil_r.
    destruct (decide (Itoa n = "")) as [E|_]; [done|].
    assert (match unit_ with
            | String "."%char rest' => let '(d, rest'') := spanDigits rest' in if decide (d = "") then ("", unit_) else (d, rest'')
            | _ => ("", unit_)
            end = ("", unit_)) as ->.
    { destruct unit_ as [|c u]; [done|]. destruct (Ascii.eqb_spec c ".") as [->|Hc]; [by edestruct Hdot|].
      destruct c as [[] [] [] [] [] [] [] []]; try done. }
    rewrite Hdrop. by rewrite decide_True by done. }
  cbn [fst snd]. unfold ParseFloat. rewrite sapp_nil_r, Hv. cbn [mbind option_bind String.length]. unfold decimal.
  change (10 ^ Z.of_nat 0)%Z with 1%Z.
  pose proof (nearest_int n 0 Hn ltac:(lia)) as Hni. change (2 ^ 0)%Z with 1%Z in Hni. rewrite Z.mul_1_r in Hni.
  assert (infinite (nearest n 1) = false) as ->.
  { unfold infinite. rewrite (ftrunc_int _ _ Hni). apply Z.leb_gt. etrans; [apply Hn|]. by apply Z.pow_lt_mono_r. }
  rewrite Hm. assert (isInt (nearest (2 ^ k) 1) (2 ^ k)) as Hki.
  { pose proof (nearest_int 1 k ltac:(lia) Hk) as Hx. by rewrite Z.mul_1_l in Hx. }
  pose proof (fmul_int _ _ n (2 ^ k) n k Hni Hki eq_refl Hn Hk) as Hf. unfold toInt64. rewrite (ftrunc_int _ _ Hf).
  unfold bytesCount. rewrite Hmu. destruct (Z.ltb_spec (n * 2 ^ k) (2 ^ 63)) as [Hlt|Hge].
  - rewrite (proj2 (Z.ltb_ge _ _)); [done|]. assert (0 < 2 ^ k)%Z by lia. nia.
  - by destruct (outOfRange <? 0)%Z.
Qed.

(** A whole number of units, of up to 53 bits, is read as exactly that many
    bytes, whatever the unit, as long as the bytes fit an [int64]; beyond that
    the answer depends on how the machine converts doubles: where the conversion
    gives a negative number, the size is refused. *)
Lemma ParseDiskSize_whole (outOfRange n : Z) (unit_ : string) :
  (0 <= n < 2 ^ 53)%Z → unit_ ∈ capitalUnits →
  let bytesCount := (n * multiplierOf unit_)%Z in
  if (bytesCount <? 2 ^ 63)%Z then ParseDiskSize outOfRange (Itoa n ++ unit_) = Ok bytesCount
  else if (outOfRange <? 0)%Z then ∃ e, ParseDiskSize outOfRange (Itoa n ++ unit_) = Err e
  else ParseDiskSize outOfRange (Itoa n ++ unit_) = Ok outOfRange.
Proof.
  intros Hn Hu bytesCount. rewrite (ParseDiskSize_run outOfRange n unit_ Hn Hu).
  change (n * multiplierOf unit_)%Z with bytesCount.
  destruct (bytesCount <? 2 ^ 63)%Z; [done|]. destruct (outOfRange <? 0)%Z; [by eexists|done].
Qed.

Lemma formatDiskUnits_unit suffix size :
  (suffix, size) ∈ formatDiskUnits →
  suffix ∈ capitalUnits ∧ multiplierOf suffix = size ∧ ∃ k, (10 <= k)%Z ∧ size = (2 ^ k)%Z ∧ Z.log2 size = k.
Proof.
  unfold formatDiskUnits. rewrite !elem_of_cons, elem_of_nil. intros Hu.
  destruct_or! Hu; simplify_eq; try done; (split_and!; [apply (bool_decide_unpack _); vm_compute; exact I|done|]);
    first [ by exists 10%Z | by exists 20%Z | by exists 30%Z | by exists 40%Z ].
Qed.

(** What [FormatDiskSize] prints for a number of bytes that is a whole number
    of the largest unit it reaches, [ParseDiskSize] reads back. *)
Lemma FormatDiskSize_roundtrip (outOfRange bytesCount : Z) :
  (0 <= bytesCount < 2 ^ 63)%Z →
  (∀ suffix size, List.find (λ u, (u.2 <=? bytesCount)%Z) formatDiskUnits = Some (suffix, size) → (size | bytesCount)%Z) →
  ParseDiskSize outOfRange (FormatDiskSize bytesCount) = Ok bytesCount.
Proof.
  intros Hb Hwhole. unfold FormatDiskSize. destruct (Z.eqb_spec bytesCount 0) as [->|Hne]; [done|].
  destruct (List.find _ _) as [[suffix size]|] eqn:Ef.
  - specialize (Hwhole _ _ eq_refl) as [q ->]. apply List.find_some in Ef as [Hin _].
    apply list_elem_of_In, formatDiskUnits_unit in Hin as (Hcap & Hmul & k & Hk & -> & ->).
    assert (0 < 2 ^ k)%Z by lia. assert (0 < q)%Z by nia.
    assert (q < 2 ^ 53)%Z as Hq.
    { apply Z.nle_gt. intros Hge. assert (2 ^ 53 * 2 ^ 10 <= q * 2 ^ k)%Z; [|lia].
      apply Z.mul_le_mono_nonneg; try lia. by apply Z.pow_le_mono_r. }
    pose proof (fdiv_int _ k q ltac:(lia) (nearest_int q k ltac:(lia) ltac:(lia))) as Hv.
    rewrite (ftrunc_int _ _ Hv). pose proof (nearest_int q 0 ltac:(lia) ltac:(lia)) as Hq0.
    change (2 ^ 0)%Z with 1%Z in Hq0. rewrite Z.mul_1_r in Hq0. rewrite (feqb_int _ _ q Hv Hq0).
    rewrite ParseDiskSize_run by (done || lia). rewrite Hmul. by rewrite (proj2 (Z.ltb_lt _ _)) by lia.
  - assert (bytesCount < 2 ^ 10)%Z.
    { apply Z.nle_gt. intros Hge. pose proof (List.find_none _ _ Ef ("K", 2 ^ 10)%Z) as Hn.
      cbn [snd] in Hn. rewrite (proj2 (Z.leb_le _ _)) in Hn by done. discriminate Hn. unfold formatDiskUnits. simpl. tauto. }
    rewrite ParseDiskSize_run; [|lia|apply (bool_decide_unpack _); vm_compute; exact I].
    change (multiplierOf "B") with 1%Z. rewrite Z.mul_1_r. by rewrite (proj2 (Z.ltb_lt _ _)) by lia.
Qed.

(** ** The order of doubles *)

(** A double as a multiple of [2 ^ (- K)]. *)
Definition atScale (K : Z) (d : float64) : Z := (mant d * 2 ^ (expo d + K))%Z.
Definition reaches (K : Z) (d : float64) : Prop := (0 <= expo d + K)%Z.

Lemma aligned_scale K a b :
  reaches K a → reaches K b →
  ∃ s, (0 < s)%Z ∧ atScale K a = ((aligned a b).1.1 * s)%Z ∧ atScale K b = ((aligned a b).1.2 * s)%Z.
Proof.
  unfold reaches, atScale, aligned. intros Ha Hb. cbn [fst snd].
  assert (∃ e, Z.min (expo a) (expo b) = e ∧ e <= expo a ∧ e <= expo b ∧ 0 <= e + K)%Z as (e & -> & Hea & Heb & He).
  { eexists. split; [done|]. lia. }
  exists (2 ^ (e + K))%Z. split; [by apply Z.pow_pos_nonneg|].
  rewrite <- !Z.mul_assoc, <- !Z.pow_add_r by lia. split; do 2 f_equal; lia.
Qed.

Lemma fltb_scale K a b : reaches K a → reaches K b → fltb a b = (atScale K a <? atScale K b)%Z.
Proof.
  intros Ha Hb. destruct (aligned_scale K a b Ha Hb) as (s & Hs & -> & ->). unfold fltb.
  destruct (aligned a b) as [[m n] e]. cbn [fst snd]. apply eq_bool_prop_intro. rewrite !Is_true_true, !Z.ltb_lt.
  by apply Z.mul_lt_mono_pos_r.
Qed.

Lemma feqb_scale K a b : reaches K a → reaches K b → feqb a b = (atScale K a =? atScale K b)%Z.
Proof.
  intros Ha Hb. destruct (aligned_scale K a b Ha Hb) as (s & Hs & -> & ->). unfold feqb.
  destruct (aligned a b) as [[m n] e]. cbn [fst snd]. apply eq_bool_prop_intro. rewrite !Is_true_true, !Z.eqb_eq.
  rewrite Z.mul_cancel_r by lia. done.
Qed.

Lemma common_scale (l : list float64) : ∃ K, ∀ d, d ∈ l → reaches K d.
Proof.
  unfold reaches. induction l as [|d l [K IH]]; [by exists 0%Z; intros ? ?%elem_of_nil|].
  exists (Z.max K (- expo d)). intros x [->|Hx]%elem_of_cons; [lia|]. specialize (IH x Hx). lia.
Qed.

Lemma bestOf_spec K (l : list float64) :
  (∀ d, d ∈ l → reaches K d) →
  match bestOf l with
  | Some b => b ∈ l ∧ ∀ d, d ∈ l → (atScale K d <= atScale K b)%Z
  | None => l = []
  end.
Proof.
  unfold bestOf. induction l as [|d l IH] using rev_ind; [done|]. intros Hr.
  rewrite foldl_snoc. specialize (IH ltac:(intros x Hx; apply Hr, elem_of_app; by left)).
  assert (d ∈ l ++ [d])%list as Hd by (apply elem_of_app; right; by left).
  destruct (foldl _ _ l) as [b|]; [|subst; split; [by left|intros x Hx; apply elem_of_cons in Hx as [->|Hx]; [lia|by apply elem_of_nil in Hx]]].
  destruct IH as [Hb Hmax]. rewrite (fltb_scale K) by (apply Hr; first [done|apply elem_of_app; by left]).
  destruct (Z.ltb_spec (atScale K b) (atScale K d)) as [Hlt|Hge].
  - split; [done|]. intros x [Hx|Hx%list_elem_of_singleton]%elem_of_app; [specialize (Hmax x Hx); lia|by subst].
  - split; [apply elem_of_app; by left|]. intros x [Hx|Hx%list_elem_of_singleton]%elem_of_app; [auto|by subst].
Qed.

Lemma elem_positionsOf best l index i :
  i ∈ positionsOf best l index ↔ ∃ j s, l !! j = Some s ∧ feqb s best = true ∧ i = (index + Z.of_nat j)%Z.
Proof.
  revert index. induction l as [|s l IH]; intros index; cbn [positionsOf].
  { rewrite elem_of_nil. split; [done|]. by intros (j & s & Hj & _). }
  rewrite elem_of_app, IH. split.
  - intros [Hi|(j & s' & Hj & Hs & ->)].
    + destruct (feqb s best) eqn:E; [|by apply elem_of_nil in Hi]. apply list_elem_of_singleton in Hi as ->.
      exists 0, s. split_and!; [done..|lia].
    + exists (S j), s'. split_and!; [done..|lia].
  - intros ([|j] & s' & Hj & Hs & ->); simplify_eq/=.
    + left. rewrite Hs, Z.add_0_r. by left.
    + right. exists j, s'. split_and!; [done..|lia].
Qed.

Lemma positionsOf_above best l index i : i ∈ positionsOf best l index → (index <= i)%Z.
Proof. rewrite elem_positionsOf. intros (j & s & _ & _ & ->). lia. Qed.

Lemma positionsOf_NoDup best l index : NoDup (positionsOf best l index).
Proof.
  revert index. induction l as [|s l IH]; intros index; cbn [positionsOf]; [constructor|].
  destruct (feqb s best); [|apply IH]. simpl. apply NoDup_cons. split; [|apply IH].
  intros Hi%positionsOf_above. lia.
Qed.

(** What one detection answers of the scores: the position of the one best
    score, when it is not negative. *)
Definition codeOf (e : error) : option Code :=
  match e with EDomain d => Some (Code_ d) | _ => None end.

(** Of two or more partitions [Detect] answers the position, from one, of the
    one with the highest total score, when that score is not negative and no
    other partition has it; otherwise it says whether the best score is shared or
    negative. *)
Lemma Detect_best (d : RootPartitionDetector) (partitions : list Partition) :
  (2 ≤ length partitions)%nat →
  let scores := totalScore d partitions <$> partitions in
  let zero := decimal 0 1 in
  match Detect d partitions with
  | Ok i => ∃ j s, i = (1 + Z.of_nat j)%Z ∧ scores !! j = Some s ∧ fltb s zero = false ∧
      ∀ j' s', scores !! j' = Some s' → j' ≠ j → fltb s' s = true
  | Err e => ∃ j s, scores !! j = Some s ∧ (∀ s', s' ∈ scores → fltb s s' = false) ∧
      (codeOf e = Some CodeRootPartitionDetection ∧ fltb s zero = true ∨
       codeOf e = Some CodeTieDetected ∧ ∃ j' s', scores !! j' = Some s' ∧ j' ≠ j ∧ feqb s' s = true)
  end.
Proof.
  intros Hlen scores zero. destruct (common_scale (zero :: scores)) as [K HK].
  assert (reaches K zero) as Hz by (apply HK; by left).
  assert (∀ s, s ∈ scores → reaches K s) as Hs by (intros s Hs; apply HK; by right). clear HK.
  assert (∀ j s, scores !! j = Some s → reaches K s) as Hl by (intros j s Hj; by eapply Hs, list_elem_of_lookup_2).
  unfold Detect. destruct partitions as [|p1 [|p2 rest]]; [simpl in Hlen; lia..|]. fold scores.
  pose proof (bestOf_spec K scores Hs) as Hb. destruct (bestOf scores) as [b|]; [|by subst scores].
  cbn [default from_option id]. destruct Hb as [Hbin Hmax].
  assert (∀ s, s ∈ scores → fltb b s = false) as Hbest.
  { intros s Hin. rewrite (fltb_scale K) by auto. apply Z.ltb_ge. auto. }
  apply list_elem_of_lookup in Hbin as [jb Hjb].
  assert ((1 + Z.of_nat jb)%Z ∈ positionsOf b scores 1) as Hpos.
  { apply elem_positionsOf. exists jb, b. split_and!; [done| |done]. rewrite (feqb_scale K) by eauto. apply Z.eqb_refl. }
  pose proof (positionsOf_NoDup b scores 1) as Hnd.
  assert (∀ j s, scores !! j = Some s → feqb s b = true → (1 + Z.of_nat j)%Z ∈ positionsOf b scores 1) as Hall.
  { intros j s Hj He. apply elem_positionsOf. eauto. }
  assert (∀ i, i ∈ positionsOf b scores 1 → i ≠ (1 + Z.of_nat jb)%Z →
    ∃ j' s', scores !! j' = Some s' ∧ j' ≠ jb ∧ feqb s' b = true) as Hother.
  { intros i (j' & s' & Hj' & He & ->)%elem_positionsOf Hne. exists j', s'. split_and!; [done|lia|done]. }
  destruct (positionsOf b scores 1) as [|i1 [|i2 more]]; [by apply elem_of_nil in Hpos|..].
  - apply list_elem_of_singleton in Hpos as <-. fold zero. destruct (fltb b zero) eqn:Ez.
    + exists jb, b. split_and!; [done..|]. by left.
    + exists jb, b. split_and!; [done..|]. intros j' s' Hj' Hne.
      rewrite (fltb_scale K) by eauto. apply Z.ltb_lt. pose proof (Hmax s' ltac:(by eapply list_elem_of_lookup_2)).
      destruct (decide (atScale K s' = atScale K b)) as [E|]; [|lia]. exfalso. apply Hne.
      specialize (Hall j' s' Hj'). rewrite (feqb_scale K), E, Z.eqb_refl in Hall by eauto.
      specialize (Hall eq_refl). apply list_elem_of_singleton in Hall. lia.
  - exists jb, b. split_and!; [done..|]. right. split; [done|].
    apply NoDup_cons in Hnd as [Hni _]. destruct (decide (i1 = (1 + Z.of_nat jb)%Z)) as [->|Hne].
    + apply (Hother i2); [right; by left|]. intros ->. apply Hni. by left.
    + apply (Hother i1); [by left|done].
Qed.

(** ** Examples *)
Module DiskExamples.
Definition root : Partition := Partition_ "/dev/sda1" 8388608 GPTRootX8664 "" "cloudimg-rootfs" "ext4" 227328.
Definition esp : Partition := Partition_ "/dev/sda15" 217088 GPTESP "" "UEFI" "vfat" 10240.
Definition standard : RootPartitionDetector := NewRootPartitionDetector [].

Lemma Detect_best_witness :
  Detect standard [esp; root] = Ok 2%Z ∧
  ∃ j s, 2%Z = (1 + Z.of_nat j)%Z ∧ (totalScore standard [esp; root] <$> [esp; root]) !! j = Some s ∧
    fltb s (decimal 0 1) = false ∧
    ∀ j' s', (totalScore standard [esp; root] <$> [esp; root]) !! j' = Some s' → j' ≠ j → fltb s' s = true.
Proof.
  assert (Detect standard [esp; root] = Ok 2%Z) as E by (vm_compute; reflexivity).
  split; [exact E|]. pose proof (Detect_best standard [esp; root] ltac:(simpl; lia)) as H. cbv zeta in H.
  rewrite E in H. exact H.
Defined.

(** Two equal partitions tie. *)
Lemma tie : ∃ e, Detect standard [root; root] = Err e ∧ Error e = "tie score 2.400000".
Proof. eexists. split; vm_compute; reflexivity. Qed.

Lemma ParseDiskSize_whole_witness :
  ParseDiskSize (- 2 ^ 63) (Itoa 20 ++ "GB") = Ok (20 * 2 ^ 30)%Z ∧
  ∃ e, ParseDiskSize (- 2 ^ 63) (Itoa 8388608 ++ "T") = Err e.
Proof.
  split.
  - exact (ParseDiskSize_whole (- 2 ^ 63) 20 "GB" ltac:(lia) ltac:(apply (bool_decide_unpack _); vm_compute; exact I)).
  - exact (ParseDiskSize_whole (- 2 ^ 63) 8388608 "T" ltac:(lia) ltac:(apply (bool_decide_unpack _); vm_compute; exact I)).
Defined.

Lemma FormatDiskSize_roundtrip_witness :
  FormatDiskSize (20 * 2 ^ 30) = "20G" ∧ ParseDiskSize (- 2 ^ 63) (FormatDiskSize (20 * 2 ^ 30)) = Ok (20 * 2 ^ 30)%Z.
Proof.
  split; [vm_compute; reflexivity|]. apply FormatDiskSize_roundtrip; [lia|].
  intros suffix size E. vm_compute in E. injection E as <- <-. exists 20%Z. reflexivity.
Defined.

(** Other sizes are rounded when printed, and integers above 53 bits when read. *)
Lemma rounded :
  FormatDiskSize (2 ^ 30 + 1) = "1.0G" ∧ ParseDiskSize (- 2 ^ 63) "9007199254740993" = Ok 9007199254740992%Z.
Proof. split; vm_compute; reflexivity. Qed.
End DiskExamples.
