(* ===== verification/Config.v ===== *)
(** * Settings: [internal/core/config], [infra/constants.go]

    The defaults of the program, and the table of the user's overrides.  A value
    is written as JSON and read back through [encoding/json], which makes every
    number a double: [Coerce] turns it into the type of the default.  A row keeps
    the JSON document of its text, or the error of the decoder.

    [settings_typed] says that a setting always has the type of its default, and
    [Set_GetValue] that it has the value that was set, up to 53 bits.
    [Set_keeps_port_range] is the constraint between two keys; deleting one of
    them does not look at it ([Delete_breaks_port_range]). *)

From Stdlib Require Import Ascii.
From stdpp Require Import gmap strings list pretty.
From S2P Require Import Prelude GoStrings Errs Sql Version Disk.
#[local] Open Scope string_scope.

(** ** Values *)

(** The dynamic types the code distinguishes. *)
Inductive value :=
  | VNil
  | VBool (b : bool)
  | VInt (z : Z)
  | VInt64 (z : Z)
  | VUint64 (z : Z)
  | VFloat (f : float64)
  | VString (s : string)
  | VMap (l : list (string * value))
  | VSlice (l : list value).

(** [%T]. *)
Definition TypeName (v : value) : string :=
  match v with
  | VNil => "<nil>" | VBool _ => "bool" | VInt _ => "int" | VInt64 _ => "int64" | VUint64 _ => "uint64" | VFloat _ => "float64"
  | VString _ => "string" | VMap _ => "map[string]interface {}" | VSlice _ => "[]interface {}"
  end.

Definition GoTypeName (v : value) : string :=
  match v with
  | VNil => "nil" | VBool _ => "bool" | VInt _ | VInt64 _ | VUint64 _ => "int" | VFloat _ => "float" | VString _ => "string"
  | VMap _ => "map" | VSlice _ => "slice"
  end.

(** ** JSON documents *)
Inductive json :=
  | JNull
  | JBool (b : bool)
  | JInt (z : Z)
  | JFloat (f : float64)
  | JString (s : string)
  | JArray (l : list json)
  | JObject (l : list (string * json)).

Fixpoint Marshal (v : value) : json :=
  match v with
  | VNil => JNull
  | VBool b => JBool b
  | VInt z | VInt64 z | VUint64 z => JInt z
  | VFloat f => JFloat f
  | VString s => JString s
  | VMap l => JObject (map (λ kv, (kv.1, Marshal kv.2)) l)
  | VSlice l => JArray (map Marshal l)
  end.

Fixpoint Unmarshal (j : json) : value :=
  match j with
  | JNull => VNil
  | JBool b => VBool b
  | JInt z => VFloat (nearest z 1)
  | JFloat f => VFloat f
  | JString s => VString s
  | JArray l => VSlice (map Unmarshal l)
  | JObject l => VMap (map (λ kv, (kv.1, Unmarshal kv.2)) l)
  end.

(** ** Defaults *)

Definition OverridableDefaults : list (string * list (string * value)) := [
  ("settings.vm", [
    ("max_vms", VInt 1000); ("log_lines", VInt 50); ("log_follow", VBool false); ("ssh_timeout_sec", VInt 10)]);
  ("defaults.vm", [
    ("vcpu_count", VInt 1); ("mem_size_mib", VInt 512); ("ssh_user", VString "root"); ("user_password", VString "password");
    ("dns_server", VString "1.1.1.1"); ("root_uid", VInt 0); ("root_gid", VInt 0); ("user_uid", VInt 1000); ("user_gid", VInt 1000);
    ("pci_enabled", VBool true); ("nested_virt", VBool false); ("enable_logging", VBool true); ("enable_metrics", VBool false);
    ("enable_console", VBool false); ("lsm_flags", VString "landlock,lockdown,yama,integrity,selinux,bpf");
    ("boot_args", VString "console=ttyS0 reboot=k panic=1 net.ifnames=0 rw rootwait quiet loglevel=3 no_timer_check clocksource=kvm-clock systemd.show_status=false");
    ("guest_mac_prefix", VString "02:FC"); ("vsock_port", VInt 1024); ("allow_remote_exec", VBool false); ("vsock_user", VString "root");
    ("vsock_probe_timeout", VInt 5)]);
  ("defaults.network", [("name", VString "net"); ("subnet", VString "172.27.0.0/24"); ("nat_enabled", VBool true)]);
  ("defaults.image", [
    ("import_format", VString "auto"); ("remote_list_limit", VInt 5); ("remote_list_cache_ttl", VInt 3600)]);
  ("defaults.kernel", [
    ("version", VString "6.19.9"); ("build_jobs", VNil); ("remote_list_limit", VInt 5); ("remote_list_cache_ttl", VInt 14400)]);
  ("defaults.firecracker", [
    ("log_level", VString "Debug"); ("log_filename", VString "firecracker.log");
    ("serial_output_filename", VString "firecracker.console.log"); ("metrics_filename", VString "firecracker.metrics");
    ("api_socket_filename", VString "firecracker.api.socket"); ("pid_filename", VString "firecracker.pid");
    ("config_filename", VString "firecracker.json"); ("console_socket_filename", VString "console.sock");
    ("console_pid_filename", VString "console.pid"); ("vsock_filename", VString "vsock.sock")]);
  ("defaults.volume", [("cache_type", VString "Unsafe")]);
  ("defaults.cloudinit", [
    ("iso_name", VString "cloud-init.iso"); ("nocloud_port_range_start", VInt 8000); ("nocloud_port_range_end", VInt 9000);
    ("nocloud_max_port_retries", VInt 100); ("nocloud_kill_after", VString "5m")]);
  ("defaults.binary", [("remote_version_limit", VInt 5)]);
  ("cli", [("listing_style", VString "short")]);
  ("settings", [("guestfs_enabled", VBool false); ("firewall_backend", VString "nftables")]);
  ("settings.firewall", [("iptables_xtcomment", VBool true)])
]%Z.

(** A lookup in a map that is written as the list of its entries. *)
Fixpoint entry {A} (k : string) (l : list (string * A)) : option A :=
  match l with
  | [] => None
  | (k', a) :: rest => if decide (k' = k) then Some a else entry k rest
  end.

Definition GetDefault (category key : string) : result error value :=
  match entry category OverridableDefaults with
  | None => Err (Errorf ("default category not found: " ++ category) None)
  | Some cat => match entry key cat with
                | None => Err (Errorf ("default key not found: " ++ key) None)
                | Some val => Ok val
                end
  end.

Definition OverridableSettings : list (string * list (string * string)) :=
  map (λ cat, (cat.1, map (λ kv, (kv.1, GoTypeName kv.2)) cat.2)) OverridableDefaults.

(** The empty string when there is no such setting. *)
Definition GetExpectedType (category key : string) : string :=
  match entry category OverridableSettings with None => "" | Some cat => default "" (entry key cat) end.

Definition IsKeyInCategory (category key : string) : bool :=
  match entry category OverridableSettings with
  | Some cat => bool_decide (key ∈ cat.*1)
  | None => false
  end.

(** ** Coercion *)

(** The conversion of a double to [int]; beyond the range it is the machine's. *)
Definition intOf (outOfRange : Z) (f : float64) : Z :=
  let z := ftrunc f in if ((minInt <=? z) && (z <=? maxInt))%Z then z else outOfRange.

(** The error of [strconv.Atoi]. *)
Definition AtoiError (s : string) : error :=
  let body := match s with String "-"%char s' | String "+"%char s' => s' | _ => s end in
  let range := negb (bool_decide (body = "")) && bool_decide (is_Some (digits body 0)) in
  Errorf ("strconv.Atoi: parsing " ++ Quote s ++ ": " ++ if range then "value out of range" else "invalid syntax") None.

Definition affirmative (s : string) : bool := bool_decide (ToLower (TrimSpace s) ∈ ["true"; "1"; "yes"; "on"]).

Section Coerce.
(** [strconv.ParseFloat], and [encoding/json] of a text into a map: no default is
    a double or a map. *)
Context (outOfRange : Z) (ParseFloat64 : string → result error float64)
  (parseMap : string → result error (list (string * value))).

Definition cannotCoerce (v : value) (target : string) : result error value :=
  Err (Errorf ("cannot coerce " ++ TypeName v ++ " to " ++ target) None).

Definition Coerce (v : value) (target : string) : result error value :=
  if decide (target = "bool") then
    match v with
    | VBool b => Ok (VBool b)
    | VString s => Ok (VBool (affirmative s))
    | VInt z | VInt64 z => Ok (VBool (z =? 1)%Z)
    | _ => cannotCoerce v "bool"
    end
  else if decide (target = "int") then
    match v with
    | VInt z | VInt64 z => Ok (VInt z)
    | VFloat f => Ok (VInt (intOf outOfRange f))
    | VBool b => Ok (VInt (if b then 1 else 0)%Z)
    | VString s =>
        match Atoi (TrimSpace s) with
        | Some n => Ok (VInt n)
        | None => let err := AtoiError (TrimSpace s) in
                  Err (Errorf ("cannot coerce string " ++ Quote s ++ " to int: " ++ Error err) (Some err))
        end
    | _ => cannotCoerce v "int"
    end
  else if decide (target = "float") then
    match v with
    | VFloat f => Ok (VFloat f)
    | VInt z | VInt64 z => Ok (VFloat (nearest z 1))
    | VString s =>
        match ParseFloat64 (TrimSpace s) with
        | Ok f => Ok (VFloat f)
        | Err err => Err (Errorf ("cannot coerce string " ++ Quote s ++ " to float: " ++ Error err) (Some err))
        end
    | _ => cannotCoerce v "float"
    end
  else if decide (target = "string") then
    match v with VString s => Ok (VString s) | _ => cannotCoerce v "string" end
  else if decide (target = "map") then
    match v with
    | VString s =>
        match parseMap s with
        | Ok m => Ok (VMap m)
        | Err err => Err (Errorf ("cannot coerce to map: " ++ Error err) (Some err))
        end
    | VMap m => Ok (VMap m)
    | _ => cannotCoerce v "map"
    end
  else if decide (target = "nil") then
    match v with VNil => Ok VNil | _ => cannotCoerce v "nil" end
  else Err (Errorf ("unsupported expected type: " ++ target) None).
End Coerce.

(** ** [cast.go], [validators.ToInt] *)

Definition ToString (v : value) (defaultVal : string) : string := match v with VString s => s | _ => defaultVal end.

Definition ToInt (outOfRange : Z) (v : value) (defaultVal : Z) : Z :=
  match v with
  | VInt z | VInt64 z => z
  | VFloat f => intOf outOfRange f
  | VString s => default defaultVal (Atoi s)
  | _ => defaultVal
  end.

(** [strconv.ParseBool]. *)
Definition ParseBool (s : string) : option bool :=
  if decide (s ∈ ["1"; "t"; "T"; "TRUE"; "true"; "True"]) then Some true
  else if decide (s ∈ ["0"; "f"; "F"; "FALSE"; "false"; "False"]) then Some false else None.

Definition ToBool (v : value) (defaultVal : bool) : bool :=
  match v with
  | VBool b => b
  | VString s => default defaultVal (ParseBool s)
  | VInt z | VInt64 z => negb (z =? 0)%Z
  | VFloat f => negb (feqb f (Dbl 0 0))
  | _ => defaultVal
  end.

Definition validators_ToInt (outOfRange : Z) (v : value) : result error Z :=
  match v with
  | VInt n | VInt64 n => Ok n
  | VFloat f => Ok (intOf outOfRange f)
  | VUint64 n => Ok (int64 n)
  | VNil => Err (Errorf "expected numeric value, got nil" None)
  | _ => Err (Errorf ("expected numeric value, got " ++ TypeName v) None)
  end.

(** ** The table *)

(** [model.Setting].  The text of the value, decoded: a document or the error of
    the decoder. *)
Record Setting := Setting_ { st_Category : string; st_Key : string; st_Value : result error json; st_UpdatedAt : string }.

Record SettingInfo := SettingInfo_ { si_Type : string; si_Default : value; si_Override : value }.

Class SettingsRepository (W : Type) := {
  cfr_Get : string → string → GoM W error value;
  cfr_Set : string → string → value → GoM W error unit;
  cfr_Delete : string → string → GoM W error bool;
  cfr_DeleteByCategory : string → GoM W error Z;
  cfr_DeleteAll : GoM W error Z;
  cfr_Count : GoM W error Z;
  cfr_ListByCategory : option string → GoM W error (gmap string (gmap string value));
}.

Section Sqlite.
#[local] Notation T := (list Setting).
#[local] Notation M := (GoM (Db T) error).

(** The row of the primary key. *)
Definition keyedBy (category key : string) (s : Setting) : Prop := st_Category s = category ∧ st_Key s = key.
#[global] Instance keyedBy_dec category key s : Decision (keyedBy category key s).
Proof. unfold keyedBy. apply _. Defined.

Definition cfgsqlite_Get (category key : string) : M value :=
  row ← query (λ t : T, head (filter (keyedBy category key) t));
  match row with
  | None => mret VNil
  | Some s => match st_Value s with
              | Ok doc => mret (Unmarshal doc)
              | Err err => throw (Errorf ("parse setting value: " ++ Error err) (Some err))
              end
  end.

Definition setRow (category key : string) (doc : json) (now : string) (t : T) : T :=
  if decide (Exists (keyedBy category key) t)
  then (λ s, if decide (keyedBy category key s) then Setting_ category key (Ok doc) now else s) <$> t
  else (t ++ [Setting_ category key (Ok doc) now])%list.

Definition cfgsqlite_Set (category key : string) (v : value) : M unit :=
  statement (λ now t, Ok ((), setRow category key (Marshal v) now t)).

(** Delete the rows of a kind; their number. *)
Definition deleteRows (P : Setting → Prop) `{∀ s, Decision (P s)} : M Z :=
  statement (λ _ (t : T), Ok (Z.of_nat (length (filter P t)), filter (λ s, ¬ P s) t)).

Definition cfgsqlite_Delete (category key : string) : M bool :=
  rows ← deleteRows (keyedBy category key); mret (0 <? rows)%Z.
Definition cfgsqlite_DeleteByCategory (category : string) : M Z := deleteRows (λ s, st_Category s = category).
Definition cfgsqlite_DeleteAll : M Z := deleteRows (λ _, True).
Definition cfgsqlite_Count : M Z := query (λ t : T, Z.of_nat (length t)).

(** The rows into a map of maps. *)
Fixpoint collectSettings (rows : T) (result : gmap string (gmap string value)) : Prelude.result error (gmap string (gmap string value)) :=
  match rows with
  | [] => Ok result
  | s :: rest =>
      match st_Value s with
      | Err err => Err (Errorf ("parse setting value for " ++ st_Category s ++ "." ++ st_Key s ++ ": " ++ Error err) (Some err))
      | Ok doc =>
          collectSettings rest
            (<[st_Category s := <[st_Key s := Unmarshal doc]> (default ∅ (result !! st_Category s))]> result)
      end
  end.

Definition cfgsqlite_ListByCategory (category : option string) : M (gmap string (gmap string value)) :=
  settings ← wrapErr "query settings" (query (λ t : T,
    let rows := match category with Some c => filter (λ s, st_Category s = c) t | None => t end in
    orderBy st_Category (orderBy st_Key rows)));
  match collectSettings settings ∅ with Ok m => mret m | Err err => throw err end.

Definition cfgSqliteRepo : SettingsRepository (Db T) := {|
  cfr_Get := cfgsqlite_Get; cfr_Set := cfgsqlite_Set; cfr_Delete := cfgsqlite_Delete;
  cfr_DeleteByCategory := cfgsqlite_DeleteByCategory; cfr_DeleteAll := cfgsqlite_DeleteAll; cfr_Count := cfgsqlite_Count;
  cfr_ListByCategory := cfgsqlite_ListByCategory;
|}.
End Sqlite.

(** ** Constraints *)
Section Constraints.
Context {W : Type}.
#[local] Notation M := (GoM W error).

(** The key and, unless it is that of the setting, the category. *)
Definition ResolveFn : Type := string → option string → M value.
Definition Constraint : Type := string → ResolveFn → M unit.
Definition TransformFunc : Type := string → value → result error value.

Record ConstraintRegistry := ConstraintRegistry_ {
  constraints : gmap (string * string) (list Constraint);
  transforms : gmap (string * string) (list TransformFunc);
}.

Definition NewConstraintRegistry : ConstraintRegistry := ConstraintRegistry_ ∅ ∅.

(** [m[pair] = append(m[pair], x)] for each key. *)
Definition appendAll {A} (category : string) (keys : list string) (x : A) (m : gmap (string * string) (list A)) :=
  foldl (λ m key, <[(category, key) := (default [] (m !! (category, key)) ++ [x])%list]> m) m keys.

Definition Register_ (category : string) (keys : list string) (c : Constraint) (r : ConstraintRegistry) : ConstraintRegistry :=
  ConstraintRegistry_ (appendAll category keys c (constraints r)) (transforms r).
Definition RegisterTransform (category : string) (keys : list string) (f : TransformFunc) (r : ConstraintRegistry) : ConstraintRegistry :=
  ConstraintRegistry_ (constraints r) (appendAll category keys f (transforms r)).

Definition cfg_Constraints (r : ConstraintRegistry) (category key : string) : list Constraint :=
  default [] (constraints r !! (category, key)).
Definition GetTransforms (r : ConstraintRegistry) (category key : string) : list TransformFunc :=
  default [] (transforms r !! (category, key)).

(** [%v] of doubles, maps and slices. *)
Context (outOfRange : Z) (showOther : value → string).

Definition showV (v : value) : string :=
  match v with
  | VNil => "<nil>" | VBool b => if b then "true" else "false" | VInt z | VInt64 z | VUint64 z => Itoa z | VString s => s
  | _ => showOther v
  end.

Definition configError (msg : string) : error := EDomain (New CodeConfigError msg []).

Definition ofResult {A} (r : result error A) : M A := match r with Ok a => mret a | Err err => throw err end.

Definition validateNoCloudPortRange : Constraint := λ key resolve,
  startRaw ← resolve "nocloud_port_range_start" None;
  endRaw ← resolve "nocloud_port_range_end" None;
  start ← ofResult (validators_ToInt outOfRange startRaw);
  end_ ← ofResult (validators_ToInt outOfRange endRaw);
  if (end_ <=? start)%Z then
    throw (configError ("nocloud_port_range_end (" ++ Itoa end_ ++ ") must be greater than nocloud_port_range_start (" ++ Itoa start ++ ")"))
  else mret ().

Definition macPrefixRE (s : string) : bool :=
  match s with
  | String a (String b (String ":" (String c (String d "")))) => isHexDigit a && isHexDigit b && isHexDigit c && isHexDigit d
  | _ => false
  end.

Definition validateMACPrefix : Constraint := λ key resolve,
  prefixRaw ← resolve "guest_mac_prefix" None;
  let prefix := showV prefixRaw in
  if macPrefixRE prefix then mret ()
  else throw (configError ("Invalid MAC prefix '" ++ prefix ++ "'. Must be two hex bytes separated by a colon (e.g. '02:FC').")).

Definition CacheTypeWriteback : string := "Writeback".
Definition CacheTypeUnsafe : string := "Unsafe".

Definition NormalizeCacheType : TransformFunc := λ key v,
  match v with
  | VNil => Ok (VString CacheTypeUnsafe)
  | _ =>
      let s := showV v in
      match s with
      | "" => Ok (VString CacheTypeUnsafe)
      | String c rest =>
          let norm := ToUpper (String c "") ++ ToLower rest in
          if negb (bool_decide (norm = CacheTypeWriteback)) && negb (bool_decide (norm = CacheTypeUnsafe))
          then Err (configError ("Invalid cache type '" ++ s ++ "'. Must be 'Unsafe' or 'Writeback'."))
          else Ok (VString norm)
      end
  end.

Definition RegisterBuiltinConstraints (r : ConstraintRegistry) : ConstraintRegistry :=
  RegisterTransform "defaults.volume" ["cache_type"] NormalizeCacheType
    (Register_ "defaults.vm" ["guest_mac_prefix"] validateMACPrefix
       (Register_ "defaults.cloudinit" ["nocloud_port_range_start"; "nocloud_port_range_end"] validateNoCloudPortRange r)).
End Constraints.
Arguments ConstraintRegistry : clear implicits.

(** ** The service *)
Section Service.
Context {W : Type} `{SettingsRepository W}.
Context (outOfRange : Z) (ParseFloat64 : string → result error float64) (parseMap : string → result error (list (string * value))).
(** [time.ParseDuration], in nanoseconds. *)
Context (ParseDuration : string → result error Z).
Context (registry : ConstraintRegistry W).
#[local] Notation M := (GoM W error).
#[local] Notation Coerce := (Coerce outOfRange ParseFloat64 parseMap).

Definition GetValue (category key : string) : M value :=
  override ← cfr_Get category key;
  match override with
  | VNil => ofResult (GetDefault category key)
  | _ =>
      let expected := GetExpectedType category key in
      if decide (expected = "") then mret override else ofResult (Coerce override expected)
  end.

(** A value that is there, cast. *)
Definition casting {A} (category key : string) (cast : value → result error A) : M A :=
  v ← GetValue category key;
  match v with
  | VNil => throw (Errorf ("config key " ++ category ++ "." ++ key ++ " not found") None)
  | _ => ofResult (cast v)
  end.

Definition GetString (category key : string) : M string := casting category key (λ v, Ok (ToString v "")).
Definition GetInt (category key : string) : M Z := casting category key (λ v, Ok (ToInt outOfRange v 0)).
Definition GetBool (category key : string) : M bool := casting category key (λ v, Ok (ToBool v false)).

Definition second : Z := 1000000000.

(** Nanoseconds; a [time.Duration] is never in the table nor a default. *)
Definition GetDuration (category key : string) : M Z := casting category key (λ v,
  match v with
  | VString val =>
      match ParseDuration val with
      | Ok d => Ok d
      | Err err => Err (Errorf ("config key " ++ category ++ "." ++ key ++ ": cannot parse duration " ++ Quote val ++ ": " ++ Error err)
                         (Some err))
      end
  | VInt val | VInt64 val => Ok (int64 (val * second))
  | _ => Err (Errorf ("config key " ++ category ++ "." ++ key ++ ": unexpected type " ++ TypeName v ++ " for duration") None)
  end).

Definition checkConstraints (category key : string) (newValue : value) : M unit :=
  let resolve : ResolveFn := λ otherKey otherCategory,
    let cat := default category otherCategory in
    if bool_decide (otherKey = key) && bool_decide (cat = category) then mret newValue else GetValue cat otherKey in
  forOk (cfg_Constraints registry category key) (λ constraint, constraint key resolve).

Fixpoint applyTransforms (key : string) (fs : list TransformFunc) (v : value) : result error value :=
  match fs with
  | [] => Ok v
  | f :: fs => match f key v with Ok v => applyTransforms key fs v | Err err => Err err end
  end.

Definition cfg_Set (category key : string) (v : value) : M unit :=
  let expected := GetExpectedType category key in
  if decide (expected = "") then
    throw (configError ("'" ++ category ++ "." ++ key ++ "' is not an overridable setting. Use 'mvm config ls' to see valid keys."))
  else
    coerced ← ofResult (Coerce v expected);
    coerced ← ofResult (applyTransforms key (GetTransforms registry category key) coerced);
    _ ← checkConstraints category key coerced;
    cfr_Set category key coerced.

Definition cfg_Delete (category key : string) : M bool := cfr_Delete category key.

Definition noCategory (category : string) : error :=
  configError ("'" ++ category ++ "' is not a valid setting category. Use 'mvm config ls' to see valid categories.").

Definition cfg_DeleteByCategory (category : string) : M Z :=
  match entry category OverridableSettings with
  | None => throw (noCategory category)
  | Some _ => cfr_DeleteByCategory category
  end.

Definition cfg_DeleteAll : M Z := cfr_DeleteAll.

(** The settings of a category, with the overrides of the user. *)
Definition settingInfos (category : string) (keys : list (string * string)) (overrides : gmap string value) : gmap string SettingInfo :=
  list_to_map ((λ kt, (kt.1, SettingInfo_ kt.2 (match GetDefault category kt.1 with Ok v => v | Err _ => VNil end)
                              (default VNil (overrides !! kt.1)))) <$> keys).

Definition cfg_ListByCategory (category : string) : M (gmap string SettingInfo) :=
  match entry category OverridableSettings with
  | None => throw (noCategory category)
  | Some keys =>
      overrides ← cfr_ListByCategory (Some category);
      mret (settingInfos category keys (default ∅ (overrides !! category)))
  end.

Definition cfg_ListAll : M (gmap string (gmap string SettingInfo)) :=
  overrides ← cfr_ListByCategory None;
  mret (list_to_map ((λ ck, (ck.1, settingInfos ck.1 ck.2 (default ∅ (overrides !! ck.1)))) <$> OverridableSettings)).
End Service.

(** * Theorems *)

(** ** Coercion *)
Section Typing.
Context (outOfRange : Z) (ParseFloat64 : string → result error float64) (parseMap : string → result error (list (string * value))).
#[local] Notation Coerce := (Coerce outOfRange ParseFloat64 parseMap).

Lemma Coerce_type v T v' : Coerce v T = Ok v' → GoTypeName v' = T.
Proof. unfold Coerce, cannotCoerce. repeat case_decide; subst; repeat case_match; intros; by simplify_eq/=. Qed.

(** The values that survive their text. *)
Definition exact (v : value) : Prop :=
  match v with
  | VInt z => (- 2 ^ 53 < z < 2 ^ 53)%Z
  | VInt64 _ | VUint64 _ | VMap _ | VSlice _ => False
  | _ => True
  end.

Lemma nearest_whole z : (- 2 ^ 53 < z < 2 ^ 53)%Z → isInt (nearest z 1) z.
Proof.
  assert (∀ n, 0 <= n < 2 ^ 53 → isInt (nearest n 1) n)%Z as Hpos.
  { intros n Hn. pose proof (nearest_int n 0 Hn (Z.le_refl 0)) as Hi. by rewrite Z.mul_1_r in Hi. }
  intros Hz. destruct (Z.le_gt_cases 0 z); [apply Hpos; lia|].
  specialize (Hpos (- z)%Z ltac:(lia)). revert Hpos. unfold isInt, nearest.
  rewrite (proj2 (Z.eqb_neq z 0)), (proj2 (Z.eqb_neq (- z) 0)) by lia.
  unfold exponentOf, scaled. cbv beta iota zeta. rewrite !Z.mul_opp_l, !Z.abs_opp.  set (e := if (_ <? _)%Z then _ else _).
  cbn [mant expo]. intros Hr. pose proof (up_pos e). set (r := roundDiv _ _) in Hr.
  replace (z * down e)%Z with (- r * (1 * up e))%Z by lia. rewrite roundDiv_exact by lia. lia.
Qed.

Lemma intOf_whole z : (- 2 ^ 53 < z < 2 ^ 53)%Z → intOf outOfRange (nearest z 1) = z.
Proof.
  intros Hz. unfold intOf. rewrite (ftrunc_int _ z) by by apply nearest_whole. unfold minInt, maxInt.
  rewrite (proj2 (Z.leb_le _ _)), (proj2 (Z.leb_le _ _)) by lia. done.
Qed.

(** What is written for a value of a type is read as a value of that type, and
    as the same one if it survives its text. *)
Lemma stored_value v T v1 v2 :
  Coerce v T = Ok v1 → GoTypeName v2 = T →
  ∃ v3, Coerce (Unmarshal (Marshal v2)) T = Ok v3 ∧ GoTypeName v3 = T ∧ (exact v2 → v3 = v2).
Proof.
  intros Hv HT. assert (T ≠ "slice") as Hslice.
  { intros ->. revert Hv. unfold Coerce. by repeat (rewrite decide_False by done). }
  destruct v2; cbn in HT; subst T; try done; eexists; (split; [reflexivity|split; [reflexivity|]]); cbn [exact]; try done.
  intros Hz. by rewrite intOf_whole.
Qed.
End Typing.

(** ** Defaults *)

Lemma entry_map {A B} (f : A → B) k (l : list (string * A)) : entry k (map (λ kv, (kv.1, f kv.2)) l) = f <$> entry k l.
Proof. induction l as [|[k' a] l IH]; [done|]. simpl. by case_decide. Qed.

Lemma default_typed category key :
  GetExpectedType category key ≠ "" →
  ∃ d, GetDefault category key = Ok d ∧ GoTypeName d = GetExpectedType category key.
Proof.
  unfold GetExpectedType, GetDefault, OverridableSettings. rewrite (entry_map (map (λ kv, (kv.1, GoTypeName kv.2)))).
  destruct (entry category OverridableDefaults) as [cat|]; [|done]. simpl. rewrite (entry_map GoTypeName).
  destruct (entry key cat) as [d|]; [|done]. intros _. by exists d.
Qed.

(** ** The settings over the table *)
Section Settings.
Context (outOfRange : Z) (ParseFloat64 : string → result error float64) (parseMap : string → result error (list (string * value)))
  (showOther : value → string).
#[local] Notation W := (Db (list Setting)).
#[local] Instance settings_repo : SettingsRepository W := cfgSqliteRepo.
#[local] Notation Coerce := (Coerce outOfRange ParseFloat64 parseMap).
#[local] Notation GetValue := (GetValue (W := W) outOfRange ParseFloat64 parseMap).
Definition builtin : ConstraintRegistry W := RegisterBuiltinConstraints outOfRange showOther NewConstraintRegistry.
#[local] Notation cfg_Set := (cfg_Set (W := W) outOfRange ParseFloat64 parseMap builtin).
#[local] Notation checkConstraints := (checkConstraints (W := W) outOfRange ParseFloat64 parseMap builtin).

(** *** What a setting is, from the rows *)

Definition setting (t : list Setting) (category key : string) : result error value :=
  match head (filter (keyedBy category key) t) with
  | None => GetDefault category key
  | Some s =>
      match st_Value s with
      | Err err => Err (Errorf ("parse setting value: " ++ Error err) (Some err))
      | Ok doc =>
          match Unmarshal doc with
          | VNil => GetDefault category key
          | v => if decide (GetExpectedType category key = "") then Ok v else Coerce v (GetExpectedType category key)
          end
      end
  end.

Lemma GetValue_setting category key db :
  faults db = [] → GetValue category key db = (setting (tables db) category key, db).
Proof.
  intros Hf. unfold Config.GetValue, cfr_Get, settings_repo, cfgSqliteRepo, cfgsqlite_Get, query, setting, ofResult, mret, GoM_ret, throw.
  rewrite !bind_unfold, statement_healthy by done. destruct db as [t fs c]. cbn in Hf. subst fs. cbn [tables faults clock].
  destruct (head _) as [s|]; cbn [fst snd]; [|by destruct (GetDefault _ _)].
  destruct (st_Value s) as [doc|err]; [|done]. destruct (Unmarshal doc); try by destruct (GetDefault _ _).
  all: case_decide; [done|]; by destruct (Coerce _ _).
Qed.

(** *** The value [Set] writes *)

Definition normalized (category key : string) (v : value) : result error value :=
  match Coerce v (GetExpectedType category key) with
  | Ok v => applyTransforms key (GetTransforms builtin category key) v
  | Err err => Err err
  end.

Lemma builtin_transforms category key :
  GetTransforms builtin category key =
    if decide (category = "defaults.volume" ∧ key = "cache_type") then [NormalizeCacheType showOther] else [].
Proof.
  unfold GetTransforms, builtin, RegisterBuiltinConstraints, RegisterTransform, Register_, appendAll, NewConstraintRegistry.
  cbn [transforms constraints foldl]. case_decide as Hd.
  - destruct Hd as [-> ->]. rewrite lookup_insert_eq, lookup_empty. done.
  - rewrite lookup_insert_ne by (intros [= <- <-]; tauto). by rewrite lookup_empty.
Qed.

Lemma builtin_constraints category key :
  cfg_Constraints builtin category key =
    if decide (category = "defaults.cloudinit" ∧ key ∈ ["nocloud_port_range_start"; "nocloud_port_range_end"])
    then [validateNoCloudPortRange outOfRange]
    else if decide (category = "defaults.vm" ∧ key = "guest_mac_prefix") then [validateMACPrefix showOther] else [].
Proof.
  unfold cfg_Constraints, builtin, RegisterBuiltinConstraints, RegisterTransform, Register_, appendAll, NewConstraintRegistry.
  cbn [transforms constraints foldl].
  case_decide as Hd; [|case_decide as He].
  - destruct Hd as [-> [->|[->|[]%elem_of_nil]%elem_of_cons]%elem_of_cons];
      rewrite !(lookup_insert_ne _ ("defaults.vm", "guest_mac_prefix")) by done.
    + rewrite lookup_insert_ne by done. by rewrite lookup_insert_eq, lookup_empty.
    + rewrite lookup_insert_eq, lookup_insert_ne by done. by rewrite lookup_empty.
  - destruct He as [-> ->]. rewrite lookup_insert_eq, !lookup_insert_ne by done. by rewrite lookup_empty.
  - rewrite !lookup_insert_ne; [by rewrite lookup_empty|..]; intros [= <- <-]; [apply Hd|apply Hd|apply He]; set_solver.
Qed.

Lemma normalized_type category key v v' :
  normalized category key v = Ok v' → GoTypeName v' = GetExpectedType category key.
Proof.
  unfold normalized. destruct (Coerce v _) as [v1|e] eqn:Ec; [|done]. apply Coerce_type in Ec.
  rewrite builtin_transforms. case_decide as Hd; [|by intros [= <-]].
  destruct Hd as [-> ->]. cbn [applyTransforms]. unfold NormalizeCacheType. intros Hn. repeat case_match; by simplify_eq/=.
Qed.

(** Reading leaves the rows alone. *)
Definition sameRows (db db' : W) : Prop := tables db' = tables db ∧ clock db' = clock db.
#[local] Instance sameRows_preorder : PreOrder sameRows.
Proof. split; [by intros db|]. intros d1 d2 d3 [] []. split; congruence. Qed.

Lemma GetValue_same category key : upholds (A := result error value) sameRows (GetValue category key).
Proof.
  unfold Config.GetValue, cfr_Get, settings_repo, cfgSqliteRepo, cfgsqlite_Get, ofResult.
  apply upholds_okbind; [apply _| |intros v; repeat case_match; upholds].
  apply upholds_okbind; [apply _| |intros row; repeat case_match; upholds].
  intros db. destruct (query _ db) as [r db'] eqn:Eq. by apply query_tables in Eq.
Qed.

(** The constraints only read settings. *)
Lemma checkConstraints_upholds (R : relation W) `{!PreOrder R} category key v :
  (∀ c k, upholds (A := result error value) R (GetValue c k)) →
  upholds (A := result error unit) R (checkConstraints category key v).
Proof.
  intros HR. unfold Config.checkConstraints. cbv zeta. set (resolve := λ k cat, if (_ : bool) then _ else _).
  assert (∀ k cat, upholds (A := result error value) R (resolve k cat)) as Hres.
  { intros k cat. unfold resolve. destruct (_ && _); [upholds|apply HR]. }
  rewrite builtin_constraints. case_decide; [|case_decide]; cbn [forOk]; [| |upholds].
  - apply upholds_okbind; [apply _| |intros; upholds]. unfold validateNoCloudPortRange, ofResult.
    apply upholds_okbind; [apply _|apply Hres|intros a]. apply upholds_okbind; [apply _|apply Hres|intros b].
    apply upholds_okbind; [apply _|destruct (validators_ToInt outOfRange a); upholds|intros x].
    apply upholds_okbind; [apply _|destruct (validators_ToInt outOfRange b); upholds|intros y].
    destruct (y <=? x)%Z; upholds.
  - apply upholds_okbind; [apply _| |intros; upholds]. unfold validateMACPrefix.
    apply upholds_okbind; [apply _|apply Hres|intros a]. destruct (macPrefixRE _); upholds.
Qed.

Lemma checkConstraints_same category key v : upholds (A := result error unit) sameRows (checkConstraints category key v).
Proof. apply checkConstraints_upholds; [apply _|]. intros c k. apply GetValue_same. Qed.

(** On a database that works they change nothing at all. *)
Definition untouched (db db' : W) : Prop := faults db = [] → db' = db.
#[local] Instance untouched_preorder : PreOrder untouched.
Proof. split; [by intros db|]. intros d1 d2 d3 H12 H23 Hf. specialize (H12 Hf). subst d2. by apply H23. Qed.

Lemma checkConstraints_healthy category key v db : faults db = [] → (checkConstraints category key v db).2 = db.
Proof.
  apply (checkConstraints_upholds untouched). intros c k d Hf. by rewrite GetValue_setting.
Qed.

(** *** Setting *)

Lemma cfg_Set_run category key v db :
  cfg_Set category key v db =
    if decide (GetExpectedType category key = "") then
      (Err (configError ("'" ++ category ++ "." ++ key ++ "' is not an overridable setting. Use 'mvm config ls' to see valid keys.")), db)
    else match normalized category key v with
         | Err err => (Err err, db)
         | Ok v' => match checkConstraints category key v' db with
                    | (Err err, db') => (Err err, db')
                    | (Ok _, db') => cfgsqlite_Set category key v' db'
                    end
         end.
Proof.
  unfold Config.cfg_Set, normalized, ofResult. case_decide; [done|].
  destruct (Coerce v _) as [v1|]; [|done]. rewrite bind_unfold. cbv [mret GoM_ret].
  destruct (applyTransforms _ _ _) as [v2|]; [|done]. rewrite bind_unfold. cbv [mret GoM_ret]. by rewrite bind_unfold.
Qed.

(** It writes one row, or none. *)
Lemma cfg_Set_tables category key v db :
  let '(r, db') := cfg_Set category key v db in
  clock db' = clock db ∧
  match r with
  | Err _ => tables db' = tables db
  | Ok _ => GetExpectedType category key ≠ "" ∧
      ∃ v', normalized category key v = Ok v' ∧ tables db' = setRow category key (Marshal v') (clock db) (tables db)
  end.
Proof.
  rewrite cfg_Set_run. case_decide; [done|]. destruct (normalized _ _ _) as [v'|]; [|done].
  pose proof (checkConstraints_same category key v' db) as [Et Ec].
  destruct (checkConstraints _ _ _ db) as [[u|e] db1]; cbn [snd] in *; [|done].
  unfold cfgsqlite_Set. destruct (statement _ db1) as [[u'|e] db2] eqn:Es.
  - apply statement_Ok in Es as [[= <-] Ec2]. rewrite Ec2, <- Ec, <- Et. split; [done|]. split; [done|]. by exists v'.
  - apply statement_Err in Es as [-> ->]. by rewrite Et.
Qed.

(** The rows of a key, after one was written. *)
Lemma setRow_same category key doc now t :
  head (filter (keyedBy category key) (setRow category key doc now t)) = Some (Setting_ category key (Ok doc) now).
Proof.
  unfold setRow. case_decide as He.
  - induction t as [|s t IH]; [by apply Exists_nil in He|]. rewrite fmap_cons. case_decide as Hs.
    + rewrite filter_cons, decide_True by done. done.
    + rewrite filter_cons, decide_False by done. apply IH. by apply Exists_cons in He as [|].
  - assert (filter (keyedBy category key) t = []) as Ht.
    { apply length_zero_iff_nil, length_filter_zero. intros s Hs Hk. apply He, Exists_exists. by exists s. }
    rewrite filter_app, Ht, filter_cons, decide_True by done. done.
Qed.

Lemma setRow_other category key category' key' doc now t :
  (category', key') ≠ (category, key) →
  filter (keyedBy category' key') (setRow category key doc now t) = filter (keyedBy category' key') t.
Proof.
  intros Hne. assert (∀ s, keyedBy category key s → ¬ keyedBy category' key' s) as Hno by (intros s [] []; apply Hne; congruence).
  unfold setRow. case_decide as He; clear He.
  - induction t as [|s t IH]; [done|]. rewrite fmap_cons, !filter_cons, IH. destruct (decide (keyedBy category key s)) as [Hs|Hs]; [|done].
    rewrite !decide_False; [done|by apply Hno|by apply Hno].
  - rewrite filter_app, (filter_cons _ (Setting_ _ _ _ _)), decide_False by by apply Hno. by rewrite app_nil_r.
Qed.

(** *** Typed rows *)

Definition typedRow (s : Setting) : Prop :=
  GetExpectedType (st_Category s) (st_Key s) ≠ "" ∧
  ∃ doc v, st_Value s = Ok doc ∧ Coerce (Unmarshal doc) (GetExpectedType (st_Category s) (st_Key s)) = Ok v.

Lemma setting_type t category key :
  Forall typedRow t → GetExpectedType category key ≠ "" →
  ∃ v, setting t category key = Ok v ∧ GoTypeName v = GetExpectedType category key.
Proof.
  intros Ht HT. unfold setting. destruct (head _) as [s|] eqn:Eh; [|by apply default_typed].
  apply head_Some_elem_of, list_elem_of_filter in Eh as [[<- <-] Hs].
  destruct (proj1 (Forall_forall _ _) Ht s Hs) as (_ & doc & v & -> & Hc).
  apply Coerce_type in Hc as Hv.
  destruct (Unmarshal doc); [by apply default_typed|..]; rewrite decide_False by done; by exists v.
Qed.

Lemma setRow_typed category key v v' now t :
  Forall typedRow t → GetExpectedType category key ≠ "" → normalized category key v = Ok v' →
  Forall typedRow (setRow category key (Marshal v') now t).
Proof.
  intros Ht HT Hn. assert (∀ s, typedRow (Setting_ (st_Category s) (st_Key s) (Ok (Marshal v')) now) ↔
    ∃ v3, GetExpectedType (st_Category s) (st_Key s) ≠ "" ∧ Coerce (Unmarshal (Marshal v')) (GetExpectedType (st_Category s) (st_Key s)) = Ok v3) as Hiff.
  { intros s. unfold typedRow. cbn. naive_solver. }
  pose proof (normalized_type _ _ _ _ Hn) as HT'. unfold normalized in Hn.
  destruct (Coerce v _) as [v1|] eqn:Ec; [|done].
  destruct (stored_value _ _ _ _ _ _ _ Ec HT') as (v3 & Hv3 & _).
  assert (typedRow (Setting_ category key (Ok (Marshal v')) now)) as Hrow.
  { split; [done|]. by exists (Marshal v'), v3. }
  unfold setRow. case_decide.
  - apply Forall_fmap. eapply Forall_impl; [exact Ht|]. intros s Hs. simpl. by case_decide.
  - apply Forall_app. split; [done|]. by constructor.
Qed.

(** What the service is asked to change. *)
Inductive settingOp :=
  | OSet (category key : string) (v : value)
  | ODelete (category key : string)
  | ODeleteByCategory (category : string)
  | ODeleteAll.

Definition runSetting (db : W) (op : settingOp) : W :=
  match op with
  | OSet category key v => (cfg_Set category key v db).2
  | ODelete category key => (cfg_Delete (W := W) category key db).2
  | ODeleteByCategory category => (cfg_DeleteByCategory (W := W) category db).2
  | ODeleteAll => (cfg_DeleteAll (W := W) db).2
  end.

Lemma deleteRows_typed (P : Setting → Prop) `{∀ s, Decision (P s)} db :
  Forall typedRow (tables db) → Forall typedRow (tables (deleteRows P db).2).
Proof.
  intros Ht. unfold deleteRows. destruct (statement _ db) as [[r|e] db'] eqn:Es; cbn [snd].
  - apply statement_Ok in Es as [[= _ <-] _]. apply Forall_forall. intros s [_ Hs]%list_elem_of_filter. by apply (Forall_forall typedRow (tables db)).
  - apply statement_Err in Es as [-> _]. done.
Qed.

Lemma runSetting_typed op db : Forall typedRow (tables db) → Forall typedRow (tables (runSetting db op)).
Proof.
  intros Ht. destruct op; cbn [runSetting].
  - pose proof (cfg_Set_tables category key v db) as Hs. destruct (cfg_Set _ _ _ db) as [[u|e] db']; cbn [snd].
    + destruct Hs as (_ & HT & v' & Hn & ->). by eapply setRow_typed.
    + destruct Hs as [_ ->]. done.
  - unfold cfg_Delete, cfr_Delete, settings_repo, cfgSqliteRepo, cfgsqlite_Delete. rewrite bind_unfold.
    pose proof (deleteRows_typed (keyedBy category key) db Ht) as Hd. by destruct (deleteRows _ db) as [[] ].
  - unfold cfg_DeleteByCategory. destruct (entry _ _); [by apply deleteRows_typed|done].
  - by apply deleteRows_typed.
Qed.

(** C38. Whatever is set and deleted, with failures of the database, a setting of
    the list has a value, of the type of its default: no getter ever falls back
    to the zero value of another type. *)
Theorem settings_typed (ops : list settingOp) (db : W) category key :
  tables db = [] → GetExpectedType category key ≠ "" →
  let db' := foldl runSetting db ops in
  faults db' = [] →
  ∃ v, GetValue category key db' = (Ok v, db') ∧ GoTypeName v = GetExpectedType category key.
Proof.
  intros Hd HT db' Hf. assert (Forall typedRow (tables db')) as Ht.
  { assert (Forall typedRow (tables db)) as H0 by (rewrite Hd; constructor). clear Hd Hf. subst db'. revert db H0.
    induction ops as [|op ops IH]; intros db H0; [done|]. by apply IH, runSetting_typed. }
  destruct (setting_type _ _ _ Ht HT) as (v & Hv & Hty). exists v. by rewrite GetValue_setting, Hv.
Qed.

(** *** What was set is what is read *)

Lemma setting_set t category key v v' now :
  GetExpectedType category key ≠ "" → normalized category key v = Ok v' → exact v' →
  setting (setRow category key (Marshal v') now t) category key = Ok v'.
Proof.
  intros HT Hn Hx. unfold setting. rewrite setRow_same. cbn [st_Value].
  pose proof (normalized_type _ _ _ _ Hn) as HT'. unfold normalized in Hn. destruct (Coerce v _) as [v1|] eqn:Ec; [|done].
  destruct (stored_value _ _ _ _ _ _ _ Ec HT') as (v3 & Hv3 & _ & Heq). rewrite (Heq Hx) in Hv3.
  destruct v'; cbn [Unmarshal Marshal] in *; try done; try by rewrite decide_False.
  destruct (default_typed category key HT) as ([] & Hd & Ht); rewrite <- HT' in Ht; done.
Qed.

Lemma setting_other t category key category' key' doc now :
  (category', key') ≠ (category, key) → setting (setRow category key doc now t) category' key' = setting t category' key'.
Proof. intros Hne. unfold setting. by rewrite setRow_other. Qed.

(** A [Set] that succeeds on a database that works. *)
Lemma cfg_Set_Ok category key v db db' :
  faults db = [] → cfg_Set category key v db = (Ok (), db') →
  GetExpectedType category key ≠ "" ∧ ∃ v', normalized category key v = Ok v' ∧
    (checkConstraints category key v' db).1 = Ok () ∧
    db' = Db_ (setRow category key (Marshal v') (clock db) (tables db)) [] (clock db).
Proof.
  intros Hf. rewrite cfg_Set_run. case_decide; [done|]. destruct (normalized _ _ _) as [v'|]; [|done].
  pose proof (checkConstraints_healthy category key v' db Hf) as E.
  destruct (checkConstraints _ _ _ db) as [[[]|e] db1] eqn:Ec; cbn [snd] in E; [|done]. subst db1.
  unfold cfgsqlite_Set. rewrite statement_healthy by done. intros [= <-]. split; [done|]. exists v'. by rewrite Ec.
Qed.

(** C39. What [Set] was given, coerced and normalised, is what the setting is from
    then on, integers as long as they have 53 bits; no other setting changes; and
    a [Set] that is refused changes no row. *)
Theorem Set_GetValue category key v db :
  faults db = [] →
  let '(r, db') := cfg_Set category key v db in
  match r with
  | Err _ => tables db' = tables db
  | Ok _ => ∃ v', normalized category key v = Ok v' ∧
      (exact v' → GetValue category key db' = (Ok v', db')) ∧
      ∀ c k, (c, k) ≠ (category, key) → (GetValue c k db').1 = (GetValue c k db).1
  end.
Proof.
  intros Hf. pose proof (cfg_Set_tables category key v db) as Hs.
  destruct (cfg_Set category key v db) as [[[]|e] db'] eqn:E; [|apply Hs]. clear Hs.
  apply cfg_Set_Ok in E as (HT & v' & Hn & _ & ->); [|done]. exists v'. split; [done|]. split.
  - intros Hx. rewrite GetValue_setting by done. cbn [tables]. by rewrite (setting_set _ _ _ v).
  - intros c k Hne. rewrite !GetValue_setting by done. cbn [tables fst]. by rewrite setting_other.
Qed.

(** *** The range of ports *)

#[local] Notation cloudinit := "defaults.cloudinit".
#[local] Notation portStart := "nocloud_port_range_start".
#[local] Notation portEnd := "nocloud_port_range_end".

Definition portRange (t : list Setting) : Prop :=
  ∃ a b, setting t cloudinit portStart = Ok (VInt a) ∧ setting t cloudinit portEnd = Ok (VInt b) ∧ (a < b)%Z.

Lemma range_checked key v' db :
  key ∈ [portStart; portEnd] → portRange (tables db) → faults db = [] → GoTypeName v' = "int" → exact v' →
  (checkConstraints cloudinit key v' db).1 = Ok () →
  ∃ z, v' = VInt z ∧ ∃ a b, setting (tables db) cloudinit portStart = Ok (VInt a) ∧ setting (tables db) cloudinit portEnd = Ok (VInt b) ∧
    (if decide (key = portStart) then z < b else a < z)%Z.
Proof.
  intros Hkey (a & b & Ha & Hb & Hab) Hf HT Hx. destruct v' as [| |z| | | | | |]; try done. intros Hc. exists z. split; [done|].
  exists a, b. split; [done|]. split; [done|].
  assert (∀ k r, setting (tables db) cloudinit k = r → GetValue cloudinit k db = (r, db)) as Hget
    by (intros k r <-; by apply GetValue_setting).
  revert Hc. unfold Config.checkConstraints. rewrite builtin_constraints, decide_True by done. cbn [forOk].
  rewrite bind_unfold. unfold validateNoCloudPortRange. rewrite !bind_unfold. cbn [default].
  apply elem_of_cons in Hkey as [->| ->%list_elem_of_singleton].
  - rewrite decide_True by done. change (bool_decide (portStart = portStart)) with true.
    change (bool_decide (portEnd = portStart)) with false. change (bool_decide (cloudinit = cloudinit)) with true. cbn [andb].
    cbv [mret GoM_ret]. rewrite bind_unfold, (Hget portEnd _ Hb). cbn [validators_ToInt ofResult]. cbv [mret GoM_ret].
    rewrite !bind_unfold. destruct (Z.leb_spec b z); [done|]. lia.
  - rewrite decide_False by done. change (bool_decide (portStart = portEnd)) with false.
    change (bool_decide (portEnd = portEnd)) with true. change (bool_decide (cloudinit = cloudinit)) with true. cbn [andb].
    rewrite (Hget portStart _ Ha). cbv [mret GoM_ret]. rewrite bind_unfold. cbn [validators_ToInt ofResult].
    cbv [mret GoM_ret]. rewrite !bind_unfold. destruct (Z.leb_spec z a); [done|]. lia.
Qed.

(** [Set] keeps the constraint between the two ends of the range of ports,
    whichever of them, or any other setting, is set. *)
Lemma Set_keeps_port_range category key v db :
  faults db = [] → (∀ v', normalized category key v = Ok v' → exact v') →
  portRange (tables db) → portRange (tables (cfg_Set category key v db).2).
Proof.
  intros Hf Hexact Hr. destruct (cfg_Set category key v db) as [[[]|e] db'] eqn:E; cbn [snd]; cycle 1.
  { pose proof (cfg_Set_tables category key v db) as Hs. rewrite E in Hs. by destruct Hs as [_ ->]. }
  apply cfg_Set_Ok in E as (HT & v' & Hn & Hc & ->); [|done]. cbn [tables].
  pose proof (Hexact _ Hn) as Hx. pose proof (normalized_type _ _ _ _ Hn) as Ht.
  pose proof (setting_set (tables db) category key v v' (clock db) HT Hn Hx) as Hset.
  destruct (decide (category = cloudinit ∧ key ∈ [portStart; portEnd])) as [[-> Hkey]|Hother]; cycle 1.
  { destruct Hr as (a & b & Ha & Hb & Hab). exists a, b. rewrite !setting_other; [done|..]; intros [= <- <-]; apply Hother; set_solver. }
  destruct (range_checked key v' db Hkey Hr Hf) as (z & -> & a & b & Ha & Hb & Hab); [|done..|].
  { rewrite Ht. apply elem_of_cons in Hkey as [->| ->%list_elem_of_singleton]; reflexivity. }
  apply elem_of_cons in Hkey as [->| ->%list_elem_of_singleton].
  - exists z, b. rewrite decide_True in Hab by done. split_and!; [done|by rewrite setting_other|done].
  - exists a, z. rewrite decide_False in Hab by done. split_and!; [by rewrite setting_other|done|done].
Qed.
End Settings.

(** * Examples *)
Module ConfigExamples.
#[local] Instance ex_settings : SettingsRepository (Db (list Setting)) := cfgSqliteRepo.
Definition noFloat (s : string) : result error float64 := Err (Errorf "invalid syntax" None).
Definition noMap (s : string) : result error (list (string * value)) := Err (Errorf "invalid character" None).
Definition show (v : value) : string := "?".
Definition fresh : Db (list Setting) := Db_ [] [] "t1".

Notation set := (cfg_Set (W := Db (list Setting)) 0 noFloat noMap (builtin 0 show)).
Notation get := (GetValue (W := Db (list Setting)) 0 noFloat noMap).
Notation run := (runSetting 0 noFloat noMap show).
Notation atCloudinit k z := (OSet "defaults.cloudinit" k (VString z)).

Lemma fresh_range : portRange 0 noFloat noMap [].
Proof. exists 8000%Z, 9000%Z. split_and!; [vm_compute; reflexivity..|lia]. Qed.

(** Failures of the database, a bad value, a number and its deletion. *)
Definition edited : Db (list Setting) := foldl run (Db_ [] [Some (Errorf "locked" None)] "t1")
  [OSet "defaults.vm" "vcpu_count" (VInt 2); OSet "defaults.vm" "vcpu_count" (VString "many");
   OSet "defaults.vm" "mem_size_mib" (VString " 2048 "); ODeleteByCategory "cli"].

Lemma settings_typed_witness :
  (get "defaults.vm" "vcpu_count" edited).1 = Ok (VInt 1) ∧ (get "defaults.vm" "mem_size_mib" edited).1 = Ok (VInt 2048) ∧
  ∃ v, get "defaults.vm" "mem_size_mib" edited = (Ok v, edited) ∧ GoTypeName v = GetExpectedType "defaults.vm" "mem_size_mib".
Proof.
  split_and!; [vm_compute; reflexivity..|].
  refine (settings_typed 0 noFloat noMap show _ (Db_ [] [Some (Errorf "locked" None)] "t1") _ _ eq_refl _ _); vm_compute; congruence.
Defined.

(** The cache type is normalised; an integer of 54 bits is not what it was. *)
Lemma Set_GetValue_witness :
  (get "defaults.volume" "cache_type" (set "defaults.volume" "cache_type" (VString "wRITEBACK") fresh).2).1 = Ok (VString "Writeback") ∧
  (get "settings.vm" "max_vms" (set "settings.vm" "max_vms" (VString "9007199254740993") fresh).2).1 = Ok (VInt 9007199254740992) ∧
  ∃ v', normalized 0 noFloat noMap show "defaults.volume" "cache_type" (VString "wRITEBACK") = Ok v' ∧
    (exact v' → get "defaults.volume" "cache_type" (set "defaults.volume" "cache_type" (VString "wRITEBACK") fresh).2 =
       (Ok v', (set "defaults.volume" "cache_type" (VString "wRITEBACK") fresh).2)) ∧
    ∀ c k, (c, k) ≠ ("defaults.volume", "cache_type") →
      (get c k (set "defaults.volume" "cache_type" (VString "wRITEBACK") fresh).2).1 = (get c k fresh).1.
Proof.
  split_and!; [vm_compute; reflexivity..|].
  pose proof (Set_GetValue 0 noFloat noMap show "defaults.volume" "cache_type" (VString "wRITEBACK") fresh eq_refl) as He.
  destruct (set "defaults.volume" "cache_type" (VString "wRITEBACK") fresh) as [r db'] eqn:E.
  assert (r = Ok ()) as -> by (apply (f_equal fst) in E; vm_compute in E; by subst). exact He.
Defined.

(** A start above the end is refused, an end first is not. *)
Lemma Set_keeps_port_range_witness :
  is_Ok (set "defaults.cloudinit" "nocloud_port_range_start" (VInt 9500) fresh).1 = false ∧
  is_Ok (set "defaults.cloudinit" "nocloud_port_range_end" (VInt 9600) fresh).1 = true ∧
  portRange 0 noFloat noMap (tables (set "defaults.cloudinit" "nocloud_port_range_end" (VInt 9600) fresh).2).
Proof.
  split_and!; [vm_compute; reflexivity..|]. refine (Set_keeps_port_range 0 noFloat noMap show _ _ _ fresh eq_refl _ fresh_range).
  intros v' [= <-]. split; reflexivity.
Defined.

(** Deleting the end leaves the start above the default end. *)
Lemma Delete_breaks_port_range :
  let db := foldl run fresh [atCloudinit "nocloud_port_range_end" "9600"; atCloudinit "nocloud_port_range_start" "9500"] in
  portRange 0 noFloat noMap (tables db) ∧
  ¬ portRange 0 noFloat noMap (tables (run db (ODelete "defaults.cloudinit" "nocloud_port_range_end"))).
Proof.
  intros db. split.
  - exists 9500%Z, 9600%Z. split_and!; [vm_compute; reflexivity..|lia].
  - intros (a & b & Ha & Hb & Hab). vm_compute in Ha, Hb. injection Ha as <-. injection Hb as <-. lia.
Qed.
End ConfigExamples.
