(* ===== verification/Files.v ===== *)
(** * Paths and files: what the program uses of [path/filepath] and [os]

    The lexical functions on slash-separated paths are functions of strings.
    The file system itself is a class: what a call does to it is the business
    of the world, what the program asks for is a path. *)

From Stdlib Require Import Ascii.
From stdpp Require Import strings list.
From S2P Require Import Prelude GoStrings Errs.
#[local] Open Scope string_scope.

Definition slash : ascii := "/"%char.

(** ** [filepath.Clean] *)

Definition rooted (path : string) : bool := HasPrefix path "/".

(** One component, onto the components so far, the last one first. *)
Definition cleanStep (isRooted : bool) (stack : list string) (c : string) : list string :=
  if bool_decide (c = "") || bool_decide (c = ".") then stack
  else if bool_decide (c = "..") then
    match stack with
    | [] => if isRooted then [] else [".."]
    | top :: rest => if bool_decide (top = "..") then ".." :: stack else rest
    end
  else c :: stack.

Definition cleanComponents (path : string) : list string :=
  rev (foldl (cleanStep (rooted path)) [] (Split path slash)).

Definition Clean (path : string) : string :=
  if bool_decide (path = "") then "."
  else
    let body := Join (cleanComponents path) "/" in
    if rooted path then "/" ++ body
    else if bool_decide (body = "") then "." else body.

(** [filepath.Join]. *)
Fixpoint Path_Join (elem : list string) : string :=
  match elem with
  | [] => ""
  | e :: rest => if bool_decide (e = "") then Path_Join rest else Clean (Join (e :: rest) "/")
  end.

(** [filepath.Dir]: what comes before the last slash, with it. *)
Definition Dir (path : string) : string :=
  match CutLast path "/" with
  | Some (before, _) => Clean (before ++ "/")
  | None => Clean ""
  end.

(** [filepath.Base]. *)
Fixpoint TrimRightSlash (fuel : nat) (s : string) : string :=
  match fuel with
  | S fuel' => match CutLast s "/" with
               | Some (before, "") => TrimRightSlash fuel' before
               | _ => s
               end
  | O => s
  end.

Definition Base (path : string) : string :=
  if bool_decide (path = "") then "."
  else
    let path := TrimRightSlash (String.length path) path in
    let path := match CutLast path "/" with Some (_, after) => after | None => path end in
    if bool_decide (path = "") then "/" else path.

(** ** The file system *)
Class Files (W : Type) := {
  MkdirAll : string → GoM W error unit;
  Stat : string → GoM W error unit;
  IsNotExist : error → bool;
  RemoveFile : string → GoM W error unit;
  RemoveAll : string → GoM W error unit;
}.

(** ** Lemmas *)

(** A component that names an entry. *)
Definition ordinary (c : string) : Prop := c ≠ "" ∧ c ≠ "." ∧ c ≠ ".." ∧ without slash c = true.

Lemma Split_without s sep : Forall (λ c, without sep c = true) (Split s sep).
Proof.
  induction s as [|c s IH]; simpl; [by repeat constructor|].
  destruct (Ascii.eqb c sep) eqn:E; [by constructor|].
  destruct (Split s sep) as [|p ps]; [constructor; [|constructor]; unfold without; simpl; by rewrite E|].
  inversion IH; subst. constructor; [|done]. unfold without in *. simpl. rewrite E. by apply andb_true_iff.
Qed.

Lemma cleanStep_rooted stack c :
  Forall ordinary stack → without slash c = true → Forall ordinary (cleanStep true stack c).
Proof.
  intros Hs Hc. unfold cleanStep.
  destruct (bool_decide_reflect (c = "")); [done|]. destruct (bool_decide_reflect (c = ".")); [done|]. simpl.
  destruct (bool_decide_reflect (c = "..")); [|by constructor].
  destruct Hs as [|top rest Htop Hs]; [constructor|].
  destruct (bool_decide_reflect (top = "..")) as [->|]; [|done]. by destruct Htop as (_ & _ & [] & _).
Qed.

Lemma foldl_cleanStep l stack :
  Forall ordinary stack → Forall (λ c, without slash c = true) l →
  Forall ordinary (foldl (cleanStep true) stack l).
Proof.
  intros Hs Hl. revert stack Hs. induction Hl as [|c l Hc Hl IH]; intros stack Hs; simpl; [done|].
  by apply IH, cleanStep_rooted.
Qed.

(** A cleaned rooted path names a chain of entries, none of which is the parent. *)
Lemma cleanComponents_rooted path : rooted path = true → Forall ordinary (cleanComponents path).
Proof.
  intros Hr. unfold cleanComponents. rewrite Hr. apply Forall_rev. apply foldl_cleanStep; [constructor|].
  apply Split_without.
Qed.

Lemma cleanStep_ordinary b stack c : ordinary c → cleanStep b stack c = c :: stack.
Proof. intros (H1 & H2 & H3 & _). unfold cleanStep. by rewrite !bool_decide_eq_false_2. Qed.

Lemma foldl_ordinary b l stack : Forall ordinary l → foldl (cleanStep b) stack l = rev_append l stack.
Proof.
  intros Hl. revert stack. induction Hl as [|c l Hc Hl IH]; intros stack; [done|].
  cbn [foldl]. by rewrite cleanStep_ordinary, IH.
Qed.

Lemma Split_app sep s t : Split (s ++ String sep t) sep = (Split s sep ++ Split t sep)%list.
Proof.
  induction s as [|c s IH].
  - change ("" ++ String sep t) with (String sep t). simpl. by rewrite Ascii.eqb_refl.
  - rewrite sapp_cons. simpl. rewrite IH. destruct (Ascii.eqb c sep); [done|].
    destruct (Split s sep) as [|p ps] eqn:E; [|done]. by destruct s; simpl in E; repeat case_match.
Qed.

Lemma Split_nonempty s sep : Split s sep ≠ [].
Proof. destruct s; simpl; [done|]. destruct (Ascii.eqb _ _); [done|]. by destruct (Split s sep). Qed.

Lemma ordinary_without l : Forall ordinary l → Forall (λ c, without slash c = true) l.
Proof. intros Hl. eapply Forall_impl; [exact Hl|]. by intros c (_ & _ & _ & Hc). Qed.

(** The text of a rooted path with these components. *)
Definition rootedPath (comps : list string) : string := "/" ++ Join comps "/".

Lemma Clean_rooted path : rooted path = true → Clean path = rootedPath (cleanComponents path).
Proof. intros Hr. unfold Clean. rewrite Hr. by destruct (bool_decide_reflect (path = "")) as [->|]. Qed.

Lemma rootedPath_rooted comps : rooted (rootedPath comps) = true.
Proof. unfold rooted, rootedPath. apply HasPrefix_spec. by eexists. Qed.

Lemma components_rootedPath comps : Forall ordinary comps → cleanComponents (rootedPath comps) = comps.
Proof.
  intros Hc. unfold cleanComponents. rewrite rootedPath_rooted.
  assert (Split (rootedPath comps) slash = "" :: Split (Join comps "/") slash) as -> by done.
  change (foldl ?f ?a ("" :: ?l)) with (foldl f (f a "") l).
  assert (cleanStep true [] "" = []) as -> by done.
  destruct (decide (comps = [])) as [->|Hne]; [done|].
  rewrite (Split_Join slash) by (done || by apply ordinary_without).
  rewrite foldl_ordinary by done. by rewrite rev_append_rev, app_nil_r, rev_involutive.
Qed.

(** Cleaning is idempotent. *)
Lemma cleanComponents_Clean path : rooted path = true → cleanComponents (Clean path) = cleanComponents path.
Proof. intros Hr. rewrite Clean_rooted by done. by apply components_rootedPath, cleanComponents_rooted. Qed.

Lemma Clean_idemp path : rooted path = true → Clean (Clean path) = Clean path.
Proof.
  intros Hr. rewrite (Clean_rooted (Clean path)), cleanComponents_Clean, <- Clean_rooted by
    (done || by rewrite Clean_rooted, rootedPath_rooted). done.
Qed.

(** [p] names [d] or an entry below it: the components of [d], then ordinary
    ones, so following them from [d] never leaves it. *)
Definition within (d p : string) : Prop :=
  ∃ rest, cleanComponents p = (cleanComponents d ++ rest)%list ∧ Forall ordinary rest.

Definition strictlyWithin (d p : string) : Prop :=
  ∃ rest, cleanComponents p = (cleanComponents d ++ rest)%list ∧ Forall ordinary rest ∧ rest ≠ [].

Lemma strictly_within d p : strictlyWithin d p → within d p.
Proof. intros (rest & ? & ? & _). by exists rest. Qed.

Lemma within_refl d : within d d.
Proof. exists []. by rewrite app_nil_r. Qed.

(** The textual test [strings.HasPrefix(target, dir + "/")] decides it for cleaned paths. *)
Lemma HasPrefix_within d p :
  rooted d = true → rooted p = true → HasPrefix (Clean p) (Clean d ++ "/") = true → strictlyWithin (Clean d) (Clean p).
Proof.
  intros Hd Hp [t Ht]%HasPrefix_spec. unfold strictlyWithin. rewrite !cleanComponents_Clean by done.
  pose proof (cleanComponents_rooted d Hd) as Od. pose proof (cleanComponents_rooted p Hp) as Op.
  rewrite !Clean_rooted in Ht by done. unfold rootedPath in Ht. rewrite <- !sapp_assoc in Ht.
  change ("/" ++ ?x) with (String slash x) in Ht. injection Ht as Ht.
  assert (Split (Join (cleanComponents p) "/") slash =
    (Split (Join (cleanComponents d) "/") slash ++ Split t slash)%list) as E.
  { rewrite Ht. change (?a ++ "/" ++ t) with (a ++ String slash t). apply Split_app. }
  destruct (decide (cleanComponents p = [])) as [Ep|Ep].
  { rewrite Ep in Ht. by destruct (Join (cleanComponents d) "/"). }
  rewrite (Split_Join slash) in E by (done || by apply ordinary_without).
  destruct (decide (cleanComponents d = [])) as [Ed|Ed].
  { rewrite Ed in E |- *. simpl in E. rewrite E in Op. inversion Op as [|? ? [Hbad _]]. done. }
  rewrite (Split_Join slash) in E by (done || by apply ordinary_without).
  exists (Split t slash). split_and!; [done| |apply Split_nonempty]. rewrite E in Op. by apply Forall_app in Op as [_ ?].
Qed.

Lemma rooted_app p t : rooted p = true → rooted (p ++ t) = true.
Proof. unfold rooted. rewrite !HasPrefix_spec. intros [q ->]. exists (q ++ t). done. Qed.

Lemma Path_Join_rooted d name : rooted d = true → Path_Join [d; name] = Clean (d ++ "/" ++ name).
Proof. intros Hr. cbn [Path_Join]. by destruct (bool_decide_reflect (d = "")) as [->|]. Qed.

Lemma CutLast_without s (c : ascii) : without c s = true → CutLast s (String c "") = None.
Proof.
  induction s as [|a s IH]; [done|]. intros [Ha%negb_true_iff Hs]%andb_true_iff.
  simpl. rewrite IH by done. destruct (ascii_dec c a) as [->|]; [by rewrite Ascii.eqb_refl in Ha|done].
Qed.

Lemma CutLast_last s (c : ascii) t : without c t = true → CutLast (s ++ String c t) (String c "") = Some (s, t).
Proof.
  intros Ht. induction s as [|a s IH].
  - change ("" ++ String c t) with (String c t). cbn [CutLast]. rewrite CutLast_without by done.
    unfold HasPrefix. cbn [String.prefix]. destruct (ascii_dec c c) as [_|[]]; [|done]. by destruct t.
  - rewrite sapp_cons. cbn [CutLast]. by rewrite IH.
Qed.

Lemma Join_snoc l x sep : l ≠ [] → Join (l ++ [x])%list sep = Join l sep ++ sep ++ x.
Proof.
  unfold Join. induction l as [|a l IH]; [done|]. intros _.
  destruct l as [|b l]; [done|]. change (String.concat sep ((a :: b :: l) ++ [x])%list)
    with (a ++ sep ++ String.concat sep ((b :: l) ++ [x])%list).
  rewrite IH by done. change (String.concat sep (a :: b :: l)) with (a ++ sep ++ String.concat sep (b :: l)).
  by rewrite !sapp_assoc.
Qed.

(** The directory of a rooted path drops its last component. *)
Lemma Dir_rootedPath l x : Forall ordinary l → ordinary x → Dir (rootedPath (l ++ [x])%list) = rootedPath l.
Proof.
  intros Hl Hx. assert (rootedPath (l ++ [x])%list = (if decide (l = []) then "" else rootedPath l) ++ String slash x) as E.
  { case_decide as Hn; [by subst|]. unfold rootedPath. rewrite Join_snoc by done. by rewrite <- sapp_assoc. }
  unfold Dir. rewrite E, (CutLast_last _ slash) by apply Hx.
  set (b := if decide (l = []) then "" else rootedPath l).
  assert (rooted (b ++ "/") = true) as Hr.
  { unfold b. case_decide; [done|]. apply rooted_app, rootedPath_rooted. }
  rewrite Clean_rooted by done. f_equal. unfold cleanComponents. rewrite Hr.
  change (b ++ "/") with (b ++ String slash ""). rewrite Split_app, foldl_app. cbn [Split foldl].
  assert (∀ s, cleanStep true s "" = s) as -> by done. unfold b. case_decide as Hn; [by subst|].
  pose proof (components_rootedPath l Hl) as Ec. unfold cleanComponents in Ec.
  by rewrite rootedPath_rooted in Ec.
Qed.

Lemma rooted_components p : rooted p = true → Clean p = p → p = rootedPath (cleanComponents p).
Proof. intros Hr Hc. by rewrite <- Clean_rooted, Hc. Qed.

(** The directory of an entry strictly below [d] is at or below [d]. *)
Lemma Dir_within d p : rooted p = true → Clean p = p → strictlyWithin d p → within d (Dir p).
Proof.
  intros Hr Hc (rest & E & Ho & Hne). destruct (exists_last Hne) as (l & x & ->).
  apply Forall_app in Ho as [Hol Hox]. inversion Hox as [|? ? Hx _]; subst.
  pose proof (cleanComponents_rooted p Hr) as Op. rewrite E, app_assoc in Op. apply Forall_app in Op as [Odl _].
  rewrite (rooted_components p Hr Hc), E, app_assoc, Dir_rootedPath by done.
  exists l. by rewrite components_rootedPath.
Qed.
