(* ===== verification/Archive.v ===== *)
(** * Archives: [internal/lib/archive/archive.go]

    Extraction of tar archives.  Reading the tar format and decompressing are
    libraries: an archive is the sequence of its headers, ended by the end of
    the file or an error.  What the package decides, where each entry goes and
    which are refused or skipped, is here, with the theorem that extraction
    stays in its directory. *)

From Stdlib Require Import Ascii.
From stdpp Require Import gmap strings list.
From S2P Require Import Prelude GoStrings Errs Files.
#[local] Open Scope string_scope.

Inductive Format := FormatUnknown | FormatTar | FormatTarGzip | FormatTarXz.
#[export] Instance Format_eq_dec : EqDecision Format.
Proof. solve_decision. Defined.

(** The types of entries, by their byte. *)
Inductive Typeflag := TypeReg | TypeRegA | TypeGNUSparse | TypeDir | TypeLink | TypeSymlink | TypeOther (flag : ascii).

(** [tar.Header]; the mode is [header.FileInfo().Mode()]. *)
Record Header := Header_ {
  hd_Name : string;
  hd_Typeflag : Typeflag;
  hd_Linkname : string;
  hd_Mode : Z;
}.

(** What a reader answers: entries, then an error unless the archive ended, and
    the error of closing it. *)
Record TarStream := TarStream_ {
  ts_Headers : list Header;
  ts_Error : option error;
  ts_Close : option error;
}.

Class Archives (W : Type) := {
  (** the first six bytes of a file that can be opened, or fewer *)
  ReadMagic : string → ST W (option string);
  OpenTar : Format → string → GoM W error TarStream;
  CreateFile : string → Z → GoM W error unit;
  CopyEntry : string → Header → GoM W error unit;
  HardLink : string → string → GoM W error unit;
}.

Definition gzipMagic : string := String (ascii_of_nat 31) (String (ascii_of_nat 139) "").
Definition xzMagic : string :=
  String (ascii_of_nat 253) (String (ascii_of_nat 55) (String (ascii_of_nat 122)
    (String (ascii_of_nat 88) (String (ascii_of_nat 90) (String (ascii_of_nat 0) ""))))).

Definition HasSuffix (s suffix : string) : bool := HasPrefix (srev s) (srev suffix).

Definition formatFromExtension (path : string) : Format :=
  let lower := ToLower path in
  if HasSuffix lower ".tar.gz" || HasSuffix lower ".tgz" then FormatTarGzip
  else if HasSuffix lower ".tar.xz" then FormatTarXz
  else if HasSuffix lower ".tar" then FormatTar
  else FormatUnknown.

Section Archive.
Context {W : Type} `{Files W} `{Archives W}.
#[local] Notation M := (GoM W error).

Definition failedTo (what : string) (err : error) : error := Errorf (what ++ ": " ++ Error err) (Some err).

(** [if err != nil { return fmt.Errorf(what + ": %w", err) }]. *)
Definition orFail {A} (what : string) (m : M A) : M A :=
  r ← try m;
  match r with Ok a => mret a | Err err => throw (failedTo what err) end.

Definition DetectFormat (path : string) : ST W Format :=
  magic ← ReadMagic path;
  mret (match magic with
        | None => formatFromExtension path
        | Some header =>
            if (String.length header <? 2)%nat then FormatUnknown
            else if HasPrefix header gzipMagic then FormatTarGzip
            else if bool_decide (header = xzMagic) then FormatTarXz
            else formatFromExtension path
        end).

Definition IsArchive (path : string) : ST W bool :=
  format ← DetectFormat path;
  mret (negb (bool_decide (format = FormatUnknown))).

Definition openArchive (path : string) : M TarStream :=
  format ← calls (DetectFormat path);
  if decide (format = FormatUnknown) then throw (Errorf ("unsupported archive format: " ++ path) None)
  else OpenTar format path.

(** ** Extraction *)

Definition traversal (what name : string) : error := Errorf ("path traversal detected" ++ what ++ ": " ++ name) None.

(** The check of a path against the directory. *)
Definition escapes (destDir target : string) : bool :=
  negb (bool_decide (target = destDir)) && negb (HasPrefix target (destDir ++ "/")).

(** One entry; a hard link is put off, its target and what it links to. *)
Definition extractEntry (destDir : string) (filter : string → bool) (header : Header)
    (hardlinks : list (string * string)) : M (list (string * string)) :=
  let target := Path_Join [destDir; hd_Name header] in
  if escapes destDir target then throw (traversal "" (hd_Name header))
  else if negb (filter (hd_Name header)) then mret hardlinks
  else
    match hd_Typeflag header with
    | TypeDir => _ ← orFail ("mkdir " ++ target) (MkdirAll target); mret hardlinks
    | TypeReg | TypeRegA | TypeGNUSparse =>
        _ ← orFail ("mkdir " ++ Dir target) (MkdirAll (Dir target));
        _ ← orFail ("create " ++ target) (CreateFile target (hd_Mode header));
        _ ← orFail ("write " ++ target) (CopyEntry target header);
        mret hardlinks
    | TypeLink =>
        let linkTarget := Path_Join [destDir; hd_Linkname header] in
        if escapes destDir linkTarget then throw (traversal " in hardlink" (hd_Linkname header))
        else mret (hardlinks ++ [(target, linkTarget)])%list
    | TypeSymlink | TypeOther _ => mret hardlinks
    end.

Fixpoint extractLoop (destDir : string) (filter : string → bool) (headers : list Header)
    (hardlinks : list (string * string)) : M (list (string * string)) :=
  match headers with
  | [] => mret hardlinks
  | header :: rest =>
      hardlinks ← extractEntry destDir filter header hardlinks;
      extractLoop destDir filter rest hardlinks
  end.

Definition makeLink (hl : string * string) : M unit :=
  let '(target, link) := hl in
  _ ← orFail ("mkdir " ++ Dir target) (MkdirAll (Dir target));
  orFail ("link " ++ target ++ " -> " ++ link) (HardLink link target).

Definition extractTarReader (r : TarStream) (destDir : string) (filter : string → bool) : M unit :=
  let destDir := Clean destDir in
  hardlinks ← extractLoop destDir filter (ts_Headers r) [];
  match ts_Error r with
  | Some err => throw (failedTo "tar read" err)
  | None => forOk hardlinks makeLink
  end.

(** A failure to close the archive is dropped. *)
Definition extractFiltered (path destDir : string) (filter : string → bool) : M unit :=
  _ ← orFail "create extract dir" (MkdirAll destDir);
  ar ← openArchive path;
  extractTarReader ar destDir filter.

Definition Unpack (r : TarStream) (destDir : string) : M unit := extractTarReader r destDir (λ _, true).
Definition Extract (path destDir : string) : M unit := extractFiltered path destDir (λ _, true).
Definition ExtractMembers (path destDir : string) (members : list string) : M unit :=
  extractFiltered path destDir (λ name, bool_decide (name ∈ members)).

(** *** Chosen entries *)

Record RenameEntry := RenameEntry_ {
  ArchiveName : string;
  OutputPath : string;
  Mode : Z;
}.

(** The entry that wants a member: by its base name, or by its full name. *)
Definition wanted (needed : gmap string RenameEntry) (name : string) : option RenameEntry :=
  match needed !! Base name with
  | Some e => Some e
  | None => if Contains name "/" then needed !! name else None
  end.

Fixpoint renameLoop (headers : list Header) (needed : gmap string RenameEntry) : M (gmap string RenameEntry) :=
  match headers with
  | [] => mret needed
  | header :: rest =>
      match wanted needed (hd_Name header) with
      | None => renameLoop rest needed
      | Some entry =>
          let out := OutputPath entry in
          let mode := if (Mode entry =? 0)%Z then 420%Z else Mode entry in
          _ ← orFail ("mkdir " ++ Dir out) (MkdirAll (Dir out));
          _ ← orFail ("create " ++ out) (CreateFile out mode);
          _ ← orFail ("write " ++ out) (CopyEntry out header);
          renameLoop rest (delete (ArchiveName entry) needed)
      end
  end.

(** The error of closing the archive, unless there was another one. *)
Definition closing {A} (ar : TarStream) (m : M A) : M A :=
  a ← m;
  match ts_Close ar with Some err => throw err | None => mret a end.

(** [missing] is the order in which Go ranges over the entries left. *)
Definition ExtractRenamed (missing : gmap string RenameEntry → list string) (path : string)
    (entries : list RenameEntry) : M unit :=
  let needed := foldl (λ m e, <[ArchiveName e := e]> m) ∅ entries in
  ar ← openArchive path;
  closing ar (
    left_ ← renameLoop (ts_Headers ar) needed;
    match ts_Error ar with
    | Some err => throw (failedTo "tar read" err)
    | None =>
        if decide (left_ = ∅) then mret ()
        else throw (Errorf ("archive missing entries: " ++ Join (missing left_) ", ") None)
    end).

Definition Validate (path : string) : M unit :=
  ar ← openArchive path;
  closing ar (match ts_Error ar with
              | Some err => throw (failedTo "archive validation failed" err)
              | None => mret ()
              end).

Definition List (path : string) : M (list string) :=
  ar ← openArchive path;
  closing ar (match ts_Error ar with
              | Some err => throw (failedTo "list archive" err)
              | None => mret (hd_Name <$> ts_Headers ar)
              end).
End Archive.

(** ** Extraction stays in its directory *)
Section Confinement.
Context {W : Type} `{Files W} `{Archives W} (R : relation W) `{!PreOrder R}.
Context (destDir : string) (Hroot : rooted destDir = true).

#[local] Notation d := (Clean destDir).

(** Calls on paths at or below the directory are those [R] allows. *)
Record allowed : Prop := {
  allowed_mkdir p : within d p ∨ p = Dir d → upholds (A := result error unit) R (MkdirAll p);
  allowed_create p mode : within d p → upholds (A := result error unit) R (CreateFile p mode);
  allowed_copy p h : within d p → upholds (A := result error unit) R (CopyEntry p h);
  allowed_link old new : within d old → within d new → upholds (A := result error unit) R (HardLink old new);
}.

Context (Hallowed : allowed).

Lemma orFail_upholds {A} what (m : GoM W error A) :
  upholds (A := result error A) R m → upholds (A := result error A) R (orFail what m).
Proof.
  intros Hm. unfold orFail. apply upholds_okbind; [apply _|by apply upholds_try|]. intros [a|e]; upholds.
Qed.

(** A path that passes the check is cleaned, and within the directory. *)
Lemma join_checked name :
  escapes d (Path_Join [d; name]) = false →
  let p := Path_Join [d; name] in within d p ∧ (within d (Dir p) ∨ Dir p = Dir d).
Proof.
  assert (rooted d = true) as Hd by by rewrite Clean_rooted, rootedPath_rooted.
  assert (rooted (d ++ "/" ++ name) = true) as Hp by by apply rooted_app.
  rewrite Path_Join_rooted by done. set (p := d ++ "/" ++ name). intros E. cbv zeta.
  unfold escapes in E. destruct (bool_decide_reflect (Clean p = d)) as [->|Hne]; simpl in E.
  - split; [apply within_refl|by right].
  - apply negb_false_iff in E. rewrite <- (Clean_idemp destDir Hroot) in E.
    apply HasPrefix_within in E; [|done..]. rewrite (Clean_idemp destDir Hroot) in E.
    split; [by apply strictly_within|left]. apply Dir_within; [|by apply Clean_idemp|done].
    by rewrite Clean_rooted, rootedPath_rooted.
Qed.

Definition linksOK (hardlinks : list (string * string)) : Prop :=
  Forall (λ hl, (within d hl.1 ∧ (within d (Dir hl.1) ∨ Dir hl.1 = Dir d)) ∧ within d hl.2) hardlinks.

Lemma extractEntry_upholds filter header hardlinks :
  upholds (A := result error (list (string * string))) R (extractEntry d filter header hardlinks).
Proof.
  unfold extractEntry. destruct (escapes _ _) eqn:E; [upholds|]. destruct (negb _); [upholds|].
  apply join_checked in E as [Hin Hdir].
  destruct (hd_Typeflag header).
  5: destruct (escapes _ _); upholds.
  5-6: upholds.
  1-3: apply upholds_okbind; [apply _|apply orFail_upholds, Hallowed; done|intros _];
    apply upholds_okbind; [apply _|by apply orFail_upholds, Hallowed|intros _];
    apply upholds_okbind; [apply _|by apply orFail_upholds, Hallowed|intros _]; upholds.
  apply upholds_okbind; [apply _|apply orFail_upholds, Hallowed; by left|intros _]. upholds.
Qed.

Lemma extractEntry_links filter header hardlinks w hardlinks' w' :
  linksOK hardlinks → extractEntry d filter header hardlinks w = (Ok hardlinks', w') → linksOK hardlinks'.
Proof.
  intros Hl. unfold extractEntry. destruct (escapes _ _) eqn:E; [done|].
  destruct (negb _); [by intros [= <-]|].
  destruct (hd_Typeflag header); try (by intros [= <-]).
  1-3: intros (? & ? & _ & E1)%bind_Ok_inv; apply bind_Ok_inv in E1 as (? & ? & _ & E1);
    apply bind_Ok_inv in E1 as (? & ? & _ & E1); by injection E1 as <-.
  - intros (? & ? & _ & E1)%bind_Ok_inv. by injection E1 as <-.
  - destruct (escapes d (Path_Join [d; hd_Linkname header])) eqn:E2; [done|]. intros [= <-].
    apply Forall_app. split; [done|]. constructor; [|constructor]. cbn [fst snd].
    split; [by apply join_checked|]. by apply join_checked in E2 as [? _].
Qed.

Lemma extractLoop_spec filter headers hardlinks w :
  linksOK hardlinks →
  R w (extractLoop d filter headers hardlinks w).2 ∧
  match (extractLoop d filter headers hardlinks w).1 with Ok links => linksOK links | Err _ => True end.
Proof.
  revert hardlinks w. induction headers as [|header rest IH]; intros hardlinks w Hl; cbn [extractLoop].
  { simpl. by split. }
  rewrite bind_unfold. pose proof (extractEntry_upholds filter header hardlinks w) as Hu.
  destruct (extractEntry d filter header hardlinks w) as [[links|e] w1] eqn:E; [|by split].
  destruct (IH links w1) as [Hr Hm]; [by eapply extractEntry_links|]. split; [|done]. etrans; [exact Hu|exact Hr].
Qed.

(** C37. Whatever an archive holds, extracting it into an absolute directory acts
    on the file system only by making directories, writing files and linking
    files at or below that directory (and by making sure that the directory it
    lies in exists): names with parent components or absolute names, of members
    and of link targets, are refused, and symbolic links are not made. *)
Theorem extract_confined (r : TarStream) (filter : string → bool) :
  upholds (A := result error unit) R (extractTarReader r destDir filter).
Proof.
  intros w. unfold extractTarReader. cbv zeta. rewrite bind_unfold.
  destruct (extractLoop_spec filter (ts_Headers r) [] w) as [Hr Hl]; [constructor|].
  destruct (extractLoop d filter (ts_Headers r) [] w) as [[links|e] w1]; [|done]. simpl in Hr, Hl.
  etrans; [exact Hr|]. destruct (ts_Error r); [simpl; reflexivity|].
  clear Hr. revert w1. induction Hl as [|[target link] links [[Hin Hdir] Hlink] Hl IH]; intros w1; [simpl; reflexivity|].
  cbn [forOk fst snd] in *. revert w1. apply upholds_okbind; [apply _| |intros _; exact IH].
  unfold makeLink. apply upholds_okbind; [apply _|apply orFail_upholds, Hallowed; done|intros _].
  by apply orFail_upholds, Hallowed.
Qed.
End Confinement.

Module ArchiveExamples.

(** A world that logs the paths it is called with. *)
Definition touch (p : string) : GoM (list string) error unit := λ w, (Ok (), (w ++ [p])%list).

#[local] Instance logFiles : Files (list string) := {|
  MkdirAll := touch; Stat := touch; IsNotExist := λ _, false; RemoveFile := touch; RemoveAll := touch;
|}.
#[local] Instance logArchives : Archives (list string) := {|
  ReadMagic := λ _ w, (None, w);
  OpenTar := λ _ _ w, (Ok (TarStream_ [] None None), w);
  CreateFile := λ p _, touch p;
  CopyEntry := λ p _, touch p;
  HardLink := λ old new w, (Ok (), (w ++ [old; new])%list);
|}.

Definition logged (d : string) (w w' : list string) : Prop :=
  ∃ l, w' = (w ++ l)%list ∧ Forall (λ p, within d p ∨ p = Dir d) l.

#[local] Instance logged_preorder d : PreOrder (logged d).
Proof.
  split.
  - intros w. exists []. by rewrite app_nil_r.
  - intros w1 w2 w3 (l & -> & Hl) (l' & -> & Hl'). exists (l ++ l')%list.
    rewrite app_assoc. split; [done|]. by apply Forall_app.
Qed.

Definition evil : TarStream :=
  TarStream_ [Header_ "./bin/fc" TypeReg "" 493; Header_ "hard" TypeLink "/bin/fc" 420;
              Header_ "link" TypeSymlink "/etc" 511; Header_ "a/../../etc/passwd" TypeReg "" 420] None None.

Lemma extract_confined_witness :
  (extractTarReader evil "/tmp/x/" (λ _, true) []).2 =
    ["/tmp/x/bin"; "/tmp/x/bin/fc"; "/tmp/x/bin/fc"] ∧
  logged "/tmp/x" [] (extractTarReader evil "/tmp/x/" (λ _, true) []).2.
Proof.
  split; [vm_compute; reflexivity|].
  assert (Clean "/tmp/x/" = "/tmp/x") as Ec by (vm_compute; reflexivity).
  assert (∀ p, within (Clean "/tmp/x/") p ∨ p = Dir (Clean "/tmp/x/") →
    upholds (A := result error unit) (logged "/tmp/x") (touch p)) as Htouch.
  { intros p Hp w. exists [p]. rewrite Ec in Hp. split; [reflexivity|]. by apply Forall_singleton. }
  apply (extract_confined (logged "/tmp/x") "/tmp/x/" eq_refl).
  split; intros; [by apply Htouch|apply Htouch; by left..|].
  intros w. rewrite Ec in *. exists [old; new]. split; [reflexivity|]. constructor; [by left|]. by apply Forall_singleton; left.
Defined.
End ArchiveExamples.
