(* ===== verification/Resolving.v ===== *)
(** * Resolving lists of identifiers

    Every domain resolves a list of identifiers the same way ([ResolveMany] of
    the [resolver.go] of the domain): duplicates are dropped, each identifier is
    resolved on its own, what fails is reported in a list of messages, and an
    item named twice is kept once. *)

From stdpp Require Import gmap strings list.
From S2P Require Import Prelude GoStrings Errs Infra.
#[local] Open Scope string_scope.

Record Resolved (A : Type) := Resolved_ {
  rs_Items : list A;
  rs_Errors : list string;
  rs_ExitCode : Z;
}.
Arguments Resolved_ {A}.
Arguments rs_Items {A}.
Arguments rs_Errors {A}.
Arguments rs_ExitCode {A}.

Section ResolveMany.
Context {W A : Type} (key : A → string) (resolve : string → GoM W error A).

Fixpoint resolveEach (idents : list string) (items : list A) (errList : list string) (seen : gset string)
    : ST W (list A * list string) :=
  match idents with
  | [] => mret (items, errList)
  | ident :: rest =>
      r ← attempt (resolve ident);
      match r with
      | Err err => resolveEach rest items (errList ++ [Error err])%list seen
      | Ok item =>
          if decide (key item ∈ seen) then resolveEach rest items errList seen
          else resolveEach rest (items ++ [item])%list errList ({[key item]} ∪ seen)
      end
  end.

(** Some errors, and nothing found. *)
Definition exitCode (items : list A) (errList : list string) : Z :=
  if bool_decide (errList ≠ []) && bool_decide (items = []) then 1%Z else 0%Z.

Definition resolveAll (identifiers : list string) : ST W (list A * list string) :=
  resolveEach (Dedup identifiers) [] [] ∅.

(** The items found are distinct, and every one of them answers an identifier. *)
Lemma resolveEach_spec idents items errList seen w :
  NoDup (key <$> items) → (∀ x, x ∈ items → key x ∈ seen) →
  let '((items', errList'), w') := resolveEach idents items errList seen w in
  NoDup (key <$> items') ∧
  (∀ x, x ∈ items' → x ∈ items ∨ ∃ ident w1 w2, ident ∈ idents ∧ resolve ident w1 = (Ok x, w2)).
Proof.
  revert items errList seen w. induction idents as [|ident idents IH]; intros items errList seen w Hnd Hseen; cbn [resolveEach].
  { simpl. auto. }
  rewrite ST_bind_unfold. change (attempt (resolve ident) w) with (resolve ident w).
  destruct (resolve ident w) as [[item|err] w1] eqn:E; cbn [fst snd].
  - destruct (decide (key item ∈ seen)) as [Hin|Hin].
    + specialize (IH items errList seen w1 Hnd Hseen). destruct (resolveEach _ _ _ _ w1) as [[items' errs'] w'].
      destruct IH as [Hn Hx]. split; [done|]. intros x Hx'. destruct (Hx x Hx') as [|(i & ? & ? & ? & ?)]; [auto|].
      right. exists i. eexists _, _. split; [by right|done].
    + specialize (IH (items ++ [item])%list errList ({[key item]} ∪ seen) w1).
      destruct (resolveEach _ _ _ _ w1) as [[items' errs'] w'].
      destruct IH as [Hn Hx].
      * rewrite fmap_app. apply NoDup_app. split_and!; [done| |apply NoDup_singleton].
        intros k (y & -> & Hy)%list_elem_of_fmap Hk%list_elem_of_singleton. apply Hin. rewrite <- Hk. auto.
      * intros x. rewrite elem_of_app, list_elem_of_singleton. set_solver.
      * split; [done|]. intros x Hx'. destruct (Hx x Hx') as [Hi|(i & ? & ? & ? & ?)].
        -- apply elem_of_app in Hi as [|Hi%list_elem_of_singleton]; [auto|]. subst x. right.
           exists ident, w, w1. split; [left|done].
        -- right. exists i. eexists _, _. split; [by right|done].
  - specialize (IH items (errList ++ [Error err])%list seen w1 Hnd Hseen).
    destruct (resolveEach _ _ _ _ w1) as [[items' errs'] w'].
    destruct IH as [Hn Hx]. split; [done|]. intros x Hx'. destruct (Hx x Hx') as [|(i & ? & ? & ? & ?)]; [auto|].
    right. exists i. eexists _, _. split; [by right|done].
Qed.
End ResolveMany.
