(* ===== verification/Volumes.v ===== *)
(** * Volumes: [internal/core/volume]

    The data disks of the machines: the table [volumes], whose [id] is the
    primary key and whose [name] is unique, behind the class
    [VolumeRepository]; the resolver; the controller, which records whether a
    volume is attached; the service, which makes, resizes and removes the disk
    files with [fallocate] and [qemu-img]. *)

From Stdlib Require Import Ascii.
From stdpp Require Import gmap strings list.
From S2P Require Import Prelude GoStrings Errs Model Infra Sql System Files Resolving.
#[local] Open Scope string_scope.

Class VolumeRepository (W : Type) := {
  vr_Get : string → GoM W error (option VolumeItem);
  vr_FindByPrefix : string → GoM W error (list VolumeItem);
  vr_GetByName : string → GoM W error (option VolumeItem);
  vr_ListAll : GoM W error (list VolumeItem);
  vr_Upsert : VolumeItem → GoM W error unit;
  vr_Delete : string → GoM W error unit;
  vr_FindByIDs : list string → GoM W error (list VolumeItem);
  vr_Count : GoM W error Z;
}.

(** ** Fields *)

Definition volSetTimes (created updated : string) (v : VolumeItem) : VolumeItem :=
  VolumeItem_ (vol_ID v) (vol_Name v) (vol_SizeBytes v) (vol_Format v) (vol_Path v) (vol_Status v) (vol_VMID v)
    created updated (vol_IsReadOnly v) (vol_IsShareable v) (vol_CacheType v).
Definition volSetState (status : VolumeStatus) (vmID : option string) (v : VolumeItem) : VolumeItem :=
  VolumeItem_ (vol_ID v) (vol_Name v) (vol_SizeBytes v) (vol_Format v) (vol_Path v) status vmID
    (vol_CreatedAt v) (vol_UpdatedAt v) (vol_IsReadOnly v) (vol_IsShareable v) (vol_CacheType v).
Definition volSetSize (size : Z) (updated : string) (v : VolumeItem) : VolumeItem :=
  VolumeItem_ (vol_ID v) (vol_Name v) size (vol_Format v) (vol_Path v) (vol_Status v) (vol_VMID v)
    (vol_CreatedAt v) updated (vol_IsReadOnly v) (vol_IsShareable v) (vol_CacheType v).

(** [model.VolumeItem{}], which a failed query answers next to its error. *)
Definition volZero : VolumeItem := VolumeItem_ "" "" 0%Z "" "" "" None "" "" false false "".

(** Volumes that any number of machines may read. *)
Definition freelyShared (v : VolumeItem) : bool := vol_IsShareable v && vol_IsReadOnly v.

(** ** The SQLite implementation *)
Section Sqlite.
Context (like : string → string → bool) (constraintError : error).

#[local] Notation T := (list VolumeItem).
#[local] Notation M := (GoM (Db T) error).

Definition volsqlite_Get (id : string) : M (option VolumeItem) :=
  query (λ t : T, head (filter (λ v, vol_ID v = id) t)).

Definition volsqlite_FindByPrefix (prefix : string) : M T :=
  query (λ t : T, filter (λ v, like (prefix ++ "%") (vol_ID v)) t).

Definition volsqlite_GetByName (name : string) : M (option VolumeItem) :=
  query (λ t : T, head (filter (λ v, vol_Name v = name) t)).

Definition volsqlite_ListAll : M T := query (orderBy vol_CreatedAt).

Definition volUpsertRow (v : VolumeItem) (now : string) (t : T) : result error (unit * T) :=
  if decide (Exists (λ x, vol_Name x = vol_Name v ∧ vol_ID x ≠ vol_ID v) t) then Err constraintError
  else Ok ((), upsertBy vol_ID v (λ old, volSetTimes (vol_CreatedAt old) now v) t).

Definition volsqlite_Upsert (v : VolumeItem) : M unit := statement (volUpsertRow v).

Definition volsqlite_Delete (id : string) : M unit :=
  statement (λ _ (t : T), Ok ((), filter (λ v, vol_ID v ≠ id) t)).

Definition volsqlite_FindByIDs (ids : list string) : M T :=
  if decide (ids = []) then mret [] else query (λ t : T, filter (λ v, vol_ID v ∈ ids) t).

Definition volsqlite_Count : M Z := query (λ t : T, Z.of_nat (length t)).

Definition volSqliteRepo : VolumeRepository (Db T) := {|
  vr_Get := volsqlite_Get;
  vr_FindByPrefix := volsqlite_FindByPrefix;
  vr_GetByName := volsqlite_GetByName;
  vr_ListAll := volsqlite_ListAll;
  vr_Upsert := volsqlite_Upsert;
  vr_Delete := volsqlite_Delete;
  vr_FindByIDs := volsqlite_FindByIDs;
  vr_Count := volsqlite_Count;
|}.
End Sqlite.

(** ** The resolver *)
Section Resolver.
Context {W : Type} `{VolumeRepository W}.
#[local] Notation M := (GoM W error).

(** The relations to load, if any were asked for, and the callback that loads
    them: they are not part of the record. *)
Context (include : option (list string)) (enrichFn : option (list VolumeItem → ST W unit)).

Definition volumeNotFound (msg : string) : error := EDomain (NotFound CodeVolumeNotFound msg []).

Definition vol_enrich (volumes : list VolumeItem) : ST W (list VolumeItem) :=
  match include, enrichFn with
  | Some _, Some fn =>
      if decide (volumes = []) then mret volumes else (_ ← fn volumes; mret volumes)
  | _, _ => mret volumes
  end.

Definition vol_enrichOne (v : VolumeItem) : M VolumeItem := _ ← calls (vol_enrich [v]); mret v.

Definition vol_ByID (volumeID : string) : M VolumeItem :=
  matches ← vr_FindByPrefix volumeID;
  match matches with
  | [] => throw (volumeNotFound ("Volume not found: '" ++ volumeID ++ "'"))
  | [v] => vol_enrichOne v
  | _ => throw (EDomain (New CodeVolumeNotFound ("Volume ID is ambiguous: '" ++ volumeID ++ "'") []))
  end.

Definition vol_ByName (name : string) : M VolumeItem :=
  v ← vr_GetByName name;
  match v with
  | None => throw (volumeNotFound ("Volume not found by name: '" ++ name ++ "'"))
  | Some v => vol_enrichOne v
  end.

Definition vol_Resolve (identifier : string) : M VolumeItem :=
  r ← try (vol_ByName identifier);
  match r with
  | Ok v => mret v
  | Err err => if decide (IsNotFound err ≠ Some true) then throw err else vol_ByID identifier
  end.

Definition vol_ResolveMany (identifiers : list string) : ST W (Resolved VolumeItem) :=
  r ← resolveAll vol_ID vol_Resolve identifiers;
  let '(volumes, errList) := r in
  volumes ← vol_enrich volumes;
  mret (Resolved_ volumes errList (exitCode volumes errList)).

(** A map by id; later rows win. *)
Definition byID (volumes : list VolumeItem) : gmap string VolumeItem :=
  foldl (λ m v, <[vol_ID v := v]> m) ∅ volumes.

Definition vol_ResolveByIDs (ids : list string) : M (gmap string VolumeItem) :=
  if decide (ids = []) then mret ∅ else (volumes ← vr_FindByIDs ids; mret (byID volumes)).

(** [encoding/json] is a library: [unmarshal] reads a list of strings.
    [rangeIDs] is the order in which Go ranges over the set. *)
Definition vol_ResolveByVMVolumeIDs (unmarshal : string → option (list string)) (rangeIDs : gset string → list string)
    (idsList : list string) : M (gmap string (list VolumeItem)) :=
  let parsed (jsonStr : string) : list string := default [] (unmarshal jsonStr) in
  let allIDs : gset string := list_to_set (mjoin (parsed <$> idsList)) in
  resolvedMap ← (if decide (allIDs = ∅) then mret ∅
                 else resolved ← vr_FindByIDs (rangeIDs allIDs); mret (byID resolved));
  mret (foldl (λ m jsonStr, <[jsonStr := omap (λ id, resolvedMap !! id) (parsed jsonStr)]> m) ∅ idsList).
End Resolver.

(** ** The controller *)
Section Service.
Context {W : Type} `{VolumeRepository W} `{Files W} `{Runner W}.
#[local] Notation M := (GoM W error).

(** The volume the controller holds is the second result. *)
Definition volctl_Attach (v : VolumeItem) (vmID : string) : M VolumeItem :=
  if freelyShared v then mret v
  else
    let updated := volSetState VolumeStatusAttached (Some vmID) v in
    _ ← vr_Upsert updated; mret updated.

Definition volctl_Detach (v : VolumeItem) : M VolumeItem :=
  if freelyShared v then mret v
  else
    let updated := volSetState VolumeStatusAvailable None v in
    _ ← vr_Upsert updated; mret updated.

(** ** The service *)

Context (notRun : list string → RunResult → error) (now : ST W string).

Definition volumeError (msg : string) : error := EDomain (New CodeVolumeError msg []).

(** [if err != nil { return f(err) }]. *)
Definition volOr {A} (m : M A) (f : error → error) : M A :=
  r ← try m;
  match r with Ok a => mret a | Err err => throw (f err) end.

Definition volFailed (what : string) (err : error) : error := volumeError (what ++ ": " ++ Error err).

Definition CreateDisk (vol : VolumeItem) : M VolumeItem :=
  let size := Itoa (vol_SizeBytes vol) in
  _ ← volOr (MkdirAll (Dir (vol_Path vol))) (volFailed "create disk directory");
  _ ← (if decide (vol_Format vol = VolumeFormatRaw) then
         volOr (CheckedRun notRun ["fallocate"; "-l"; size; vol_Path vol]) (volFailed "fallocate failed")
       else if decide (vol_Format vol = VolumeFormatQCOW2) then
         volOr (CheckedRun notRun ["qemu-img"; "create"; "-f"; VolumeFormatQCOW2; vol_Path vol; size])
           (volFailed "qemu-img create failed")
       else throw (volumeError ("Unsupported format: " ++ vol_Format vol)));
  _ ← volOr (vr_Upsert vol) (volFailed "upsert volume after creation");
  mret vol.

(** Every failure is dropped. *)
Definition vol_Remove (volume : VolumeItem) : ST W unit :=
  _ ← attempt (vr_Delete (vol_ID volume));
  s ← attempt (Stat (vol_Path volume));
  match s with
  | Ok _ => _ ← attempt (RemoveFile (vol_Path volume)); mret ()
  | Err _ => mret ()
  end.

Definition ResizeDisk (vol : VolumeItem) (newSizeBytes : Z) : M VolumeItem :=
  let size := Itoa newSizeBytes in
  _ ← volOr (Stat (vol_Path vol))
        (λ err, if IsNotExist err then volumeError ("Disk file not found: " ++ vol_Path vol)
                else volFailed "stat disk file" err);
  _ ← (if decide (vol_Format vol = VolumeFormatRaw) then
         volOr (CheckedRun notRun ["fallocate"; "-l"; size; vol_Path vol]) (volFailed "fallocate resize failed")
       else if decide (vol_Format vol = VolumeFormatQCOW2) then
         volOr (CheckedRun notRun ["qemu-img"; "resize"; vol_Path vol; size]) (volFailed "qemu-img resize failed")
       else throw (volumeError ("Unsupported format: " ++ vol_Format vol)));
  updatedAt ← calls now;
  let vol := volSetSize newSizeBytes updatedAt vol in
  _ ← volOr (vr_Upsert vol) (volFailed "upsert volume after resize");
  mret vol.

(** A failure to record one volume is logged, and the others are tried. *)
Definition SetVolumesState (volumes : list VolumeItem) (status : VolumeStatus) (vmID : option string) : M unit :=
  if decide (volumes = []) then mret ()
  else if decide (status = VolumeStatusAttached) then
    if decide (default "" vmID = "") then
      throw (EDomain (New CodeValidationFailed "vm_id is required when state is ATTACHED" []))
    else calls (forEach volumes (λ vol,
      if freelyShared vol then mret ()
      else (_ ← attempt (volctl_Attach vol (default "" vmID)); mret ())))
  else if decide (status = VolumeStatusAvailable) then
    calls (forEach volumes (λ vol,
      if decide (vol_Status vol ≠ VolumeStatusAttached) then mret ()
      else (_ ← attempt (volctl_Detach vol); mret ())))
  else mret ().

(** ** [utils.go] *)

Definition VolumesToDrives (vols : list VolumeItem) : list DriveConfig :=
  (λ vol, DriveConfig_ (vol_ID vol) (vol_Path vol) false (vol_IsReadOnly vol) None (vol_CacheType vol) "Sync" AnyNil None) <$> vols.

Definition sanitizeStderr (stderr : string) : string :=
  let cleaned := TrimSpace stderr in
  if (100 <? String.length cleaned)%nat then stake 100 cleaned ++ "..." else cleaned.

(** The JSON that [qemu-img info] prints is read by a library. *)
Definition GetDiskInfo {A} (unmarshal : string → result error A) (path : string) : M A :=
  _ ← volOr (Stat path)
        (λ err, if IsNotExist err then volumeError ("Disk file not found: " ++ path)
                else Errorf ("stat disk file: " ++ Error err) (Some err));
  r ← volOr (CheckedRun notRun ["qemu-img"; "info"; "--output=json"; path]) (volFailed "qemu-img info failed");
  match unmarshal (Stdout r) with
  | Ok data => mret data
  | Err err => throw (Errorf ("parse qemu-img info output: " ++ Error err) (Some err))
  end.
End Service.
