(* ===== verification/FwRepo.v ===== *)
(** * The tables of firewall rules: [internal/lib/firewall/*_repository.go]

    The program keeps every rule it adds to the kernel in a table, one per
    backend: [iptables_rules] or [nftables_rules]
    ([internal/lib/db/migrations/001_initial_schema.sql]).  A rule that is
    removed stays as an inactive row.  Both tables belong to the networks: the
    foreign key [network_id] cascades. *)

From stdpp Require Import gmap strings list.
From S2P Require Import Prelude GoStrings Errs Model Sql.
#[local] Open Scope string_scope.

(** ** Tables *)

(** A table of rules, the next key of its AUTOINCREMENT column, the column
    [nft_handle], which no query reads, and the ids of the table [networks]. *)
Record FwTable := FwTable_ {
  fwRules : list FirewallRule;
  fwNextID : Z;
  fwHandles : gmap Z Z;
  fwNetworks : list string;
}.

Definition frSetActive (active : bool) (r : FirewallRule) : FirewallRule :=
  FirewallRule_ (fr_TableName r) (fr_ChainName r) (fr_RuleType r) (fr_Protocol r) (fr_Source r)
    (fr_Destination r) (fr_InInterface r) (fr_OutInterface r) (fr_Target r) (fr_SPort r)
    (fr_DPort r) (fr_NetworkID r) active (fr_ID r) (fr_NetworkName r) (fr_CommentTag r)
    (fr_CommandString r) (fr_CreatedAt r) (fr_LastVerifiedAt r).

Definition frSetID (id : option Z) (r : FirewallRule) : FirewallRule :=
  FirewallRule_ (fr_TableName r) (fr_ChainName r) (fr_RuleType r) (fr_Protocol r) (fr_Source r)
    (fr_Destination r) (fr_InInterface r) (fr_OutInterface r) (fr_Target r) (fr_SPort r)
    (fr_DPort r) (fr_NetworkID r) (fr_IsActive r) id (fr_NetworkName r) (fr_CommentTag r)
    (fr_CommandString r) (fr_CreatedAt r) (fr_LastVerifiedAt r).

Definition frSetVerified (at_ : option string) (r : FirewallRule) : FirewallRule :=
  FirewallRule_ (fr_TableName r) (fr_ChainName r) (fr_RuleType r) (fr_Protocol r) (fr_Source r)
    (fr_Destination r) (fr_InInterface r) (fr_OutInterface r) (fr_Target r) (fr_SPort r)
    (fr_DPort r) (fr_NetworkID r) (fr_IsActive r) (fr_ID r) (fr_NetworkName r) (fr_CommentTag r)
    (fr_CommandString r) (fr_CreatedAt r) at_.

Definition frSetComment (comment : option string) (r : FirewallRule) : FirewallRule :=
  FirewallRule_ (fr_TableName r) (fr_ChainName r) (fr_RuleType r) (fr_Protocol r) (fr_Source r)
    (fr_Destination r) (fr_InInterface r) (fr_OutInterface r) (fr_Target r) (fr_SPort r)
    (fr_DPort r) (fr_NetworkID r) (fr_IsActive r) (fr_ID r) (fr_NetworkName r) comment
    (fr_CommandString r) (fr_CreatedAt r) (fr_LastVerifiedAt r).

Definition frSetCommand (cmd : option string) (r : FirewallRule) : FirewallRule :=
  FirewallRule_ (fr_TableName r) (fr_ChainName r) (fr_RuleType r) (fr_Protocol r) (fr_Source r)
    (fr_Destination r) (fr_InInterface r) (fr_OutInterface r) (fr_Target r) (fr_SPort r)
    (fr_DPort r) (fr_NetworkID r) (fr_IsActive r) (fr_ID r) (fr_NetworkName r) (fr_CommentTag r)
    cmd (fr_CreatedAt r) (fr_LastVerifiedAt r).

(** The row an INSERT writes: the columns of the rule, its new key, its creation
    time; the name of its network has no column. *)
Definition frRow (id : Z) (createdAt : string) (r : FirewallRule) : FirewallRule :=
  FirewallRule_ (fr_TableName r) (fr_ChainName r) (fr_RuleType r) (fr_Protocol r) (fr_Source r)
    (fr_Destination r) (fr_InInterface r) (fr_OutInterface r) (fr_Target r) (fr_SPort r)
    (fr_DPort r) (fr_NetworkID r) (fr_IsActive r) (Some id) None (fr_CommentTag r)
    (fr_CommandString r) (Some createdAt) None.

(** The attributes [FindByAttributes] compares. *)
Definition attributes (r : FirewallRule) :=
  (fr_TableName r, fr_ChainName r, fr_RuleType r, fr_NetworkID r, fr_Protocol r, fr_Source r,
   fr_Destination r, fr_InInterface r, fr_OutInterface r, fr_SPort r, fr_DPort r).

(** The CHECK constraints of both tables. *)
Definition ruleOK (r : FirewallRule) : bool :=
  bool_decide (fr_TableName r ∈ ["nat"; "filter"])
  && HasPrefix (ToLower (fr_ChainName r)) "mvm-"
  && bool_decide (fr_RuleType r ∈ ["masquerade"; "forward_in"; "forward_out"; "nocloudnet_input"])
  && bool_decide (fr_Protocol r ∈ ["tcp"; "udp"; "icmp"; "all"]).

Definition setRules (l : list FirewallRule) (t : FwTable) : FwTable :=
  FwTable_ l (fwNextID t) (fwHandles t) (fwNetworks t).

Section Repositories.
(** [time.Now().Format(time.RFC3339)] of the clock, and the error of a violated
    constraint. *)
Context (rfc3339 : string → string) (constraintError : error).

#[local] Notation M := (GoM (Db FwTable) error).

Definition fwSelect (P : FirewallRule → bool) : M (list FirewallRule) :=
  query (λ t, filter P (fwRules t)).

(** [ORDER BY id]: rows are inserted with increasing keys and never moved. *)
Definition fwSelectByID (P : FirewallRule → bool) : M (list FirewallRule) := fwSelect P.

Definition fwUpdate (P : FirewallRule → bool) (f : FirewallRule → FirewallRule) : M Z :=
  statement (λ _ t, Ok (Z.of_nat (length (filter P (fwRules t))),
                        setRules ((λ r, if P r then f r else r) <$> fwRules t) t)).

Definition fwDelete (P : FirewallRule → bool) : M Z :=
  statement (λ _ t, Ok (Z.of_nat (length (filter P (fwRules t))),
                        setRules (filter (λ r, negb (P r)) (fwRules t)) t)).

(** INSERT: the CHECKs, the foreign key and the unique index over the active
    rows, which compares [sameRule]. *)
Definition insertRule (sameRule : FirewallRule → FirewallRule → bool) (rule : FirewallRule)
    (now : string) (t : FwTable) : result error (Z * FwTable) :=
  let createdAt := match fr_CreatedAt rule with
                   | Some c => if decide (c = "") then rfc3339 now else c
                   | None => rfc3339 now
                   end in
  if negb (ruleOK rule) then Err constraintError
  else if negb (bool_decide (fr_NetworkID rule ∈ fwNetworks t)) then Err constraintError
  else if fr_IsActive rule && existsb (λ r, fr_IsActive r && sameRule rule r) (fwRules t)
  then Err constraintError
  else Ok (fwNextID t,
           FwTable_ (fwRules t ++ [frRow (fwNextID t) createdAt rule]) (fwNextID t + 1)
             (fwHandles t) (fwNetworks t)).

(** ** [IPTablesRuleRepository] *)

Definition ipt_sameRule (r r' : FirewallRule) : bool :=
  bool_decide (attributes r = attributes r') && bool_decide (fr_Target r = fr_Target r').

Definition ipt_ListAll : M (list FirewallRule) := fwSelectByID (λ _, true).

Definition ipt_ListByNetworkID (networkID : string) : M (list FirewallRule) :=
  fwSelectByID (λ r, bool_decide (fr_NetworkID r = networkID)).

Definition ipt_ListByNetworkIDBatch (networkIDs : list string) : M (list FirewallRule) :=
  if decide (networkIDs = []) then mret []
  else fwSelectByID (λ r, bool_decide (fr_NetworkID r ∈ networkIDs)).

Definition ipt_Get (ruleID : Z) : M (option FirewallRule) :=
  query (λ t, head (filter (λ r, bool_decide (fr_ID r = Some ruleID)) (fwRules t))).

Definition ipt_GetByNetworkID (networkID : string) (activeOnly : bool) : M (list FirewallRule) :=
  if activeOnly then fwSelect (λ r, bool_decide (fr_NetworkID r = networkID) && fr_IsActive r)
  else fwSelect (λ r, bool_decide (fr_NetworkID r = networkID)).

Definition onInterface (iface : string) (r : FirewallRule) : bool :=
  bool_decide (fr_InInterface r = iface) || bool_decide (fr_OutInterface r = iface).

Definition ipt_GetByNetworkIDAndInterface (networkID iface : string) (activeOnly : bool)
    : M (list FirewallRule) :=
  if activeOnly
  then fwSelect (λ r, bool_decide (fr_NetworkID r = networkID) && fr_IsActive r && onInterface iface r)
  else fwSelect (λ r, bool_decide (fr_NetworkID r = networkID) && onInterface iface r).

Definition ipt_GetByTableChainName (tableName chainName : string) (activeOnly : bool)
    : M (list FirewallRule) :=
  if activeOnly
  then fwSelect (λ r, bool_decide (fr_TableName r = tableName) && bool_decide (fr_ChainName r = chainName) && fr_IsActive r)
  else fwSelect (λ r, bool_decide (fr_TableName r = tableName) && bool_decide (fr_ChainName r = chainName)).

(** The caller's rule with its new key. *)
Definition ipt_Insert (rule : FirewallRule) : M FirewallRule :=
  id ← statement (insertRule ipt_sameRule rule);
  mret (frSetID (Some id) rule).

Definition ipt_UpdateVerifiedAt (ruleID : Z) : M unit :=
  statement (λ now t, Ok ((), setRules
    ((λ r, if decide (fr_ID r = Some ruleID) then frSetVerified (Some now) r else r) <$> fwRules t) t)).

Definition ipt_MarkDeleted (ruleID : Z) : M unit :=
  _ ← fwUpdate (λ r, bool_decide (fr_ID r = Some ruleID)) (frSetActive false); mret ().

Definition ipt_DeleteByNetworkID (networkID : string) : M Z :=
  fwDelete (λ r, bool_decide (fr_NetworkID r = networkID)).

Definition ipt_DeleteInactive : M Z := fwDelete (λ r, negb (fr_IsActive r)).

Definition ipt_MarkDeletedByTableChainName (chainName tableName : string) : M Z :=
  fwUpdate (λ r, bool_decide (fr_TableName r = tableName) && bool_decide (fr_ChainName r = chainName) && fr_IsActive r)
    (frSetActive false).

Definition ipt_FindByAttributes (rule : FirewallRule) : M (option FirewallRule) :=
  query (λ t, head (filter (λ r, bool_decide (attributes r = attributes rule) && fr_IsActive r) (fwRules t))).

Fixpoint ipt_FindAndUpsertRules (rules newRules : list FirewallRule) : M (list FirewallRule) :=
  match rules with
  | [] => mret newRules
  | rule :: rest =>
      existing ← ipt_FindByAttributes rule;
      match existing ≫= fr_ID with
      | Some id => _ ← try (ipt_UpdateVerifiedAt id); ipt_FindAndUpsertRules rest newRules
      | None => inserted ← ipt_Insert rule; ipt_FindAndUpsertRules rest (newRules ++ [inserted])
      end
  end.

(** ** [NFTablesRuleRepository] *)

(** The unique index of [nftables_rules] leaves the table name out. *)
Definition nft_sameRule (r r' : FirewallRule) : bool :=
  bool_decide (fr_ChainName r = fr_ChainName r' ∧ fr_RuleType r = fr_RuleType r'
       ∧ fr_NetworkID r = fr_NetworkID r' ∧ fr_Protocol r = fr_Protocol r'
       ∧ fr_Source r = fr_Source r' ∧ fr_Destination r = fr_Destination r'
       ∧ fr_InInterface r = fr_InInterface r' ∧ fr_OutInterface r = fr_OutInterface r'
       ∧ fr_Target r = fr_Target r' ∧ fr_SPort r = fr_SPort r' ∧ fr_DPort r = fr_DPort r').

Definition nft_ListAll : M (list FirewallRule) := fwSelectByID (λ _, true).

Definition nft_ListAllActive : M (list FirewallRule) := fwSelectByID fr_IsActive.

Definition nft_ListByNetworkID (networkID : string) : M (list FirewallRule) :=
  fwSelectByID (λ r, bool_decide (fr_NetworkID r = networkID)).

Definition nft_ListByNetworkIDBatch (networkIDs : list string) : M (list FirewallRule) :=
  if decide (networkIDs = []) then mret []
  else fwSelectByID (λ r, bool_decide (fr_NetworkID r ∈ networkIDs)).

Definition nft_Get (ruleID : Z) : M (option FirewallRule) :=
  query (λ t, head (filter (λ r, bool_decide (fr_ID r = Some ruleID)) (fwRules t))).

Definition nft_GetByNetworkID (networkID : string) (activeOnly : bool) : M (list FirewallRule) :=
  if activeOnly then fwSelect (λ r, bool_decide (fr_NetworkID r = networkID) && fr_IsActive r)
  else fwSelect (λ r, bool_decide (fr_NetworkID r = networkID)).

Definition nft_GetByNetworkIDAndInterface (networkID iface : string) (activeOnly : bool)
    : M (list FirewallRule) :=
  if activeOnly
  then fwSelect (λ r, bool_decide (fr_NetworkID r = networkID) && fr_IsActive r && onInterface iface r)
  else fwSelect (λ r, bool_decide (fr_NetworkID r = networkID) && onInterface iface r).

Definition nft_Insert (rule : FirewallRule) : M FirewallRule :=
  id ← statement (insertRule nft_sameRule rule);
  mret (frSetID (Some id) rule).

Definition nft_UpdateVerifiedAt (ruleID : Z) : M unit :=
  statement (λ now t, Ok ((), setRules
    ((λ r, if decide (fr_ID r = Some ruleID) then frSetVerified (Some now) r else r) <$> fwRules t) t)).

Definition nft_MarkDeleted (ruleID : Z) : M unit :=
  _ ← fwUpdate (λ r, bool_decide (fr_ID r = Some ruleID)) (frSetActive false); mret ().

Definition nft_MarkDeletedByChain (chain : string) : M Z :=
  fwUpdate (λ r, bool_decide (fr_ChainName r = chain) && fr_IsActive r) (frSetActive false).

Definition nft_UpdateHandle (ruleID nftHandle : Z) : M unit :=
  statement (λ _ t, Ok ((),
    if decide (Some ruleID ∈ fr_ID <$> fwRules t)
    then FwTable_ (fwRules t) (fwNextID t) (<[ruleID := nftHandle]> (fwHandles t)) (fwNetworks t)
    else t)).

Definition nft_FindByAttributes (rule : FirewallRule) : M (option FirewallRule) :=
  query (λ t, head (filter (λ r, bool_decide (attributes r = attributes rule) && fr_IsActive r) (fwRules t))).

Fixpoint nft_FindAndUpsertRules (rules newRules : list FirewallRule) : M (list FirewallRule) :=
  match rules with
  | [] => mret newRules
  | rule :: rest =>
      existing ← nft_FindByAttributes rule;
      match existing ≫= fr_ID with
      | Some id => _ ← try (nft_UpdateVerifiedAt id); nft_FindAndUpsertRules rest newRules
      | None => inserted ← nft_Insert rule; nft_FindAndUpsertRules rest (newRules ++ [inserted])
      end
  end.
End Repositories.

(** ** Theory *)

(** Every row has its own key, below the next one. *)
Definition idsOK (t : FwTable) : Prop :=
  NoDup (fr_ID <$> fwRules t) ∧ Forall (λ r, ∃ i, fr_ID r = Some i ∧ (i < fwNextID t)%Z) (fwRules t).

(** The rows that record a rule. *)
Definition recorded (rule : FirewallRule) (t : FwTable) : list FirewallRule :=
  filter (λ r, bool_decide (attributes r = attributes rule) && fr_IsActive r) (fwRules t).

(** A database without faults of its own, at rest. *)
Definition healthy (d : Db FwTable) : Prop := faults d = [].

Lemma query_healthy {A} (q : FwTable → A) d : healthy d → query q d = (Ok (q (tables d)), d).
Proof. unfold query. intros Hd. rewrite statement_healthy by done. destruct d. by cbv in Hd; subst. Qed.

Lemma find_healthy rule d :
  healthy d → ipt_FindByAttributes rule d = (Ok (head (recorded rule (tables d))), d).
Proof. apply query_healthy. Qed.

(** The rows but for the time of their last verification. *)
Definition unverified (t : FwTable) : list FirewallRule := frSetVerified None <$> fwRules t.

Lemma UpdateVerifiedAt_healthy id d :
  healthy d →
  ∃ d', ipt_UpdateVerifiedAt id d = (Ok (), d') ∧ healthy d' ∧ unverified (tables d') = unverified (tables d).
Proof.
  intros Hd. unfold ipt_UpdateVerifiedAt. rewrite statement_healthy by done. eexists. split_and!; [done..|].
  unfold unverified, setRules. simpl. rewrite <- list_fmap_compose.
  apply list_fmap_ext. intros _ r _. simpl. by destruct (decide (fr_ID r = Some id)).
Qed.

Section Inserting.
Context (rfc3339 : string → string) (constraintError : error).
Notation Insert := (ipt_Insert rfc3339 constraintError).

(** An insertion that succeeds appends one row, with the attributes, the state,
    the target and the comment of the rule, under a fresh key. *)
Lemma Insert_healthy rule d r d' :
  healthy d → Insert rule d = (Ok r, d') →
  healthy d' ∧ r = frSetID (Some (fwNextID (tables d))) rule ∧
  ∃ created, tables d' = FwTable_ (fwRules (tables d) ++ [frRow (fwNextID (tables d)) created rule])%list
    (fwNextID (tables d) + 1) (fwHandles (tables d)) (fwNetworks (tables d)).
Proof.
  intros Hd. unfold ipt_Insert. rewrite bind_unfold, statement_healthy by done.
  unfold insertRule. destruct (negb (ruleOK rule)); [by intros|].
  destruct (negb (bool_decide _)); [by intros|]. destruct (_ && _); [by intros|].
  intros [= <- <-]. split_and!; [done..|]. by eexists.
Qed.

Lemma idsOK_inserted t created rule :
  idsOK t →
  idsOK (FwTable_ (fwRules t ++ [frRow (fwNextID t) created rule])%list (fwNextID t + 1)
           (fwHandles t) (fwNetworks t)).
Proof.
  intros [Hnd Hlt]. split; simpl.
  - rewrite fmap_app. apply NoDup_app. split_and!; [done| |apply NoDup_singleton].
    intros i (r & -> & Hr)%list_elem_of_fmap Hi%list_elem_of_singleton.
    rewrite Forall_forall in Hlt. destruct (Hlt r Hr) as (j & Hj & Hjlt).
    rewrite Hj in Hi. simpl in Hi. injection Hi. lia.
  - apply Forall_app. split.
    + eapply Forall_impl; [exact Hlt|]. intros r (i & Hi & Hilt). exists i. split; [done|lia].
    + apply Forall_singleton. exists (fwNextID t). split; [done|lia].
Qed.
End Inserting.

Lemma MarkDeleted_healthy id d :
  healthy d →
  ipt_MarkDeleted id d =
    (Ok (), Db_ (setRules ((λ r, if bool_decide (fr_ID r = Some id) then frSetActive false r else r)
                             <$> fwRules (tables d)) (tables d)) [] (clock d)).
Proof.
  intros Hd. unfold ipt_MarkDeleted, fwUpdate. by rewrite bind_unfold, statement_healthy by done.
Qed.

Lemma recorded_unverified rule t t' :
  unverified t = unverified t' → recorded rule t = [] → recorded rule t' = [].
Proof.
  assert (∀ t, frSetVerified None <$> recorded rule t =
    filter (λ r, bool_decide (attributes r = attributes rule) && fr_IsActive r) (unverified t)) as Hf.
  { clear t t'. intros t. unfold recorded, unverified. induction (fwRules t) as [|r l IH]; [done|].
    rewrite fmap_cons, !filter_cons. simpl.
    change (attributes (frSetVerified None r)) with (attributes r).
    destruct (decide _); [|done]. by rewrite fmap_cons, IH. }
  intros Hu Ht. pose proof (Hf t) as E. rewrite Ht, Hu, <- Hf in E.
  by destruct (recorded rule t').
Qed.
