(* ===== verification/IPTables.v ===== *)
(** * The iptables backend: [internal/lib/firewall/iptables.go]

    [IPTablesTracker] adds and removes rules in the kernel by running
    [iptables] and [iptables-restore], and records them in the table
    [iptables_rules].  The kernel is a world that runs commands; what the
    theorems use of [iptables] is the class [Iptables], whose laws state its
    documented behaviour on the chains of a table. *)

From Stdlib Require Import Ascii.
From stdpp Require Import gmap strings list.
From S2P Require Import Prelude GoStrings Errs Model Sql System FwRepo.
#[local] Open Scope string_scope.

Definition CLIName : string := "mvm".

(** The database and the kernel. *)
Record FW (K : Type) := FW_ { fdb : Db FwTable; fkern : K }.
Arguments FW_ {K}.
Arguments fdb {K}.
Arguments fkern {K}.

Definition onTable {K A} (m : GoM (Db FwTable) error A) : ST (FW K) (result error A) := λ w,
  let '(r, d) := m (fdb w) in (r, FW_ d (fkern w)).

Definition onKernel {K A} (m : ST K A) : ST (FW K) A := λ w,
  let '(a, k) := m (fkern w) in (a, FW_ (fdb w) k).

(** [infra.DerefOrZero]. *)
Definition orEmpty (s : option string) : string := default "" s.

(** A pointer that is nil or points to the empty string. *)
Definition unset (s : option string) : bool := bool_decide (orEmpty s = "").

(** The zero value of the struct. *)
Definition zeroRule : FirewallRule :=
  FirewallRule_ "" "" "" "" "" "" "" "" "" 0 0 "" false None None None None None None.

Definition succeeded (rule : option FirewallRule) (cmd : option string) : FirewallRuleResult :=
  FirewallRuleResult_ true rule None cmd.
Definition failed (msg : string) (cmd : option string) : FirewallRuleResult :=
  FirewallRuleResult_ false None (Some msg) cmd.

Definition MaxCommentLen : nat := 240.

Definition chainToTable : list (FirewallChain * string) :=
  [(FirewallChainMVMForward, "filter");
   (FirewallChainMVMPostrouting, "nat");
   (FirewallChainMVMNocloudNetIn, "filter")].

Definition ActionCheck : string := "-C".
Definition ActionAppend : string := "-A".
Definition ActionDelete : string := "-D".

(** The chains of [Initialize] and [Teardown], with their tables and the chains
    that jump to them. *)
Definition mvmChains : list (FirewallChain * FirewallTable * string) :=
  [(FirewallChainMVMForward, FirewallTableFilter, "FORWARD");
   (FirewallChainMVMPostrouting, FirewallTableNat, "POSTROUTING");
   (FirewallChainMVMNocloudNetIn, FirewallTableFilter, "INPUT")].

Definition newline : string := String (ascii_of_nat 10) "".

(** [strings.TrimRight(s, c)]. *)
Fixpoint trimLeftChar (c : ascii) (s : string) : string :=
  match s with
  | String d s' => if Ascii.eqb d c then trimLeftChar c s' else s
  | "" => ""
  end.
Definition TrimRight (s : string) (c : ascii) : string := srev (trimLeftChar c (srev s)).

Definition outputLines (r : RunResult) : list string :=
  Split (TrimRight (Stdout r) (ascii_of_nat 10)) (ascii_of_nat 10).

Section IPTables.
Context {K : Type} `{Runner K}.
Context (rfc3339 : string → string) (constraintError : error).

(** The field [xtcommentAvailable] of the tracker, and the order in which
    [range chainToTable] visits the map for a table. *)
Context (xtcommentAvailable : bool) (rangeChains : string → list (FirewallChain * string)).

#[local] Notation M := (ST (FW K)).
#[local] Notation Insert := (ipt_Insert rfc3339 constraintError).
#[local] Notation FindAndUpsertRules := (ipt_FindAndUpsertRules rfc3339 constraintError).

(** [system.DefaultRunner.Run] without input. *)
Definition command (args : list string) : M RunResult := onKernel (Run args "").

Definition buildComment (ruleType : FirewallRuleType) (networkName contextLabel : string) : string :=
  let comment := CLIName ++ ":" ++ ruleType ++ ":" ++ networkName in
  let comment := if bool_decide (contextLabel = "") then comment else comment ++ ":" ++ contextLabel in
  if (MaxCommentLen <? String.length comment)%nat then stake MaxCommentLen comment else comment.

(** The words of a rule after its chain, in [iptables] and in the input of
    [iptables-restore]. *)
Definition ruleSpec (rule : FirewallRule) : list string :=
  (if bool_decide (fr_Protocol rule = FirewallProtocolAll) then [] else ["-p"; fr_Protocol rule]) ++
  (if bool_decide (fr_Source rule = FirewallWildcardAnyCIDR) then [] else ["-s"; fr_Source rule]) ++
  (if bool_decide (fr_Destination rule = FirewallWildcardAnyCIDR) then [] else ["-d"; fr_Destination rule]) ++
  (if bool_decide (fr_InInterface rule = FirewallWildcardAnyInterface) then [] else ["-i"; fr_InInterface rule]) ++
  (if bool_decide (fr_OutInterface rule = FirewallWildcardAnyInterface) then [] else ["-o"; fr_OutInterface rule]) ++
  (if bool_decide (fr_SPort rule = FirewallPortAny) then [] else ["--sport"; Itoa (fr_SPort rule)]) ++
  (if bool_decide (fr_DPort rule = FirewallPortAny) then [] else ["--dport"; Itoa (fr_DPort rule)]) ++
  ["-j"; fr_Target rule] ++
  (if negb (unset (fr_CommentTag rule)) && xtcommentAvailable
   then ["-m"; "comment"; "--comment"; orEmpty (fr_CommentTag rule)] else []).

Definition buildIptablesArgs (rule : FirewallRule) (action : string) : list string :=
  ["iptables"; "-t"; fr_TableName rule; action; fr_ChainName rule] ++ ruleSpec rule.

Definition buildRestoreLine (rule : FirewallRule) : string :=
  Join (["-A"; fr_ChainName rule] ++ ruleSpec rule) " ".

(** The lines that empty a chain before the rules, and keep the established
    connections alive. *)
Definition chainLines (table chain : string) : list string :=
  [":" ++ chain ++ " - [0:0]"; "-F " ++ chain] ++
  (if bool_decide (table = "filter")
   then ["-A " ++ chain ++ " -m conntrack --ctstate ESTABLISHED,RELATED -j ACCEPT"] else []).

Definition restoreLines (rules : list FirewallRule) (table : string) : list string :=
  ["*" ++ table] ++
  mjoin ((λ ct, if bool_decide (ct.2 = table) then chainLines table ct.1 else []) <$> rangeChains table) ++
  (buildRestoreLine <$> rules) ++
  ["COMMIT"; ""].

Definition buildRestoreInput (rules : list FirewallRule) (table : string) : string :=
  Join (restoreLines rules table) newline.

Definition CheckCommentAvailable : M bool :=
  r ← command ["iptables"; "-C"; "INPUT"; "-m"; "comment"; "--comment"; "mvmctl-probe"; "-j"; "ACCEPT"];
  mret (Success r).

Definition RuleExists (rule : FirewallRule) : M bool :=
  r ← command (buildIptablesArgs rule ActionCheck); mret (Success r).

(** *** Rules *)

Definition commented (rule : FirewallRule) (contextLabel : string) : FirewallRule :=
  if unset (fr_CommentTag rule)
  then frSetComment (Some (buildComment (fr_RuleType rule) (orEmpty (fr_NetworkName rule)) contextLabel)) rule
  else rule.

Definition cmdFailed (prefix cmd : string) (r : RunResult) : string :=
  prefix ++ cmd ++ " failed (exit " ++ Itoa (RR_ExitCode r) ++ "): " ++ Stderr r.

(** [if e.ID != nil { _ = t.repo.UpdateVerifiedAt(ctx, *e.ID) }]. *)
Definition verified (id : option Z) : M unit :=
  match id with
  | Some id => _ ← onTable (ipt_UpdateVerifiedAt id); mret ()
  | None => mret ()
  end.

(** When the query fails, sqlx still answers a pointer, to the zero rule, and
    the code goes on with it. *)
Definition EnsureRule (rule : FirewallRule) (contextLabel : string) : M FirewallRuleResult :=
  let r := commented rule contextLabel in
  let checkArgs := buildIptablesArgs r ActionCheck in
  let addArgs := buildIptablesArgs r ActionAppend in
  let cmdStr := Join (ShlexQuote <$> addArgs) " " in
  let r := frSetCommand (Some cmdStr) r in
  found ← onTable (ipt_FindByAttributes r);
  let existing := match found with Ok e => e | Err _ => Some zeroRule end in
  check ← command checkArgs;
  match existing, Success check with
  | Some e, true =>
      _ ← verified (fr_ID e);
      mret (succeeded (Some e) None)
  | None, true =>
      recorded ← onTable (Insert r);
      match recorded with
      | Err e => mret (failed ("Failed to record rule: " ++ Error e) None)
      | Ok recorded => mret (succeeded (Some recorded) None)
      end
  | _, false =>
      add ← command addArgs;
      if negb (Success add)
      then mret (failed (cmdFailed "Failed to create rule: command " "iptables" add) (Some cmdStr))
      else
        match existing with
        | Some e =>
            _ ← verified (fr_ID e);
            mret (succeeded (Some (frSetID (fr_ID e) r)) (Some cmdStr))
        | None =>
            recorded ← onTable (Insert r);
            match recorded with
            | Err e => mret (failed ("Failed to insert rule: " ++ Error e) (Some cmdStr))
            | Ok recorded => mret (succeeded (Some recorded) (Some cmdStr))
            end
        end
  end.

(** The number of the first listed line with the interfaces of the rule. *)
Definition lineOf (rule : FirewallRule) (line : string) : option string :=
  let parts := Fields line in
  if (length parts <? 9)%nat then None
  else if bool_decide (parts !! 6 = Some (fr_InInterface rule))
          && bool_decide (parts !! 7 = Some (fr_OutInterface rule))
  then parts !! 0 else None.

Definition removeByLineNumber (rule : FirewallRule) : M bool :=
  r ← command ["iptables"; "-t"; fr_TableName rule; "-L"; fr_ChainName rule; "-n"; "--line-numbers"; "-v"];
  if negb (Success r) then mret false
  else match head (omap (lineOf rule) (outputLines r)) with
       | Some lineNum =>
           d ← command ["iptables"; "-t"; fr_TableName rule; "-D"; fr_ChainName rule; lineNum];
           mret (Success d)
       | None => mret false
       end.

Definition ruleExistsByInterfaces (rule : FirewallRule) : M bool :=
  r ← command ["iptables"; "-t"; fr_TableName rule; "-L"; fr_ChainName rule; "-n"; "-v"];
  if negb (Success r) then mret false
  else mret (existsb (λ line, bool_decide (is_Some (lineOf rule line))) (outputLines r)).

(** The rule to delete, with the comment it was added with, and its key. *)
Definition effectiveRule (rule : FirewallRule) : M (FirewallRule * option Z) :=
  match fr_ID rule with
  | Some id => mret (rule, Some id)
  | None =>
      found ← onTable (ipt_FindByAttributes rule);
      match found with
      | Ok (Some existing) =>
          if unset (fr_CommentTag rule) && bool_decide (is_Some (fr_CommentTag existing))
          then mret (existing, fr_ID existing) else mret (rule, fr_ID existing)
      | _ => mret (rule, None)
      end
  end.

Definition markDeleted (id : option Z) : M unit :=
  match id with
  | Some id => _ ← onTable (ipt_MarkDeleted id); mret ()
  | None => mret ()
  end.

Definition RemoveRule (rule : FirewallRule) : M FirewallRuleResult :=
  er ← effectiveRule rule;
  let '(eff, dbRuleID) := er in
  let deleteArgs := buildIptablesArgs eff ActionDelete in
  let cmdStr := Join deleteArgs " " in
  d ← command deleteArgs;
  gone ← (if Success d then mret true
          else
            byLine ← removeByLineNumber eff;
            if byLine : bool then mret true
            else (remains ← ruleExistsByInterfaces eff; mret (negb remains)));
  if negb gone then mret (failed ("Failed to remove rule: " ++ Stderr d) (Some cmdStr))
  else
    _ ← markDeleted dbRuleID;
    mret (succeeded (Some eff) (Some cmdStr)).

Definition restoreArgs : list string := ["iptables-restore"; "-n"].

(** Replace the chains of a table by the rules of the batch, when it has any. *)
Definition restoreTable (rules : list FirewallRule) (table : string) : M (option FirewallRuleResult) :=
  if decide (rules = []) then mret None
  else
    r ← onKernel (Run restoreArgs (buildRestoreInput rules table));
    if Success r then mret None
    else mret (Some (failed (cmdFailed "command " "iptables-restore -n" r) None)).

Definition inTable (table : string) (rules : list FirewallRule) : list FirewallRule :=
  filter (λ r, fr_TableName r = table) rules.

Definition BatchEnsureRules (rules : list FirewallRule) : M FirewallRuleResult :=
  e1 ← restoreTable (inTable FirewallTableFilter rules) "filter";
  match e1 with
  | Some e => mret e
  | None =>
      e2 ← restoreTable (inTable FirewallTableNat rules) "nat";
      match e2 with
      | Some e => mret e
      | None =>
          _ ← onTable (FindAndUpsertRules rules []);
          mret (succeeded None None)
      end
  end.

Definition BatchRemoveRules (rules : list FirewallRule) : M FirewallRuleResult :=
  _ ← forEach rules (λ rule, _ ← RemoveRule rule; mret ());
  mret (succeeded None None).

(** *** Rules of the kernel that no row records *)

(** The word after the first [--comment]. *)
Fixpoint commentWord (parts : list string) : string :=
  match parts with
  | part :: ((next :: _) as rest) => if bool_decide (part = "--comment") then next else commentWord rest
  | _ => ""
  end.

Definition dbComments (rules : list FirewallRule) : gset string :=
  list_to_set (omap fr_CommentTag rules).

Definition orphanLine (networkName : string) (known : gset string) (line : string) : bool :=
  HasPrefix line "-A MVM-" &&
  (let comment := commentWord (Fields line) in
   negb (bool_decide (comment = "")) && Contains comment networkName && negb (bool_decide (comment ∈ known))).

Definition CountOrphanedRules (network : NetworkItem) : M Z :=
  dbRules ← onTable (ipt_GetByNetworkID (nw_ID network) true);
  match dbRules with
  | Err _ => mret 0%Z
  | Ok rules =>
      r ← command ["iptables-save"];
      if negb (Success r) then mret 0%Z
      else mret (Z.of_nat (length (filter (orphanLine (nw_Name network) (dbComments rules)) (outputLines r))))
  end.

(** *** Chains *)

Definition EnsureJumpRule (fromChain toChain : string) (table : FirewallTable) (position : Z)
    : M FirewallRuleResult :=
  check ← command ["iptables"; "-t"; table; "-C"; fromChain; "-j"; toChain];
  if Success check then mret (succeeded None None)
  else
    let insertArgs := ["iptables"; "-t"; table; "-I"; fromChain; Itoa position; "-j"; toChain] in
    ins ← command insertArgs;
    if negb (Success ins)
    then mret (failed ("Failed to add jump rule " ++ fromChain ++ " -> " ++ toChain ++ ": " ++ Stderr ins) None)
    else mret (succeeded None (Some (Join insertArgs " "))).

Definition chainListed (table chain : string) : M bool :=
  r ← command ["iptables"; "-t"; table; "-L"; chain; "-n"]; mret (Success r).

Definition EnsureChain (chainName : FirewallChain) (table : FirewallTable) (autoJumpFrom : string)
    (position : Z) : M bool :=
  exists_ ← chainListed table chainName;
  if exists_ : bool then mret false
  else
    create ← command ["iptables"; "-t"; table; "-N"; chainName];
    if negb (Success create) then mret false
    else if bool_decide (autoJumpFrom = "") then mret true
    else
      jump ← EnsureJumpRule autoJumpFrom chainName table position;
      mret (fres_Success jump).

Definition Initialize : M unit :=
  forEach mvmChains (λ '(chain, table, jumpFrom), _ ← EnsureChain chain table jumpFrom 1; mret ()).

Definition Teardown : M unit :=
  forEach mvmChains (λ '(chain, table, jumpFrom),
    _ ← command ["iptables"; "-t"; table; "-D"; jumpFrom; "-j"; chain];
    _ ← command ["iptables"; "-t"; table; "-F"; chain];
    _ ← command ["iptables"; "-t"; table; "-X"; chain];
    mret ()).

Definition FlushChain (chainName : FirewallChain) (table : FirewallTable) : M bool :=
  exists_ ← chainListed table chainName;
  if negb exists_ then mret false
  else
    r ← command ["iptables"; "-t"; table; "-F"; chainName];
    if negb (Success r) then mret false
    else
      _ ← onTable (ipt_MarkDeletedByTableChainName chainName table);
      mret true.

Definition RemoveChain (chainName : FirewallChain) (table : FirewallTable) : M bool :=
  exists_ ← chainListed table chainName;
  if negb exists_ then mret false
  else
    _ ← onTable (ipt_MarkDeletedByTableChainName chainName table);
    r ← command ["iptables"; "-t"; table; "-X"; chainName];
    mret (Success r).
End IPTables.

(** ** What the theorems use of iptables *)

(** A word the parsers of [iptables] take as it is. *)
Definition plainWord (s : string) : Prop :=
  word s ∧ allChars (λ c, negb (existsb (Ascii.eqb c) [ascii_of_nat 34; ascii_of_nat 39; ascii_of_nat 92])) s = true.

(** The lines of [iptables-restore] the program writes. *)
Inductive restoreCmd :=
  | DeclareChain (chain : string)
  | Flush (chain : string)
  | Append (chain : string) (spec : list string).

Definition renderCmd (c : restoreCmd) : string :=
  match c with
  | DeclareChain chain => ":" ++ chain ++ " - [0:0]"
  | Flush chain => "-F " ++ chain
  | Append chain spec => Join (["-A"; chain] ++ spec) " "
  end.

Definition plainCmd (c : restoreCmd) : Prop :=
  match c with
  | DeclareChain chain | Flush chain => plainWord chain
  | Append chain spec => plainWord chain ∧ Forall plainWord spec
  end.

(** The rules of the chains, by table and chain. *)
Notation Chains := (gmap (string * string) (list (list string))).

Definition applyCmd (table : string) (m : Chains) (c : restoreCmd) : Chains :=
  match c with
  | DeclareChain chain => <[(table, chain) := []]> m
  | Flush chain => alter (λ _, []) (table, chain) m
  | Append chain spec => alter (λ l, (l ++ [spec])%list) (table, chain) m
  end.

(** The documented behaviour of a working [iptables]: [-C] tells whether a rule
    is in a chain, [-A] appends one, [-D] deletes the first match, and
    [iptables-restore -n] runs its input as one transaction, in which the
    declaration of a user chain empties it; [iptables-save] only prints. *)
Class Iptables (K : Type) `{Runner K} := {
  chains : K → Chains;
  check_law t c spec k :
    let '(r, k') := Run (["iptables"; "-t"; t; "-C"; c] ++ spec) "" k in
    chains k' = chains k ∧ (Success r = true ↔ ∃ l, chains k !! (t, c) = Some l ∧ spec ∈ l);
  append_law t c spec k :
    let '(r, k') := Run (["iptables"; "-t"; t; "-A"; c] ++ spec) "" k in
    if Success r
    then is_Some (chains k !! (t, c)) ∧ chains k' = alter (λ l, (l ++ [spec])%list) (t, c) (chains k)
    else chains k' = chains k;
  delete_law t c spec k :
    let '(r, k') := Run (["iptables"; "-t"; t; "-D"; c] ++ spec) "" k in
    (Success r = true ↔ ∃ l, chains k !! (t, c) = Some l ∧ spec ∈ l) ∧
    (∀ l1 l2, chains k !! (t, c) = Some (l1 ++ spec :: l2)%list → spec ∉ l1 →
       chains k' = <[(t, c) := (l1 ++ l2)%list]> (chains k));
  restore_law t cmds k :
    plainWord t → Forall plainCmd cmds →
    let '(r, k') := Run restoreArgs (Join (["*" ++ t] ++ (renderCmd <$> cmds) ++ ["COMMIT"; ""]) newline) k in
    chains k' = if Success r then foldl (applyCmd t) (chains k) cmds else chains k;
  save_law k : chains (Run ["iptables-save"] "" k).2 = chains k;
}.

Definition conntrackSpec : list string := ["-m"; "conntrack"; "--ctstate"; "ESTABLISHED,RELATED"; "-j"; "ACCEPT"].

(** The rules a batch puts before its own in a chain of the table. *)
Definition batchPrefix (table : string) : list (list string) :=
  if bool_decide (table = "filter") then [conntrackSpec] else [].

Definition chainCmds (table chain : string) : list restoreCmd :=
  [DeclareChain chain; Flush chain] ++ (Append chain <$> batchPrefix table).

Lemma chainLines_render table chain : chainLines table chain = renderCmd <$> chainCmds table chain.
Proof. unfold chainLines, chainCmds, batchPrefix. by destruct (bool_decide (table = "filter")). Qed.

Lemma conntrack_plain : Forall plainWord conntrackSpec.
Proof. unfold conntrackSpec. by repeat (apply Forall_cons; split; [done|]). Qed.

Lemma tables_plain t : t ∈ ["filter"; "nat"] → plainWord t.
Proof. revert t. apply Forall_forall. by repeat (apply Forall_cons; split; [done|]). Qed.

(** *** The effect of a batch on the chains *)
Section Effect.
Context (table : string).

Lemma applied_other (cmds : list restoreCmd) (m : Chains) t c :
  t ≠ table → foldl (applyCmd table) m cmds !! (t, c) = m !! (t, c).
Proof.
  intros Ht. revert m. induction cmds as [|cmd cmds IH]; intros m; simpl; [done|].
  rewrite IH. assert (∀ chain, (table, chain) ≠ (t, c)) as Hne by congruence.
  destruct cmd as [chain|chain|chain spec]; simpl.
  - by rewrite lookup_insert_ne.
  - by rewrite lookup_alter_ne.
  - by rewrite lookup_alter_ne.
Qed.

Lemma applied_chain (m : Chains) chain c :
  foldl (applyCmd table) m (chainCmds table chain) !! (table, c) =
    if decide (c = chain) then Some (batchPrefix table) else m !! (table, c).
Proof.
  unfold chainCmds. simpl.
  set (m' := alter _ _ _). assert (m' !! (table, c) = if decide (c = chain) then Some [] else m !! (table, c)) as Hm'.
  { unfold m'. destruct (decide (c = chain)) as [->|Hc].
    - by rewrite lookup_alter_eq, lookup_insert_eq.
    - by rewrite lookup_alter_ne, lookup_insert_ne by congruence. }
  unfold batchPrefix. destruct (bool_decide (table = "filter")); simpl; [|done].
  destruct (decide (c = chain)) as [->|Hc].
  - by rewrite lookup_alter_eq, Hm'.
  - by rewrite lookup_alter_ne, Hm' by congruence.
Qed.

Lemma applied_chains (cs : list string) (m : Chains) c :
  foldl (applyCmd table) m (mjoin (chainCmds table <$> cs)) !! (table, c) =
    if decide (c ∈ cs) then Some (batchPrefix table) else m !! (table, c).
Proof.
  revert m. induction cs as [|c' cs IH]; intros m; [done|].
  rewrite fmap_cons, join_cons, foldl_app, IH, applied_chain.
  repeat destruct (decide _); set_solver.
Qed.

Lemma applied_appends {A} (chain : A → string) (spec : A → list string) (rules : list A) (m : Chains) c :
  foldl (applyCmd table) m ((λ r, Append (chain r) (spec r)) <$> rules) !! (table, c) =
    (λ l, (l ++ (spec <$> filter (λ r, chain r = c) rules))%list) <$> m !! (table, c).
Proof.
  revert m. induction rules as [|r rules IH]; intros m.
  - simpl. destruct (m !! (table, c)); simpl; by rewrite ?app_nil_r.
  - rewrite fmap_cons. simpl foldl. rewrite IH, filter_cons. simpl.
    destruct (decide (chain r = c)) as [->|Hc].
    + rewrite lookup_alter_eq. destruct (m !! (table, c)); simpl; [|done].
      by rewrite <- app_assoc.
    + by rewrite lookup_alter_ne by congruence.
Qed.
End Effect.

(** ** Theorems *)
Section Theory.
Context {K : Type} `{Iptables K}.
Context (rfc3339 : string → string) (constraintError : error).
Context (xtcommentAvailable : bool) (rangeChains : string → list (FirewallChain * string)).
Context (Hrange : ∀ t, rangeChains t ≡ₚ chainToTable).

#[local] Notation spec := (ruleSpec xtcommentAvailable).
#[local] Notation Batch := (BatchEnsureRules rfc3339 constraintError xtcommentAvailable rangeChains).
#[local] Notation kchains w := (chains (fkern w)).

(** The chains of a table, in the order of the map. *)
Definition homeChains (table : string) : list string :=
  omap (λ ct, if bool_decide (ct.2 = table) then Some ct.1 else None) (rangeChains table).

Definition restoreCmds (rules : list FirewallRule) (table : string) : list restoreCmd :=
  mjoin (chainCmds table <$> homeChains table) ++
  ((λ r, Append (fr_ChainName r) (spec r)) <$> rules).

Lemma elem_homeChains table c : c ∈ homeChains table ↔ (c, table) ∈ chainToTable.
Proof.
  unfold homeChains. rewrite list_elem_of_omap, <- (Hrange table). split.
  - intros ([c' t] & Hin & E). simpl in E.
    destruct (bool_decide_reflect (t = table)) as [->|]; [|done]. by simplify_eq.
  - intros Hin. exists (c, table). split; [done|]. simpl. by rewrite bool_decide_eq_true_2.
Qed.

Lemma buildRestoreInput_cmds rules table :
  buildRestoreInput xtcommentAvailable rangeChains rules table =
    Join (["*" ++ table] ++ (renderCmd <$> restoreCmds rules table) ++ ["COMMIT"; ""]) newline.
Proof.
  unfold buildRestoreInput, restoreLines, restoreCmds. do 2 f_equal.
  rewrite fmap_app, <- app_assoc. f_equal.
  - unfold homeChains. induction (rangeChains table) as [|[c t] l IH]; [done|].
    rewrite fmap_cons, join_cons, IH. cbn [omap list_omap fst snd].
    destruct (bool_decide (t = table)); [|done].
    by rewrite fmap_cons, join_cons, fmap_app, chainLines_render.
  - f_equal. rewrite <- list_fmap_compose. done.
Qed.

(** The rules of the batch for a chain. *)
Definition batchRules (rules : list FirewallRule) (t c : string) : list (list string) :=
  spec <$> filter (λ r, fr_ChainName r = c) (inTable t rules).

(** What a chain holds after a batch. *)
Definition afterBatch (rules : list FirewallRule) (m : Chains) (t c : string) : option (list (list string)) :=
  if decide ((c, t) ∈ chainToTable ∧ inTable t rules ≠ [])
  then Some (batchPrefix t ++ batchRules rules t c)%list
  else m !! (t, c).

(** The rules of the program: in one of its chains, of words without quotes. *)
Definition ownRule (r : FirewallRule) : Prop :=
  (fr_ChainName r, fr_TableName r) ∈ chainToTable ∧ Forall plainWord (spec r).

Lemma restoreCmds_effect rules t m t' c :
  Forall ownRule rules → t ∈ ["filter"; "nat"] → inTable t rules ≠ [] →
  foldl (applyCmd t) m (restoreCmds (inTable t rules) t) !! (t', c) =
    if decide (t' = t) then afterBatch rules m t c else m !! (t', c).
Proof.
  intros Hown Ht Hne. destruct (decide (t' = t)) as [->|Hne']; [|by apply applied_other].
  unfold restoreCmds. rewrite foldl_app, (applied_appends t), applied_chains.
  unfold afterBatch, batchRules.
  destruct (decide (c ∈ homeChains t)) as [Hc|Hc]; rewrite elem_homeChains in Hc.
  - by rewrite decide_True by done.
  - rewrite decide_False by tauto. destruct (m !! (t, c)) as [l|]; [|done]. simpl. f_equal.
    transitivity (l ++ (spec <$> []))%list; [|by rewrite app_nil_r]. do 2 f_equal.
    apply elem_of_nil_inv. intros r [Hrc [Hrt Hr]%list_elem_of_filter]%list_elem_of_filter.
    rewrite Forall_forall in Hown. apply Hown in Hr as [Hr _]. apply Hc. by rewrite <- Hrc, <- Hrt.
Qed.

Lemma ownRule_cmds rules t :
  Forall ownRule rules → Forall plainCmd (restoreCmds (inTable t rules) t).
Proof.
  intros Hown. assert (plainWord "filter" ∧ plainWord "nat") as [Hf Hn] by done.
  assert (∀ c, c ∈ chainToTable.*1 → plainWord c) as Hchain.
  { apply Forall_forall. by repeat constructor. }
  unfold restoreCmds. apply Forall_app. split.
  - apply Forall_join, Forall_fmap, Forall_forall. intros c Hc%elem_homeChains.
    assert (plainWord c) by (apply Hchain; by apply (list_elem_of_fmap_2 fst) in Hc).
    unfold chainCmds, batchPrefix. repeat (apply Forall_cons; split; [done|]).
    simpl. destruct (bool_decide (t = "filter")); [|by constructor].
    apply Forall_singleton. split; [done|]. apply conntrack_plain.
  - apply Forall_fmap, Forall_forall. intros r [_ Hr]%list_elem_of_filter.
    rewrite Forall_forall in Hown. destruct (Hown r Hr) as [Hc Hs]. split; [|done].
    apply Hchain. by apply (list_elem_of_fmap_2 fst) in Hc.
Qed.

(** One [iptables-restore]: all of the table, or nothing. *)
Lemma restoreTable_spec rules t w o w' :
  Forall ownRule rules → t ∈ ["filter"; "nat"] →
  restoreTable xtcommentAvailable rangeChains (inTable t rules) t w = (o, w') →
  fdb w' = fdb w ∧
  match o with
  | None => ∀ t' c, kchains w' !! (t', c) =
              if decide (t' = t) then afterBatch rules (kchains w) t c else kchains w !! (t', c)
  | Some e => kchains w' = kchains w ∧ fres_Success e = false
  end.
Proof.
  intros Hown Ht. unfold restoreTable. destruct (decide (inTable t rules = [])) as [Hnil|Hnil].
  - intros [= <- <-]. split; [done|]. intros t' c. destruct (decide (t' = t)) as [->|]; [|done].
    unfold afterBatch. by rewrite decide_False by tauto.
  - rewrite ST_bind_unfold. unfold onKernel. rewrite buildRestoreInput_cmds.
    assert (plainWord t) as Hpt by by apply tables_plain.
    pose proof (restore_law t (restoreCmds (inTable t rules) t) (fkern w) Hpt (ownRule_cmds rules t Hown)) as Hlaw.
    destruct (Run restoreArgs _ _) as [r k']. simpl.
    destruct (Success r) eqn:Hs; intros [= <- <-]; simpl; rewrite Hlaw; split; try done.
    intros t' c. by apply restoreCmds_effect.
Qed.

Lemma onTable_kern {A} (m : GoM (Db FwTable) error A) (w : FW K) : fkern (onTable m w).2 = fkern w.
Proof. unfold onTable. by destruct (m (fdb w)). Qed.

(** What a batch did, by its answer. *)
Lemma Batch_effect (rules : list FirewallRule) (w w' : FW K) (res : FirewallRuleResult) :
  Forall ownRule rules → Batch rules w = (res, w') →
  if fres_Success res
  then ∀ t c, kchains w' !! (t, c) = afterBatch rules (kchains w) t c
  else ∀ t c, t ≠ "filter" ∨ kchains w' = kchains w → kchains w' !! (t, c) = kchains w !! (t, c).
Proof.
  intros Hown. unfold BatchEnsureRules. rewrite ST_bind_unfold.
  destruct (restoreTable _ _ _ "filter" w) as [o1 w1] eqn:E1.
  apply restoreTable_spec in E1 as [_ H1]; [|done|set_solver]. cbn [fst snd].
  destruct o1 as [e|]; [intros [= <- <-]; destruct H1 as [-> ->]; done|].
  rewrite ST_bind_unfold. destruct (restoreTable _ _ _ "nat" w1) as [o2 w2] eqn:E2.
  apply restoreTable_spec in E2 as [_ H2]; [|done|set_solver]. cbn [fst snd].
  destruct o2 as [e|].
  - intros [= <- <-]. destruct H2 as [Hk He]. rewrite He. intros t c [Ht|Heq]; [|by rewrite Heq].
    rewrite Hk, H1. by rewrite decide_False.
  - rewrite ST_bind_unfold. intros [= <- <-]. simpl. rewrite onTable_kern. intros t c.
    rewrite H2. destruct (decide (t = "nat")) as [->|Hn].
    { assert (kchains w1 !! ("nat", c) = kchains w !! ("nat", c)) as E by by rewrite H1, decide_False.
      unfold afterBatch. by rewrite E. }
    rewrite H1. destruct (decide (t = "filter")) as [->|Hf]; [done|].
    unfold afterBatch. rewrite decide_False; [done|]. intros [Hc%(list_elem_of_fmap_2 snd) _].
    simpl in Hc. set_solver.
Qed.

(** C4. A batch replaces: when [BatchEnsureRules] succeeds, each of the program's
    chains in a table the batch has rules for holds the connection-tracking rule
    and the rules of the batch, in order, and nothing else; every other chain is
    untouched.  When it fails, at most the table [filter] was replaced. *)
Theorem BatchEnsureRules_replaces (rules : list FirewallRule) (w w' : FW K) (res : FirewallRuleResult) :
  Forall ownRule rules → Batch rules w = (res, w') →
  if fres_Success res
  then ∀ t c, kchains w' !! (t, c) = afterBatch rules (kchains w) t c
  else ∀ t c, t ≠ "filter" ∨ kchains w' = kchains w → kchains w' !! (t, c) = kchains w !! (t, c).
Proof. apply Batch_effect. Qed.
End Theory.

(** *** One rule *)
Section OneRule.
Context {K : Type} `{Iptables K}.
Context (rfc3339 : string → string) (constraintError : error) (xtcommentAvailable : bool).

#[local] Notation spec := (ruleSpec xtcommentAvailable).
#[local] Notation Ensure := (EnsureRule rfc3339 constraintError xtcommentAvailable).
#[local] Notation Remove := (RemoveRule xtcommentAvailable).
#[local] Notation kchains w := (chains (fkern w)).

(** The kernel has the rule, with the comment the program gives it. *)
Definition inKernel (rule : FirewallRule) (contextLabel : string) (k : K) : Prop :=
  ∃ l, chains k !! (fr_TableName rule, fr_ChainName rule) = Some l ∧ spec (commented rule contextLabel) ∈ l.

(** The rule is in the kernel and in the table. *)
Definition established (rule : FirewallRule) (contextLabel : string) (w : FW K) : Prop :=
  inKernel rule contextLabel (fkern w) ∧ recorded rule (tables (fdb w)) ≠ [].

Definition spec_args (rule : FirewallRule) (contextLabel action : string) : list string :=
  ["iptables"; "-t"; fr_TableName rule; action; fr_ChainName rule] ++ spec (commented rule contextLabel).

Lemma commented_args rule contextLabel action :
  buildIptablesArgs xtcommentAvailable (commented rule contextLabel) action = spec_args rule contextLabel action.
Proof. unfold buildIptablesArgs, spec_args, commented. by destruct (unset _). Qed.

Lemma commented_attributes rule contextLabel cmd :
  attributes (frSetCommand cmd (commented rule contextLabel)) = attributes rule.
Proof. unfold commented. by destruct (unset _). Qed.

Lemma recorded_ext r r' t : attributes r = attributes r' → recorded r t = recorded r' t.
Proof. unfold recorded. by intros ->. Qed.

(** The check of a rule changes nothing and tells whether the kernel has it. *)
Lemma check_run rule contextLabel (w : FW K) :
  ∃ r k', command (spec_args rule contextLabel ActionCheck) w = (r, FW_ (fdb w) k') ∧
    chains k' = chains (fkern w) ∧ (Success r = true ↔ inKernel rule contextLabel (fkern w)).
Proof.
  unfold command, onKernel, spec_args, ActionCheck.
  pose proof (check_law (fr_TableName rule) (fr_ChainName rule) (spec (commented rule contextLabel)) (fkern w)) as Hlaw.
  destruct (Run _ _ (fkern w)) as [r k']. eauto.
Qed.

Lemma append_run rule contextLabel (w : FW K) :
  ∃ r k', command (spec_args rule contextLabel ActionAppend) w = (r, FW_ (fdb w) k') ∧
    (Success r = true →
       is_Some (kchains w !! (fr_TableName rule, fr_ChainName rule)) ∧
       chains k' = alter (λ l, (l ++ [spec (commented rule contextLabel)])%list)
                     (fr_TableName rule, fr_ChainName rule) (kchains w)).
Proof.
  unfold command, onKernel, spec_args, ActionAppend.
  pose proof (append_law (fr_TableName rule) (fr_ChainName rule) (spec (commented rule contextLabel)) (fkern w)) as Hlaw.
  destruct (Run _ _ (fkern w)) as [r k']. do 2 eexists. split; [done|]. intros Hs. by rewrite Hs in Hlaw.
Qed.

Lemma verify_run (id : option Z) (w : FW K) :
  healthy (fdb w) →
  ∃ d', verified id w = ((), FW_ d' (fkern w)) ∧
    healthy d' ∧ unverified (tables d') = unverified (tables (fdb w)).
Proof.
  intros Hd. destruct id as [id|]; [|by exists (fdb w); destruct w].
  destruct (UpdateVerifiedAt_healthy id _ Hd) as (d' & E & ? & ?).
  exists d'. split; [|done]. unfold verified. rewrite ST_bind_unfold. unfold onTable. by rewrite E.
Qed.

Lemma find_run rule (w : FW K) :
  healthy (fdb w) →
  onTable (ipt_FindByAttributes rule) w = (Ok (head (recorded rule (tables (fdb w)))), w).
Proof. intros Hd. unfold onTable. rewrite find_healthy by done. by destruct w. Qed.

(** A second [EnsureRule] does nothing. *)
Lemma ensure_again rule contextLabel w :
  healthy (fdb w) → established rule contextLabel w →
  ∃ res w', Ensure rule contextLabel w = (res, w') ∧ fres_Success res = true ∧
    kchains w' = kchains w ∧ unverified (tables (fdb w')) = unverified (tables (fdb w)).
Proof.
  destruct w as [d k]. intros Hd [Hk Hrec]. unfold EnsureRule. rewrite !commented_args, ST_bind_unfold.
  rewrite find_run by done. cbn [fst snd fdb fkern] in *.
  rewrite (recorded_ext _ rule) by apply commented_attributes.
  destruct (recorded rule (tables d)) as [|e es]; [done|]. cbn [head]. rewrite ST_bind_unfold.
  destruct (check_run rule contextLabel (FW_ d k)) as (r & k' & E & Hk' & Hr).
  rewrite E. cbn [fst snd fdb fkern]. rewrite (proj2 Hr Hk), ST_bind_unfold.
  destruct (verify_run (fr_ID e) (FW_ d k')) as (d' & E' & Hd' & Hu); [done|].
  rewrite E'. by do 2 eexists.
Qed.

(** What [Insert] leaves when it answers. *)
Lemma insert_run rule (w : FW K) r w' :
  healthy (fdb w) → onTable (ipt_Insert rfc3339 constraintError rule) w = (Ok r, w') →
  ∃ created, w' = FW_ (fdb w') (fkern w) ∧ healthy (fdb w') ∧
    tables (fdb w') = FwTable_ (fwRules (tables (fdb w)) ++ [frRow (fwNextID (tables (fdb w))) created rule])%list
      (fwNextID (tables (fdb w)) + 1) (fwHandles (tables (fdb w))) (fwNetworks (tables (fdb w))).
Proof.
  intros Hd. unfold onTable. destruct (ipt_Insert _ _ _ (fdb w)) as [r' d'] eqn:E.
  intros [= -> <-]. apply Insert_healthy in E as (Hd' & _ & created & E); [|done]. eauto.
Qed.

(** Where a successful [EnsureRule] of a rule the table does not record leads:
    the rule is in the kernel, appended unless it was there, and one active row
    more records it. *)
Lemma ensure_new rule contextLabel (w w' : FW K) res :
  healthy (fdb w) → recorded rule (tables (fdb w)) = [] →
  Ensure rule contextLabel w = (res, w') → fres_Success res = true →
  healthy (fdb w') ∧
  (∃ created cmd, tables (fdb w') =
     FwTable_ (fwRules (tables (fdb w)) ++
               [frRow (fwNextID (tables (fdb w))) created (frSetCommand cmd (commented rule contextLabel))])%list
       (fwNextID (tables (fdb w)) + 1) (fwHandles (tables (fdb w))) (fwNetworks (tables (fdb w)))) ∧
  inKernel rule contextLabel (fkern w') ∧
  (¬ inKernel rule contextLabel (fkern w) →
     kchains w' = alter (λ l, (l ++ [spec (commented rule contextLabel)])%list)
                    (fr_TableName rule, fr_ChainName rule) (kchains w)).
Proof.
  intros Hd Hrec. unfold EnsureRule. rewrite !commented_args, ST_bind_unfold, find_run by done.
  cbn [fst snd]. rewrite (recorded_ext _ rule), Hrec by apply commented_attributes. cbn [head].
  rewrite ST_bind_unfold. destruct (check_run rule contextLabel w) as (r & k' & E & Hk' & Hr).
  rewrite E. cbn [fst snd]. set (cmd := Some (Join _ _)). destruct (Success r).
  - rewrite ST_bind_unfold. destruct (onTable _ _) as [[rec|e] w1] eqn:Ei; intros [= <- <-]; [|done].
    intros _. apply insert_run in Ei as (created & -> & Hd' & Ht); [|done]. cbn [fdb fkern] in *.
    split_and!; [done|by eauto| |tauto]. unfold inKernel. rewrite Hk'. by apply Hr.
  - rewrite ST_bind_unfold.
    destruct (append_run rule contextLabel (FW_ (fdb w) k')) as (add & k'' & E2 & Hlaw).
    rewrite E2. cbn [fst snd fdb fkern] in *. destruct (Success add); cbn [negb]; [|by intros [= <- <-]].
    rewrite ST_bind_unfold. destruct (onTable _ _) as [[rec|e] w1] eqn:Ei; intros [= <- <-]; [|done].
    intros _. apply insert_run in Ei as (created & -> & Hd' & Ht); [|done]. cbn [fdb fkern] in *.
    destruct Hlaw as [[l Hl] Hlaw]; [done|]. rewrite Hk' in Hlaw, Hl. split_and!; [done|by eauto| |by intros _].
    exists (l ++ [spec (commented rule contextLabel)])%list. rewrite Hlaw, lookup_alter_eq, Hl.
    split; [done|set_solver].
Qed.

Lemma ensure_old rule contextLabel (w w' : FW K) res :
  healthy (fdb w) → recorded rule (tables (fdb w)) ≠ [] →
  Ensure rule contextLabel w = (res, w') → fres_Success res = true →
  healthy (fdb w') ∧ established rule contextLabel w'.
Proof.
  intros Hd Hrec. unfold EnsureRule. rewrite !commented_args, ST_bind_unfold, find_run by done.
  cbn [fst snd]. rewrite (recorded_ext _ rule) by apply commented_attributes.
  destruct (recorded rule (tables (fdb w))) as [|e es] eqn:Er; [done|]. cbn [head].
  rewrite ST_bind_unfold. destruct (check_run rule contextLabel w) as (r & k' & E & Hk' & Hr).
  rewrite E. cbn [fst snd]. destruct (Success r).
  - rewrite ST_bind_unfold.
    destruct (verify_run (fr_ID e) (FW_ (fdb w) k')) as (d' & -> & Hd' & Hu); [done|].
    intros [= <- <-] _. split; [done|]. split; cbn [fdb fkern] in *.
    + unfold inKernel. rewrite Hk'. by apply Hr.
    + intros Hnil. rewrite (recorded_unverified _ _ _ Hu Hnil) in Er. done.
  - rewrite ST_bind_unfold.
    destruct (append_run rule contextLabel (FW_ (fdb w) k')) as (add & k'' & -> & Hlaw).
    cbn [fst snd fdb fkern] in *. destruct (Success add); cbn [negb]; [|by intros [= <- <-]].
    rewrite ST_bind_unfold.
    destruct (verify_run (fr_ID e) (FW_ (fdb w) k'')) as (d' & -> & Hd' & Hu); [done|].
    intros [= <- <-] _. split; [done|]. destruct Hlaw as [[l Hl] Hlaw]; [done|].
    split; cbn [fdb fkern] in *.
    + exists (l ++ [spec (commented rule contextLabel)])%list.
      rewrite Hlaw, lookup_alter_eq, Hl. split; [done|set_solver].
    + intros Hnil. rewrite (recorded_unverified _ _ _ Hu Hnil) in Er. done.
Qed.

Lemma recorded_inserted rule contextLabel cmd created t :
  fr_IsActive rule = true →
  recorded rule (FwTable_ (fwRules t ++ [frRow (fwNextID t) created (frSetCommand cmd (commented rule contextLabel))])%list
    (fwNextID t + 1) (fwHandles t) (fwNetworks t)) =
  (recorded rule t ++ [frRow (fwNextID t) created (frSetCommand cmd (commented rule contextLabel))])%list.
Proof.
  intros Hact. unfold recorded. simpl. rewrite filter_app, filter_cons_True; [done|].
  unfold commented. destruct (unset _); simpl; rewrite Hact; by rewrite bool_decide_eq_true_2.
Qed.

(** After an [EnsureRule] that answers success the rule is in the kernel and
    an active row records it; asked again, it answers success, changes no chain,
    and changes the table in times of verification only. *)
Lemma EnsureRule_idempotent (rule : FirewallRule) (contextLabel : string) (w w' : FW K) (res : FirewallRuleResult) :
  healthy (fdb w) → fr_IsActive rule = true →
  Ensure rule contextLabel w = (res, w') → fres_Success res = true →
  established rule contextLabel w' ∧
  ∃ res' w'', Ensure rule contextLabel w' = (res', w'') ∧ fres_Success res' = true ∧
    kchains w'' = kchains w' ∧ unverified (tables (fdb w'')) = unverified (tables (fdb w')).
Proof.
  intros Hd Hact E Hs.
  assert (healthy (fdb w') ∧ established rule contextLabel w') as [Hd' Hest].
  { destruct (decide (recorded rule (tables (fdb w)) = [])) as [Hr|Hr]; [|by eapply ensure_old].
    destruct (ensure_new _ _ _ _ _ Hd Hr E Hs) as (Hd' & (created & cmd & Ht) & Hk & _).
    split; [done|]. split; [done|]. rewrite Ht, recorded_inserted by done. by destruct (recorded _ _). }
  split; [done|]. by apply ensure_again.
Qed.

(** The row of a new rule is what [RemoveRule] deletes the kernel rule by. *)
Lemma effective_run rule contextLabel cmd id created (w : FW K) :
  healthy (fdb w) → fr_ID rule = None →
  recorded rule (tables (fdb w)) = [frRow id created (frSetCommand cmd (commented rule contextLabel))] →
  ∃ eff, effectiveRule rule w = ((eff, Some id), w) ∧
    buildIptablesArgs xtcommentAvailable eff ActionDelete = spec_args rule contextLabel ActionDelete.
Proof.
  intros Hd Hid Hrec. unfold effectiveRule. rewrite Hid, ST_bind_unfold, find_run, Hrec by done.
  cbn [fst snd head]. unfold commented. destruct (unset (fr_CommentTag rule)) eqn:Hc; simpl.
  - eexists. split; [done|]. rewrite <- commented_args. unfold commented. by rewrite Hc.
  - eexists. split; [done|]. rewrite <- commented_args. unfold commented. by rewrite Hc.
Qed.

Lemma delete_run rule contextLabel (w : FW K) l :
  kchains w !! (fr_TableName rule, fr_ChainName rule) = Some (l ++ [spec (commented rule contextLabel)])%list →
  spec (commented rule contextLabel) ∉ l →
  ∃ r k', command (spec_args rule contextLabel ActionDelete) w = (r, FW_ (fdb w) k') ∧ Success r = true ∧
    chains k' = <[(fr_TableName rule, fr_ChainName rule) := l]> (kchains w).
Proof.
  intros Hl Hnew. unfold command, onKernel, spec_args, ActionDelete.
  pose proof (delete_law (fr_TableName rule) (fr_ChainName rule) (spec (commented rule contextLabel)) (fkern w)) as Hlaw.
  destruct (Run _ _ (fkern w)) as [r k']. destruct Hlaw as [Hs Hk].
  do 2 eexists. split; [done|]. split.
  - apply Hs. eexists. split; [exact Hl|set_solver].
  - rewrite (Hk l [] Hl Hnew). by rewrite app_nil_r.
Qed.

Lemma alter_insert_back {A B} `{Countable A} (m : gmap A B) (f : B → B) (k : A) (b : B) :
  m !! k = Some b → <[k := b]> (alter f k m) = m.
Proof.
  intros Hk. apply map_eq. intros j. destruct (decide (k = j)) as [<-|Hj].
  - by rewrite lookup_insert_eq.
  - by rewrite lookup_insert_ne, lookup_alter_ne.
Qed.

(** Only the row of the new key is marked. *)
Lemma mark_run id row t :
  idsOK t → fr_ID row = Some (fwNextID t) → id = fwNextID t →
  (λ r, if bool_decide (fr_ID r = Some id) then frSetActive false r else r) <$> (fwRules t ++ [row])%list =
    (fwRules t ++ [frSetActive false row])%list.
Proof.
  intros [_ Hlt] Hrow ->. rewrite fmap_app. simpl. rewrite Hrow, bool_decide_eq_true_2 by done. f_equal.
  rewrite Forall_forall in Hlt. rewrite <- (list_fmap_id (fwRules t)) at 2. apply list_fmap_ext.
  intros i r Hr%list_elem_of_lookup_2. destruct (Hlt r Hr) as (j & Hj & Hjlt).
  rewrite Hj, bool_decide_eq_false_2; [done|]. intros [= ->]. lia.
Qed.

Lemma marked_run id (w : FW K) :
  healthy (fdb w) →
  markDeleted (Some id) w =
    ((), FW_ (Db_ (setRules ((λ r, if bool_decide (fr_ID r = Some id) then frSetActive false r else r)
                               <$> fwRules (tables (fdb w))) (tables (fdb w))) [] (clock (fdb w))) (fkern w)).
Proof.
  intros Hd. unfold markDeleted. rewrite ST_bind_unfold. unfold onTable. by rewrite MarkDeleted_healthy.
Qed.

(** [RemoveRule] undoes [EnsureRule]: for a rule that neither the kernel nor
    the table had, every chain is as before, and the table has one inactive row
    more.  The rule is deleted by the comment the table recorded, which the
    caller of [RemoveRule] does not know. *)
Lemma EnsureRule_RemoveRule (rule : FirewallRule) (contextLabel : string) (w w1 : FW K) (res : FirewallRuleResult) :
  healthy (fdb w) → idsOK (tables (fdb w)) → fr_IsActive rule = true → fr_ID rule = None →
  recorded rule (tables (fdb w)) = [] → ¬ inKernel rule contextLabel (fkern w) →
  Ensure rule contextLabel w = (res, w1) → fres_Success res = true →
  ∃ res' w2 row, Remove rule w1 = (res', w2) ∧ fres_Success res' = true ∧
    kchains w2 = kchains w ∧ recorded rule (tables (fdb w2)) = [] ∧
    fwRules (tables (fdb w2)) = (fwRules (tables (fdb w)) ++ [row])%list ∧ fr_IsActive row = false.
Proof.
  intros Hd Hids Hact Hid Hrec Hnew E Hs.
  destruct (ensure_new _ _ _ _ _ Hd Hrec E Hs) as (Hd1 & (created & cmd & Ht) & (l1 & Hl1 & _) & Hk).
  specialize (Hk Hnew). rewrite Hk, lookup_alter_eq in Hl1.
  destruct (kchains w !! _) as [l|] eqn:Hl; [|done]. simpl in Hl1. injection Hl1 as <-.
  assert (spec (commented rule contextLabel) ∉ l) as Hfresh by (intros Hin; apply Hnew; by exists l).
  pose proof (recorded_inserted rule contextLabel cmd created (tables (fdb w)) Hact) as Hrow.
  rewrite <- Ht, Hrec in Hrow.
  destruct (effective_run _ contextLabel _ _ _ w1 Hd1 Hid Hrow) as (eff & Eeff & Hargs).
  destruct (delete_run rule contextLabel w1 l) as (r & k2 & Edel & Hsr & Hk2); [|done|].
  { by rewrite Hk, lookup_alter_eq, Hl. }
  unfold RemoveRule. rewrite ST_bind_unfold, Eeff. cbn [fst snd]. rewrite Hargs, ST_bind_unfold, Edel.
  cbn [fst snd]. rewrite Hsr, ST_bind_unfold. cbn [negb mret ST_ret fst snd].
  rewrite ST_bind_unfold, marked_run by done. cbn [snd fdb fkern]. rewrite ?Ht.
  do 3 eexists. split; [done|]. split; [done|].
  cbn [fdb fkern tables fwRules setRules]. rewrite mark_run by done. split_and!.
  - rewrite Hk2, Hk. by apply alter_insert_back.
  - unfold recorded in *. cbn [fwRules setRules]. rewrite filter_app, Hrec. simpl.
    unfold frSetActive. rewrite filter_cons_False; [done|]. simpl. intros Hb. by rewrite andb_false_r in Hb.
  - done.
  - done.
Qed.
End OneRule.

(** ** A kernel that keeps the laws *)
Module ToyKernel.

Definition ok : RunResult := RunResult_ "" "" 0.
Definition ko : RunResult := RunResult_ "" "No chain/target/match by that name." 1.

(** Delete the first occurrence. *)
Fixpoint removeFirst (spec : list string) (l : list (list string)) : list (list string) :=
  match l with
  | [] => []
  | x :: l' => if decide (x = spec) then l' else x :: removeFirst spec l'
  end.

Definition ruleCommand (t a c : string) (spec : list string) : ST Chains RunResult := λ k,
  match k !! (t, c) with
  | None => (ko, k)
  | Some l =>
      if decide (a = "-C") then (if decide (spec ∈ l) then ok else ko, k)
      else if decide (a = "-A") then (ok, alter (λ l, (l ++ [spec])%list) (t, c) k)
      else if decide (a = "-D")
      then (if decide (spec ∈ l) then ok else ko, <[(t, c) := removeFirst spec l]> k)
      else (ok, k)
  end.

Definition parseCmd (line : string) : option restoreCmd :=
  match Fields line with
  | w :: c :: spec =>
      if decide (w = "-A") then Some (Append c spec)
      else if decide (w = "-F") then Some (Flush c)
      else if HasPrefix w ":" then Some (DeclareChain (sdrop 1 w))
      else None
  | _ => None
  end.

Definition restore (input : string) : ST Chains RunResult := λ k,
  match Split input (ascii_of_nat 10) with
  | first :: lines => (ok, foldl (applyCmd (sdrop 1 first)) k (omap parseCmd lines))
  | [] => (ko, k)
  end.

#[export] Instance toyRunner : Runner Chains := λ args input,
  match args with
  | _ :: _ :: t :: a :: c :: spec => ruleCommand t a c spec
  | [_; _] => restore input
  | _ => mret ok
  end.

Lemma plain_word s : plainWord s → word s.
Proof. by intros []. Qed.

Lemma parse_render cmd : plainCmd cmd → parseCmd (renderCmd cmd) = Some cmd.
Proof.
  unfold parseCmd. destruct cmd as [chain|chain|chain spec]; cbn [plainCmd renderCmd].
  - intros [[Hne Hw] _].
    change (":" ++ chain ++ " - [0:0]") with (Join [":" ++ chain; "-"; "[0:0]"] " ").
    rewrite Fields_Join.
    + change (":" ++ chain) with (String ":" chain).
      destruct (decide (String ":" chain = "-A")); [discriminate|].
      destruct (decide (String ":" chain = "-F")); [discriminate|]. simpl. by destruct chain.
    + by repeat (apply Forall_cons; split; [by split|]).
  - intros [[Hne Hw] _]. change ("-F " ++ chain) with (Join ["-F"; chain] " ").
    rewrite Fields_Join; [done|]. by repeat (apply Forall_cons; split; [by split|]).
  - intros [Hc Hs]. rewrite Fields_Join; [done|]. do 2 (apply Forall_cons; split; [by try apply plain_word|]).
    eapply Forall_impl; [exact Hs|]. apply plain_word.
Qed.

Lemma render_line cmd : plainCmd cmd → without (ascii_of_nat 10) (renderCmd cmd) = true.
Proof.
  assert (∀ s, plainWord s → without (ascii_of_nat 10) s = true) as Hw.
  { intros s Hs. apply word_without; [done|by apply plain_word]. }
  destruct cmd as [chain|chain|chain spec]; cbn [plainCmd renderCmd].
  - intros Hc. change (without (ascii_of_nat 10) (chain ++ " - [0:0]") = true).
    rewrite without_app, Hw by done. done.
  - intros Hc. change (without (ascii_of_nat 10) chain = true). by apply Hw.
  - intros [Hc Hs]. apply without_Join; [done|]. do 2 (apply Forall_cons; split; [by try apply Hw|]).
    eapply Forall_impl; [exact Hs|]. exact Hw.
Qed.

Lemma removeFirst_spec spec l1 l2 : spec ∉ l1 → removeFirst spec (l1 ++ spec :: l2)%list = (l1 ++ l2)%list.
Proof.
  induction l1 as [|x l1 IH]; simpl; intros Hn.
  - by rewrite decide_True.
  - rewrite decide_False by set_solver. by rewrite IH by set_solver.
Qed.

Lemma restore_ok t cmds k :
  plainWord t → Forall plainCmd cmds →
  restore (Join (["*" ++ t] ++ (renderCmd <$> cmds) ++ ["COMMIT"; ""]) newline) k =
    (ok, foldl (applyCmd t) k cmds).
Proof.
  intros Ht Hcmds. unfold restore, newline. rewrite Split_Join; [|done|].
  - change (sdrop 1 ("*" ++ t)) with t. simpl. do 2 f_equal.
    rewrite omap_app. change (omap parseCmd ["COMMIT"; ""]) with (@nil restoreCmd). rewrite app_nil_r.
    induction Hcmds as [|cmd cmds Hc _ IH]; [done|]. rewrite fmap_cons. cbn [omap list_omap].
    by rewrite parse_render, IH.
  - apply Forall_cons. split; [by apply (word_without _ t), plain_word|].
    apply Forall_app. split; [|by repeat (apply Forall_cons; split; [done|])].
    apply Forall_fmap. eapply Forall_impl; [exact Hcmds|]. apply render_line.
Qed.

#[export, program] Instance toyIptables : Iptables Chains := {| chains := id |}.
Next Obligation.
  intros t c spec k. change (Run _ _ k) with (ruleCommand t "-C" c spec k). unfold ruleCommand.
  destruct (k !! (t, c)) as [l|] eqn:E; simpl.
  - split; [done|]. destruct (decide (spec ∈ l)); split; try done; [by eauto|].
    intros (l' & Hl' & Hl). rewrite E in Hl'. by injection Hl' as <-.
  - split; [done|]. split; [done|]. intros (l' & Hl' & _). by rewrite E in Hl'.
Qed.
Next Obligation.
  intros t c spec k. change (Run _ _ k) with (ruleCommand t "-A" c spec k). unfold ruleCommand.
  by destruct (k !! (t, c)) as [l|] eqn:E.
Qed.
Next Obligation.
  intros t c spec k. change (Run _ _ k) with (ruleCommand t "-D" c spec k). unfold ruleCommand.
  destruct (k !! (t, c)) as [l|] eqn:E; simpl.
  - split.
    + destruct (decide (spec ∈ l)); split; try done; [by eauto|]. intros (l' & Hl' & Hl). rewrite E in Hl'. by injection Hl' as <-.
    + intros l1 l2 El Hn. rewrite E in El. injection El as ->. by rewrite removeFirst_spec.
  - split; [|intros l1 l2 El; by rewrite E in El]. split; [done|]. intros (l' & Hl' & _). by rewrite E in Hl'.
Qed.
Next Obligation.
  intros t cmds k Ht Hcmds. change (Run _ ?i k) with (restore i k). by rewrite restore_ok.
Qed.
Next Obligation. done. Qed.
End ToyKernel.

Module IPTablesExamples.
Import ToyKernel.

Definition exError : error := Errorf "constraint" None.
Definition exRange (t : string) : list (FirewallChain * string) := chainToTable.

Definition masquerade (bridge subnet networkID : string) : FirewallRule :=
  FirewallRule_ FirewallTableNat FirewallChainMVMPostrouting FirewallRuleTypeMasquerade
    FirewallProtocolAll subnet FirewallWildcardAnyCIDR FirewallWildcardAnyInterface "eth0"
    FirewallTargetMasquerade 0 0 networkID true None (Some bridge) None None None None.

Definition ruleA : FirewallRule := masquerade "mvm-a" "10.0.1.0/24" "ida".
Definition ruleB : FirewallRule := masquerade "mvm-b" "10.0.2.0/24" "idb".

(** The chain [MVM-POSTROUTING] with the rule of network b, and a chain of the
    host. *)
Definition exChains : Chains :=
  <[("nat", FirewallChainMVMPostrouting) := [ruleSpec true ruleB]]>
  (<[("filter", FirewallChainMVMForward) := []]>
  {[("nat", "POSTROUTING") := [["-j"; "DOCKER"]]]}).

Definition exWorld : FW Chains :=
  FW_ (Db_ (FwTable_ [frRow 1 "t0" ruleB] 2 ∅ ["ida"; "idb"]) [] "t1") exChains.

Lemma ownA : Forall (ownRule true) [ruleA].
Proof.
  apply Forall_singleton. split; [right; left|]. vm_compute.
  by repeat (apply Forall_cons; split; [by split|]).
Qed.

Lemma BatchEnsureRules_replaces_witness :
  let w' := (BatchEnsureRules id exError true exRange [ruleA] exWorld).2 in
  chains (fkern w') !! ("nat", FirewallChainMVMPostrouting) = Some [ruleSpec true ruleA] ∧
  chains (fkern w') !! ("nat", "POSTROUTING") = Some [["-j"; "DOCKER"]].
Proof.
  pose proof (BatchEnsureRules_replaces id exError true exRange (λ t, reflexivity _) [ruleA] exWorld
    _ _ ownA (surjective_pairing _)) as Hb.
  assert (fres_Success (BatchEnsureRules id exError true exRange [ruleA] exWorld).1 = true) as Hs
    by (vm_compute; reflexivity).
  rewrite Hs in Hb. cbv zeta. split.
  - etrans; [apply (Hb "nat" FirewallChainMVMPostrouting)|]. vm_compute. reflexivity.
  - etrans; [apply (Hb "nat" "POSTROUTING")|]. vm_compute. reflexivity.
Defined.

Definition ensured : FirewallRuleResult * FW Chains := EnsureRule id exError true ruleA "mvm-a:eth0" exWorld.

Lemma ensured_ok : fres_Success ensured.1 = true.
Proof. vm_compute. reflexivity. Qed.

Lemma EnsureRule_idempotent_witness :
  ∃ res' w'', EnsureRule id exError true ruleA "mvm-a:eth0" ensured.2 = (res', w'') ∧ fres_Success res' = true.
Proof.
  destruct (EnsureRule_idempotent id exError true ruleA "mvm-a:eth0" exWorld ensured.2 ensured.1
    eq_refl eq_refl (surjective_pairing _) ensured_ok) as (_ & res' & w'' & E' & Hs' & _).
  by exists res', w''.
Defined.

Lemma exWorld_ids : idsOK (tables (fdb exWorld)).
Proof. split; [apply NoDup_singleton|]. apply Forall_singleton. by exists 1%Z. Qed.

Lemma exWorld_new : ¬ inKernel true ruleA "mvm-a:eth0" (fkern exWorld).
Proof.
  intros (l & Hl & Hin). vm_compute in Hl. injection Hl as <-.
  apply list_elem_of_singleton in Hin. discriminate Hin.
Qed.

Lemma EnsureRule_RemoveRule_witness :
  chains (fkern (RemoveRule true ruleA ensured.2).2) = exChains.
Proof.
  destruct (EnsureRule_RemoveRule id exError true ruleA "mvm-a:eth0" exWorld ensured.2 ensured.1
    eq_refl exWorld_ids eq_refl eq_refl ltac:(vm_compute; reflexivity) exWorld_new
    (surjective_pairing _) ensured_ok) as (res' & w2 & row & E' & _ & Hk & _).
  by rewrite E'.
Defined.
End IPTablesExamples.
