(* ===== verification/NFTables.v ===== *)
(** * The nftables backend: [internal/lib/firewall/nftables.go]

    [NFTablesTracker] adds rules with [nft], finds them again by the text of a
    listing, deletes them by handle, and records them in the table
    [nftables_rules].  Chains and their tables are a Go map, which is ranged
    over in any order: the order is a parameter, one per loop. *)

From Stdlib Require Import Ascii.
From stdpp Require Import gmap strings list.
From S2P Require Import Prelude GoStrings Errs Model Infra Sql System FwRepo IPTables.
#[local] Open Scope string_scope.

Definition nftChainToTable : list (FirewallChain * string) :=
  [(FirewallChainMVMForward, "filter");
   (FirewallChainMVMPostrouting, "nat");
   (FirewallChainMVMNocloudNetIn, "filter")].

(** Family, table, built-in chain, target chain. *)
Record JumpRule := JumpRule_ { jr_family : string; jr_table : string; jr_builtin : string; jr_target : string }.

Definition nftJumpRules : list JumpRule :=
  [JumpRule_ "ip" "filter" "FORWARD" FirewallChainMVMForward;
   JumpRule_ "ip" "nat" "POSTROUTING" FirewallChainMVMPostrouting;
   JumpRule_ "ip" "filter" "INPUT" FirewallChainMVMNocloudNetIn].

Definition nftBaseChainKey (family table chain : string) : string :=
  family ++ "/" ++ table ++ "/" ++ chain.

Definition nftBaseChains : gmap string string := list_to_map
  [("ip/filter/FORWARD", "{ type filter hook forward priority filter; policy accept; }");
   ("ip/filter/INPUT", "{ type filter hook input priority filter; policy accept; }");
   ("ip/nat/POSTROUTING", "{ type nat hook postrouting priority srcnat; policy accept; }")].

Definition inQuotes (s : string) : string := dquote ++ s ++ dquote.

Record chainRule := chainRule_ { cr_Handle : Z; cr_Text : string }.

Definition handleMark : string := "# handle ".

(** The text of a listed rule and its handle, when the line is one. *)
Definition parseListed (line : string) : option chainRule :=
  let stripped := TrimSpace line in
  if bool_decide (stripped = "") || HasPrefix stripped "#" || HasPrefix stripped "chain "
     || HasPrefix stripped "type " || HasPrefix stripped "}"
  then None
  else
    match CutLast stripped handleMark with
    | None => None
    | Some (before, after) =>
        match Atoi (TrimSpace after) with
        | Some handle => Some (chainRule_ handle (TrimSpace before))
        | None => None
        end
    end.

(** The first match of the pattern comment\s+QUOTE([^QUOTE]+)QUOTE: what is
    between the quotes. *)
Fixpoint skipReSpace (s : string) : string :=
  match s with
  | String c s' => if reSpace c then skipReSpace s' else s
  | "" => ""
  end.

Definition commentAt (s : string) : option string :=
  if HasPrefix s "comment" then
    let rest := sdrop 7 s in
    let body := skipReSpace rest in
    if bool_decide (body = rest) then None
    else if HasPrefix body dquote then
      match Cut (sdrop 1 body) dquote with
      | Some (inner, _) => if bool_decide (inner = "") then None else Some inner
      | None => None
      end
    else None
  else None.

Fixpoint findComment (s : string) : option string :=
  match commentAt s with
  | Some c => Some c
  | None => match s with "" => None | String _ s' => findComment s' end
  end.

Section NFTables.
Context {K : Type} `{Runner K}.
Context (rfc3339 : string → string) (constraintError : error).

(** The order of the map in each of the loops over it. *)
Context (rangeChains : string → list (FirewallChain * string)).

#[local] Notation M := (ST (FW K)).
#[local] Notation Insert := (nft_Insert rfc3339 constraintError).
#[local] Notation FindAndUpsertRules := (nft_FindAndUpsertRules rfc3339 constraintError).

Definition nft (args : list string) : M RunResult := command ("nft" :: args).

Definition nft_chainExists (family table chain : string) : M bool :=
  r ← nft ["list"; "chain"; family; table; chain]; mret (Success r).

Definition nft_jumpRuleExists (jr : JumpRule) : M bool :=
  r ← nft ["list"; "chain"; jr_family jr; jr_table jr; jr_builtin jr];
  mret (Success r && Contains (Stdout r) ("jump " ++ jr_target jr)).

Definition jumpHandle (target line : string) : option Z :=
  let stripped := TrimSpace line in
  if Contains stripped ("jump " ++ target)
  then '(_, after) ← CutLast stripped handleMark; Atoi (TrimSpace after)
  else None.

Definition nft_findJumpRuleHandle (jr : JumpRule) : M (option Z) :=
  r ← nft ["-a"; "list"; "chain"; jr_family jr; jr_table jr; jr_builtin jr];
  mret (if Success r then head (omap (jumpHandle (jr_target jr)) (outputLines r)) else None).

(** *** Chains *)

Definition ensureTables : M unit :=
  forEach (Dedup ((rangeChains "tables").*2))
    (λ table, _ ← nft ["add"; "table"; "ip"; table]; mret ()).

Definition ensureOwnChain (ct : FirewallChain * string) : M bool :=
  exists_ ← nft_chainExists "ip" ct.2 ct.1;
  if exists_ : bool then mret true
  else (r ← nft ["add"; "chain"; "ip"; ct.2; ct.1]; mret (Success r)).

Definition ensureBaseChain (jr : JumpRule) : M bool :=
  match nftBaseChains !! nftBaseChainKey (jr_family jr) (jr_table jr) (jr_builtin jr) with
  | None => mret true
  | Some hookDef =>
      exists_ ← nft_chainExists (jr_family jr) (jr_table jr) (jr_builtin jr);
      if exists_ : bool then mret true
      else (r ← nft ["add"; "chain"; jr_family jr; jr_table jr; jr_builtin jr; hookDef]; mret (Success r))
  end.

Definition ensureJump (jr : JumpRule) : M bool :=
  exists_ ← nft_jumpRuleExists jr;
  if exists_ : bool then mret true
  else (r ← nft ["insert"; "rule"; jr_family jr; jr_table jr; jr_builtin jr; "jump"; jr_target jr];
        mret (Success r)).

Definition nft_Initialize : M unit :=
  _ ← ensureTables;
  chainsOK ← whileTrue (rangeChains "chains") ensureOwnChain;
  if negb chainsOK then mret ()
  else
    baseOK ← whileTrue nftJumpRules ensureBaseChain;
    if negb baseOK then mret ()
    else (_ ← whileTrue nftJumpRules ensureJump; mret ()).

(** The arguments [autoJumpFrom] and [position] are not used. *)
Definition nft_EnsureChain (chainName : FirewallChain) (table : FirewallTable) (autoJumpFrom : string)
    (position : Z) : M bool :=
  exists_ ← nft_chainExists "ip" table chainName;
  if exists_ : bool then mret false
  else
    _ ← nft ["add"; "table"; "ip"; table];
    r ← nft ["add"; "chain"; "ip"; table; chainName];
    mret (Success r).

Definition nft_Teardown : M unit :=
  forEach nftJumpRules (λ jr,
    handle ← nft_findJumpRuleHandle jr;
    _ ← match handle with
        | Some h => _ ← nft ["delete"; "rule"; jr_family jr; jr_table jr; jr_builtin jr; "handle"; Itoa h]; mret ()
        | None => mret ()
        end;
    _ ← nft ["flush"; "chain"; jr_family jr; jr_table jr; jr_target jr];
    _ ← nft ["delete"; "chain"; jr_family jr; jr_table jr; jr_target jr];
    mret ()).

Definition nft_FlushChain (chain : FirewallChain) (tableName : FirewallTable) : M bool :=
  r ← nft ["flush"; "chain"; "ip"; tableName; chain];
  if negb (Success r) then mret false
  else (_ ← onTable (nft_MarkDeletedByChain chain); mret true).

(** *** Rules *)

Definition nft_listChainRules (chain : FirewallChain) (table : string) : M (list chainRule) :=
  r ← nft ["-a"; "list"; "chain"; "ip"; table; chain];
  mret (if Success r then omap parseListed (outputLines r) else []).

Definition ruleToNftExpr (rule : FirewallRule) : list string :=
  (if bool_decide (fr_Source rule = FirewallWildcardAnyCIDR) then [] else ["ip"; "saddr"; fr_Source rule]) ++
  (if bool_decide (fr_Destination rule = FirewallWildcardAnyCIDR) then [] else ["ip"; "daddr"; fr_Destination rule]) ++
  (if bool_decide (fr_InInterface rule = FirewallWildcardAnyInterface) then []
   else ["iifname"; inQuotes (fr_InInterface rule)]) ++
  (if bool_decide (fr_OutInterface rule = FirewallWildcardAnyInterface) then []
   else ["oifname"; inQuotes (fr_OutInterface rule)]) ++
  (if negb (bool_decide (fr_Protocol rule = FirewallProtocolAll))
      && bool_decide (fr_SPort rule = FirewallPortAny) && bool_decide (fr_DPort rule = FirewallPortAny)
   then [fr_Protocol rule] else []) ++
  (if bool_decide (fr_SPort rule = FirewallPortAny) then []
   else [fr_Protocol rule; "sport"; Itoa (fr_SPort rule)]) ++
  (if bool_decide (fr_DPort rule = FirewallPortAny) then []
   else [fr_Protocol rule; "dport"; Itoa (fr_DPort rule)]) ++
  [ToLower (fr_Target rule)] ++
  (if unset (fr_CommentTag rule) then [] else ["comment"; inQuotes (orEmpty (fr_CommentTag rule))]).

Definition nft_findRuleHandle (rule : FirewallRule) : M (option Z) :=
  let expected := Join (ruleToNftExpr rule) " " in
  rules ← nft_listChainRules (fr_ChainName rule) (fr_TableName rule);
  mret (cr_Handle <$> head (filter (λ cr, Contains (cr_Text cr) expected) rules)).

Definition nft_RuleExists (rule : FirewallRule) : M bool :=
  handle ← nft_findRuleHandle rule; mret (bool_decide (is_Some handle)).

Definition addCmd (rule : FirewallRule) : list string :=
  ["add"; "rule"; "ip"; fr_TableName rule; fr_ChainName rule] ++ ruleToNftExpr rule.

Definition nft_verified (id : option Z) : M unit :=
  match id with
  | Some id => _ ← onTable (nft_UpdateVerifiedAt id); mret ()
  | None => mret ()
  end.

(** [contextLabel] is not used. *)
Definition nft_EnsureRule (rule : FirewallRule) (contextLabel : string) : M FirewallRuleResult :=
  found ← onTable (nft_FindByAttributes rule);
  match found with
  | Err e => mret (failed ("Failed to query existing nftables rule: " ++ Error e) None)
  | Ok (Some existing) =>
      _ ← nft_verified (fr_ID existing);
      mret (succeeded (Some existing) None)
  | Ok None =>
      let cmdStr := Join ("nft" :: addCmd rule) " " in
      let rule := frSetCommand (Some cmdStr) rule in
      add ← nft (addCmd rule);
      if negb (Success add)
      then mret (failed (cmdFailed "Failed to create nftables rule: command " "nft" add) (Some cmdStr))
      else
        recorded ← onTable (Insert rule);
        match recorded with
        | Err e => mret (failed ("Failed to insert nftables rule: " ++ Error e) (Some cmdStr))
        | Ok recorded => mret (succeeded (Some recorded) (Some cmdStr))
        end
  end.

Definition deleteCmd (rule : FirewallRule) (handle : Z) : list string :=
  ["delete"; "rule"; "ip"; fr_TableName rule; fr_ChainName rule; "handle"; Itoa handle].

Definition nft_markDeleted (id : option Z) : M unit :=
  match id with
  | Some id => _ ← onTable (nft_MarkDeleted id); mret ()
  | None => mret ()
  end.

Definition nft_dbRule (rule : FirewallRule) : M FirewallRule :=
  match fr_ID rule with
  | Some _ => mret rule
  | None =>
      found ← onTable (nft_FindByAttributes rule);
      mret (match found with Ok (Some existing) => existing | _ => rule end)
  end.

Definition nft_RemoveRule (rule : FirewallRule) : M FirewallRuleResult :=
  dbRule ← nft_dbRule rule;
  handle ← nft_findRuleHandle dbRule;
  match handle with
  | None => mret (failed "Rule not found in nftables (no matching handle)" None)
  | Some h =>
      let cmdStr := Join ("nft" :: deleteCmd dbRule h) " " in
      d ← nft (deleteCmd dbRule h);
      if negb (Success d)
      then mret (failed ("Failed to remove nftables rule: " ++ Stderr d) (Some cmdStr))
      else
        _ ← nft_markDeleted (fr_ID dbRule);
        mret (succeeded (Some dbRule) (Some cmdStr))
  end.

(** The script of a batch. *)
Definition batchLines (rules : list FirewallRule) : list string :=
  ((λ ct, "flush chain ip " ++ ct.2 ++ " " ++ ct.1) <$> rangeChains "flush") ++ [""] ++
  omap (λ ct, if bool_decide (ct.2 = "filter")
              then Some ("add rule ip " ++ ct.2 ++ " " ++ ct.1 ++ " ct state established,related accept")
              else None) (rangeChains "conntrack") ++ [""] ++
  ["add rule ip filter " ++ FirewallChainMVMForward ++ " ct state established,related accept";
   "add rule ip filter " ++ FirewallChainMVMNocloudNetIn ++ " ct state established,related accept"; ""] ++
  ((λ rule, "add rule ip " ++ fr_TableName rule ++ " " ++ fr_ChainName rule ++ " " ++
            Join (ruleToNftExpr rule) " ") <$> rules).

Definition nft_BatchEnsureRules (rules : list FirewallRule) : M FirewallRuleResult :=
  r ← onKernel (Run ["nft"; "-f"; "-"] (Join (batchLines rules) newline ++ newline));
  if negb (Success r) then mret (failed (cmdFailed "command " "nft -f -" r) None)
  else
    _ ← onTable (FindAndUpsertRules rules []);
    mret (succeeded None None).

(** The error of the deletion of one rule, if any. *)
Definition nft_removeListed (rule : FirewallRule) : M (option string) :=
  handle ← nft_findRuleHandle rule;
  match handle with
  | None => _ ← nft_markDeleted (fr_ID rule); mret None
  | Some h =>
      d ← nft (deleteCmd rule h);
      if negb (Success d)
      then mret (Some (if bool_decide (Stderr d = "") then "exit " ++ Itoa (RR_ExitCode d) else Stderr d))
      else (_ ← nft_markDeleted (fr_ID rule); mret None)
  end.

Fixpoint nft_removeLoop (rules : list FirewallRule) (lastError : string) : M string :=
  match rules with
  | [] => mret lastError
  | rule :: rest =>
      e ← nft_removeListed rule;
      nft_removeLoop rest (match e with Some msg => msg | None => lastError end)
  end.

Definition nft_BatchRemoveRules (rules : list FirewallRule) : M FirewallRuleResult :=
  lastError ← nft_removeLoop rules "";
  if bool_decide (lastError = "") then mret (succeeded None None)
  else mret (failed ("Some nftables rules could not be deleted: " ++ lastError) None).

Definition orphanRule (networkName : string) (known : gset string) (cr : chainRule) : bool :=
  match findComment (cr_Text cr) with
  | Some comment => Contains comment networkName && negb (bool_decide (comment ∈ known))
  | None => false
  end.

Fixpoint nft_countOrphans (networkName : string) (known : gset string)
    (cs : list (FirewallChain * string)) (orphaned : Z) : M Z :=
  match cs with
  | [] => mret orphaned
  | (chain, table) :: rest =>
      rules ← nft_listChainRules chain table;
      nft_countOrphans networkName known rest
        (orphaned + Z.of_nat (length (filter (orphanRule networkName known) rules)))%Z
  end.

Definition nft_CountOrphanedRules (network : NetworkItem) : M Z :=
  dbRules ← onTable (nft_GetByNetworkID (nw_ID network) true);
  match dbRules with
  | Err _ => mret 0%Z
  | Ok rules => nft_countOrphans (nw_Name network) (dbComments rules) nftChainToTable 0
  end.

(** ** Theorems *)

(** The commands of the program leave the tables alone. *)
Definition sameTables (w w' : FW K) : Prop := fdb w' = fdb w.

#[local] Instance sameTables_preorder : PreOrder sameTables.
Proof. split; [by intros w|]. unfold sameTables. by intros w1 w2 w3 -> ->. Qed.

Lemma onKernel_tables {A} (m : ST K A) : upholds sameTables (onKernel m).
Proof. intros w. unfold onKernel. by destruct (m (fkern w)). Qed.

#[local] Hint Resolve onKernel_tables : upholds.

Lemma findRuleHandle_tables rule : upholds sameTables (nft_findRuleHandle rule).
Proof. unfold nft_findRuleHandle, nft_listChainRules, nft, command. by upholds. Qed.

#[local] Hint Resolve findRuleHandle_tables : upholds.

Lemma removeListed_tables rule : fr_ID rule = None → upholds sameTables (nft_removeListed rule).
Proof.
  intros Hid. unfold nft_removeListed, nft, command. rewrite Hid. simpl. by upholds.
Qed.

Lemma removeLoop_tables rules lastError :
  Forall (λ r, fr_ID r = None) rules → upholds sameTables (nft_removeLoop rules lastError).
Proof.
  intros Hids. revert lastError. induction Hids as [|r rules Hr _ IH]; intros lastError; simpl; [by upholds|].
  apply upholds_bind; [apply _|by apply removeListed_tables|auto].
Qed.

Lemma nft_find_run rule (w : FW K) :
  healthy (fdb w) →
  onTable (nft_FindByAttributes rule) w = (Ok (head (recorded rule (tables (fdb w)))), w).
Proof. apply find_run. Qed.

(** Removing rules by their attributes, as [RemoveNAT] does, leaves their
    rows active, and [EnsureRule] believes the table: a rule that was removed
    from the kernel this way and is asked for again is answered with success,
    and no command is run. *)
Lemma nft_removed_rule_stays_removed (rules : list FirewallRule) (rule : FirewallRule)
    (contextLabel : string) (w : FW K) :
  healthy (fdb w) → Forall (λ r, fr_ID r = None) rules → recorded rule (tables (fdb w)) ≠ [] →
  let w1 := (nft_BatchRemoveRules rules w).2 in
  let '(res, w2) := nft_EnsureRule rule contextLabel w1 in
  fdb w1 = fdb w ∧ fres_Success res = true ∧ fkern w2 = fkern w1.
Proof.
  intros Hd Hids Hrec w1.
  assert (fdb w1 = fdb w) as Hw1.
  { apply (upholds_bind sameTables); [by apply removeLoop_tables|]. intros e. by upholds. }
  unfold nft_EnsureRule. rewrite ST_bind_unfold, nft_find_run by (unfold healthy; by rewrite Hw1).
  cbn [fst snd]. rewrite Hw1. destruct (recorded rule (tables (fdb w))) as [|e es]; [done|]. cbn [head].
  rewrite ST_bind_unfold. unfold nft_verified.
  destruct (fr_ID e); [|done]. split_and!; [done..|].
  simpl. rewrite ST_bind_unfold. apply onTable_kern.
Qed.
End NFTables.

Module NFTablesExamples.
Import ToyKernel IPTablesExamples.

Lemma nft_removed_rule_stays_removed_witness :
  let w1 := (nft_BatchRemoveRules [ruleB] exWorld).2 in
  fkern (nft_EnsureRule id exError ruleB "" w1).2 = fkern w1.
Proof.
  pose proof (nft_removed_rule_stays_removed id exError [ruleB] ruleB "" exWorld eq_refl
    (Forall_cons_2 _ ruleB [] eq_refl (Forall_nil_2 _)) ltac:(vm_compute; discriminate)) as Ht.
  cbv zeta in Ht |- *. destruct (nft_EnsureRule _ _ _ _ _) as [res w2]. apply Ht.
Defined.
End NFTablesExamples.
