(* ===== verification/FwTracker.v ===== *)
(** * The firewall tracker: [internal/lib/firewall/tracker.go]

    [FirewallTracker] hands every operation to the backend chosen at start, the
    iptables or the nftables tracker, and can collect the rules of a stretch of
    code into one batch.  The two interfaces it uses are classes, with an
    instance per backend. *)

From stdpp Require Import gmap strings list.
From S2P Require Import Prelude GoStrings Errs Model Sql System FwRepo IPTables NFTables.
#[local] Open Scope string_scope.

(** ** The interfaces *)

Class Tracker (W : Type) := {
  tr_Initialize : ST W unit;
  tr_Teardown : ST W unit;
  tr_EnsureRule : FirewallRule → string → ST W FirewallRuleResult;
  tr_BatchEnsureRules : list FirewallRule → ST W FirewallRuleResult;
  tr_RemoveRule : FirewallRule → ST W FirewallRuleResult;
  tr_BatchRemoveRules : list FirewallRule → ST W FirewallRuleResult;
  tr_EnsureChain : FirewallChain → FirewallTable → string → Z → ST W bool;
  tr_FlushChain : FirewallChain → FirewallTable → ST W bool;
  tr_CountOrphanedRules : NetworkItem → ST W Z;
  tr_RuleExists : FirewallRule → ST W bool;
}.

Class firewallRuleRepo (W : Type) := {
  fr_GetByNetworkID : string → bool → GoM W error (list FirewallRule);
  fr_GetByNetworkIDAndInterface : string → string → bool → GoM W error (list FirewallRule);
}.

(** ** The backends *)
Section Backends.
Context {K : Type} `{Runner K} (rfc3339 : string → string) (constraintError : error).
Context (rangeChains : string → list (FirewallChain * string)).

Definition NewIPTablesTracker (xtcommentAvailable : bool) : Tracker (FW K) := {|
  tr_Initialize := Initialize;
  tr_Teardown := Teardown;
  tr_EnsureRule := EnsureRule rfc3339 constraintError xtcommentAvailable;
  tr_BatchEnsureRules := BatchEnsureRules rfc3339 constraintError xtcommentAvailable rangeChains;
  tr_RemoveRule := RemoveRule xtcommentAvailable;
  tr_BatchRemoveRules := BatchRemoveRules xtcommentAvailable;
  tr_EnsureChain := EnsureChain;
  tr_FlushChain := FlushChain;
  tr_CountOrphanedRules := CountOrphanedRules;
  tr_RuleExists := RuleExists xtcommentAvailable;
|}.

Definition NewNFTablesTracker : Tracker (FW K) := {|
  tr_Initialize := nft_Initialize rangeChains;
  tr_Teardown := nft_Teardown;
  tr_EnsureRule := nft_EnsureRule rfc3339 constraintError;
  tr_BatchEnsureRules := nft_BatchEnsureRules rfc3339 constraintError rangeChains;
  tr_RemoveRule := nft_RemoveRule;
  tr_BatchRemoveRules := nft_BatchRemoveRules;
  tr_EnsureChain := nft_EnsureChain;
  tr_FlushChain := nft_FlushChain;
  tr_CountOrphanedRules := nft_CountOrphanedRules;
  tr_RuleExists := nft_RuleExists;
|}.

Definition NewIPTablesRuleRepository : firewallRuleRepo (FW K) := {|
  fr_GetByNetworkID := λ id active, onTable (ipt_GetByNetworkID id active);
  fr_GetByNetworkIDAndInterface := λ id iface active, onTable (ipt_GetByNetworkIDAndInterface id iface active);
|}.

Definition NewNFTablesRuleRepository : firewallRuleRepo (FW K) := {|
  fr_GetByNetworkID := λ id active, onTable (nft_GetByNetworkID id active);
  fr_GetByNetworkIDAndInterface := λ id iface active, onTable (nft_GetByNetworkIDAndInterface id iface active);
|}.

Definition FirewallBackendNFTables : string := "nftables".
Definition FirewallBackendIPTables : string := "iptables".

(** The backend and the repository of a tracker; no other name has one. *)
Definition NewFirewallTracker (backend : string) (xtcommentAvail : bool)
    : option (Tracker (FW K) * firewallRuleRepo (FW K)) :=
  if bool_decide (backend = FirewallBackendNFTables) then Some (NewNFTablesTracker, NewNFTablesRuleRepository)
  else if bool_decide (backend = FirewallBackendIPTables)
  then Some (NewIPTablesTracker xtcommentAvail, NewIPTablesRuleRepository)
  else None.
End Backends.

(** ** The dispatcher *)

(** The mutable fields of [FirewallTracker]. *)
Record FirewallTracker := FirewallTracker_ {
  batchMode : bool;
  batchRules : list FirewallRule;
}.

Section Dispatcher.
Context {W : Type} `{Tracker W}.
#[local] Notation M := (ST (FirewallTracker * W)).

Definition onWorld {A} (m : ST W A) : M A := λ s, let '(a, w) := m s.2 in (a, (s.1, w)).

Definition flushBatch : M FirewallRuleResult := λ s,
  let rules := batchRules s.1 in
  if decide (rules = []) then (succeeded None None, (FirewallTracker_ false [], s.2))
  else
    let '(result, w) := tr_BatchEnsureRules rules s.2 in
    (result, (FirewallTracker_ false [], w)).

(** The deferred flush runs when [fn] returns; its result is dropped.  The
    answer is what [fn] leaves in the variables it captures. *)
Definition ft_WithBatch {A} (fn : M A) : M A := λ s,
  (a ← fn; _ ← flushBatch; mret a) (FirewallTracker_ true [], s.2).

Definition ft_EnsureRule (rule : FirewallRule) (contextLabel : string) : M FirewallRuleResult := λ s,
  if batchMode s.1
  then (succeeded None None, (FirewallTracker_ true (batchRules s.1 ++ [rule]), s.2))
  else onWorld (tr_EnsureRule rule contextLabel) s.

Definition ft_BatchEnsureRules (rules : list FirewallRule) : M FirewallRuleResult :=
  onWorld (tr_BatchEnsureRules rules).
Definition ft_RemoveRule (rule : FirewallRule) : M FirewallRuleResult := onWorld (tr_RemoveRule rule).
Definition ft_BatchRemoveRules (rules : list FirewallRule) : M FirewallRuleResult :=
  onWorld (tr_BatchRemoveRules rules).
Definition ft_CountOrphanedRules (network : NetworkItem) : M Z := onWorld (tr_CountOrphanedRules network).
Definition ft_RuleExists (rule : FirewallRule) : M bool := onWorld (tr_RuleExists rule).
Definition ft_EnsureChain (chainName : FirewallChain) (table : FirewallTable) (autoJumpFrom : string)
    (position : Z) : M bool := onWorld (tr_EnsureChain chainName table autoJumpFrom position).
Definition ft_FlushChain (chainName : FirewallChain) (table : FirewallTable) : M bool :=
  onWorld (tr_FlushChain chainName table).
Definition ft_Initialize : M unit := onWorld tr_Initialize.
Definition ft_Teardown : M unit := onWorld tr_Teardown.

Context `{firewallRuleRepo W}.

Definition ft_GetByNetworkID (networkID : string) (activeOnly : bool)
    : M (result error (list FirewallRule)) := onWorld (fr_GetByNetworkID networkID activeOnly).
Definition ft_GetByNetworkIDAndInterface (networkID iface : string) (activeOnly : bool)
    : M (result error (list FirewallRule)) := onWorld (fr_GetByNetworkIDAndInterface networkID iface activeOnly).
End Dispatcher.

(** ** Batches *)
Section Batches.
Context {W : Type} `{Tracker W}.

Definition batching (rules : list FirewallRule) (w : W) : FirewallTracker * W := (FirewallTracker_ true rules, w).

Lemma ensure_batching rule label rules w :
  ft_EnsureRule rule label (batching rules w) = (succeeded None None, batching (rules ++ [rule]) w).
Proof. done. Qed.

(** What a batch does, when [fn] collects [rules] and leads to [w']: one call of
    the backend with exactly these rules, and the batch is closed. *)
Lemma WithBatch_flushes {A} (fn : ST (FirewallTracker * W) A) a rules w' s :
  fn (batching [] s.2) = (a, batching rules w') → rules ≠ [] →
  ft_WithBatch fn s = (a, (FirewallTracker_ false [], (tr_BatchEnsureRules rules w').2)).
Proof.
  intros E Hne. unfold ft_WithBatch, batching in *. rewrite ST_bind_unfold, E. cbn [fst snd].
  rewrite ST_bind_unfold. unfold flushBatch. cbn [fst snd batchRules].
  rewrite decide_False by done. by destruct (tr_BatchEnsureRules rules w').
Qed.
End Batches.
