(* ===== verification/NetOps.v ===== *)
(** * Bridges and TAP devices: [internal/lib/network/netops.go]

    The interface [NetOps] is a class; its implementation runs [ip] and reads
    its listings. *)

From Stdlib Require Import Ascii.
From stdpp Require Import gmap strings list.
From S2P Require Import Prelude GoStrings Errs System IPTables.
#[local] Open Scope string_scope.

Class NetOps (W : Type) := {
  BridgeExists : string → ST W bool;
  TapExists : string → ST W bool;
  BridgeHasSubnet : string → string → ST W bool;
  GetBridgeTaps : string → ST W (list string);
  GetTapBridge : string → ST W string;
  GetBridgeSlaves : string → ST W (list string);
  GetSystemBridges : ST W (list string);
  RunBatch : list string → GoM W error unit;
  RemoveRawTap : string → GoM W error unit;
  RemoveRawBridge : string → GoM W error unit;
}.

(** ** The implementation over [ip] *)
Section RealNetOps.
Context {W : Type} `{Runner W}.

(** The error [Run] makes of a failed command when [Check] is set. *)
Context (runError : RunResult → error).

Definition ip (args : list string) : ST W RunResult := Run ("ip" :: args) "".

Definition splitLines (s : string) : list string := Split s (ascii_of_nat 10).
Definition trimColon (s : string) : string := TrimRight s ":"%char.

Definition real_BridgeExists (bridge : string) : ST W bool :=
  r ← ip ["link"; "show"; bridge]; mret (Success r).

Definition real_TapExists (tap : string) : ST W bool :=
  r ← ip ["link"; "show"; tap]; mret (Success r).

Definition real_BridgeHasSubnet (bridge subnet : string) : ST W bool :=
  r ← ip ["-o"; "addr"; "show"; bridge]; mret (Success r && Contains (Stdout r) subnet).

(** The device a line of the listing starts: its first word starts with a digit. *)
Definition tapOfLine (line : string) : option string :=
  match Fields line with
  | String c _ :: name :: _ => if isDigit c then Some (trimColon name) else None
  | _ => None
  end.

Definition real_GetBridgeTaps (bridge : string) : ST W (list string) :=
  r ← ip ["link"; "show"; "master"; bridge];
  mret (if Success r then omap tapOfLine (splitLines (Stdout r)) else []).

(** The word after the first [master] that another word follows. *)
Fixpoint masterWord (parts : list string) : option string :=
  match parts with
  | part :: ((next :: _) as rest) => if bool_decide (part = "master") then Some next else masterWord rest
  | _ => None
  end.

Definition masterOfLine (line : string) : option string :=
  if Contains line "master" then masterWord (Fields line) else None.

Definition real_GetTapBridge (tap : string) : ST W string :=
  r ← ip ["link"; "show"; tap];
  mret (if Success r then default "" (head (omap masterOfLine (splitLines (Stdout r)))) else "").

(** [strings.SplitN(s, "@", 2)[0]]. *)
Definition beforeAt (s : string) : string := match Cut s "@" with Some (b, _) => b | None => s end.

Definition slaveOfLine (bridge line : string) : option string :=
  match Fields (TrimSpace line) with
  | _ :: name :: _ =>
      let slave := beforeAt (trimColon name) in
      if bool_decide (slave = bridge) then None else Some slave
  | _ => None
  end.

Definition real_GetBridgeSlaves (bridge : string) : ST W (list string) :=
  r ← ip ["-o"; "link"; "show"; "master"; bridge];
  mret (if Success r then omap (slaveOfLine bridge) (splitLines (Stdout r)) else []).

Definition bridgeOfLine (line : string) : option string :=
  match Fields line with
  | _ :: name :: _ => Some (trimColon name)
  | _ => None
  end.

Definition real_GetSystemBridges : ST W (list string) :=
  r ← ip ["-o"; "link"; "show"; "type"; "bridge"];
  mret (if Success r then omap bridgeOfLine (splitLines (Stdout r)) else []).

Definition real_RunBatch (commands : list string) : GoM W error unit :=
  r ← calls (Run ["ip"; "-batch"; "-"] (Join commands newline ++ newline));
  if Success r then mret ()
  else throw (Errorf ("ip -batch failed: " ++ Error (runError r) ++ newline ++ Stderr r) (Some (runError r))).

Definition details (stderrFirst : string) : string :=
  if bool_decide (stderrFirst = "") then "" else " (" ++ stderrFirst ++ ")".

Definition real_RemoveRawTap (tap : string) : GoM W error unit :=
  r1 ← calls (ip ["link"; "delete"; tap]);
  if Success r1 then mret ()
  else
    r2 ← calls (ip ["tuntap"; "del"; "dev"; tap; "mode"; "tap"]);
    if Success r2 then mret ()
    else throw (EDomain (Wrap CodeNetworkBridgeFailed
           (Errorf ("failed to remove TAP device '" ++ tap ++ "': tried 'ip link delete'" ++
                    details (TrimSpace (Stderr r1)) ++ " and 'ip tuntap del'") None) [])).

Definition removeSlave (slave : string) : ST W unit :=
  _ ← ip ["link"; "set"; slave; "down"];
  r ← ip ["link"; "delete"; slave];
  if Success r then mret ()
  else (_ ← ip ["tuntap"; "del"; "dev"; slave; "mode"; "tap"]; mret ()).

Definition real_RemoveRawBridge (bridge : string) : GoM W error unit :=
  slaves ← calls (real_GetBridgeSlaves bridge);
  _ ← calls (forEach slaves removeSlave);
  _ ← calls (ip ["link"; "set"; bridge; "down"]);
  r1 ← calls (ip ["link"; "delete"; bridge; "type"; "bridge"]);
  if Success r1 then mret ()
  else
    r2 ← calls (ip ["link"; "delete"; bridge]);
    if Success r2 then mret ()
    else throw (EDomain (Wrap CodeNetworkBridgeFailed
           (Errorf ("failed to remove bridge '" ++ bridge ++ "': tried 'ip link delete' with type" ++
                    details (TrimSpace (Stderr r1)) ++ " and without") None) [])).

Definition realNetOps : NetOps W := {|
  BridgeExists := real_BridgeExists;
  TapExists := real_TapExists;
  BridgeHasSubnet := real_BridgeHasSubnet;
  GetBridgeTaps := real_GetBridgeTaps;
  GetTapBridge := real_GetTapBridge;
  GetBridgeSlaves := real_GetBridgeSlaves;
  GetSystemBridges := real_GetSystemBridges;
  RunBatch := real_RunBatch;
  RemoveRawTap := real_RemoveRawTap;
  RemoveRawBridge := real_RemoveRawBridge;
|}.
End RealNetOps.
