(* ===== verification/Networks.v ===== *)
(** * Networks in the database: [internal/core/network/repository.go, sqlite.go, resolver.go, controller.go]

    The interface [Repository] of the network domain is a class; its SQLite
    implementation runs statements over the table [networks]
    ([internal/lib/db/migrations/001_initial_schema.sql]), whose [id] is the
    primary key and whose [name] is unique.  A network that virtual machines
    still use cannot be deleted, only marked as deleted. *)

From stdpp Require Import gmap strings list.
From S2P Require Import Prelude GoStrings Errs Model Infra Sql.
#[local] Open Scope string_scope.

Class NetworkRepository (W : Type) := {
  nr_Get : string → GoM W error (option NetworkItem);
  nr_GetByName : string → bool → GoM W error (option NetworkItem);
  nr_FindByPrefix : string → bool → GoM W error (list NetworkItem);
  nr_Count : GoM W error Z;
  nr_ListAll : GoM W error (list NetworkItem);
  nr_Upsert : NetworkItem → GoM W error unit;
  nr_UpdateBridgeActive : string → bool → GoM W error unit;
  nr_SetDefault : string → GoM W error unit;
  nr_GetDefault : GoM W error (option NetworkItem);
  nr_UpdateManyIsPresent : list string → bool → GoM W error unit;
  nr_SoftDelete : string → GoM W error unit;
  nr_Delete : string → GoM W error unit;
}.

(** ** Fields *)

Definition nwSetTimes (created updated : string) (n : NetworkItem) : NetworkItem :=
  NetworkItem_ (nw_ID n) (nw_Name n) (nw_Subnet n) (nw_Bridge n) (nw_IPv4Gateway n) (nw_BridgeActive n)
    (nw_NATEnabled n) (nw_IsDefault n) (nw_IsPresent n) created updated (nw_DeletedAt n) (nw_NATGateways n).
Definition nwSetBridgeActive (b : bool) (n : NetworkItem) : NetworkItem :=
  NetworkItem_ (nw_ID n) (nw_Name n) (nw_Subnet n) (nw_Bridge n) (nw_IPv4Gateway n) b
    (nw_NATEnabled n) (nw_IsDefault n) (nw_IsPresent n) (nw_CreatedAt n) (nw_UpdatedAt n) (nw_DeletedAt n) (nw_NATGateways n).
Definition nwSetDefault (b : bool) (n : NetworkItem) : NetworkItem :=
  NetworkItem_ (nw_ID n) (nw_Name n) (nw_Subnet n) (nw_Bridge n) (nw_IPv4Gateway n) (nw_BridgeActive n)
    (nw_NATEnabled n) b (nw_IsPresent n) (nw_CreatedAt n) (nw_UpdatedAt n) (nw_DeletedAt n) (nw_NATGateways n).
Definition nwSetPresent (b : bool) (n : NetworkItem) : NetworkItem :=
  NetworkItem_ (nw_ID n) (nw_Name n) (nw_Subnet n) (nw_Bridge n) (nw_IPv4Gateway n) (nw_BridgeActive n)
    (nw_NATEnabled n) (nw_IsDefault n) b (nw_CreatedAt n) (nw_UpdatedAt n) (nw_DeletedAt n) (nw_NATGateways n).
Definition nwSetDeleted (d : option string) (n : NetworkItem) : NetworkItem :=
  NetworkItem_ (nw_ID n) (nw_Name n) (nw_Subnet n) (nw_Bridge n) (nw_IPv4Gateway n) (nw_BridgeActive n)
    (nw_NATEnabled n) (nw_IsDefault n) (nw_IsPresent n) (nw_CreatedAt n) (nw_UpdatedAt n) d (nw_NATGateways n).

(** [deleted_at IS NULL]. *)
Definition live (n : NetworkItem) : bool := bool_decide (nw_DeletedAt n = None).

(** ** The SQLite implementation *)
Section Sqlite.

(** The operator LIKE, the RFC 3339 text of the clock, the error of a violated
    constraint, and the networks that rows of other tables keep from being
    deleted. *)
Context (like : string → string → bool) (rfc3339 : string → string) (constraintError : error).
Context (inUse : string → bool).

Notation T := (list NetworkItem).
#[local] Notation M := (GoM (Db T) error).

Definition nwGet (P : NetworkItem → bool) : M (option NetworkItem) := query (λ t : T, head (filter P t)).

Definition nwsqlite_Get (id : string) : M (option NetworkItem) :=
  nwGet (λ n, bool_decide (nw_ID n = id) && live n).

Definition nwsqlite_GetByName (name : string) (includeDeleted : bool) : M (option NetworkItem) :=
  nwGet (λ n, bool_decide (nw_Name n = name) && (includeDeleted || live n)).

Definition nwsqlite_FindByPrefix (prefix : string) (includeDeleted : bool) : M T :=
  query (λ t : T, filter (λ n, like (prefix ++ "%") (nw_ID n) && (includeDeleted || live n)) t).

Definition nwsqlite_ListAll : M T := query (orderBy nw_CreatedAt).

Definition nwUpsertRow (n : NetworkItem) (now : string) (t : T) : result error (unit * T) :=
  if decide (Exists (λ x, nw_Name x = nw_Name n ∧ nw_ID x ≠ nw_ID n) t) then Err constraintError
  else Ok ((), upsertBy nw_ID n (λ old, nwSetTimes (nw_CreatedAt old) now n) t).

Definition nwsqlite_Upsert (n : NetworkItem) : M unit := statement (nwUpsertRow n).

Definition nwsqlite_Delete (id : string) : M unit :=
  statement (λ _ (t : T), if inUse id && bool_decide (id ∈ nw_ID <$> t) then Err constraintError
                          else Ok ((), filter (λ n, nw_ID n ≠ id) t)).

(** [UPDATE ..., updated_at = CURRENT_TIMESTAMP WHERE ...]. *)
Definition touched (now : string) (f : NetworkItem → NetworkItem) (n : NetworkItem) : NetworkItem :=
  nwSetTimes (nw_CreatedAt n) now (f n).

Definition nwsqlite_SoftDelete (id : string) : M unit :=
  statement (λ now (t : T), Ok ((), updateRow nw_ID id (touched now (nwSetDeleted (Some (rfc3339 now)))) t)).

Definition nwsqlite_UpdateManyIsPresent (ids : list string) (present : bool) : M unit :=
  if decide (ids = []) then mret ()
  else statement (λ now (t : T), Ok ((),
         (λ n, if decide (nw_ID n ∈ ids) then touched now (nwSetPresent present) n else n) <$> t)).

Definition nwsqlite_UpdateBridgeActive (id : string) (active : bool) : M unit :=
  statement (λ now (t : T), Ok ((), updateRow nw_ID id (touched now (nwSetBridgeActive active)) t)).

(** Clear the default, then set it. *)
Definition clearDefault (t : T) : T := (λ n, if live n then nwSetDefault false n else n) <$> t.
Definition markDefault (id now : string) (t : T) : T :=
  (λ n, if decide (nw_ID n = id) then (if live n then touched now (nwSetDefault true) n else n) else n) <$> t.

Definition nwsqlite_SetDefault (id : string) : M unit :=
  transaction (
    _ ← statement (λ _ (t : T), Ok ((), clearDefault t));
    statement (λ now (t : T), Ok ((), markDefault id now t))).

Definition nwsqlite_GetDefault : M (option NetworkItem) := nwGet (λ n, nw_IsDefault n && live n).

Definition nwsqlite_Count : M Z := query (λ t : T, Z.of_nat (length (filter live t))).

Definition nwSqliteRepo : NetworkRepository (Db T) := {|
  nr_Get := nwsqlite_Get;
  nr_GetByName := nwsqlite_GetByName;
  nr_FindByPrefix := nwsqlite_FindByPrefix;
  nr_Count := nwsqlite_Count;
  nr_ListAll := nwsqlite_ListAll;
  nr_Upsert := nwsqlite_Upsert;
  nr_UpdateBridgeActive := nwsqlite_UpdateBridgeActive;
  nr_SetDefault := nwsqlite_SetDefault;
  nr_GetDefault := nwsqlite_GetDefault;
  nr_UpdateManyIsPresent := nwsqlite_UpdateManyIsPresent;
  nr_SoftDelete := nwsqlite_SoftDelete;
  nr_Delete := nwsqlite_Delete;
|}.
End Sqlite.

(** ** The resolver *)
Section Resolver.
Context {W : Type} `{NetworkRepository W}.
#[local] Notation M := (GoM W error).

(** The relations to load, and the callback that loads them: it may fail, and
    the networks are then left as they are. *)
Context (include : list string).
Context (enrichFn : option (list NetworkItem → GoM W error (list NetworkItem))).

Definition networkNotFound (msg : string) : error := EDomain (NotFound CodeNetworkNotFound msg []).

Definition nw_enrich (networks : list NetworkItem) : M (list NetworkItem) :=
  if decide (include = [] ∨ networks = []) then mret networks
  else match enrichFn with
       | None => mret networks
       | Some fn => r ← try (fn networks); mret (match r with Ok enriched => enriched | Err _ => networks end)
       end.

(** [r.enrich(ctx, []T{x})[0]]: the answer has an element for each network. *)
Definition enrichOne (n : NetworkItem) : M NetworkItem :=
  l ← nw_enrich [n]; mret (default n (head l)).

Definition nw_ByID (networkID : string) (includeDeleted : bool) : M NetworkItem :=
  matches ← nr_FindByPrefix networkID includeDeleted;
  match matches with
  | [] => throw (networkNotFound ("model.NetworkItem not found: " ++ networkID))
  | [n] => enrichOne n
  | _ => throw (networkNotFound ("model.NetworkItem ID is ambiguous: " ++ networkID))
  end.

Definition nw_ByName (name : string) (includeDeleted : bool) : M NetworkItem :=
  network ← nr_GetByName name includeDeleted;
  match network with
  | None => throw (networkNotFound ("model.NetworkItem not found: " ++ name))
  | Some n => enrichOne n
  end.

Definition nw_GetDefault : M (option NetworkItem) :=
  network ← nr_GetDefault;
  match network with
  | None => mret None
  | Some n => (n ← enrichOne n; mret (Some n))
  end.

Definition nw_Resolve (value : string) (includeDeleted : bool) : M NetworkItem :=
  r ← try (nw_ByName value includeDeleted);
  match r with
  | Ok network => mret network
  | Err err =>
      if decide (IsNotFound err ≠ Some true) then throw err
      else nw_ByID value includeDeleted
  end.

Record NwResolveResult := NwResolveResult_ {
  nwr_Items : list NetworkItem;
  nwr_Errors : list string;
  nwr_ExitCode : Z;
}.

Fixpoint nw_resolveLoop (idents : list string) (includeDeleted : bool) (items : list NetworkItem)
    (errorsList : list string) (resolvedIDs : gset string) : M (list NetworkItem * list string) :=
  match idents with
  | [] => mret (items, errorsList)
  | ident :: rest =>
      r ← try (nw_Resolve ident includeDeleted);
      match r with
      | Err err => nw_resolveLoop rest includeDeleted items (errorsList ++ [Error err]) resolvedIDs
      | Ok item =>
          if decide (nw_ID item ∈ resolvedIDs)
          then nw_resolveLoop rest includeDeleted items errorsList resolvedIDs
          else nw_resolveLoop rest includeDeleted (items ++ [item]) errorsList ({[nw_ID item]} ∪ resolvedIDs)
      end
  end.

Definition nw_ResolveMany (identifiers : list string) (includeDeleted : bool) : M NwResolveResult :=
  let uniqueIDs := Dedup identifiers in
  r ← nw_resolveLoop uniqueIDs includeDeleted [] [] ∅;
  let '(items, errorsList) := r in
  items ← nw_enrich items;
  let exitCode := if bool_decide (errorsList ≠ []) && bool_decide (items = []) then 1%Z else 0%Z in
  mret (NwResolveResult_ items errorsList exitCode).
End Resolver.

(** ** The controller *)
Definition nwctl_SetDefault {W} `{NetworkRepository W} (network : option NetworkItem) : GoM W error unit :=
  match network with
  | None => throw (networkNotFound "no network entity loaded")
  | Some n => nr_SetDefault (nw_ID n)
  end.

(** ** Theorems *)

(** What the schema guarantees. *)
Definition networksOK (t : list NetworkItem) : Prop := NoDup (nw_ID <$> t) ∧ NoDup (nw_Name <$> t).

(** The networks [GetDefault] would answer with. *)
Definition defaults (t : list NetworkItem) : list NetworkItem := filter (λ n, nw_IsDefault n && live n) t.

(** The networks [Get id] would answer with. *)
Definition liveWith (id : string) (t : list NetworkItem) : list NetworkItem :=
  filter (λ n, bool_decide (nw_ID n = id) && live n) t.


Lemma networksOK_fmap f t :
  (∀ n, nw_ID (f n) = nw_ID n) → (∀ n, nw_Name (f n) = nw_Name n) → networksOK t → networksOK (f <$> t).
Proof.
  intros Hi Hn [Hids Hnames]. split; rewrite <- list_fmap_compose.
  - erewrite list_fmap_ext; [exact Hids|]. intros; simpl; auto.
  - erewrite list_fmap_ext; [exact Hnames|]. intros; simpl; auto.
Qed.

Lemma networksOK_updateRow k f t :
  (∀ n, nw_ID (f n) = nw_ID n) → (∀ n, nw_Name (f n) = nw_Name n) → networksOK t →
  networksOK (updateRow nw_ID k f t).
Proof.
  intros Hi Hn [Hids Hnames]. split.
  - by rewrite updateRow_column.
  - by rewrite updateRow_column.
Qed.

Lemma networksOK_filter (P : NetworkItem → Prop) `{∀ x, Decision (P x)} t :
  networksOK t → networksOK (filter P t).
Proof. intros [Hids Hnames]. split; by apply NoDup_fmap_filter. Qed.

Lemma clearDefault_defaults t : defaults (clearDefault t) = [].
Proof.
  unfold defaults, clearDefault. induction t as [|n t IH]; [done|].
  rewrite fmap_cons, filter_cons_False; [done|]. destruct (live n) eqn:E; simpl.
  - by intros [].
  - rewrite E, andb_false_r. by intros [].
Qed.

Lemma clearDefault_live t : live <$> clearDefault t = live <$> t.
Proof.
  unfold clearDefault. rewrite <- list_fmap_compose. apply list_fmap_ext. intros i n _. simpl.
  by destruct (live n) eqn:E.
Qed.

Lemma markDefault_defaults id now t :
  defaults t = [] →
  nw_ID <$> defaults (markDefault id now t) = nw_ID <$> liveWith id t.
Proof.
  unfold defaults, markDefault, liveWith. induction t as [|n t IH]; [done|].
  rewrite filter_cons. destruct (decide (nw_IsDefault n && live n)) as [|Hn]; [done|]. intros Ht.
  rewrite fmap_cons, !filter_cons. specialize (IH Ht).
  destruct (decide (nw_ID n = id)) as [Hid|Hid]; [destruct (live n) eqn:Hl|].
  - assert (nw_IsDefault (touched now (nwSetDefault true) n) && live (touched now (nwSetDefault true) n) = true)
      as E by exact Hl.
    rewrite E, bool_decide_eq_true_2 by done. rewrite !(decide_True (P := Is_true true)) by done.
    by rewrite !fmap_cons, IH.
  - rewrite decide_False by (rewrite Hl, andb_false_r; by intros []).
    rewrite decide_False by (rewrite andb_false_r; by intros []). done.
  - rewrite decide_False by done.
    rewrite decide_False by (rewrite bool_decide_eq_false_2 by done; by intros []). done.
Qed.

Lemma liveWith_clear id t : nw_ID <$> liveWith id (clearDefault t) = nw_ID <$> liveWith id t.
Proof.
  unfold liveWith, clearDefault. induction t as [|n t IH]; [done|].
  rewrite fmap_cons, !filter_cons. destruct (live n) eqn:Hl; simpl.
  - change (live (nwSetDefault false n)) with (live n). rewrite Hl.
    destruct (decide (bool_decide (nw_ID n = id) && true)); [|done]. by rewrite !fmap_cons, IH.
  - rewrite Hl. destruct (decide _); [|done]. by rewrite !fmap_cons, IH.
Qed.

Lemma liveWith_ids id t :
  NoDup (nw_ID <$> t) →
  nw_ID <$> liveWith id t = if decide (liveWith id t = []) then [] else [id].
Proof.
  intros Hnd. assert (NoDup (nw_ID <$> liveWith id t)) as Hf by by apply NoDup_fmap_filter.
  assert (∀ x, x ∈ liveWith id t → nw_ID x = id) as Hid.
  { intros x [Hx _]%list_elem_of_filter. apply Is_true_true, andb_true_iff in Hx as [Hx _].
    by apply bool_decide_eq_true in Hx. }
  destruct (liveWith id t) as [|x [|y l]]; [done|by rewrite (decide_False (P := _ = _)), fmap_cons, Hid by (done || set_solver)|].
  exfalso. rewrite !fmap_cons, (Hid x), (Hid y) in Hf by set_solver.
  apply NoDup_cons in Hf as [Hx _]. apply Hx. by left.
Qed.

(** After [SetDefault] there is at most one default network: the live network
    with the given id, which [GetDefault] then answers.  When no live network
    has that id the call still succeeds, and there is no default network any
    more.  A failure of any statement, or of the commit, changes nothing. *)
Lemma SetDefault_unique (id : string) (db db' : Db (list NetworkItem)) (r : result error unit) :
  networksOK (tables db) → nwsqlite_SetDefault id db = (r, db') →
  match r with
  | Ok _ => nw_ID <$> defaults (tables db') = (if decide (liveWith id (tables db) = []) then [] else [id])
  | Err _ => tables db' = tables db
  end.
Proof.
  intros [Hids _] E. apply transaction_atomic in E. destruct r as [[]|e]; [|done].
  destruct E as (db1 & db2 & Ht1 & Hc1 & E & ->). rewrite bind_unfold in E.
  destruct (statement _ db1) as [[[]|e] dbm] eqn:Es; [|done].
  apply statement_Ok in Es as [[= Em] _]. apply statement_Ok in E as [[= Ef] _].
  rewrite <- Ef, <- Em, Ht1, markDefault_defaults by apply clearDefault_defaults.
  rewrite liveWith_clear. by apply liveWith_ids.
Qed.

(** *** The table stays well formed *)
Section Mutations.
Context (rfc3339 : string → string) (constraintError : error) (inUse : string → bool).

Lemma networksOK_upsert n now t t' :
  networksOK t → nwUpsertRow constraintError n now t = Ok ((), t') → networksOK t'.
Proof.
  intros [Hids Hnames]. unfold nwUpsertRow. case_decide as Hex; [done|]. intros [= <-].
  assert (∀ x, x ∈ t → nw_Name x = nw_Name n → nw_ID x = nw_ID n) as Hu.
  { intros x Hx Ex. destruct (decide (nw_ID x = nw_ID n)); [done|].
    destruct Hex. apply Exists_exists. eauto. }
  split; [by apply upsertBy_keys|by apply upsertBy_column].
Qed.

Inductive nwMutation :=
  | NMUpsert (n : NetworkItem)
  | NMDelete (id : string)
  | NMSoftDelete (id : string)
  | NMPresent (ids : list string) (b : bool)
  | NMBridgeActive (id : string) (b : bool)
  | NMSetDefault (id : string).

Definition runNwMutation (m : nwMutation) : GoM (Db (list NetworkItem)) error unit :=
  match m with
  | NMUpsert n => nwsqlite_Upsert constraintError n
  | NMDelete id => nwsqlite_Delete constraintError inUse id
  | NMSoftDelete id => nwsqlite_SoftDelete rfc3339 id
  | NMPresent ids b => nwsqlite_UpdateManyIsPresent ids b
  | NMBridgeActive id b => nwsqlite_UpdateBridgeActive id b
  | NMSetDefault id => nwsqlite_SetDefault id
  end.

Lemma statement_networksOK {A} (f : string → list NetworkItem → result error (A * list NetworkItem)) db :
  networksOK (tables db) → (∀ a t', f (clock db) (tables db) = Ok (a, t') → networksOK t') →
  networksOK (tables (statement f db).2).
Proof.
  intros Ht Hf. destruct (statement f db) as [[a|e] db'] eqn:E.
  - apply statement_Ok in E as [E _]. eauto.
  - apply statement_Err in E as [E _]. simpl. by rewrite E.
Qed.

Lemma runNwMutation_OK m db : networksOK (tables db) → networksOK (tables (runNwMutation m db).2).
Proof.
  intros Ht. destruct m as [n|id|id|ids b|id b|id]; simpl.
  - apply statement_networksOK; [done|]. intros [] t'. by apply networksOK_upsert.
  - apply statement_networksOK; [done|]. intros [] t'. destruct (_ && _); [done|]. intros [= <-].
    by apply networksOK_filter.
  - apply statement_networksOK; [done|]. intros [] t' [= <-]. by apply networksOK_updateRow.
  - unfold nwsqlite_UpdateManyIsPresent. case_decide; [done|].
    apply statement_networksOK; [done|]. intros [] t' [= <-].
    by apply networksOK_fmap; [intros n; case_decide..|].
  - apply statement_networksOK; [done|]. intros [] t' [= <-]. by apply networksOK_updateRow.
  - destruct (nwsqlite_SetDefault id db) as [r db'] eqn:E. simpl. apply transaction_atomic in E.
    destruct r as [[]|e]; [|by rewrite E].
    destruct E as (db1 & db2 & Ht1 & Hc1 & E & ->). rewrite bind_unfold in E.
    destruct (statement _ db1) as [[[]|e] dbm] eqn:Es; [|done].
    apply statement_Ok in Es as [[= Em] _]. apply statement_Ok in E as [[= Ef] _].
    rewrite <- Ef, <- Em, Ht1. unfold markDefault, clearDefault.
    apply networksOK_fmap; [intros n; repeat case_match; done..|].
    apply networksOK_fmap; [intros n; repeat case_match; done..|done].
Qed.

(** Whatever operations run, failing statements included, the table keeps one
    row per id and per name. *)
Lemma mutations_networksOK (ms : list nwMutation) (db : Db (list NetworkItem)) :
  networksOK (tables db) → networksOK (tables (foldl (λ d m, (runNwMutation m d).2) db ms)).
Proof. revert db. induction ms as [|m ms IH]; intros db Ht; simpl; [done|]. by apply IH, runNwMutation_OK. Qed.
End Mutations.

Module NetworksExamples.
Definition exNet (id name : string) (isDefault : bool) : NetworkItem :=
  NetworkItem_ id name "10.0.1.0/24" ("mvm-" ++ name) "10.0.1.1" true true isDefault true "t0" "t0" None (Some "eth0").
Definition exDb : Db (list NetworkItem) := Db_ [exNet "ida" "a" true; exNet "idb" "b" false] [] "t1".
Definition exError : error := Errorf "constraint" None.

Lemma exDb_OK : networksOK (tables exDb).
Proof. split; vm_compute; apply (bool_decide_unpack _); vm_compute; exact I. Qed.

Lemma SetDefault_unique_witness :
  nw_ID <$> defaults (tables (nwsqlite_SetDefault "idb" exDb).2) = ["idb"].
Proof.
  pose proof (SetDefault_unique "idb" exDb _ _ exDb_OK (surjective_pairing _)) as Ht.
  assert ((nwsqlite_SetDefault "idb" exDb).1 = Ok ()) as E by (vm_compute; reflexivity).
  rewrite E in Ht. rewrite Ht. vm_compute. reflexivity.
Defined.

Lemma mutations_networksOK_witness :
  let db' := foldl (λ d m, (runNwMutation id exError (λ _, false) m d).2) exDb
    [NMUpsert (exNet "idc" "a" false); NMSetDefault "idb"; NMSoftDelete "ida"] in
  ((λ n, (nw_ID n, nw_IsDefault n, nw_DeletedAt n)) <$> tables db') = [("ida", false, Some "t1"); ("idb", true, None)]
  ∧ networksOK (tables db').
Proof.
  cbv zeta. split; [vm_compute; reflexivity|].
  exact (mutations_networksOK id exError (λ _, false)
    [NMUpsert (exNet "idc" "a" false); NMSetDefault "idb"; NMSoftDelete "ida"] exDb exDb_OK).
Defined.
End NetworksExamples.
