(* ===== verification/VMRepo.v ===== *)
(** * VM records: [internal/core/vm/repository.go, sqlite.go]

    The data-access interface [Repository] of the VM domain and its SQLite
    implementation over the table [vm_instances], whose schema
    ([internal/lib/db/migrations/001_initial_schema.sql]) makes [id] the primary
    key and [name] unique.  The interface is a class; its laws say what a client
    may rely on, and the implementation is proved to satisfy them. *)

From stdpp Require Import gmap strings list sorting.
From S2P Require Import Prelude GoStrings Errs Model Sql.
#[local] Open Scope string_scope.

(** ** The interface *)
Class Repository (W : Type) := {
  Get : string → GoM W error (option VMItem);
  GetByName : string → GoM W error (option VMItem);
  NamesExist : list string → GoM W error (list string);
  FindByIP : string → GoM W error (option VMItem);
  FindByMAC : string → GoM W error (option VMItem);
  FindByPrefix : string → GoM W error (list VMItem);
  Count : GoM W error Z;
  CountByStatus : list string → GoM W error Z;
  FindByNetworkID : string → GoM W error (list VMItem);
  GetByNetworkIDs : list string → GoM W error (list VMItem);
  FindByKernelID : string → GoM W error (list VMItem);
  GetByKernelIDs : list string → GoM W error (list VMItem);
  FindByBinaryID : string → GoM W error (list VMItem);
  GetByBinaryIDs : list string → GoM W error (list VMItem);
  GetByImageIDs : list string → GoM W error (list VMItem);
  FindByVolumeID : string → GoM W error (list VMItem);
  FindByVolumeIDsBatch : list string → GoM W error (list VMItem);
  FindBySSHKeyID : string → GoM W error (list VMItem);
  ListAll : GoM W error (list VMItem);
  ListByStatus : list string → GoM W error (list VMItem);
  ListExcludingStatuses : list string → GoM W error (list VMItem);
  Upsert : VMItem → GoM W error unit;
  UpdateStatus : string → VMStatus → GoM W error unit;
  UpdatePID : string → option Z → GoM W error unit;
  UpdateProcessInfo : string → option Z → option Z → GoM W error unit;
  UpdateExitCode : string → Z → GoM W error unit;
  Delete : string → GoM W error unit;
  DeleteMany : list string → GoM W error Z;
}.

(** ** The SQLite implementation *)
Section Sqlite.

(** The SQL operator LIKE (pattern, text), the JSON encoding of a string list,
    and the CHECK and FOREIGN KEY constraints of a row. *)
Context (like : string → string → bool) (marshal : list string → string).
Context (rowOK : VMItem → bool) (constraintError : error).

Notation vmTable := (list VMItem).
Notation M := (GoM (Db vmTable) error).

Definition sqlSelect (P : VMItem → bool) : M (list VMItem) := query (filter P).

(** [sqlx.GetContext]: the first row; [sql.ErrNoRows] becomes nil. *)
Definition sqlGet (P : VMItem → bool) : M (option VMItem) := query (λ t, head (filter P t)).

Definition sqlite_Get (id : string) : M (option VMItem) :=
  sqlGet (λ vm, bool_decide (vm_ID vm = id)).

Definition sqlite_GetByName (name : string) : M (option VMItem) :=
  sqlGet (λ vm, bool_decide (vm_Name vm = name)).

Definition sqlite_FindByIP (ipv4 : string) : M (option VMItem) :=
  sqlGet (λ vm, bool_decide (vm_IPv4 vm = ipv4)).

Definition sqlite_FindByMAC (mac : string) : M (option VMItem) :=
  sqlGet (λ vm, bool_decide (vm_MAC vm = mac)).

Definition sqlite_NamesExist (names : list string) : M (list string) :=
  if decide (names = []) then mret []
  else wrapErr "names exist"
         (query (λ t, orderBy id (vm_Name <$> filter (λ vm, vm_Name vm ∈ names) t))).

Definition sqlite_FindByPrefix (prefix : string) : M (list VMItem) :=
  wrapErr "find vm by prefix" (sqlSelect (λ vm, like (prefix ++ "%") (vm_ID vm))).

Definition sqlite_Count : M Z := query (λ t, Z.of_nat (length t)).

Definition sqlite_CountByStatus (statuses : list string) : M Z :=
  if decide (statuses = []) then sqlite_Count
  else query (λ t, Z.of_nat (length (filter (λ vm, vm_Status vm ∈ statuses) t))).

Definition sqlite_FindByNetworkID (networkID : string) : M (list VMItem) :=
  wrapErr "find vms by network id" (sqlSelect (λ vm, bool_decide (vm_NetworkID vm = networkID))).

Definition sqlite_GetByNetworkIDs (networkIDs : list string) : M (list VMItem) :=
  if decide (networkIDs = []) then mret []
  else wrapErr "get vms by network ids"
         (sqlSelect (λ vm, bool_decide (vm_NetworkID vm ∈ networkIDs))).

Definition sqlite_FindByKernelID (kernelID : string) : M (list VMItem) :=
  wrapErr "find vms by kernel id" (sqlSelect (λ vm, bool_decide (vm_KernelID vm = kernelID))).

Definition sqlite_GetByKernelIDs (kernelIDs : list string) : M (list VMItem) :=
  if decide (kernelIDs = []) then mret []
  else wrapErr "get vms by kernel ids"
         (sqlSelect (λ vm, bool_decide (vm_KernelID vm ∈ kernelIDs))).

Definition sqlite_FindByBinaryID (binaryID : string) : M (list VMItem) :=
  wrapErr "find vms by binary id" (sqlSelect (λ vm, bool_decide (vm_BinaryID vm = binaryID))).

Definition sqlite_GetByBinaryIDs (binaryIDs : list string) : M (list VMItem) :=
  if decide (binaryIDs = []) then mret []
  else wrapErr "get vms by binary ids"
         (sqlSelect (λ vm, bool_decide (vm_BinaryID vm ∈ binaryIDs))).

Definition sqlite_GetByImageIDs (imageIDs : list string) : M (list VMItem) :=
  if decide (imageIDs = []) then mret []
  else wrapErr "get vms by image ids"
         (sqlSelect (λ vm, bool_decide (vm_ImageID vm ∈ imageIDs))).

(** The pattern [%"id"%] on a JSON column. *)
Definition quotedIn (id : string) (column : list string) : bool :=
  like ("%" ++ dquote ++ id ++ dquote ++ "%") (marshal column).

Definition sqlite_FindByVolumeID (volumeID : string) : M (list VMItem) :=
  wrapErr "find vms by volume id" (sqlSelect (λ vm, quotedIn volumeID (vm_VolumeIDs vm))).

Definition sqlite_FindByVolumeIDsBatch (volumeIDs : list string) : M (list VMItem) :=
  if decide (volumeIDs = []) then mret []
  else wrapErr "find vms by volume ids batch"
         (sqlSelect (λ vm, existsb (λ vid, quotedIn vid (vm_VolumeIDs vm)) volumeIDs)).

Definition sqlite_FindBySSHKeyID (keyID : string) : M (list VMItem) :=
  wrapErr "find vms by ssh key id" (sqlSelect (λ vm, quotedIn keyID (vm_SSHKeys vm))).

Definition sqlite_ListAll : M (list VMItem) :=
  wrapErr "list all vms" (query (orderBy vm_CreatedAt)).

Definition sqlite_ListByStatus (statuses : list string) : M (list VMItem) :=
  if decide (statuses = []) then sqlite_ListAll
  else wrapErr "list vms by status"
         (query (λ t, orderBy vm_CreatedAt (filter (λ vm, vm_Status vm ∈ statuses) t))).

Definition sqlite_ListExcludingStatuses (excluded : list string) : M (list VMItem) :=
  if decide (excluded = []) then sqlite_ListAll
  else wrapErr "list vms excluding statuses"
         (query (λ t, orderBy vm_CreatedAt (filter (λ vm, vm_Status vm ∉ excluded) t))).

(** [INSERT ... ON CONFLICT(id) DO UPDATE]: an existing row keeps its creation
    time, and its update time is now; the name must stay unique. *)
Definition upsertRow (now : string) (vm : VMItem) (t : vmTable) : result error (unit * vmTable) :=
  if decide (Exists (λ vm', vm_Name vm' = vm_Name vm ∧ vm_ID vm' ≠ vm_ID vm) t)
  then Err constraintError
  else if negb (rowOK vm) then Err constraintError
  else
    let row := vmStored vm in
    if decide (vm_ID vm ∈ vm_ID <$> t)
    then Ok ((), (λ old, if decide (vm_ID old = vm_ID vm)
                         then vmSetTimes (vm_CreatedAt old) now row else old) <$> t)
    else Ok ((), (t ++ [row])%list).

Definition sqlite_Upsert (vm : VMItem) : M unit :=
  statement (λ now t, upsertRow now vm t).

(** [UPDATE vm_instances SET ..., updated_at = CURRENT_TIMESTAMP WHERE id = ?]. *)
Definition updateWhere (id : string) (f : VMItem → VMItem) : M unit :=
  statement (λ now t, Ok ((), (λ vm, if decide (vm_ID vm = id)
                                    then vmSetTimes (vm_CreatedAt vm) now (f vm) else vm) <$> t)).

Definition sqlite_UpdateStatus (id : string) (status : VMStatus) : M unit :=
  updateWhere id (vmSetStatus status).

(** The column [pid] is NOT NULL: a nil [pid] violates the constraint when
    there is a row to update. *)
Definition sqlite_UpdatePID (id : string) (pid : option Z) : M unit :=
  match pid with
  | Some p => updateWhere id (vmSetPID p)
  | None => statement (λ _ t, if decide (id ∈ vm_ID <$> t) then Err constraintError else Ok ((), t))
  end.

Definition sqlite_UpdateProcessInfo (id : string) (pid processStartTime : option Z) : M unit :=
  match pid with
  | Some p => updateWhere id (λ vm, vmSetStartTime processStartTime (vmSetPID p vm))
  | None => statement (λ _ t, if decide (id ∈ vm_ID <$> t) then Err constraintError else Ok ((), t))
  end.

Definition sqlite_UpdateExitCode (id : string) (exitCode : Z) : M unit :=
  updateWhere id (vmSetExitCode (Some exitCode)).

Definition sqlite_Delete (id : string) : M unit :=
  statement (λ _ t, Ok ((), filter (λ vm, vm_ID vm ≠ id) t)).

(** The number of rows deleted. *)
Definition sqlite_DeleteMany (ids : list string) : M Z :=
  if decide (ids = []) then mret 0%Z
  else statement (λ _ t, Ok (Z.of_nat (length (filter (λ vm, vm_ID vm ∈ ids) t)),
                             filter (λ vm, vm_ID vm ∉ ids) t)).

Definition sqliteRepo : Repository (Db vmTable) := {|
  Get := sqlite_Get;
  GetByName := sqlite_GetByName;
  NamesExist := sqlite_NamesExist;
  FindByIP := sqlite_FindByIP;
  FindByMAC := sqlite_FindByMAC;
  FindByPrefix := sqlite_FindByPrefix;
  Count := sqlite_Count;
  CountByStatus := sqlite_CountByStatus;
  FindByNetworkID := sqlite_FindByNetworkID;
  GetByNetworkIDs := sqlite_GetByNetworkIDs;
  FindByKernelID := sqlite_FindByKernelID;
  GetByKernelIDs := sqlite_GetByKernelIDs;
  FindByBinaryID := sqlite_FindByBinaryID;
  GetByBinaryIDs := sqlite_GetByBinaryIDs;
  GetByImageIDs := sqlite_GetByImageIDs;
  FindByVolumeID := sqlite_FindByVolumeID;
  FindByVolumeIDsBatch := sqlite_FindByVolumeIDsBatch;
  FindBySSHKeyID := sqlite_FindBySSHKeyID;
  ListAll := sqlite_ListAll;
  ListByStatus := sqlite_ListByStatus;
  ListExcludingStatuses := sqlite_ListExcludingStatuses;
  Upsert := sqlite_Upsert;
  UpdateStatus := sqlite_UpdateStatus;
  UpdatePID := sqlite_UpdatePID;
  UpdateProcessInfo := sqlite_UpdateProcessInfo;
  UpdateExitCode := sqlite_UpdateExitCode;
  Delete := sqlite_Delete;
  DeleteMany := sqlite_DeleteMany;
|}.
End Sqlite.

(** ** What the interface promises

    Clients that only change statuses and exit codes rely on these laws: the
    rows of a world are those of [row], a successful update changes the one row
    it names and nothing else, and a failed one changes nothing. *)
Class RepositoryLaws (W : Type) `{Repository W} := {
  row : W → string → option VMItem;
  row_UpdateStatus id status w r w' :
    UpdateStatus id status w = (r, w') →
    ∀ id', vm_Status <$> row w' id' =
      match r with
      | Ok _ => if decide (id' = id) then (λ _, status) <$> row w id' else vm_Status <$> row w id'
      | Err _ => vm_Status <$> row w id'
      end;
  row_UpdateExitCode id code w r w' :
    UpdateExitCode id code w = (r, w') →
    ∀ id', vm_Status <$> row w' id' = vm_Status <$> row w id';
}.

(** The status a world records for a VM. *)
Definition statusOf {W} `{RepositoryLaws W} (w : W) (id : string) : option VMStatus :=
  vm_Status <$> row w id.

(** ** The rows of a table *)

Definition findRow (t : list VMItem) (id : string) : option VMItem :=
  head (filter (λ vm, vm_ID vm = id) t).

(** What the schema and the scanning of rows guarantee. *)
Record tableOK (t : list VMItem) : Prop := {
  t_ids : NoDup (vm_ID <$> t);
  t_names : NoDup (vm_Name <$> t);
  t_stored : ∀ vm, vm ∈ t → vmStored vm = vm;
}.

Lemma findRow_cons vm t id :
  findRow (vm :: t) id = if decide (vm_ID vm = id) then Some vm else findRow t id.
Proof. unfold findRow. rewrite filter_cons. by case_decide. Qed.

Lemma findRow_fmap f t id :
  (∀ vm, vm_ID (f vm) = vm_ID vm) → findRow (f <$> t) id = f <$> findRow t id.
Proof.
  intros Hf. induction t as [|vm t IH]; [done|].
  rewrite fmap_cons, !findRow_cons, Hf. by case_decide.
Qed.

Lemma findRow_Some t id vm : findRow t id = Some vm → vm ∈ t ∧ vm_ID vm = id.
Proof.
  unfold findRow. intros Hh. apply head_Some_elem_of in Hh.
  apply list_elem_of_filter in Hh. tauto.
Qed.

Lemma findRow_elem t vm : NoDup (vm_ID <$> t) → vm ∈ t → findRow t (vm_ID vm) = Some vm.
Proof.
  induction t as [|x t IH]; intros Hnd Hin; [by apply elem_of_nil in Hin|].
  rewrite fmap_cons in Hnd. apply NoDup_cons in Hnd as [Hx Hnd]. rewrite findRow_cons.
  apply elem_of_cons in Hin as [->|Hin]; [by rewrite decide_True|].
  rewrite decide_False; [auto|]. intros E. apply Hx. rewrite E. by apply list_elem_of_fmap_2.
Qed.

(** Updating rows in place keeps the table well formed. *)
Lemma tableOK_fmap f t :
  tableOK t → (∀ vm, vm_ID (f vm) = vm_ID vm) → (∀ vm, vm_Name (f vm) = vm_Name vm) →
  (∀ vm, vmStored vm = vm → vmStored (f vm) = f vm) → tableOK (f <$> t).
Proof.
  intros [Hi Hn Hs] Hfi Hfn Hfs. split.
  - rewrite <-list_fmap_compose. erewrite list_fmap_ext; [apply Hi|]. intros; simpl; auto.
  - rewrite <-list_fmap_compose. erewrite list_fmap_ext; [apply Hn|]. intros; simpl; auto.
  - intros vm (x & -> & Hx)%list_elem_of_fmap. auto.
Qed.

Lemma tableOK_filter (P : VMItem → Prop) `{∀ x, Decision (P x)} t :
  tableOK t → tableOK (filter P t).
Proof.
  intros [Hi Hn Hs]. split.
  - by apply NoDup_fmap_filter.
  - by apply NoDup_fmap_filter.
  - intros vm [_ Hin]%list_elem_of_filter. auto.
Qed.

Section Laws.
Context (like : string → string → bool) (marshal : list string → string).
Context (rowOK : VMItem → bool) (constraintError : error).

Lemma updateWhere_rows id f w r w' :
  (∀ vm, vm_ID (f vm) = vm_ID vm) →
  updateWhere id f w = (r, w') →
  match r with
  | Ok _ => ∀ id', findRow (tables w') id' =
      (λ vm, if decide (vm_ID vm = id) then vmSetTimes (vm_CreatedAt vm) (clock w) (f vm) else vm)
        <$> findRow (tables w) id'
  | Err _ => tables w' = tables w
  end.
Proof.
  intros Hf E. unfold updateWhere in E. destruct r as [[]|e].
  - apply statement_Ok in E as [[= <-] _]. intros id'. apply findRow_fmap.
    intros vm. case_decide; [by apply Hf|done].
  - by apply statement_Err in E as [-> _].
Qed.

Lemma sqlite_laws_status f status id w r w' :
  (∀ vm, vm_ID (f vm) = vm_ID vm) → (∀ vm, vm_Status (f vm) = status (vm_Status vm)) →
  updateWhere id f w = (r, w') →
  ∀ id', vm_Status <$> findRow (tables w') id' =
    match r with
    | Ok _ => if decide (id' = id) then status ∘ vm_Status <$> findRow (tables w) id'
              else vm_Status <$> findRow (tables w) id'
    | Err _ => vm_Status <$> findRow (tables w) id'
    end.
Proof.
  intros Hf Hs E id'. pose proof (updateWhere_rows _ _ _ _ _ Hf E) as Hr.
  destruct r; [|by rewrite Hr]. rewrite Hr, <-option_fmap_compose.
  destruct (findRow (tables w) id') as [vm|] eqn:Ef; [|by case_decide].
  apply findRow_Some in Ef as [_ <-]. simpl. case_decide; [|done]. simpl. by rewrite Hs.
Qed.

(** The SQLite repository keeps the interface's promises. *)
#[export] Instance sqliteRepo_laws :
  @RepositoryLaws (Db (list VMItem)) (sqliteRepo like marshal rowOK constraintError).
Proof.
  unshelve econstructor; [exact (λ w, findRow (tables w))|..].
  - intros id status w r w' E id'. cbv beta.
    by rewrite (sqlite_laws_status (vmSetStatus status) (λ _, status) id w r w').
  - intros id code w r w' E id'. cbv beta.
    rewrite (sqlite_laws_status (vmSetExitCode (Some code)) (λ s, s) id w r w') by done.
    destruct r; [|done]. by case_decide.
Defined.
End Laws.

(** ** The table stays well formed *)
Section Mutations.
Context (like : string → string → bool) (marshal : list string → string).
Context (rowOK : VMItem → bool) (constraintError : error).

(** The operations of the interface that change the table. *)
Inductive mutation :=
  | MUpsert (vm : VMItem)
  | MUpdateStatus (id : string) (status : VMStatus)
  | MUpdatePID (id : string) (pid : option Z)
  | MUpdateProcessInfo (id : string) (pid t : option Z)
  | MUpdateExitCode (id : string) (code : Z)
  | MDelete (id : string)
  | MDeleteMany (ids : list string).

Definition runMutation (m : mutation) (w : Db (list VMItem)) : Db (list VMItem) :=
  match m with
  | MUpsert vm => (sqlite_Upsert rowOK constraintError vm w).2
  | MUpdateStatus id status => (sqlite_UpdateStatus id status w).2
  | MUpdatePID id pid => (sqlite_UpdatePID constraintError id pid w).2
  | MUpdateProcessInfo id pid t => (sqlite_UpdateProcessInfo constraintError id pid t w).2
  | MUpdateExitCode id code => (sqlite_UpdateExitCode id code w).2
  | MDelete id => (sqlite_Delete id w).2
  | MDeleteMany ids => (sqlite_DeleteMany ids w).2
  end.

Lemma statement_tableOK {A} (f : string → list VMItem → result error (A * list VMItem)) w :
  tableOK (tables w) →
  (∀ a t', f (clock w) (tables w) = Ok (a, t') → tableOK t') →
  tableOK (tables (statement f w).2).
Proof.
  intros Ht Hf. destruct (statement f w) as [[a|e] w'] eqn:E.
  - apply statement_Ok in E as [E _]. eauto.
  - apply statement_Err in E as [E _]. simpl. by rewrite E.
Qed.

Lemma updateWhere_tableOK id f w :
  tableOK (tables w) → (∀ vm, vm_ID (f vm) = vm_ID vm) → (∀ vm, vm_Name (f vm) = vm_Name vm) →
  (∀ vm, vmStored vm = vm → vmStored (f vm) = f vm) →
  tableOK (tables (updateWhere id f w).2).
Proof.
  intros Ht Hi Hn Hs. apply statement_tableOK; [done|]. intros [] t' [= <-].
  apply tableOK_fmap; [done|..]; intros vm; case_decide; simpl; auto.
  intros Hvm. apply Hs in Hvm. rewrite <-Hvm at 2. done.
Qed.

Lemma nilPID_tableOK id w :
  tableOK (tables w) →
  tableOK (tables (statement (T := list VMItem) (λ _ t, if decide (id ∈ vm_ID <$> t)
    then Err constraintError else Ok ((), t)) w).2).
Proof.
  intros Ht. apply statement_tableOK; [done|]. intros a t'. case_decide; [done|].
  by intros [= _ <-].
Qed.

Lemma upsertRow_tableOK now vm t t' :
  tableOK t → upsertRow rowOK constraintError now vm t = Ok ((), t') → tableOK t'.
Proof.
  unfold upsertRow. intros [Hi Hn Hs]. case_decide as Hex; [done|].
  destruct (negb _); [done|].
  assert (∀ x, x ∈ t → vm_Name x = vm_Name vm → vm_ID x = vm_ID vm) as Huniq.
  { intros x Hx Ex. destruct (decide (vm_ID x = vm_ID vm)) as [|Hne]; [done|].
    exfalso. apply Hex, Exists_exists. eauto. }
  case_decide as Hin; intros [= <-].
  - assert (vm_ID <$> ((λ old, if decide (vm_ID old = vm_ID vm)
      then vmSetTimes (vm_CreatedAt old) now (vmStored vm) else old) <$> t) = vm_ID <$> t) as Hids.
    { rewrite <-list_fmap_compose. apply list_fmap_ext. intros _ x _. simpl. by case_decide. }
    split; [by rewrite Hids| |].
    + rewrite <-list_fmap_compose. revert Hi Hn Huniq. clear. induction t as [|x t IH]; [done|].
      rewrite !fmap_cons, !NoDup_cons. intros [Hxi Hi] [Hxn Hn] Huniq. split; [|set_solver].
      intros (y & E & Hy)%list_elem_of_fmap. simpl in E.
      assert (vm_ID x ≠ vm_ID y) by (intros Exy; apply Hxi; rewrite Exy; by apply list_elem_of_fmap_2).
      assert (vm_Name x ≠ vm_Name y) by (intros Exy; apply Hxn; rewrite Exy; by apply list_elem_of_fmap_2).
      pose proof (Huniq x ltac:(left)) as Hux. pose proof (Huniq y ltac:(by right)) as Huy.
      repeat case_decide; simpl in *; try congruence.
      * assert (vm_ID y = vm_ID vm) by (by apply Huy). congruence.
      * assert (vm_ID x = vm_ID vm) by (by apply Hux). congruence.
    + intros y (x & -> & Hx)%list_elem_of_fmap. case_decide; [done|auto].
  - split; rewrite ?fmap_app.
    + apply NoDup_app. split_and!; [done| |apply NoDup_singleton]. set_solver.
    + apply NoDup_app. split_and!; [done| |apply NoDup_singleton].
      intros n (x & -> & Hx)%list_elem_of_fmap Hn'. apply list_elem_of_singleton in Hn'.
      apply Hin. rewrite <-(Huniq x Hx Hn'). by apply list_elem_of_fmap_2.
    + intros x [Hx|Hx]%elem_of_app; [auto|]. by apply list_elem_of_singleton in Hx as ->.
Qed.

(** Setting a column does not add a field without one. *)
Ltac solve_stored :=
  let vm := fresh "vm" in let E := fresh "E" in
  intros vm E; rewrite <-E; destruct vm; reflexivity.

(** C35. Whatever sequence of mutations runs, failures of the database
    included, the VM table keeps one row per id and per name, and rows hold
    only what has a column. *)
Theorem mutations_tableOK (ms : list mutation) (w : Db (list VMItem)) :
  tableOK (tables w) → tableOK (tables (foldl (λ w m, runMutation m w) w ms)).
Proof.
  revert w. induction ms as [|m ms IH]; intros w Hw; [done|]. apply IH.
  destruct m as [vm|id st|id [pid|]|id [pid|] t|id code|id|ids]; simpl.
  2,3,5,7: apply updateWhere_tableOK; [done|done|done|solve_stored].
  2,3: by apply nilPID_tableOK.
  - apply statement_tableOK; [done|]. intros [] t'. by apply upsertRow_tableOK.
  - apply statement_tableOK; [done|]. intros [] t' [= <-]. by apply tableOK_filter.
  - unfold sqlite_DeleteMany. case_decide; [done|].
    apply statement_tableOK; [done|]. intros n t' [= _ <-]. by apply tableOK_filter.
Qed.

(** An [Upsert] that succeeds is read back: [Get] and [GetByName] then
    find the VM as stored, with its creation time kept when it was there
    before, and every other id still reads as it did. *)
Lemma Upsert_Get (vm : VMItem) (w w' : Db (list VMItem)) :
  tableOK (tables w) → sqlite_Upsert rowOK constraintError vm w = (Ok (), w') →
  let stored := match findRow (tables w) (vm_ID vm) with
                | Some old => vmSetTimes (vm_CreatedAt old) (clock w) (vmStored vm)
                | None => vmStored vm
                end in
  (∀ r w'', sqlite_Get (vm_ID vm) w' = (Ok r, w'') → r = Some stored) ∧
  (∀ r w'', sqlite_GetByName (vm_Name vm) w' = (Ok r, w'') → r = Some stored) ∧
  (∀ id, id ≠ vm_ID vm → findRow (tables w') id = findRow (tables w) id).
Proof.
  intros Hw E stored. pose proof E as E'. apply statement_Ok in E as [E _].
  pose proof (upsertRow_tableOK _ _ _ _ Hw E) as Hw'.
  assert (findRow (tables w') (vm_ID vm) = Some stored ∧
    ∀ id, id ≠ vm_ID vm → findRow (tables w') id = findRow (tables w) id) as [Hg Ho].
  { unfold upsertRow in E. case_decide; [done|]. destruct (negb _); [done|].
    subst stored. case_decide as Hin; injection E as <-.
    - split.
      + rewrite findRow_fmap by (intros; by case_decide).
        apply list_elem_of_fmap in Hin as (old & Eo & Hin).
        rewrite Eo, (findRow_elem _ old) by (done || apply Hw). simpl. by rewrite decide_True.
      + intros id Hid. rewrite findRow_fmap by (intros; by case_decide).
        destruct (findRow (tables w) id) as [x|] eqn:Ex; [|done].
        apply findRow_Some in Ex as [_ <-]. simpl. by rewrite decide_False.
    - assert (findRow (tables w) (vm_ID vm) = None) as ->.
      { destruct (findRow _ _) as [x|] eqn:Ex; [|done]. apply findRow_Some in Ex as [Hx Ex].
        exfalso. apply Hin. rewrite <-Ex. by apply list_elem_of_fmap_2. }
      assert (∀ t id, vm_ID vm ∉ vm_ID <$> t → findRow (t ++ [vmStored vm]) id =
        if decide (vm_ID vm = id) then Some (vmStored vm) else findRow t id) as Hsnoc.
      { clear. induction t as [|x t IH]; intros id Hn; simpl; [by rewrite findRow_cons|].
        rewrite !findRow_cons, IH by set_solver. repeat case_decide; set_solver. }
      split; [by rewrite Hsnoc, decide_True|]. intros id Hid. by rewrite Hsnoc, decide_False. }
  apply findRow_Some in Hg as [Hin Hid].
  assert (vm_Name stored = vm_Name vm) as Hname by (subst stored; by destruct (findRow _ _)).
  split_and!; [| |done]; intros r w'' [-> _]%query_Ok; apply head_filter_unique;
    rewrite ?bool_decide_spec; try done; intros y Hy; rewrite bool_decide_spec; intros Ey.
  - apply (elem_of_fmap_inj vm_ID (tables w')); [apply Hw'|done..|congruence].
  - apply (elem_of_fmap_inj vm_Name (tables w')); [apply Hw'|done..|congruence].
Qed.
End Mutations.

(** ** Instances *)

Module RepoExamples.
Definition fixedMarshal (l : list string) : string := "[]".
Definition noLike (p s : string) : bool := false.
Definition allRows (vm : VMItem) : bool := true.
Definition violated : error := Errorf "constraint failed" None.
Definition exVM (id name : string) : VMItem :=
  VMItem_ id name "" 0%Z "10.0.0.2" "52:54:00:00:00:01" "net1" ""
    "" "" "" "" "" "" 0%Z 0%Z 0%Z "" "" false false false false false false
    "t0" "t0" None None None None None None None None "" "" "" "" "" "" "" "" "" "" "" [] None [] None.
Definition emptyDb : Db (list VMItem) := Db_ [] [] "t1".

Lemma empty_tableOK : tableOK [].
Proof. split; [constructor|constructor|]. intros vm Hvm. by apply elem_of_nil in Hvm. Qed.

(** Two rows are written, renaming the second to the name of the first is
    refused, and the first is deleted. *)
Definition session : list mutation :=
  [MUpsert (exVM "id1" "web"); MUpsert (exVM "id2" "db"); MUpsert (exVM "id2" "web");
   MUpdateStatus "id2" VMStatusStopped; MUpdatePID "id2" None; MDelete "id1"].
Definition afterSession : Db (list VMItem) :=
  foldl (λ w m, runMutation allRows violated m w) emptyDb session.

Lemma mutations_tableOK_witness :
  ((λ vm, (vm_ID vm, vm_Name vm)) <$> tables afterSession) = [("id2", "db")] ∧ tableOK (tables afterSession).
Proof.
  split; [vm_compute; reflexivity|].
  exact (mutations_tableOK noLike allRows violated session emptyDb empty_tableOK).
Defined.

Lemma Upsert_Get_witness :
  ∃ w' r w'', sqlite_Upsert allRows violated (exVM "id1" "web") emptyDb = (Ok (), w') ∧
    sqlite_Get "id1" w' = (Ok r, w'') ∧ r = Some (vmStored (exVM "id1" "web")).
Proof.
  assert (sqlite_Upsert allRows violated (exVM "id1" "web") emptyDb =
    (Ok (), (sqlite_Upsert allRows violated (exVM "id1" "web") emptyDb).2)) as E by (vm_compute; reflexivity).
  eexists. eexists. eexists. split; [exact E|].
  assert (∀ P Q : Prop, P → (P → Q) → P ∧ Q) as Hand by (intros P Q HP HQ; split; auto).
  apply Hand; [vm_compute; reflexivity|].
  exact (proj1 (Upsert_Get noLike allRows violated (exVM "id1" "web") emptyDb _ empty_tableOK E) _ _).
Defined.
End RepoExamples.
