(* ===== verification/VMResolver.v ===== *)
(** * Resolving VM identifiers: [internal/core/vm/resolver.go]

    A user names a VM by its name, IP address, MAC address or an id prefix; the
    resolver turns the identifier into a VM, or says why it cannot.  Everything
    is stated against the class [Repository]. *)

From stdpp Require Import gmap strings list.
From S2P Require Import Prelude GoStrings Errs Model Infra Sql VMRepo.
#[local] Open Scope string_scope.

Section Resolver.
Context {W : Type} `{Repository W}.
Notation M := (GoM W error).

Definition vmNotFound (msg : string) : error := EDomain (NotFound CodeVMNotFound msg []).

Definition ByID (vmID : string) : M VMItem :=
  matches ← FindByPrefix vmID;
  match matches with
  | [] => throw (vmNotFound ("VM not found: " ++ vmID))
  | [m] => mret m
  | _ =>
      let names := vm_Name <$> matches in
      throw (vmNotFound ("ID " ++ vmID ++ " matches multiple VMs: " ++ Join names ", "))
  end.

Definition ByName (name : string) : M VMItem :=
  vm ← GetByName name;
  match vm with
  | None => throw (vmNotFound ("VM not found: " ++ name))
  | Some vm => mret vm
  end.

Definition ByIP (ip : string) : M VMItem :=
  vm ← FindByIP ip;
  match vm with
  | None => throw (vmNotFound ("No VM found with IP: " ++ ip))
  | Some vm => mret vm
  end.

Definition ByMAC (mac : string) : M VMItem :=
  vm ← FindByMAC mac;
  match vm with
  | None => throw (vmNotFound ("No VM found with MAC: " ++ mac))
  | Some vm => mret vm
  end.

Definition ByImageID (imageID : string) : M (list VMItem) := GetByImageIDs [imageID].

(** [for _, id := range ids { results[id] = nil }]. *)
Definition emptyGroups (ids : list string) : gmap string (list VMItem) :=
  foldl (λ m k, <[k := []]> m) ∅ ids.

(** [if _, ok := results[k]; ok { results[k] = append(results[k], vm) }]. *)
Definition appendTo (k : string) (vm : VMItem) (m : gmap string (list VMItem))
    : gmap string (list VMItem) :=
  match m !! k with
  | Some l => <[k := (l ++ [vm])%list]> m
  | None => m
  end.

Definition groupBy (key : VMItem → string) (ids : list string) (vms : list VMItem)
    : gmap string (list VMItem) :=
  foldl (λ m vm, appendTo (key vm) vm m) (emptyGroups ids) vms.

Definition ByImageIDBatch (imageIDs : list string) : M (gmap string (list VMItem)) :=
  vms ← GetByImageIDs imageIDs; mret (groupBy vm_ImageID imageIDs vms).

Definition ByNetworkIDBatch (networkIDs : list string) : M (gmap string (list VMItem)) :=
  vms ← GetByNetworkIDs networkIDs; mret (groupBy vm_NetworkID networkIDs vms).

Definition ByKernelIDBatch (kernelIDs : list string) : M (gmap string (list VMItem)) :=
  vms ← GetByKernelIDs kernelIDs; mret (groupBy vm_KernelID kernelIDs vms).

Definition ByBinaryIDBatch (binaryIDs : list string) : M (gmap string (list VMItem)) :=
  vms ← GetByBinaryIDs binaryIDs; mret (groupBy vm_BinaryID binaryIDs vms).

(** A VM goes to each requested volume it lists, once per mention. *)
Definition ByVolumeIDBatch (volumeIDs : list string) : M (gmap string (list VMItem)) :=
  vms ← FindByVolumeIDsBatch volumeIDs;
  mret (foldl (λ m vm, foldl (λ m vid, appendTo vid vm m) m (vm_VolumeIDs vm))
              (emptyGroups volumeIDs) vms).

Definition Resolve (identifier : string) : M VMItem :=
  r ← try (ByName identifier);
  match r with
  | Ok vm => mret vm
  | Err err =>
      if decide (IsNotFound err ≠ Some true) then throw err
      else if Contains identifier "." then ByIP identifier
      else if Contains identifier ":" then ByMAC identifier
      else ByID identifier
  end.

Record ResolveResult := ResolveResult_ {
  VMs : list VMItem;
  ResolveErrors : list string;
  ExitCode : Z;
}.

Fixpoint resolveLoop (idents : list string) (vms : list VMItem) (errsList : list string)
    (resolvedVMIDs : gset string) : M (list VMItem * list string) :=
  match idents with
  | [] => mret (vms, errsList)
  | ident :: rest =>
      r ← try (Resolve ident);
      match r with
      | Err err => resolveLoop rest vms (errsList ++ [Error err])%list resolvedVMIDs
      | Ok vm =>
          if decide (vm_ID vm ∈ resolvedVMIDs)
          then resolveLoop rest vms errsList resolvedVMIDs
          else resolveLoop rest (vms ++ [vm])%list errsList ({[vm_ID vm]} ∪ resolvedVMIDs)
      end
  end.

Definition ResolveMany (identifiers : list string) : M ResolveResult :=
  let uniqueIDs := Dedup identifiers in
  r ← resolveLoop uniqueIDs [] [] ∅;
  let '(vms, errsList) := r in
  let exitCode := if decide (0 < length errsList ∧ length vms = 0) then 1%Z else 0%Z in
  mret (ResolveResult_ vms errsList exitCode).
End Resolver.

(** ** Grouping *)

Lemma lookup_emptyGroups ids k :
  emptyGroups ids !! k = if decide (k ∈ ids) then Some [] else None.
Proof.
  unfold emptyGroups.
  assert (∀ m : gmap string (list VMItem), foldl (λ m k, <[k := []]> m) m ids !! k =
    if decide (k ∈ ids) then Some [] else m !! k) as Hf; [|by rewrite Hf].
  induction ids as [|i ids IH]; intros m; simpl; [done|].
  rewrite IH, lookup_insert. repeat case_decide; set_solver.
Qed.

Lemma lookup_groupBy key ids vms k :
  groupBy key ids vms !! k =
    if decide (k ∈ ids) then Some (filter (λ vm, key vm = k) vms) else None.
Proof.
  unfold groupBy. induction vms as [|vm l IH] using rev_ind; [apply lookup_emptyGroups|].
  rewrite foldl_snoc, filter_app. unfold appendTo at 1.
  set (m := foldl _ _ _) in *. destruct (m !! key vm) as [g|] eqn:Eg.
  - rewrite lookup_insert, filter_cons. destruct (decide (key vm = k)) as [Hk|Hk].
    + rewrite Hk, IH in Eg. by case_decide; simplify_eq.
    + rewrite IH. by rewrite app_nil_r.
  - rewrite IH. destruct (decide (k ∈ ids)) as [Hin|]; [|done].
    rewrite filter_cons, decide_False, app_nil_r; [done|].
    intros <-. by rewrite Eg in IH.
Qed.

(** ** Properties *)
Section Properties.
Context {W : Type} `{Repository W}.

Lemma ByName_Ok name w vm w' :
  ByName name w = (Ok vm, w') ↔ GetByName name w = (Ok (Some vm), w').
Proof. unfold ByName. rewrite bind_unfold. destruct (GetByName name w) as [[[]|] ?]; run; naive_solver. Qed.

Lemma ByIP_Ok ip w vm w' : ByIP ip w = (Ok vm, w') ↔ FindByIP ip w = (Ok (Some vm), w').
Proof. unfold ByIP. rewrite bind_unfold. destruct (FindByIP ip w) as [[[]|] ?]; run; naive_solver. Qed.

Lemma ByMAC_Ok mac w vm w' : ByMAC mac w = (Ok vm, w') ↔ FindByMAC mac w = (Ok (Some vm), w').
Proof. unfold ByMAC. rewrite bind_unfold. destruct (FindByMAC mac w) as [[[]|] ?]; run; naive_solver. Qed.

Lemma ByID_Ok p w vm w' : ByID p w = (Ok vm, w') ↔ FindByPrefix p w = (Ok [vm], w').
Proof.
  unfold ByID. rewrite bind_unfold.
  destruct (FindByPrefix p w) as [[[|x [|y l]]|] ?]; run; naive_solver.
Qed.

(** A batch lookup answers exactly the ids asked for, each with the VMs of
    the repository's answer that have it, in that order: nothing is lost,
    misfiled or duplicated, and ids without VMs read as empty. *)
Lemma ByNetworkIDBatch_groups ids w m w' :
  ByNetworkIDBatch ids w = (Ok m, w') →
  ∃ vms, GetByNetworkIDs ids w = (Ok vms, w') ∧
    dom m = list_to_set ids ∧
    ∀ k, k ∈ ids → m !! k = Some (filter (λ vm, vm_NetworkID vm = k) vms).
Proof.
  unfold ByNetworkIDBatch, mbind, GoM_bind.
  destruct (GetByNetworkIDs ids w) as [[vms|e] w1]; [|done]. intros [= <- <-].
  exists vms. split_and!; [done| |].
  - apply set_eq. intros k. rewrite elem_of_dom, lookup_groupBy, elem_of_list_to_set.
    case_decide; split; try done; by eexists.
  - intros k Hk. by rewrite lookup_groupBy, decide_True.
Qed.

(** What an identifier may mean to [Resolve]: an exact name; otherwise an
    address if it has a dot, a MAC if it has a colon, else the prefix of
    exactly one id. *)
Definition denotes (identifier : string) (w : W) (vm : VMItem) (w' : W) : Prop :=
  GetByName identifier w = (Ok (Some vm), w') ∨
  ∃ w1, GetByName identifier w = (Ok None, w1) ∧
    (if Contains identifier "." then FindByIP identifier w1 = (Ok (Some vm), w')
     else if Contains identifier ":" then FindByMAC identifier w1 = (Ok (Some vm), w')
     else FindByPrefix identifier w1 = (Ok [vm], w')).

Lemma NotFound_IsNotFound msg : IsNotFound (vmNotFound msg) = Some true.
Proof. done. Qed.

(** [Resolve] answers with [vm] exactly when the identifier denotes it,
    provided the repository's own failures are not dressed as not-found
    errors: the name wins, an identifier with a dot or colon is only ever an
    address, and an ambiguous prefix is refused. *)
Lemma Resolve_iff identifier w vm w' :
  (∀ e w1, GetByName identifier w = (Err e, w1) → IsNotFound e ≠ Some true) →
  Resolve identifier w = (Ok vm, w') ↔ denotes identifier w vm w'.
Proof.
  intros Hdb. unfold Resolve, denotes. rewrite bind_try.
  destruct (ByName identifier w) as [[vm0|e] w1] eqn:En; cbn -[IsNotFound].
  { rewrite ByName_Ok in En. rewrite En. split; [by intros [= -> ->]; left|].
    by intros [[= -> ->]|(w2 & [=] & _)]. }
  unfold ByName in En. rewrite bind_unfold in En.
  destruct (GetByName identifier w) as [[[vm0|]|e'] w2]; [done|..]; injection En as <- ->.
  - rewrite decide_False by (intros Hn; by apply Hn).
    assert (∀ P, P ↔ (Ok None, w1) = (Ok (Some vm) : result error _, w') ∨
      ∃ w0, (Ok None : result error (option VMItem), w1) = (Ok None, w0) ∧
        (w1 = w0 → P)) as Hw by naive_solver.
    repeat case_match; rewrite ?ByIP_Ok, ?ByMAC_Ok, ?ByID_Ok; naive_solver.
  - rewrite decide_True by by eapply Hdb. naive_solver.
Qed.

(** What the loop adds to the VMs and errors it starts from. *)
Lemma resolveLoop_spec idents vms errsList seen w :
  (∀ id, id ∈ seen ↔ id ∈ vm_ID <$> vms) → NoDup (vm_ID <$> vms) →
  ∃ vms' errs' w', resolveLoop idents vms errsList seen w = (Ok (vms', errs'), w') ∧
    NoDup (vm_ID <$> vms') ∧
    (length vms' + length errs' ≤ length vms + length errsList + length idents)%nat ∧
    (∀ id, id ∈ vm_ID <$> vms → id ∈ vm_ID <$> vms') ∧
    (∀ e, e ∈ errsList → e ∈ errs') ∧
    (∀ vm, vm ∈ vms' → vm ∈ vms ∨ ∃ i w1 w2, i ∈ idents ∧ Resolve i w1 = (Ok vm, w2)) ∧
    (∀ i, i ∈ idents → ∃ w1 r w2, Resolve i w1 = (r, w2) ∧
      match r with
      | Ok vm => vm_ID vm ∈ vm_ID <$> vms'
      | Err e => Error e ∈ errs'
      end).
Proof.
  revert vms errsList seen w. induction idents as [|i idents IH]; intros vms el seen w Hs Hnd.
  { exists vms, el, w. split_and!; [done|done|simpl; lia|done|done|auto|set_solver]. }
  cbn [resolveLoop]. rewrite bind_try.
  destruct (Resolve i w) as [r w1] eqn:Er. simpl.
  assert (∀ vms' errs' : list _, match r with Ok vm => vm_ID vm ∈ vm_ID <$> vms' | Err e => Error e ∈ errs' end →
    ∃ w1 r w2, Resolve i w1 = (r, w2) ∧
      match r with Ok vm => vm_ID vm ∈ vm_ID <$> vms' | Err e => Error e ∈ errs' end) as Hi by eauto.
  destruct r as [vm|e].
  - case_decide as Hin.
    + destruct (IH vms el seen w1 Hs Hnd) as (vms' & errs' & w' & E & H1 & H2 & H3 & H4 & H5 & H6).
      exists vms', errs', w'. split_and!; [done|done|lia|done|done| |].
      * intros x Hx. destruct (H5 x Hx) as [|(j & ? & ? & ? & ?)]; [by left|right].
        exists j. eexists _, _. split; [by right|done].
      * intros j [->|Hj]%elem_of_cons; [apply Hi, H3, Hs, Hin|auto].
    + destruct (IH (vms ++ [vm])%list el ({[vm_ID vm]} ∪ seen) w1)
        as (vms' & errs' & w' & E & H1 & H2 & H3 & H4 & H5 & H6).
      { intros id. rewrite elem_of_union, elem_of_singleton, fmap_app, elem_of_app, Hs.
        simpl. rewrite list_elem_of_singleton. tauto. }
      { rewrite fmap_app. apply NoDup_app. split_and!; [done| |apply NoDup_singleton].
        intros id Hid. simpl. rewrite list_elem_of_singleton. intros ->. by apply Hin, Hs. }
      rewrite length_app in H2. simpl in H2.
      exists vms', errs', w'. split_and!; [done|done|lia| |done| |].
      * intros id Hid. apply H3. rewrite fmap_app. set_solver.
      * intros x Hx. destruct (H5 x Hx) as [Hx'|(j & ? & ? & ? & ?)].
        { apply elem_of_app in Hx' as [|Hx']; [by left|]. apply list_elem_of_singleton in Hx' as ->.
          right. exists i. eexists _, _. split; [left|done]. }
        right. exists j. eexists _, _. split; [by right|done].
      * intros j [->|Hj]%elem_of_cons; [|auto]. apply Hi, H3. rewrite fmap_app. set_solver.
  - destruct (IH vms (el ++ [Error e])%list seen w1 Hs Hnd)
      as (vms' & errs' & w' & E & H1 & H2 & H3 & H4 & H5 & H6).
    rewrite length_app in H2. simpl in H2.
    exists vms', errs', w'. split_and!; [done|done|lia|done|set_solver| |].
    * intros x Hx. destruct (H5 x Hx) as [|(j & ? & ? & ? & ?)]; [by left|right].
      exists j. eexists _, _. split; [by right|done].
    * intros j [->|Hj]%elem_of_cons; [|auto]. apply Hi, H4. set_solver.
Qed.

(** [ResolveMany] never fails itself and accounts for every identifier: its
    VMs have distinct ids, each identifier either resolved to one of them or
    has its error in the list, every VM listed was resolved from one of the
    identifiers, and the exit code is 1 exactly when there are errors and no
    VM. *)
Lemma ResolveMany_spec identifiers w :
  ∃ r w', ResolveMany identifiers w = (Ok r, w') ∧
    NoDup (vm_ID <$> VMs r) ∧
    (length (VMs r) + length (ResolveErrors r) ≤ length (Dedup identifiers))%nat ∧
    (∀ vm, vm ∈ VMs r → ∃ i w1 w2, i ∈ identifiers ∧ Resolve i w1 = (Ok vm, w2)) ∧
    (∀ i, i ∈ identifiers → ∃ w1 a w2, Resolve i w1 = (a, w2) ∧
      match a with
      | Ok vm => vm_ID vm ∈ vm_ID <$> VMs r
      | Err e => Error e ∈ ResolveErrors r
      end) ∧
    (ExitCode r = 1%Z ↔ ResolveErrors r ≠ [] ∧ VMs r = []).
Proof.
  unfold ResolveMany. rewrite bind_unfold.
  destruct (dedupLoop_spec identifiers ∅ []) as (_ & Hd & _); [set_solver|constructor|].
  destruct (resolveLoop_spec (Dedup identifiers) [] [] ∅ w)
    as (vms' & errs' & w' & -> & H1 & H2 & _ & _ & H5 & H6); [set_solver|constructor|].
  eexists _, w'. split; [reflexivity|]. simpl. split_and!; [done|done| | |].
  - intros vm [Hvm|(i & w1 & w2 & Hi & E)]%H5; [by apply elem_of_nil in Hvm|].
    exists i, w1, w2. split; [|done]. apply Hd in Hi as [Hi|]; [by apply elem_of_nil in Hi|done].
  - intros i Hi. apply H6, Hd. by right.
  - destruct errs', vms'; simpl; split; intros; naive_solver.
Qed.
End Properties.

(** ** Instances *)

Module ResolverExamples.
Import RepoExamples.

Definition twoVMs : Db (list VMItem) := Db_ [exVM "id1" "web"; exVM "id2" "10.0.0.9"] [] "t1".
Notation repo := (sqliteRepo noLike fixedMarshal allRows violated).

(** A VM named like an address is found by its name. *)
Lemma Resolve_iff_witness :
  @Resolve _ repo "10.0.0.9" twoVMs = (Ok (exVM "id2" "10.0.0.9"), twoVMs) ∧
  @denotes _ repo "10.0.0.9" twoVMs (exVM "id2" "10.0.0.9") twoVMs.
Proof.
  assert (@Resolve _ repo "10.0.0.9" twoVMs = (Ok (exVM "id2" "10.0.0.9"), twoVMs)) as E
    by (vm_compute; reflexivity).
  split; [exact E|].
  apply (@Resolve_iff _ repo "10.0.0.9" twoVMs (exVM "id2" "10.0.0.9") twoVMs); [|exact E].
  intros e w1 He. vm_compute in He. discriminate.
Defined.
End ResolverExamples.
