(* ===== verification/FcConfig.v ===== *)
(** * The Firecracker configuration: [internal/core/vm/firecracker.go]

    What [FirecrackerSpawner] writes for Firecracker to boot from (the kernel
    command line, the drives, the other sections), and
    [FirecrackerConfigManager], which edits the drives of a written file.
    [Spawn], which starts the process, is not modelled. *)

From Stdlib Require Import Ascii.
From stdpp Require Import gmap strings list.
From S2P Require Import Prelude GoStrings Errs Model.
#[local] Open Scope string_scope.

(** ** The boot argument builder *)

Record bootArgEntry := BootArgEntry { key : string; values : list string }.

Notation bootArgsBuilder := (list bootArgEntry).

Definition newBootArgsBuilder : bootArgsBuilder := [].

(** [entryIndex]; [None] is the -1 of the source. *)
Definition entryIndex (b : bootArgsBuilder) (k : string) : option nat :=
  fst <$> list_find (λ e, key e = k) b.

Definition bset (b : bootArgsBuilder) (k : string) (vs : list string) : bootArgsBuilder :=
  match entryIndex b k with
  | Some i => alter (λ e, BootArgEntry (key e) vs) i b
  | None => (b ++ [BootArgEntry k vs])%list
  end.

(** One word of the string. *)
Definition parseArg (b : bootArgsBuilder) (arg : string) : bootArgsBuilder :=
  match Cut arg "=" with
  | Some (k, value) =>
      match entryIndex b k with
      | Some i => alter (λ e, BootArgEntry (key e) (values e ++ [value])%list) i b
      | None => (b ++ [BootArgEntry k [value]])%list
      end
  | None =>
      match entryIndex b arg with
      | Some _ => b
      | None => (b ++ [BootArgEntry arg []])%list
      end
  end.

Definition parseFromString (b : bootArgsBuilder) (s : string) : bootArgsBuilder :=
  if decide (s = "" ∨ TrimSpace s = "") then b else foldl parseArg b (Fields s).

Definition entryParts (e : bootArgEntry) : list string :=
  match values e with
  | [] => [key e]
  | vs => (λ v, key e ++ "=" ++ v) <$> vs
  end.

Definition join (b : bootArgsBuilder) : string := Join (mjoin (entryParts <$> b)) " ".

(** ** The spawner's configuration *)

Definition defaultLibguestfsSeedDir : string := "/var/lib/cloud/seed/nocloud".

(** The fields of [FirecrackerSpawner] that [Generate] reads. *)
Record FirecrackerSpawner := FirecrackerSpawner_ {
  config : FirecrackerConfig;
  logPath : string;
  metricsPath : string;
}.

Definition NewFirecrackerSpawner (c : FirecrackerConfig) : FirecrackerSpawner :=
  FirecrackerSpawner_ c (fc_LogPath c) (fc_MetricsPath c).

Definition configError (msg : string) : error := EDomain (New CodeFirecrackerConfigError msg []).

(** [s != nil && *s != ""]. *)
Definition nonEmpty (s : option string) : bool :=
  match s with Some v => negb (bool_decide (v = "")) | None => false end.

(** The parameter that turns on nested virtualization, by CPU vendor; none on ARM. *)
Definition nestedVirtArgs (c : FirecrackerConfig) (b : bootArgsBuilder) : bootArgsBuilder :=
  if fc_NestedVirt c && nonEmpty (fc_CPUVendor c) then
    let cpuVendorLower := ToLower (default "" (fc_CPUVendor c)) in
    let cpuArchLower := ToLower (default "" (fc_CPUArchitecture c)) in
    if Contains cpuArchLower "arm" || Contains cpuArchLower "aarch64" then b
    else if Contains cpuVendorLower "amd" || Contains cpuVendorLower "hygon"
    then bset b "kvm-amd.nested" ["1"]
    else bset b "kvm-intel.nested" ["1"]
  else b.

(** The cloud-init datasource; OFF and unset modes add nothing. *)
Definition datasourceArgs (c : FirecrackerConfig) (b : bootArgsBuilder)
    : result error bootArgsBuilder :=
  match fc_CloudInitMode c with
  | None => Ok b
  | Some mode =>
      if decide (mode = "" ∨ mode = CloudInitModeOFF) then Ok b
      else if decide (mode = CloudInitModeNET) then
        if nonEmpty (fc_CloudInitNoCloudURL c)
        then Ok (bset b "ds" ["nocloud;seedfrom=" ++ default "" (fc_CloudInitNoCloudURL c)])
        else Err (configError "NoCloud URL must be set when using NET mode")
      else if decide (mode = CloudInitModeINJECT)
      then Ok (bset b "ds" ["ds=nocloud;s=file://" ++ defaultLibguestfsSeedDir ++ "/"])
      else if decide (mode = CloudInitModeISO) then Ok (bset b "ds" ["nocloud"])
      else Ok b
  end.

(** The stages of [buildBootArgs], in the order of the source: the user's
    arguments, *)
Definition userArgs (c : FirecrackerConfig) : bootArgsBuilder :=
  if decide (fc_BootArgs c = "") then newBootArgsBuilder
  else parseFromString newBootArgsBuilder (fc_BootArgs c).

(** a console when enabled and not set by the user, *)
Definition consoleArgs (c : FirecrackerConfig) (b : bootArgsBuilder) : bootArgsBuilder :=
  if fc_EnableConsole c && bool_decide (entryIndex b "console" = None)
  then bset b "console" ["ttyS0"] else b.

Definition pciArgs (c : FirecrackerConfig) (b : bootArgsBuilder) : bootArgsBuilder :=
  if fc_PCIEnabled c then b else bset b "pci" ["off"].

(** the static network configuration, *)
Definition ipParam (c : FirecrackerConfig) : string :=
  fc_GuestIP c ++ "::" ++ fc_NetworkGateway c ++ ":" ++ fc_NetworkNetmask c ++ "::eth0:off".

Definition ipArgs (c : FirecrackerConfig) (b : bootArgsBuilder) : bootArgsBuilder :=
  bset b "ip" [ipParam c].

Definition lsmArgs (c : FirecrackerConfig) (b : bootArgsBuilder) : bootArgsBuilder :=
  if decide (fc_LSMFlags c = "") then b else bset b "lsm" [fc_LSMFlags c].

(** then [nestedVirtArgs], the root device, and the masked service. *)
Definition rootParam (c : FirecrackerConfig) : string :=
  if decide (fc_ImageFSUUID c = "") then "/dev/vda" else "UUID=" ++ fc_ImageFSUUID c.

Definition rootArgs (c : FirecrackerConfig) (b : bootArgsBuilder) : result error bootArgsBuilder :=
  if fc_PCIEnabled c && bool_decide (fc_ImageFSUUID c = "") then
    Err (configError ("PCI transport enabled but no filesystem UUID available for " ++
                      "root device identification. Use an image with a known " ++
                      "filesystem UUID, or pass --no-pci to disable PCI transport."))
  else
    let b := bset b "root" [rootParam c] in
    Ok (if decide (fc_ImageFSUUID c = "") then b else bset b "rootfstype" [fc_ImageFSType c]).

Definition maskArgs (b : bootArgsBuilder) : bootArgsBuilder :=
  bset b "systemd.mask" ["systemd-networkd-wait-online.service"].

Definition baseBootArgs (c : FirecrackerConfig) : result error bootArgsBuilder :=
  b ← rootArgs c (nestedVirtArgs c (lsmArgs c (ipArgs c (pciArgs c (consoleArgs c (userArgs c))))));
  mret (maskArgs b).

Definition buildBootArgs (s : FirecrackerSpawner) : result error string :=
  b ← baseBootArgs (config s);
  b ← datasourceArgs (config s) b;
  mret (join b).

(** [filepath.Abs]; [None] when it fails. *)
Section Generate.
Context (Abs : string → option string).

Definition absOr (p : string) : string := default p (Abs p).

Definition buildDrivesConfig (s : FirecrackerSpawner) : list DriveConfig :=
  let c := config s in
  let rootfsAbs := absOr (fc_RootfsPath c) in
  let cacheType := if fc_Writeback c then CacheTypeWriteback else CacheTypeUnsafe in
  let drives := [DriveConfig_ "rootfs" rootfsAbs true false None cacheType "Sync" AnyNil None] in
  let cloudInitMode := default "" (fc_CloudInitMode c) in
  let drives :=
    if nonEmpty (fc_CloudInitMode c) && negb (bool_decide (cloudInitMode = CloudInitModeOFF))
       && nonEmpty (fc_CloudInitISOPath c)
    then (drives ++ [DriveConfig_ "cloud-init" (absOr (default "" (fc_CloudInitISOPath c)))
                       false true None "Unsafe" "Sync" AnyNil None])%list
    else drives in
  (drives ++ fc_ExtraDrives c)%list.

Definition buildLoggerConfig (s : FirecrackerSpawner) : LoggerConfig :=
  LoggerConfig_ (logPath s) (fc_LogLevel (config s)) true true.

Definition buildMetricsConfig (s : FirecrackerSpawner) : MetricsConfig :=
  MetricsConfig_ (metricsPath s).

Definition buildCPUConfig (s : FirecrackerSpawner) : option CpuConfig :=
  match fc_CPUConfig (config s) with
  | Some c => Some c
  | None => if fc_NestedVirt (config s) then Some (CpuConfig_ [] [] [] [] []) else None
  end.

Definition buildNetworkConfig (s : FirecrackerSpawner) : list NetworkInterfaceConfig :=
  [NetworkInterfaceConfig_ "eth0" (fc_GuestMAC (config s)) (fc_TapName (config s))].

(** [Generate] first forces PCI on for nested virtualization, in the spawner's
    own configuration: the new spawner is returned with the result. *)
Definition forcePCI (s : FirecrackerSpawner) : FirecrackerSpawner :=
  if fc_NestedVirt (config s)
  then FirecrackerSpawner_ (fcSetPCIEnabled true (config s)) (logPath s) (metricsPath s)
  else s.

Definition Generate (s : FirecrackerSpawner) : result error FirecrackerVMConfig * FirecrackerSpawner :=
  let s := forcePCI s in
  let c := config s in
  (bootArgs ← buildBootArgs s;
   mret (FirecrackerVMConfig_
     (BootSourceConfig_ bootArgs (fc_KernelPath c) None)
     (buildDrivesConfig s) (buildNetworkConfig s)
     (MachineConfig_ (fc_VCPUCount c) (fc_MemSizeMiB c) false false None)
     (if fc_EnableLogging c then Some (buildLoggerConfig s) else None)
     (if fc_EnableMetrics c then Some (buildMetricsConfig s) else None)
     (buildCPUConfig s) (fc_Vsock c)), s).
End Generate.

(** ** The configuration manager *)

(** The file system as the manager uses it; [ReadFile] answers [None] when the
    file does not exist. *)
Class FileSystem (W Data : Type) := {
  ReadFile : string → GoM W error (option Data);
  MkdirAll : string → GoM W error unit;
  WriteFile : string → Data → GoM W error unit;
}.

Section Manager.
Context {W Data : Type} `{FileSystem W Data}.

(** [encoding/json] and [filepath.Dir]. *)
Context (unmarshal : Data → result error (gmap string any)) (marshal : gmap string any → Data).
Context (Dir : string → string).

(** [load], for a manager that has not loaded yet (each call makes a new one). *)
Definition load (configPath : string) : GoM W error (gmap string any) :=
  data ← ReadFile configPath;
  match data with
  | None => mret {[ "drives" := AnyList [] ]}
  | Some d => match unmarshal d with Ok cfg => mret cfg | Err e => throw e end
  end.

Definition save (configPath : string) (cfg : gmap string any) : GoM W error unit :=
  MkdirAll (Dir configPath) ≫= λ _, WriteFile configPath (marshal cfg).

(** [drives, _ := cfg["drives"].([]any)]. *)
Definition drivesOf (cfg : gmap string any) : list any :=
  match cfg !! "drives" with Some (AnyList l) => l | _ => [] end.

Definition anyKey (m : list (string * any)) (k : string) : option any :=
  snd <$> head (filter (λ p, p.1 = k) m).

(** [dm, ok := d.(map[string]any); ok && dm["drive_id"] == driveID]. *)
Definition isDrive (driveID : string) (d : any) : bool :=
  match d with
  | AnyMap dm => match anyKey dm "drive_id" with
                 | Some (AnyString s) => bool_decide (s = driveID)
                 | _ => false
                 end
  | _ => false
  end.

Definition removeDrives (driveID : string) (drives : list any) : list any :=
  filter (λ d, isDrive driveID d = false) drives.

Definition RemoveDrive (configPath driveID : string) : GoM W error bool :=
  cfg ← load configPath;
  let drives := drivesOf cfg in
  let filtered := removeDrives driveID drives in
  if decide (length filtered < length drives)%nat
  then _ ← save configPath (<["drives" := AnyList filtered]> cfg); mret true
  else mret false.

(** The struct as the fields its JSON tags name ([omitempty] ones when set). *)
Definition driveAny (d : DriveConfig) : any :=
  AnyStruct
    ([("drive_id", AnyString (dr_DriveID d)); ("path_on_host", AnyString (dr_PathOnHost d));
      ("is_root_device", AnyBool (dr_IsRootDevice d)); ("is_read_only", AnyBool (dr_IsReadOnly d))]
     ++ match dr_Partuuid d with Some p => [("partuuid", AnyString p)] | None => [] end
     ++ [("cache_type", AnyString (dr_CacheType d)); ("io_engine", AnyString (dr_IOEngine d))]
     ++ match dr_RateLimiter d with AnyNil => [] | r => [("rate_limiter", r)] end
     ++ match dr_Socket d with Some p => [("socket", AnyString p)] | None => [] end)%list.

(** The loop: replace the first drive with the id, or append. *)
Fixpoint putDrive (driveID : string) (new : any) (drives : list any) : list any :=
  match drives with
  | [] => [new]
  | d :: rest => if isDrive driveID d then new :: rest else d :: putDrive driveID new rest
  end.

Definition AddDrive (configPath : string) (driveConfig : DriveConfig) : GoM W error unit :=
  cfg ← load configPath;
  save configPath (<["drives" := AnyList
    (putDrive (dr_DriveID driveConfig) (driveAny driveConfig) (drivesOf cfg))]> cfg).
End Manager.

(** ** The builder as a map from keys to values *)

Definition arg (b : bootArgsBuilder) (k : string) : option (list string) :=
  values <$> head (filter (λ e, key e = k) b).

Definition keysOK (b : bootArgsBuilder) : Prop := NoDup (key <$> b).

Lemma arg_cons e b k : arg (e :: b) k = if decide (key e = k) then Some (values e) else arg b k.
Proof. unfold arg. rewrite filter_cons. by case_decide. Qed.

Lemma arg_app b c k :
  arg (b ++ c) k = match arg b k with Some v => Some v | None => arg c k end.
Proof. induction b as [|e b IH]; [done|]. simpl. rewrite !arg_cons, IH. by case_decide. Qed.

Lemma arg_None b k : arg b k = None ↔ k ∉ key <$> b.
Proof.
  induction b as [|e b IH]; [set_solver|]. rewrite arg_cons, fmap_cons, not_elem_of_cons.
  case_decide; [naive_solver|]. rewrite IH. naive_solver.
Qed.

Lemma entryIndex_None b k : entryIndex b k = None ↔ k ∉ key <$> b.
Proof.
  unfold entryIndex. rewrite fmap_None, list_find_None, Forall_forall.
  setoid_rewrite list_elem_of_fmap. naive_solver.
Qed.

Lemma entryIndex_Some b k i :
  keysOK b → entryIndex b k = Some i → ∃ e, b !! i = Some e ∧ key e = k.
Proof.
  intros Hok. unfold entryIndex. destruct (list_find _ _) as [[j e]|] eqn:E; [|done].
  intros [= <-]. apply list_find_Some in E. exists e. naive_solver.
Qed.

(** Changing the values at the index of a key. *)
Lemma alter_keys f i (b : list bootArgEntry) : (∀ e, key (f e) = key e) → key <$> alter f i b = key <$> b.
Proof.
  intros Hf. revert i. induction b as [|e b IH]; intros [|i]; f_equal/=; auto.
Qed.

Lemma arg_alter g i b e k :
  keysOK b → b !! i = Some e →
  arg (alter (λ e, BootArgEntry (key e) (g (values e))) i b) k =
    if decide (key e = k) then Some (g (values e)) else arg b k.
Proof.
  unfold keysOK. revert i. induction b as [|x b IH]; intros i Hok Hi; [done|].
  rewrite fmap_cons in Hok. apply NoDup_cons in Hok as [Hx Hok].
  destruct i as [|i]; simplify_eq/=; rewrite !arg_cons; simpl; [by case_decide|].
  rewrite (IH i) by done. destruct (decide (key x = k)) as [Hxk|], (decide (key e = k)) as [Hek|];
    try done. exfalso. apply Hx. apply list_elem_of_lookup. exists i.
  rewrite list_lookup_fmap, Hi. simpl. congruence.
Qed.

Lemma bset_spec b k vs :
  keysOK b →
  keysOK (bset b k vs) ∧
  (∀ k', arg (bset b k vs) k' = if decide (k = k') then Some vs else arg b k').
Proof.
  intros Hok. unfold bset. destruct (entryIndex b k) as [i|] eqn:E.
  - destruct (entryIndex_Some b k i Hok E) as (e & Hi & <-). split.
    + unfold keysOK. by rewrite alter_keys.
    + intros k'. by rewrite (arg_alter (λ _, vs) i b e).
  - apply entryIndex_None in E. split.
    + unfold keysOK. rewrite fmap_app. apply NoDup_app. split_and!; [done|set_solver|apply NoDup_singleton].
    + intros k'. rewrite arg_app, arg_cons. simpl. case_decide; [|by destruct (arg b k')].
      subst. by rewrite (proj2 (arg_None b k')).
Qed.

Lemma parseArg_keys b w : keysOK b → keysOK (parseArg b w).
Proof.
  intros Hok. unfold parseArg, keysOK.
  assert (∀ k vs, entryIndex b k = None → NoDup (key <$> (b ++ [BootArgEntry k vs])%list)) as Hsnoc.
  { intros k vs Hk%entryIndex_None. rewrite fmap_app. apply NoDup_app.
    split_and!; [done|set_solver|apply NoDup_singleton]. }
  destruct (Cut w "=") as [[k v]|]; destruct (entryIndex b _) eqn:E; auto. by rewrite alter_keys.
Qed.

Lemma parseFromString_keys b s : keysOK b → keysOK (parseFromString b s).
Proof.
  unfold parseFromString. case_decide; [done|]. revert b.
  induction (Fields s) as [|w ws IH]; intros b Hok; [done|]. apply IH. by apply parseArg_keys.
Qed.

(** The guard of [parseFromString] on blank strings changes nothing. *)
Lemma parseFromString_fields b s : parseFromString b s = foldl parseArg b (Fields s).
Proof.
  unfold parseFromString. case_decide as Hs; [|done].
  rewrite fieldsFrom_spaces; [done|]. destruct Hs as [->|Hs]; [done|by apply TrimSpace_nil].
Qed.

(** ** Parsing what was joined *)

(** A builder whose keys and values survive the command line. *)
Definition entryOK (e : bootArgEntry) : Prop :=
  word (key e) ∧ allChars (λ c, negb (Ascii.eqb c "="%char)) (key e) = true ∧
  Forall (λ v, spaceFree v = true) (values e).

Lemma entryParts_words e : entryOK e → Forall word (entryParts e).
Proof.
  intros ([Hne Hk] & _ & Hv). unfold entryParts. destruct (values e) as [|v vs]; [by repeat constructor|].
  apply Forall_forall. intros w (x & -> & Hx)%list_elem_of_fmap. split.
  - by destruct (key e).
  - unfold spaceFree in *. rewrite !allChars_app, Hk. simpl.
    rewrite Forall_forall in Hv. by apply Hv.
Qed.

Lemma parseArg_snoc b e v :
  keysOK b → allChars (λ c, negb (Ascii.eqb c "="%char)) e = true →
  parseArg b (e ++ "=" ++ v) =
    match entryIndex b e with
    | Some i => alter (λ x, BootArgEntry (key x) (values x ++ [v])%list) i b
    | None => (b ++ [BootArgEntry e [v]])%list
    end.
Proof. intros _ He. unfold parseArg. by rewrite (Cut_char e "="%char v). Qed.

Lemma entryIndex_last b k vs :
  k ∉ key <$> b → entryIndex (b ++ [BootArgEntry k vs])%list k = Some (length b).
Proof.
  intros Hk. unfold entryIndex. rewrite list_find_app_r.
  - simpl. rewrite decide_True by done. done.
  - apply list_find_None, Forall_forall. intros e He Ek. apply Hk.
    rewrite <-Ek. by apply list_elem_of_fmap_2.
Qed.

Lemma parse_entry b e :
  keysOK (b ++ [e])%list → entryOK e → foldl parseArg b (entryParts e) = (b ++ [e])%list.
Proof.
  destruct e as [k vs]. unfold keysOK. rewrite fmap_app. intros (Hok & Hk & _)%NoDup_app (_ & Heq & _).
  assert (k ∉ key <$> b) as Hkb by set_solver. clear Hk. simpl in *.
  unfold entryParts. simpl. destruct vs as [|v vs]; simpl.
  - unfold parseArg. rewrite Cut_char_None by done. by rewrite (proj2 (entryIndex_None b k)).
  - rewrite parseArg_snoc by done. rewrite (proj2 (entryIndex_None b k)) by done.
    assert (∀ ws us, foldl parseArg (b ++ [BootArgEntry k us])%list ((λ v, k ++ "=" ++ v) <$> ws) =
      (b ++ [BootArgEntry k (us ++ ws)])%list) as Hf; [|by rewrite Hf].
    induction ws as [|w ws IH]; intros us; simpl; [by rewrite app_nil_r|].
    rewrite parseArg_snoc; [|unfold keysOK; rewrite fmap_app; apply NoDup_app;
      split_and!; [done|set_solver|apply NoDup_singleton]|done].
    rewrite entryIndex_last by done. rewrite alter_app_r_alt by done. rewrite Nat.sub_diag. simpl.
    rewrite IH. by rewrite <-app_assoc.
Qed.

(** The command line is a faithful encoding of the builder: parsing what
    [join] wrote gives back the same entries in the same order, for distinct
    keys without blanks or '=' and values without blanks. *)
Lemma parse_join (b : bootArgsBuilder) :
  keysOK b → Forall entryOK b → parseFromString [] (join b) = b.
Proof.
  intros Hok Hb. rewrite parseFromString_fields. unfold join. rewrite Fields_Join.
  - enough (∀ b' c, keysOK (c ++ b')%list → Forall entryOK b' →
      foldl parseArg c (mjoin (entryParts <$> b')) = (c ++ b')%list) as Hall by by apply (Hall b []).
    clear Hok Hb. induction b' as [|e b' IH]; intros c Hok Hb; [by rewrite app_nil_r|].
    apply Forall_cons in Hb as [He Hb]. rewrite fmap_cons, join_cons, foldl_app, parse_entry; [|..|done].
    + rewrite IH; [by rewrite <-app_assoc| |done]. by rewrite <-app_assoc.
    + unfold keysOK in *. rewrite fmap_app in *. simpl in *.
      apply NoDup_app in Hok as (H1 & H2 & [H3 _]%NoDup_cons). apply NoDup_app.
      split_and!; [done|set_solver|apply NoDup_singleton].
  - clear Hok. induction b as [|e b IH]; [constructor|]. apply Forall_cons in Hb as [He Hb].
    rewrite fmap_cons, join_cons. apply Forall_app. split; [by apply entryParts_words|auto].
Qed.

(** ** The command line *)

(** The keys [buildBootArgs] may set itself. *)
Definition managedKeys : list string :=
  ["console"; "pci"; "ip"; "lsm"; "kvm-amd.nested"; "kvm-intel.nested";
   "root"; "rootfstype"; "systemd.mask"; "ds"].

(** [b'] is [b] with some of the keys [ks] set. *)
Definition setsOnly (ks : list string) (b b' : bootArgsBuilder) : Prop :=
  keysOK b' ∧ ∀ k, k ∉ ks → arg b' k = arg b k.

Lemma setsOnly_refl ks b : keysOK b → setsOnly ks b b.
Proof. by split. Qed.

Lemma setsOnly_trans ks1 ks2 b1 b2 b3 :
  setsOnly ks1 b1 b2 → setsOnly ks2 b2 b3 → setsOnly (ks1 ++ ks2) b1 b3.
Proof.
  intros [_ H1] [Hok H2]. split; [done|]. intros k Hk. rewrite elem_of_app in Hk.
  rewrite H2, H1 by tauto. done.
Qed.

Lemma bset_setsOnly b k vs : keysOK b → setsOnly [k] b (bset b k vs).
Proof.
  intros Hok. destruct (bset_spec b k vs Hok) as [H1 H2]. split; [done|].
  intros k' Hk'. rewrite H2, decide_False; [done|set_solver].
Qed.

Lemma nestedVirtArgs_setsOnly c b :
  keysOK b → setsOnly ["kvm-amd.nested"; "kvm-intel.nested"] b (nestedVirtArgs c b).
Proof.
  intros Hok. unfold nestedVirtArgs. repeat case_match; try by apply setsOnly_refl.
  all: split; [by apply bset_spec|]; intros k Hk;
    rewrite (proj2 (bset_spec _ _ _ Hok)), decide_False; [done|set_solver].
Qed.

Lemma datasourceArgs_setsOnly c b b' :
  keysOK b → datasourceArgs c b = Ok b' → setsOnly ["ds"] b b'.
Proof.
  intros Hok. unfold datasourceArgs.
  repeat case_match; intros; simplify_eq; auto using setsOnly_refl, bset_setsOnly.
Qed.

(** Membership in a list of literals, by computation. *)
Ltac notin := apply (bool_decide_unpack _); vm_compute; exact I.

Lemma userArgs_keys c : keysOK (userArgs c).
Proof. unfold userArgs. case_decide; [constructor|apply parseFromString_keys; constructor]. Qed.

Lemma consoleArgs_spec c b :
  keysOK b → setsOnly ["console"] b (consoleArgs c b) ∧
  (fc_EnableConsole c = true → is_Some (arg (consoleArgs c b) "console")).
Proof.
  intros Hok. unfold consoleArgs. case_bool_decide as He.
  - destruct (fc_EnableConsole c); simpl; [|split; [by apply setsOnly_refl|done]].
    split; [by apply bset_setsOnly|]. intros _.
    rewrite (proj2 (bset_spec _ _ _ Hok)), decide_True by done. by eexists.
  - rewrite andb_false_r. split; [by apply setsOnly_refl|]. intros _.
    apply not_eq_None_Some. by intros Hn%arg_None%entryIndex_None.
Qed.

Lemma pciArgs_spec c b :
  keysOK b → setsOnly ["pci"] b (pciArgs c b) ∧
  (fc_PCIEnabled c = false → arg (pciArgs c b) "pci" = Some ["off"]).
Proof.
  intros Hok. unfold pciArgs. destruct (fc_PCIEnabled c); [split; [by apply setsOnly_refl|done]|].
  split; [by apply bset_setsOnly|]. intros _. by rewrite (proj2 (bset_spec _ _ _ Hok)).
Qed.

Lemma lsmArgs_setsOnly c b : keysOK b → setsOnly ["lsm"] b (lsmArgs c b).
Proof. intros Hok. unfold lsmArgs. case_decide; [by apply setsOnly_refl|by apply bset_setsOnly]. Qed.

Lemma rootArgs_spec c b b' :
  keysOK b → rootArgs c b = Ok b' →
  setsOnly ["root"; "rootfstype"] b b' ∧ arg b' "root" = Some [rootParam c].
Proof.
  intros Hok. unfold rootArgs. destruct (_ && _); [done|]. intros [= <-].
  destruct (bset_spec b "root" [rootParam c] Hok) as [H1 H2].
  pose proof (bset_setsOnly b "root" [rootParam c] Hok) as H3.
  case_decide.
  - split; [|by rewrite H2]. split; [done|]. intros k Hk. apply H3. set_solver.
  - split; [apply (setsOnly_trans ["root"] _ _ _ _ H3); by apply bset_setsOnly|].
    by rewrite (proj2 (bset_setsOnly _ "rootfstype" _ H1)), H2 by set_solver.
Qed.

Lemma baseBootArgs_spec c b :
  baseBootArgs c = Ok b →
  setsOnly managedKeys (userArgs c) b ∧
  arg b "ip" = Some [ipParam c] ∧ arg b "root" = Some [rootParam c] ∧
  arg b "systemd.mask" = Some ["systemd-networkd-wait-online.service"] ∧
  (fc_PCIEnabled c = false → arg b "pci" = Some ["off"]) ∧
  (fc_EnableConsole c = true → is_Some (arg b "console")).
Proof.
  unfold baseBootArgs. destruct (consoleArgs_spec c _ (userArgs_keys c)) as [H1 Hcon].
  destruct (pciArgs_spec c _ (proj1 H1)) as [H2 Hpci].
  pose proof (bset_setsOnly _ "ip" [ipParam c] (proj1 H2)) as H3.
  pose proof (proj2 (bset_spec _ "ip" [ipParam c] (proj1 H2)) "ip") as Hip.
  fold (ipArgs c (pciArgs c (consoleArgs c (userArgs c)))) in H3, Hip.
  pose proof (lsmArgs_setsOnly c _ (proj1 H3)) as H4.
  pose proof (nestedVirtArgs_setsOnly c _ (proj1 H4)) as H5.
  destruct (rootArgs c _) as [b'|e] eqn:Er; [|done]. intros [= <-].
  destruct (rootArgs_spec _ _ _ (proj1 H5) Er) as [H6 Hroot].
  pose proof (bset_setsOnly b' "systemd.mask" ["systemd-networkd-wait-online.service"] (proj1 H6)) as H7.
  pose proof (proj2 (bset_spec b' "systemd.mask" ["systemd-networkd-wait-online.service"] (proj1 H6)) "systemd.mask") as Hm.
  fold (maskArgs b') in H7, Hm.
  pose proof (setsOnly_trans _ _ _ _ _ H6 H7) as T6.
  pose proof (setsOnly_trans _ _ _ _ _ (setsOnly_trans _ _ _ _ _ H4 H5) T6) as T4.
  pose proof (setsOnly_trans _ _ _ _ _ H3 T4) as T3.
  pose proof (setsOnly_trans _ _ _ _ _ H2 T3) as T2.
  pose proof (setsOnly_trans _ _ _ _ _ H1 T2) as T1. simpl in *. split_and!.
  - split; [apply H7|]. intros k Hk. apply T1. unfold managedKeys in Hk. set_solver.
  - rewrite (proj2 T4) by notin. apply Hip.
  - rewrite (proj2 H7) by notin. apply Hroot.
  - apply Hm.
  - intros Hc. rewrite (proj2 T3) by notin. auto.
  - intros Hc. rewrite (proj2 T2) by notin. auto.
Qed.

(** The command line carries the settings the VM depends on, whatever the
    user wrote: it is the joining of a builder with distinct keys, in which
    [ip=], [root=] and [systemd.mask=] are the generated ones, [pci=off] is set
    when PCI is disabled, a console is present when enabled, and every key the
    program does not manage keeps the user's values. *)
Theorem buildBootArgs_settings (s : FirecrackerSpawner) (line : string) :
  buildBootArgs s = Ok line →
  let c := config s in
  ∃ b, line = join b ∧ keysOK b ∧
    arg b "ip" = Some [ipParam c] ∧ arg b "root" = Some [rootParam c] ∧
    arg b "systemd.mask" = Some ["systemd-networkd-wait-online.service"] ∧
    (fc_PCIEnabled c = false → arg b "pci" = Some ["off"]) ∧
    (fc_EnableConsole c = true → is_Some (arg b "console")) ∧
    (∀ k, k ∉ managedKeys → arg b k = arg (parseFromString [] (fc_BootArgs c)) k).
Proof.
  intros Hl c. unfold buildBootArgs in Hl.
  destruct (baseBootArgs (config s)) as [b|e] eqn:Eb; [|done]. cbn in Hl.
  destruct (datasourceArgs (config s) b) as [b'|e] eqn:Ed; [|done]. injection Hl as <-.
  apply baseBootArgs_spec in Eb as ([Hok Hu] & Hip & Hroot & Hm & Hpci & Hcon).
  destruct (datasourceArgs_setsOnly _ _ _ Hok Ed) as [Hok' Hds].
  exists b'. split_and!; [done|done|..].
  1-3: by rewrite Hds by set_solver.
  1,2: intros; rewrite Hds by set_solver; auto.
  intros k Hk. rewrite Hds by (unfold managedKeys in Hk; set_solver). rewrite Hu by done.
  unfold userArgs. case_decide as He; [|done]. subst c. by rewrite He.
Qed.

Lemma rootArgs_Ok c b :
  is_Ok (rootArgs c b) = negb (fc_PCIEnabled c && bool_decide (fc_ImageFSUUID c = "")).
Proof. unfold rootArgs. by destruct (_ && _). Qed.

Lemma datasourceArgs_Ok c b :
  is_Ok (datasourceArgs c b) =
    negb (bool_decide (fc_CloudInitMode c = Some CloudInitModeNET) &&
          negb (nonEmpty (fc_CloudInitNoCloudURL c))).
Proof.
  unfold datasourceArgs. destruct (fc_CloudInitMode c) as [mode|]; [|done].
  case_decide as Hm; [rewrite bool_decide_false; [done|intros [= ->]; by destruct Hm]|].
  case_decide as Hn; [subst; rewrite bool_decide_true by done; by destruct (nonEmpty _)|].
  rewrite bool_decide_false by naive_solver. by repeat case_decide.
Qed.

Lemma buildBootArgs_Ok s :
  is_Ok (buildBootArgs s) =
    negb (fc_PCIEnabled (config s) && bool_decide (fc_ImageFSUUID (config s) = "")) &&
    negb (bool_decide (fc_CloudInitMode (config s) = Some CloudInitModeNET) &&
          negb (nonEmpty (fc_CloudInitNoCloudURL (config s)))).
Proof.
  unfold buildBootArgs, baseBootArgs. set (b0 := nestedVirtArgs _ _).
  rewrite <-(rootArgs_Ok (config s) b0). destruct (rootArgs _ _) as [b|e]; [|done]. cbn.
  rewrite <-(datasourceArgs_Ok (config s) (maskArgs b)). by destruct (datasourceArgs _ _).
Qed.

(** [Generate] fails exactly for a configuration that could not boot: PCI
    (which nested virtualization forces) without a filesystem UUID to find the
    root device by, or the NET datasource without a URL; and it always leaves
    PCI on for a nested virtualization VM. *)
Lemma Generate_errors (Abs : string → option string) (s : FirecrackerSpawner) :
  let c := config s in
  (is_Ok (Generate Abs s).1 = false ↔
    ((fc_PCIEnabled c = true ∨ fc_NestedVirt c = true) ∧ fc_ImageFSUUID c = "") ∨
    (fc_CloudInitMode c = Some CloudInitModeNET ∧ nonEmpty (fc_CloudInitNoCloudURL c) = false)) ∧
  (fc_NestedVirt c = true → fc_PCIEnabled (config (Generate Abs s).2) = true).
Proof.
  intros c. split; [|unfold Generate, forcePCI; simpl; fold c; by intros ->].
  assert (is_Ok (Generate Abs s).1 = is_Ok (buildBootArgs (forcePCI s))) as ->
    by (unfold Generate; simpl; by destruct (buildBootArgs _)).
  rewrite buildBootArgs_Ok. unfold forcePCI. fold c.
  destruct (fc_NestedVirt c) eqn:En; simpl; rewrite ?andb_false_iff, ?negb_false_iff, ?andb_true_iff;
    fold c; case_bool_decide; case_bool_decide; destruct (fc_PCIEnabled c), (nonEmpty _); naive_solver.
Qed.

(** ** Editing the drives of a written file *)

(** What the manager relies on: a read answers the contents, a successful write
    sets them, and creating a directory changes no file. *)
Class FileSystemLaws (W Data : Type) `{FileSystem W Data} := {
  content : W → string → option Data;
  ReadFile_content p w d w' :
    ReadFile p w = (Ok d, w') → d = content w p ∧ ∀ q, content w' q = content w q;
  MkdirAll_content p w w' : MkdirAll p w = (Ok (), w') → ∀ q, content w' q = content w q;
  WriteFile_content p d w w' :
    WriteFile p d w = (Ok (), w') →
    ∀ q, content w' q = if decide (q = p) then Some d else content w q;
}.

(** What decoding turns an encoded value into: structs come back as maps. *)
Fixpoint jsonize (a : any) : any :=
  match a with
  | AnyStruct l | AnyMap l => AnyMap ((λ p, (p.1, jsonize p.2)) <$> l)
  | AnyList l => AnyList (jsonize <$> l)
  | _ => a
  end.

Section ManagerProperties.
Context {W Data : Type} `{FileSystemLaws W Data}.
Context (unmarshal : Data → result error (gmap string any)) (marshal : gmap string any → Data).
Context (Dir : string → string).
Context (json_roundtrip : ∀ cfg, unmarshal (marshal cfg) = Ok (jsonize <$> cfg)).

Lemma save_content p cfg w w' :
  save marshal Dir p cfg w = (Ok (), w') →
  content w' p = Some (marshal cfg) ∧ ∀ q, q ≠ p → content w' q = content w q.
Proof.
  unfold save. rewrite bind_unfold. destruct (MkdirAll (Dir p) w) as [[[]|] w1] eqn:E1; [|done].
  intros E2. pose proof (MkdirAll_content _ _ _ E1) as H1.
  pose proof (WriteFile_content _ _ _ _ E2) as H2. split.
  - by rewrite H2, decide_True.
  - intros q Hq. by rewrite H2, decide_False, H1.
Qed.

Lemma load_saved p cfg w r w' :
  content w p = Some (marshal cfg) → load unmarshal p w = (Ok r, w') →
  r = jsonize <$> cfg ∧ ∀ q, content w' q = content w q.
Proof.
  intros Hc. unfold load. rewrite bind_unfold.
  destruct (ReadFile p w) as [[d|] w1] eqn:E; [|done].
  apply ReadFile_content in E as [-> Hq]. rewrite Hc, json_roundtrip. by intros [= <- <-].
Qed.

Lemma drivesOf_saved (l : list any) (cfg : gmap string any) :
  drivesOf (jsonize <$> <["drives" := AnyList l]> cfg) = jsonize <$> l.
Proof. unfold drivesOf. by rewrite lookup_fmap, lookup_insert_eq. Qed.

Lemma isDrive_put d : isDrive (dr_DriveID d) (jsonize (driveAny d)) = true.
Proof. by apply bool_decide_eq_true_2. Qed.

Lemma jsonize_list l : Forall (λ x, jsonize x = x) l → jsonize <$> l = l.
Proof. induction 1 as [|y l Hy Hl IH]; [done|]. by rewrite fmap_cons, Hy, IH. Qed.

Lemma removeDrives_put id new l :
  isDrive id (jsonize new) = true → Forall (λ x, jsonize x = x) l →
  removeDrives id (jsonize <$> putDrive id new l) = removeDrives id l.
Proof.
  intros Hd Hj. unfold removeDrives. induction l as [|x l IH].
  - cbn [putDrive]. rewrite fmap_cons, filter_cons, Hd. done.
  - apply Forall_cons in Hj as [Hx Hj]. cbn [putDrive]. rewrite !filter_cons.
    destruct (isDrive id x) eqn:Ex; rewrite fmap_cons, filter_cons.
    + rewrite Hd. simpl. by rewrite jsonize_list.
    + rewrite Hx, Ex. simpl. f_equal. by apply IH.
Qed.

Lemma removeDrives_shorter id new l :
  (length (removeDrives id l) < length (putDrive id new l))%nat.
Proof.
  unfold removeDrives. induction l as [|x l IH]; simpl; [lia|].
  rewrite filter_cons. destruct (isDrive id x); simpl; [|lia].
  pose proof (length_filter (λ x, isDrive id x = false) l). lia.
Qed.

(** Detaching undoes attaching: after a drive was added to a configuration
    file, removing it reports a removal, and leaves the drives that were there
    before, in order, less any drive of that id; no other file changes. *)
Lemma AddDrive_RemoveDrive p d w w1 b w2 cfg0 w0 :
  load unmarshal p w = (Ok cfg0, w0) →
  Forall (λ x, jsonize x = x) (drivesOf cfg0) →
  AddDrive unmarshal marshal Dir p d w = (Ok (), w1) →
  RemoveDrive unmarshal marshal Dir p (dr_DriveID d) w1 = (Ok b, w2) →
  b = true ∧
  (∀ r w3, load unmarshal p w2 = (Ok r, w3) →
    drivesOf r = removeDrives (dr_DriveID d) (drivesOf cfg0)) ∧
  (∀ q, q ≠ p → content w2 q = content w1 q).
Proof.
  intros Hload Hj Hadd Hrem. set (id := dr_DriveID d) in *.
  unfold AddDrive in Hadd. rewrite bind_unfold, Hload in Hadd. fold id in Hadd.
  apply save_content in Hadd as [Hc _]. unfold RemoveDrive in Hrem. rewrite bind_unfold in Hrem.
  destruct (load unmarshal p w1) as [[cfg|] w1'] eqn:E1; [|done].
  destruct (load_saved _ _ _ _ _ Hc E1) as [-> Hsame]. cbn zeta in Hrem. rewrite drivesOf_saved in Hrem.
  rewrite removeDrives_put in Hrem by (done || apply isDrive_put).
  rewrite decide_True in Hrem by (rewrite length_fmap; by apply removeDrives_shorter).
  rewrite bind_unfold in Hrem.
  destruct (save _ _ _ _ w1') as [[[]|] w2'] eqn:E2; [|done]. injection Hrem as <- ->.
  apply save_content in E2 as [Hc2 Hq]. split_and!; [done| |].
  - intros r w3 E3. destruct (load_saved _ _ _ _ _ Hc2 E3) as [-> _].
    rewrite drivesOf_saved. apply jsonize_list, Forall_forall.
    intros x [_ Hx]%list_elem_of_filter. by eapply Forall_forall in Hj.
  - intros q Hne. by rewrite Hq, Hsame.
Qed.
End ManagerProperties.

(** ** Instances *)

Module ConfigExamples.
Definition words : bootArgsBuilder :=
  [BootArgEntry "ro" []; BootArgEntry "console" ["ttyS0"; "tty0"]; BootArgEntry "panic" ["1"]].

Lemma parse_join_witness :
  join words = "ro console=ttyS0 console=tty0 panic=1" ∧ parseFromString [] (join words) = words.
Proof.
  split; [vm_compute; reflexivity|]. apply (parse_join words).
  - unfold keysOK. apply (bool_decide_unpack (NoDup (key <$> words))). vm_compute. exact I.
  - repeat constructor; vm_compute; done.
Defined.

(** A configuration whose user arguments ask for another root and address. *)
Definition sampleConfig : FirecrackerConfig :=
  FirecrackerConfig_
    "" "/vms/web/rootfs.ext4" "" "/vmlinux" 2%Z 512%Z "10.0.0.2" "52:54:00:00:00:01"
    "mvm-tap0" "10.0.0.1" "255.255.255.0" "1234-abcd" "ext4" "quiet root=/dev/sdb ip=dhcp" "" false
    false true false false "" "" "" ""
    "" "" "" None None None None None
    None [] None false false None.
Definition sample : FirecrackerSpawner := FirecrackerSpawner_ sampleConfig "" "".

Lemma buildBootArgs_settings_witness :
  ∃ line b, buildBootArgs sample = Ok line ∧ line = join b ∧ keysOK b ∧
    arg b "ip" = Some ["10.0.0.2::10.0.0.1:255.255.255.0::eth0:off"] ∧ arg b "quiet" = Some [].
Proof.
  assert (∃ line, buildBootArgs sample = Ok line) as [line E] by (eexists; vm_compute; reflexivity).
  destruct (buildBootArgs_settings sample line E) as (b & Hl & Hk & Hip & _ & _ & _ & _ & Hu).
  exists line, b. split; [exact E|]. split; [exact Hl|]. split; [exact Hk|]. split.
  - rewrite Hip. vm_compute. reflexivity.
  - rewrite Hu; [vm_compute; reflexivity|]. apply (bool_decide_unpack _). vm_compute. exact I.
Defined.

(** Files in memory, holding decoded configurations. *)
#[local] Instance memFS : FileSystem (gmap string (gmap string any)) (gmap string any) := {
  ReadFile p w := (Ok (w !! p), w);
  MkdirAll p w := (Ok (), w);
  WriteFile p d w := (Ok (), <[p := d]> w);
}.

#[local] Instance memFS_laws : FileSystemLaws (gmap string (gmap string any)) (gmap string any).
Proof.
  refine {| content := λ w p, w !! p |}.
  - by intros p w d w' [= <- <-].
  - by intros p w w' [= <-].
  - intros p d w w' [= <-] q. rewrite lookup_insert. case_decide as H; case_decide; congruence.
Defined.

Definition decode (d : gmap string any) : result error (gmap string any) := Ok (jsonize <$> d).
Definition encode (cfg : gmap string any) : gmap string any := cfg.
Definition parent (p : string) : string := "/".
Definition disk : DriveConfig := DriveConfig_ "vol1" "/vols/1.ext4" false false None CacheTypeUnsafe "Sync" AnyNil None.
Definition oneDrive : gmap string any := {[ "drives" := AnyList [AnyMap [("drive_id", AnyString "rootfs")]] ]}.
Definition files : gmap string (gmap string any) := {[ "c.json" := oneDrive ]}.
Definition files1 : gmap string (gmap string any) := (AddDrive decode encode parent "c.json" disk files).2.

Lemma AddDrive_RemoveDrive_witness :
  ∃ w2, RemoveDrive decode encode parent "c.json" "vol1" files1 = (Ok true, w2) ∧
  ∀ r w3, load decode "c.json" w2 = (Ok r, w3) → drivesOf r = [AnyMap [("drive_id", AnyString "rootfs")]].
Proof.
  exists (RemoveDrive decode encode parent "c.json" "vol1" files1).2. split; [vm_compute; reflexivity|].
  assert (RemoveDrive decode encode parent "c.json" (dr_DriveID disk) files1 =
    (Ok true, (RemoveDrive decode encode parent "c.json" "vol1" files1).2)) as Er by (vm_compute; reflexivity).
  assert (AddDrive decode encode parent "c.json" disk files = (Ok (), files1)) as Ea by (vm_compute; reflexivity).
  assert (load decode "c.json" files = (Ok oneDrive, files)) as El by (vm_compute; reflexivity).
  assert (Forall (λ x, jsonize x = x) (drivesOf oneDrive)) as Hj by (repeat constructor).
  exact (proj1 (proj2 (AddDrive_RemoveDrive decode encode parent (λ cfg, eq_refl) "c.json" disk files files1
    true _ oneDrive files El Hj Ea Er))).
Defined.
End ConfigExamples.
