(* ===== verification/Spawn.v ===== *)
(** * Starting Firecracker: [internal/core/vm/firecracker.go]

    [FirecrackerSpawner] writes the configuration of a machine ([FcConfig]) and
    starts its process.  The spawner holds the two files the process writes to,
    while they are open in this program; [Spawn] also has the end of a terminal
    that the process reads from, and the process it started: [Frame] is the
    state of one call.

    What the kernel does is the class [Processes]; [ProcessLaws] says which
    descriptors are open and which child processes there are. *)

From stdpp Require Import gmap strings list.
From S2P Require Import Prelude Triple GoStrings Errs Model Files FcConfig.
#[local] Open Scope string_scope.

Class Processes (W : Type) := {
  (** [os.OpenFile] for writing, from the start; the descriptor. *)
  OpenTruncated : string → GoM W error Z;
  CloseFd : Z → GoM W error unit;
  (** [cmd.Start] in a session of its own: the command, its input, its output
      and its error output. *)
  StartProcess : list string → option Z → option Z → option Z → GoM W error Z;
  (** Signal 0, SIGKILL, and the exit code of a child that is waited for. *)
  Probe : Z → GoM W error unit;
  KillChild : Z → GoM W error unit;
  WaitChild : Z → GoM W error Z;
  (** [infra.WaitForSocket], and a connection that is closed at once. *)
  WaitForSocket : string → Z → GoM W error unit;
  Dial : string → Z → GoM W error unit;
  GetProcessStartTime : Z → ST W (option Z);
  WritePIDFile : string → Z → GoM W error unit;
  WriteText : string → string → GoM W error unit;
}.

Record Spawner := Spawner_ {
  sp_generator : FirecrackerSpawner;
  sp_configPath : string;
  sp_serialOutputPath : string;
  sp_pidPath : string;
  sp_APISocketPath : string;
  sp_PID : option Z;
  sp_ProcessStartTime : option Z;
  sp_fcLogFP : option Z;
  sp_serialOutputFP : option Z;
}.

Definition newSpawner (c : FirecrackerConfig) : Spawner :=
  Spawner_ (NewFirecrackerSpawner c) (fc_ConfigPath c) (fc_SerialOutputPath c) (fc_PIDPath c) (fc_APISocketPath c)
    None None None None.

Definition spConfig (s : Spawner) : FirecrackerConfig := config (sp_generator s).

Definition spSetGenerator (g : FirecrackerSpawner) (s : Spawner) : Spawner :=
  Spawner_ g (sp_configPath s) (sp_serialOutputPath s) (sp_pidPath s) (sp_APISocketPath s) (sp_PID s)
    (sp_ProcessStartTime s) (sp_fcLogFP s) (sp_serialOutputFP s).
Definition spSetProcess (pid start : option Z) (s : Spawner) : Spawner :=
  Spawner_ (sp_generator s) (sp_configPath s) (sp_serialOutputPath s) (sp_pidPath s) (sp_APISocketPath s) pid
    start (sp_fcLogFP s) (sp_serialOutputFP s).
Definition spSetLog (fd : option Z) (s : Spawner) : Spawner :=
  Spawner_ (sp_generator s) (sp_configPath s) (sp_serialOutputPath s) (sp_pidPath s) (sp_APISocketPath s) (sp_PID s)
    (sp_ProcessStartTime s) fd (sp_serialOutputFP s).
Definition spSetSerial (fd : option Z) (s : Spawner) : Spawner :=
  Spawner_ (sp_generator s) (sp_configPath s) (sp_serialOutputPath s) (sp_pidPath s) (sp_APISocketPath s) (sp_PID s)
    (sp_ProcessStartTime s) (sp_fcLogFP s) fd.

(** The variables of one call of [Spawn]. *)
Record Frame := Frame_ {
  fr_spawner : Spawner;
  fr_relayFile : option Z;
  (** The process, once it was started. *)
  fr_started : option Z;
}.

Section Spawn.
Context {W : Type} `{Processes W} `{Files W}.
Context (Abs : string → option string) (marshal : FirecrackerVMConfig → result error string).

(** ** Writing the configuration *)

#[local] Notation MS := (GoM (Spawner * W) error).

Definition inWorld {S A} (m : GoM W error A) : GoM (S * W) error A := λ s, let '(r, w) := m s.2 in (r, (s.1, w)).
Definition theState {S} : GoM (S * W) error S := λ s, (Ok s.1, s).
Definition modify {S} (f : S → S) : GoM (S * W) error unit := λ s, (Ok (), (f s.1, s.2)).

Definition generate : MS FirecrackerVMConfig := λ s,
  let '(r, g) := Generate Abs (sp_generator s.1) in (r, (spSetGenerator g s.1, s.2)).

Definition WriteToFile : MS unit :=
  config ← generate;
  s ← theState;
  _ ← inWorld (Files.MkdirAll (Files.Dir (sp_configPath s)));
  match marshal config with
  | Err err => throw err
  | Ok data => inWorld (WriteText (sp_configPath s) data)
  end.

(** ** Files of the spawner *)

#[local] Notation M := (GoM (Frame * W) error).

Definition onSpawner (f : Spawner → Spawner) : M unit :=
  modify (λ fr, Frame_ (f (fr_spawner fr)) (fr_relayFile fr) (fr_started fr)).
Definition setRelay (fd : option Z) : M unit := modify (λ fr, Frame_ (fr_spawner fr) fd (fr_started fr)).
Definition setStarted (pid : Z) : M unit := modify (λ fr, Frame_ (fr_spawner fr) (fr_relayFile fr) (Some pid)).

(** Close a file, if it is open; a failure is logged. *)
Definition closing (fd : option Z) : M unit :=
  match fd with Some fd => _ ← try (inWorld (CloseFd fd)); mret () | None => mret () end.

Definition CloseFilePointers : M unit :=
  fr ← theState;
  _ ← closing (sp_fcLogFP (fr_spawner fr));
  _ ← onSpawner (spSetLog None);
  fr ← theState;
  _ ← closing (sp_serialOutputFP (fr_spawner fr));
  onSpawner (spSetSerial None).

Definition Cleanup : M unit := CloseFilePointers.

(** ** Spawn *)

Definition spawnError (msg : string) : error := EDomain (New CodeFirecrackerSpawnError msg []).

Definition removeStaleSocket : M unit :=
  fr ← theState;
  let socket := sp_APISocketPath (fr_spawner fr) in
  found ← try (inWorld (Stat socket));
  if is_Ok found then
    r ← try (inWorld (RemoveFile socket));
    match r with
    | Ok _ => mret ()
    | Err err => throw (Errorf ("remove stale api socket " ++ socket ++ ": " ++ Error err) (Some err))
    end
  else mret ().

(** The input and the output of the process. *)
Definition openOutput : M (option Z * option Z) :=
  fr ← theState;
  let c := spConfig (fr_spawner fr) in
  match (if fc_SnapshotMode c then None else fc_RelayClientFD c) with
  | Some fd =>
      if bool_decide (fd = 0%Z) then throw (spawnError "console enabled but PTY client FD is unavailable")
      else _ ← setRelay (Some fd); mret (Some fd, Some fd)
  | None =>
      fd ← inWorld (OpenTruncated (sp_serialOutputPath (fr_spawner fr)));
      _ ← onSpawner (spSetSerial (Some fd));
      mret (None, Some fd)
  end.

Definition openLog : M Z :=
  fr ← theState;
  fd ← inWorld (OpenTruncated (logPath (sp_generator (fr_spawner fr))));
  _ ← onSpawner (spSetLog (Some fd));
  mret fd.

Definition fcCmd (s : Spawner) : list string :=
  ([fc_BinaryPath (spConfig s); "--api-sock"; sp_APISocketPath s] ++
   (if fc_PCIEnabled (spConfig s) then ["--enable-pci"] else []) ++
   (if fc_SnapshotMode (spConfig s) then [] else ["--config-file"; sp_configPath s]))%list.

(** The socket is there and takes connections. *)
Definition listening (socket : string) : M bool :=
  there ← try (inWorld (WaitForSocket socket 100));
  if is_Ok there then (dialed ← try (inWorld (Dial socket 50)); mret (is_Ok dialed)) else mret false.

(** Attempts until the process listens; it may die meanwhile. *)
Fixpoint awaitSocket (attempts : nat) (socket : string) (pid : Z) : M unit :=
  match attempts with
  | O => mret ()
  | S attempts =>
      up ← listening socket;
      if up : bool then mret ()
      else
        alive ← try (inWorld (Probe pid));
        if is_Ok alive then awaitSocket attempts socket pid
        else
          exitCode ← try (inWorld (WaitChild pid));
          throw (spawnError ("firecracker process exited immediately with code " ++
            Itoa (match exitCode with Ok code => code | Err _ => -1 end)%Z))
  end.

Definition verifySocket (socket : string) : M unit :=
  found ← try (inWorld (Stat socket));
  if match found with Err err => IsNotExist err | Ok _ => false end
  then throw (spawnError "firecracker API socket not available after 4s")
  else
    dialed ← try (inWorld (Dial socket 200));
    match dialed with
    | Ok _ => mret ()
    | Err err => throw (spawnError ("firecracker API socket not accepting connections after 4s: " ++ Error err))
    end.

Definition socketAttempts : nat := 150.

Definition spawnBody : M unit :=
  _ ← removeStaleSocket;
  io ← openOutput;
  log ← openLog;
  fr ← theState;
  let socket := sp_APISocketPath (fr_spawner fr) in
  pid ← inWorld (StartProcess (fcCmd (fr_spawner fr)) io.1 io.2 (Some log));
  _ ← setStarted pid;
  fr ← theState;
  _ ← closing (fr_relayFile fr);
  _ ← setRelay None;
  _ ← awaitSocket socketAttempts socket pid;
  _ ← verifySocket socket;
  _ ← CloseFilePointers;
  start ← calls (λ s, let '(a, w) := GetProcessStartTime pid s.2 in (a, (s.1, w)));
  _ ← onSpawner (spSetProcess (Some pid) start);
  fr ← theState;
  _ ← try (inWorld (WritePIDFile (sp_pidPath (fr_spawner fr)) pid));
  mret ().

(** What is deferred to an error: the process is killed and waited for, the
    files are closed. *)
Definition abandon : M unit :=
  fr ← theState;
  _ ← match fr_started fr with
      | Some pid => _ ← try (inWorld (KillChild pid)); _ ← try (inWorld (WaitChild pid)); mret ()
      | None => mret ()
      end;
  _ ← closing (fr_relayFile fr);
  Cleanup.

Definition Spawn : MS unit := λ s,
  let '(r, fs) := spawnBody (Frame_ s.1 None None, s.2) in
  match r with
  | Ok _ => (Ok (), (fr_spawner fs.1, fs.2))
  | Err err => let '(_, fs) := abandon fs in (Err err, (fr_spawner fs.1, fs.2))
  end.
End Spawn.

(** ** Theorems *)

(** The children that were not waited for, and the open descriptors. *)
Class ProcessLaws (W : Type) `{Processes W} `{Files W} := {
  children : W → gset Z;
  descriptors : W → gset Z;
  law_open path w : children (OpenTruncated path w).2 = children w ∧
    match OpenTruncated path w with
    | (Ok fd, w') => fd ∉ descriptors w ∧ descriptors w' = {[fd]} ∪ descriptors w
    | (Err _, w') => descriptors w' = descriptors w
    end;
  law_close fd w : children (CloseFd fd w).2 = children w ∧ descriptors (CloseFd fd w).2 = descriptors w ∖ {[fd]};
  law_start cmd i o e w : descriptors (StartProcess cmd i o e w).2 = descriptors w ∧
    match StartProcess cmd i o e w with
    | (Ok pid, w') => pid ∉ children w ∧ children w' = {[pid]} ∪ children w
    | (Err _, w') => children w' = children w
    end;
  law_wait pid w : children (WaitChild pid w).2 = children w ∖ {[pid]} ∧ descriptors (WaitChild pid w).2 = descriptors w;
  same_resources (w w' : W) : Prop := children w' = children w ∧ descriptors w' = descriptors w;
  law_probe pid : upholds same_resources (Probe pid);
  law_kill pid : upholds same_resources (KillChild pid);
  law_socket path ms : upholds same_resources (WaitForSocket path ms);
  law_dial path ms : upholds same_resources (Dial path ms);
  law_starttime pid : upholds same_resources (GetProcessStartTime pid);
  law_pidfile path pid : upholds same_resources (WritePIDFile path pid);
  law_stat path : upholds same_resources (Stat (W := W) path);
  law_remove path : upholds same_resources (RemoveFile (W := W) path);
}.

Section Laws.
Context {W : Type} `{ProcessLaws W}.

Definition opened (fd : option Z) : gset Z := match fd with Some fd => {[fd]} | None => ∅ end.

(** What the call holds on top of the children [C] and the descriptors [D]
    there were before it: at most the process it started, and the two files. *)
Definition holds (C D : gset Z) (s : Frame * W) : Prop :=
  children s.2 ∖ opened (fr_started s.1) = C ∧
  descriptors s.2 ∖ (opened (sp_fcLogFP (fr_spawner s.1)) ∪ opened (sp_serialOutputFP (fr_spawner s.1))) ⊆ D.

Variables (C D : gset Z).
#[local] Notation I := (holds C D).
#[local] Notation M := (GoM (Frame * W) error).
#[local] Notation log s := (sp_fcLogFP (fr_spawner s.1)).
#[local] Notation serial s := (sp_serialOutputFP (fr_spawner s.1)).

(** The predicate looks at the resources of the world only. *)
Definition stable (P : Frame * W → Prop) : Prop := ∀ fr w w', same_resources w w' → P (fr, w) → P (fr, w').

Lemma holds_stable : stable I.
Proof. intros fr w w' [Ec Ed]. unfold holds. cbn [fst snd]. by rewrite Ec, Ed. Qed.

Lemma inert {A} (P : Frame * W → Prop) (m : GoM W error A) X :
  stable P → upholds same_resources m → triple P (try (inWorld m)) (λ _, P) X.
Proof.
  intros HP Hm. apply triple_try. intros [fr w] Hw. unfold inWorld. cbn [fst snd].
  specialize (Hm w). destruct (m w) as [[a|e] w']; cbn [snd] in Hm; by eapply HP.
Qed.

Lemma the_frame (P : Frame * W → Prop) X : triple P (theState : M Frame) (λ fr s, fr = s.1 ∧ P s) X.
Proof. intros s Hs. by split. Qed.

Lemma modify_triple (P Q : Frame * W → Prop) f X :
  (∀ s, P s → Q (f s.1, s.2)) → triple P (modify f : M unit) (λ _, Q) X.
Proof. intros HQ s Hs. simpl. auto. Qed.

(** Closing a file makes the descriptors fewer. *)
Lemma closing_triple (P Q : Frame * W → Prop) fd X :
  (∀ fr w w', children w' = children w → descriptors w' = descriptors w ∖ opened fd → P (fr, w) → Q (fr, w')) →
  triple P (closing fd : M unit) (λ _, Q) X.
Proof.
  intros HPQ. unfold closing. destruct fd as [fd|]; cbn [opened] in *.
  - eapply (triple_bind _ _ _ (λ _, Q)); [apply triple_try|intros r; by apply triple_ret].
    intros [fr w] Hw. unfold inWorld. cbn [fst snd]. pose proof (law_close fd w) as [Ec Ed].
    destruct (CloseFd fd w) as [[a|e] w']; cbn [snd] in *; by eapply HPQ.
  - apply triple_ret. intros [fr w] Hw. eapply HPQ; [done| |exact Hw]. by rewrite difference_empty_L.
Qed.

Lemma CloseFilePointers_triple (P Q : Frame * W → Prop) X :
  (∀ fr w w', children w' = children w →
     descriptors w' = descriptors w ∖ opened (log (fr, w)) ∖ opened (serial (fr, w)) → P (fr, w) →
     Q (Frame_ (spSetSerial None (spSetLog None (fr_spawner fr))) (fr_relayFile fr) (fr_started fr), w')) →
  triple P (CloseFilePointers : M unit) (λ _, Q) X.
Proof.
  intros HPQ. unfold CloseFilePointers, onSpawner. eapply triple_bind; [apply the_frame|intros fr].
  set (R1 := λ s : Frame * W, ∃ w, s.1 = fr ∧ P (fr, w) ∧ children s.2 = children w ∧
    descriptors s.2 = descriptors w ∖ opened (log (fr, w))).
  set (R2 := λ s : Frame * W, ∃ w, s.1 = Frame_ (spSetLog None (fr_spawner fr)) (fr_relayFile fr) (fr_started fr) ∧
    P (fr, w) ∧ children s.2 = children w ∧ descriptors s.2 = descriptors w ∖ opened (log (fr, w))).
  eapply triple_bind; [apply (closing_triple _ R1)|intros ?].
  { intros fr' w w' Ec Ed [E HP]. cbn [fst snd] in E. rewrite <- E in *. exists w. by split_and!. }
  eapply triple_bind; [apply (modify_triple _ R2)|intros ?].
  { intros [fr' w'] (w & E & HP & Ec & Ed). cbn [fst snd] in *. subst fr'. exists w. by split_and!. }
  eapply triple_bind; [apply the_frame|intros fr2].
  set (R3 := λ s : Frame * W, ∃ w, s.1 = Frame_ (spSetLog None (fr_spawner fr)) (fr_relayFile fr) (fr_started fr) ∧
    P (fr, w) ∧ children s.2 = children w ∧
    descriptors s.2 = descriptors w ∖ opened (log (fr, w)) ∖ opened (serial (fr, w))).
  eapply triple_bind; [apply (closing_triple _ R3)|intros ?].
  { intros fr' w1 w' Ec Ed [E2 (w & E & HP & Ec1 & Ed1)]. cbn [fst snd] in *. subst fr' fr2. exists w.
    split_and!; cbn [fst snd]; [done|done|congruence|]. by rewrite Ed, Ed1. }
  apply modify_triple. intros [fr' w'] (w & E & HP & Ec & Ed). cbn [fst snd] in *. subst fr'. exact (HPQ fr w w' Ec Ed HP).
Qed.

(** *** The phases *)

#[local] Notation X := (λ _ : error, I).

(** Before the process is started. *)
Definition unstarted (s : Frame * W) : Prop := I s ∧ fr_started s.1 = None.
Definition logless (s : Frame * W) : Prop := unstarted s ∧ log s = None.
Definition untouched (s : Frame * W) : Prop := logless s ∧ serial s = None.
(** While the process runs. *)
Definition running (pid : Z) (s : Frame * W) : Prop :=
  I s ∧ fr_started s.1 = Some pid ∧ pid ∉ C ∧ children s.2 = {[pid]} ∪ C.

Lemma unstarted_children s : unstarted s → children s.2 = C.
Proof. intros [[Hc _] E]. rewrite E in Hc. cbn [opened] in Hc. by rewrite difference_empty_L in Hc. Qed.

Lemma untouched_stable : stable untouched.
Proof. intros fr w w' Hs [[[HI E] El] Es]. repeat split; [apply (holds_stable _ _ _ Hs HI)..|done|done|done]. Qed.

Lemma running_stable pid : stable (running pid).
Proof.
  intros fr w w' Hs (HI & E & Hp & Hc). split_and!; [by eapply holds_stable|done|done|].
  destruct Hs as [Ec _]. cbn [fst snd] in *. by rewrite Ec.
Qed.

Lemma removeStale_triple : triple untouched (removeStaleSocket : M unit) (λ _, untouched) X.
Proof.
  assert (∀ s, untouched s → I s) as HI by (by intros s [[[HI _] _] _]).
  unfold removeStaleSocket. eapply triple_bind; [apply the_frame|intros fr].
  eapply triple_pre; [|eapply triple_bind; [apply (inert untouched), law_stat; apply untouched_stable|]]; [by intros s [_ Hs]|].
  intros [u|e]; cbn [is_Ok]; [|by apply triple_ret].
  eapply triple_bind; [apply (inert untouched), law_remove; apply untouched_stable|].
  intros [|]; [by apply triple_ret|by apply triple_throw].
Qed.

Lemma open_triple (P : Frame * W → Prop) path :
  stable P → (∀ s, P s → I s) →
  triple P (inWorld (OpenTruncated path) : M Z)
    (λ fd s, ∃ w, P (s.1, w) ∧ children s.2 = children w ∧ descriptors s.2 = {[fd]} ∪ descriptors w) X.
Proof.
  intros HP HI [fr w] Hw. unfold inWorld. cbn [fst snd]. pose proof (law_open path w) as [Ec Ed].
  destruct (OpenTruncated path w) as [[fd|e] w']; cbn [fst snd] in *.
  - destruct Ed as [_ Ed]. exists w. by split_and!.
  - apply HI. eapply HP; [|exact Hw]. by split.
Qed.

Lemma openOutput_triple : triple untouched (openOutput : M _) (λ _, logless) X.
Proof.
  assert (∀ s, untouched s → I s) as HI by (by intros s [[[HI _] _] _]).
  unfold openOutput. eapply triple_bind; [apply the_frame|intros fr].
  apply (triple_pre _ untouched); [by intros s [_ Hs]|]. destruct (if fc_SnapshotMode _ then _ else _) as [fd|].
  - case_bool_decide; [by apply triple_throw|].
    eapply triple_bind; [apply (modify_triple _ logless)|intros ?; by apply triple_ret].
    intros [fr' w] [[[HI' E] El] _]. repeat split; [apply HI'..|done|done].
  - eapply triple_bind; [apply open_triple; [apply untouched_stable|done]|intros fd].
    eapply triple_bind; [apply (modify_triple _ logless)|intros ?; by apply triple_ret].
    intros [fr' w'] (w & [[[[Hc Hd] E] El] Es] & Ec & Ed). cbn [fst snd] in *. rewrite El, Es in Hd. cbn [opened] in Hd.
    repeat split; cbn; [by rewrite Ec|rewrite Ed, El; cbn [opened]; set_solver|done|done].
Qed.

Lemma openLog_triple : triple logless (openLog : M Z) (λ _, unstarted) X.
Proof.
  unfold openLog. eapply triple_bind; [apply the_frame|intros fr]. apply (triple_pre _ logless); [by intros s [_ Hs]|].
  eapply triple_bind; [apply open_triple; [|by intros s [[HI _] _]]|intros fd].
  { intros fr' w w' Hs [[HI E] El]. split; [split|]; [by eapply holds_stable|done..]. }
  eapply triple_bind; [apply (modify_triple _ unstarted)|intros ?; by apply triple_ret].
  intros [fr' w'] (w & [[[Hc Hd] E] El] & Ec & Ed). cbn [fst snd] in *. rewrite El in Hd. cbn [opened] in Hd.
  repeat split; cbn; [by rewrite Ec|rewrite Ed; cbn [opened]; set_solver|done].
Qed.

(** The process is started, but not yet noted. *)
Definition forked (pid : Z) (s : Frame * W) : Prop := ∃ w,
  unstarted (s.1, w) ∧ pid ∉ C ∧ children s.2 = {[pid]} ∪ C ∧ descriptors s.2 = descriptors w.

Lemma start_triple cmd i o e :
  triple unstarted (inWorld (StartProcess cmd i o e) : M Z) forked X.
Proof.
  intros [fr w] Hw. unfold inWorld. cbn [fst snd]. pose proof (unstarted_children _ Hw) as HC. cbn [snd] in HC.
  pose proof (law_start cmd i o e w) as [Ed Ec].
  destruct (StartProcess cmd i o e w) as [[pid|err] w']; cbn [fst snd] in *.
  - destruct Ec as [Hp Ec]. rewrite HC in *. exists w. by split_and!.
  - destruct Hw as [HI _]. eapply holds_stable; [|exact HI]. by split.
Qed.

Lemma setStarted_triple pid : triple (forked pid) (setStarted pid : M unit) (λ _, running pid) X.
Proof.
  apply modify_triple. intros [fr w'] (w & [[Hc Hd] E] & Hp & Ec & Ed). cbn [fst snd] in *. split_and!; cbn; [|done|done|done].
  split; cbn; [rewrite Ec; set_solver|by rewrite Ed].
Qed.

Lemma await_triple n socket pid : triple (running pid) (awaitSocket n socket pid : M unit) (λ _, running pid) X.
Proof.
  assert (∀ s, running pid s → I s) as HI by (by intros s [HI _]).
  induction n as [|n IH]; cbn [awaitSocket]; [by apply triple_ret|].
  eapply (triple_bind _ _ _ (λ _, running pid)).
  { unfold listening. eapply triple_bind; [apply inert, law_socket; apply running_stable|intros r].
    apply triple_if; intros _; [|by apply triple_ret].
    eapply triple_bind; [apply inert, law_dial; apply running_stable|intros ?; by apply triple_ret]. }
  intros up. apply triple_if; intros _; [by apply triple_ret|].
  eapply triple_bind; [apply inert, law_probe; apply running_stable|intros r].
  apply triple_if; intros _; [apply IH|].
  eapply (triple_bind _ _ _ (λ _, I)); [apply triple_try|intros ?; by apply triple_throw].
  intros [fr w] ([Hc Hd] & E & Hp & Ec). unfold inWorld. cbn [fst snd] in *. pose proof (law_wait pid w) as [Ec' Ed'].
  destruct (WaitChild pid w) as [[code|err] w']; cbn [snd] in *; (split; cbn [fst snd]; [|by rewrite Ed']);
    rewrite Ec', Ec, E; cbn [opened]; set_solver.
Qed.

Lemma verify_triple socket pid : triple (running pid) (verifySocket socket : M unit) (λ _, running pid) X.
Proof.
  assert (∀ s, running pid s → I s) as HI by (by intros s [HI _]).
  unfold verifySocket. eapply triple_bind; [apply inert, law_stat; apply running_stable|intros r].
  apply triple_if; intros _; [by apply triple_throw|].
  eapply triple_bind; [apply inert, law_dial; apply running_stable|intros [u|err]]; [by apply triple_ret|by apply triple_throw].
Qed.

(** The call is over: no file is open, the process is known. *)
Definition launched (pid : Z) (s : Frame * W) : Prop :=
  pid ∉ C ∧ children s.2 = {[pid]} ∪ C ∧ descriptors s.2 ⊆ D ∧ sp_PID (fr_spawner s.1) = Some pid.

(** No file is open, and nothing was started. *)
Definition clean (s : Frame * W) : Prop := children s.2 = C ∧ descriptors s.2 ⊆ D.

Lemma spawnBody_triple : triple untouched (spawnBody : M unit) (λ _ s, ∃ pid, launched pid s) X.
Proof.
  unfold spawnBody, onSpawner. eapply triple_bind; [apply removeStale_triple|intros ?].
  eapply triple_bind; [apply openOutput_triple|intros io]. eapply triple_bind; [apply openLog_triple|intros fd].
  eapply triple_bind; [apply the_frame|intros fr]. apply (triple_pre _ unstarted); [by intros s [_ Hs]|].
  eapply triple_bind; [apply start_triple|intros pid]. eapply triple_bind; [apply setStarted_triple|intros ?].
  eapply triple_bind; [apply the_frame|intros fr1]. apply (triple_pre _ (running pid)); [by intros s [_ Hs]|].
  eapply triple_bind; [apply (closing_triple _ (running pid))|intros ?].
  { intros fr' w w' Ec Ed ([Hc Hd] & E & Hp & Hpc). cbn [fst snd] in *. split_and!; [|done|done|cbn; congruence].
    split; cbn [fst snd]; [congruence|]. rewrite Ed. set_solver. }
  eapply triple_bind; [apply (modify_triple _ (running pid)); by intros s Hs|intros ?].
  eapply triple_bind; [apply await_triple|intros ?]. eapply triple_bind; [apply verify_triple|intros ?].
  set (R := λ s : Frame * W, pid ∉ C ∧ children s.2 = {[pid]} ∪ C ∧ descriptors s.2 ⊆ D).
  eapply triple_bind; [apply (CloseFilePointers_triple _ R)|intros ?].
  { intros fr' w w' Ec Ed ([Hc Hd] & E & Hp & Hpc). cbn [fst snd] in *. split_and!; cbn [fst snd]; [done|congruence|].
    rewrite Ed. set_solver. }
  eapply (triple_bind _ _ _ (λ _, R)).
  { apply triple_calls. intros [fr' w] (Hp & Hc & Hd). cbn [fst snd] in *. pose proof (law_starttime pid w) as [Ec Ed].
    destruct (GetProcessStartTime pid w) as [start w']. cbn [fst snd] in *.
    split_and!; cbn [fst snd]; [done|by rewrite Ec|by rewrite Ed]. }
  intros start. eapply triple_bind; [apply (modify_triple _ (launched pid))|intros ?].
  { intros [fr' w] (Hp & Hc & Hd). by split_and!. }
  eapply triple_bind; [apply the_frame|intros fr2]. apply (triple_pre _ (launched pid)); [by intros s [_ Hs]|].
  eapply triple_bind; [apply inert, law_pidfile|intros ?; apply triple_ret; eauto].
  intros fr' w w' [Ec Ed] (Hp & Hc & Hd & E). cbn [fst snd] in *.
  split_and!; cbn [fst snd]; [done|by rewrite Ec|by rewrite Ed|done].
Qed.

Lemma abandon_triple : triple I (abandon : M unit) (λ _, clean) (λ _, clean).
Proof.
  unfold abandon, Cleanup. eapply triple_bind; [apply the_frame|intros fr].
  set (R := λ s : Frame * W, children s.2 = C ∧
    descriptors s.2 ∖ (opened (log s) ∪ opened (serial s)) ⊆ D).
  eapply (triple_bind _ _ _ (λ _, R)).
  { destruct (fr_started fr) as [pid|] eqn:E.
    - eapply (triple_bind _ _ _ (λ _ s, fr = s.1 ∧ I s)).
      { apply inert, law_kill. intros fr' w w' Hs [E' HI]. split; [done|]. by eapply holds_stable. }
      intros ?. eapply (triple_bind _ _ _ (λ _, R)); [apply triple_try|intros ?; by apply triple_ret].
      intros [fr' w] [E' [Hc Hd]]. cbn [fst snd] in *. subst fr'. rewrite E in Hc. cbn [opened] in Hc.
      unfold inWorld. cbn [fst snd]. pose proof (law_wait pid w) as [Ec Ed].
      destruct (WaitChild pid w) as [[code|err] w']; cbn [fst snd] in *; split; cbn [fst snd]; by rewrite ?Ec, ?Ed.
    - apply triple_ret. intros s [E' [Hc Hd]]. rewrite <- E', E in Hc. cbn [opened] in Hc.
      split; [by rewrite difference_empty_L in Hc|done]. }
  intros ?. eapply triple_bind; [apply (closing_triple _ R)|intros ?].
  { intros fr' w w' Ec Ed [Hc Hd]. cbn [fst snd] in *. split; cbn [fst snd]; [congruence|]. rewrite Ed. set_solver. }
  apply CloseFilePointers_triple. intros fr' w w' Ec Ed [Hc Hd]. cbn [fst snd] in *. split; cbn [fst snd]; [congruence|].
  rewrite Ed. set_solver.
Qed.
End Laws.

(** C25. Whatever fails on the way, a call of [Spawn] that answers an error leaves
    no process behind and no file open; one that succeeds leaves exactly one new
    process, whose id it recorded, and no file open. *)
Theorem Spawn_no_orphan {W : Type} `{ProcessLaws W} (s s' : Spawner) (w w' : W) (r : result error unit) :
  sp_fcLogFP s = None → sp_serialOutputFP s = None → Spawn (s, w) = (r, (s', w')) →
  descriptors w' ⊆ descriptors w ∧
  match r with
  | Ok _ => ∃ pid, sp_PID s' = Some pid ∧ pid ∉ children w ∧ children w' = {[pid]} ∪ children w
  | Err _ => children w' = children w
  end.
Proof.
  intros El Es. unfold Spawn. cbn [fst snd].
  assert (untouched (children w) (descriptors w) (Frame_ s None None, w)) as Hstart.
  { repeat split; cbn [fst snd fr_started fr_spawner opened]; [by rewrite difference_empty_L|set_solver|done|done]. }
  pose proof (spawnBody_triple (children w) (descriptors w) _ Hstart) as Hbody.
  destruct (spawnBody _) as [[u|e] fs]; cbn [fst snd] in *.
  - destruct Hbody as (pid & Hp & Hc & Hd & E). intros [= <- <- <-]. split; [done|]. by exists pid.
  - pose proof (abandon_triple (children w) (descriptors w) _ Hbody) as Habandon.
    destruct (abandon fs) as [[u|e'] fs']; intros [= <- <- <-]; by destruct Habandon.
Qed.

(** *** A kernel *)
Module SpawnExamples.
(** The descriptors and the children there are, and whether Firecracker comes up. *)
Record kernel := kernel_ { k_children : gset Z; k_descriptors : gset Z; k_up : bool }.

Definition allocate (used : gset Z) : Z := fresh used.
Definition unavailable : error := Errorf "connection refused" None.

#[export] Instance kernel_processes : Processes kernel := {|
  OpenTruncated _ w := let fd := allocate (k_descriptors w) in (Ok fd, kernel_ (k_children w) ({[fd]} ∪ k_descriptors w) (k_up w));
  CloseFd fd w := (Ok (), kernel_ (k_children w) (k_descriptors w ∖ {[fd]}) (k_up w));
  StartProcess _ _ _ _ w := let pid := allocate (k_children w) in (Ok pid, kernel_ ({[pid]} ∪ k_children w) (k_descriptors w) (k_up w));
  Probe _ := mret (); KillChild _ := mret ();
  WaitChild pid w := (Ok 0%Z, kernel_ (k_children w ∖ {[pid]}) (k_descriptors w) (k_up w));
  WaitForSocket _ _ := mret (); Dial _ _ w := (if k_up w then Ok () else Err unavailable, w);
  GetProcessStartTime _ := mret (Some 7%Z); WritePIDFile _ _ := mret (); WriteText _ _ := mret ();
|}.
#[export] Instance kernel_files : Files kernel := {|
  Files.MkdirAll _ := mret (); Stat _ := mret (); IsNotExist _ := false; RemoveFile _ := mret (); RemoveAll _ := mret ();
|}.
#[export] Program Instance kernel_laws : ProcessLaws kernel := {| children := k_children; descriptors := k_descriptors |}.
Next Obligation. intros path w. split; [done|]. cbn. split; [apply is_fresh|done]. Qed.
Next Obligation. by intros fd w. Qed.
Next Obligation. intros cmd i o e w. split; [done|]. cbn. split; [apply is_fresh|done]. Qed.
Next Obligation. by intros pid w. Qed.
Solve All Obligations with (by intros ?; unfold upholds).

Definition machine : Spawner :=
  Spawner_ ConfigExamples.sample "/vm/config.json" "/vm/serial.log" "/vm/fc.pid" "/vm/fc.sock" None None None None.
Definition idle (up : bool) : kernel := kernel_ ∅ {[1%Z; 2%Z]} up.
Definition outcome (up : bool) : result error unit * (Spawner * kernel) := Spawn (machine, idle up).

(** A machine that comes up, and one whose socket never answers. *)
Lemma Spawn_no_orphan_witness :
  is_Ok (outcome true).1 = true ∧ is_Ok (outcome false).1 = false ∧
  (∃ pid, sp_PID (outcome true).2.1 = Some pid ∧ pid ∉ (∅ : gset Z) ∧ children (outcome true).2.2 = {[pid]} ∪ ∅) ∧
  children (outcome false).2.2 = ∅ ∧ descriptors (outcome false).2.2 ⊆ {[1%Z; 2%Z]}.
Proof.
  assert (is_Ok (outcome true).1 = true) as E1 by (vm_compute; reflexivity).
  assert (is_Ok (outcome false).1 = false) as E2 by (vm_compute; reflexivity).
  split; [exact E1|split; [exact E2|]]. split.
  - pose proof (Spawn_no_orphan machine (outcome true).2.1 (idle true) (outcome true).2.2 (outcome true).1 eq_refl eq_refl) as H.
    destruct (outcome true) as [[u|e] [s w]] eqn:E; [|discriminate E1]. exact (proj2 (H E)).
  - pose proof (Spawn_no_orphan machine (outcome false).2.1 (idle false) (outcome false).2.2 (outcome false).1 eq_refl eq_refl) as H.
    destruct (outcome false) as [[u|e] [s w]] eqn:E; [discriminate E2|]. destruct (H E) as [Hd Hc]. split; [exact Hc|exact Hd].
Defined.
End SpawnExamples.
