(* ===== verification/VMControl.v ===== *)
(** * The VM lifecycle: [internal/core/vm/controller.go, service.go, utils.go]

    [Controller] moves one VM between its states by talking to the Firecracker
    process through its API socket, to the operating system, and to the VM
    repository; [Service] wraps it for lists of VMs.  The three are classes, so
    the theorems hold of any implementation that keeps the stated laws.

    A controller method runs on the in-memory VM (the [*model.VMItem] it holds)
    and the world; where the source updates only the database, only the world
    changes here.  Log messages are left out. *)

From stdpp Require Import gmap strings list pretty.
From S2P Require Import Prelude GoStrings Errs Model Infra Sql VMRepo FcConfig.
#[local] Open Scope string_scope.

(** ** What the controller talks to *)

(** [system.ShutdownConfig]; durations in milliseconds.  The hook, when there
    is one, is the constant function it returns. *)
Record ShutdownConfig := ShutdownConfig_ {
  Pid : Z;
  IsChild : bool;
  PreSignalHook : option bool;
  GracefulTimeout : Z;
  KillTimeout : Z;
  ExpectedStartTime : option Z;
}.

(** The processes of the host ([internal/lib/system]). *)
Class Host (W : Type) := {
  IsProcessAlive : Z → option Z → W → bool;
  KillProcess : Z → W → W;
  CaptureExitCode : Z → W → option Z * W;
  GracefulShutdown : ShutdownConfig → W → option Z * W;
}.

(** The Firecracker API behind a socket path ([internal/lib/firecracker]). *)
Class Firecracker (W : Type) := {
  SendCtrlAltDel : string → GoM W error bool;
  PauseVM : string → GoM W error unit;
  ResumeVM : string → GoM W error unit;
  StartInstance : string → GoM W error unit;
  UpdateDrivePath : string → string → string → GoM W error unit;
  CreateSnapshot : string → string → string → GoM W error unit;
  LoadSnapshot : string → string → string → bool → gmap string string → string → GoM W error unit;
  PutDrive : string → DriveConfig → GoM W error unit;
  DeleteDrive : string → string → GoM W error unit;
}.

(** The edits of a Firecracker configuration file ([FcConfig]). *)
Class ConfigManager (W : Type) := {
  ConfigAddDrive : string → DriveConfig → GoM W error unit;
  ConfigRemoveDrive : string → string → GoM W error bool;
}.

(** ** The controller *)
Section Controller.
Context {W : Type} `{Repository W} `{Host W} `{Firecracker W} `{ConfigManager W}.

Notation M := (GoM (VMItem * W) error).

Definition lift {A} (m : GoM W error A) : M A := λ s,
  let '(r, w') := m s.2 in (r, (s.1, w')).

Definition gets {A} (f : W → A) : M A := λ s, (Ok (f s.2), s).

Definition effect {A} (f : W → A * W) : M A := λ s,
  let '(a, w') := f s.2 in (Ok a, (s.1, w')).

Definition getVM : M VMItem := λ s, (Ok s.1, s).

(** [c.vm.Status = status]. *)
Definition setStatus (status : VMStatus) : M unit := λ s,
  (Ok (), (vmSetStatus status s.1, s.2)).

Definition stateInvalid (msg : string) : error := EDomain (New CodeVMStateInvalid msg []).

Definition has (vm : VMItem) (status : VMStatus) : bool := bool_decide (vm_Status vm = status).

Definition updateStatus (vm : VMItem) (status : VMStatus) : M unit :=
  lift (UpdateStatus (vm_ID vm) status).

(** [shutdownProcess]: the exit code, by Ctrl+Alt+Del, by signals or by force. *)
Definition stopProcess (force : bool) (pid : Z) : M (option Z) :=
  vm ← getVM;
  let start := vm_ProcessStartTime vm in
  if negb force && negb (bool_decide (vm_APISocketPath vm = "")) then
    sent ← try (lift (SendCtrlAltDel (vm_APISocketPath vm)));
    exitCode ← (if match sent with Ok b => b | Err _ => false end
                then effect (GracefulShutdown (ShutdownConfig_ pid true (Some false) 2000 100 start))
                else mret None);
    match exitCode with
    | Some _ => mret exitCode
    | None => effect (GracefulShutdown (ShutdownConfig_ pid true None 2000 1 start))
    end
  else
    _ ← (if force then effect (λ w, ((), KillProcess pid w)) else mret ());
    effect (GracefulShutdown (ShutdownConfig_ pid true None 100 100 start)).

Definition shutdownProcess (force : bool) (pid : Z) : M unit :=
  vm ← getVM;
  exitCode ← stopProcess force pid;
  exitCode ← match exitCode with
             | Some _ => mret exitCode
             | None => effect (CaptureExitCode pid)
             end;
  _ ← match exitCode with
      | Some code => lift (UpdateExitCode (vm_ID vm) code)
      | None => mret ()
      end;
  updateStatus vm VMStatusStopped.

(** Reap the exit code of a dead child; its value is not used. *)
Definition reap (pid : Z) : M unit := _ ← effect (CaptureExitCode pid); mret ().

(** The first branch of [Stop]: the VM is not recorded as running. *)
Definition stopOrphan (pid : Z) : M unit :=
  vm ← getVM;
  alive ← gets (λ w, (0 <? pid)%Z && IsProcessAlive pid (vm_ProcessStartTime vm) w);
  if alive : bool then
    _ ← effect (λ w, ((), KillProcess pid w));
    _ ← updateStatus vm VMStatusStopped;
    setStatus VMStatusStopped
  else if (0 <? pid)%Z then reap pid
  else mret ().

Definition Stop (force : bool) : M unit :=
  vm ← getVM;
  let pid := vm_PID vm in
  if negb (has vm VMStatusRunning) && negb (has vm VMStatusStarting) then stopOrphan pid
  else
    dead ← gets (λ w, (pid =? 0)%Z || negb (IsProcessAlive pid (vm_ProcessStartTime vm) w));
    if dead : bool then
      _ ← (if (0 <? pid)%Z then reap pid else mret ());
      updateStatus vm VMStatusStopped
    else
      _ ← updateStatus vm VMStatusStopping;
      stopErr ← try (shutdownProcess force pid);
      match stopErr with
      | Err _ => _ ← try (updateStatus vm VMStatusError); mret ()
      | Ok _ => mret ()
      end.

Definition Pause : M unit :=
  vm ← getVM;
  let name := vm_Name vm in
  let st := vm_Status vm in
  if has vm VMStatusPaused then mret ()
  else if has vm VMStatusStarting then
    throw (stateInvalid ("VM '" ++ name ++ "' is still starting — cannot pause (current state: " ++ st ++ ")"))
  else if has vm VMStatusStopped then
    throw (stateInvalid ("VM '" ++ name ++ "' is stopped — cannot pause (current state: " ++ st ++ ")"))
  else if has vm VMStatusStopping then
    throw (stateInvalid ("VM '" ++ name ++ "' is shutting down — cannot pause (current state: " ++ st ++ ")"))
  else if has vm VMStatusError || has vm VMStatusCrashed then
    throw (stateInvalid ("VM '" ++ name ++ "' is in " ++ st ++ " state — cannot pause (current state: " ++ st ++ ")"))
  else if bool_decide (vm_APISocketPath vm = "") then
    throw (stateInvalid ("VM '" ++ name ++ "' has no API socket enabled"))
  else
    _ ← lift (PauseVM (vm_APISocketPath vm));
    updateStatus vm VMStatusPaused.

Definition Resume : M unit :=
  vm ← getVM;
  let name := vm_Name vm in
  let st := vm_Status vm in
  if has vm VMStatusRunning || has vm VMStatusStarting then mret ()
  else if has vm VMStatusError || has vm VMStatusCrashed then
    throw (stateInvalid ("VM '" ++ name ++ "' is in " ++ st ++ " state — remove and recreate (current state: " ++ st ++ ")"))
  else if has vm VMStatusStopped then
    throw (stateInvalid ("VM '" ++ name ++ "' is stopped — use start() instead (current state: " ++ st ++ ")"))
  else if has vm VMStatusStopping then
    throw (stateInvalid ("VM '" ++ name ++ "' is shutting down — use start() after it stops (current state: " ++ st ++ ")"))
  else if bool_decide (vm_APISocketPath vm = "") then
    throw (stateInvalid ("VM '" ++ name ++ "' has no API socket enabled"))
  else
    _ ← lift (ResumeVM (vm_APISocketPath vm));
    updateStatus vm VMStatusRunning.

Definition Start : M unit :=
  vm ← getVM;
  let name := vm_Name vm in
  let st := vm_Status vm in
  if has vm VMStatusRunning || has vm VMStatusStarting || has vm VMStatusStopping then mret ()
  else if has vm VMStatusError || has vm VMStatusCrashed then
    throw (stateInvalid ("VM '" ++ name ++ "' is in " ++ st ++ " state — remove and recreate (current state: " ++ st ++ ")"))
  else if has vm VMStatusPaused then
    throw (stateInvalid ("VM '" ++ name ++ "' is paused — use resume() instead (current state: " ++ st ++ ")"))
  else if bool_decide (vm_APISocketPath vm = "") then
    throw (stateInvalid ("VM '" ++ name ++ "' has no API socket enabled"))
  else
    _ ← lift (StartInstance (vm_APISocketPath vm));
    updateStatus vm VMStatusRunning.

Definition Reboot (force : bool) : M unit :=
  _ ← Stop force; Start.

(** The body of [SnapshotCreate] between the registration of the deferred
    resume and the return, with the deferred restoration of the drive path. *)
Definition snapshotBody (wasRunning : bool) (cfg : SnapshotCreateConfig) (apiSocket : string) : M unit :=
  vm ← getVM;
  _ ← (if wasRunning then
         _ ← lift (PauseVM apiSocket);
         _ ← updateStatus vm VMStatusPaused;
         setStatus VMStatusPaused
       else mret ());
  let patch := negb (bool_decide (sc_PhantomRootfsPath cfg = "")) in
  _ ← (if patch then
         r ← try (lift (UpdateDrivePath apiSocket "rootfs" (sc_PhantomRootfsPath cfg)));
         match r with
         | Err patchErr =>
             throw (EDomain (WrapMsg CodeSnapshotCreateFailed
               ("failed to patch drive to phantom path: " ++ Error patchErr) patchErr []))
         | Ok _ => mret ()
         end
       else mret ());
  snapshotErr ← try (lift (CreateSnapshot apiSocket (sc_MemFile cfg) (sc_StateFile cfg)));
  _ ← (if patch then try (lift (UpdateDrivePath apiSocket "rootfs" (sc_RootfsPath cfg)))
       else mret (Ok ()));
  match snapshotErr with Ok _ => mret () | Err e => throw e end.

(** The deferred function: resume a VM that was running, unless it should stay
    paused.  A failure of it replaces the result unless it is a domain error. *)
Definition deferredResume (wasRunning : bool) (cfg : SnapshotCreateConfig) (apiSocket : string)
    (err : result error unit) : M unit :=
  vm ← getVM;
  let return_ (e : result error unit) : M unit := match e with Ok _ => mret () | Err e => throw e end in
  let override (e : error) : M unit :=
    match AsDomainError e with Some _ => return_ err | None => throw e end in
  if wasRunning && negb (sc_PauseOnly cfg) then
    r ← try (lift (ResumeVM apiSocket));
    match r with
    | Err resumeErr => override resumeErr
    | Ok _ =>
        u ← try (updateStatus vm VMStatusRunning);
        match u with
        | Err updateErr => override updateErr
        | Ok _ => _ ← setStatus VMStatusRunning; return_ err
        end
    end
  else return_ err.

Definition SnapshotCreate (cfg : SnapshotCreateConfig) : M unit :=
  vm ← getVM;
  let name := vm_Name vm in
  let st := vm_Status vm in
  if has vm VMStatusStarting then
    throw (stateInvalid ("VM '" ++ name ++ "' is still starting — cannot snapshot (current state: " ++ st ++ ")"))
  else if has vm VMStatusStopped then
    throw (stateInvalid ("VM '" ++ name ++ "' is stopped — cannot snapshot (current state: " ++ st ++ ")"))
  else if has vm VMStatusStopping then
    throw (stateInvalid ("VM '" ++ name ++ "' is shutting down — cannot snapshot (current state: " ++ st ++ ")"))
  else if has vm VMStatusError || has vm VMStatusCrashed then
    throw (stateInvalid ("VM '" ++ name ++ "' is in " ++ st ++ " state — cannot snapshot (current state: " ++ st ++ ")"))
  else if bool_decide (vm_APISocketPath vm = "") then
    throw (stateInvalid ("Socket not found for VM '" ++ name ++ "'. Must be running with --enable-api-socket"))
  else
    let wasRunning := has vm VMStatusRunning in
    err ← try (snapshotBody wasRunning cfg (vm_APISocketPath vm));
    deferredResume wasRunning cfg (vm_APISocketPath vm) err.

Definition SnapshotRestore (cfg : SnapshotRestoreConfig) : M unit :=
  vm ← getVM;
  if bool_decide (vm_APISocketPath vm = "") then
    throw (stateInvalid ("Socket not found for VM '" ++ vm_Name vm ++
                         "'. Firecracker must be spawned before loading snapshot"))
  else
    _ ← lift (LoadSnapshot (vm_APISocketPath vm) (sr_MemFile cfg) (sr_StateFile cfg) (sr_Resume cfg)
                (sr_NetworkOverrides cfg) (sr_VsockUDSPath cfg));
    let target := if sr_Resume cfg then VMStatusRunning else VMStatusPaused in
    _ ← updateStatus vm target;
    setStatus target.

Definition AttachVolume (driveConfig : DriveConfig) : M unit :=
  vm ← getVM;
  _ ← lift (PutDrive (vm_APISocketPath vm) driveConfig);
  lift (ConfigAddDrive (vm_ConfigPath vm) driveConfig).

Definition DetachVolume (driveID : string) : M unit :=
  vm ← getVM;
  _ ← lift (DeleteDrive (vm_APISocketPath vm) driveID);
  _ ← lift (ConfigRemoveDrive (vm_ConfigPath vm) driveID);
  mret ().

(** ** The service *)

(** [NewController(vm, s.repo)] and a method of it: the error it returned, and
    the VM its pointer now shows. *)
Definition onVM (m : M unit) (vm : VMItem) (w : W) : (VMItem * option error) * W :=
  let '(r, (vm', w')) := m (vm, w) in
  ((vm', match r with Ok _ => None | Err e => Some e end), w').

(** [toBulkResult]; [toAny] keeps a VM pointer in an [any]. *)
Definition toBulkResult (toAny : VMItem → any) (results : list (Result VMItem)) : BulkResult :=
  BulkResult_ ((λ res, BulkResultItem_ (toAny (Value res)) (Err_of res)) <$> results).

Context (toAny : VMItem → any) (NumCPU : Z).

(** The body the five bulk operations share: [pool.Gather] (any run of it that
    returns) or [pool.Seq].  It relates the world before to the result and the
    world after. *)
Definition runMany (m : M unit) (vms : list VMItem) (parallelism : bool) (maxWorkers : Z)
    (w : W) (r : BulkResult) (w' : W) : Prop :=
  ∃ rs, r = toBulkResult toAny rs ∧
    if parallelism then
      let workers := if (maxWorkers <=? 0)%Z then autoWorkers NumCPU (Z.of_nat (length vms))
                     else maxWorkers in
      ∃ st, rtc (gstep (onVM m) vms (Z.to_nat workers)) (ginit vmZero vms w) st ∧
        gfinal vms st ∧ rs = results st ∧ w' = world st
    else Seq vmZero (onVM m) vms w = (rs, w').

Definition StopMany (vms : list VMItem) (force parallelism : bool) (maxWorkers : Z) :=
  runMany (Stop force) vms parallelism maxWorkers.

Definition StartMany (vms : list VMItem) (parallelism : bool) (maxWorkers : Z) :=
  runMany Start vms parallelism maxWorkers.

Definition PauseMany (vms : list VMItem) (parallelism : bool) (maxWorkers : Z) :=
  runMany Pause vms parallelism maxWorkers.

Definition ResumeMany (vms : list VMItem) (parallelism : bool) (maxWorkers : Z) :=
  runMany Resume vms parallelism maxWorkers.

Definition RebootMany (vms : list VMItem) (force parallelism : bool) (maxWorkers : Z) :=
  runMany (Reboot force) vms parallelism maxWorkers.
End Controller.

(** [GenerateBatchNames]; a count below one makes the slice or its first
    element out of range, and panics: [None]. *)
Definition GenerateBatchNames (baseName : string) (count : Z) : option (list string) :=
  if (count =? 1)%Z then Some [baseName]
  else if (count <=? 0)%Z then None
  else Some (baseName :: ((λ i, baseName ++ "-" ++ Itoa i) <$> seqZ 2 (count - 1))).

(** ** What the outside promises

    Talking to a process, to the Firecracker API or to a configuration file
    leaves the recorded statuses alone, and only [UpdateDrivePath] moves the
    drive of a VM. *)
Class VMWorldLaws (W : Type) `{RepositoryLaws W} `{Host W} `{Firecracker W} `{ConfigManager W} := {
  drivePath : W → string → string;
  quiet {A} (m : GoM W error A) : Prop :=
    ∀ w r w', m w = (r, w') → ∀ id, statusOf w' id = statusOf w id;
  still {A} (m : GoM W error A) : Prop :=
    ∀ w r w', m w = (r, w') → ∀ s, drivePath w' s = drivePath w s;
  KillProcess_quiet pid w id : statusOf (KillProcess pid w) id = statusOf w id;
  CaptureExitCode_quiet pid w id : statusOf (CaptureExitCode pid w).2 id = statusOf w id;
  GracefulShutdown_quiet cfg w id : statusOf (GracefulShutdown cfg w).2 id = statusOf w id;
  SendCtrlAltDel_quiet s : quiet (SendCtrlAltDel s);
  PauseVM_quiet s : quiet (PauseVM s) ∧ still (PauseVM s);
  ResumeVM_quiet s : quiet (ResumeVM s) ∧ still (ResumeVM s);
  StartInstance_quiet s : quiet (StartInstance s);
  CreateSnapshot_quiet s m f : quiet (CreateSnapshot s m f) ∧ still (CreateSnapshot s m f);
  UpdateDrivePath_quiet s d p : quiet (UpdateDrivePath s d p);
  UpdateStatus_still id st : still (UpdateStatus id st);
  UpdateDrivePath_drive s d p w r w' :
    UpdateDrivePath s d p w = (r, w') →
    ∀ s', drivePath w' s' = match r with
                            | Ok _ => if decide (s' = s) then p else drivePath w s'
                            | Err _ => drivePath w s'
                            end;
}.

Section Lifecycle.
Context {W : Type} `{VMWorldLaws W}.
Notation M := (GoM (VMItem * W) error).
Implicit Types (vm : VMItem) (w : W) (st : VMStatus).

Lemma bind_lift {A B} (m : GoM W error A) (k : A → M B) vm w :
  (x ← lift m; k x) (vm, w) =
    match m w with
    | (Ok a, w') => k a (vm, w')
    | (Err e, w') => (Err e, (vm, w'))
    end.
Proof. unfold lift, mbind, GoM_bind. simpl. by destruct (m w) as [[]]. Qed.

Lemma bind_getVM {B} (k : VMItem → M B) vm w : (x ← getVM; k x) (vm, w) = k vm (vm, w).
Proof. done. Qed.

Lemma bind_gets {A B} (f : W → A) (k : A → M B) vm w : (x ← gets f; k x) (vm, w) = k (f w) (vm, w).
Proof. done. Qed.

Lemma bind_effect {A B} (f : W → A * W) (k : A → M B) vm w :
  (x ← effect f; k x) (vm, w) = k (f w).1 (vm, (f w).2).
Proof. unfold effect, mbind, GoM_bind. simpl. by destruct (f w). Qed.

(** ** The state machine of the three simple operations *)

Inductive op := OpPause | OpResume | OpStart.
Inductive verdict := NoOp | Refuse | Act.

(** What each operation is meant to do in each state. *)
Definition verdictOf (o : op) (st : VMStatus) : verdict :=
  let now s := bool_decide (st = s) in
  match o with
  | OpPause => if now VMStatusPaused then NoOp
      else if now VMStatusStarting || now VMStatusStopped || now VMStatusStopping
              || now VMStatusError || now VMStatusCrashed then Refuse else Act
  | OpResume => if now VMStatusRunning || now VMStatusStarting then NoOp
      else if now VMStatusError || now VMStatusCrashed || now VMStatusStopped || now VMStatusStopping
           then Refuse else Act
  | OpStart => if now VMStatusRunning || now VMStatusStarting || now VMStatusStopping then NoOp
      else if now VMStatusError || now VMStatusCrashed || now VMStatusPaused then Refuse else Act
  end.

Definition method (o : op) : M unit :=
  match o with OpPause => Pause | OpResume => Resume | OpStart => Start end.

Definition action (o : op) : string → GoM W error unit :=
  match o with OpPause => PauseVM | OpResume => ResumeVM | OpStart => StartInstance end.

Definition target (o : op) : VMStatus :=
  match o with OpPause => VMStatusPaused | OpResume => VMStatusRunning | OpStart => VMStatusRunning end.

Lemma method_unfold o vm w :
  match verdictOf o (vm_Status vm) with
  | NoOp => method o (vm, w) = (Ok (), (vm, w))
  | Refuse => ∃ msg, method o (vm, w) = (Err (stateInvalid msg), (vm, w))
  | Act => if decide (vm_APISocketPath vm = "")
           then ∃ msg, method o (vm, w) = (Err (stateInvalid msg), (vm, w))
           else method o (vm, w) =
             (_ ← lift (action o (vm_APISocketPath vm)); updateStatus vm (target o)) (vm, w)
  end.
Proof.
  destruct o; simpl; unfold Pause, Resume, Start; rewrite bind_getVM; unfold has;
    repeat (case_bool_decide; simpl; [by eauto|]);
    (case_decide; [rewrite bool_decide_true by done; eauto|rewrite bool_decide_false by done; done]).
Qed.

Lemma updateStatus_spec vm st vm0 w r vm' w' :
  updateStatus vm st (vm0, w) = (r, (vm', w')) →
  vm' = vm0 ∧
  (∀ id, statusOf w' id = match r with
     | Ok _ => if decide (id = vm_ID vm) then (λ _, st) <$> statusOf w id else statusOf w id
     | Err _ => statusOf w id end) ∧
  (∀ s, drivePath w' s = drivePath w s).
Proof.
  unfold updateStatus, lift. simpl. destruct (UpdateStatus (vm_ID vm) st w) as [r1 w1] eqn:E.
  intros [= -> -> ->]. split_and!; [done| |by apply (UpdateStatus_still _ _ _ _ _ E)].
  intros id. unfold statusOf. rewrite (row_UpdateStatus _ _ _ _ _ E).
  destruct r; [|done]. case_decide; [|done]. by rewrite <-option_fmap_compose.
Qed.

(** [Pause], [Resume] and [Start] implement one table of transitions: where
    the table says no-op nothing happens, where it refuses the error is a
    state error and nothing happens, and otherwise success means Firecracker
    accepted the action and the database records the target status, while an
    error leaves every recorded status as it was.  No other VM's status ever
    changes, and the in-memory VM is never touched. *)
Theorem lifecycle_table o vm w r vm' w' :
  method o (vm, w) = (r, (vm', w')) →
  vm' = vm ∧
  (∀ id, id ≠ vm_ID vm → statusOf w' id = statusOf w id) ∧
  match verdictOf o (vm_Status vm) with
  | NoOp => r = Ok () ∧ w' = w
  | Refuse => (∃ msg, r = Err (stateInvalid msg)) ∧ w' = w
  | Act => match r with
      | Ok _ => vm_APISocketPath vm ≠ "" ∧ is_Ok (action o (vm_APISocketPath vm) w).1 = true ∧
                statusOf w' (vm_ID vm) = (λ _, target o) <$> statusOf w (vm_ID vm)
      | Err _ => statusOf w' (vm_ID vm) = statusOf w (vm_ID vm)
      end
  end.
Proof.
  intros E. pose proof (method_unfold o vm w) as Hm. rewrite E in Hm.
  destruct (verdictOf o (vm_Status vm)).
  - by simplify_eq.
  - destruct Hm as [msg Hm]. simplify_eq. eauto.
  - case_decide; [destruct Hm as [msg Hm]; simplify_eq; eauto|]. symmetry in Hm.
    rewrite bind_lift in Hm.
    destruct (action o (vm_APISocketPath vm) w) as [[[]|e] w1] eqn:Ea.
    + assert (∀ id, statusOf w1 id = statusOf w id) as Hq.
      { destruct o; simpl in Ea.
        - by apply (proj1 (PauseVM_quiet _) _ _ _ Ea).
        - by apply (proj1 (ResumeVM_quiet _) _ _ _ Ea).
        - by apply (StartInstance_quiet _ _ _ _ Ea). }
      apply updateStatus_spec in Hm as (-> & Hst & _). split_and!; [done| |].
      * intros id Hid. rewrite Hst, Hq. destruct r; [by rewrite decide_False|done].
      * rewrite Hst, Hq. destruct r; [by rewrite decide_True|done].
    + simplify_eq. assert (∀ id, statusOf w' id = statusOf w id) as Hq; [|auto].
      destruct o; simpl in Ea.
      * by apply (proj1 (PauseVM_quiet _) _ _ _ Ea).
      * by apply (proj1 (ResumeVM_quiet _) _ _ _ Ea).
      * by apply (StartInstance_quiet _ _ _ _ Ea).
Qed.

(** ** Stopping *)

Lemma bind_try_lift {A B} (m : GoM W error A) (k : result error A → M B) vm w :
  (x ← try (lift m); k x) (vm, w) = k (m w).1 (vm, (m w).2).
Proof. unfold lift, try, mbind, GoM_bind. simpl. by destruct (m w). Qed.

Lemma effect_run {A} (f : W → A * W) vm w : effect f (vm, w) = (Ok (f w).1, (vm, (f w).2)).
Proof. unfold effect. simpl. by destruct (f w). Qed.

(** However the process is stopped, no status is recorded, and no error raised. *)
Lemma stopProcess_quiet force pid vm w :
  ∃ c w', stopProcess force pid (vm, w) = (Ok c, (vm, w')) ∧
    ∀ id, statusOf w' id = statusOf w id.
Proof.
  unfold stopProcess. rewrite bind_getVM. destruct (_ && _).
  - rewrite bind_try_lift.
    destruct (SendCtrlAltDel (vm_APISocketPath vm) w) as [sent w1] eqn:Es. simpl.
    pose proof (SendCtrlAltDel_quiet _ _ _ _ Es) as Q1.
    assert (∀ cfg w2, (∀ id, statusOf w2 id = statusOf w id) →
      ∃ c w', effect (GracefulShutdown cfg) (vm, w2) = (Ok c, (vm, w')) ∧
        ∀ id, statusOf w' id = statusOf w id) as Hg.
    { intros cfg w2 Q2. rewrite effect_run. eexists _, _. split; [done|].
      intros id. by rewrite GracefulShutdown_quiet. }
    destruct (match sent with Ok b => b | Err _ => false end).
    + rewrite bind_effect. destruct (GracefulShutdown _ w1).1 as [c|] eqn:Ec.
      * eexists _, _. split; [done|]. intros id. by rewrite GracefulShutdown_quiet.
      * apply Hg. intros id. by rewrite GracefulShutdown_quiet.
    + by apply Hg.
  - destruct force; [rewrite bind_effect|]; rewrite ?effect_run.
    + eexists _, _. split; [done|]. intros id. simpl.
      by rewrite GracefulShutdown_quiet, KillProcess_quiet.
    + eexists _, _. split; [apply effect_run|]. intros id. by rewrite GracefulShutdown_quiet.
Qed.

(** [shutdownProcess] records STOPPED exactly when it succeeds. *)
Lemma shutdownProcess_spec force pid vm w r vm' w' :
  shutdownProcess force pid (vm, w) = (r, (vm', w')) →
  vm' = vm ∧ ∀ id, statusOf w' id =
    match r with
    | Ok _ => if decide (id = vm_ID vm) then (λ _, VMStatusStopped) <$> statusOf w id else statusOf w id
    | Err _ => statusOf w id
    end.
Proof.
  unfold shutdownProcess. rewrite bind_getVM.
  destruct (stopProcess_quiet force pid vm w) as (c & w1 & E1 & Q1).
  rewrite bind_unfold, E1.
  assert (∃ c' w2, (match c with Some _ => mret c | None => effect (CaptureExitCode pid) end : M _) (vm, w1)
    = (Ok c', (vm, w2)) ∧ ∀ id, statusOf w2 id = statusOf w id) as (c' & w2 & E2 & Q2).
  { destruct c; [by exists (Some z), w1|]. rewrite effect_run. eexists _, _. split; [done|].
    intros id. by rewrite CaptureExitCode_quiet. }
  rewrite bind_unfold, E2. destruct c' as [code|].
  - rewrite bind_lift. destruct (UpdateExitCode (vm_ID vm) code w2) as [[[]|e] w3] eqn:E3.
    + intros (-> & Hs & _)%updateStatus_spec. split; [done|]. intros id. rewrite Hs.
      unfold statusOf in *. by rewrite !(row_UpdateExitCode _ _ _ _ _ E3), !Q2.
    + intros [= <- -> ->]. split; [done|]. intros id.
      unfold statusOf in *. by rewrite (row_UpdateExitCode _ _ _ _ _ E3).
  - intros (-> & Hs & _)%updateStatus_spec. split; [done|]. intros id. by rewrite Hs, !Q2.
Qed.

Lemma reap_run pid vm w :
  ∃ w', reap pid (vm, w) = (Ok (), (vm, w')) ∧ ∀ id, statusOf w' id = statusOf w id.
Proof.
  unfold reap. rewrite bind_effect. eexists. split; [done|]. intros id. apply CaptureExitCode_quiet.
Qed.

(** [Stop] of a VM recorded as running. *)
Lemma Stop_running force vm w r vm' w' :
  has vm VMStatusRunning || has vm VMStatusStarting = true →
  Stop force (vm, w) = (r, (vm', w')) →
  vm' = vm ∧ (∀ id, id ≠ vm_ID vm → statusOf w' id = statusOf w id) ∧
  match r with
  | Ok _ => ∀ st, statusOf w' (vm_ID vm) = Some st →
              st ∈ [VMStatusStopped; VMStatusError; VMStatusStopping]
  | Err _ => statusOf w' (vm_ID vm) = statusOf w (vm_ID vm)
  end.
Proof.
  intros Hr. unfold Stop. rewrite bind_getVM, <-negb_orb, Hr. simpl. rewrite bind_gets.
  assert (∀ {A} (o : option A) (x y : A), (λ _, x) <$> o = Some y → y = x) as Hmap
    by (intros A []; naive_solver).
  destruct ((vm_PID vm =? 0)%Z || _).
  - assert (∃ w1, (if (0 <? vm_PID vm)%Z then reap (vm_PID vm) else mret ()) (vm, w) = (Ok (), (vm, w1)) ∧
      ∀ id, statusOf w1 id = statusOf w id) as (w1 & E1 & Q1).
    { destruct (0 <? vm_PID vm)%Z; [apply reap_run|by exists w]. }
    rewrite bind_unfold, E1. intros (-> & Hs & _)%updateStatus_spec. split_and!; [done| |].
    + intros id Hid. rewrite Hs. destruct r; [by rewrite decide_False|done].
    + destruct r; [|by rewrite Hs]. intros st. rewrite Hs, decide_True by done.
      intros ->%Hmap. set_solver.
  - rewrite bind_unfold. destruct (updateStatus vm VMStatusStopping (vm, w)) as [[[]|e] [vm1 w1]] eqn:E1.
    + apply updateStatus_spec in E1 as (-> & Hs1 & _). rewrite bind_try.
      destruct (shutdownProcess force (vm_PID vm) (vm, w1)) as [se [vm2 w2]] eqn:E2.
      apply shutdownProcess_spec in E2 as [-> Hs2]. simpl. destruct se as [[]|e].
      * intros [= <- <- <-]. split_and!; [done| |].
        -- intros id Hid. by rewrite Hs2, Hs1, !decide_False.
        -- intros st. rewrite Hs2, decide_True by done. intros ->%Hmap. set_solver.
      * rewrite bind_try. destruct (updateStatus vm VMStatusError (vm, w2)) as [ue [vm3 w3]] eqn:E3.
        apply updateStatus_spec in E3 as (-> & Hs3 & _). intros [= <- <- <-]. split_and!; [done| |].
        -- intros id Hid. rewrite Hs3, Hs2, Hs1. destruct ue; by rewrite ?decide_False.
        -- intros st. rewrite Hs3, !Hs2, Hs1. destruct ue; rewrite ?decide_True by done;
             intros ->%Hmap; set_solver.
    + apply updateStatus_spec in E1 as (-> & Hs1 & _). intros [= <- <- <-].
      split_and!; [done|auto|auto].
Qed.

(** [Stop] on a VM recorded as running or starting: it fails only when its
    first database update fails, and then every recorded status is as before;
    otherwise the VM is no longer recorded as running, however the shutdown of
    the process went (STOPPED when it succeeded, ERROR or, if that update
    fails too, STOPPING when it did not).  Other VMs are not affected. *)
Lemma Stop_leaves_running force vm w r vm' w' :
  has vm VMStatusRunning || has vm VMStatusStarting = true →
  Stop force (vm, w) = (r, (vm', w')) →
  (∀ id, id ≠ vm_ID vm → statusOf w' id = statusOf w id) ∧
  match r with
  | Ok _ => ∀ st, statusOf w' (vm_ID vm) = Some st →
              st ∈ [VMStatusStopped; VMStatusError; VMStatusStopping]
  | Err _ => statusOf w' (vm_ID vm) = statusOf w (vm_ID vm)
  end.
Proof. intros Hr E. by apply (Stop_running force vm w r vm' w') in E as [_ E]. Qed.

(** [Reboot] of a running VM stops it and never starts it again: [Stop]
    records the new status in the database only, so [Start] still sees the VM
    running and does nothing.  [Reboot] is then [Stop], and a [Reboot] that
    reports success leaves the VM recorded as stopped, failed or stopping. *)
Lemma Reboot_does_not_start force vm w :
  has vm VMStatusRunning || has vm VMStatusStarting = true →
  Reboot force (vm, w) = Stop force (vm, w) ∧
  ∀ vm' w' st, Reboot force (vm, w) = (Ok (), (vm', w')) →
    statusOf w' (vm_ID vm) = Some st → st ≠ VMStatusRunning.
Proof.
  intros Hr. assert (Reboot force (vm, w) = Stop force (vm, w)) as E.
  { unfold Reboot. rewrite bind_unfold.
    destruct (Stop force (vm, w)) as [[[]|e] [vm' w']] eqn:E; [|done].
    destruct (Stop_running _ _ _ _ _ _ Hr E) as [-> _].
    unfold Start. rewrite bind_getVM. by rewrite Hr. }
  split; [done|]. rewrite E. intros vm' w' st Hs Hst.
  destruct (Stop_running _ _ _ _ _ _ Hr Hs) as (_ & _ & Hin). specialize (Hin st Hst).
  rewrite !elem_of_cons, elem_of_nil in Hin. by destruct Hin as [->|[->|[->|[]]]].
Qed.

(** ** Snapshots *)

(** How the body of [SnapshotCreate] may leave things. *)
Definition bodyPost (cfg : SnapshotCreateConfig) (sock : string) (vm vm' : VMItem) (w w' : W) : Prop :=
  (vm' = vm ∨ vm' = vmSetStatus VMStatusPaused vm) ∧
  (∀ id, id ≠ vm_ID vm → statusOf w' id = statusOf w id) ∧
  (∀ st, (λ _, st) <$> statusOf w' (vm_ID vm) = (λ _, st) <$> statusOf w (vm_ID vm)) ∧
  ((∀ d v, is_Ok (UpdateDrivePath sock d (sc_RootfsPath cfg) v).1 = true) →
   drivePath w' sock = drivePath w sock ∨ drivePath w' sock = sc_RootfsPath cfg).

Lemma const_fmap_same {A} (o o' : option A) : o = o' → ∀ st : VMStatus, (λ _, st) <$> o = (λ _, st) <$> o'.
Proof. by intros ->. Qed.

(** Pausing first, when the VM was running. *)
Lemma pauseFirst_spec (wasRunning : bool) vm w sock :
  ∃ r vm1 w1,
    (if wasRunning then
       _ ← lift (PauseVM sock);
       _ ← updateStatus vm VMStatusPaused;
       setStatus VMStatusPaused
     else mret ()) (vm, w) = (r, (vm1, w1)) ∧
    (vm1 = vm ∨ vm1 = vmSetStatus VMStatusPaused vm) ∧
    (∀ id, id ≠ vm_ID vm → statusOf w1 id = statusOf w id) ∧
    (∀ st, (λ _, st) <$> statusOf w1 (vm_ID vm) = (λ _, st) <$> statusOf w (vm_ID vm)) ∧
    (∀ s, drivePath w1 s = drivePath w s).
Proof.
  destruct wasRunning; [|exists (Ok ()), vm, w; split_and!; auto].
  rewrite bind_lift. destruct (PauseVM sock w) as [[[]|e] w1] eqn:E1;
    destruct (PauseVM_quiet sock) as [Hq Hs]; pose proof (Hq _ _ _ E1) as Q1;
    pose proof (Hs _ _ _ E1) as Q2.
  2: { eexists _, _, _. split; [done|]. split_and!; auto. intros st. by rewrite Q1. }
  rewrite bind_unfold. destruct (updateStatus vm VMStatusPaused (vm, w1)) as [[[]|e] [vm2 w2]] eqn:E2;
    apply updateStatus_spec in E2 as (-> & Hst & Hd); eexists _, _, _; (split; [done|]); split_and!; auto.
  - intros id Hid. by rewrite Hst, decide_False, Q1.
  - intros st. rewrite Hst, decide_True, Q1 by done. by destruct (statusOf w (vm_ID vm)).
  - intros s. by rewrite Hd.
  - intros id Hid. by rewrite Hst, Q1.
  - intros st. by rewrite Hst, Q1.
  - intros s. by rewrite Hd.
Qed.

(** A patched drive is put back after the snapshot, which itself moves nothing. *)
Lemma patched_spec (cfg : SnapshotCreateConfig) sock vm w (patch : bool) r vm' w' :
  (snapshotErr ← try (lift (CreateSnapshot sock (sc_MemFile cfg) (sc_StateFile cfg)));
   _ ← (if patch then try (lift (UpdateDrivePath sock "rootfs" (sc_RootfsPath cfg)))
        else mret (Ok ()));
   match snapshotErr with Ok _ => mret () | Err e => throw e end : M unit) (vm, w) = (r, (vm', w')) →
  vm' = vm ∧ (∀ id, statusOf w' id = statusOf w id) ∧
  ((∀ d v, is_Ok (UpdateDrivePath sock d (sc_RootfsPath cfg) v).1 = true) →
   drivePath w' sock = if patch then sc_RootfsPath cfg else drivePath w sock).
Proof.
  rewrite bind_try_lift. destruct (CreateSnapshot _ _ _ w) as [se w1] eqn:E1. simpl.
  destruct (CreateSnapshot_quiet sock (sc_MemFile cfg) (sc_StateFile cfg)) as [Hq Hs].
  pose proof (Hq _ _ _ E1) as Q1. pose proof (Hs _ _ _ E1) as Q2.
  destruct patch.
  - rewrite bind_try_lift. destruct (UpdateDrivePath _ _ _ w1) as [ue w2] eqn:E2. simpl.
    pose proof (UpdateDrivePath_quiet _ _ _ _ _ _ E2) as Q3.
    pose proof (UpdateDrivePath_drive _ _ _ _ _ _ E2 sock) as Q4.
    intros Hr. assert (vm' = vm ∧ w' = w2) as [-> ->] by (by destruct se; inversion Hr).
    split_and!; [done|intros id; by rewrite Q3|]. intros Hok. rewrite Q4.
    specialize (Hok "rootfs" w1). rewrite E2 in Hok. destruct ue; [by rewrite decide_True|done].
  - rewrite bind_unfold. simpl. intros Hr.
    assert (vm' = vm ∧ w' = w1) as [-> ->] by (by destruct se; inversion Hr). auto.
Qed.

Lemma snapshotBody_spec wasRunning cfg sock vm w r vm' w' :
  snapshotBody wasRunning cfg sock (vm, w) = (r, (vm', w')) → bodyPost cfg sock vm vm' w w'.
Proof.
  unfold snapshotBody, bodyPost. rewrite bind_getVM, bind_unfold.
  destruct (pauseFirst_spec wasRunning vm w sock) as (r1 & vm1 & w1 & E1 & Hvm & Ho & Hs & Hd).
  rewrite E1. destruct r1 as [[]|e].
  2: { intros [= <- <- <-]. split_and!; [done..|]. auto. }
  destruct (negb (bool_decide (sc_PhantomRootfsPath cfg = ""))).
  - rewrite bind_unfold. rewrite bind_try_lift.
    destruct (UpdateDrivePath sock "rootfs" _ w1) as [ue w2] eqn:E2. simpl.
    pose proof (UpdateDrivePath_quiet _ _ _ _ _ _ E2) as Q2.
    pose proof (UpdateDrivePath_drive _ _ _ _ _ _ E2 sock) as Q3.
    destruct ue as [[]|e].
    + intros (-> & Q4 & Q5)%(patched_spec cfg sock vm1 w2 true). split_and!.
      * done.
      * intros id Hid. by rewrite Q4, Q2, Ho.
      * intros st. by rewrite Q4, Q2.
      * intros Hok. right. by apply Q5.
    + intros [= <- <- <-]. split_and!; [done| | |].
      * intros id Hid. by rewrite Q2, Ho.
      * intros st. by rewrite Q2.
      * intros _. left. by rewrite Q3, Hd.
  - rewrite bind_unfold. simpl.
    intros (-> & Q4 & Q5)%(patched_spec cfg sock vm1 w1 false). split_and!.
    + done.
    + intros id Hid. by rewrite Q4, Ho.
    + intros st. by rewrite Q4.
    + intros Hok. left. by rewrite Q5, Hd.
Qed.

(** The deferred resume, when neither the resume nor the update fails. *)
Lemma deferredResume_healthy cfg sock err vm w :
  (∀ v, is_Ok (ResumeVM sock v).1 = true) →
  (∀ id st v, is_Ok (UpdateStatus id st v).1 = true) →
  sc_PauseOnly cfg = false →
  ∃ w', deferredResume true cfg sock err (vm, w) = (err, (vmSetStatus VMStatusRunning vm, w')) ∧
    (∀ id, statusOf w' id = if decide (id = vm_ID vm) then (λ _, VMStatusRunning) <$> statusOf w id
                            else statusOf w id) ∧
    (∀ s, drivePath w' s = drivePath w s).
Proof.
  intros Hres Hupd Hp. unfold deferredResume. rewrite bind_getVM, Hp. simpl. rewrite bind_try_lift.
  specialize (Hres w). destruct (ResumeVM sock w) as [re w1] eqn:E1. simpl in *.
  destruct re as [[]|]; [|done]. destruct (ResumeVM_quiet sock) as [Hq Hs].
  pose proof (Hq _ _ _ E1) as Q1. pose proof (Hs _ _ _ E1) as Q2. rewrite bind_try.
  destruct (updateStatus vm VMStatusRunning (vm, w1)) as [ue [vm2 w2]] eqn:E2. simpl.
  pose proof E2 as E2'. apply updateStatus_spec in E2' as (-> & Hst & Hd).
  unfold updateStatus, lift in E2. specialize (Hupd (vm_ID vm) VMStatusRunning w1). simpl in E2.
  destruct (UpdateStatus _ _ w1) as [ue' w2'] eqn:E3. simpl in Hupd. injection E2 as -> ->.
  destruct ue as [[]|]; [|done]. exists w2. split_and!.
  - rewrite bind_unfold. simpl. by destruct err as [[]|].
  - intros id. rewrite Hst. by rewrite Q1.
  - intros s. by rewrite Hd, Q2.
Qed.

(** C36. A snapshot that is not asked to leave the VM paused ([PauseOnly] is false)
    does not cost the VM its state: whatever fails while pausing, patching the
    drive or writing the snapshot, a running VM with an API socket ends up running,
    in memory and in the database (given that the resume and the update of the
    status work), every other VM's status is
    as before, and if the drive can be put back it is never left at the
    phantom path. *)
Theorem SnapshotCreate_resumes cfg vm w r vm' w' :
  (∀ s v, is_Ok (ResumeVM s v).1 = true) →
  (∀ id st v, is_Ok (UpdateStatus id st v).1 = true) →
  vm_Status vm = VMStatusRunning → vm_APISocketPath vm ≠ "" → sc_PauseOnly cfg = false →
  SnapshotCreate cfg (vm, w) = (r, (vm', w')) →
  vm_Status vm' = VMStatusRunning ∧
  statusOf w' (vm_ID vm) = (λ _, VMStatusRunning) <$> statusOf w (vm_ID vm) ∧
  (∀ id, id ≠ vm_ID vm → statusOf w' id = statusOf w id) ∧
  ((∀ s d v, is_Ok (UpdateDrivePath s d (sc_RootfsPath cfg) v).1 = true) →
   drivePath w' (vm_APISocketPath vm) ∈ [drivePath w (vm_APISocketPath vm); sc_RootfsPath cfg]).
Proof.
  intros Hres Hupd Hrun Hsock Hp. unfold SnapshotCreate. rewrite bind_getVM. unfold has. rewrite Hrun.
  rewrite (bool_decide_false (vm_APISocketPath vm = "")) by done.
  change (bool_decide (VMStatusRunning = VMStatusRunning)) with true. simpl. rewrite bind_try.
  destruct (snapshotBody true cfg _ (vm, w)) as [err [vm1 w1]] eqn:Eb. simpl.
  apply snapshotBody_spec in Eb as (Hvm & Ho & Hs & Hd).
  assert (vm_ID vm1 = vm_ID vm) as Hid by (by destruct Hvm as [->| ->]).
  destruct (deferredResume_healthy cfg (vm_APISocketPath vm) err vm1 w1) as (w2 & -> & Hst & Hdr);
    [auto..|]. intros [= <- <- <-]. split_and!; [done| | |].
  - rewrite Hst, Hid, decide_True by done. apply Hs.
  - intros id Hne. rewrite Hst, Hid, decide_False by done. auto.
  - intros Hok. rewrite Hdr, !elem_of_cons. destruct (Hd (Hok _)); auto.
Qed.
End Lifecycle.

(** The names generated for a batch of VMs are as many as asked for, all
    different, and start with the base name. *)
Lemma GenerateBatchNames_distinct baseName count names :
  GenerateBatchNames baseName count = Some names →
  Z.of_nat (length names) = count ∧ NoDup names ∧ head names = Some baseName.
Proof.
  unfold GenerateBatchNames. destruct (Z.eqb_spec count 1) as [->|Hne].
  { intros [= <-]. split_and!; [done|apply NoDup_singleton|done]. }
  destruct (Z.leb_spec count 0); [done|]. intros [= <-]. split_and!; [| |done].
  - simpl. rewrite length_fmap, length_seqZ. lia.
  - apply NoDup_cons. split.
    + intros (i & E & _)%list_elem_of_fmap. revert E. generalize (Itoa i) as u. intros u E.
      apply (f_equal String.length) in E. rewrite !length_sapp in E. simpl in E. lia.
    + apply NoDup_fmap_2; [|apply NoDup_seqZ]. intros i j E.
      apply (inj (String.append baseName)) in E. injection E as E. by apply (inj pretty).
Qed.

(** ** A concrete world

    The database of [VMRepo], processes that are all alive and exit with code
    zero when asked, and a Firecracker that accepts every request and remembers
    the path of each drive: the laws hold, and the operations can be run. *)
Module VMExamples.
Record sim := Sim { db : Db (list VMItem); drives : gmap string string }.

(** The database of this world never fails. *)
Definition sound (w : sim) : Db (list VMItem) := Db_ (tables (db w)) [] (clock (db w)).

Definition onDb {A} (m : GoM (Db (list VMItem)) error A) : GoM sim error A := λ w,
  let '(r, d) := m (sound w) in (r, Sim d (drives w)).

(** LIKE for patterns of the form "prefix%". *)
Definition prefixLike (pattern s : string) : bool :=
  HasPrefix s (stake (String.length pattern - 1) pattern).

Definition repo0 : Repository (Db (list VMItem)) :=
  sqliteRepo prefixLike (λ l, Join l ",") (λ _, true) (Errorf "constraint failed" None).

#[export] Instance sim_repo : Repository sim := {|
  Get id := onDb (@Get _ repo0 id);
  GetByName n := onDb (@GetByName _ repo0 n);
  NamesExist l := onDb (@NamesExist _ repo0 l);
  FindByIP s := onDb (@FindByIP _ repo0 s);
  FindByMAC s := onDb (@FindByMAC _ repo0 s);
  FindByPrefix s := onDb (@FindByPrefix _ repo0 s);
  Count := onDb (@Count _ repo0);
  CountByStatus l := onDb (@CountByStatus _ repo0 l);
  FindByNetworkID s := onDb (@FindByNetworkID _ repo0 s);
  GetByNetworkIDs l := onDb (@GetByNetworkIDs _ repo0 l);
  FindByKernelID s := onDb (@FindByKernelID _ repo0 s);
  GetByKernelIDs l := onDb (@GetByKernelIDs _ repo0 l);
  FindByBinaryID s := onDb (@FindByBinaryID _ repo0 s);
  GetByBinaryIDs l := onDb (@GetByBinaryIDs _ repo0 l);
  GetByImageIDs l := onDb (@GetByImageIDs _ repo0 l);
  FindByVolumeID s := onDb (@FindByVolumeID _ repo0 s);
  FindByVolumeIDsBatch l := onDb (@FindByVolumeIDsBatch _ repo0 l);
  FindBySSHKeyID s := onDb (@FindBySSHKeyID _ repo0 s);
  ListAll := onDb (@ListAll _ repo0);
  ListByStatus l := onDb (@ListByStatus _ repo0 l);
  ListExcludingStatuses l := onDb (@ListExcludingStatuses _ repo0 l);
  Upsert vm := onDb (@Upsert _ repo0 vm);
  UpdateStatus id st := onDb (@UpdateStatus _ repo0 id st);
  UpdatePID id p := onDb (@UpdatePID _ repo0 id p);
  UpdateProcessInfo id p t := onDb (@UpdateProcessInfo _ repo0 id p t);
  UpdateExitCode id c := onDb (@UpdateExitCode _ repo0 id c);
  Delete id := onDb (@Delete _ repo0 id);
  DeleteMany l := onDb (@DeleteMany _ repo0 l);
|}.

Lemma onDb_inv {A} (m : GoM (Db (list VMItem)) error A) w r w' :
  onDb m w = (r, w') → m (sound w) = (r, db w') ∧ drives w' = drives w.
Proof. unfold onDb. destruct (m (sound w)) as [r1 d]. by intros [= <- <-]. Qed.

#[export] Instance sim_laws : RepositoryLaws sim.
Proof.
  unshelve econstructor; [exact (λ w, findRow (tables (db w)))|..].
  - intros id status w r w' [E _]%onDb_inv id'.
    exact (row_UpdateStatus (H := repo0) id status _ _ _ E id').
  - intros id code w r w' [E _]%onDb_inv id'.
    exact (row_UpdateExitCode (H := repo0) id code _ _ _ E id').
Defined.

#[export] Instance sim_host : Host sim := {|
  IsProcessAlive pid _ _ := true;
  KillProcess pid w := w;
  CaptureExitCode pid w := (Some 0%Z, w);
  GracefulShutdown cfg w := (Some 0%Z, w);
|}.

#[export] Instance sim_fc : Firecracker sim := {|
  SendCtrlAltDel _ := mret true;
  PauseVM _ := mret ();
  ResumeVM _ := mret ();
  StartInstance _ := mret ();
  UpdateDrivePath s _ p := λ w, (Ok (), Sim (db w) (<[s := p]> (drives w)));
  CreateSnapshot _ _ _ := throw (Errorf "disk full" None);
  LoadSnapshot _ _ _ _ _ _ := mret ();
  PutDrive _ _ := mret ();
  DeleteDrive _ _ := mret ();
|}.

#[export] Instance sim_config : ConfigManager sim := {|
  ConfigAddDrive _ _ := mret ();
  ConfigRemoveDrive _ _ := mret true;
|}.

#[export] Instance sim_world : VMWorldLaws sim.
Proof.
  unshelve econstructor; [exact (λ w s, default "" (drives w !! s))|..]; try done.
  all: try (intros; split; intros ?????; match goal with E : _ = (_, _) |- _ => injection E as <- <- end; done).
  - intros s w r w' E id. by injection E as <- <-.
  - intros s w r w' E id. by injection E as <- <-.
  - intros s d p w r w' E id. by injection E as <- <-.
  - intros id st w r w' [_ E]%onDb_inv s. by rewrite E.
  - intros s d p w r w' E s'. injection E as <- <-. simpl.
    rewrite lookup_insert. destruct (decide (s = s')) as [->|Hne].
    + by rewrite decide_True.
    + by rewrite decide_False.
Defined.

(** A running VM "id1" named "web", and a second one. *)
Definition exVM (id name : string) (status : VMStatus) : VMItem :=
  vmSetStatus status (vmSetPID 42 (VMItem_ id name "" 0%Z "10.0.0.2" "52:54:00:00:00:01" "net1" ""
    "" "" "" "/run/fc.sock" "" "" 0%Z 0%Z 0%Z "" "" false false false false false false
    "t0" "t0" None None None None None None None None "" "" "" "" "" "" "" "" "" "" "" [] None [] None)).

Definition web := exVM "id1" "web" VMStatusRunning.
Definition store := exVM "id2" "db" VMStatusStopped.
Definition w0 : sim := Sim (Db_ [web; store] [] "t1") ∅.

(** The world after [Stop]. *)
Definition w1 : sim := (Stop true (web, w0)).2.2.

Lemma lifecycle_table_witness :
  statusOf (method OpPause (web, w0)).2.2 "id1" = Some VMStatusPaused ∧
  statusOf (method OpPause (web, w0)).2.2 "id2" = statusOf w0 "id2".
Proof.
  split; [vm_compute; reflexivity|].
  apply (lifecycle_table OpPause web w0 (Ok ()) web _); [vm_compute; reflexivity|done].
Defined.

Lemma Stop_leaves_running_witness :
  statusOf w1 "id1" = Some VMStatusStopped ∧
  ∀ st, statusOf w1 "id1" = Some st → st ∈ [VMStatusStopped; VMStatusError; VMStatusStopping].
Proof.
  split; [vm_compute; reflexivity|].
  assert (Stop true (web, w0) = (Ok (), (web, w1))) as E by (vm_compute; reflexivity).
  exact (proj2 (Stop_leaves_running true web w0 (Ok ()) web w1 eq_refl E)).
Defined.

Lemma Reboot_does_not_start_witness :
  Reboot true (web, w0) = Stop true (web, w0) ∧ statusOf w1 "id1" = Some VMStatusStopped.
Proof.
  split; [exact (proj1 (Reboot_does_not_start true web w0 eq_refl))|vm_compute; reflexivity].
Defined.

(** The snapshot fails (the disk is full), and the VM is running again. *)
Definition snapCfg := SnapshotCreateConfig_ "mem" "state" false "/phantom" "/rootfs".

Lemma SnapshotCreate_resumes_witness :
  is_Ok (SnapshotCreate snapCfg (web, w0)).1 = false ∧
  statusOf (SnapshotCreate snapCfg (web, w0)).2.2 "id1" = Some VMStatusRunning.
Proof.
  split; [vm_compute; reflexivity|].
  destruct (SnapshotCreate snapCfg (web, w0)) as [r [vm' w']] eqn:E.
  assert (∀ s v, is_Ok (@ResumeVM sim _ s v).1 = true) as Hres by reflexivity.
  assert (∀ id st v, is_Ok (@UpdateStatus sim _ id st v).1 = true) as Hupd by reflexivity.
  assert (vm_APISocketPath web ≠ "") as Hsock by done.
  exact (proj1 (proj2 (SnapshotCreate_resumes snapCfg web w0 r vm' w' Hres Hupd eq_refl Hsock eq_refl E))).
Defined.

Lemma GenerateBatchNames_distinct_witness :
  GenerateBatchNames "web" 3 = Some ["web"; "web-2"; "web-3"] ∧ NoDup ["web"; "web-2"; "web-3"].
Proof.
  split; [vm_compute; reflexivity|].
  apply (GenerateBatchNames_distinct "web" 3). vm_compute. reflexivity.
Defined.
End VMExamples.
