(* ===== verification/IPNet.v ===== *)
(** * Addresses and subnets: [internal/lib/network/network.go], [internal/lib/validators]

    IPv4 arithmetic (gateway, host count, allocation of the next free address),
    interface names, and the validators of addresses and subnets.  Go's [net]
    package is modelled for IPv4 text; the parser of IPv6 text is a parameter.
    The functions that query the host (interfaces, routes, devices) are not
    modelled. *)

From Stdlib Require Import Ascii.
From stdpp Require Import gmap strings list pretty.
From S2P Require Import Prelude GoStrings Errs.
#[local] Open Scope string_scope.
#[local] Open Scope Z_scope.

(** ** Package [net] *)

(** A [net.IP]: the four bytes of an IPv4 address (what [To4] yields), or the
    bytes of an address that is not one. *)
Inductive IP :=
  | V4 (a b c d : Z)
  | V6 (bytes : list Z).

#[export] Instance IP_eq_dec : EqDecision IP.
Proof. solve_decision. Defined.

(** A [*net.IPNet] whose mask is a prefix of [ones] bits. *)
Record IPNet := IPNet_ { nIP : IP; nOnes : Z }.

Definition isByte (z : Z) : Prop := 0 <= z < 256.

Definition ipOK (ip : IP) : Prop :=
  match ip with V4 a b c d => isByte a ∧ isByte b ∧ isByte c ∧ isByte d | V6 _ => True end.

Definition bitsOf (ip : IP) : Z := match ip with V4 _ _ _ _ => 32 | V6 _ => 128 end.

(** One decimal field of an IPv4 address: no leading zero, at most 255. *)
Definition parseOctet (s : string) : option Z :=
  if decide (s = "") then None
  else
    match digits s 0 with
    | Some v => if (v <=? 255) && bool_decide (s = Itoa v) then Some v else None
    | None => None
    end.

Definition parseIPv4 (s : string) : option IP :=
  match Split s "."%char with
  | [p; q; r; t] =>
      match parseOctet p, parseOctet q, parseOctet r, parseOctet t with
      | Some a, Some b, Some c, Some d => Some (V4 a b c d)
      | _, _, _, _ => None
      end
  | _ => None
  end.

(** [IP.String] of an IPv4 address; other addresses are printed by [formatIPv6]. *)
Definition formatIP (formatIPv6 : list Z → string) (ip : IP) : string :=
  match ip with
  | V4 a b c d => Itoa a ++ "." ++ Itoa b ++ "." ++ Itoa c ++ "." ++ Itoa d
  | V6 bytes => formatIPv6 bytes
  end%string.

(** The byte of a prefix mask that starts [n] bits before the prefix's end. *)
Definition maskByte (n : Z) : Z :=
  if 8 <=? n then 255
  else if n <=? 0 then 0
  else byte (Z.lnot (Z.shiftr 255 n)).

(** [ip.Mask(net.CIDRMask(ones, bits))]. *)
Definition maskIP (ones : Z) (ip : IP) : IP :=
  match ip with
  | V4 a b c d => V4 (Z.land a (maskByte ones)) (Z.land b (maskByte (ones - 8)))
                     (Z.land c (maskByte (ones - 16))) (Z.land d (maskByte (ones - 24)))
  | V6 bytes => V6 (imap (λ i x, Z.land x (maskByte (ones - 8 * Z.of_nat i))) bytes)
  end.

(** [ipnet.Contains(ip)]: both of one family, and equal under the mask. *)
Definition netContains (n : IPNet) (ip : IP) : bool :=
  bool_decide (bitsOf ip = bitsOf (nIP n)) &&
  bool_decide (maskIP (nOnes n) ip = maskIP (nOnes n) (nIP n)).

(** [IP.IsPrivate]: RFC 1918 and, for IPv6, fc00::/7. *)
Definition IsPrivate (ip : IP) : bool :=
  match ip with
  | V4 a b _ _ => (a =? 10) || ((a =? 172) && (Z.land b 240 =? 16)) || ((a =? 192) && (b =? 168))
  | V6 (x :: _) => Z.land x 254 =? 252
  | V6 [] => false
  end.

Section Net.
(** The IPv6 parser and printer, and the error of [ParseCIDR].  IPv4-mapped IPv6
    text (::ffff:a.b.c.d) is outside the model. *)
Context (parseIPv6 : string → option IP) (formatIPv6 : list Z → string).
Context (cidrError : string → error).

(** The first of '.' and ':' in the text decides the family. *)
Fixpoint ParseIP_from (rest s : string) : option IP :=
  match rest with
  | "" => None
  | String c rest' =>
      if Ascii.eqb c "."%char then parseIPv4 s
      else if Ascii.eqb c ":"%char then parseIPv6 s
      else ParseIP_from rest' s
  end%string.

Definition ParseIP (s : string) : option IP := ParseIP_from s s.

(** [net.ParseCIDR]: the address as written and its network. *)
Definition ParseCIDR (s : string) : result error (IP * IPNet) :=
  match Cut s "/" with
  | None => Err (cidrError s)
  | Some (addr, mask) =>
      match ParseIP addr with
      | None => Err (cidrError s)
      | Some ip =>
          if decide (mask = ""%string) then Err (cidrError s)
          else
            match digits mask 0 with
            | Some n => if n <=? bitsOf ip then Ok (ip, IPNet_ (maskIP n ip) n)
                        else Err (cidrError s)
            | None => Err (cidrError s)
            end
      end
  end.

Definition ipString (ip : IP) : string := formatIP formatIPv6 ip.

(** [ipnet.String()]. *)
Definition netString (n : IPNet) : string := (ipString (nIP n) ++ "/" ++ Itoa (nOnes n))%string.

(** ** [network.go] *)

(** [To4]; nil is [None]. *)
Definition To4 (ip : IP) : option IP :=
  match ip with V4 a b c d => Some (V4 a b c d) | V6 _ => None end.

Definition ipToInt (ip : option IP) : Z :=
  match ip ≫= To4 with
  | Some (V4 a b c d) =>
      Z.lor (Z.lor (Z.lor (uint32 (Z.shiftl a 24)) (uint32 (Z.shiftl b 16))) (uint32 (Z.shiftl c 8))) d
  | _ => 0
  end.

Definition intToIP (n : Z) : IP :=
  V4 (byte (Z.shiftr n 24)) (byte (Z.shiftr n 16)) (byte (Z.shiftr n 8)) (byte n).

Definition ComputeSubnetMask (subnet : string) : string :=
  match ParseCIDR subnet with
  | Err _ => ""
  | Ok (_, n) =>
      Itoa (maskByte (nOnes n)) ++ "." ++ Itoa (maskByte (nOnes n - 8)) ++ "." ++
      Itoa (maskByte (nOnes n - 16)) ++ "." ++ Itoa (maskByte (nOnes n - 24))
  end%string.

Definition ComputePrefixLength (subnet : string) : Z :=
  match ParseCIDR subnet with Err _ => 0 | Ok (_, n) => nOnes n end.

(** [1 << k] in an [int]: zero once the bit is shifted out. *)
Definition shl1 (k : Z) : Z := int64 (2 ^ k).

Definition CountHosts (ipnet : option IPNet) : Z :=
  match ipnet with
  | None => 0
  | Some n =>
      match To4 (nIP n) with
      | None => 0
      | Some _ =>
          let total := shl1 (bitsOf (nIP n) - nOnes n) in
          if total <=? 2 then total else int64 (total - 2)
      end
  end.

(** Both branches of the source compute the same address. *)
Definition ComputeIPv4Gateway (subnet : string) : result error string :=
  match ParseCIDR subnet with
  | Err e => Err e
  | Ok (_, n) =>
      let ip := To4 (nIP n) in
      if nOnes n =? 31 then Ok (ipString (intToIP (uint32 (ipToInt ip + 1))))
      else Ok (ipString (intToIP (uint32 (ipToInt ip + 1))))
  end.

Definition ComputeBridgeAddress (gateway subnet : string) : string :=
  (gateway ++ "/" ++ Itoa (ComputePrefixLength subnet))%string.

(** The loop [for i := start; i < end; i++]; the fuel is [end - start]. *)
Fixpoint allocLoop (fuel : nat) (i : Z) (ip : option IP) (gateway : string)
    (existing : gset string) : option string :=
  match fuel with
  | O => None
  | S f =>
      let n := uint32 (ipToInt ip + uint32 i) in
      let candidate := ipString (intToIP n) in
      if negb (bool_decide (gateway = ""%string)) && bool_decide (candidate = gateway)
      then allocLoop f (i + 1) ip gateway existing
      else if decide (candidate ∉ existing) then Some candidate
      else allocLoop f (i + 1) ip gateway existing
  end.

(** The range of host numbers tried. *)
Definition allocRange (n : IPNet) : Z * Z :=
  let total := shl1 (bitsOf (nIP n) - nOnes n) in
  if total <=? 2 then (0, total) else (1, int64 (total - 1)).

Definition AllocateNextIP (existingIPs : list string) (subnet gateway : string)
    : result error string :=
  match ParseCIDR subnet with
  | Err err => Err (Errorf ("invalid subnet " ++ subnet ++ ": " ++ Error err)%string (Some err))
  | Ok (_, n) =>
      let '(start, end_) := allocRange n in
      match allocLoop (Z.to_nat (end_ - start)) start (To4 (nIP n)) gateway
              (list_to_set existingIPs) with
      | Some candidate => Ok candidate
      | None => Err (EDomain (New CodeNetworkError
                  ("No available IPs in subnet " ++ subnet)%string []))
      end
  end.

(** [fmt.Sprintf("%x", sha256.Sum256([]byte(s)))]. *)
Context (sha256Hex : string → string).

(** None: slicing the name at a negative index panics. *)
Definition ComputeBridgeName (cliName networkName : string) : option string :=
  let raw := (cliName ++ "-" ++ networkName)%string in
  if decide (String.length raw <= 15)%nat then Some raw
  else
    let hashLen := 8 in
    let prefix := (cliName ++ "-")%string in
    let maxName := 15 - Z.of_nat (String.length prefix) - hashLen - 1 in
    nameTruncated ← (if Z.of_nat (String.length networkName) >? maxName
                     then (if maxName <? 0 then None else Some (stake (Z.to_nat maxName) networkName))
                     else Some networkName);
    Some (prefix ++ nameTruncated ++ "-" ++ stake 8 (sha256Hex networkName))%string.

Definition GenerateTAPName (cliName networkName vmName : string) : string :=
  (cliName ++ "-" ++ stake 11 (sha256Hex (networkName ++ "-" ++ vmName)))%string.

(** ** [validators.go]: networks *)

Definition notNil {A} (o : option A) : bool := match o with Some _ => true | None => false end.

(** Bytewise on the four bytes of the network address. *)
Definition networkRange (n : IPNet) : option (IP * IP) :=
  match To4 (nIP n) with
  | Some (V4 a b c d) =>
      let k := nOnes n in
      let last x m := Z.lor x (byte (Z.lnot m)) in
      Some (V4 a b c d, V4 (last a (maskByte k)) (last b (maskByte (k - 8)))
                           (last c (maskByte (k - 16))) (last d (maskByte (k - 24))))
  | _ => None
  end.

Definition ipBytes (ip : IP) : list Z := match ip with V4 a b c d => [a; b; c; d] | V6 l => l end.

Fixpoint cmpBytes (a b : list Z) : Z :=
  match a, b with
  | x :: a', y :: b' => if x <? y then -1 else if x >? y then 1 else cmpBytes a' b'
  | _, _ => 0
  end.

Definition ipCmp (a b : IP) : Z := cmpBytes (ipBytes a) (ipBytes b).

Definition cidrsOverlap (a b : IPNet) : bool :=
  match networkRange a, networkRange b with
  | Some (aFirst, aLast), Some (bFirst, bLast) =>
      (ipCmp aFirst bLast <=? 0) && (ipCmp bFirst aLast <=? 0)
  | _, _ => false
  end.

Definition invalid (msg : string) : error := EDomain (New CodeValidationFailed msg []).

Fixpoint overlapLoop (subnet : string) (newNet : IPNet) (existingSubnets : list string)
    : result error unit :=
  match existingSubnets with
  | [] => Ok ()
  | itemSubnet :: rest =>
      match ParseCIDR itemSubnet with
      | Err _ => overlapLoop subnet newNet rest
      | Ok (_, existingNet) =>
          if cidrsOverlap newNet existingNet
          then Err (EDomain (New CodeNetworkSubnetOverlap
                      ("subnet " ++ subnet ++ " overlaps with " ++ itemSubnet)%string []))
          else overlapLoop subnet newNet rest
      end
  end.

Definition SubnetNoOverlap (subnet : string) (existingSubnets : list string) : result error unit :=
  match ParseCIDR subnet with
  | Err err => Err (invalid ("invalid subnet: " ++ Error err)%string)
  | Ok (_, newNet) =>
      let inputIP := ParseIP (match Cut subnet "/" with Some (p, _) => p | None => subnet end) in
      if notNil inputIP && negb (bool_decide (inputIP = Some (nIP newNet)))
      then Err (invalid ("invalid subnet: '" ++ subnet ++ "' has host bits set (use strict=True)")%string)
      else overlapLoop subnet newNet existingSubnets
  end.

Definition Subnet (subnet : string) : result error string :=
  if decide (subnet = ""%string) then Err (invalid "invalid subnet: cannot be empty")
  else if Contains subnet " " then
    Err (invalid ("invalid subnet: '" ++ subnet ++ "' cannot contain spaces")%string)
  else
    match ParseCIDR subnet with
    | Err err => Err (invalid ("invalid subnet: '" ++ subnet ++ "' is not a valid IPv4 CIDR: " ++ Error err)%string)
    | Ok (_, ipnet) =>
        match To4 (nIP ipnet) with
        | None => Err (invalid ("invalid subnet: '" ++ subnet ++ "' is not a valid IPv4 CIDR: '" ++
                                subnet ++ "' does not appear to be an IPv4 network")%string)
        | Some _ => Ok (netString ipnet)
        end
    end.

Definition IPv4Gateway (gateway subnet : string) : result error string :=
  if decide (gateway = ""%string) then Err (invalid "invalid gateway: cannot be empty")
  else if Contains gateway " " then
    Err (invalid ("invalid gateway: '" ++ gateway ++ "' cannot contain spaces")%string)
  else
    match ParseIP gateway ≫= To4 with
    | None => Err (invalid ("invalid gateway: '" ++ gateway ++ "' is not a valid IPv4 address")%string)
    | Some parsed =>
        if negb (IsPrivate parsed) then
          Err (invalid ("invalid gateway: '" ++ gateway ++ "' must be a private/internal address. Use a subnet from RFC1918 ranges: 10.0.0.0/8, 172.16.0.0/12, or 192.168.0.0/16")%string)
        else
          match ParseCIDR subnet with
          | Err err => Err (invalid ("invalid subnet: " ++ Error err)%string)
          | Ok (_, ipnet) =>
              if negb (netContains ipnet parsed) then
                Err (invalid ("invalid gateway: '" ++ gateway ++ "' is not within subnet " ++ subnet)%string)
              else if decide (parsed = nIP ipnet) then
                Err (invalid ("invalid gateway: '" ++ gateway ++ "' is the network address of " ++ subnet)%string)
              else Ok (ipString parsed)
          end
    end.

Definition IPv4Address (ip fieldName : string) (requirePrivate : bool) (subnet gateway : string)
    : result error unit :=
  let fieldName := if decide (fieldName = "") then "IP address" else fieldName in
  let bad (what : string) : result error unit :=
    Err (invalid ("invalid " ++ fieldName ++ ": '" ++ ip ++ "' " ++ what)) in
  if decide (ip = "") then Err (invalid ("invalid " ++ fieldName ++ ": cannot be empty"))
  else if Contains ip " " then bad "cannot contain spaces"
  else
    match ParseIP ip ≫= To4 with
    | None => bad "is not a valid IPv4 address"
    | Some parsed =>
        if requirePrivate && negb (IsPrivate parsed) then bad "must be a private/internal address"
        else
          _ ← (if decide (subnet = "") then Ok ()
               else
                 match ParseCIDR subnet with
                 | Err err => Err (invalid ("invalid subnet: " ++ Error err))
                 | Ok (_, ipnet) =>
                     if negb (netContains ipnet parsed) then bad ("is not within subnet " ++ subnet)
                     else if decide (parsed = nIP ipnet) then bad ("is the network address of " ++ subnet)
                     else Ok ()
                 end);
          if decide (gateway = "") then Ok ()
          else if decide (ParseIP gateway = Some parsed) then bad "is the gateway address"
          else Ok ()
    end%string.
End Net.

(** ** Bytes and words *)

Lemma lor_shiftl a b n : 0 <= n → 0 <= b < 2 ^ n → Z.lor (Z.shiftl a n) b = a * 2 ^ n + b.
Proof.
  intros Hn Hb. assert (Z.land (Z.shiftl a n) b = 0) as Hl.
  { apply Z.bits_inj'. intros k Hk. rewrite Z.land_spec, Z.bits_0.
    destruct (Z.ltb_spec k n); [by rewrite Z.shiftl_spec_low|].
    replace b with (b mod 2 ^ n) by (by apply Z.mod_small).
    rewrite Z.mod_pow2_bits_high by lia. by rewrite andb_false_r. }
  pose proof (Z.add_lor_land (Z.shiftl a n) b) as E. rewrite Z.shiftl_mul_pow2 in * by done. lia.
Qed.

Lemma ipToInt_bytes a b c d :
  ipOK (V4 a b c d) → ipToInt (Some (V4 a b c d)) = a * 2 ^ 24 + b * 2 ^ 16 + c * 2 ^ 8 + d.
Proof.
  intros (Ha & Hb & Hc & Hd). unfold isByte in *. unfold ipToInt. simpl.
  set (R := a * 2 ^ 24 + b * 2 ^ 16 + c * 2 ^ 8 + d).
  rewrite !uint32_small by (rewrite Z.shiftl_mul_pow2; lia).
  rewrite (lor_shiftl a) by (rewrite ?Z.shiftl_mul_pow2; lia).
  rewrite Z.shiftl_mul_pow2 by lia.
  replace (a * 2 ^ 24 + b * 2 ^ 16) with (Z.shiftl (a * 2 ^ 8 + b) 16) by (rewrite Z.shiftl_mul_pow2; lia).
  rewrite lor_shiftl by (rewrite ?Z.shiftl_mul_pow2; lia). rewrite Z.shiftl_mul_pow2 by lia.
  replace ((a * 2 ^ 8 + b) * 2 ^ 16 + c * 2 ^ 8) with (Z.shiftl (a * 2 ^ 16 + b * 2 ^ 8 + c) 8)
    by (rewrite Z.shiftl_mul_pow2; lia).
  rewrite lor_shiftl by lia. subst R. lia.
Qed.

(** The four bytes of a word, as quotients and remainders. *)
Definition word32 (n : Z) : Prop := 0 <= n < 2 ^ 32.

Lemma intToIP_bytes n :
  word32 n →
  intToIP n = V4 (n / 2 ^ 24) (n / 2 ^ 16 mod 256) (n / 2 ^ 8 mod 256) (n mod 256).
Proof.
  intros Hn. unfold word32 in Hn. unfold intToIP, byte. rewrite !Z.shiftr_div_pow2 by lia.
  rewrite (Z.mod_small (n / 2 ^ 24)); [done|]. div_lia.
Qed.

Lemma intToIP_ok n : word32 n → ipOK (intToIP n).
Proof. intros Hn. rewrite intToIP_bytes by done. unfold word32, ipOK, isByte in *. div_lia. Qed.

Lemma ipToInt_intToIP n : word32 n → ipToInt (Some (intToIP n)) = n.
Proof.
  intros Hn. pose proof (intToIP_ok n Hn) as Hok. rewrite intToIP_bytes in * by done.
  rewrite ipToInt_bytes by done. unfold word32 in Hn. div_lia.
Qed.

Lemma ipToInt_word a b c d : ipOK (V4 a b c d) → word32 (ipToInt (Some (V4 a b c d))).
Proof.
  intros Hok. rewrite ipToInt_bytes by done. unfold ipOK, isByte, word32 in *. lia.
Qed.

Lemma intToIP_ipToInt a b c d :
  ipOK (V4 a b c d) → intToIP (ipToInt (Some (V4 a b c d))) = V4 a b c d.
Proof.
  intros Hok. rewrite intToIP_bytes by by apply ipToInt_word. rewrite ipToInt_bytes by done.
  unfold ipOK, isByte in Hok. f_equal; div_lia.
Qed.

(** ** Masks *)

(** A byte of the address under its byte of the mask, and the byte of the last
    address, for each length of the mask in the byte. *)
Lemma maskByte_spec x n :
  isByte x → 0 <= n <= 8 →
  Z.land x (maskByte n) = x / 2 ^ (8 - n) * 2 ^ (8 - n) ∧
  Z.lor (Z.land x (maskByte n)) (byte (Z.lnot (maskByte n))) =
    x / 2 ^ (8 - n) * 2 ^ (8 - n) + (2 ^ (8 - n) - 1).
Proof.
  intros Hx Hn.
  assert (forallb (λ x, forallb (λ n,
    (Z.land x (maskByte n) =? x / 2 ^ (8 - n) * 2 ^ (8 - n)) &&
    (Z.lor (Z.land x (maskByte n)) (byte (Z.lnot (maskByte n))) =?
      x / 2 ^ (8 - n) * 2 ^ (8 - n) + (2 ^ (8 - n) - 1))) (seqZ 0 9)) (seqZ 0 256) = true) as H
    by (vm_compute; reflexivity).
  rewrite forallb_forall in H. specialize (H x). rewrite <-list_elem_of_In, elem_of_seqZ in H.
  unfold isByte in Hx. specialize (H ltac:(lia)). rewrite forallb_forall in H. specialize (H n).
  rewrite <-list_elem_of_In, elem_of_seqZ in H. specialize (H ltac:(lia)).
  apply andb_prop in H as [H1%Z.eqb_eq H2%Z.eqb_eq]. done.
Qed.

Lemma maskByte_clamp n : maskByte n = maskByte (Z.max 0 (Z.min 8 n)).
Proof.
  unfold maskByte. destruct (Z.leb_spec 8 n).
  - rewrite Z.min_l, Z.max_r by lia. done.
  - rewrite Z.min_r by lia. destruct (Z.leb_spec n 0); [by rewrite Z.max_l by lia|].
    rewrite Z.max_r by lia. destruct (Z.leb_spec 8 n); [lia|]. by destruct (Z.leb_spec n 0); [lia|].
Qed.

(** The last address of a byte-wise range. *)
Definition lastIP (k : Z) (ip : IP) : IP :=
  match ip with
  | V4 a b c d =>
      let last x m := Z.lor x (byte (Z.lnot m)) in
      V4 (last a (maskByte k)) (last b (maskByte (k - 8)))
         (last c (maskByte (k - 16))) (last d (maskByte (k - 24)))
  | V6 l => V6 l
  end.

(** The network address and the last address of a subnet, as words. *)
Lemma mask_word k a b c d :
  ipOK (V4 a b c d) → 0 <= k <= 32 →
  let n := ipToInt (Some (V4 a b c d)) in
  ipOK (maskIP k (V4 a b c d)) ∧ ipOK (lastIP k (maskIP k (V4 a b c d))) ∧
  ipToInt (Some (maskIP k (V4 a b c d))) = n / 2 ^ (32 - k) * 2 ^ (32 - k) ∧
  ipToInt (Some (lastIP k (maskIP k (V4 a b c d)))) =
    n / 2 ^ (32 - k) * 2 ^ (32 - k) + (2 ^ (32 - k) - 1).
Proof.
  intros Hok Hk n. subst n. rewrite ipToInt_bytes by done. destruct Hok as (Ha & Hb & Hc & Hd).
  assert (∃ i, k = i ∧ i ∈ seqZ 0 33) as (i & -> & Hi) by (exists k; rewrite elem_of_seqZ; lia).
  unfold maskIP, lastIP.
  rewrite (maskByte_clamp i), (maskByte_clamp (i - 8)), (maskByte_clamp (i - 16)), (maskByte_clamp (i - 24)).
  destruct (maskByte_spec a (Z.max 0 (Z.min 8 i)) Ha ltac:(lia)) as [Ea Ea'].
  destruct (maskByte_spec b (Z.max 0 (Z.min 8 (i - 8))) Hb ltac:(lia)) as [Eb Eb'].
  destruct (maskByte_spec c (Z.max 0 (Z.min 8 (i - 16))) Hc ltac:(lia)) as [Ec Ec'].
  destruct (maskByte_spec d (Z.max 0 (Z.min 8 (i - 24))) Hd ltac:(lia)) as [Ed Ed'].
  rewrite Ea', Eb', Ec', Ed', Ea, Eb, Ec, Ed. clear Ea Eb Ec Ed Ea' Eb' Ec' Ed' Hk.
  unfold isByte in *.
  assert (∀ p q r s, isByte p → isByte q → isByte r → isByte s → ipOK (V4 p q r s)) as Hmk by done.
  repeat (apply elem_of_cons in Hi as [->|Hi]); [..|by apply elem_of_nil in Hi].
  all: simpl Z.max; simpl Z.min.
  all: split_and!; try (apply Hmk; unfold isByte; div_lia);
    (rewrite ipToInt_bytes by (apply Hmk; unfold isByte; div_lia)); div_lia.
Qed.

(** ** Text *)

Lemma digits_nonneg s acc v : 0 <= acc → digits s acc = Some v → 0 <= v.
Proof.
  revert acc. induction s as [|c s IH]; intros acc Hacc; simpl; [by intros [= <-]|].
  destruct (isDigit c) eqn:Hc; [|done]. apply IH. unfold isDigit in Hc.
  apply andb_prop in Hc as [Hc%Nat.leb_le _]. lia.
Qed.

Lemma parseOctet_ok s v : parseOctet s = Some v → isByte v.
Proof.
  unfold parseOctet, isByte. case_decide; [done|]. destruct (digits s 0) as [w|] eqn:E; [|done].
  apply digits_nonneg in E; [|done]. destruct (Z.leb_spec w 255); simpl; [|done].
  case_bool_decide; [|done]. intros [= <-]. lia.
Qed.

Lemma parseIPv4_ok s ip : parseIPv4 s = Some ip → ipOK ip ∧ bitsOf ip = 32.
Proof.
  unfold parseIPv4. destruct (Split s _) as [|p [|q [|r [|u [|]]]]]; try done.
  destruct (parseOctet p) eqn:Ep, (parseOctet q) eqn:Eq, (parseOctet r) eqn:Er, (parseOctet u) eqn:Eu;
    try done. intros [= <-]. split; [simpl|done]. split_and!; by eapply parseOctet_ok.
Qed.

(** Every byte prints as digits that parse back to it. *)
Definition dotFree (s : string) : bool :=
  allChars (λ c, negb (Ascii.eqb c "."%char) && negb (Ascii.eqb c ":"%char)) s.

Lemma octet_text v : isByte v → parseOctet (Itoa v) = Some v ∧ dotFree (Itoa v) = true.
Proof.
  intros Hv.
  assert (forallb (λ v, bool_decide (parseOctet (Itoa v) = Some v) && dotFree (Itoa v)) (seqZ 0 256) = true)
    as H by (vm_compute; reflexivity).
  rewrite forallb_forall in H. specialize (H v). rewrite <-list_elem_of_In, elem_of_seqZ in H.
  unfold isByte in Hv. specialize (H ltac:(lia)). apply andb_prop in H as [H1%bool_decide_eq_true H2]. done.
Qed.

Lemma Split_sep s t : dotFree s = true → Split (s ++ "." ++ t) "."%char = (s :: Split t "."%char)%list.
Proof.
  induction s as [|c s IH]; intros Hs; [done|]. unfold dotFree in Hs. simpl in Hs.
  apply andb_prop in Hs as [Hc Hs]. apply andb_prop in Hc as [Hc _]. apply negb_true_iff in Hc.
  rewrite sapp_cons. simpl. rewrite Hc. by rewrite IH.
Qed.

Lemma Split_none s : dotFree s = true → Split s "."%char = [s].
Proof.
  induction s as [|c s IH]; intros Hs; [done|]. unfold dotFree in Hs. simpl in Hs.
  apply andb_prop in Hs as [Hc Hs]. apply andb_prop in Hc as [Hc _]. apply negb_true_iff in Hc.
  simpl. rewrite Hc. by rewrite IH.
Qed.

Section Text.
Context (parseIPv6 : string → option IP) (formatIPv6 : list Z → string).

Lemma ParseIP_from_dot s t full :
  dotFree s = true → ParseIP_from parseIPv6 (s ++ "." ++ t) full = parseIPv4 full.
Proof.
  induction s as [|c s IH]; intros Hs; [done|]. unfold dotFree in Hs. simpl in Hs.
  apply andb_prop in Hs as [Hc Hs]. apply andb_prop in Hc as [Hc1 Hc2].
  apply negb_true_iff in Hc1, Hc2. rewrite sapp_cons. simpl. rewrite Hc1, Hc2. by apply IH.
Qed.

Lemma parse_format a b c d :
  ipOK (V4 a b c d) → ParseIP parseIPv6 (ipString formatIPv6 (V4 a b c d)) = Some (V4 a b c d).
Proof.
  intros (Ha & Hb & Hc & Hd).
  destruct (octet_text a Ha) as [Pa Da], (octet_text b Hb) as [Pb Db],
    (octet_text c Hc) as [Pc Dc], (octet_text d Hd) as [Pd Dd].
  unfold ParseIP, ipString, formatIP. rewrite ParseIP_from_dot by done.
  unfold parseIPv4. rewrite !Split_sep, Split_none by done. by rewrite Pa, Pb, Pc, Pd.
Qed.

(** Addresses survive their encodings: an IPv4 address is read back from its
    text and from its number, and every 32-bit number is read back from the
    address it stands for. *)
Lemma IPv4_roundtrips :
  (∀ a b c d, ipOK (V4 a b c d) →
    ParseIP parseIPv6 (ipString formatIPv6 (V4 a b c d)) = Some (V4 a b c d) ∧
    intToIP (ipToInt (Some (V4 a b c d))) = V4 a b c d) ∧
  (∀ n, 0 <= n < 2 ^ 32 → ipToInt (Some (intToIP n)) = n).
Proof.
  split; [|exact ipToInt_intToIP]. intros a b c d Hok.
  split; [by apply parse_format|by apply intToIP_ipToInt].
Qed.

(** The text of a word determines it, and is never empty. *)
Definition addr (x : Z) : string := ipString formatIPv6 (intToIP x).

Lemma addr_inj x y : word32 x → word32 y → addr x = addr y → x = y.
Proof.
  intros Hx Hy E. rewrite <-(ipToInt_intToIP x), <-(ipToInt_intToIP y) by done. f_equal.
  unfold addr in E. pose proof (intToIP_ok x Hx) as Ox. pose proof (intToIP_ok y Hy) as Oy.
  rewrite (intToIP_bytes x), (intToIP_bytes y) in * by done.
  rewrite <-(parse_format _ _ _ _ Ox), <-(parse_format _ _ _ _ Oy). by rewrite E.
Qed.

Lemma addr_nonempty x : addr x ≠ "".
Proof. unfold addr, ipString, formatIP, intToIP. by destruct (Itoa _). Qed.
End Text.

(** ** Subnets *)

(** An IPv4 network as [ParseCIDR] makes them. *)
Definition netOK (n : IPNet) : Prop :=
  0 <= nOnes n <= 32 ∧ ∃ a b c d, ipOK (V4 a b c d) ∧ nIP n = maskIP (nOnes n) (V4 a b c d).

Definition base (n : IPNet) : Z := ipToInt (Some (nIP n)).
Definition netSize (n : IPNet) : Z := 2 ^ (32 - nOnes n).

Lemma netSize_bounds n : netOK n → 1 <= netSize n <= 2 ^ 32.
Proof.
  intros [Hk _]. unfold netSize. split.
  - pose proof (Z.pow_pos_nonneg 2 (32 - nOnes n)). lia.
  - apply Z.pow_le_mono_r; lia.
Qed.

(** The base is aligned to the size, and the whole range fits in a word. *)
Lemma base_spec n :
  netOK n → base n mod netSize n = 0 ∧ 0 <= base n ∧ base n + netSize n <= 2 ^ 32 ∧
  ∃ a b c d, nIP n = V4 a b c d ∧ ipOK (V4 a b c d).
Proof.
  intros Hok. pose proof (netSize_bounds n Hok) as Hs. destruct Hok as (Hk & a & b & c & d & Hip & E).
  destruct (mask_word (nOnes n) a b c d Hip Hk) as (Hm & _ & Hb & _).
  pose proof (ipToInt_word a b c d Hip) as Hw. unfold base, netSize in *. rewrite E, Hb.
  set (w := ipToInt (Some (V4 a b c d))) in *. set (s := 2 ^ (32 - nOnes n)) in *. unfold word32 in Hw.
  assert (∃ q, 2 ^ 32 = q * s) as [q Hq].
  { exists (2 ^ nOnes n). subst s. rewrite <-Z.pow_add_r by lia. f_equal. lia. }
  split_and!; [by rewrite Z.mod_mul by lia| | |].
  - apply Z.mul_nonneg_nonneg; [apply Z.div_pos; lia|lia].
  - assert (w / s < q) as Hlt by (apply Z.div_lt_upper_bound; lia). nia.
  - simpl in *. eauto 10.
Qed.

(** Membership under the mask is membership in the range. *)
Lemma netContains_range n a b c d :
  netOK n → ipOK (V4 a b c d) →
  netContains n (V4 a b c d) = true ↔
  base n <= ipToInt (Some (V4 a b c d)) < base n + netSize n.
Proof.
  intros Hn Hip. pose proof (netSize_bounds n Hn) as Hs.
  destruct (base_spec n Hn) as (Hmod & _ & _ & a' & b' & c' & d' & E & Hok').
  destruct Hn as [Hk _]. unfold netContains. rewrite E. simpl bitsOf.
  rewrite (bool_decide_true (32 = 32)) by done. simpl andb. rewrite bool_decide_eq_true.
  destruct (mask_word (nOnes n) a b c d Hip Hk) as (Hm & _ & Hw & _).
  destruct (mask_word (nOnes n) a' b' c' d' Hok' Hk) as (Hm' & _ & Hw' & _).
  assert (base n = ipToInt (Some (V4 a' b' c' d'))) as Hb by (unfold base; by rewrite E).
  rewrite <-Hb in Hw'. change (2 ^ (32 - nOnes n)) with (netSize n) in Hw, Hw'.
  assert (ipToInt (Some (maskIP (nOnes n) (V4 a' b' c' d'))) = base n) as Hbb.
  { rewrite Hw'. pose proof (Z.div_mod (base n) (netSize n) ltac:(lia)). lia. }
  set (x := ipToInt (Some (V4 a b c d))) in *.
  assert (maskIP (nOnes n) (V4 a b c d) = maskIP (nOnes n) (V4 a' b' c' d') ↔
    x / netSize n * netSize n = base n) as ->.
  { rewrite <-Hw, <-Hbb. split; [by intros ->|]. intros Ei.
    transitivity (intToIP (ipToInt (Some (maskIP (nOnes n) (V4 a b c d)))));
      [symmetry; apply intToIP_ipToInt, Hm|].
    rewrite Ei. apply intToIP_ipToInt, Hm'. }
  pose proof (Z.div_mod x (netSize n) ltac:(lia)).
  pose proof (Z.mod_pos_bound x (netSize n) ltac:(lia)).
  split; [lia|]. intros Hr.
  assert (x / netSize n = base n / netSize n) as ->.
  { symmetry. apply Z.div_unique with (x - base n); [left; lia|].
    pose proof (Z.div_mod (base n) (netSize n) ltac:(lia)). lia. }
  pose proof (Z.div_mod (base n) (netSize n) ltac:(lia)). lia.
Qed.

(** ** Allocation *)

Section Alloc.
Context (parseIPv6 : string → option IP) (formatIPv6 : list Z → string) (cidrError : string → error).
Context (parseIPv6_V6 : ∀ s ip, parseIPv6 s = Some ip → bitsOf ip = 128).

#[local] Notation addr := (addr formatIPv6).
#[local] Notation ParseCIDR := (ParseCIDR parseIPv6 cidrError).
#[local] Notation AllocateNextIP := (AllocateNextIP parseIPv6 formatIPv6 cidrError).

Lemma ParseIP_v4 s ip : ParseIP parseIPv6 s = Some ip → bitsOf ip = 32 → ipOK ip.
Proof.
  unfold ParseIP. generalize s at 1. induction s0 as [|c r IH]; [done|].
  simpl. destruct (Ascii.eqb c "."%char); [intros H _; by apply parseIPv4_ok in H as [? _]|].
  destruct (Ascii.eqb c ":"%char); [|done]. intros H%parseIPv6_V6 ?. lia.
Qed.

Lemma ParseCIDR_netOK s ip n : ParseCIDR s = Ok (ip, n) → bitsOf (nIP n) = 32 → netOK n.
Proof.
  unfold IPNet.ParseCIDR. destruct (Cut s "/") as [[a m]|]; [|done].
  destruct (ParseIP parseIPv6 a) as [ip'|] eqn:Ep; [|done]. case_decide; [done|].
  destruct (digits m 0) as [k|] eqn:Ek; [|done]. destruct (Z.leb_spec k (bitsOf ip')); [|done].
  intros [= <- <-] H32. simpl in *. apply digits_nonneg in Ek; [|done].
  destruct ip' as [a' b' c' d'|l]; [|done]. split; [simpl in *; lia|].
  exists a', b', c', d'. split; [|done]. by apply ParseIP_v4 in Ep.
Qed.

(** The usable addresses of a subnet, as words. *)
Definition firstUsable (n : IPNet) : Z := if netSize n <=? 2 then base n else base n + 1.
Definition usableCount (n : IPNet) : Z := if netSize n <=? 2 then netSize n else netSize n - 2.
Definition usable (n : IPNet) (x : Z) : Prop := firstUsable n <= x < firstUsable n + usableCount n.

(** An address that [AllocateNextIP] may hand out. *)
Definition free (existing : list string) (gateway : string) (x : Z) : Prop :=
  addr x ∉ existing ∧ addr x ≠ gateway.

Lemma usable_word n x : netOK n → usable n x → base n <= x < base n + netSize n ∧ word32 x.
Proof.
  intros Hn. pose proof (netSize_bounds n Hn). destruct (base_spec n Hn) as (_ & ? & ? & _).
  unfold usable, firstUsable, usableCount, word32. destruct (Z.leb_spec (netSize n) 2); lia.
Qed.

Lemma shl1_size n : netOK n → shl1 (32 - nOnes n) = netSize n.
Proof.
  intros Hn. pose proof (netSize_bounds n Hn). unfold shl1, netSize in *.
  rewrite int64_small; [done|]. unfold minInt, maxInt in *. lia.
Qed.

Lemma netOK_bits n : netOK n → bitsOf (nIP n) = 32.
Proof. by intros (_ & a & b & c & d & _ & ->). Qed.

Lemma allocRange_spec n :
  netOK n → allocRange n = (firstUsable n - base n, firstUsable n - base n + usableCount n).
Proof.
  intros Hn. pose proof (netSize_bounds n Hn). unfold allocRange, firstUsable, usableCount.
  rewrite (netOK_bits n), (shl1_size n) by done. destruct (Z.leb_spec (netSize n) 2).
  - f_equal; lia.
  - rewrite int64_small by (unfold minInt, maxInt; lia). f_equal; lia.
Qed.

(** [CountHosts] counts the usable addresses. *)
Lemma CountHosts_usable n : netOK n → CountHosts (Some n) = usableCount n.
Proof.
  intros Hn. pose proof (netSize_bounds n Hn). unfold CountHosts, usableCount.
  destruct (base_spec n Hn) as (_ & _ & _ & a & b & c & d & E & _).
  rewrite (netOK_bits n), (shl1_size n) by done. rewrite E. simpl.
  destruct (Z.leb_spec (netSize n) 2); [done|].
  rewrite int64_small; [done|]. unfold minInt, maxInt. lia.
Qed.

(** The loop returns the first free address of the remaining range, if any. *)
Lemma allocLoop_spec existing gateway n fuel i :
  netOK n → 0 <= i → base n + i + Z.of_nat fuel <= 2 ^ 32 →
  match allocLoop formatIPv6 fuel i (To4 (nIP n)) gateway (list_to_set existing) with
  | Some s => ∃ x, s = addr x ∧ base n + i <= x < base n + i + Z.of_nat fuel ∧
      free existing gateway x ∧ ∀ y, base n + i <= y < x → ¬ free existing gateway y
  | None => ∀ y, base n + i <= y < base n + i + Z.of_nat fuel → ¬ free existing gateway y
  end.
Proof.
  intros Hn. destruct (base_spec n Hn) as (_ & Hb & _ & a & b & c & d & E & _).
  assert (ipToInt (To4 (nIP n)) = base n) as Eb by (unfold base; by rewrite E).
  revert i. induction fuel as [|fuel IH]; intros i Hi Hle; cbn [allocLoop]; [intros; lia|].
  rewrite Eb, (uint32_small i), (uint32_small (base n + i)) by lia.
  change (ipString formatIPv6 (intToIP (base n + i))) with (addr (base n + i)).
  assert (¬ free existing gateway (base n + i) →
    match allocLoop formatIPv6 fuel (i + 1) (To4 (nIP n)) gateway (list_to_set existing) with
    | Some s => ∃ x, s = addr x ∧ base n + i <= x < base n + i + Z.of_nat (S fuel) ∧
        free existing gateway x ∧ ∀ y, base n + i <= y < x → ¬ free existing gateway y
    | None => ∀ y, base n + i <= y < base n + i + Z.of_nat (S fuel) → ¬ free existing gateway y
    end) as Hskip.
  { intros Hno. specialize (IH (i + 1) ltac:(lia) ltac:(lia)).
    assert (∀ y, base n + i <= y → y ≠ base n + i → base n + (i + 1) <= y) as Hnext by lia.
    destruct (allocLoop _ _ _ _ _ _) as [s|].
    - destruct IH as (x & -> & Hx & Hf & Hlow). exists x. split_and!; [done|lia|lia|done|].
      intros y Hy. destruct (decide (y = base n + i)) as [->|]; [done|]. apply Hlow; lia.
    - intros y Hy. destruct (decide (y = base n + i)) as [->|]; [done|]. apply IH; lia. }
  destruct (negb (bool_decide (gateway = ""%string)) && bool_decide (addr (base n + i) = gateway)) eqn:Eg.
  { apply Hskip. intros [_ Hg]. apply andb_prop in Eg as [_ Eg%bool_decide_eq_true]. done. }
  destruct (decide (addr (base n + i) ∉ (list_to_set existing : gset string))) as [Hin|Hin].
  - exists (base n + i). split_and!; [done|lia|lia| |lia].
    split; [by rewrite elem_of_list_to_set in Hin|]. intros Hg.
    pose proof (addr_nonempty formatIPv6 (base n + i)) as Hne. rewrite Hg in Hne.
    rewrite Hg, !bool_decide_false, bool_decide_true in Eg by done. done.
  - apply Hskip. intros [Hnin _]. apply Hin. by rewrite elem_of_list_to_set.
Qed.

(** The lowest free usable address, or none when there is none. *)
Lemma AllocateNextIP_spec existing subnet gateway ip n :
  ParseCIDR subnet = Ok (ip, n) → netOK n →
  match AllocateNextIP existing subnet gateway with
  | Ok s => ∃ x, s = addr x ∧ usable n x ∧ free existing gateway x ∧
      ∀ y, usable n y → y < x → ¬ free existing gateway y
  | Err _ => ∀ y, usable n y → ¬ free existing gateway y
  end.
Proof.
  intros Ep Hn. pose proof (netSize_bounds n Hn). destruct (base_spec n Hn) as (_ & ? & ? & _).
  unfold IPNet.AllocateNextIP. rewrite Ep, (allocRange_spec n Hn).
  assert (0 <= firstUsable n - base n ∧ 0 <= usableCount n ∧
    firstUsable n + usableCount n <= 2 ^ 32) as (Hf & Hc & Hle).
  { unfold firstUsable, usableCount. destruct (Z.leb_spec (netSize n) 2); lia. }
  replace (firstUsable n - base n + usableCount n - (firstUsable n - base n)) with (usableCount n) by lia.
  pose proof (allocLoop_spec existing gateway n (Z.to_nat (usableCount n)) (firstUsable n - base n)
    Hn Hf ltac:(lia)) as Hspec.
  replace (base n + (firstUsable n - base n)) with (firstUsable n) in Hspec by lia.
  rewrite Z2Nat.id in Hspec by done. unfold usable. destruct (allocLoop _ _ _ _ _ _) as [s|]; [|done].
  destruct Hspec as (x & -> & Hx & Hfree & Hlow). exists x. split_and!; [done|lia|lia|done|].
  intros y Hy Hlt. apply Hlow; lia.
Qed.

Lemma usable_contains n x : netOK n → usable n x → netContains n (intToIP x) = true.
Proof.
  intros Hn Hx. destruct (usable_word n x Hn Hx) as [Hr Hw].
  pose proof (intToIP_ok x Hw) as Hok. pose proof (ipToInt_intToIP x Hw) as Hi.
  unfold intToIP in *. apply netContains_range; [done|done|]. by rewrite Hi.
Qed.

(** C31. [AllocateNextIP] gives out the lowest usable address of the subnet that is
    neither leased nor the gateway, and fails only when there is none.  The
    usable addresses of a subnet are all of it for a /31 and a /32, and all but
    the network and broadcast addresses otherwise; all lie in the subnet. *)
Theorem AllocateNextIP_lowest existing subnet gateway ip n :
  ParseCIDR subnet = Ok (ip, n) → bitsOf (nIP n) = 32 →
  (∀ x, usable n x → netContains n (intToIP x) = true) ∧
  match AllocateNextIP existing subnet gateway with
  | Ok s => ∃ x, s = addr x ∧ usable n x ∧ free existing gateway x ∧
      ∀ y, usable n y → y < x → ¬ free existing gateway y
  | Err _ => ∀ y, usable n y → ¬ free existing gateway y
  end.
Proof.
  intros Ep H32. pose proof (ParseCIDR_netOK _ _ _ Ep H32) as Hn. split.
  - intros x. by apply usable_contains.
  - by eapply AllocateNextIP_spec.
Qed.

Lemma usable_texts n :
  netOK n → NoDup (addr <$> seqZ (firstUsable n) (usableCount n)).
Proof.
  intros Hn. apply NoDup_fmap_2_strong; [|apply NoDup_seqZ].
  intros x y Hx%elem_of_seqZ Hy%elem_of_seqZ E.
  apply (addr_inj parseIPv6 formatIPv6); [by apply (usable_word n x)|by apply (usable_word n y)|done].
Qed.

(** While fewer addresses are taken than [CountHosts] counts, leases and the
    gateway together, allocation succeeds. *)
Lemma AllocateNextIP_available existing subnet gateway ip n :
  ParseCIDR subnet = Ok (ip, n) → bitsOf (nIP n) = 32 →
  Z.of_nat (length existing) + (if decide (gateway = ""%string) then 0 else 1) < CountHosts (Some n) →
  ∃ s, AllocateNextIP existing subnet gateway = Ok s.
Proof.
  intros Ep H32. pose proof (ParseCIDR_netOK _ _ _ Ep H32) as Hn.
  rewrite CountHosts_usable by done. intros Hlt.
  pose proof (AllocateNextIP_spec existing subnet gateway ip n Ep Hn) as Hspec.
  destruct (AllocateNextIP existing subnet gateway) as [s|e]; [by exists s|]. exfalso.
  set (taken := ((if decide (gateway = ""%string) then [] else [gateway]) ++ existing)%list).
  assert (Z.of_nat (length taken) < usableCount n) as Hlen.
  { subst taken. rewrite length_app. case_decide; simpl; lia. }
  assert (addr <$> seqZ (firstUsable n) (usableCount n) ⊆+ taken) as Hsub.
  { apply NoDup_submseteq; [by apply usable_texts|].
    intros s (x & -> & Hx%elem_of_seqZ)%list_elem_of_fmap.
    pose proof (Hspec x Hx) as Hno. unfold free in Hno. subst taken. apply elem_of_app.
    destruct (decide (addr x ∈ existing)) as [?|Hnin]; [by right|]. left.
    destruct (decide (addr x = gateway)) as [<-|Hg]; [|by exfalso; auto].
    rewrite decide_False by apply addr_nonempty. by apply list_elem_of_singleton. }
  apply submseteq_length in Hsub. rewrite length_fmap, length_seqZ in Hsub. lia.
Qed.

(** ** Overlap *)

Lemma cmp_byte x y (r : Z) (R : Prop) :
  (r <= 0 ↔ R) →
  ((if x <? y then -1 else if x >? y then 1 else r) <= 0 ↔ x < y ∨ x = y ∧ R).
Proof.
  intros <-. destruct (Z.ltb_spec x y); [lia|]. rewrite Z.gtb_ltb. destruct (Z.ltb_spec y x); lia.
Qed.

(** The bytewise order of addresses is the order of their numbers. *)
Lemma ipCmp_le a b c d a' b' c' d' :
  ipOK (V4 a b c d) → ipOK (V4 a' b' c' d') →
  ipCmp (V4 a b c d) (V4 a' b' c' d') <= 0 ↔
  ipToInt (Some (V4 a b c d)) <= ipToInt (Some (V4 a' b' c' d')).
Proof.
  intros Hok Hok'. rewrite !ipToInt_bytes by done. unfold ipCmp, ipOK, isByte in *. simpl.
  rewrite (cmp_byte a a' _ _ (cmp_byte b b' _ _ (cmp_byte c c' _ _ (cmp_byte d d' 0 True ltac:(lia))))).
  lia.
Qed.

Lemma networkRange_spec n :
  netOK n → ∃ a b c d a' b' c' d',
    networkRange n = Some (V4 a b c d, V4 a' b' c' d') ∧
    ipOK (V4 a b c d) ∧ ipOK (V4 a' b' c' d') ∧
    ipToInt (Some (V4 a b c d)) = base n ∧
    ipToInt (Some (V4 a' b' c' d')) = base n + netSize n - 1.
Proof.
  intros (Hk & a & b & c & d & Hok & E).
  destruct (mask_word (nOnes n) a b c d Hok Hk) as (Hm & Hl & Hw & Hwl).
  unfold networkRange, base, netSize. rewrite E. simpl maskIP in *. simpl To4. simpl lastIP in *.
  do 8 eexists. split; [done|]. split_and!; [done..| |].
  - done.
  - rewrite Hw, Hwl. lia.
Qed.

(** Two subnets overlap exactly when they share an address. *)
Lemma cidrsOverlap_iff m n :
  netOK m → netOK n →
  cidrsOverlap m n = true ↔
  ∃ x, word32 x ∧ netContains m (intToIP x) = true ∧ netContains n (intToIP x) = true.
Proof.
  intros Hm Hn.
  destruct (networkRange_spec m Hm) as (a & b & c & d & a' & b' & c' & d' & Em & O1 & O2 & F1 & L1).
  destruct (networkRange_spec n Hn) as (e & f & g & h & e' & f' & g' & h' & En & O3 & O4 & F2 & L2).
  unfold cidrsOverlap. rewrite Em, En, andb_true_iff, !Z.leb_le, !ipCmp_le, F1, F2, L1, L2 by done.
  pose proof (netSize_bounds m Hm). pose proof (netSize_bounds n Hn).
  destruct (base_spec m Hm) as (_ & ? & ? & _), (base_spec n Hn) as (_ & ? & ? & _).
  assert (∀ k x, netOK k → word32 x →
    (netContains k (intToIP x) = true ↔ base k <= x < base k + netSize k)) as Hin.
  { intros k x Hk Hx. pose proof (intToIP_ok x Hx). rewrite <-(ipToInt_intToIP x Hx) at 2 3.
    unfold intToIP in *. by apply netContains_range. }
  split.
  - intros [? ?]. exists (Z.max (base m) (base n)).
    assert (word32 (Z.max (base m) (base n))) as Hw by (unfold word32; lia).
    rewrite !Hin by done. split; [done|lia].
  - intros (x & Hw & Hx1 & Hx2). rewrite Hin in Hx1, Hx2 by done. lia.
Qed.

Lemma overlapLoop_ok subnet newNet existing :
  overlapLoop parseIPv6 cidrError subnet newNet existing = Ok () →
  ∀ s ip n, s ∈ existing → ParseCIDR s = Ok (ip, n) → cidrsOverlap newNet n = false.
Proof.
  induction existing as [|t rest IH]; simpl; [by intros _ s ? ? ?%elem_of_nil|].
  destruct (IPNet.ParseCIDR parseIPv6 cidrError t) as [[ip' n']|e] eqn:Et.
  - destruct (cidrsOverlap newNet n') eqn:Eo; [done|].
    intros Hl s ip n [->|Hs]%elem_of_cons Ep; [|by eapply IH]. congruence.
  - intros Hl s ip n [->|Hs]%elem_of_cons Ep; [congruence|]. by eapply IH.
Qed.

Lemma overlapLoop_overlap subnet newNet existing :
  (∀ s ip n, s ∈ existing → ParseCIDR s = Ok (ip, n) → cidrsOverlap newNet n = false) →
  overlapLoop parseIPv6 cidrError subnet newNet existing = Ok ().
Proof.
  induction existing as [|t rest IH]; simpl; intros Hno; [done|].
  destruct (IPNet.ParseCIDR parseIPv6 cidrError t) as [[ip' n']|e] eqn:Et.
  - rewrite (Hno t ip' n') by (done || apply elem_of_cons; auto).
    apply IH. intros. eapply Hno; [apply elem_of_cons; eauto|done].
  - apply IH. intros. eapply Hno; [apply elem_of_cons; eauto|done].
Qed.

(** [SubnetNoOverlap] accepts a subnet without host bits exactly when no
    address lies both in it and in an existing IPv4 subnet; existing entries
    that do not parse are skipped. *)
Lemma SubnetNoOverlap_disjoint subnet existing ip n :
  ParseCIDR subnet = Ok (ip, n) → bitsOf (nIP n) = 32 →
  ParseIP parseIPv6 (match Cut subnet "/" with Some (p, _) => p | None => subnet end) = Some (nIP n) →
  (∀ s ip' m, s ∈ existing → ParseCIDR s = Ok (ip', m) → bitsOf (nIP m) = 32) →
  SubnetNoOverlap parseIPv6 cidrError subnet existing = Ok () ↔
  ∀ s ip' m, s ∈ existing → ParseCIDR s = Ok (ip', m) →
    ¬ ∃ x, word32 x ∧ netContains n (intToIP x) = true ∧ netContains m (intToIP x) = true.
Proof.
  intros Ep H32 Ehost Hex. pose proof (ParseCIDR_netOK _ _ _ Ep H32) as Hn.
  unfold SubnetNoOverlap. rewrite Ep, Ehost, bool_decide_true by done. simpl.
  assert (∀ s ip' m, s ∈ existing → ParseCIDR s = Ok (ip', m) →
    cidrsOverlap n m = false ↔
    ¬ ∃ x, word32 x ∧ netContains n (intToIP x) = true ∧ netContains m (intToIP x) = true) as Hov.
  { intros s ip' m Hs Es. rewrite <-cidrsOverlap_iff, not_true_iff_false; [done|done|].
    by eapply ParseCIDR_netOK, Hex. }
  split.
  - intros Hl s ip' m Hs Es. rewrite <-Hov by done. by eapply overlapLoop_ok.
  - intros Hno. apply overlapLoop_overlap. intros s ip' m Hs Es. rewrite Hov by done. by eapply Hno.
Qed.
End Alloc.

(** ** Instances *)

Module IPExamples.
Definition noIPv6 (s : string) : option IP := None.
Definition noFormat (l : list Z) : string := "".
Definition badCIDR (s : string) : error := Errorf ("invalid CIDR address: " ++ s) None.
Definition net29 : IPNet := IPNet_ (V4 10 0 0 0) 29.

Lemma noIPv6_V6 s ip : noIPv6 s = Some ip → bitsOf ip = 128.
Proof. done. Qed.

Example alloc29 :
  AllocateNextIP noIPv6 noFormat badCIDR ["10.0.0.2"; "10.0.0.3"] "10.0.0.0/29" "10.0.0.1" = Ok "10.0.0.4".
Proof. vm_compute. reflexivity. Qed.

Lemma AllocateNextIP_lowest_witness :
  (∀ x, usable net29 x → netContains net29 (intToIP x) = true) ∧
  match AllocateNextIP noIPv6 noFormat badCIDR ["10.0.0.2"] "10.0.0.0/29" "10.0.0.1" with
  | Ok s => ∃ x, s = addr noFormat x ∧ usable net29 x ∧ free noFormat ["10.0.0.2"] "10.0.0.1" x ∧
      ∀ y, usable net29 y → y < x → ¬ free noFormat ["10.0.0.2"] "10.0.0.1" y
  | Err _ => ∀ y, usable net29 y → ¬ free noFormat ["10.0.0.2"] "10.0.0.1" y
  end.
Proof.
  apply (AllocateNextIP_lowest noIPv6 noFormat badCIDR noIPv6_V6 ["10.0.0.2"] "10.0.0.0/29" "10.0.0.1"
    (V4 10 0 0 0) net29); vm_compute; reflexivity.
Defined.

Lemma SubnetNoOverlap_disjoint_witness :
  SubnetNoOverlap noIPv6 badCIDR "10.0.0.0/29" ["10.0.0.8/29"] = Ok () ↔
  ∀ s ip' m, s ∈ ["10.0.0.8/29"] → ParseCIDR noIPv6 badCIDR s = Ok (ip', m) →
    ¬ ∃ x, word32 x ∧ netContains net29 (intToIP x) = true ∧ netContains m (intToIP x) = true.
Proof.
  apply (SubnetNoOverlap_disjoint noIPv6 badCIDR noIPv6_V6 "10.0.0.0/29" ["10.0.0.8/29"]
    (V4 10 0 0 0) net29); [vm_compute; reflexivity..|].
  intros s ip' m [->|Hs%elem_of_nil]%elem_of_cons E; [|done]. vm_compute in E. by injection E as <- <-.
Defined.
End IPExamples.
