(* ===== verification/Lease.v ===== *)
(** * Address leases: [internal/core/network/lease_*.go]

    [LeaseController] hands out the addresses of a network to VMs.  Leases are
    rows of the table [network_leases]
    ([internal/lib/db/migrations/001_initial_schema.sql]), unique per network and
    address.  Several [mvm] processes share the database, so the world of this
    file runs a step of the other processes before every statement. *)

From Stdlib Require Import Ascii.
From stdpp Require Import gmap strings list.
From S2P Require Import Prelude GoStrings Errs Model Sql IPNet.
#[local] Open Scope string_scope.

(** ** Statements among other processes *)

(** The database and what other processes do to its tables before each of the
    next statements. *)
Record Shared (T : Type) := Shared_ { db : Db T; others : list (T → T) }.
Arguments Shared_ {T}.
Arguments db {T}.
Arguments others {T}.

Definition sharedTables {T} (w : Shared T) : T := tables (db w).

(** What the others do before the next statement. *)
Definition interfere {T} (w : Shared T) : Shared T :=
  match others w with
  | g :: gs => Shared_ (Db_ (g (tables (db w))) (faults (db w)) (clock (db w))) gs
  | [] => w
  end.

Definition exec {T A} (f : string → T → result error (A * T)) : GoM (Shared T) error A := λ w,
  let w := interfere w in
  let '(r, d) := statement f (db w) in
  (r, Shared_ d (others w)).

Definition select {T A} (q : T → A) : GoM (Shared T) error A := exec (λ _ t, Ok (q t, t)).

(** ** The interface *)
Class LeaseRepository (W : Type) := {
  LGet : string → string → GoM W error (option NetworkLeaseItem);
  LListAll : string → GoM W error (list NetworkLeaseItem);
  LListByVM : string → string → GoM W error (list NetworkLeaseItem);
  LListAllBatch : list string → GoM W error (list NetworkLeaseItem);
  LAcquire : string → string → option string → GoM W error (option NetworkLeaseItem);
  LRelease : string → string → GoM W error unit;
  LReleaseByVM : string → GoM W error unit;
  LCount : GoM W error Z;
  LCountAvailable : string → GoM W error Z;
}.

(** ** The SQLite implementation *)

(** The tables [network_leases], with the next key of its AUTOINCREMENT column,
    and [networks]. *)
Record LeaseTables := LeaseTables_ {
  leases : list NetworkLeaseItem;
  nextID : Z;
  networks : list NetworkItem;
}.

Definition setLeases (l : list NetworkLeaseItem) (t : LeaseTables) : LeaseTables :=
  LeaseTables_ l (nextID t) (networks t).

(** The text after the first '.' that a digit follows. *)
Fixpoint afterDotDigit (s : string) : option string :=
  match s with
  | "" => None
  | String c r =>
      match r with
      | String d r' => if Ascii.eqb c "."%char && isDigit d then Some r' else afterDotDigit r
      | "" => None
      end
  end.

(** [ipv4 GLOB '[0-9]*.[0-9]*.[0-9]*.[0-9]*']. *)
Definition ipv4Glob (s : string) : bool :=
  match s with
  | "" => false
  | String c r =>
      isDigit c &&
      match (r1 ← afterDotDigit r; r2 ← afterDotDigit r1; afterDotDigit r2) with Some _ => true | None => false end
  end.

Section Sqlite.
Context (parseIPv6 : string → option IP) (formatIPv6 : list Z → string) (cidrError : string → error).
Context (constraintError : error).

#[local] Notation M := (GoM (Shared LeaseTables) error).

Definition keyed (networkID ipv4 : string) (l : NetworkLeaseItem) : Prop :=
  ls_NetworkID l = networkID ∧ ls_IPv4 l = ipv4.

#[export] Instance keyed_dec networkID ipv4 l : Decision (keyed networkID ipv4 l).
Proof. unfold keyed. apply _. Defined.

Definition lease_Get (networkID ipv4 : string) : M (option NetworkLeaseItem) :=
  select (λ t, head (filter (keyed networkID ipv4) (leases t))).

Definition lease_ListAll (networkID : string) : M (list NetworkLeaseItem) :=
  select (λ t, orderBy ls_LeasedAt (filter (λ l, ls_NetworkID l = networkID) (leases t))).

Definition lease_ListByVM (networkID vmID : string) : M (list NetworkLeaseItem) :=
  select (λ t, orderBy ls_LeasedAt
    (filter (λ l, ls_NetworkID l = networkID ∧ ls_VMID l = Some vmID) (leases t))).

Definition lease_ListAllBatch (networkIDs : list string) : M (list NetworkLeaseItem) :=
  if decide (networkIDs = []) then mret []
  else select (λ t, orderBy ls_LeasedAt (filter (λ l, ls_NetworkID l ∈ networkIDs) (leases t))).

(** [INSERT OR IGNORE]: a row that breaks the UNIQUE or the CHECK constraint is
    skipped; one that names no network breaks the foreign key, which is an
    error.  The answer is the number of rows inserted. *)
Definition insertLease (networkID ipv4 : string) (vmID : option string) (now : string)
    (t : LeaseTables) : result error (Z * LeaseTables) :=
  if decide (Exists (keyed networkID ipv4) (leases t)) then Ok (0%Z, t)
  else if negb (ipv4Glob ipv4) then Ok (0%Z, t)
  else if decide (networkID ∈ nw_ID <$> networks t) then
    Ok (1%Z, LeaseTables_
          (leases t ++ [NetworkLeaseItem_ networkID ipv4 now (Some (nextID t)) vmID None])%list
          (nextID t + 1)%Z (networks t))
  else Err constraintError.

Definition lease_Acquire (networkID ipv4 : string) (vmID : option string)
    : M (option NetworkLeaseItem) :=
  rows ← exec (insertLease networkID ipv4 vmID);
  if decide (rows = 0%Z) then mret None else lease_Get networkID ipv4.

Definition lease_Release (networkID ipv4 : string) : M unit :=
  exec (λ _ t, Ok ((), setLeases (filter (λ l, ¬ keyed networkID ipv4 l) (leases t)) t)).

Definition releaseByVM (vmID : string) (t : LeaseTables) : LeaseTables :=
  setLeases (filter (λ l, ls_VMID l ≠ Some vmID) (leases t)) t.

Definition lease_ReleaseByVM (vmID : string) : M unit :=
  exec (λ _ t, Ok ((), releaseByVM vmID t)).

Definition lease_Count : M Z := select (λ t, Z.of_nat (length (leases t))).

Definition lease_CountAvailable (networkID : string) : M Z :=
  info ← select (λ t, head (filter (λ n, nw_ID n = networkID ∧ nw_DeletedAt n = None) (networks t)));
  match info with
  | None => mret 0%Z
  | Some n =>
      leaseCount ← select (λ t, Z.of_nat (length (filter (λ l, ls_NetworkID l = networkID) (leases t))));
      match ParseCIDR parseIPv6 cidrError (nw_Subnet n) with
      | Err e => throw e
      | Ok (_, ipnet) =>
          let totalHosts := CountHosts (Some ipnet) in
          let gatewayCount := if decide (nw_IPv4Gateway n ≠ "") then 1%Z else 0%Z in
          let available := int64 (int64 (totalHosts - gatewayCount) - leaseCount) in
          mret (Z.max available 0)
      end
  end.

Definition sqliteLeaseRepo : LeaseRepository (Shared LeaseTables) := {|
  LGet := lease_Get;
  LListAll := lease_ListAll;
  LListByVM := lease_ListByVM;
  LListAllBatch := lease_ListAllBatch;
  LAcquire := lease_Acquire;
  LRelease := lease_Release;
  LReleaseByVM := lease_ReleaseByVM;
  LCount := lease_Count;
  LCountAvailable := lease_CountAvailable;
|}.
End Sqlite.

(** ** The controller *)
Section Controller.
Context {W : Type} `{LeaseRepository W}.
Context (parseIPv6 : string → option IP) (formatIPv6 : list Z → string) (cidrError : string → error).

(** [LeaseController.net]. *)
Context (net : NetworkItem).

#[local] Notation M := (GoM W error).

Definition NetworkID : string := nw_ID net.
Definition NetworkName : string := nw_Name net.

Definition GetLeases : M (list NetworkLeaseItem) := LListAll (nw_ID net).

Definition LCGet (ip : string) : M (option NetworkLeaseItem) := LGet (nw_ID net) ip.

Definition GetByVMID (vmID : string) : M (list NetworkLeaseItem) := LListByVM (nw_ID net) vmID.

Definition IsAvailable (ip : string) : M bool :=
  lease ← LGet (nw_ID net) ip;
  mret (match lease with None => true | Some _ => false end).

Definition maxRetries : nat := 10.

Definition attemptsFailed : error :=
  EDomain (New CodeNetworkError
    ("Failed to allocate IP after " ++ Itoa (Z.of_nat maxRetries) ++ " attempts") []).

(** The loop over the attempts left. *)
Fixpoint leaseLoop (attempts : nat) (vmID : string) : M string :=
  match attempts with
  | O => throw attemptsFailed
  | S attempts' =>
      ls ← GetLeases;
      let usedIPs := ls_IPv4 <$> ls in
      match AllocateNextIP parseIPv6 formatIPv6 cidrError usedIPs (nw_Subnet net) (nw_IPv4Gateway net) with
      | Err err => throw (EDomain (Wrap CodeNetworkLeaseExhausted err []))
      | Ok allocatedIP =>
          lease ← LAcquire (nw_ID net) allocatedIP (Some vmID);
          match lease with
          | Some _ => mret allocatedIP
          | None => leaseLoop attempts' vmID
          end
      end
  end.

Definition Lease (vmID : string) : M string := leaseLoop maxRetries vmID.

Definition LeaseSpecific (ip vmID : string) : M string :=
  available ← IsAvailable ip;
  if negb available
  then throw (EDomain (New CodeNetworkError ("IP " ++ ip ++ " is already leased") []))
  else
    _ ← LAcquire (nw_ID net) ip (Some vmID);
    mret ip.

Definition Release (vmID : string) : M unit := LReleaseByVM vmID.
End Controller.

(** ** The resolver *)
Section Resolver.
Context {W : Type} `{LeaseRepository W}.

Definition ListByNetworkID (networkID : string) : GoM W error (list NetworkLeaseItem) :=
  LListAll networkID.

(** A map from each asked id to its leases, in the order listed. *)
Definition groupLeases (networkIDs : list string) (ls : list NetworkLeaseItem)
    : gmap string (list NetworkLeaseItem) :=
  foldl (λ m l, match m !! ls_NetworkID l with
                | Some k => <[ls_NetworkID l := (k ++ [l])%list]> m
                | None => m
                end)
    (foldl (λ m nid, <[nid := []]> m) ∅ networkIDs) ls.

Definition ListByNetworkIDBatch (networkIDs : list string)
    : GoM W error (gmap string (list NetworkLeaseItem)) :=
  ls ← LListAllBatch networkIDs; mret (groupLeases networkIDs ls).

Definition LRGet (networkID ipv4 : string) : GoM W error (option NetworkLeaseItem) :=
  LGet networkID ipv4.

Definition ListByVM (networkID vmID : string) : GoM W error (list NetworkLeaseItem) :=
  LListByVM networkID vmID.
End Resolver.

(** ** [constants.go] *)
Definition NatGatewaysList (n : NetworkItem) : list string :=
  match nw_NATGateways n with
  | None => []
  | Some v =>
      if bool_decide (v ∈ [""; "0"; "false"; "False"; "none"; "None"]) then []
      else filter (λ p, p ≠ "") (TrimSpace <$> Split v ","%char)
  end.

(** ** Runs among other processes *)

Section Keeps.
Context {T : Type} (R : T → T → Prop) `{!PreOrder R}.

(** Whatever the others do satisfies [R]. *)
Definition behaved (w : Shared T) : Prop := Forall (λ g, ∀ t, R t (g t)) (others w).

(** A computation changes the tables only as [R] allows, when the others do. *)
Definition keeps {A} (m : GoM (Shared T) error A) : Prop :=
  ∀ w r w', behaved w → m w = (r, w') → R (sharedTables w) (sharedTables w') ∧ behaved w'.

Lemma interfere_behaved w :
  behaved w → R (sharedTables w) (sharedTables (interfere w)) ∧ behaved (interfere w).
Proof.
  unfold behaved, interfere, sharedTables. destruct (others w) as [|g gs] eqn:E.
  - intros _. rewrite E. by split.
  - intros [Hg Hgs]%Forall_cons. simpl. auto.
Qed.

Lemma keeps_ret {A} (a : A) : keeps (mret a).
Proof. intros w r w' Hb [= <- <-]. by split. Qed.

Lemma keeps_throw {A} e : keeps (A := A) (throw e).
Proof. intros w r w' Hb [= <- <-]. by split. Qed.

Lemma keeps_bind {A B} (m : GoM (Shared T) error A) (k : A → GoM (Shared T) error B) :
  keeps m → (∀ a, keeps (k a)) → keeps (m ≫= k).
Proof.
  intros Hm Hk w r w' Hb. rewrite bind_unfold. destruct (m w) as [[a|e] w1] eqn:Em.
  - destruct (Hm _ _ _ Hb Em) as [HR1 Hb1]. intros E. destruct (Hk _ _ _ _ Hb1 E) as [HR2 Hb2].
    split; [by etransitivity|done].
  - intros [= <- <-]. by eapply Hm.
Qed.

Lemma keeps_exec {A} (f : string → T → result error (A * T)) :
  (∀ now t a t', f now t = Ok (a, t') → R t t') → keeps (exec f).
Proof.
  intros Hf w r w' Hb. destruct (interfere_behaved w Hb) as [HR Hb']. unfold exec.
  destruct (statement f (db (interfere w))) as [r' d] eqn:Es. intros [= -> <-].
  split; [|done]. etransitivity; [exact HR|]. unfold sharedTables. simpl.
  destruct r as [a|e].
  - apply statement_Ok in Es as [Es _]. by eapply Hf.
  - apply statement_Err in Es as [-> _]. done.
Qed.

Lemma keeps_select {A} (q : T → A) : keeps (select q).
Proof. apply keeps_exec. by intros now t a t' [= <- <-]. Qed.

(** A statement that succeeds ran on some tables the others left. *)
Lemma exec_Ok {A} (f : string → T → result error (A * T)) w a w' :
  behaved w → exec f w = (Ok a, w') →
  ∃ now t, R (sharedTables w) t ∧ f now t = Ok (a, sharedTables w') ∧ behaved w'.
Proof.
  intros Hb. destruct (interfere_behaved w Hb) as [HR Hb']. unfold exec.
  destruct (statement f (db (interfere w))) as [r' d] eqn:Es. intros [= -> <-].
  apply statement_Ok in Es as [Es _]. eauto 10.
Qed.
End Keeps.

Create HintDb keeps.
#[export] Hint Resolve keeps_ret keeps_throw keeps_select : keeps.
#[export] Hint Extern 1 (keeps _ (mbind _ _)) => (apply keeps_bind; [|intros ?]) : keeps.

(** ** The table of leases *)

(** The constraint UNIQUE(network_id, ipv4). *)
Definition leasesOK (t : LeaseTables) : Prop :=
  NoDup ((λ l, (ls_NetworkID l, ls_IPv4 l)) <$> leases t).

(** What the processes of other VMs may do to the leases of one: the table stays
    well formed, the leases stay, and none is added. *)
Definition rely (vm : string) (t t' : LeaseTables) : Prop :=
  leasesOK t →
  leasesOK t' ∧ ∀ l, ls_VMID l = Some vm → l ∈ leases t ↔ l ∈ leases t'.

#[export] Instance rely_preorder vm : PreOrder (rely vm).
Proof.
  split.
  - intros t Ht. by split.
  - intros t1 t2 t3 H12 H23 Ht. destruct (H12 Ht) as [H2 I12]. destruct (H23 H2) as [H3 I23].
    split; [done|]. intros l Hl. by rewrite I12, I23.
Qed.

(** What any process may do. *)
Definition wellFormed (t t' : LeaseTables) : Prop := leasesOK t → leasesOK t'.

#[export] Instance wellFormed_preorder : PreOrder wellFormed.
Proof. unfold wellFormed. split; [by intros t H|]. intros t1 t2 t3; auto. Qed.

Lemma insertLease_spec ce networkID ipv4 vmID now t n t' :
  leasesOK t → insertLease ce networkID ipv4 vmID now t = Ok (n, t') →
  leasesOK t' ∧
  if decide (n = 0%Z) then t' = t
  else ∃ l, keyed networkID ipv4 l ∧ ls_VMID l = vmID ∧ leases t' = (leases t ++ [l])%list.
Proof.
  intros Ht. unfold insertLease. destruct (decide (Exists _ _)) as [|Hno]; [by intros [= <- <-]|].
  destruct (ipv4Glob ipv4); simpl; [|by intros [= <- <-]].
  case_decide; [|done]. intros [= <- <-]. simpl. split.
  - unfold leasesOK in *. simpl. rewrite fmap_app. apply NoDup_app. split_and!; [done| |].
    + intros k (l & -> & Hl)%list_elem_of_fmap. simpl. rewrite list_elem_of_singleton. intros [= E1 E2].
      apply Hno, Exists_exists. by exists l.
    + apply NoDup_singleton.
  - eexists. split_and!; [| |done]; [split|]; done.
Qed.

Lemma filter_leasesOK (P : NetworkLeaseItem → Prop) `{∀ l, Decision (P l)} t :
  leasesOK t → leasesOK (setLeases (filter P (leases t)) t).
Proof. unfold leasesOK. simpl. apply NoDup_fmap_filter. Qed.

(** ** Other VMs' operations *)
Section Others.
Context (vm other : string) (Hne : other ≠ vm).

Lemma insertLease_rely ce networkID ipv4 now t n t' :
  insertLease ce networkID ipv4 (Some other) now t = Ok (n, t') → rely vm t t'.
Proof.
  intros E Ht. destruct (insertLease_spec _ _ _ _ _ _ _ _ Ht E) as [Ht' Hcase]. split; [done|].
  intros l Hl. case_decide; [by subst|]. destruct Hcase as (l' & _ & Hv & ->).
  rewrite elem_of_app, list_elem_of_singleton. split; [auto|]. intros [?| ->]; [done|congruence].
Qed.

Lemma releaseByVM_rely t : rely vm t (releaseByVM other t).
Proof.
  intros Ht. split; [by apply filter_leasesOK|]. intros l Hl. simpl.
  rewrite list_elem_of_filter. split; [|tauto]. intros Hin. split; [|done]. congruence.
Qed.

Lemma keeps_Acquire ce networkID ipv4 :
  keeps (rely vm) (lease_Acquire ce networkID ipv4 (Some other)).
Proof.
  apply keeps_bind; [apply _|apply keeps_exec; [apply _|]|].
  - intros. by eapply insertLease_rely.
  - intros n. case_decide; [apply keeps_ret|apply keeps_select]; apply _.
Qed.
End Others.

(** ** Exclusive leases *)
Section Exclusive.
Context (parseIPv6 : string → option IP) (formatIPv6 : list Z → string) (cidrError : string → error).
Context (parseIPv6_V6 : ∀ s ip, parseIPv6 s = Some ip → bitsOf ip = 128%Z).
Context (ce : error) (net : NetworkItem).

#[local] Existing Instance sqliteLeaseRepo.
#[local] Notation repo := (sqliteLeaseRepo parseIPv6 cidrError ce).
#[local] Notation Lease := (Lease (H := repo) parseIPv6 formatIPv6 cidrError net).
#[local] Notation LeaseSpecific := (LeaseSpecific (H := repo) net).
#[local] Notation Release := (Release (H := repo)).
#[local] Notation leaseLoop := (leaseLoop (H := repo) parseIPv6 formatIPv6 cidrError net).

(** One row holds the address, and it is the VM's. *)
Definition owns (t : LeaseTables) (vm ip : string) : Prop :=
  ∃ l, l ∈ leases t ∧ keyed (nw_ID net) ip l ∧ ls_VMID l = Some vm ∧
    ∀ l', l' ∈ leases t → keyed (nw_ID net) ip l' → l' = l.

Lemma leasesOK_unique t l l' networkID ip :
  leasesOK t → l ∈ leases t → l' ∈ leases t → keyed networkID ip l → keyed networkID ip l' → l' = l.
Proof.
  intros Ht Hl Hl' [E1 E2] [E1' E2']. eapply elem_of_fmap_inj; [exact Ht|done..|]. simpl. congruence.
Qed.

Lemma Acquire_owns vm ip w r w' :
  leasesOK (sharedTables w) → behaved (rely vm) w →
  lease_Acquire ce (nw_ID net) ip (Some vm) w = (Ok r, w') →
  leasesOK (sharedTables w') ∧ behaved (rely vm) w' ∧
  (r ≠ None → owns (sharedTables w') vm ip).
Proof.
  intros Hok Hb. unfold lease_Acquire. rewrite bind_unfold.
  destruct (exec _ w) as [[n|e] w1] eqn:E1; [|done].
  destruct (exec_Ok (rely vm) _ _ _ _ Hb E1) as (now & t & HR & Hi & Hb1).
  destruct (HR Hok) as [Hokt _]. destruct (insertLease_spec _ _ _ _ _ _ _ _ Hokt Hi) as [Hok1 Hn].
  case_decide; [by intros [= <- <-]|]. destruct Hn as (l & Hk & Hv & El). intros E2.
  destruct (exec_Ok (rely vm) _ _ _ _ Hb1 E2) as (now2 & t2 & HR2 & Hi2 & Hb2).
  injection Hi2 as _ <-. destruct (HR2 Hok1) as [Hok2 Hin]. split_and!; [done..|]. intros _.
  assert (l ∈ leases t2) as Hl2.
  { apply Hin; [done|]. rewrite El. apply elem_of_app. right. by apply list_elem_of_singleton. }
  exists l. split_and!; [done..|]. intros l' Hl' Hk'. by eapply leasesOK_unique.
Qed.

Lemma leaseLoop_owns attempts vm w ip w' :
  leasesOK (sharedTables w) → behaved (rely vm) w →
  leaseLoop attempts vm w = (Ok ip, w') →
  leasesOK (sharedTables w') ∧ owns (sharedTables w') vm ip ∧
  ∃ usedIPs, AllocateNextIP parseIPv6 formatIPv6 cidrError usedIPs (nw_Subnet net) (nw_IPv4Gateway net) = Ok ip.
Proof.
  revert w. induction attempts as [|k IH]; intros w Hok Hb; [done|]. cbn [Lease.leaseLoop].
  rewrite bind_unfold. destruct (GetLeases net w) as [[ls|e] w1] eqn:E1; [|done].
  destruct (keeps_select (rely vm) _ _ _ _ Hb E1) as [HR1 Hb1]. destruct (HR1 Hok) as [Hok1 _].
  destruct (AllocateNextIP _ _ _ _ _ _) as [a|e] eqn:Ea; [|done]. rewrite bind_unfold.
  destruct (LAcquire _ _ _ w1) as [[r|e] w2] eqn:E2; [|done].
  destruct (Acquire_owns _ _ _ _ _ Hok1 Hb1 E2) as (Hok2 & Hb2 & Hown).
  destruct r as [l|]; [|by apply IH]. intros [= <- <-]. split_and!; [done|by apply Hown|by eexists].
Qed.

(** C29. Among other processes that only touch the leases of other VMs, an address
    returned by [Lease] is held by that VM alone, the rows stay unique, and the
    address is a usable one of the subnet other than the gateway. *)
Theorem Lease_exclusive vm w ip w' i n :
  leasesOK (sharedTables w) → behaved (rely vm) w →
  ParseCIDR parseIPv6 cidrError (nw_Subnet net) = Ok (i, n) → bitsOf (nIP n) = 32%Z →
  Lease vm w = (Ok ip, w') →
  leasesOK (sharedTables w') ∧ owns (sharedTables w') vm ip ∧ ip ≠ nw_IPv4Gateway net ∧
  ∃ x, ip = addr formatIPv6 x ∧ usable n x ∧ netContains n (intToIP x) = true.
Proof.
  intros Hok Hb Ep H32 El. destruct (leaseLoop_owns _ _ _ _ _ Hok Hb El) as (Hok' & Hown & used & Ea).
  pose proof (ParseCIDR_netOK _ _ parseIPv6_V6 _ _ _ Ep H32) as Hn.
  pose proof (AllocateNextIP_spec parseIPv6 formatIPv6 cidrError used _ (nw_IPv4Gateway net) _ _ Ep Hn) as Hs.
  rewrite Ea in Hs. destruct Hs as (x & -> & Hu & [_ Hg] & _).
  split_and!; [done..|]. exists x. split_and!; [done..|]. by apply usable_contains.
Qed.

Lemma keeps_leaseLoop vm other attempts :
  other ≠ vm → keeps (rely vm) (leaseLoop attempts other).
Proof.
  intros Hne. induction attempts as [|k IH]; [apply keeps_throw, _|]. cbn [Lease.leaseLoop].
  apply keeps_bind; [apply _|apply keeps_select, _|]. intros ls.
  destruct (AllocateNextIP _ _ _ _ _ _); [|apply keeps_throw, _].
  apply keeps_bind; [apply _|by apply keeps_Acquire|]. intros [l|]; [apply keeps_ret, _|done].
Qed.

(** The lease operations of one VM keep the rows unique and leave the leases
    of every other VM as they are, whether they succeed or fail: they are
    processes as the exclusiveness of [Lease] assumes the others to be. *)
Lemma lease_operations_rely vm other ip w :
  other ≠ vm → behaved (rely vm) w →
  rely vm (sharedTables w) (sharedTables (Lease other w).2) ∧
  rely vm (sharedTables w) (sharedTables (LeaseSpecific ip other w).2) ∧
  rely vm (sharedTables w) (sharedTables (Release other w).2).
Proof.
  intros Hne Hb.
  assert (∀ A (m : GoM (Shared LeaseTables) error A), keeps (rely vm) m →
    rely vm (sharedTables w) (sharedTables (m w).2)) as Hk.
  { intros A m Hm. destruct (m w) as [r w'] eqn:E. by destruct (Hm _ _ _ Hb E). }
  split_and!; apply Hk.
  - by apply keeps_leaseLoop.
  - apply keeps_bind; [apply _|apply keeps_bind; [apply _|apply keeps_select, _|intros; apply keeps_ret, _]|].
    intros [|]; simpl; [|apply keeps_throw, _].
    apply keeps_bind; [apply _|by apply keeps_Acquire|intros; apply keeps_ret, _].
  - apply keeps_exec; [apply _|]. intros now t a t' [= <- <-]. by apply releaseByVM_rely.
Qed.
End Exclusive.

(** ** The check on the text of an address *)

Lemma octet_digits v :
  isByte v → ∃ d r, Itoa v = String d r ∧ isDigit d = true ∧ dotFree r = true.
Proof.
  intros Hv.
  assert (forallb (λ v, match Itoa v with String d r => isDigit d && dotFree r | "" => false end)
    (seqZ 0 256) = true) as H by (vm_compute; reflexivity).
  rewrite forallb_forall in H. specialize (H v). rewrite <-list_elem_of_In, elem_of_seqZ in H.
  unfold isByte in Hv. specialize (H ltac:(lia)). destruct (Itoa v) as [|d r]; [done|].
  apply andb_prop in H as [H1 H2]. eauto.
Qed.

Lemma afterDotDigit_skip r d t :
  dotFree r = true → isDigit d = true → afterDotDigit (r ++ "." ++ String d t) = Some t.
Proof.
  intros Hr Hd. induction r as [|c r IH]; [simpl; by rewrite Hd|].
  unfold dotFree in Hr. simpl in Hr. apply andb_prop in Hr as [Hc Hr].
  apply andb_prop in Hc as [Hc%negb_true_iff _]. specialize (IH Hr). rewrite sapp_cons.
  destruct (r ++ "." ++ String d t) as [|c' t'] eqn:E; [done|]. simpl. rewrite Hc. exact IH.
Qed.

Lemma addr_glob formatIPv6 x : word32 x → ipv4Glob (addr formatIPv6 x) = true.
Proof.
  intros Hx. pose proof (intToIP_ok x Hx) as Hok. unfold addr, ipString, intToIP, formatIP in *.
  destruct Hok as (Ha & Hb & Hc & Hd).
  apply octet_digits in Ha as (da & ra & -> & Da & Fa), Hb as (db' & rb & -> & Db' & Fb),
    Hc as (dc & rc & -> & Dc & Fc), Hd as (dd & rd & -> & Dd & Fd).
  rewrite sapp_cons. cbn [ipv4Glob]. rewrite Da. simpl andb. rewrite (sapp_cons db').
  rewrite afterDotDigit_skip by done. cbn [mbind option_bind]. rewrite (sapp_cons dc).
  rewrite afterDotDigit_skip by done. cbn [mbind option_bind].
  by rewrite afterDotDigit_skip.
Qed.

(** ** One process alone *)
Section Alone.
Context (parseIPv6 : string → option IP) (formatIPv6 : list Z → string) (cidrError : string → error).
Context (parseIPv6_V6 : ∀ s ip, parseIPv6 s = Some ip → bitsOf ip = 128%Z).
Context (ce : error) (net : NetworkItem) (now : string).

#[local] Notation repo := (sqliteLeaseRepo parseIPv6 cidrError ce).
#[local] Notation Lease := (Lease (H := repo) parseIPv6 formatIPv6 cidrError net).
#[local] Notation LeaseSpecific := (LeaseSpecific (H := repo) net).

(** A healthy database that no other process uses. *)
Definition alone (t : LeaseTables) : Shared LeaseTables := Shared_ (Db_ t [] now) [].

Lemma exec_alone {A} (f : string → LeaseTables → result error (A * LeaseTables)) t :
  exec f (alone t) =
    match f now t with Ok (a, t') => (Ok a, alone t') | Err e => (Err e, alone t) end.
Proof.
  unfold exec, alone. simpl. rewrite statement_healthy by done. simpl.
  by destruct (f now t) as [[a t']|e].
Qed.

Lemma select_alone {A} (q : LeaseTables → A) t : select q (alone t) = (Ok (q t), alone t).
Proof. unfold select. by rewrite exec_alone. Qed.

Definition leaseCount (t : LeaseTables) : nat :=
  length (filter (λ l, ls_NetworkID l = nw_ID net) (leases t)).

Definition gatewayCount : Z := if decide (nw_IPv4Gateway net = "") then 0 else 1.

(** With an address left, [Lease] adds one row, for an address no row has. *)
Lemma Lease_alone t vm i n :
  ParseCIDR parseIPv6 cidrError (nw_Subnet net) = Ok (i, n) → netOK n →
  nw_ID net ∈ nw_ID <$> networks t →
  (Z.of_nat (leaseCount t) + gatewayCount < CountHosts (Some n))%Z →
  ∃ ip l nid, Lease vm (alone t) = (Ok ip, alone (LeaseTables_ (leases t ++ [l])%list nid (networks t))) ∧
    keyed (nw_ID net) ip l ∧ ls_VMID l = Some vm ∧ ¬ Exists (keyed (nw_ID net) ip) (leases t).
Proof.
  intros Ep Hn Hnet Hlt. unfold Lease.Lease, maxRetries. cbn [leaseLoop].
  rewrite bind_unfold. unfold GetLeases. cbn [LListAll sqliteLeaseRepo]. unfold lease_ListAll.
  rewrite select_alone. set (used := ls_IPv4 <$> _).
  assert (length used = leaseCount t) as Hlen.
  { subst used. rewrite length_fmap. apply Permutation_length, orderBy_perm. }
  destruct (AllocateNextIP_available parseIPv6 formatIPv6 cidrError parseIPv6_V6 used _ (nw_IPv4Gateway net) _ _ Ep
    (netOK_bits n Hn)) as [ip Ea]; [by rewrite Hlen|].
  pose proof (AllocateNextIP_spec parseIPv6 formatIPv6 cidrError used _ (nw_IPv4Gateway net) _ _ Ep Hn) as Hs.
  rewrite Ea in Hs |- *. destruct Hs as (x & -> & Hu & [Hnu _] & _).
  set (ip := addr formatIPv6 x) in *.
  assert (¬ Exists (keyed (nw_ID net) ip) (leases t)) as Hno.
  { intros (l & Hl & Hk1 & Hk2)%Exists_exists. apply Hnu. rewrite <-Hk2. apply list_elem_of_fmap_2.
    rewrite orderBy_perm. by apply list_elem_of_filter. }
  rewrite bind_unfold. cbn [LAcquire sqliteLeaseRepo]. unfold lease_Acquire.
  rewrite bind_unfold, exec_alone. unfold insertLease.
  assert (ipv4Glob ip = true) as Hg by (apply addr_glob; by apply (usable_word n x)).
  rewrite decide_False, Hg by done. cbn [negb]. cbv iota.
  rewrite decide_True by done. rewrite decide_False by done. unfold lease_Get. rewrite select_alone.
  simpl leases. set (l := NetworkLeaseItem_ _ _ _ _ _ _).
  erewrite (head_filter_unique _ _ l).
  - exists ip, l, (nextID t + 1)%Z. by split_and!.
  - apply elem_of_app. right. by apply list_elem_of_singleton.
  - done.
  - intros l' [Hl'|Hl']%elem_of_app Hk; [|by apply list_elem_of_singleton].
    exfalso. apply Hno, Exists_exists. by exists l'.
Qed.

Lemma batch_alone t vms i n :
  ParseCIDR parseIPv6 cidrError (nw_Subnet net) = Ok (i, n) → netOK n →
  nw_ID net ∈ nw_ID <$> networks t →
  (Z.of_nat (leaseCount t) + gatewayCount + Z.of_nat (length vms) <= CountHosts (Some n))%Z →
  ∃ ips t', mapM Lease vms (alone t) = (Ok ips, alone t') ∧ length ips = length vms ∧ NoDup ips ∧
    Forall (λ ip, ¬ Exists (keyed (nw_ID net) ip) (leases t)) ips.
Proof.
  intros Ep Hn. revert t. induction vms as [|vm vms IH]; intros t Hnet Hle.
  { exists [], t. split_and!; [done|done|constructor|constructor]. }
  rewrite length_cons in Hle. destruct (Lease_alone t vm i n Ep Hn Hnet ltac:(lia))
    as (ip & l & nid & El & [Hk1 Hk2] & Hv & Hno).
  set (t1 := LeaseTables_ (leases t ++ [l])%list nid (networks t)) in *.
  assert (leaseCount t1 = S (leaseCount t)) as Hc.
  { unfold leaseCount, t1. simpl. rewrite filter_app, length_app, filter_cons_True by done.
    rewrite filter_nil. simpl. lia. }
  destruct (IH t1 Hnet ltac:(lia)) as (ips & t' & Em & Hlen & Hnd & Hfresh).
  exists (ip :: ips), t'. split_and!.
  - cbn [mapM]. rewrite bind_unfold, El, bind_unfold, Em. done.
  - simpl. by rewrite Hlen.
  - apply NoDup_cons. split; [|done]. intros Hin. rewrite Forall_forall in Hfresh.
    apply (Hfresh _ Hin), Exists_exists. exists l. split; [|by split].
    apply elem_of_app. right. by apply list_elem_of_singleton.
  - constructor; [done|]. eapply Forall_impl; [exact Hfresh|]. intros ip' Hf He. apply Hf.
    apply Exists_app. by left.
Qed.

(** When [CountAvailable] announces at least as many addresses as a batch of
    VMs needs, leasing for each of them in turn succeeds, with distinct
    addresses that no earlier lease held. *)
Lemma CountAvailable_batch t vms i n k w' :
  ParseCIDR parseIPv6 cidrError (nw_Subnet net) = Ok (i, n) → bitsOf (nIP n) = 32%Z →
  head (filter (λ m, nw_ID m = nw_ID net ∧ nw_DeletedAt m = None) (networks t)) = Some net →
  (Z.of_nat (length (leases t)) <= maxInt)%Z →
  lease_CountAvailable parseIPv6 cidrError (nw_ID net) (alone t) = (Ok k, w') →
  (Z.of_nat (length vms) <= k)%Z → vms ≠ [] →
  ∃ ips t', mapM Lease vms (alone t) = (Ok ips, alone t') ∧ length ips = length vms ∧ NoDup ips ∧
    Forall (λ ip, ¬ Exists (keyed (nw_ID net) ip) (leases t)) ips.
Proof.
  intros Ep H32 Hnet Hmax Hc Hk Hne. pose proof (ParseCIDR_netOK _ _ parseIPv6_V6 _ _ _ Ep H32) as Hn.
  unfold lease_CountAvailable in Hc. rewrite bind_unfold, select_alone, Hnet, bind_unfold, select_alone, Ep in Hc.
  apply (f_equal fst) in Hc. cbn [fst mret GoM_ret] in Hc.
  assert (leaseCount t <= length (leases t))%nat as Hcount by apply length_filter.
  pose proof (netSize_bounds n Hn) as Hsz.
  assert (0 <= CountHosts (Some n) <= 2 ^ 32)%Z as Hch.
  { rewrite CountHosts_usable by done. unfold usableCount. destruct (Z.leb_spec (netSize n) 2); lia. }
  unfold minInt, maxInt in *.
  assert (length vms ≠ 0)%nat by (by destruct vms).
  eapply batch_alone; [done|done| |].
  - apply head_Some_elem_of, list_elem_of_filter in Hnet as [_ Hin]. by apply list_elem_of_fmap_2.
  - fold (leaseCount t) in Hc. unfold gatewayCount. generalize dependent (CountHosts (Some n)). intros hosts Hc Hch.
    destruct (decide (nw_IPv4Gateway net = "")) as [Hg|Hg];
      [rewrite decide_False in Hc by auto|rewrite decide_True in Hc by done].
    all: rewrite (int64_small (hosts - _)) in Hc by (unfold minInt, maxInt; lia).
    all: rewrite int64_small in Hc by (unfold minInt, maxInt; lia); injection Hc as <-; lia.
Qed.

(** [LeaseSpecific] drops the answer of [Acquire]: when another VM takes the
    address between the check and the insertion, it still reports success, while
    the address is the other VM's alone. *)
Lemma LeaseSpecific_race ip vm other t :
  leasesOK t → ipv4Glob ip = true → nw_ID net ∈ nw_ID <$> networks t →
  ¬ Exists (keyed (nw_ID net) ip) (leases t) → other ≠ vm →
  ∃ w, sharedTables w = t ∧ behaved (rely vm) w ∧
    (LeaseSpecific ip vm w).1 = Ok ip ∧
    owns net (sharedTables (LeaseSpecific ip vm w).2) other ip.
Proof.
  intros Hok Hg Hnet Hno Hne.
  set (steal t := match insertLease ce (nw_ID net) ip (Some other) now t with
                  | Ok (_, t') => t' | Err _ => t end).
  exists (Shared_ (Db_ t [] now) [id; steal]). split; [done|].
  set (l := NetworkLeaseItem_ (nw_ID net) ip now (Some (nextID t)) (Some other) None).
  set (t1 := LeaseTables_ (leases t ++ [l])%list (nextID t + 1) (networks t)).
  assert (insertLease ce (nw_ID net) ip (Some other) now t = Ok (1%Z, t1)) as Hi.
  { unfold insertLease. rewrite decide_False, Hg by done. cbn [negb]. cbv iota.
    by rewrite decide_True. }
  assert (l ∈ leases t1) as Hl by (apply elem_of_app; right; by apply list_elem_of_singleton).
  assert (keyed (nw_ID net) ip l) as Hk by done.
  assert (head (filter (keyed (nw_ID net) ip) (leases t)) = None) as Hnone.
  { destruct (filter _ _) as [|l' k] eqn:E; [done|]. exfalso. apply Hno, Exists_exists.
    exists l'. apply and_comm, (list_elem_of_filter (keyed (nw_ID net) ip)). rewrite E. left. }
  assert (LeaseSpecific ip vm (Shared_ (Db_ t [] now) [id; steal]) = (Ok ip, alone t1)) as E.
  { unfold Lease.LeaseSpecific, IsAvailable. cbn [LGet LAcquire sqliteLeaseRepo]. unfold lease_Get, select, exec.
    run. simpl. rewrite Hnone. simpl. unfold lease_Acquire, exec. run. simpl.
    replace (steal t) with t1 by (subst steal; cbv beta; by rewrite Hi).
    rewrite statement_healthy by done. simpl. unfold insertLease.
    rewrite decide_True by (apply Exists_exists; eauto). reflexivity. }
  rewrite E. split_and!; [|done|].
  - constructor; [intros t0; reflexivity|]. constructor; [|constructor]. intros t0. subst steal. cbv beta.
    destruct (insertLease _ _ _ _ _ t0) as [[m t2]|e] eqn:Et; [|reflexivity]. by eapply insertLease_rely.
  - exists l. split_and!; [done..|]. intros l' Hl' Hk'.
    destruct (insertLease_spec _ _ _ _ _ _ _ _ Hok Hi) as [Hok1 _]. by eapply leasesOK_unique.
Qed.
End Alone.

(** ** Instances *)

Module LeaseExamples.
Import IPExamples.

Definition net1 : NetworkItem :=
  NetworkItem_ "n1" "default" "10.0.0.0/29" "mvm-default" "10.0.0.1" true true true true "t0" "t0" None None.
Definition violated : error := Errorf "constraint failed" None.
Definition noLeases : LeaseTables := LeaseTables_ [] 1 [net1].

(** Another process leases 10.0.0.2 to vm2 between the two statements of an attempt. *)
Definition takes (t : LeaseTables) : LeaseTables :=
  match insertLease violated "n1" "10.0.0.2" (Some "vm2") "t1" t with Ok (_, t') => t' | Err _ => t end.
Definition contended : Shared LeaseTables := Shared_ (Db_ noLeases [] "t1") [id; takes].

Notation repo := (sqliteLeaseRepo noIPv6 badCIDR violated).
Notation run1 := (Lease (H := repo) noIPv6 noFormat badCIDR net1 "vm1" contended).

Lemma takes_rely t : rely "vm1" t (takes t).
Proof.
  unfold takes. destruct (insertLease _ _ _ _ _ t) as [[m t2]|e] eqn:E; [|reflexivity].
  eapply insertLease_rely; [|exact E]. done.
Qed.

Lemma contended_behaved : behaved (rely "vm1") contended.
Proof.
  constructor; [intros t; reflexivity|]. constructor; [intros t; apply takes_rely|constructor].
Qed.

Lemma noLeases_OK : leasesOK noLeases.
Proof. constructor. Qed.

Lemma Lease_exclusive_witness :
  run1.1 = Ok "10.0.0.3" ∧
  leasesOK (sharedTables run1.2) ∧ owns net1 (sharedTables run1.2) "vm1" "10.0.0.3" ∧
  "10.0.0.3" ≠ nw_IPv4Gateway net1 ∧
  ∃ x, "10.0.0.3" = addr noFormat x ∧ usable net29 x ∧ netContains net29 (intToIP x) = true.
Proof.
  split; [vm_compute; reflexivity|].
  apply (Lease_exclusive noIPv6 noFormat badCIDR noIPv6_V6 violated net1 "vm1" contended "10.0.0.3" run1.2
    (V4 10 0 0 0) net29 noLeases_OK contended_behaved); vm_compute; reflexivity.
Defined.

Lemma lease_operations_rely_witness :
  rely "vm1" (sharedTables contended)
    (sharedTables (Lease (H := repo) noIPv6 noFormat badCIDR net1 "vm2" contended).2) ∧
  rely "vm1" (sharedTables contended)
    (sharedTables (LeaseSpecific (H := repo) net1 "10.0.0.5" "vm2" contended).2) ∧
  rely "vm1" (sharedTables contended) (sharedTables (Release (H := repo) "vm2" contended).2).
Proof.
  apply (lease_operations_rely noIPv6 noFormat badCIDR violated net1 "vm1" "vm2" "10.0.0.5" contended);
    [done|apply contended_behaved].
Defined.

Lemma CountAvailable_batch_witness :
  ∃ ips t', mapM (Lease (H := repo) noIPv6 noFormat badCIDR net1) ["vm1"; "vm2"; "vm3"; "vm4"; "vm5"] (alone "t1" noLeases)
      = (Ok ips, alone "t1" t') ∧ length ips = 5 ∧ NoDup ips ∧
    Forall (λ ip, ¬ Exists (keyed "n1" ip) (leases noLeases)) ips.
Proof.
  apply (CountAvailable_batch noIPv6 noFormat badCIDR noIPv6_V6 violated net1 "t1" noLeases
    ["vm1"; "vm2"; "vm3"; "vm4"; "vm5"] (V4 10 0 0 0) net29 5 (alone "t1" noLeases)); try done.
Defined.

Lemma LeaseSpecific_race_witness :
  ∃ w, sharedTables w = noLeases ∧ behaved (rely "vm1") w ∧
    (LeaseSpecific (H := repo) net1 "10.0.0.2" "vm1" w).1 = Ok "10.0.0.2" ∧
    owns net1 (sharedTables (LeaseSpecific (H := repo) net1 "10.0.0.2" "vm1" w).2) "vm2" "10.0.0.2".
Proof.
  apply (LeaseSpecific_race noIPv6 badCIDR violated net1 "t1" "10.0.0.2" "vm1" "vm2" noLeases);
    [apply noLeases_OK|done|by left|intros H; by inversion H|done].
Defined.
End LeaseExamples.
