(* ===== verification/Names.v ===== *)
(** * Names and arguments: [internal/lib/validators], [internal/infra/constants.go]

    The validators of names, devices, users and kernel arguments.  Regular
    expressions are written out as predicates on bytes: all of them are ASCII
    classes, anchored at both ends unless said otherwise.  Go ranges over the
    runes of a string, so the decoding of UTF-8 is part of the model. *)

From Stdlib Require Import Ascii.
From stdpp Require Import gmap strings list.
From S2P Require Import Prelude GoStrings Errs System IPTables NetOps IPNet.
#[local] Open Scope string_scope.

(** ** Runes *)

Definition bytesOf (s : string) : list Z := (λ c, Z.of_nat (nat_of_ascii c)) <$> String.list_ascii_of_string s.

Definition RuneError : Z := 65533.

Definition cont (b : Z) : bool := ((128 <=? b) && (b <=? 191))%Z.

(** The first rune of a text and its width; a byte that starts no valid
    encoding is the error rune, of width one. *)
Definition decodeRune (bs : list Z) : Z * nat :=
  match bs with
  | [] => (RuneError, 0%nat)
  | b0 :: rest =>
      if (b0 <? 128)%Z then (b0, 1%nat)
      else
        match rest with
        | b1 :: rest1 =>
            if ((194 <=? b0) && (b0 <=? 223) && cont b1)%Z
            then (Z.land b0 31 * 64 + Z.land b1 63, 2%nat)%Z
            else
              match rest1 with
              | b2 :: rest2 =>
                  if ((224 <=? b0) && (b0 <=? 239) && cont b1 && cont b2
                      && ((negb (b0 =? 224)) || (160 <=? b1)) && ((negb (b0 =? 237)) || (b1 <=? 159)))%Z
                  then (Z.land b0 15 * 4096 + Z.land b1 63 * 64 + Z.land b2 63, 3%nat)%Z
                  else
                    match rest2 with
                    | b3 :: _ =>
                        if ((240 <=? b0) && (b0 <=? 244) && cont b1 && cont b2 && cont b3
                            && ((negb (b0 =? 240)) || (144 <=? b1)) && ((negb (b0 =? 244)) || (b1 <=? 143)))%Z
                        then (Z.land b0 7 * 262144 + Z.land b1 63 * 4096 + Z.land b2 63 * 64 + Z.land b3 63, 4%nat)%Z
                        else (RuneError, 1%nat)
                    | [] => (RuneError, 1%nat)
                    end
              | [] => (RuneError, 1%nat)
              end
        | [] => (RuneError, 1%nat)
        end
  end.

(** [skip] bytes belong to the rune before. *)
Fixpoint runesFrom (bs : list Z) (skip : nat) : list Z :=
  match bs, skip with
  | [], _ => []
  | _ :: rest, Datatypes.S skip => runesFrom rest skip
  | _ :: rest, O => let '(r, w) := decodeRune bs in r :: runesFrom rest (w - 1)
  end.

(** [for _, c := range s]. *)
Definition runes (s : string) : list Z := runesFrom (bytesOf s) 0.

(** ** [constants.go] *)

Definition ReservedNames : list string :=
  ["create"; "delete"; "remove"; "rm"; "update"; "set"; "clear"; "unset"; "get"; "list"; "ls";
   "show"; "describe"; "inspect"; "find"; "search"; "edit"; "rename"; "move"; "copy"; "clone";
   "import"; "export"; "backup"; "restore"; "save"; "load"; "sync"; "merge"; "split";
   "convert"; "transform"; "start"; "stop"; "pause"; "resume"; "restart"; "reboot";
   "shutdown"; "halt"; "poweroff"; "poweron"; "reset"; "init"; "clean"; "prune"; "purge";
   "wipe"; "attach"; "detach"; "mount"; "unmount"; "connect"; "disconnect"; "link"; "unlink";
   "lock"; "unlock"; "freeze"; "unfreeze"; "enable"; "disable"; "enabled"; "disabled";
   "activate"; "deactivate"; "register"; "unregister"; "ping"; "traceroute"; "dns"; "dhcp";
   "nat"; "forward"; "route"; "bridge"; "firewall"; "proxy"; "tunnel"; "vpn"; "log"; "logs";
   "tail"; "follow"; "watch"; "monitor"; "trace"; "debug"; "profile"; "metrics"; "stats";
   "health"; "status"; "info"; "version"; "audit"; "login"; "logout"; "auth"; "token";
   "secret"; "certificate"; "cert"; "key"; "role"; "user"; "group"; "permission"; "policy";
   "build"; "deploy"; "install"; "uninstall"; "upgrade"; "rollback"; "release"; "publish";
   "compile"; "validate"; "verify"; "check"; "lint"; "format"; "test"; "benchmark";
   "snapshot"; "migrate"; "live-migrate"; "takeover"; "failover"; "switchover"; "schedule";
   "suspend"; "reschedule"; "job"; "task"; "cron"; "queue"; "alert"; "notification"; "notify";
   "webhook"; "hook"; "callback"; "event"; "vm"; "network"; "image"; "kernel"; "binary";
   "volume"; "config"; "cache"; "host"; "console"; "ssh"; "template"; "tag"; "label";
   "annotation"; "quota"; "limit"; "setting"; "preference"; "string"; "int"; "int8"; "int16";
   "int32"; "int64"; "uint"; "uint8"; "uint16"; "uint32"; "uint64"; "float"; "float32";
   "float64"; "bool"; "byte"; "rune"; "any"; "interface"; "struct"; "map"; "slice"; "array";
   "chan"; "func"; "pointer"; "none"; "nonetype"; "bytes"; "bytearray"; "tuple"; "object";
   "type"; "class"; "enum"; "all"; "default"; "new"; "old"; "empty"; "root"; "self"; "system";
   "parent"; "force"; "help"; "true"; "false"; "yes"; "no"; "on"; "off"; "nil"; "null"; "0";
   "1"].

Definition IsReservedName (name : string) : bool := bool_decide (ToLower name ∈ ReservedNames).

(** Control characters, what a shell reads specially, path components, and the
    characters without width. *)
Definition DangerousChars (c : Z) : bool :=
  bool_decide (c ∈ bytesOf (";|&$`\<>{}[]()./~" ++ quote ++ dquote))
  || ((0 <=? c) && (c <? 32))%Z || bool_decide (c ∈ [127; 8203; 8204; 8205; 65279]%Z).

Definition ContainsDangerousChars (value : string) : bool := existsb DangerousChars (runes value).

(** ** [validators.go] *)

Definition between (lo hi : Z) (c : ascii) : bool :=
  let n := Z.of_nat (nat_of_ascii c) in ((lo <=? n) && (n <=? hi))%Z.
Definition lowerAlnum (c : ascii) : bool := between 97 122 c || between 48 57 c.
Definition isOneOf (cs : list ascii) (c : ascii) : bool := existsb (Ascii.eqb c) cs.

(** The class of validNameRegex after the first character, and that of
    validInterfaceNameRegex. *)
Definition nameChar (c : ascii) : bool := lowerAlnum c || isOneOf ["."; "_"; "-"]%char c.
Definition ifaceChar (c : ascii) : bool := lowerAlnum c || isOneOf ["_"; "-"]%char c.

(** Lower case letter or digit, then at most 62 of the class. *)
Definition validNameRegex (s : string) : bool :=
  match s with
  | "" => false
  | String c s' => lowerAlnum c && allChars nameChar s' && (String.length s' <=? 62)%nat
  end.

Definition validInterfaceNameRegex (s : string) : bool := negb (bool_decide (s = "")) && allChars ifaceChar s.

Definition validSSHUsernameRegex (s : string) : bool :=
  match s with
  | "" => false
  | String c s' => (between 97 122 c || Ascii.eqb c "_") && allChars ifaceChar s'
  end.

Definition hexChar (c : ascii) : bool := between 48 57 c || between 97 102 c || between 65 70 c.

Definition hexPair (s : string) : bool := (String.length s =? 2)%nat && allChars hexChar s.

Definition ValidMACRegex (s : string) : bool :=
  let parts := Split s ":" in (length parts =? 6)%nat && forallb hexPair parts.

(** White space, [; | & $ `], backslash and both quotes; not anchored. *)
Definition validBootArgComponentRegex (s : string) : bool :=
  negb (allChars (λ c, negb (reSpace c || isOneOf (String.list_ascii_of_string (";|&$`\" ++ quote ++ dquote)) c)) s).

Definition validUUIDRegex (s : string) : bool :=
  let hex (k : nat) (t : string) : bool :=
    (String.length (stake k t) =? k)%nat && allChars (λ c, between 48 57 c || between 97 102 c) (stake k t) in
  let dash (t : string) : bool := HasPrefix t "-" in
  hex 8 s && dash (sdrop 8 s) && hex 4 (sdrop 9 s) && dash (sdrop 13 s) && hex 4 (sdrop 14 s)
  && dash (sdrop 18 s) && hex 4 (sdrop 19 s) && dash (sdrop 23 s) && hex 12 (sdrop 24 s).

Definition ReservedInterfaces : list string := ["lo"; "eth0"; "eth1"; "wlan0"; "virbr0"; "docker0"].
Definition ifnamSiz : nat := 15.

(** [IsDigits]. *)
Definition IsDigits (s : string) : bool := forallb (λ c, (48 <=? c) && (c <=? 57))%Z (runes s) && negb (bool_decide (s = "")).

Definition SSHUsername (user : string) : result error unit :=
  if validSSHUsernameRegex user then Ok ()
  else Err (invalid ("invalid SSH username '" ++ user ++ "': must match ^[a-z_][a-z0-9_-]*$")).

Definition MAC (mac : string) : result error unit :=
  if ValidMACRegex mac then Ok () else Err (invalid ("invalid MAC address format: " ++ mac)).

Definition BootArgComponent (value componentName : string) : result error unit :=
  let componentName := if bool_decide (componentName = "") then "boot arg" else componentName in
  if bool_decide (value = "") then Ok ()
  else if validBootArgComponentRegex value
  then Err (invalid ("invalid " ++ componentName ++ " '" ++ value ++ "': must not contain spaces or shell metacharacters"))
  else Ok ().

(** The error of one argument, if any. *)
Definition bootArgError (arg : string) : option string :=
  let r := match Cut arg "=" with
           | Some (key, value) => BootArgComponent value key
           | None => BootArgComponent arg "boot arg"
           end in
  match r with Ok _ => None | Err err => Some (Error err) end.

Definition BootArgs (bootArgs rootUUID guestIP : string) : list string :=
  (if bool_decide (rootUUID = "") then ["root UUID is required"] else []) ++
  (if bool_decide (guestIP = "") then ["guest IP is required"] else []) ++
  (if bool_decide (bootArgs = "") then []
   else
     omap bootArgError (Fields bootArgs) ++
     (if Contains bootArgs "root_uuid" && negb (bool_decide (rootUUID = "")) && negb (validUUIDRegex rootUUID)
      then ["invalid root UUID format: " ++ rootUUID] else [])).

Section Validators.
Context (parseIPv6 : string → option IP).

Definition IsIPAddress (s : string) : bool := notNil (ParseIP parseIPv6 s).

Definition EntityName (name entityType : string) (maxLength : Z) : result error unit :=
  let maxLength := (if maxLength <=? 0 then 63 else maxLength)%Z in
  let bad (what : string) : result error unit :=
    Err (invalid ("invalid " ++ entityType ++ " name '" ++ name ++ "': " ++ what)) in
  if bool_decide (name = "") then Err (invalid ("invalid " ++ entityType ++ " name: cannot be empty"))
  else if (maxLength <? Z.of_nat (String.length name))%Z
  then bad ("exceeds maximum length of " ++ Itoa maxLength ++ " characters")
  else if HasPrefix name "-" then bad "cannot start with a hyphen"
  else if IsReservedName name then bad ("'" ++ name ++ "' is a reserved name")
  else if IsIPAddress name then bad "cannot be an IP address"
  else if ContainsDangerousChars name
  then bad "contains forbidden characters (shell metacharacters, path traversal, or control characters)"
  else if negb (validNameRegex name) then bad "must match ^[a-z0-9][a-z0-9._-]{0,62}$"
  else Ok ().

Definition KeyName (name : string) : result error unit := EntityName name "key" 63.
Definition VolumeName (name : string) : result error unit := EntityName name "volume" 63.
Definition VMName (name : string) : result error unit := EntityName name "VM" 63.

Definition NetworkName (name : string) : result error unit :=
  match EntityName name "network" 31 with
  | Err err => Err err
  | Ok _ =>
      if Contains name "." then Err (invalid ("invalid network name '" ++ name ++ "': cannot contain dots"))
      else if bool_decide (ToLower name ∈ ReservedInterfaces)
      then Err (invalid ("invalid network name '" ++ name ++ "': '" ++ name ++ "' is a reserved interface name"))
      else if HasPrefix name (CLIName ++ "-")
      then Err (invalid ("invalid network name '" ++ name ++ "': cannot start with '" ++ CLIName ++
                         "-' (reserved for bridge names)"))
      else Ok ()
  end.
End Validators.

(** *** Devices *)

(** The checks of a bridge name before the host is asked. *)
Definition bridgeSyntax (bridge : string) : result error unit :=
  let bad (what : string) : result error unit :=
    Err (invalid ("invalid bridge name: '" ++ bridge ++ "' " ++ what)) in
  if bool_decide (bridge = "") then Err (invalid "invalid bridge name: cannot be empty")
  else if (ifnamSiz <? String.length bridge)%nat then bad ("exceeds maximum length of " ++ Itoa (Z.of_nat ifnamSiz))
  else if HasPrefix bridge "-" then bad "cannot start with a hyphen"
  else if ContainsDangerousChars bridge
  then bad "contains forbidden characters (shell metacharacters, path traversal, or control characters)"
  else if negb (validInterfaceNameRegex bridge)
  then bad "must contain only lowercase alphanumeric, hyphen, and underscore characters"
  else Ok ().

(** [/sys/class/net]: whether a device has no entry there, and its state. *)
Class SysNet (W : Type) := {
  deviceMissing : string → ST W bool;
  operState : string → ST W (option string);
}.

Section Devices.
Context {W : Type} `{NetOps W} `{Runner W} `{SysNet W}.

(** Whether a result is that of a command that could not be started. *)
Context (notStarted : RunResult → bool).

#[local] Notation ME := (GoM W error).

Definition lift {A} (r : result error A) : ME A := λ w, (r, w).

Definition BridgeName (bridge : string) : ME unit :=
  _ ← lift (bridgeSyntax bridge);
  present ← calls (BridgeExists bridge);
  if present : bool
  then throw (invalid ("bridge '" ++ bridge ++ "' already exists on this host"))
  else mret ().

Definition networkError (msg : string) : error := EDomain (New CodeNetworkError msg []).

Definition EnsureInterfaceReady (iface : string) : ME unit :=
  if bool_decide (iface = "lo") then throw (networkError "Loopback interface 'lo' cannot be used for NAT")
  else
    missing ← calls (deviceMissing iface);
    if missing : bool then throw (networkError ("Interface '" ++ iface ++ "' does not exist"))
    else
      operstate ← calls (operState iface);
      if bool_decide (TrimSpace <$> operstate = Some "down")
      then throw (networkError ("Interface '" ++ iface ++ "' is down. Bring it up with: ip link set " ++ iface ++ " up"))
      else
        r ← calls (Run ["ip"; "-o"; "-4"; "addr"; "show"; iface] "");
        if notStarted r then throw (networkError "'ip' command not found — install iproute2")
        else if negb (Success r) || bool_decide (TrimSpace (Stdout r) = "")
        then throw (networkError ("Interface '" ++ iface ++
               "' has no IPv4 address assigned. NAT requires an interface with a valid IP address."))
        else mret ().

Definition gatewaySyntax (iface : string) : result error unit :=
  if bool_decide (iface = "") then Err (invalid "nat gateway interface name cannot be empty")
  else if (ifnamSiz <? String.length iface)%nat
  then Err (invalid ("invalid NAT gateway '" ++ iface ++ "': exceeds maximum length of " ++ Itoa (Z.of_nat ifnamSiz)))
  else if ContainsDangerousChars iface
  then Err (invalid ("invalid NAT gateway '" ++ iface ++
              "': contains forbidden characters (shell metacharacters, path traversal, or control characters)"))
  else if negb (validInterfaceNameRegex iface)
  then Err (invalid ("invalid NAT gateway '" ++ iface ++
              "': must contain only lowercase alphanumeric, hyphen, and underscore characters"))
  else Ok ().

Fixpoint gatewaysLoop (gateways validated : list string) : ME (list string) :=
  match gateways with
  | [] => mret validated
  | g :: rest =>
      let iface := TrimSpace g in
      _ ← lift (gatewaySyntax iface);
      ready ← try (EnsureInterfaceReady iface);
      match ready with
      | Err _ => throw (invalid ("nat gateway '" ++ iface ++ "': interface does not exist on this host"))
      | Ok _ => gatewaysLoop rest (validated ++ [iface])
      end
  end.

Definition NATGateways (gateways : list string) : ME (list string) :=
  if bool_decide (gateways = []) then throw (invalid "nat gateways cannot be empty")
  else gatewaysLoop gateways [].

(** [network.go]: the device of the first default route. *)
Fixpoint devWord (parts : list string) : option string :=
  match parts with
  | part :: ((next :: _) as rest) => if bool_decide (part = "dev") then Some next else devWord rest
  | _ => None
  end.

Definition DetectOutboundInterface : ST W string :=
  r ← Run ["ip"; "route"; "show"; "default"] "";
  mret (if Success r then default "" (head (omap (λ l, devWord (Fields l)) (Split (TrimSpace (Stdout r)) (ascii_of_nat 10))))
        else "").
End Devices.

(** ** [core/network/utils.go] *)
Section Utils.
(** The hexadecimal digits of a hash, [sha256Hex]. *)
Context (sha256Hex : string → string).

Definition nw_ComputeBridgeName (networkName : string) : string :=
  let raw := CLIName ++ "-" ++ networkName in
  if (String.length raw <=? 15)%nat then raw
  else
    let hashLen := 8%Z in
    let prefix := CLIName ++ "-" in
    let maxName := (15 - Z.of_nat (String.length prefix) - hashLen - 1)%Z in
    let nameTruncated :=
      if ((0 <? maxName) && (maxName <? Z.of_nat (String.length networkName)))%Z
      then stake (Z.to_nat maxName) networkName else networkName in
    prefix ++ nameTruncated ++ "-" ++ stake 8 (sha256Hex networkName).

Definition nw_GenerateTAPName (networkName vmName : string) : string :=
  CLIName ++ "-" ++ stake 11 (sha256Hex (networkName ++ "-" ++ vmName)).
End Utils.

Definition hexByte (b : Z) : string :=
  let hd n := String (hexDigit (Z.to_nat n)) "" in hd (b / 16)%Z ++ hd (b mod 16)%Z.

Fixpoint ToUpper (s : string) : string :=
  match s with
  | "" => ""
  | String c s' => String (if between 97 122 c then ascii_of_nat (nat_of_ascii c - 32) else c) (ToUpper s')
  end.

(** From the four random bytes, or the clock and the process ids when there are
    none. *)
Definition GenerateMAC (b : Z * Z * Z * Z) (macPrefix : string) : string :=
  let '(b0, b1, b2, b3) := b in
  ToUpper (macPrefix ++ ":" ++ hexByte b0 ++ ":" ++ hexByte b1 ++ ":" ++ hexByte b2 ++ ":" ++ hexByte b3).

(** ** Theory *)

Definition asciiChar (c : ascii) : bool := (nat_of_ascii c <? 128)%nat.

Lemma bytesOf_cons c s : bytesOf (String c s) = Z.of_nat (nat_of_ascii c) :: bytesOf s.
Proof. done. Qed.

Lemma runesFrom_ascii bs : Forall (λ b, b < 128)%Z bs → runesFrom bs 0 = bs.
Proof.
  induction 1 as [|b bs Hb _ IH]; [done|]. cbn [runesFrom]. unfold decodeRune.
  destruct (Z.ltb_spec b 128); [|lia]. cbn [Nat.sub]. by rewrite IH.
Qed.

Lemma runes_ascii s : allChars asciiChar s = true → runes s = bytesOf s.
Proof.
  intros Hs. apply runesFrom_ascii. induction s as [|c s IH]; [constructor|].
  simpl in Hs. apply andb_true_iff in Hs as [Hc Hs]. rewrite bytesOf_cons. constructor; [|by apply IH].
  unfold asciiChar in Hc. apply Nat.ltb_lt in Hc. lia.
Qed.

(** Facts on characters are checked on all of them. *)
Lemma allAscii (P : ascii → bool) :
  forallb P (ascii_of_nat <$> seq 0 256) = true → ∀ c, P c = true.
Proof.
  intros HP c. rewrite forallb_forall in HP. apply HP.
  rewrite <- (ascii_nat_embedding c). apply list_elem_of_In, list_elem_of_fmap_2.
  apply elem_of_seq. pose proof (nat_ascii_bounded c). lia.
Qed.

Lemma ascii_implies (P Q : ascii → bool) :
  forallb (λ c, implb (P c) (Q c)) (ascii_of_nat <$> seq 0 256) = true → ∀ c, P c = true → Q c = true.
Proof. intros HPQ c Hc. pose proof (allAscii _ HPQ c) as E. simpl in E. by rewrite Hc in E. Qed.

(** A text of harmless ASCII characters has no dangerous one. *)
Lemma harmless s : allChars ifaceChar s = true → ContainsDangerousChars s = false.
Proof.
  intros Hs. unfold ContainsDangerousChars. rewrite runes_ascii.
  - induction s as [|c s IH]; [done|]. simpl in Hs.
    apply andb_true_iff in Hs as [Hc Hs]. rewrite bytesOf_cons. cbn [existsb]. apply orb_false_iff. split; [|by apply IH].
    apply negb_true_iff. revert c Hc.
    apply (ascii_implies ifaceChar (λ c, negb (DangerousChars (Z.of_nat (nat_of_ascii c))))).
    vm_compute. reflexivity.
  - revert Hs. apply allChars_impl, ascii_implies. vm_compute. reflexivity.
Qed.

(** A dot is dangerous, so a harmless name that matches the pattern has none. *)
Lemma undotted s : allChars nameChar s = true → ContainsDangerousChars s = false → allChars ifaceChar s = true.
Proof.
  intros Hs. unfold ContainsDangerousChars. rewrite runes_ascii.
  - induction s as [|c s IH]; [done|]. simpl in Hs.
    apply andb_true_iff in Hs as [Hc Hs]. rewrite bytesOf_cons. cbn [existsb]. intros [Hd Hr]%orb_false_iff.
    simpl. apply andb_true_iff. split; [|by apply IH].
    pose proof (ascii_implies nameChar
      (λ c, ifaceChar c || DangerousChars (Z.of_nat (nat_of_ascii c)))
      ltac:(vm_compute; reflexivity) c Hc) as E.
    apply orb_true_iff in E as [E|E]; [done|]. by rewrite E in Hd.
  - revert Hs. apply allChars_impl, ascii_implies. vm_compute. reflexivity.
Qed.

(** The names the program accepts for its entities. *)
Definition plainName (maxLength : Z) (name : string) : bool :=
  match name with
  | "" => false
  | String c s => lowerAlnum c && allChars ifaceChar s
  end
  && (String.length name <=? 63)%nat && (Z.of_nat (String.length name) <=? maxLength)%Z
  && negb (IsReservedName name).

Lemma alnum_iface c : lowerAlnum c = true → ifaceChar c = true.
Proof. unfold ifaceChar. by intros ->. Qed.

Lemma plainName_chars n name : plainName n name = true → allChars ifaceChar name = true.
Proof.
  unfold plainName. destruct name as [|c s]; [done|]. rewrite !andb_true_iff.
  intros ([[[Hc Hs] _] _] & _). simpl. by rewrite alnum_iface, Hs.
Qed.

Section Accepted.
Context (parseIPv6 : string → option IP).

Lemma ParseIP_plain s t : allChars ifaceChar s = true → ParseIP_from parseIPv6 s t = None.
Proof.
  induction s as [|c s IH]; [done|]. intros [Hc Hs]%andb_true_iff. cbn [ParseIP_from].
  pose proof (ascii_implies ifaceChar (λ c, negb (Ascii.eqb c "." || Ascii.eqb c ":"))
    ltac:(vm_compute; reflexivity) c Hc) as [Hd Hcol]%negb_true_iff%orb_false_iff.
  rewrite Hd, Hcol. by apply IH.
Qed.

Lemma accepts_iff (name entityType : string) (maxLength : Z) :
  EntityName parseIPv6 name entityType maxLength = Ok () ↔
  plainName (if maxLength <=? 0 then 63 else maxLength)%Z name = true.
Proof.
  unfold EntityName. set (n := (if maxLength <=? 0 then 63 else maxLength)%Z).
  destruct name as [|c s]; [done|]. rewrite bool_decide_eq_false_2 by done.
  unfold plainName. split.
  - destruct (n <? _)%Z eqn:En; [done|]. apply Z.ltb_ge in En. destruct (HasPrefix _ "-"); [done|].
    destruct (IsReservedName _); [done|]. destruct (IsIPAddress _ _); [done|].
    destruct (ContainsDangerousChars _) eqn:Ed; [done|]. destruct (validNameRegex _) eqn:Er; [|done]. intros _.
    unfold validNameRegex in Er. apply andb_true_iff in Er as [[Hc Hs]%andb_true_iff Hl].
    apply Nat.leb_le in Hl. assert (allChars ifaceChar (String c s) = true) as Hu.
    { apply undotted; [|done]. simpl. unfold nameChar at 1. by rewrite Hc, Hs. }
    simpl in Hu. apply andb_true_iff in Hu as [_ Hu]. rewrite Hc, Hu.
    rewrite !andb_true_iff. split_and!; try done; simpl in *; [apply Nat.leb_le|apply Z.leb_le]; lia.
  - rewrite !andb_true_iff. intros ([[[Hc Hs] Hl] Hn] & Hr%negb_true_iff).
    apply Nat.leb_le in Hl. apply Z.leb_le in Hn.
    assert (allChars ifaceChar (String c s) = true) as Hu by (simpl; by rewrite alnum_iface, Hs).
    destruct (Z.ltb_spec n (Z.of_nat (String.length (String c s)))) as [|_]; [lia|].
    assert (HasPrefix (String c s) "-" = false) as ->.
    { destruct (HasPrefix (String c s) "-") eqn:E; [|done]. apply HasPrefix_spec in E as [t [= -> _]].
      vm_compute in Hc. discriminate Hc. }
    rewrite Hr. unfold IsIPAddress, ParseIP. rewrite ParseIP_plain by done. simpl notNil.
    rewrite harmless by done. cbn [validNameRegex]. rewrite Hc. simpl in Hl.
    assert (allChars nameChar s = true) as ->.
    { revert Hs. apply allChars_impl, ascii_implies. vm_compute. reflexivity. }
    by destruct (Nat.leb_spec (String.length s) 62); [|lia].
Qed.

Lemma EntityName_chars name entityType maxLength :
  EntityName parseIPv6 name entityType maxLength = Ok () → allChars ifaceChar name = true ∧ name ≠ "".
Proof. intros E%accepts_iff. split; [by eapply plainName_chars|by intros ->]. Qed.

(** C15. Every validator of names accepts exactly the same language: a lower case
    letter or a digit, then lower case letters, digits, hyphens and underscores,
    at most 63 characters and the maximum asked for, and no reserved word.  In
    particular no name has a dot, although the pattern in the code and in its
    message allows dots. *)
Theorem EntityName_accepts (name entityType : string) (maxLength : Z) :
  EntityName parseIPv6 name entityType maxLength = Ok () ↔
  plainName (if maxLength <=? 0 then 63 else maxLength)%Z name = true.
Proof. apply accepts_iff. Qed.
End Accepted.

(** *** Bridges of networks *)

Lemma stake_length n s : (String.length (stake n s) <= n)%nat.
Proof. revert n. induction s as [|c s IH]; intros [|n]; simpl; try lia. specialize (IH n). lia. Qed.

Lemma stake_allChars P n s : allChars P s = true → allChars P (stake n s) = true.
Proof.
  revert n. induction s as [|c s IH]; intros [|n]; simpl; try done.
  intros [Hc Hs]%andb_true_iff. by rewrite Hc, IH.
Qed.

Lemma bridgeSyntax_harmless b :
  b ≠ "" → (String.length b <= 15)%nat → HasPrefix b "-" = false → allChars ifaceChar b = true →
  bridgeSyntax b = Ok ().
Proof.
  intros Hb Hl Hp Hc. unfold bridgeSyntax. rewrite bool_decide_eq_false_2 by done.
  unfold ifnamSiz. destruct (Nat.ltb_spec 15 (String.length b)); [lia|].
  rewrite Hp, harmless by done. unfold validInterfaceNameRegex. rewrite bool_decide_eq_false_2, Hc by done. done.
Qed.

Section Bridges.
Context (parseIPv6 : string → option IP) (sha256Hex : string → string).

(** A printed hash consists of lower case hexadecimal digits. *)
Context (Hsha : ∀ s, allChars ifaceChar (sha256Hex s) = true).

Lemma NetworkName_chars name : NetworkName parseIPv6 name = Ok () → allChars ifaceChar name = true ∧ name ≠ "".
Proof.
  unfold NetworkName. destruct (EntityName _ name _ _) as [[]|] eqn:E; [intros _|done].
  apply EntityName_chars in E. done.
Qed.

(** The bridge computed for any acceptable network name passes the validator
    of bridge names: it fits the 15 bytes of an interface name, long names
    included, and has no forbidden character. *)
Lemma bridge_of_network (name : string) :
  NetworkName parseIPv6 name = Ok () →
  bridgeSyntax (nw_ComputeBridgeName sha256Hex name) = Ok () ∧
  HasPrefix (nw_ComputeBridgeName sha256Hex name) (CLIName ++ "-") = true.
Proof.
  intros [Hc _]%NetworkName_chars. unfold nw_ComputeBridgeName.
  destruct (Nat.leb_spec (String.length (CLIName ++ "-" ++ name)) 15) as [Hl|Hl].
  - split; [|by apply HasPrefix_spec; exists name; rewrite sapp_assoc].
    apply bridgeSyntax_harmless; [done..|]. by rewrite !allChars_app, Hc.
  - assert (2 <? Z.of_nat (String.length name) = true)%Z as Hlong
      by (rewrite !length_sapp in Hl; simpl in Hl; apply Z.ltb_lt; lia).
    cbv zeta. change (15 - _ - 8 - 1)%Z with 2%Z. rewrite Hlong. cbn [Z.ltb Z.compare andb].
    change (Z.to_nat 2) with 2%nat.
    split; [|by eapply HasPrefix_spec; eexists].
    pose proof (stake_length 2 name). pose proof (stake_length 8 (sha256Hex name)).
    apply bridgeSyntax_harmless; try done.
    + rewrite !length_sapp. change (String.length CLIName) with 3%nat.
      change (String.length "-") with 1%nat. lia.
    + rewrite !allChars_app, !stake_allChars by done. done.
Qed.
End Bridges.

(** ** Examples *)
Module NamesExamples.
Definition hexHash (s : string) : string := "0123456789abcdef".

Lemma bridge_of_network_witness :
  nw_ComputeBridgeName hexHash "development-net" = "mvm-de-01234567" ∧
  bridgeSyntax (nw_ComputeBridgeName hexHash "development-net") = Ok ().
Proof.
  split; [vm_compute; reflexivity|].
  apply (bridge_of_network (λ _, None) hexHash (λ _, eq_refl) "development-net"). vm_compute. reflexivity.
Defined.
End NamesExamples.
