(* ===== verification/NetService.v ===== *)
(** * The network service: [internal/core/network/service.go]

    [Service] creates and removes the devices and the firewall rules of
    networks.  It acts through the devices of the host ([NetOps]), the table of
    networks ([NetworkRepository]), the firewall tracker ([FwTracker]) and the
    leases, all of them classes; the state of the tracker (is a batch open, and
    with which rules) is threaded next to the world. *)

From stdpp Require Import gmap strings list.
From S2P Require Import Prelude GoStrings Errs Model Infra Sql System FwRepo IPTables FwTracker NetOps Networks IPNet Lease.
#[local] Open Scope string_scope.

(** [SyncResult]. *)
Record SyncResult := SyncResult_ { Added : Z; Verified : Z; Orphaned : Z }.

(** The relations of a network that its removal looks at: the names of its
    machines, nil for a nil pointer, and of its snapshots. *)
Record NetworkRefs := NetworkRefs_ { nx_VMs : list (option string); nx_Snapshots : list string }.

(** *** The rules of a network and of a TAP device *)

Definition natRule (bridge networkID : string) (table chain ruleType source destination inIface outIface target : string)
    : FirewallRule :=
  FirewallRule_ table chain ruleType FirewallProtocolAll source destination inIface outIface target
    FirewallPortAny FirewallPortAny networkID true None (Some bridge) None None None None.

Definition masqRule (bridge gatewayIface subnet networkID : string) : FirewallRule :=
  natRule bridge networkID FirewallTableNat FirewallChainMVMPostrouting FirewallRuleTypeMasquerade
    subnet FirewallWildcardAnyCIDR FirewallWildcardAnyInterface gatewayIface FirewallTargetMasquerade.
Definition fwdOutRule (bridge gatewayIface subnet networkID : string) : FirewallRule :=
  natRule bridge networkID FirewallTableFilter FirewallChainMVMForward FirewallRuleTypeForwardOut
    subnet FirewallWildcardAnyCIDR bridge gatewayIface FirewallTargetAccept.
Definition fwdInRule (bridge gatewayIface subnet networkID : string) : FirewallRule :=
  natRule bridge networkID FirewallTableFilter FirewallChainMVMForward FirewallRuleTypeForwardIn
    FirewallWildcardAnyCIDR subnet gatewayIface bridge FirewallTargetAccept.

Definition natRules (bridge subnet networkID gatewayIface : string) : list FirewallRule :=
  [masqRule bridge gatewayIface subnet networkID;
   fwdOutRule bridge gatewayIface subnet networkID;
   fwdInRule bridge gatewayIface subnet networkID].

(** [isNetworkError]. *)
Definition isNetworkError (err : error) : bool :=
  match AsDomainError err with
  | Some de =>
      bool_decide (Code_ de ∈ [CodeNetworkBridgeFailed; CodeNetworkNATFailed; CodeNetworkFirewallFailed;
        CodeNetworkNotFound; CodeNetworkLeaseFailed; CodeNetworkLeaseExhausted;
        CodeNetworkSubnetOverlap; CodeNetworkAlreadyExists])
      || bool_decide (Op de = "network")
  | None => false
  end.

Section Service.
Context {W : Type} `{NetOps W} `{NetworkRepository W} `{Tracker W} `{firewallRuleRepo W} `{Runner W}.

(** Whether the service has a firewall tracker. *)
Context (tracked : bool).

Notation S := (FirewallTracker * W)%type.
#[local] Notation M := (ST S).
#[local] Notation ME := (GoM S error).

(** A fallible call on the world. *)
Definition onRepo {A} (m : GoM W error A) : ME A := onWorld m.

(** Call the tracker when there is one. *)
Definition whenTracked (m : M unit) : M unit := if tracked then m else mret ().

Definition WithBatch {A} (fn : M A) : M A := if tracked then ft_WithBatch fn else fn.

Definition svc_Initialize : M unit := whenTracked ft_Initialize.
Definition svc_EnsureMVMChains : M unit := whenTracked ft_Initialize.
Definition svc_Teardown : M unit := whenTracked ft_Teardown.

(** The ids of the networks without a bridge. *)
Fixpoint missingBridges (networks : list NetworkItem) : M (list string) :=
  match networks with
  | [] => mret []
  | n :: rest =>
      present ← onWorld (BridgeExists (nw_Bridge n));
      ids ← missingBridges rest;
      mret (if present : bool then ids else nw_ID n :: ids)
  end.

Definition svc_ListAll (verify : bool) : ME (list NetworkItem) :=
  networks ← onRepo nr_ListAll;
  if negb verify then mret networks
  else
    missingIDs ← calls (missingBridges networks);
    if decide (missingIDs = []) then mret networks
    else
      _ ← onRepo (nr_UpdateManyIsPresent missingIDs false);
      onRepo nr_ListAll.

(** *** Bridges *)

Definition setupFailed (bridge : string) (err : error) : error :=
  EDomain (WrapMsg CodeNetworkBridgeFailed ("Failed to setup bridge " ++ bridge) err []).

(** [if err := RunBatch(cmds); err != nil { return wrap(err) }]. *)
Definition runBatchOr (wrap : error → error) (cmds : list string) : ME unit :=
  r ← try (onRepo (RunBatch cmds));
  match r with Ok _ => mret () | Err err => throw (wrap err) end.

Definition EnsureBridge (bridge bridgeAddress : string) : ME unit :=
  present ← calls (onWorld (BridgeExists bridge));
  _ ← (if present : bool then
         hasSubnet ← calls (onWorld (BridgeHasSubnet bridge bridgeAddress));
         runBatchOr (setupFailed bridge)
           ((if hasSubnet : bool then [] else ["addr add " ++ bridgeAddress ++ " dev " ++ bridge]) ++
            ["link set " ++ bridge ++ " up"])
       else
         runBatchOr (setupFailed bridge)
           ["link add name " ++ bridge ++ " type bridge";
            "addr add " ++ bridgeAddress ++ " dev " ++ bridge;
            "link set " ++ bridge ++ " up"]);
  _ ← calls (onWorld (Run ["sysctl"; "-w"; "net.bridge.bridge-nf-call-iptables=0"] ""));
  mret ().

(** *** TAP devices *)

Definition EnsureTapDevice (tap bridge : string) : ME unit :=
  present ← calls (onWorld (TapExists tap));
  if present : bool then
    currentBridge ← calls (onWorld (GetTapBridge tap));
    if bool_decide (currentBridge = bridge) then mret ()
    else if negb (bool_decide (currentBridge = "")) then
      runBatchOr (λ err, EDomain (WrapMsg CodeNetworkBridgeFailed
                    ("Failed to reattach TAP " ++ tap ++ " to bridge " ++ bridge) err []))
        ["link set " ++ tap ++ " down";
         "link set " ++ tap ++ " master " ++ bridge;
         "link set " ++ tap ++ " up"]
    else
      runBatchOr (λ err, EDomain (WrapMsg CodeNetworkBridgeFailed
                    ("Failed to attach TAP " ++ tap ++ " to bridge " ++ bridge) err []))
        ["link set " ++ tap ++ " master " ++ bridge;
         "link set " ++ tap ++ " up"]
  else
    runBatchOr (λ err, EDomain (WrapMsg CodeNetworkBridgeFailed ("Failed to create TAP " ++ tap) err []))
      ["tuntap add dev " ++ tap ++ " mode tap";
       "link set " ++ tap ++ " master " ++ bridge;
       "link set " ++ tap ++ " up"].

(** [result := EnsureRule(...); if !result.Success { return wrap(message) }]. *)
Definition ensureOr (wrap : string → error) (rule : FirewallRule) (label : string) : ME unit :=
  result ← calls (ft_EnsureRule rule label);
  if fres_Success result then mret () else throw (wrap (orEmpty (fres_ErrorMessage result))).

Definition AddTapFirewallRules (tap bridge networkID subnet : string) : ME unit :=
  if negb tracked then mret ()
  else
    forOk (NewTapForwardRules tap bridge networkID subnet) (λ rule,
      ensureOr (λ errMsg, EDomain (Wrap CodeNetworkFirewallFailed
                  (Errorf ("failed to add FORWARD rule for TAP " ++ tap ++ ": " ++ errMsg) None) []))
        rule ("tap:" ++ tap)).

(** The rules of the TAP device that the table records. *)
Definition removeTapRules (tap networkID : string) : M unit :=
  dbRules ← ft_GetByNetworkIDAndInterface networkID tap false;
  match dbRules with
  | Ok ((_ :: _) as rules) => _ ← ft_BatchRemoveRules rules; mret ()
  | _ => mret ()
  end.

Definition RemoveTap (tap bridge networkID : string) : ME unit :=
  present ← calls (onWorld (TapExists tap));
  if negb present then mret ()
  else
    effectiveBridge ← calls (if bool_decide (bridge = "") then onWorld (GetTapBridge tap) else mret bridge);
    _ ← calls (if negb (bool_decide (effectiveBridge = "")) && tracked
               then removeTapRules tap networkID else mret ());
    onRepo (RemoveRawTap tap).

Definition RemoveBridge (bridge networkID : string) : ME unit :=
  attachedTaps ← calls (onWorld (GetBridgeTaps bridge));
  _ ← calls (forEach attachedTaps (λ tap, _ ← attempt (RemoveTap tap bridge networkID); mret ()));
  r ← try (onRepo (RemoveRawBridge bridge));
  match r with
  | Ok _ => mret ()
  | Err err => throw (EDomain (WrapMsg CodeNetworkBridgeFailed ("Failed to teardown bridge " ++ bridge) err []))
  end.

(** *** NAT *)

Definition natFailed (what bridge gatewayIface errMsg : string) : error :=
  EDomain (Wrap CodeNetworkNATFailed
    (Errorf ("failed to add " ++ what ++ " rule for " ++ bridge ++ " via " ++ gatewayIface ++ ": " ++ errMsg) None) []).

Definition ensureGateway (bridge subnet networkID gatewayIface : string) : ME unit :=
  if negb tracked then mret ()
  else
    let label := bridge ++ ":" ++ gatewayIface in
    _ ← ensureOr (natFailed "MASQUERADE" bridge gatewayIface) (masqRule bridge gatewayIface subnet networkID) label;
    _ ← ensureOr (natFailed "FORWARD out" bridge gatewayIface) (fwdOutRule bridge gatewayIface subnet networkID) label;
    ensureOr (natFailed "FORWARD in" bridge gatewayIface) (fwdInRule bridge gatewayIface subnet networkID) label.

Definition EnsureNAT (bridge : string) (natGateways : list string) (subnet networkID : string) : ME unit :=
  _ ← calls svc_Initialize;
  forOk natGateways (ensureGateway bridge subnet networkID).

Definition natUndetermined (what bridge advice : string) : error :=
  EDomain (Wrap CodeNetworkNATFailed
    (Errorf ("Could not determine " ++ what ++ " for bridge " ++ bridge ++ ". Provide " ++ advice ++
             " explicitly or ensure network exists in database.") None) []).

(** The gateways and the subnet, completed from the network whose name is that
    of the bridge. *)
Definition natParams (bridge : string) (natGateways : option (list string)) (subnet : string)
    : M (option (list string) * string) :=
  if bool_decide (natGateways = None) || bool_decide (subnet = "") then
    found ← attempt (onRepo (nw_ByName [] None bridge false));
    mret (match found with
          | Ok n => (match natGateways with Some g => Some g | None => Some (NatGatewaysList n) end,
                     if bool_decide (subnet = "") then nw_Subnet n else subnet)
          | Err _ => (natGateways, subnet)
          end)
  else mret (natGateways, subnet).

Definition RemoveNAT (bridge : string) (natGateways : option (list string)) (subnet networkID : string)
    (force : bool) : ME unit :=
  params ← calls (natParams bridge natGateways subnet);
  let '(effectiveGateways, effectiveSubnet) := params in
  match effectiveGateways with
  | None => throw (natUndetermined "NAT gateways" bridge "nat_gateways")
  | Some gateways =>
      if bool_decide (effectiveSubnet = "") then throw (natUndetermined "subnet" bridge "subnet")
      else
        attachedTaps ← calls (onWorld (GetBridgeTaps bridge));
        if bool_decide (attachedTaps ≠ []) && negb force then
          throw (EDomain (New CodeNetworkError
            ("Cannot remove NAT: " ++ Itoa (Z.of_nat (length attachedTaps)) ++ " TAP(s) still attached on bridge " ++
             bridge ++ ". Use --force to override.") []))
        else
          calls (whenTracked
            (_ ← ft_BatchRemoveRules (mjoin (natRules bridge effectiveSubnet networkID <$> gateways)); mret ()))
  end.

(** *** Removal *)

(** Errors of the network kind are logged; others end the call. *)
Definition tolerate (m : ME unit) : ME unit :=
  r ← try m;
  match r with
  | Ok _ => mret ()
  | Err err => if isNetworkError err then mret () else throw err
  end.

Definition referenced (refs : NetworkRefs) : bool :=
  bool_decide (nx_VMs refs ≠ []) || bool_decide (nx_Snapshots refs ≠ []).

Definition referenceNames (refs : NetworkRefs) : list string :=
  omap id (nx_VMs refs) ++
  (if bool_decide (nx_Snapshots refs = []) then []
   else [Itoa (Z.of_nat (length (nx_Snapshots refs))) ++ " snapshot(s): " ++ Join (nx_Snapshots refs) ", "]).

Definition svc_Remove (network : NetworkItem) (refs : NetworkRefs) (force : bool) : ME unit :=
  _ ← (if nw_NATEnabled network
       then tolerate (RemoveNAT (nw_Bridge network) (Some (NatGatewaysList network)) (nw_Subnet network)
                        (nw_ID network) force)
       else mret ());
  _ ← tolerate (RemoveBridge (nw_Bridge network) (nw_ID network));
  if referenced refs && negb force then
    throw (EDomain (New CodeNetworkError ("Network referenced by: " ++ Join (referenceNames refs) ", ") []))
  else if referenced refs then onRepo (nr_SoftDelete (nw_ID network))
  else onRepo (nr_Delete (nw_ID network)).

Definition svc_RemoveMany (networks : list (NetworkItem * NetworkRefs)) (force : bool) : ME unit :=
  forOk networks (λ '(n, refs), svc_Remove n refs force).

(** *** Synchronisation *)

Fixpoint presentRules (rules : list FirewallRule) : M (list bool) :=
  match rules with
  | [] => mret []
  | r :: rest =>
      e ← ft_RuleExists r;
      es ← presentRules rest;
      mret (e :: es)
  end.

(** The active rules of each network, and which of them the kernel has. *)
Fixpoint collectRules (networks : list NetworkItem)
    : ME (list (string * (list FirewallRule * list bool))) :=
  match networks with
  | [] => mret []
  | net :: rest =>
      dbRules ← calls (ft_GetByNetworkID (nw_ID net) true);
      match dbRules with
      | Err err => throw (Errorf ("get rules for network '" ++ nw_Name net ++ "': " ++ Error err) (Some err))
      | Ok rules =>
          present ← calls (presentRules rules);
          more ← collectRules rest;
          mret ((nw_ID net, (rules, present)) :: more)
      end
  end.

Definition count (b : bool) (l : list bool) : Z := Z.of_nat (length (filter (λ x, x = b) l)).

(** One entry per id, the last one: [perNet[net.ID] = nr]. *)
Fixpoint syncResults (networks : list NetworkItem) (perNet : gmap string (list bool))
    (results : gmap string SyncResult) : M (gmap string SyncResult) :=
  match networks with
  | [] => mret results
  | net :: rest =>
      let present := default [] (perNet !! nw_ID net) in
      orphaned ← ft_CountOrphanedRules net;
      syncResults rest perNet
        (<[nw_ID net := SyncResult_ (count false present) (count true present) orphaned]> results)
  end.

Definition SyncIPTablesRulesBatch (networks : list NetworkItem) : ME (gmap string SyncResult) :=
  if negb tracked then
    mret (foldl (λ m net, <[nw_ID net := SyncResult_ 0 0 0]> m) ∅ networks)
  else
    perNet ← collectRules networks;
    let allRules := mjoin ((λ p, p.2.1) <$> perNet) in
    _ ← (if decide (allRules = []) then mret ()
         else
           result ← calls (ft_BatchEnsureRules allRules);
           if fres_Success result then mret ()
           else throw (Errorf ("batch firewall rule sync failed: " ++ orEmpty (fres_ErrorMessage result)) None));
    calls (syncResults networks (foldl (λ m p, <[p.1 := p.2.2]> m) ∅ perNet) ∅).

(** *** Orphans *)

Definition removeOrphan (bridge : string) : ME unit :=
  slaves ← calls (onWorld (GetBridgeSlaves bridge));
  _ ← forOk slaves (λ slave, onRepo (RemoveRawTap slave));
  onRepo (RemoveRawBridge bridge).

Fixpoint cleanupBridges (hostBridges : list string) (known : gset string) (n : Z) : M Z :=
  match hostBridges with
  | [] => mret n
  | bridge :: rest =>
      if negb (HasPrefix bridge (CLIName ++ "-")) then cleanupBridges rest known n
      else if bool_decide (bridge ∈ known) then cleanupBridges rest known n
      else
        r ← attempt (removeOrphan bridge);
        cleanupBridges rest known (match r with Ok _ => n + 1 | Err _ => n end)%Z
  end.

Definition CleanupOrphanedBridges (dbNetworks : list NetworkItem) : M Z :=
  hostBridges ← onWorld GetSystemBridges;
  cleanupBridges hostBridges (list_to_set (nw_Bridge <$> dbNetworks)) 0.

Fixpoint removeSlaves (slaves : list string) (summary : list string) : M (list string) :=
  match slaves with
  | [] => mret summary
  | slave :: rest =>
      r ← attempt (onRepo (RemoveRawTap slave));
      removeSlaves rest (summary ++
        [match r with
         | Err err => "Warning: failed to remove interface '" ++ slave ++ "': " ++ Error err
         | Ok _ => "Removed interface '" ++ slave ++ "'"
         end])
  end.

Fixpoint staleLoop (bridges : list string) (prefix : string) (summary : list string) : M (list string) :=
  match bridges with
  | [] => mret summary
  | bridge :: rest =>
      if negb (HasPrefix bridge prefix) then staleLoop rest prefix summary
      else
        slaves ← onWorld (GetBridgeSlaves bridge);
        summary ← removeSlaves slaves summary;
        staleLoop rest prefix summary
  end.

Definition RemoveStaleInterfaces (prefix : string) : M (list string) :=
  bridges ← onWorld GetSystemBridges; staleLoop bridges prefix [].

Definition svc_RemoveRawTap (tap : string) : ME unit := onRepo (RemoveRawTap tap).
Definition svc_RemoveRawBridge (bridge : string) : ME unit := onRepo (RemoveRawBridge bridge).

(** Whether [nft] can masquerade, tried on a table of its own. *)
Definition nftTestScript : string :=
  Join ["add table inet __mvm_nft_test";
        "add chain inet __mvm_nft_test test_post { type nat hook postrouting priority srcnat; policy accept; }";
        "add rule inet __mvm_nft_test test_post masquerade"; ""] newline.

Definition CheckNFTablesAvailable : M bool :=
  r ← onWorld (Run ["nft"; "--version"] "");
  if negb (Success r) then mret false
  else
    _ ← onWorld (Run ["modprobe"; "nft_chain_nat"] "");
    t ← onWorld (Run ["nft"; "-f"; "-"] nftTestScript);
    _ ← onWorld (Run ["nft"; "delete"; "table"; "inet"; "__mvm_nft_test"] "");
    mret (Success t).

(** *** Leases *)
Context `{LeaseRepository W}.

(** Each network with its leases. *)
Definition EnrichWithLeases (networks : list NetworkItem)
    : ME (list (NetworkItem * list NetworkLeaseItem)) :=
  r ← try (onRepo (LListAllBatch (nw_ID <$> networks)));
  match r with
  | Err err => throw (EDomain (Wrap CodeDatabaseError
                 (Errorf ("batch load leases: " ++ Error err) (Some err)) []))
  | Ok leases => mret ((λ n, (n, filter (λ l, ls_NetworkID l = nw_ID n) leases)) <$> networks)
  end.
End Service.

(** ** Theorems *)

(** *** Rules collected in a batch *)
Section Collected.
Context {W : Type} `{NetOps W} `{NetworkRepository W} `{Tracker W} `{firewallRuleRepo W} `{Runner W}.

Lemma ensureOr_batching wrap rule label rules (w : W) :
  ensureOr wrap rule label (batching rules w) = (Ok (), batching (rules ++ [rule]) w).
Proof. done. Qed.

Lemma ensureGateway_batching bridge subnet networkID gw rules (w : W) :
  ensureGateway true bridge subnet networkID gw (batching rules w) =
    (Ok (), batching (rules ++ natRules bridge subnet networkID gw) w).
Proof.
  unfold ensureGateway. simpl. rewrite bind_unfold, ensureOr_batching, bind_unfold, ensureOr_batching,
    ensureOr_batching. by rewrite <- !app_assoc.
Qed.

Lemma gateways_batching bridge subnet networkID gws rules (w : W) :
  forOk gws (ensureGateway true bridge subnet networkID) (batching rules w) =
    (Ok (), batching (rules ++ mjoin (natRules bridge subnet networkID <$> gws)) w).
Proof.
  revert rules. induction gws as [|gw gws IH]; intros rules; cbn [forOk].
  - simpl. by rewrite app_nil_r.
  - rewrite bind_unfold, ensureGateway_batching, IH, fmap_cons, join_cons. by rewrite <- app_assoc.
Qed.

Lemma EnsureNAT_batching bridge gws subnet networkID rules (w : W) :
  EnsureNAT true bridge gws subnet networkID (batching rules w) =
    (Ok (), batching (rules ++ mjoin (natRules bridge subnet networkID <$> gws)) (tr_Initialize w).2).
Proof.
  unfold EnsureNAT. rewrite bind_calls. cbn [whenTracked svc_Initialize].
  unfold svc_Initialize, whenTracked, ft_Initialize, onWorld, batching. cbn [fst snd].
  destruct (tr_Initialize w) as [[] w']. cbn [fst snd]. apply gateways_batching.
Qed.

Lemma AddTap_batching tap bridge networkID subnet rules (w : W) :
  AddTapFirewallRules true tap bridge networkID subnet (batching rules w) =
    (Ok (), batching (rules ++ NewTapForwardRules tap bridge networkID subnet) w).
Proof.
  unfold AddTapFirewallRules, NewTapForwardRules. cbn [negb].
  destruct (decide (subnet = "")); cbv beta iota zeta; cbn [forOk];
    by rewrite bind_unfold, ensureOr_batching, bind_unfold, ensureOr_batching, <- app_assoc.
Qed.
End Collected.

(** *** Synchronisation over iptables *)
Section Sync.
Context {K : Type} `{Iptables K} (rfc3339 : string → string) (constraintError : error) (xt : bool).
Context (rangeChains : string → list (FirewallChain * string)).
Context (Hrange : ∀ t, rangeChains t ≡ₚ chainToTable).

#[local] Instance iptables_tracker : Tracker (FW K) :=
  NewIPTablesTracker rfc3339 constraintError rangeChains xt.
#[local] Instance iptables_repository : firewallRuleRepo (FW K) := NewIPTablesRuleRepository.

#[local] Notation S := (FirewallTracker * FW K)%type.
#[local] Notation kchains s := (chains (fkern s.2)).
#[local] Notation rows s := (tables (fdb s.2)).

(** Reading changes neither the tracker, nor the tables, nor the chains. *)
Definition quiet (s s' : S) : Prop := s'.1 = s.1 ∧ rows s' = rows s ∧ kchains s' = kchains s.

#[local] Instance quiet_preorder : PreOrder quiet.
Proof.
  split; [by intros s|]. unfold quiet. intros s1 s2 s3 (? & ? & ?) (? & ? & ?). split_and!; congruence.
Qed.

Definition activeRules (networkID : string) (t : FwTable) : list FirewallRule :=
  filter (λ r, bool_decide (fr_NetworkID r = networkID) && fr_IsActive r) (fwRules t).

Lemma query_quiet {A} (q : FwTable → A) : upholds quiet (onWorld (onTable (query q))).
Proof.
  intros [t [d k]]. unfold onWorld, onTable. cbn [fst snd fdb fkern].
  destruct (query q d) as [r d'] eqn:E. apply query_tables in E as [Hd _].
  unfold quiet. cbn [fst snd fdb fkern]. by rewrite Hd.
Qed.

Lemma RuleExists_quiet rule : upholds quiet (ft_RuleExists rule).
Proof.
  intros [t [d k]]. unfold ft_RuleExists, onWorld. cbn [tr_RuleExists iptables_tracker NewIPTablesTracker snd].
  unfold RuleExists, command, onKernel. rewrite ST_bind_unfold. cbn [fkern fdb].
  pose proof (check_law (fr_TableName rule) (fr_ChainName rule) (ruleSpec xt rule) k) as Hlaw.
  unfold buildIptablesArgs, ActionCheck in *. destruct (Run _ _ k) as [r k']. by destruct Hlaw.
Qed.

Lemma presentRules_quiet rules : upholds quiet (presentRules rules).
Proof.
  induction rules as [|r rules IH]; cbn [presentRules]; [by upholds|].
  apply upholds_bind; [apply _|apply RuleExists_quiet|intros e].
  apply upholds_bind; [apply _|done|intros es; by upholds].
Qed.

Lemma CountOrphanedRules_quiet network : upholds quiet (ft_CountOrphanedRules network).
Proof.
  intros [t [d k]]. unfold ft_CountOrphanedRules, onWorld.
  cbn [tr_CountOrphanedRules iptables_tracker NewIPTablesTracker snd].
  unfold CountOrphanedRules. rewrite ST_bind_unfold.
  pose proof (query_quiet (λ t, filter (λ r, bool_decide (fr_NetworkID r = nw_ID network) && fr_IsActive r) (fwRules t))
    (t, FW_ d k)) as Hq.
  unfold onWorld in Hq. cbn [snd] in Hq. unfold ipt_GetByNetworkID, fwSelect.
  destruct (onTable _ _) as [[rules|e] w1]; cbn [fst snd] in *; [|exact Hq].
  etrans; [exact Hq|]. rewrite ST_bind_unfold. unfold command, onKernel.
  pose proof (save_law (fkern w1)) as Hsave. destruct (Run ["iptables-save"] "" (fkern w1)) as [r k'].
  cbn [fst snd]. by destruct (negb (Success r)).
Qed.

Lemma syncResults_quiet networks perNet results : upholds quiet (syncResults networks perNet results).
Proof.
  revert results. induction networks as [|n networks IH]; intros results; cbn [syncResults]; [by upholds|].
  apply upholds_bind; [apply _|apply CountOrphanedRules_quiet|intros z; apply IH].
Qed.

Lemma calls_quiet {A} (m : ST S A) s (r : A) s' :
  upholds quiet m → calls (E := error) m s = (Ok r, s') → kchains s' = kchains s.
Proof.
  intros Hm. unfold calls. specialize (Hm s). destruct (m s) as [a s1]. intros [= _ <-]. apply Hm.
Qed.

(** The rules collected are the active rows of the networks. *)
Lemma collectRules_spec networks (s : S) r s' :
  collectRules networks s = (r, s') →
  quiet s s' ∧
  match r with
  | Ok perNet => (λ p, p.2.1) <$> perNet = (λ n, activeRules (nw_ID n) (rows s)) <$> networks
  | Err _ => True
  end.
Proof.
  revert s r s'. induction networks as [|n networks IH]; intros s r s'; cbn [collectRules].
  { by intros [= <- <-]. }
  rewrite bind_calls. unfold ft_GetByNetworkID. cbn [fr_GetByNetworkID iptables_repository NewIPTablesRuleRepository].
  unfold ipt_GetByNetworkID, fwSelect.
  pose proof (query_quiet (λ t, activeRules (nw_ID n) t) s) as Hq. unfold activeRules in Hq.
  destruct (onWorld _ s) as [[rules|e] s1] eqn:E; cbn [fst snd] in *; [|by intros [= <- <-]].
  assert (rules = activeRules (nw_ID n) (rows s)) as ->.
  { unfold onWorld, onTable in E. destruct (query _ _) as [r1 d1] eqn:Eq. injection E as -> <-.
    by apply query_Ok in Eq as [-> _]. }
  rewrite bind_calls. pose proof (presentRules_quiet (activeRules (nw_ID n) (rows s)) s1) as Hp.
  destruct (presentRules _ s1) as [present s2]. cbn [fst snd] in *.
  rewrite bind_unfold. destruct (collectRules networks s2) as [[more|e] s3] eqn:E3.
  - intros [= <- <-]. apply IH in E3 as [Hq3 Hmore].
    assert (quiet s s2) as Hq2 by by etrans. split; [by etrans|].
    rewrite !fmap_cons, Hmore. destruct Hq2 as (_ & -> & _). done.
  - intros [= <- <-]. apply IH in E3 as [Hq3 _]. split; [|done]. do 2 (etrans; [eassumption|]). done.
Qed.

(** A synchronisation that succeeds applies the active rules in one batch, or
    none when there is none. *)
Lemma Sync_afterBatch networks (s s' : S) r :
  let rules := mjoin ((λ n, activeRules (nw_ID n) (rows s)) <$> networks) in
  Forall (ownRule xt) rules → SyncIPTablesRulesBatch true networks s = (Ok r, s') →
  ∀ t c, kchains s' !! (t, c) = afterBatch xt rules (kchains s) t c.
Proof.
  intros rules Hown E.
  unfold SyncIPTablesRulesBatch in E. cbn [negb] in E. rewrite bind_unfold in E.
  destruct (collectRules networks s) as [[perNet|e] s1] eqn:Ec; [|done].
  apply collectRules_spec in Ec as [(Ht1 & Hr1 & Hk1) Hrules]. rewrite Hrules in E. fold rules in E.
  rewrite bind_unfold in E. destruct (decide (rules = [])) as [Hnil|Hnil].
  - apply (calls_quiet _ s1 _ s' (syncResults_quiet _ _ _)) in E. rewrite E, Hk1.
    intros t c. unfold afterBatch, inTable. by rewrite Hnil, filter_nil, decide_False by tauto.
  - rewrite bind_calls in E. unfold ft_BatchEnsureRules, onWorld in E.
    cbn [tr_BatchEnsureRules iptables_tracker NewIPTablesTracker] in E.
    destruct (BatchEnsureRules _ _ _ _ rules s1.2) as [res w2] eqn:Eb.
    apply (Batch_effect rfc3339 constraintError xt rangeChains Hrange) in Eb; [|done].
    cbn [fst snd] in E. destruct (fres_Success res); [|done].
    apply (calls_quiet _ (s1.1, w2) _ s' (syncResults_quiet _ _ _)) in E.
    rewrite E. cbn [snd]. intros t c. rewrite Eb. unfold afterBatch. by rewrite Hk1.
Qed.

(** C5. A synchronisation that succeeds, over the iptables tracker.  In a table in
    which the given networks have an active rule, each chain of the program holds
    exactly their active rules of this chain, in the order of the networks and of
    the rows (in the filter table after the rule that accepts established
    connections), whatever it held before.  Every other chain is as it was: the
    foreign ones, and also the chains of the program in a table for which no active
    rule is recorded, whose stale rules stay.  So every active rule is in the kernel. *)
Theorem SyncIPTablesRulesBatch_restores (networks : list NetworkItem) (s s' : S) (r : gmap string SyncResult) :
  let rules := mjoin ((λ n, activeRules (nw_ID n) (rows s)) <$> networks) in
  Forall (ownRule xt) rules →
  SyncIPTablesRulesBatch true networks s = (Ok r, s') →
  (∀ t c, (c, t) ∈ chainToTable → inTable t rules ≠ [] →
    kchains s' !! (t, c) =
      Some (batchPrefix t ++ (ruleSpec xt <$> filter (λ x, fr_ChainName x = c) (inTable t rules)))%list) ∧
  (∀ t c, (c, t) ∉ chainToTable ∨ inTable t rules = [] → kchains s' !! (t, c) = kchains s !! (t, c)) ∧
  (∀ rule, rule ∈ rules → ∃ l, kchains s' !! (fr_TableName rule, fr_ChainName rule) = Some l ∧ ruleSpec xt rule ∈ l).
Proof.
  intros rules Hown E. pose proof (Sync_afterBatch networks s s' r Hown E) as Hall. fold rules in Hall.
  assert (∀ t c, (c, t) ∈ chainToTable → inTable t rules ≠ [] →
    kchains s' !! (t, c) = Some (batchPrefix t ++ IPTables.batchRules xt rules t c)%list) as Hin.
  { intros t c Hc Ht. rewrite Hall. unfold afterBatch. by rewrite decide_True. }
  split_and!; [exact Hin| |].
  - intros t c Hout. rewrite Hall. unfold afterBatch. rewrite decide_False; [done|]. tauto.
  - intros rule Hrule. rewrite Forall_forall in Hown.
    assert (rule ∈ inTable (fr_TableName rule) rules) as Hin' by by apply list_elem_of_filter.
    eexists. split; [apply Hin; [by apply Hown|]; intros E'; rewrite E' in Hin'; by apply elem_of_nil in Hin'|].
    apply elem_of_app. right. apply list_elem_of_fmap_2. by apply list_elem_of_filter.
Qed.
End Sync.

(** *** Removal *)
Section Removal.
Context {W : Type} `{NetOps W} `{NetworkRepository W} `{Tracker W} `{firewallRuleRepo W} `{Runner W}.
Context (tracked : bool).


(** RemoveBridge fails with an error of the network kind, or not at all. *)
Lemma RemoveBridge_tolerated bridge networkID s :
  ∃ s', tolerate (RemoveBridge tracked bridge networkID) s = (Ok (), s') ∧ s' = (RemoveBridge tracked bridge networkID s).2.
Proof.
  unfold tolerate, RemoveBridge. rewrite bind_unfold. unfold try.
  rewrite bind_calls. rewrite bind_calls. rewrite bind_unfold.
  unfold try. destruct (onRepo _ _) as [[[]|e] s1]; simpl; by eexists.
Qed.

(** RemoveNAT with the gateways and the subnet of the network answers nil or an
    error of the network kind. *)
Lemma RemoveNAT_tolerated bridge gateways subnet networkID force s :
  ∃ s', tolerate (RemoveNAT tracked bridge (Some gateways) subnet networkID force) s = (Ok (), s') ∧
        s' = (RemoveNAT tracked bridge (Some gateways) subnet networkID force s).2.
Proof.
  unfold tolerate. rewrite bind_unfold. unfold try, RemoveNAT. rewrite bind_calls.
  destruct (natParams _ _ _ s) as [[g sub] s1]. cbn [fst snd].
  destruct g as [g|]; [|by eexists].
  destruct (bool_decide (sub = "")); [by eexists|]. rewrite bind_calls.
  destruct (bool_decide _ && negb force); [by eexists|]. unfold calls.
  destruct (whenTracked _ _ _) as [[] s2]. by eexists.
Qed.

(** C16. A network that machines or snapshots still use is torn down before its
    removal is refused: without force, [Remove] answers the error that names
    them, in the state the teardown of its rules and of its bridge left. *)
Theorem Remove_refused_after_teardown (n : NetworkItem) (refs : NetworkRefs) (s : FirewallTracker * W) :
  referenced refs = true →
  svc_Remove tracked n refs false s =
    (Err (EDomain (New CodeNetworkError ("Network referenced by: " ++ Join (referenceNames refs) ", ") [])),
     (RemoveBridge tracked (nw_Bridge n) (nw_ID n)
        (if nw_NATEnabled n
         then (RemoveNAT tracked (nw_Bridge n) (Some (NatGatewaysList n)) (nw_Subnet n) (nw_ID n) false s).2
         else s)).2).
Proof.
  intros Href. unfold svc_Remove. rewrite bind_unfold. destruct (nw_NATEnabled n).
  - destruct (RemoveNAT_tolerated (nw_Bridge n) (NatGatewaysList n) (nw_Subnet n) (nw_ID n) false s)
      as (s1 & -> & ->).
    rewrite bind_unfold. edestruct RemoveBridge_tolerated as (s2 & -> & ->). by rewrite Href.
  - cbn [mret GoM_ret]. rewrite bind_unfold. edestruct RemoveBridge_tolerated as (s2 & -> & ->). by rewrite Href.
Qed.
End Removal.

(** ** Examples *)
Module NetServiceExamples.
Import ToyKernel IPTablesExamples NetworksExamples.

Definition isOk {E A} (r : result E A) : bool := match r with Ok _ => true | Err _ => false end.

(** The database records rule b, the chain of the kernel holds a foreign rule. *)
Definition synced : (FirewallTracker * FW Chains) :=
  (FirewallTracker_ false [],
   FW_ (fdb exWorld) (<[("nat", FirewallChainMVMPostrouting) := [["-j"; "STALE"]]]> exChains)).

#[local] Instance exTracker : Tracker (FW Chains) := NewIPTablesTracker id exError exRange true.
#[local] Instance exRepo : firewallRuleRepo (FW Chains) := NewIPTablesRuleRepository.

Lemma activeB :
  mjoin ((λ n, activeRules (nw_ID n) (tables (fdb synced.2))) <$> [exNet "ida" "a" true; exNet "idb" "b" false])
  = [frRow 1 "t0" ruleB].
Proof. vm_compute. reflexivity. Qed.

Lemma ownB : Forall (ownRule true) [frRow 1 "t0" ruleB].
Proof.
  apply Forall_singleton. split; [right; left|]. vm_compute.
  by repeat (apply Forall_cons; split; [by split|]).
Qed.

Lemma SyncIPTablesRulesBatch_restores_witness :
  chains (fkern (SyncIPTablesRulesBatch true [exNet "ida" "a" true; exNet "idb" "b" false] synced).2.2)
    !! ("nat", FirewallChainMVMPostrouting) = Some [ruleSpec true ruleB] ∧
  chains (fkern (SyncIPTablesRulesBatch true [exNet "ida" "a" true; exNet "idb" "b" false] synced).2.2)
    !! ("filter", FirewallChainMVMForward) = chains (fkern synced.2) !! ("filter", FirewallChainMVMForward).
Proof.
  destruct (SyncIPTablesRulesBatch true [exNet "ida" "a" true; exNet "idb" "b" false] synced)
    as [[r|e] s'] eqn:E.
  - pose proof (SyncIPTablesRulesBatch_restores id exError true exRange (λ t, reflexivity _)
      [exNet "ida" "a" true; exNet "idb" "b" false] synced s' r) as Hs.
    cbv zeta in Hs. rewrite activeB in Hs. destruct (Hs ownB E) as (Hnat & Hkept & _). cbn [snd]. split.
    + etrans; [apply (Hnat "nat" FirewallChainMVMPostrouting); [right; left|vm_compute; discriminate]|]. vm_compute. reflexivity.
    + apply (Hkept "filter" FirewallChainMVMForward). right. vm_compute. reflexivity.
  - assert (isOk (SyncIPTablesRulesBatch true [exNet "ida" "a" true; exNet "idb" "b" false] synced).1 = true) as Hok
      by (vm_compute; reflexivity).
    rewrite E in Hok. discriminate Hok.
Defined.

(** Bridges and nothing else. *)
#[local] Instance toyRunner : Runner (list string) := λ _ _, mret ok.
Definition okDevice (f : list string → list string) : GoM (list string) error unit := λ w, (Ok (), f w).

#[local] Instance toyNetOps : NetOps (list string) := {|
  BridgeExists := λ b w, (bool_decide (b ∈ w), w);
  TapExists := λ _ w, (false, w);
  BridgeHasSubnet := λ _ _ w, (false, w);
  GetBridgeTaps := λ _ w, ([], w);
  GetTapBridge := λ _ w, ("", w);
  GetBridgeSlaves := λ _ w, ([], w);
  GetSystemBridges := λ w, (w, w);
  RunBatch := λ _, okDevice id;
  RemoveRawTap := λ _, okDevice id;
  RemoveRawBridge := λ b, okDevice (filter (λ b', b' ≠ b));
|}.

#[local] Instance toyNetworks : NetworkRepository (list string) := {|
  nr_Get := λ _, mret None; nr_GetByName := λ _ _, mret None; nr_FindByPrefix := λ _ _, mret [];
  nr_Count := mret 0%Z; nr_ListAll := mret []; nr_Upsert := λ _, mret (); nr_UpdateBridgeActive := λ _ _, mret ();
  nr_SetDefault := λ _, mret (); nr_GetDefault := mret None; nr_UpdateManyIsPresent := λ _ _, mret ();
  nr_SoftDelete := λ _, mret (); nr_Delete := λ _, mret ();
|}.

Definition okRule {A} (_ : A) : ST (list string) FirewallRuleResult := mret (succeeded None None).
#[local] Instance toyTracker : Tracker (list string) := {|
  tr_Initialize := mret (); tr_Teardown := mret (); tr_EnsureRule := λ r _, okRule r;
  tr_BatchEnsureRules := okRule; tr_RemoveRule := okRule; tr_BatchRemoveRules := okRule;
  tr_EnsureChain := λ _ _ _ _, mret true; tr_FlushChain := λ _ _, mret true;
  tr_CountOrphanedRules := λ _, mret 0%Z; tr_RuleExists := λ _, mret true;
|}.
#[local] Instance toyRules : firewallRuleRepo (list string) := {|
  fr_GetByNetworkID := λ _ _, mret []; fr_GetByNetworkIDAndInterface := λ _ _ _, mret [];
|}.

(** The bridge of a network a machine uses is gone although its removal is
    refused. *)
Lemma Remove_refused_after_teardown_witness :
  let w := svc_Remove true (exNet "ida" "a" true) (NetworkRefs_ [Some "vm1"] []) false
             (FirewallTracker_ false [], ["mvm-a"; "docker0"]) in
  w.2.2 = ["docker0"] ∧ isOk w.1 = false.
Proof.
  cbv zeta.
  rewrite (Remove_refused_after_teardown true (exNet "ida" "a" true) (NetworkRefs_ [Some "vm1"] [])
    (FirewallTracker_ false [], ["mvm-a"; "docker0"]) (reflexivity _)).
  split; vm_compute; reflexivity.
Defined.
End NetServiceExamples.
