(* ===== verification/NetAPI.v ===== *)
(** * Operations on networks: [pkg/api/network.go], [pkg/api/inputs/network_create.go, network_input.go]

    The operations the command line calls: they resolve and validate their
    input, then act through the repositories and the network service.  What
    else they use (the audit log, the configuration, the enricher, the clock,
    the privilege check) is the class [OpEnv].  The shared setup of the network
    of machines ([pkg/api/vm.go], [pkg/api/snapshot.go]) is here too. *)

From Stdlib Require Import Ascii.
From stdpp Require Import gmap strings list.
From S2P Require Import Prelude GoStrings Errs Model Inputs VMRepo Sql System FwRepo IPTables FwTracker NetOps Networks IPNet Lease Names NetService.
#[local] Open Scope string_scope.

(** ** Inputs *)

Record ResolvedNetworkCreateRequest := ResolvedNetworkCreateRequest_ {
  rnc_Name : string;
  rnc_Subnet : string;
  rnc_IPv4Gateway : string;
  rnc_Bridge : string;
  rnc_NATEnabled : bool;
  rnc_NATGateways : list string;
}.

(** What the operations use of the rest of the program. *)
Class OpEnv (W : Type) := {
  NowRFC3339 : ST W string;
  LogOperation : string → list (string * string) → ST W unit;
  EnrichNetworkRefs : list NetworkItem → ST W (list (NetworkItem * NetworkRefs));
  CheckPrivileges : string → string → GoM W error unit;
  ConfigString : string → string → ST W string;
  ConfigBool : string → string → ST W bool;
  UpdateComponent : string → bool → ST W unit;
}.

Section Operations.
Context {W : Type} `{NetOps W} `{NetworkRepository W} `{Tracker W} `{firewallRuleRepo W} `{Runner W}
  `{SysNet W} `{LeaseRepository W} `{Repository W} `{OpEnv W}.
Context (tracked : bool) (notStarted : RunResult → bool).
Context (parseIPv6 : string → option IP) (formatIPv6 : list Z → string) (cidrError : string → error).
Context (sha256Hex : string → string).

#[local] Notation S := (FirewallTracker * W)%type.
#[local] Notation ME := (GoM S error).

Definition coded (code : Code) (msg : string) : error := EDomain (New code msg []).
Definition wrapped (code : Code) (msg : string) (err : error) : error := EDomain (WrapMsg code msg err []).

(** [if err != nil { return f(err) }]. *)
Definition orElse {A} (m : ME A) (f : error → error) : ME A :=
  r ← try m;
  match r with Ok a => mret a | Err err => throw (f err) end.

(** A pure check, in the monad. *)
Definition checked {A} (r : result error A) : ME A := λ s, (r, s).

(** Calls whose result is dropped. *)
Definition ignored {A} (m : ME A) : ME unit := _ ← try m; mret ().

Definition netValidate (i : NetworkCreateInput) : result error unit :=
  if bool_decide (nci_Name i = "") then Err (coded CodeValidationFailed "Network name is required")
  else if bool_decide (nci_Subnet i = "") then Err (coded CodeValidationFailed "Subnet is required")
  else Ok ().

Definition resolveGateway (i : NetworkCreateInput) : result error string :=
  match nci_IPv4Gateway i with
  | Some gw => Ok gw
  | None =>
      match ComputeIPv4Gateway parseIPv6 formatIPv6 cidrError (nci_Subnet i) with
      | Ok gw => Ok gw
      | Err err => Err (coded CodeNetworkNotFound ("Failed to compute gateway: " ++ Error err))
      end
  end.

Definition resolveNAT (i : NetworkCreateInput) : ME (bool * list string) :=
  if bool_decide (nci_NATGateways i = []) && nci_NATEnabled i then
    outbound ← calls (onWorld DetectOutboundInterface);
    mret (if negb (bool_decide (outbound = "")) then (true, [outbound]) else (false, []))
  else mret (nci_NATEnabled i, nci_NATGateways i).

Definition asValidation (err : error) : error := coded CodeValidationFailed (Error err).

Definition nci_Resolve (i : NetworkCreateInput) : ME ResolvedNetworkCreateRequest :=
  _ ← checked (netValidate i);
  ipv4Gateway ← checked (resolveGateway i);
  let bridge := nw_ComputeBridgeName sha256Hex (nci_Name i) in
  nat ← resolveNAT i;
  let '(natEnabled, natGateways) := nat in
  let result := ResolvedNetworkCreateRequest_ (nci_Name i) (nci_Subnet i) ipv4Gateway bridge natEnabled natGateways in
  _ ← orElse (checked (NetworkName parseIPv6 (rnc_Name result))) asValidation;
  _ ← orElse (checked (Subnet parseIPv6 formatIPv6 cidrError (rnc_Subnet result))) asValidation;
  _ ← orElse (checked (IPv4Gateway parseIPv6 formatIPv6 cidrError (rnc_IPv4Gateway result) (rnc_Subnet result))) asValidation;
  _ ← orElse (onRepo (BridgeName (rnc_Bridge result))) asValidation;
  _ ← (if bool_decide (rnc_NATGateways result = []) then mret []
       else orElse (onRepo (NATGateways notStarted (rnc_NATGateways result))) asValidation);
  existing ← orElse (onRepo (nr_GetByName (rnc_Name result) false))
    (λ err, coded CodeDatabaseError ("failed to check existing networks: " ++ Error err));
  match existing with
  | Some _ => throw (EDomain (AlreadyExists CodeNetworkAlreadyExists ("Network '" ++ rnc_Name result ++ "' already exists") []))
  | None =>
      existingNetworks ← orElse (onRepo nr_ListAll)
        (λ err, coded CodeDatabaseError ("failed to list existing networks: " ++ Error err));
      _ ← orElse (checked (SubnetNoOverlap parseIPv6 cidrError (rnc_Subnet result) (nw_Subnet <$> existingNetworks)))
        (λ err, EDomain (New CodeNetworkSubnetOverlap (Error err) [WithClass ClassConflict]));
      mret result
  end.

(** The networks found come with the error of those that were not. *)
Definition nwi_Resolve (i : NetworkInput) : ME (list NetworkItem) :=
  if bool_decide (nwi_Identifiers i = []) then throw (Errorf "at least one network identifier is required" None)
  else
    result ← orElse (onRepo (nw_ResolveMany ["leases"] None (nwi_Identifiers i) (nwi_IncludeDeleted i)))
      (λ err, coded CodeNetworkNotFound (Error err));
    if bool_decide (nwr_Items result = [])
    then throw (networkNotFound "No networks found matching identifiers")
    else if negb (bool_decide (nwr_Errors result = []))
    then throw (Errorf ("partial resolve failures: " ++ Join (nwr_Errors result) "; ") None)
    else mret (nwr_Items result).

(** [core/network/utils.go]. *)
Definition nw_ComputeBridgeAddress (gateway subnet : string) : result error string :=
  match ParseCIDR parseIPv6 cidrError subnet with
  | Err _ => Err (Errorf ("invalid subnet: " ++ subnet) None)
  | Ok (_, ipnet) => Ok (gateway ++ "/" ++ Itoa (nOnes ipnet))
  end.

(** ** [network.go] *)

(** The row of a new network. *)
Definition newNetwork (resolved : ResolvedNetworkCreateRequest) (createdAt : string) : NetworkItem :=
  NetworkItem_ (sha256Hex (rnc_Name resolved ++ ":" ++ rnc_Subnet resolved ++ ":" ++ createdAt))
    (rnc_Name resolved) (rnc_Subnet resolved) (rnc_Bridge resolved) (rnc_IPv4Gateway resolved)
    false (rnc_NATEnabled resolved) false true createdAt createdAt None
    (if bool_decide (rnc_NATGateways resolved = []) then None else Some (Join (rnc_NATGateways resolved) ",")).

(** Delete the row when a later step fails. *)
Definition orUndo {A} (networkID : string) (m : ME A) (f : error → error) : ME A :=
  r ← try m;
  match r with
  | Ok a => mret a
  | Err err => _ ← ignored (onRepo (nr_Delete networkID)); throw (f err)
  end.

(** The devices and the rules of a new network, or none of its row. *)
Definition materialize (resolved : ResolvedNetworkCreateRequest) (networkID : string) : ME unit :=
  let failed (err : error) (code : Code) : error :=
    wrapped code ("Failed to create network '" ++ rnc_Name resolved ++ "': " ++ Error err) err in
  bridgeAddr ← orUndo networkID (checked (nw_ComputeBridgeAddress (rnc_IPv4Gateway resolved) (rnc_Subnet resolved)))
    (λ err, wrapped CodeNetworkBridgeFailed ("Failed to compute bridge address: " ++ Error err) err);
  _ ← orUndo networkID (EnsureBridge (rnc_Bridge resolved) bridgeAddr) (λ err, failed err CodeNetworkBridgeFailed);
  if rnc_NATEnabled resolved
  then orUndo networkID (EnsureNAT tracked (rnc_Bridge resolved) (rnc_NATGateways resolved) (rnc_Subnet resolved) networkID)
         (λ err, failed err CodeNetworkNATFailed)
  else mret ().

(** The answer: the row as it is after the bridge was looked at. *)
Definition announce (resolved : ResolvedNetworkCreateRequest) (networkID : string) (setDefault : bool) : ME NetworkItem :=
  bridgeActive ← calls (onWorld (BridgeExists (rnc_Bridge resolved)));
  _ ← ignored (onRepo (nr_UpdateBridgeActive networkID bridgeActive));
  updated ← try (onRepo (nr_GetByName (rnc_Name resolved) false));
  match updated with
  | Ok (Some updated) =>
      _ ← (if setDefault then ignored (onRepo (nr_SetDefault (nw_ID updated))) else mret ());
      _ ← calls (onWorld (LogOperation "network.create" [("name", rnc_Name resolved)]));
      mret updated
  | _ => throw (networkNotFound ("Failed to fetch created network '" ++ rnc_Name resolved ++ "'"))
  end.

Definition NetworkCreate (input : NetworkCreateInput) : ME NetworkItem :=
  resolved ← orElse (nci_Resolve input) (λ err, wrapped CodeNetworkCreateFailed (Error err) err);
  createdAt ← calls (onWorld NowRFC3339);
  let networkItem := newNetwork resolved createdAt in
  _ ← orElse (onRepo (nr_Upsert networkItem))
    (λ err, wrapped CodeDatabaseError ("Failed to persist network: " ++ Error err) err);
  _ ← materialize resolved (nw_ID networkItem);
  announce resolved (nw_ID networkItem) (nci_SetDefault input).

Definition removeFailed (err : error) : error :=
  let code := if Contains (ToLower (Error err)) "in use" then "network.in_use" else "network.remove_failed" in
  wrapped code (Error err) err.

Definition NetworkRemove (input : NetworkInput) (force : bool) : ME unit :=
  networks ← orElse (nwi_Resolve input) (λ err, wrapped CodeNetworkRemoveFailed (Error err) err);
  enriched ← calls (onWorld (EnrichNetworkRefs networks));
  forOk enriched (λ '(net, refs),
    _ ← orElse (svc_Remove tracked net refs force) removeFailed;
    calls (onWorld (LogOperation "network.remove" [("id", nw_ID net); ("name", nw_Name net)]))).

Definition NetworkListAll : ME (list (NetworkItem * list NetworkLeaseItem)) :=
  networks ← svc_ListAll true;
  if bool_decide (networks = []) then mret []
  else
    r ← try (EnrichWithLeases networks);
    mret (match r with Ok enriched => enriched | Err _ => (λ n, (n, [])) <$> networks end).

(** [expected exactly one network]. *)
Definition exactlyOne (networks : list NetworkItem) (wrap : string → error) : ME NetworkItem :=
  match networks with
  | [net] => mret net
  | _ => throw (wrap (Itoa (Z.of_nat (length networks))))
  end.

Definition NetworkGet (input : NetworkInput) : ME NetworkItem :=
  networks ← nwi_Resolve input;
  exactlyOne networks (λ n, Errorf ("expected exactly one network, got " ++ n) None).

Definition NetworkSetDefault (input : NetworkInput) : ME unit :=
  networks ← orElse (nwi_Resolve input)
    (λ err, wrapped CodeNetworkDefaultSetFailed ("Failed to resolve network: " ++ Error err) err);
  net ← exactlyOne networks (λ n, coded CodeNetworkDefaultSetFailed ("Expected exactly one network, got " ++ n));
  _ ← orElse (onRepo (nwctl_SetDefault (Some net)))
    (λ err, wrapped CodeNetworkDefaultSetFailed ("Failed to set network '" ++ nw_Name net ++ "' as default: " ++ Error err) err);
  calls (onWorld (LogOperation "network.set_default" [("name", nw_Name net)])).

(** *** Inspection *)

(** The parts of [results.NetworkInspect]. *)
Record NetworkInspectResult := NetworkInspectResult_ {
  ni_Network : NetworkItem;
  ni_NATGateways : list string;
  ni_Leases : list NetworkLeaseItem;
  ni_Rules : list FirewallRule;
}.

Definition NetworkInspect (input : NetworkInput) : ME NetworkInspectResult :=
  networks ← nwi_Resolve input;
  net ← exactlyOne networks (λ n, Errorf ("expected exactly one network, got " ++ n) None);
  bridgeActive ← calls (onWorld (BridgeExists (nw_Bridge net)));
  _ ← (if Bool.eqb bridgeActive (nw_BridgeActive net) then mret ()
       else ignored (onRepo (nr_UpdateBridgeActive (nw_ID net) bridgeActive)));
  updated ← try (onRepo (nr_GetByName (nw_Name net) false));
  match updated with
  | Ok (Some updated) =>
      leases ← try (onRepo (LListAll (nw_ID updated)));
      rules ← (if tracked then calls (ft_GetByNetworkID (nw_ID updated) true) else mret (Ok []));
      mret (NetworkInspectResult_ updated (NatGatewaysList updated)
              (match leases with Ok l => l | Err _ => [] end) (match rules with Ok l => l | Err _ => [] end))
  | _ => throw (Errorf ("network '" ++ nw_Name net ++ "' not found after update") None)
  end.

(** *** Synchronisation *)

(** Recreate the bridge of a network that has none, with its NAT rules. *)
Definition restoreNetwork (net : NetworkItem) : ME unit :=
  present ← calls (onWorld (BridgeExists (nw_Bridge net)));
  if present : bool then mret ()
  else
    bridgeAddr ← orElse (checked (nw_ComputeBridgeAddress (nw_IPv4Gateway net) (nw_Subnet net)))
      (λ err, Errorf ("compute bridge address: " ++ Error err) (Some err));
    _ ← orElse (EnsureBridge (nw_Bridge net) bridgeAddr) (λ err, Errorf ("ensure bridge: " ++ Error err) (Some err));
    if nw_NATEnabled net
    then orElse (EnsureNAT tracked (nw_Bridge net) (NatGatewaysList net) (nw_Subnet net) (nw_ID net))
           (λ err, Errorf ("ensure NAT: " ++ Error err) (Some err))
    else mret ().

(** Record in the table whether the bridge exists. *)
Definition reconcileBridge (net : NetworkItem) : ME unit :=
  bridgeActive ← calls (onWorld (BridgeExists (nw_Bridge net)));
  if Bool.eqb bridgeActive (nw_BridgeActive net) then mret ()
  else ignored (onRepo (nr_UpdateBridgeActive (nw_ID net) bridgeActive)).

Definition syncNetworks (allNetworks : list NetworkItem) : ME (gmap string SyncResult) :=
  _ ← forOk allNetworks restoreNetwork;
  _ ← forOk allNetworks reconcileBridge;
  batchResults ← orElse (SyncIPTablesRulesBatch tracked allNetworks)
    (λ err, Errorf ("sync firewall rules: " ++ Error err) (Some err));
  _ ← calls (CleanupOrphanedBridges allNetworks);
  mret batchResults.

(** The statistics of the requested networks; all networks are synchronised. *)
Definition NetworkSync (input : NetworkInput) : ME (gmap string SyncResult) :=
  let listFailed (what : string) (err : error) : error :=
    wrapped CodeDatabaseError ("Failed to list " ++ what ++ ": " ++ Error err) err in
  both ← (if bool_decide (nwi_Identifiers input = [])
          then requested ← orElse (onRepo nr_ListAll) (listFailed "networks"); mret (requested, requested)
          else
            requested ← orElse (nwi_Resolve input) (λ err, wrapped CodeNetworkNotFound (Error err) err);
            allNetworks ← orElse (onRepo nr_ListAll) (listFailed "all networks");
            mret (requested, allNetworks));
  let '(requested, allNetworks) := both in
  batchResults ← orElse (syncNetworks allNetworks)
    (λ err, wrapped CodeNetworkBridgeFailed ("Network sync failed: " ++ Error err) err);
  mret (filter (λ p, p.1 ∈ nw_ID <$> requested) batchResults).

(** *** Pruning *)

(** Whether a network is left alone, unless all are to be pruned. *)
Definition pruneKeeps (referencedIDs : list string) (defaultNetName : string) (network : NetworkItem) : ME bool :=
  if bool_decide (nw_Name network = defaultNetName) then mret true
  else if bool_decide (nw_ID network ∈ referencedIDs) then mret true
  else
    leases ← try (onRepo (LListAll (nw_ID network)));
    mret (match leases with Ok (_ :: _) => true | _ => false end).

(** Remove one network: by its id when its bridge is gone, else by its name. *)
Definition pruneOne (includeAll : bool) (network : NetworkItem) : ME bool :=
  if negb (nw_IsPresent network) then (_ ← ignored (onRepo (nr_Delete (nw_ID network))); mret true)
  else
    r ← try (NetworkRemove (NetworkInput_ [nw_Name network] false false) includeAll);
    mret (match r with Ok _ => true | Err _ => false end).

Fixpoint pruneLoop (dryRun includeAll : bool) (referencedIDs : list string) (defaultNetName : string)
    (networks : list NetworkItem) (removed : list string) : ME (list string) :=
  match networks with
  | [] => mret removed
  | network :: rest =>
      keep ← (if includeAll then mret false else pruneKeeps referencedIDs defaultNetName network);
      if keep : bool then pruneLoop dryRun includeAll referencedIDs defaultNetName rest removed
      else
        done ← (if dryRun then mret true else pruneOne includeAll network);
        pruneLoop dryRun includeAll referencedIDs defaultNetName rest
          (if done : bool then removed ++ [nw_Name network] else removed)
  end.

Definition NetworkPrune (dryRun includeAll : bool) : ME (list string) :=
  _ ← orElse (onRepo (CheckPrivileges "/usr/sbin/ip" "prune networks"))
    (λ err, wrapped CodePrivilegeRequired (Error err) err);
  networks ← orElse (onRepo nr_ListAll)
    (λ err, wrapped CodeDatabaseError ("Failed to list networks: " ++ Error err) err);
  allVMs ← try (onRepo ListAll);
  let referencedIDs := filter (λ id, id ≠ "") (match allVMs with Ok vms => vm_NetworkID <$> vms | Err _ => [] end) in
  defaultNetName ← calls (onWorld (ConfigString "defaults.network" "name"));
  pruneLoop dryRun includeAll referencedIDs defaultNetName networks [].

(** *** The default network *)

Definition createDefault (defaultName defaultSubnet : string) (defaultNATEnabled : bool) : ME NetworkItem :=
  outboundIf ← calls (onWorld DetectOutboundInterface);
  let natGateways := if bool_decide (outboundIf = "") then [] else [outboundIf] in
  createdNet ← orElse
    (NetworkCreate (NetworkCreateInput_ defaultName defaultSubnet None
       (defaultNATEnabled && negb (bool_decide (natGateways = []))) natGateways false))
    (λ err, if IsNeedsInteraction err then coded CodeNetworkDefaultCreateFailed (Error err) else err);
  _ ← calls (onWorld (UpdateComponent "default_network_created" true));
  mret createdNet.

(** [model.NetworkItem{}], which a failed query answers next to its error. *)
Definition nwZero : NetworkItem :=
  NetworkItem_ "" "" "" "" "" false false false false "" "" None None.

Definition NetworkCreateDefaultNetwork : ME NetworkItem :=
  defaultName ← calls (onWorld (ConfigString "defaults.network" "name"));
  defaultSubnet ← calls (onWorld (ConfigString "defaults.network" "subnet"));
  defaultNATEnabled ← calls (onWorld (ConfigBool "defaults.network" "nat_enabled"));
  existing ← try (onRepo (nr_GetByName defaultName false));
  internalNetwork ← match existing with
                    | Ok (Some n) => mret n
                    | Ok None => createDefault defaultName defaultSubnet defaultNATEnabled
                    | Err _ => mret nwZero
                    end;
  current ← try (onRepo nr_GetDefault);
  defaultNetwork ← match current with
                   | Ok (Some n) => mret n
                   | Err _ => mret nwZero
                   | Ok None => _ ← ignored (onRepo (nr_SetDefault (nw_ID internalNetwork))); mret internalNetwork
                   end;
  bridgeAddr ← orElse (checked (nw_ComputeBridgeAddress (nw_IPv4Gateway defaultNetwork) (nw_Subnet defaultNetwork)))
    (λ err, coded CodeNetworkDefaultCreateFailed ("Failed to compute bridge address: " ++ Error err));
  _ ← ignored (EnsureBridge (nw_Bridge defaultNetwork) bridgeAddr);
  _ ← (if nw_NATEnabled defaultNetwork
       then ignored (EnsureNAT tracked (nw_Bridge defaultNetwork) (NatGatewaysList defaultNetwork)
                       (nw_Subnet defaultNetwork) (nw_ID defaultNetwork))
       else mret ());
  bridgeActive ← calls (onWorld (BridgeExists (nw_Bridge defaultNetwork)));
  _ ← ignored (onRepo (nr_UpdateBridgeActive (nw_ID defaultNetwork) bridgeActive));
  mret defaultNetwork.

(** ** [vm.go], [snapshot.go]: the network of new machines *)

(** The bridge, its NAT rules and the rules of the TAP devices, in one batch;
    the error is what the closure leaves in [bridgeErr]. *)
Definition vmNetworkBody (network : NetworkItem) (bridgeAddr : string) (tapNames : list string) : ST S (option error) :=
  b ← attempt (EnsureBridge (nw_Bridge network) bridgeAddr);
  match b with
  | Err err => mret (Some err)
  | Ok _ =>
      let natGateways := NatGatewaysList network in
      _ ← (if nw_NATEnabled network && negb (bool_decide (natGateways = []))
           then _ ← attempt (EnsureNAT tracked (nw_Bridge network) natGateways (nw_Subnet network) (nw_ID network)); mret ()
           else mret ());
      _ ← forEach tapNames (λ tapName,
        _ ← attempt (AddTapFirewallRules tracked tapName (nw_Bridge network) (nw_ID network) (nw_Subnet network)); mret ());
      mret None
  end.

Definition vmNetworkSetup (network : NetworkItem) (bridgeAddr : string) (tapNames : list string) : ME unit :=
  bridgeErr ← calls (WithBatch tracked (vmNetworkBody network bridgeAddr tapNames));
  match bridgeErr with
  | Some err => throw (Errorf ("ensure bridge: " ++ Error err) (Some err))
  | None => mret ()
  end.
End Operations.

(** ** Theorems *)

(** *** The network of new machines *)
Section VMBatch.
Context {W : Type} `{NetOps W} `{NetworkRepository W} `{Tracker W} `{firewallRuleRepo W} `{Runner W}.

#[local] Notation S := (FirewallTracker * W)%type.

(** The rules the setup collects. *)
Definition vmRules (network : NetworkItem) (tapNames : list string) : list FirewallRule :=
  (if nw_NATEnabled network
   then mjoin (natRules (nw_Bridge network) (nw_Subnet network) (nw_ID network) <$> NatGatewaysList network)
   else []) ++
  mjoin ((λ tap, NewTapForwardRules tap (nw_Bridge network) (nw_ID network) (nw_Subnet network)) <$> tapNames).

Definition sameTracker (s s' : S) : Prop := s'.1 = s.1.
#[local] Instance sameTracker_preorder : PreOrder sameTracker.
Proof. split; [by intros s|]. unfold sameTracker. intros s1 s2 s3 ? ?. congruence. Qed.

Lemma onWorld_tracker {A} (m : ST W A) : upholds sameTracker (onWorld m).
Proof. intros s. unfold onWorld. by destruct (m s.2). Qed.

Lemma EnsureBridge_tracker bridge addr : upholds sameTracker (EnsureBridge bridge addr).
Proof.
  assert (∀ wrap cmds, upholds sameTracker (runBatchOr wrap cmds)) as Hrun.
  { intros wrap cmds. unfold runBatchOr. apply upholds_okbind; [apply _|apply upholds_try, onWorld_tracker|].
    intros [|]; upholds. }
  unfold EnsureBridge. apply upholds_okbind; [apply _|apply upholds_calls, onWorld_tracker|]. intros present.
  apply upholds_okbind; [apply _| |].
  - destruct present; [|apply Hrun]. apply upholds_okbind; [apply _|apply upholds_calls, onWorld_tracker|].
    intros subnet. apply Hrun.
  - intros _. apply upholds_okbind; [apply _|apply upholds_calls, onWorld_tracker|]. intros r. upholds.
Qed.

Lemma attempt_run {E A} (m : GoM S E A) s : attempt m s = m s.
Proof. done. Qed.

Lemma ret_run {A} (a : A) (s : S) : (mret a : ST S A) s = (a, s).
Proof. done. Qed.

Lemma taps_batching bridge networkID subnet taps rules (w : W) :
  forEach taps (λ tap, _ ← attempt (AddTapFirewallRules true tap bridge networkID subnet); mret ()) (batching rules w) =
    ((), batching (rules ++ mjoin ((λ tap, NewTapForwardRules tap bridge networkID subnet) <$> taps)) w).
Proof.
  revert rules. induction taps as [|tap taps IH]; intros rules; cbn [forEach].
  - simpl. by rewrite app_nil_r.
  - rewrite ST_bind_unfold, ST_bind_unfold, attempt_run, AddTap_batching. cbn [fst snd].
    rewrite ret_run. cbn [fst snd]. rewrite IH, fmap_cons, join_cons. by rewrite <- app_assoc.
Qed.

Lemma body_batching network addr taps (w w1 : W) :
  nw_NATEnabled network = true → NatGatewaysList network ≠ [] →
  EnsureBridge (nw_Bridge network) addr (batching [] w) = (Ok (), batching [] w1) →
  vmNetworkBody true network addr taps (batching [] w) =
    (None, batching (vmRules network taps) (tr_Initialize w1).2).
Proof.
  intros Hnat Hgw Hb. unfold vmNetworkBody. rewrite ST_bind_unfold, attempt_run, Hb. cbn [fst snd].
  rewrite Hnat, bool_decide_eq_false_2 by done. cbn [negb andb].
  rewrite ST_bind_unfold, (ST_bind_unfold (attempt _)), attempt_run, EnsureNAT_batching. cbn [fst snd].
  rewrite ret_run. cbn [fst snd]. rewrite ST_bind_unfold, taps_batching. cbn [fst snd].
  unfold vmRules. by rewrite Hnat.
Qed.
End VMBatch.

(** The rules of the setup in the chain that masquerades. *)
Lemma vmRules_nat network taps :
  nw_NATEnabled network = true →
  filter (λ r, fr_ChainName r = FirewallChainMVMPostrouting) (inTable "nat" (vmRules network taps)) =
  (λ gw, masqRule (nw_Bridge network) gw (nw_Subnet network) (nw_ID network)) <$> NatGatewaysList network.
Proof.
  intros Hnat. unfold vmRules, inTable. rewrite Hnat, !filter_app.
  assert (filter (λ r, fr_ChainName r = FirewallChainMVMPostrouting) (filter (λ r, fr_TableName r = "nat")
    (mjoin ((λ tap, NewTapForwardRules tap (nw_Bridge network) (nw_ID network) (nw_Subnet network)) <$> taps))) = []) as ->.
  { induction taps as [|tap taps IH]; [done|]. rewrite fmap_cons, join_cons, !filter_app, IH, app_nil_r.
    unfold NewTapForwardRules. destruct (decide (nw_Subnet network = "")); reflexivity. }
  rewrite app_nil_r. induction (NatGatewaysList network) as [|gw gws IH]; [done|].
  rewrite !fmap_cons, join_cons, !filter_app, IH. reflexivity.
Qed.

Section VMWipe.
Context {K : Type} `{Iptables K} (rfc3339 : string → string) (constraintError : error) (xt : bool).
Context (rangeChains : string → list (FirewallChain * string)).
Context (Hrange : ∀ t, rangeChains t ≡ₚ chainToTable).
Context `{NetOps (FW K)} `{NetworkRepository (FW K)}.

#[local] Instance vm_tracker : Tracker (FW K) := NewIPTablesTracker rfc3339 constraintError rangeChains xt.
#[local] Instance vm_repository : firewallRuleRepo (FW K) := NewIPTablesRuleRepository.
#[local] Instance vm_runner : Runner (FW K) := λ args input, onKernel (Run args input).

(** C7. The network setup of new machines in a network with NAT, over the iptables
    tracker, replaces the rules of every network: when its batch is applied, the chain that masquerades holds the rules of the
    network of these machines and no others, so the machines of other networks
    lose their NAT rules until the next synchronisation.  When the batch is
    refused, the setup succeeds all the same. *)
Theorem vmNetworkSetup_replaces (network : NetworkItem) (addr : string) (taps : list string)
    (t : FirewallTracker) (w w1 w' : FW K) (res : FirewallRuleResult) :
  nw_NATEnabled network = true → NatGatewaysList network ≠ [] → Forall (ownRule xt) (vmRules network taps) →
  EnsureBridge (nw_Bridge network) addr (batching [] w) = (Ok (), batching [] w1) →
  BatchEnsureRules rfc3339 constraintError xt rangeChains (vmRules network taps) (Initialize w1).2 = (res, w') →
  vmNetworkSetup true network addr taps (t, w) = (Ok (), (FirewallTracker_ false [], w')) ∧
  (fres_Success res = true →
   chains (fkern w') !! ("nat", FirewallChainMVMPostrouting) =
     Some (ruleSpec xt <$> ((λ gw, masqRule (nw_Bridge network) gw (nw_Subnet network) (nw_ID network))
                              <$> NatGatewaysList network))).
Proof.
  intros Hnat Hgw Hown Hb Hres. split.
  - unfold vmNetworkSetup. rewrite bind_calls. unfold WithBatch.
    rewrite (WithBatch_flushes _ None (vmRules network taps) (Initialize w1).2);
      [|exact (body_batching network addr taps w w1 Hnat Hgw Hb)|].
    + cbn [fst snd tr_BatchEnsureRules vm_tracker NewIPTablesTracker]. by rewrite Hres.
    + unfold vmRules. rewrite Hnat. destruct (NatGatewaysList network); [done|]. by intros ?.
  - intros Hs. pose proof (Batch_effect rfc3339 constraintError xt rangeChains Hrange _ _ _ _ Hown Hres) as Hb'.
    rewrite Hs in Hb'. etrans; [apply (Hb' "nat" FirewallChainMVMPostrouting)|]. unfold afterBatch.
    pose proof (vmRules_nat network taps Hnat) as Hf. rewrite decide_True.
    + rewrite <- Hf. reflexivity.
    + split; [right; left|]. intros Hnil. rewrite Hnil in Hf. by destruct (NatGatewaysList network).
Qed.
End VMWipe.

(** *** Creation *)

(** The database of networks next to the rest of the world. *)
Section Beside.
Context {W2 : Type} `{NetOps W2} `{Tracker W2} `{firewallRuleRepo W2} `{Runner W2} `{SysNet W2} `{OpEnv W2}.
Context (like : string → string → bool) (rfc3339 : string → string) (constraintError : error)
  (inUse : string → bool).

#[local] Notation D := (Db (list NetworkItem)).
#[local] Notation W := (D * W2)%type.

Definition onFst {A} (m : GoM D error A) : GoM W error A := λ w, let '(r, d) := m w.1 in (r, (d, w.2)).
Definition onSnd {A} (m : ST W2 A) : ST W A := λ w, let '(a, w2) := m w.2 in (a, (w.1, w2)).

#[export] Instance beside_repo : NetworkRepository W :=
  let repo := nwSqliteRepo like rfc3339 constraintError inUse in {|
  nr_Get := λ id, onFst (nr_Get (NetworkRepository := repo) id);
  nr_GetByName := λ n d, onFst (nr_GetByName (NetworkRepository := repo) n d);
  nr_FindByPrefix := λ p d, onFst (nr_FindByPrefix (NetworkRepository := repo) p d);
  nr_Count := onFst (nr_Count (NetworkRepository := repo));
  nr_ListAll := onFst (nr_ListAll (NetworkRepository := repo));
  nr_Upsert := λ n, onFst (nr_Upsert (NetworkRepository := repo) n);
  nr_UpdateBridgeActive := λ id b, onFst (nr_UpdateBridgeActive (NetworkRepository := repo) id b);
  nr_SetDefault := λ id, onFst (nr_SetDefault (NetworkRepository := repo) id);
  nr_GetDefault := onFst (nr_GetDefault (NetworkRepository := repo));
  nr_UpdateManyIsPresent := λ ids b, onFst (nr_UpdateManyIsPresent (NetworkRepository := repo) ids b);
  nr_SoftDelete := λ id, onFst (nr_SoftDelete (NetworkRepository := repo) id);
  nr_Delete := λ id, onFst (nr_Delete (NetworkRepository := repo) id);
|}.

#[export] Instance beside_netops : NetOps W := {|
  BridgeExists := λ b, onSnd (BridgeExists b); TapExists := λ t, onSnd (TapExists t);
  BridgeHasSubnet := λ b s, onSnd (BridgeHasSubnet b s); GetBridgeTaps := λ b, onSnd (GetBridgeTaps b);
  GetTapBridge := λ t, onSnd (GetTapBridge t); GetBridgeSlaves := λ b, onSnd (GetBridgeSlaves b);
  GetSystemBridges := onSnd GetSystemBridges; RunBatch := λ c, onSnd (RunBatch c);
  RemoveRawTap := λ t, onSnd (RemoveRawTap t); RemoveRawBridge := λ b, onSnd (RemoveRawBridge b);
|}.

#[export] Instance beside_tracker : Tracker W := {|
  tr_Initialize := onSnd tr_Initialize; tr_Teardown := onSnd tr_Teardown;
  tr_EnsureRule := λ r l, onSnd (tr_EnsureRule r l); tr_BatchEnsureRules := λ l, onSnd (tr_BatchEnsureRules l);
  tr_RemoveRule := λ r, onSnd (tr_RemoveRule r); tr_BatchRemoveRules := λ l, onSnd (tr_BatchRemoveRules l);
  tr_EnsureChain := λ c t f p, onSnd (tr_EnsureChain c t f p); tr_FlushChain := λ c t, onSnd (tr_FlushChain c t);
  tr_CountOrphanedRules := λ n, onSnd (tr_CountOrphanedRules n); tr_RuleExists := λ r, onSnd (tr_RuleExists r);
|}.

#[export] Instance beside_runner : Runner W := λ args input, onSnd (Run args input).
#[export] Instance beside_sysnet : SysNet W := {|
  deviceMissing := λ d, onSnd (deviceMissing d); operState := λ d, onSnd (operState d);
|}.
#[export] Instance beside_env : OpEnv W := {|
  NowRFC3339 := onSnd NowRFC3339; LogOperation := λ o c, onSnd (LogOperation o c);
  EnrichNetworkRefs := λ l, onSnd (EnrichNetworkRefs l); CheckPrivileges := λ b d, onSnd (CheckPrivileges b d);
  ConfigString := λ s k, onSnd (ConfigString s k); ConfigBool := λ s k, onSnd (ConfigBool s k);
  UpdateComponent := λ c b, onSnd (UpdateComponent c b);
|}.

#[local] Notation S := (FirewallTracker * W)%type.
#[local] Notation db s := (s.2.1 : D).

(** Without faults of the database, the table of networks is left alone. *)
Definition rowsKept (s s' : S) : Prop := faults (db s) = [] → db s' = db s.

#[local] Instance rowsKept_preorder : PreOrder rowsKept.
Proof.
  split; [by intros s|]. unfold rowsKept. intros s1 s2 s3 H12 H23 Hf.
  specialize (H12 Hf). rewrite <- H12 in Hf. by rewrite H23, H12 by congruence.
Qed.

Lemma onSnd_kept {A} (m : ST W2 A) : upholds rowsKept (onWorld (onSnd m)).
Proof. intros [t [d w]] _. unfold onWorld, onSnd. simpl. by destruct (m w). Qed.

Lemma query_kept {A} (q : list NetworkItem → A) :
  upholds (A := result error A) rowsKept (onWorld (onFst (query q))).
Proof.
  intros [t [d w]] Hf. simpl in Hf. unfold onWorld, onFst. cbn [fst snd]. unfold query.
  rewrite statement_healthy by done. destruct d as [tb fs c]. simpl in *. by subst.
Qed.

Lemma orElse_kept {A} (m : GoM S error A) f :
  upholds (A := result error A) rowsKept m → upholds (A := result error A) rowsKept (orElse m f).
Proof.
  intros Hm. unfold orElse. apply upholds_okbind; [apply _|by apply upholds_try|]. intros [a|e]; upholds.
Qed.

Lemma checked_kept {A} (r : result error A) : upholds (A := result error A) rowsKept (checked r).
Proof. by intros s. Qed.

Lemma lift_kept {A} (r : result error A) :
  upholds (A := result error A) rowsKept (onRepo (Names.lift (W := W) r)).
Proof. by intros [t w] _. Qed.

Lemma EnsureBridge_kept bridge addr : upholds rowsKept (EnsureBridge (W := W) bridge addr).
Proof.
  assert (∀ wrap cmds, upholds rowsKept (runBatchOr (W := W) wrap cmds)) as Hrun.
  { intros wrap cmds. unfold runBatchOr. apply upholds_okbind; [apply _|apply upholds_try, onSnd_kept|].
    intros [|]; upholds. }
  unfold EnsureBridge. apply upholds_okbind; [apply _|apply upholds_calls, onSnd_kept|]. intros present.
  apply upholds_okbind; [apply _| |].
  - destruct present; [|apply Hrun]. apply upholds_okbind; [apply _|apply upholds_calls, onSnd_kept|].
    intros subnet. apply Hrun.
  - intros _. apply upholds_okbind; [apply _|apply upholds_calls, onSnd_kept|]. intros r. upholds.
Qed.

Lemma ensureOr_kept wrap rule label : upholds rowsKept (ensureOr (W := W) wrap rule label).
Proof.
  unfold ensureOr. apply upholds_okbind; [apply _| |intros res; destruct (fres_Success res); upholds].
  apply upholds_calls. intros s. unfold ft_EnsureRule. destruct (batchMode s.1); [by intros _|apply onSnd_kept].
Qed.

Lemma EnsureNAT_kept tracked bridge gws subnet id : upholds rowsKept (EnsureNAT (W := W) tracked bridge gws subnet id).
Proof.
  unfold EnsureNAT, svc_Initialize, whenTracked. apply upholds_okbind; [apply _| |intros _].
  - apply upholds_calls. destruct tracked; [apply onSnd_kept|upholds].
  - apply upholds_forOk; [apply _|]. intros gw. unfold ensureGateway. destruct (negb tracked); [upholds|].
    apply upholds_okbind; [apply _|apply ensureOr_kept|intros _].
    apply upholds_okbind; [apply _|apply ensureOr_kept|intros _]. apply ensureOr_kept.
Qed.

(** The same for programs on the world without the tracker. *)
Definition rowsKeptW (w w' : W) : Prop := faults w.1 = [] → w'.1 = w.1.

#[local] Instance rowsKeptW_preorder : PreOrder rowsKeptW.
Proof.
  split; [by intros w|]. unfold rowsKeptW. intros w1 w2 w3 H12 H23 Hf.
  specialize (H12 Hf). rewrite <- H12 in Hf. by rewrite H23, H12 by congruence.
Qed.

Lemma onWorld_kept {A} (m : ST W A) : upholds rowsKeptW m → upholds rowsKept (onWorld m).
Proof. intros Hm [t w] Hf. unfold onWorld. specialize (Hm w Hf). cbn [snd]. by destruct (m w). Qed.

Lemma onSnd_keptW {A} (m : ST W2 A) : upholds rowsKeptW (onSnd m).
Proof. intros [d w] _. unfold onSnd. simpl. by destruct (m w). Qed.

Lemma liftW_kept {A} (r : result error A) : upholds (A := result error A) rowsKeptW (Names.lift (W := W) r).
Proof. by intros w. Qed.

Lemma BridgeName_kept bridge : upholds rowsKeptW (BridgeName (W := W) bridge).
Proof.
  unfold BridgeName. apply upholds_okbind; [apply _|apply liftW_kept|intros _].
  apply upholds_okbind; [apply _|apply upholds_calls, onSnd_keptW|]. intros [|]; upholds.
Qed.

Lemma EnsureInterfaceReady_kept notStarted iface : upholds rowsKeptW (EnsureInterfaceReady (W := W) notStarted iface).
Proof.
  unfold EnsureInterfaceReady. destruct (bool_decide _); [upholds|].
  apply upholds_okbind; [apply _|apply upholds_calls, onSnd_keptW|]. intros [|]; [upholds|].
  apply upholds_okbind; [apply _|apply upholds_calls, onSnd_keptW|]. intros o. destruct (bool_decide _); [upholds|].
  apply upholds_okbind; [apply _|apply upholds_calls, onSnd_keptW|]. intros r.
  destruct (notStarted r); [upholds|]. destruct (_ || _); upholds.
Qed.

Lemma NATGateways_kept notStarted gws : upholds rowsKeptW (NATGateways (W := W) notStarted gws).
Proof.
  unfold NATGateways. destruct (bool_decide _); [upholds|]. generalize (@nil string) as validated.
  induction gws as [|g gws IH]; intros validated; cbn [gatewaysLoop]; [upholds|].
  apply upholds_okbind; [apply _|apply liftW_kept|intros _].
  apply upholds_okbind; [apply _|apply upholds_try, EnsureInterfaceReady_kept|]. intros [?|?]; [apply IH|upholds].
Qed.

Lemma DetectOutbound_kept : upholds rowsKeptW (DetectOutboundInterface (W := W)).
Proof. unfold DetectOutboundInterface. apply upholds_bind; [apply _|apply onSnd_keptW|]. intros r. upholds. Qed.

Section Create.
Context (tracked : bool) (notStarted : RunResult → bool).
Context (parseIPv6 : string → option IP) (formatIPv6 : list Z → string) (cidrError : string → error).
Context (sha256Hex : string → string).

#[local] Notation nci_Resolve := (nci_Resolve (W := W) notStarted parseIPv6 formatIPv6 cidrError sha256Hex).
#[local] Notation NetworkCreate := (NetworkCreate (W := W) tracked notStarted parseIPv6 formatIPv6 cidrError sha256Hex).
#[local] Notation materialize := (materialize (W := W) tracked parseIPv6 cidrError).

Lemma Resolve_kept input : upholds rowsKept (nci_Resolve input).
Proof.
  unfold NetAPI.nci_Resolve. apply upholds_okbind; [apply _|apply checked_kept|intros _].
  apply upholds_okbind; [apply _|apply checked_kept|intros gw].
  apply upholds_okbind; [apply _| |intros [natEnabled natGateways]].
  { unfold resolveNAT. destruct (_ && _); [|upholds].
    apply upholds_okbind; [apply _|apply upholds_calls, onWorld_kept, DetectOutbound_kept|].
    intros o. destruct (negb _); upholds. }
  do 3 (apply upholds_okbind; [apply _|apply orElse_kept, checked_kept|intros _]).
  apply upholds_okbind; [apply _|apply orElse_kept, onWorld_kept, BridgeName_kept|intros _].
  apply upholds_okbind; [apply _| |intros _].
  { destruct (bool_decide _); [upholds|apply orElse_kept, onWorld_kept, NATGateways_kept]. }
  apply upholds_okbind; [apply _|apply orElse_kept, query_kept|intros [existing|]]; [upholds|].
  apply upholds_okbind; [apply _|apply orElse_kept, query_kept|intros nets].
  apply upholds_okbind; [apply _|apply orElse_kept, checked_kept|intros _]. upholds.
Qed.

(** What a step that may be undone leaves: the table as it was, or without the
    new row. *)
Lemma orUndo_spec {A} id (m : GoM S error A) f s :
  upholds (A := result error A) rowsKept m → faults (db s) = [] → inUse id = false →
  match orUndo id m f s with
  | (Ok _, s') => db s' = db s
  | (Err _, s') => db s' = Db_ (filter (λ n, nw_ID n ≠ id) (tables (db s))) [] (clock (db s))
  end.
Proof.
  intros Hm Hf Hid. unfold orUndo. rewrite bind_unfold. unfold try. specialize (Hm s Hf).
  destruct (m s) as [[a|e] s1]; cbn [fst snd] in *; [done|].
  rewrite bind_unfold. unfold ignored. rewrite bind_unfold. unfold try, onRepo, onWorld.
  destruct s1 as [t [d w2]]. cbn [fst snd] in *. subst d.
  cbn [nr_Delete beside_repo nwSqliteRepo]. unfold onFst, nwsqlite_Delete. cbn [fst snd].
  rewrite statement_healthy by done. rewrite Hid. done.
Qed.

Lemma materialize_spec resolved id s :
  faults (db s) = [] → inUse id = false →
  match materialize resolved id s with
  | (Ok _, s') => db s' = db s
  | (Err _, s') => db s' = Db_ (filter (λ n, nw_ID n ≠ id) (tables (db s))) [] (clock (db s))
  end.
Proof.
  intros Hf Hid. unfold NetAPI.materialize. cbv zeta.
  rewrite bind_unfold. set (f1 := λ err, wrapped CodeNetworkBridgeFailed _ err).
  pose proof (orUndo_spec id (checked (nw_ComputeBridgeAddress parseIPv6 cidrError (rnc_IPv4Gateway resolved)
    (rnc_Subnet resolved))) f1 s (checked_kept _) Hf Hid) as H1'.
  destruct (orUndo _ _ f1 s) as [[addr|e] s1]; [|done].
  rewrite bind_unfold. set (f2 := λ err, wrapped CodeNetworkBridgeFailed _ err).
  pose proof (orUndo_spec id (EnsureBridge (rnc_Bridge resolved) addr) f2 s1 (EnsureBridge_kept _ _)
    ltac:(by rewrite H1') Hid) as H2'. rewrite H1' in H2'.
  destruct (orUndo _ _ f2 s1) as [[[]|e] s2]; [|done].
  destruct (rnc_NATEnabled resolved); [|done]. set (f3 := λ err, wrapped CodeNetworkNATFailed _ err).
  pose proof (orUndo_spec id (EnsureNAT tracked (rnc_Bridge resolved) (rnc_NATGateways resolved)
    (rnc_Subnet resolved) id) f3 s2 (EnsureNAT_kept _ _ _ _ _) ltac:(by rewrite H2') Hid) as H3'.
  by rewrite H2' in H3'.
Qed.

(** The insertion of a network with a fresh id. *)
Lemma Upsert_fresh n (s : S) :
  faults (db s) = [] → nw_ID n ∉ nw_ID <$> tables (db s) →
  match onRepo (nr_Upsert n) s with
  | (Ok _, s') => db s' = Db_ (tables (db s) ++ [n])%list [] (clock (db s))
  | (Err _, s') => db s' = db s
  end.
Proof.
  destruct s as [t [d w2]]. cbn [fst snd]. intros Hf Hid.
  unfold onRepo, onWorld. cbn [fst snd nr_Upsert beside_repo nwSqliteRepo]. unfold onFst, nwsqlite_Upsert. cbn [fst snd].
  rewrite statement_healthy by done. unfold nwUpsertRow. destruct (decide _).
  - destruct d as [tb fs c]. simpl in *. by subst.
  - unfold upsertBy. by rewrite decide_False.
Qed.

Lemma filter_fresh (n : NetworkItem) t :
  nw_ID n ∉ nw_ID <$> t → filter (λ x, nw_ID x ≠ nw_ID n) (t ++ [n])%list = t.
Proof.
  intros Hn. rewrite filter_app, (filter_cons_False _ n) by (intros Hne; by apply Hne).
  rewrite filter_nil, app_nil_r. induction t as [|x t IH]; [done|].
  rewrite fmap_cons, not_elem_of_cons in Hn. rewrite filter_cons_True by naive_solver. by rewrite IH by naive_solver.
Qed.

Lemma Resolve_fields input s resolved s' :
  nci_Resolve input s = (Ok resolved, s') →
  rnc_Name resolved = nci_Name input ∧ rnc_Subnet resolved = nci_Subnet input.
Proof.
  unfold NetAPI.nci_Resolve. intros E.
  repeat match type of E with
         | (mbind _ _) _ = _ => apply bind_Ok_inv in E as (? & ? & _ & E); cbv zeta in E
         | (let '(_, _) := ?p in _) _ = _ => destruct p
         | (match ?o with Some _ => _ | None => _ end) _ = _ => destruct o; [done|]
         end.
  by injection E as <- <-.
Qed.

Lemma resolved_fields input f s resolved s' :
  orElse (nci_Resolve input) f s = (Ok resolved, s') →
  rnc_Name resolved = nci_Name input ∧ rnc_Subnet resolved = nci_Subnet input.
Proof.
  unfold orElse. intros (r0 & s0 & E0 & E1)%bind_Ok_inv. unfold try in E0.
  destruct (nci_Resolve input s) as [r1 s1] eqn:Er. injection E0 as <- <-.
  destruct r1; [|done]. injection E1 as -> <-. by eapply Resolve_fields.
Qed.

(** What follows the insertion changes flags only: the ids and the names stay. *)
Definition columns (t : list NetworkItem) := (λ n, (nw_ID n, nw_Name n, nw_DeletedAt n)) <$> t.

Lemma reported_columns id b s :
  faults (db s) = [] →
  faults (db (ignored (onRepo (nr_UpdateBridgeActive id b)) s).2) = [] ∧
  columns (tables (db (ignored (onRepo (nr_UpdateBridgeActive id b)) s).2)) = columns (tables (db s)).
Proof.
  destruct s as [t [d w2]]. intros Hf. cbn [fst snd] in Hf. unfold ignored. rewrite bind_unfold.
  unfold try, onRepo, onWorld. cbn [fst snd nr_UpdateBridgeActive beside_repo nwSqliteRepo].
  unfold onFst, nwsqlite_UpdateBridgeActive. cbn [fst snd]. rewrite statement_healthy by done.
  split; [done|]. cbn. unfold columns. by apply updateRow_column.
Qed.

Lemma default_columns id s :
  columns (tables (db (ignored (onRepo (nr_SetDefault id)) s).2)) = columns (tables (db s)).
Proof.
  destruct s as [t [d w2]]. unfold ignored. rewrite bind_unfold. unfold try, onRepo, onWorld.
  cbn [fst snd nr_SetDefault beside_repo nwSqliteRepo]. unfold onFst. cbn [fst snd].
  destruct (nwsqlite_SetDefault id d) as [r d'] eqn:E. cbn [fst snd].
  apply transaction_atomic in E. destruct r as [[]|e]; [|cbn; by rewrite E].
  destruct E as (d1 & d2 & Ht1 & _ & E & Ht). apply bind_Ok_inv in E as ([] & dm & Em & E).
  apply statement_Ok in Em as [[= Em] _]. apply statement_Ok in E as [[= E] _]. cbn.
  rewrite Ht, <- E, <- Em, Ht1. unfold columns, markDefault, clearDefault. rewrite <- !list_fmap_compose.
  apply list_fmap_ext. intros _ n _. cbn. unfold live, touched. by repeat case_match.
Qed.

Lemma found_by_name name id t :
  (id, name, None) ∈ columns t →
  ∃ x, head (filter (λ n, bool_decide (nw_Name n = name) && (false || live n)) t) = Some x ∧ nw_Name x = name.
Proof.
  intros (n & Hn & Hin)%list_elem_of_fmap. injection Hn as -> -> Hd.
  assert (n ∈ filter (λ x, bool_decide (nw_Name x = nw_Name n) && (false || live x)) t) as Hf.
  { apply list_elem_of_filter. split; [|done]. unfold live. rewrite <- Hd. by rewrite !bool_decide_eq_true_2. }
  destruct (filter _ t) as [|x l] eqn:E; [by apply elem_of_nil in Hf|]. exists x. split; [done|].
  assert (x ∈ filter (λ x, bool_decide (nw_Name x = nw_Name n) && (false || live x)) t) as [Hx _]%list_elem_of_filter
    by (rewrite E; left). apply Is_true_true, andb_true_iff in Hx as [Hx _]. by apply bool_decide_eq_true in Hx.
Qed.

Lemma GetByName_run name t (d : D) (w2 : W2) :
  faults d = [] →
  onRepo (nr_GetByName name false) (t, (d, w2)) =
    (Ok (head (filter (λ n, bool_decide (nw_Name n = name) && (false || live n)) (tables d))), (t, (d, w2))).
Proof.
  intros Hf. unfold onRepo, onWorld. cbn [fst snd nr_GetByName beside_repo nwSqliteRepo].
  unfold onFst, nwsqlite_GetByName, nwGet, query. cbn [fst snd].
  rewrite statement_healthy by done. destruct d as [tb fs c]. simpl in *. by subst.
Qed.

Lemma announce_spec resolved id setDefault s :
  faults (db s) = [] → (id, rnc_Name resolved, None) ∈ columns (tables (db s)) →
  ∃ x s', announce (W := W) resolved id setDefault s = (Ok x, s') ∧ nw_Name x = rnc_Name resolved ∧
          columns (tables (db s')) = columns (tables (db s)).
Proof.
  intros Hf Hin. unfold announce. rewrite bind_calls. set (b := (onWorld _ s).1). set (s1 := (onWorld _ s).2).
  assert (db s1 = db s) as Hk by by apply (onSnd_kept (BridgeExists (rnc_Bridge resolved)) s).
  rewrite <- Hk in Hf, Hin |- *. clearbody b s1. clear Hk s.
  pose proof (reported_columns id b s1 Hf) as [Hf2 Hc2]. rewrite bind_unfold.
  assert (∃ s2, ignored (onRepo (nr_UpdateBridgeActive id b)) s1 = (Ok (), s2)) as [s2 E2].
  { unfold ignored. rewrite bind_unfold. unfold try. destruct (onRepo _ s1). by eexists. }
  rewrite E2 in Hf2, Hc2 |- *. cbn [snd] in Hf2, Hc2. rewrite <- Hc2 in Hin |- *. clear E2 Hc2 Hf s1.
  destruct s2 as [t [d w2]]. cbn [fst snd] in *. destruct (found_by_name _ _ _ Hin) as (x & Hx & Hxn).
  rewrite bind_unfold. unfold try at 1. rewrite GetByName_run, Hx by done.
  rewrite bind_unfold. set (s3 := (t, (d, w2))).
  assert (∃ s4, (if setDefault then ignored (onRepo (nr_SetDefault (nw_ID x))) else mret ()) s3 = (Ok (), s4) ∧
    columns (tables (db s4)) = columns (tables d)) as (s4 & -> & Hc4).
  { destruct setDefault; [|by eexists]. pose proof (default_columns (nw_ID x) s3) as Hc.
    unfold ignored in *. rewrite bind_unfold in *. unfold try in *. destruct (onRepo _ s3). by eexists. }
  rewrite bind_calls. eexists x, _. split; [done|]. split; [done|].
  rewrite <- Hc4. unfold onWorld. destruct s4 as [t4 [d4 w4]]. cbn [fst snd].
  unfold LogOperation, beside_env, onSnd. cbn [fst snd]. by destruct (LogOperation _ _ w4).
Qed.

(** C6. [NetworkCreate] is all or nothing in the table of networks: unless a
    statement of the database itself fails, an error of any step leaves the table
    as it was, and a success adds one row, for a live network of the given name,
    which is the one it answers. *)
Theorem NetworkCreate_all_or_nothing (input : NetworkCreateInput) (s s' : S) (r : result error NetworkItem) :
  faults (db s) = [] →
  (∀ createdAt, let id := sha256Hex (nci_Name input ++ ":" ++ nci_Subnet input ++ ":" ++ createdAt) in
     id ∉ nw_ID <$> tables (db s) ∧ inUse id = false) →
  NetworkCreate input s = (r, s') →
  match r with
  | Err _ => tables (db s') = tables (db s)
  | Ok n => nw_Name n = nci_Name input ∧
            ∃ id, columns (tables (db s')) = (columns (tables (db s)) ++ [(id, nci_Name input, None)])%list
  end.
Proof.
  intros Hf Hfresh. unfold NetAPI.NetworkCreate. rewrite bind_unfold.
  pose proof (orElse_kept _ (λ err, wrapped CodeNetworkCreateFailed (Error err) err) (Resolve_kept input) s Hf) as Hk0.
  destruct (orElse _ _ s) as [[resolved|e] s0] eqn:E0; cbn [snd] in Hk0; [|by intros [= <- <-]; rewrite Hk0].
  apply resolved_fields in E0 as [Hname Hsub]. rewrite bind_calls.
  set (created := (onWorld _ s0).1). set (s1 := (onWorld _ s0).2).
  assert (db s1 = db s) as Hk1 by (rewrite <- Hk0; apply (onSnd_kept NowRFC3339 s0); by rewrite Hk0).
  clearbody created s1. rewrite <- Hk1 in Hf, Hfresh |- *. clear Hk0 Hk1 s0 s.
  set (n := newNetwork sha256Hex resolved created).
  assert (nw_ID n ∉ nw_ID <$> tables (db s1) ∧ inUse (nw_ID n) = false) as [Hid Huse].
  { unfold n, newNetwork. cbn [nw_ID]. rewrite Hname, Hsub. apply Hfresh. }
  pose proof (Upsert_fresh n s1 Hf Hid) as Hup. rewrite bind_unfold. unfold orElse at 1. rewrite bind_unfold. unfold try at 1.
  destruct (onRepo (nr_Upsert n) s1) as [[[]|e] s2]; [|by intros [= <- <-]; rewrite Hup].
  cbn [mret GoM_ret]. rewrite bind_unfold.
  pose proof (materialize_spec resolved (nw_ID n) s2 ltac:(by rewrite Hup) Huse) as Hm.
  destruct (NetAPI.materialize _ _ _ _ _ s2) as [[[]|e] s3]; rewrite Hup in Hm.
  - destruct (announce_spec resolved (nw_ID n) (nci_SetDefault input) s3) as (x & s4 & E4 & Hx & Hc).
    + by rewrite Hm.
    + rewrite Hm. cbn [tables]. unfold columns. rewrite fmap_app. apply elem_of_app. right. by left.
    + rewrite E4. intros [= <- <-]. split; [by rewrite Hx, Hname|]. exists (nw_ID n).
      rewrite Hc, Hm. cbn [tables]. unfold columns. rewrite fmap_app, <- Hname. done.
  - intros [= <- <-]. rewrite Hm. cbn [tables]. by apply filter_fresh.
Qed.
End Create.
End Beside.

(** ** Examples *)
Module NetAPIExamples.
Import ToyKernel IPTablesExamples NetworksExamples.

(** A host without devices, on which every command on devices works. *)
#[local] Instance noDevices : NetOps (FW Chains) := {|
  BridgeExists := λ _, mret false; TapExists := λ _, mret false; BridgeHasSubnet := λ _ _, mret false;
  GetBridgeTaps := λ _, mret []; GetTapBridge := λ _, mret ""; GetBridgeSlaves := λ _, mret [];
  GetSystemBridges := mret []; RunBatch := λ _, mret (); RemoveRawTap := λ _, mret (); RemoveRawBridge := λ _, mret ();
|}.
#[local] Instance noNetworks : NetworkRepository (FW Chains) := {|
  nr_Get := λ _, mret None; nr_GetByName := λ _ _, mret None; nr_FindByPrefix := λ _ _, mret [];
  nr_Count := mret 0%Z; nr_ListAll := mret []; nr_Upsert := λ _, mret (); nr_UpdateBridgeActive := λ _ _, mret ();
  nr_SetDefault := λ _, mret (); nr_GetDefault := mret None; nr_UpdateManyIsPresent := λ _ _, mret ();
  nr_SoftDelete := λ _, mret (); nr_Delete := λ _, mret ();
|}.

Definition netA : NetworkItem := exNet "ida" "a" true.

Lemma ownVM : Forall (ownRule true) (vmRules netA ["mvm-tap1"]).
Proof.
  unfold vmRules. simpl.
  repeat (apply Forall_cons; split; [split; [vm_compute; repeat first [left; reflexivity|right]|vm_compute;
    repeat (apply Forall_cons; split; [by split|]); by apply Forall_nil]|]).
  by apply Forall_nil.
Qed.

#[local] Instance exVMTracker : Tracker (FW Chains) := vm_tracker id exError true exRange.
#[local] Instance exVMRunner : Runner (FW Chains) := vm_runner.

Definition applied : FirewallRuleResult * FW Chains :=
  BatchEnsureRules id exError true exRange (vmRules netA ["mvm-tap1"]) (Initialize exWorld).2.

Lemma bridge_ready :
  EnsureBridge (nw_Bridge netA) "10.0.1.1/24" (batching [] exWorld) = (Ok (), batching [] exWorld).
Proof. vm_compute. reflexivity. Qed.

Lemma applied_ok : fres_Success applied.1 = true.
Proof. vm_compute. reflexivity. Qed.

(** The rule of network b is gone after a machine of network a was created. *)
Lemma vmNetworkSetup_replaces_witness :
  let w' := (vmNetworkSetup true netA "10.0.1.1/24" ["mvm-tap1"] (FirewallTracker_ false [], exWorld)).2.2 in
  chains (fkern exWorld) !! ("nat", FirewallChainMVMPostrouting) = Some [ruleSpec true ruleB] ∧
  chains (fkern w') !! ("nat", FirewallChainMVMPostrouting) = Some [ruleSpec true ruleA].
Proof.
  cbv zeta. split; [vm_compute; reflexivity|].
  destruct (vmNetworkSetup_replaces id exError true exRange (λ t, reflexivity _) netA "10.0.1.1/24" ["mvm-tap1"]
    (FirewallTracker_ false []) exWorld exWorld applied.2 applied.1 eq_refl ltac:(discriminate) ownVM bridge_ready
    (surjective_pairing _)) as [E Hk].
  etrans; [|exact (Hk applied_ok)].
  exact (f_equal (λ r : result error unit * (FirewallTracker * FW Chains),
    chains (fkern r.2.2) !! ("nat", FirewallChainMVMPostrouting)) E).
Defined.

(** *** A creation that fails half way *)
Import NetServiceExamples IPExamples.

(** Bridges cannot be made. *)
Definition brokenNetOps : NetOps (list string) := {|
  BridgeExists := λ b w, (bool_decide (b ∈ w), w);
  TapExists := λ _ w, (false, w);
  BridgeHasSubnet := λ _ _ w, (false, w);
  GetBridgeTaps := λ _ w, ([], w);
  GetTapBridge := λ _ w, ("", w);
  GetBridgeSlaves := λ _ w, ([], w);
  GetSystemBridges := λ w, (w, w);
  RunBatch := λ _, throw (Errorf "ip -batch failed" None);
  RemoveRawTap := λ _, mret ();
  RemoveRawBridge := λ _, mret ();
|}.
Definition anySysNet : SysNet (list string) := {| deviceMissing := λ _, mret false; operState := λ _, mret None |}.
Definition anyEnv : OpEnv (list string) := {|
  NowRFC3339 := mret "t2"; LogOperation := λ _ _, mret (); EnrichNetworkRefs := λ l, mret ((λ n, (n, NetworkRefs_ [] [])) <$> l);
  CheckPrivileges := λ _ _, mret (); ConfigString := λ _ _, mret "default"; ConfigBool := λ _ _, mret false;
  UpdateComponent := λ _ _, mret ();
|}.

Definition anyLike (p s : string) : bool := HasPrefix (s ++ "%") p.
Definition anyHash (s : string) : string := "0" ++ s.
Definition inputC : NetworkCreateInput := NetworkCreateInput_ "c" "10.0.9.0/24" (Some "10.0.9.1") false [] false.
Definition beforeC : FirewallTracker * (Db (list NetworkItem) * list string) :=
  (FirewallTracker_ false [], (exDb, ["docker0"])).

Definition createC : result error NetworkItem * (FirewallTracker * (Db (list NetworkItem) * list string)) :=
  NetworkCreate (H := beside_netops (H := brokenNetOps))
    (H0 := beside_repo anyLike id NetworksExamples.exError (λ _, false))
    (H1 := beside_tracker (H0 := toyTracker)) (H3 := beside_runner (H2 := NetServiceExamples.toyRunner))
    (H4 := beside_sysnet (H3 := anySysNet)) (H7 := beside_env (H4 := anyEnv))
    true (λ _, false) noIPv6 noFormat badCIDR anyHash inputC beforeC.

Lemma NetworkCreate_all_or_nothing_witness :
  (∃ e, createC.1 = Err e ∧ Error e = "Failed to create network 'c': Failed to setup bridge mvm-c") ∧
  tables createC.2.2.1 = tables exDb.
Proof.
  assert (∃ e, createC.1 = Err e ∧ Error e = "Failed to create network 'c': Failed to setup bridge mvm-c") as (e & Ee & Em)
    by (eexists; vm_compute; split; reflexivity).
  split; [by exists e|].
  pose proof (NetworkCreate_all_or_nothing (H := brokenNetOps) (H0 := toyTracker) (H2 := NetServiceExamples.toyRunner)
    (H3 := anySysNet) (H4 := anyEnv) anyLike id NetworksExamples.exError (λ _, false) true (λ _, false) noIPv6 noFormat
    badCIDR anyHash inputC beforeC createC.2 createC.1 eq_refl) as Hc.
  rewrite Ee in Hc. apply Hc; [|by rewrite <- Ee; apply surjective_pairing].
  intros created. split; [|done]. intros Hin. cbn in Hin. apply elem_of_cons in Hin as [Hin|Hin]; [discriminate Hin|].
  apply list_elem_of_singleton in Hin. discriminate Hin.
Defined.
End NetAPIExamples.
