(* ===== verification/CloudInit.v ===== *)
(** * Cloud-init: [internal/core/cloudinit, internal/service/nocloudnet/spawn.go]

    The seed of a machine's first boot.  [ResolveMode] reads the mode the caller
    asks for; the manager writes the seed directory, from the template or from a
    file of the user; the provisioner makes it reachable for the guest: an ISO,
    a server on the bridge with a firewall rule, or files in the root file
    system.

    The codecs of YAML, the template of the assets and the hash of the password
    are parameters: [parseYAML] and [marshalYAML] of documents, [decodeUsers] and
    [encodeUsers] the users of a document as structs and back, [render] a section
    of the template.  What the range of Go's map of directives visits is
    [rangeDirectives].  The texts of the host, its ports and the processes of its
    services are classes. *)

From Stdlib Require Import Ascii.
From stdpp Require Import gmap strings list.
From S2P Require Import Prelude GoStrings Errs Model System FwTracker NetOps Files Names.
#[local] Open Scope string_scope.

Class TextFiles (W : Type) := {
  ReadText : string → GoM W error string;
  WriteText : string → string → GoM W error unit;
  (** [syscall.Access(path, X_OK)]. *)
  Access : string → GoM W error unit;
}.

Class Ports (W : Type) := {
  (** [net.Listen], closed again; [net.DialTimeout], closed again. *)
  Listens : string → Z → ST W bool;
  Dials : string → Z → ST W bool;
}.

(** [system.SpawnService]: the process id of [mvm run <name> <args>]. *)
Class ServiceProcesses (W : Type) := SpawnService : string → list string → GoM W error Z.

Definition lineFeed : string := String (ascii_of_nat 10) "".

(** ** Modes: [utils.go] *)

Record CloudInitModeResolved := CloudInitModeResolved_ { cir_Mode : CloudInitMode; cir_ISOPath : option string }.

Definition ValidModes : list CloudInitMode := [CloudInitModeOFF; CloudInitModeINJECT; CloudInitModeNET; CloudInitModeISO].

Definition IsValidMode (mode : CloudInitMode) : bool :=
  bool_decide (mode = CloudInitModeOFF ∨ mode = CloudInitModeINJECT ∨ mode = CloudInitModeNET ∨ mode = CloudInitModeISO).

Definition invalid (code : Code) (msg : string) : error := EDomain (New code msg [WithClass ClassValidation]).

Section Modes.
Context {W : Type} `{Files W}.
#[local] Notation M := (GoM W error).

(** Whether [os.Stat] says that there is no such file. *)
Definition missing (path : string) : M bool :=
  r ← try (Stat path); mret (match r with Err err => IsNotExist err | Ok _ => false end).

Definition ResolveMode (mode isoPath : option string) : M CloudInitModeResolved :=
  match mode with
  | None => mret (CloudInitModeResolved_ CloudInitModeOFF None)
  | Some mode =>
      let modeVal : CloudInitMode := ToLower mode in
      if negb (IsValidMode modeVal) then
        throw (invalid CodeCloudInitProvisionFailed
                 ("Invalid --cloud-init-mode '" ++ mode ++ "'. Valid modes: inject, iso, off, net"))
      else if decide (modeVal = CloudInitModeISO) then
        match isoPath with
        | Some path =>
            if decide (path = "") then mret (CloudInitModeResolved_ CloudInitModeISO None)
            else
              gone ← missing path;
              if gone : bool then throw (invalid CodeCloudInitProvisionFailed ("Cloud-init ISO not found: " ++ path))
              else mret (CloudInitModeResolved_ CloudInitModeISO (Some path))
        | None => mret (CloudInitModeResolved_ CloudInitModeISO None)
        end
      else mret (CloudInitModeResolved_ modeVal None)
  end.
End Modes.

(** ** Configuration *)

Record Config := Config_ {
  ci_Mode : CloudInitMode;
  ci_VMName : string;
  ci_VMID : string;
  ci_VMDir : string;
  ci_CloudInitDir : string;
  ci_NetworkID : string;
  ci_NetworkName : string;
  ci_GuestIP : string;
  ci_User : string;
  ci_TapName : string;
  ci_IPv4Gateway : string;
  ci_NetworkPrefixLen : Z;
  ci_SkipNetworkConfig : bool;
  ci_SSHPubkeys : list string;
  ci_UserPassword : string;
  ci_CloudInitISOName : string;
  ci_NocloudPortRangeStart : Z;
  ci_NocloudPortRangeEnd : Z;
  ci_NocloudMaxPortRetries : Z;
  ci_CustomCloudInitConfig : option string;
  ci_NoCloudURL : string;
  ci_NoCloudPort : Z;
  ci_NoCloudPID : Z;
  ci_NocloudNetPort : option Z;
  ci_CloudInitISOPath : option string;
  ci_KeepCloudInitISO : bool;
  ci_KillAfter : Z;
}.

(** The server, stored by [provisionNet]. *)
Definition ciSetServer (url : string) (port pid : Z) (c : Config) : Config :=
  Config_ (ci_Mode c) (ci_VMName c) (ci_VMID c) (ci_VMDir c) (ci_CloudInitDir c) (ci_NetworkID c) (ci_NetworkName c)
    (ci_GuestIP c) (ci_User c) (ci_TapName c) (ci_IPv4Gateway c) (ci_NetworkPrefixLen c) (ci_SkipNetworkConfig c)
    (ci_SSHPubkeys c) (ci_UserPassword c) (ci_CloudInitISOName c) (ci_NocloudPortRangeStart c) (ci_NocloudPortRangeEnd c)
    (ci_NocloudMaxPortRetries c) (ci_CustomCloudInitConfig c) url port pid (ci_NocloudNetPort c) (ci_CloudInitISOPath c)
    (ci_KeepCloudInitISO c) (ci_KillAfter c).

Record TemplateData := TemplateData_ {
  td_VMName : string;
  td_User : string;
  td_GuestIP : string;
  td_IPv4Gateway : string;
  td_NetworkPrefixLen : Z;
  td_SSHPubkeys : list string;
  td_PasswordHash : string;
}.

Record cloudInitUser := cloudInitUser_ {
  cu_Name : string;
  cu_SSHAuthorizedKeys : list string;
  cu_Extra : list (string * any);
}.

Record CloudInitResult := CloudInitResult_ {
  cres_Mode : CloudInitMode;
  cres_ISOPath : option string;
  cres_NocloudURL : option string;
  cres_NocloudPort : Z;
  cres_NocloudPID : option Z;
  cres_NocloudNetRules : list FirewallRule;
}.

Definition validateTemplateData (data : TemplateData) : result error unit :=
  match filter (λ r : string * string, r.2 = "")
          [("VMName", td_VMName data); ("User", td_User data); ("GuestIP", td_GuestIP data);
           ("IPv4Gateway", td_IPv4Gateway data); ("PasswordHash", td_PasswordHash data)] with
  | [] => Ok ()
  | (name, _) :: _ => Err (Errorf ("cloud-init template requires non-empty field: ." ++ name) None)
  end.

Definition dangerousCloudInitDirectives : list (string * string) := [
  ("write_files", "Can write arbitrary files to the system");
  ("runcmd", "Can execute arbitrary commands");
  ("bootcmd", "Can execute commands at boot");
  ("snap", "Can install snap packages");
  ("apt", "Can install packages (use with caution)");
  ("yum", "Can install packages (use with caution)");
  ("packages", "Can install packages (use with caution)")].

Definition provisionFailed (msg : string) : error := EDomain (New CodeCloudInitProvisionFailed msg []).
Definition wrapProvision (what : string) (err : error) : error :=
  EDomain (Wrap CodeCloudInitProvisionFailed (Errorf (what ++ ": " ++ Error err) (Some err)) []).
Definition wrapMsg (what : string) (err : error) : error := EDomain (WrapMsg CodeCloudInitProvisionFailed what err []).

Definition mapErr (f : error → error) {W A} (m : GoM W error A) : GoM W error A :=
  r ← try m; match r with Ok a => mret a | Err err => throw (f err) end.

Definition ok {W A} (r : result error A) : GoM W error A := λ w, (r, w).

(** ** The keys of the users of a document *)

(** Append the keys that are not there yet. *)
Fixpoint appendKeys (keys present : list string) : list string :=
  match keys with
  | [] => present
  | k :: rest => appendKeys rest (if decide (k ∈ present) then present else (present ++ [k])%list)
  end.

(** The loop up to the user of that name; [None] when there is none. *)
Fixpoint updateUser (name : string) (keys : list string) (users : list cloudInitUser) : option (list cloudInitUser) :=
  match users with
  | [] => None
  | u :: rest =>
      if decide (cu_Name u = name)
      then Some (cloudInitUser_ (cu_Name u) (appendKeys keys (cu_SSHAuthorizedKeys u)) (cu_Extra u) :: rest)
      else cons u <$> updateUser name keys rest
  end.

Definition mergeUsers (name : string) (keys : list string) (users : list cloudInitUser) : list cloudInitUser :=
  match updateUser name keys users with
  | Some users => users
  | None => (users ++ [cloudInitUser_ name keys []])%list
  end.

(** ** The manager: [manager.go] *)
Section Manager.
Context {W : Type} `{Files W} `{TextFiles W} `{Runner W}.
Context (rangeDirectives : list (string * string)).
Context (parseYAML : string → result error any) (marshalYAML : gmap string any → result error string).
Context (decodeUsers : any → result error (list cloudInitUser)) (encodeUsers : list cloudInitUser → result error (list any)).
Context (bcrypt : string → result error string) (render : string → TemplateData → result error string).
(** [%q] of the first eighty runes; [notStarted]: the command could not be run. *)
Context (preview : string → string) (notStarted : RunResult → bool).
#[local] Notation M := (GoM W error).

Definition validateCloudinitConfig (cfg : gmap string any) : result error unit :=
  match filter (λ d : string * string, is_Some (cfg !! d.1)) rangeDirectives with
  | [] => Ok ()
  | found => Err (provisionFailed ("custom cloud-init config contains blocked directive(s): " ++ Join (map fst found) ", " ++
      ". " ++ Join (map (λ d : string * string, d.1 ++ ": " ++ d.2) found) "; "))
  end.

(** Users as YAML structs, merged, and back. *)
Definition mergeSSHKeys (c : Config) (customUserdata : gmap string any) : result error (gmap string any) :=
  if decide (ci_SSHPubkeys c = []) then Ok customUserdata
  else
    match customUserdata !! "users" with
    | None =>
        Ok (<["users" := AnyList [AnyMap [("name", AnyString (ci_User c));
                                         ("ssh-authorized-keys", AnyList (map AnyString (ci_SSHPubkeys c)))]]]> customUserdata)
    | Some usersRaw =>
        match decodeUsers usersRaw with
        | Err err => Err (wrapProvision "unmarshal users for merge" err)
        | Ok users =>
            match encodeUsers (mergeUsers (ci_User c) (ci_SSHPubkeys c) users) with
            | Err err => Err (wrapProvision "marshal merged users" err)
            | Ok merged => Ok (<["users" := AnyList merged]> customUserdata)
            end
        end
    end.

Definition seedFile (c : Config) (name : string) : string := Path_Join [ci_CloudInitDir c; name].

Definition writeMetaData (c : Config) : M unit :=
  WriteText (seedFile c "meta-data") ("instance-id: " ++ ci_VMID c ++ lineFeed ++ "local-hostname: " ++ ci_VMName c ++ lineFeed).

Definition writeCustomCloudInitFiles (c : Config) (userDataContent : string) : M unit :=
  _ ← writeMetaData c; WriteText (seedFile c "user-data") userDataContent.

(** The UTF-8 byte order mark. *)
Definition BOM : string := String (ascii_of_nat 239) (String (ascii_of_nat 187) (String (ascii_of_nat 191) "")).

Definition parseCustomCloudInitConfig (c : Config) : M unit :=
  match ci_CustomCloudInitConfig c with
  | None | Some "" => mret ()
  | Some path =>
      let configPath := Clean path in
      if Contains configPath ".." then
        throw (invalid CodeCloudInitProvisionFailed ("cloud-init config path must not contain '..': " ++ configPath))
      else
        content ← mapErr (wrapProvision "read custom cloud-init config") (ReadText configPath);
        let contentStr := TrimPrefix content BOM in
        if HasPrefix contentStr "#!" || HasPrefix contentStr "Content-Type:" then writeCustomCloudInitFiles c content
        else if negb (HasPrefix contentStr "#cloud-config") then
          throw (invalid CodeCloudInitProvisionFailed
            ("custom cloud-init config must start with '#cloud-config' (YAML), '#!' (shell script), or 'Content-Type:' (MIME multipart). Got: "
             ++ preview contentStr))
        else
          raw ← mapErr (wrapProvision "invalid YAML in cloud-init config file") (ok (parseYAML content));
          match raw with
          | AnyMap l =>
              let customUserdata : gmap string any := list_to_map l in
              _ ← ok (validateCloudinitConfig customUserdata);
              merged ← ok (mergeSSHKeys c customUserdata);
              _ ← writeMetaData c;
              out ← mapErr (wrapProvision "marshal merged user-data") (ok (marshalYAML merged));
              WriteText (seedFile c "user-data") ("#cloud-config" ++ lineFeed ++ out)
          | _ => throw (invalid CodeCloudInitProvisionFailed "cloud-init config must parse to a YAML mapping/object")
          end
  end.

Definition templateData (c : Config) (passwordHash : string) : TemplateData :=
  TemplateData_ (ci_VMName c) (ci_User c) (ci_GuestIP c) (ci_IPv4Gateway c) (ci_NetworkPrefixLen c) (ci_SSHPubkeys c) passwordHash.

Definition renderSection (data : TemplateData) (name : string) : result error string :=
  match render name data with
  | Ok text => Ok text
  | Err err => Err (wrapMsg ("render section " ++ Quote name) err)
  end.

(** The three sections that are used; the fourth is rendered too. *)
Definition renderCloudInitTemplate (c : Config) : result error (string * string * string) :=
  match bcrypt (ci_UserPassword c) with
  | Err err => Err (wrapMsg "generate password hash" err)
  | Ok passwordHash =>
      let data := templateData c passwordHash in
      match validateTemplateData data with
      | Err err => Err (invalid CodeCloudInitProvisionFailed (Error err))
      | Ok _ =>
          user_data ← renderSection data "user_data";
          meta_data ← renderSection data "meta_data";
          network_config ← renderSection data "network_config";
          _ ← renderSection data "nocloud_cfg";
          Ok (user_data, meta_data, network_config)
      end
  end.

Definition Generate (c : Config) : M unit :=
  match ci_CustomCloudInitConfig c with
  | Some _ => parseCustomCloudInitConfig c
  | None =>
      r ← ok (renderCloudInitTemplate c);
      let '(user_data, meta_data, network_config) := r in
      _ ← mapErr (wrapProvision "write meta-data") (WriteText (seedFile c "meta-data") meta_data);
      _ ← (if ci_SkipNetworkConfig c || bool_decide (network_config = "") then mret ()
           else mapErr (wrapProvision "write network-config") (WriteText (seedFile c "network-config") network_config));
      mapErr (wrapProvision "write user-data") (WriteText (seedFile c "user-data") user_data)
  end.

Definition requireSeed (dir name : string) : M unit :=
  gone ← missing (Path_Join [dir; name]);
  if gone : bool then throw (provisionFailed ("Missing required cloud-init file: " ++ name)) else mret ().

Definition CreateSeedISO (cloudInitDir outputISO : string) : M unit :=
  _ ← requireSeed cloudInitDir "meta-data";
  _ ← requireSeed cloudInitDir "user-data";
  network ← try (Stat (Path_Join [cloudInitDir; "network-config"]));
  let network := match network with Ok _ => ["-N"; Path_Join [cloudInitDir; "network-config"]] | Err _ => [] end in
  r ← calls (Run (["cloud-localds"; "-v"] ++ network ++
                  [outputISO; Path_Join [cloudInitDir; "user-data"]; Path_Join [cloudInitDir; "meta-data"]])%list "");
  if negb (notStarted r) && Success r then mret ()
  else throw (provisionFailed ("cloud-localds failed (exit " ++ Itoa (RR_ExitCode r) ++ "): " ++ TrimSpace (Stderr r))).
End Manager.

(** ** A port and a server *)
Section Server.
Context {W : Type} `{Files W} `{TextFiles W} `{Ports W} `{ServiceProcesses W}.
#[local] Notation M := (GoM W error).

(** [for port := start; port <= end; port++]. *)
Fixpoint firstFree (host : string) (port : Z) (left_ : nat) : ST W (option Z) :=
  match left_ with
  | O => mret None
  | S left_ => free ← Listens host port; if free : bool then mret (Some port) else firstFree host (port + 1) left_
  end.

Definition FindFreePort (host : string) (start end_ : Z) : M Z :=
  r ← calls (firstFree host start (Z.to_nat (end_ + 1 - start)));
  match r with
  | Some port => mret port
  | None => throw (Errorf ("no free port in range " ++ Itoa start ++ "-" ++ Itoa end_) None)
  end.

Record ServerConfig := ServerConfig_ {
  sv_BaseDir : string;
  sv_CloudInitDir : string;
  sv_Port : Z;
  sv_Host : string;
  sv_LogFile : string;
  sv_KillAfter : Z;
}.

Record SpawnResult := SpawnResult_ { sr_URL : string; sr_Port : Z; sr_PID : Z }.

(** [for range 50]: wait until the server listens. *)
Fixpoint awaitServer (attempts : nat) (host : string) (port : Z) : ST W bool :=
  match attempts with
  | O => mret false
  | S attempts => up ← Dials host port; if up : bool then mret true else awaitServer attempts host port
  end.

Definition serverURL (host : string) (port : Z) (path : string) : string := "http://" ++ host ++ ":" ++ Itoa port ++ "/" ++ path.

Definition SpawnServer (cfg : ServerConfig) : M SpawnResult :=
  let dir := if decide (sv_BaseDir cfg = "") then ["--cloud-init-dir"; sv_CloudInitDir cfg] else ["--base-dir"; sv_BaseDir cfg] in
  pid ← mapErr (λ err, Errorf ("failed to spawn nocloud-net server: " ++ Error err) (Some err))
          (SpawnService "nocloudnet"
             ("serve" :: dir ++ ["--port"; Itoa (sv_Port cfg); "--host"; sv_Host cfg; "--log-file"; sv_LogFile cfg])%list);
  let pidFile := Path_Join [Dir (sv_LogFile cfg); "nocloud-server.pid"] in
  _ ← (if decide (Dir pidFile = ".") then mret () else _ ← try (MkdirAll (Dir pidFile)); mret ());
  _ ← try (WriteText pidFile (Itoa pid));
  up ← calls (awaitServer 50 (sv_Host cfg) (sv_Port cfg));
  if up : bool then mret (SpawnResult_ (serverURL (sv_Host cfg) (sv_Port cfg) "") (sv_Port cfg) pid)
  else throw (Errorf "nocloud-net server did not start listening within 5s" None).
End Server.

(** ** The provisioner: [provisioner.go] *)
Section Provisioner.
Context {W : Type} `{Files W} `{TextFiles W} `{Runner W} `{Ports W} `{ServiceProcesses W} `{Tracker W}.
Context (rangeDirectives : list (string * string)).
Context (parseYAML : string → result error any) (marshalYAML : gmap string any → result error string).
Context (decodeUsers : any → result error (list cloudInitUser)) (encodeUsers : list cloudInitUser → result error (list any)).
Context (bcrypt : string → result error string) (render : string → TemplateData → result error string).
Context (preview : string → string) (notStarted : RunResult → bool).
(** Whether there is a tracker of the firewall. *)
Context (tracked : bool).
#[local] Notation S := (FirewallTracker * W)%type.
#[local] Notation M := (GoM S error).

Definition here {A} (m : GoM W error A) : M A := onWorld m.

Definition provisionOff : CloudInitResult := CloudInitResult_ CloudInitModeOFF None None 0 None [].

(** Five minutes, in nanoseconds. *)
Definition defaultNocloudKillAfter : Z := 300000000000.

(** A port for a server of this machine alone. *)
Definition serverPort (c : Config) : GoM W error Z :=
  match ci_NocloudNetPort c with
  | None | Some Z0 => FindFreePort (ci_IPv4Gateway c) (ci_NocloudPortRangeStart c) (ci_NocloudPortRangeEnd c)
  | Some port => mret port
  end.

(** The server of the configuration, spawned when there is none. *)
Definition withServer (c : Config) : GoM W error Config :=
  if decide (ci_NoCloudURL c = "") then
    port ← serverPort c;
    let killAfter := if decide (ci_KillAfter c = 0%Z) then defaultNocloudKillAfter else ci_KillAfter c in
    r ← SpawnServer (ServerConfig_ "" (ci_CloudInitDir c) port (ci_IPv4Gateway c)
                       (Path_Join [ci_VMDir c; "nocloud-server.log"]) killAfter);
    mret (ciSetServer (sr_URL r) (sr_Port r) (sr_PID r) c)
  else mret c.

Definition nocloudRule (c : Config) : FirewallRule :=
  FirewallRule_ FirewallTableFilter FirewallChainMVMNocloudNetIn FirewallRuleTypeNocloudNetInput FirewallProtocolTCP
    (ci_GuestIP c) (ci_IPv4Gateway c) (ci_TapName c) FirewallWildcardAnyInterface FirewallTargetAccept
    FirewallPortAny (ci_NoCloudPort c) (ci_NetworkID c) true None (Some (ci_NetworkName c))
    (Some ("# nocloudnet:" ++ ci_VMName c ++ ":" ++ Itoa (ci_NoCloudPort c))) None None None.

Definition netResult (c : Config) (rules : list FirewallRule) : CloudInitResult :=
  CloudInitResult_ CloudInitModeNET None (Some (ci_NoCloudURL c)) (ci_NoCloudPort c) (Some (ci_NoCloudPID c)) rules.

Definition provisionNet (c : Config) : M CloudInitResult :=
  if negb tracked then mret (netResult c [])
  else
    c ← here (withServer c);
    _ ← calls (ft_EnsureChain FirewallChainMVMNocloudNetIn FirewallTableFilter "INPUT" 0);
    r ← calls (ft_EnsureRule (nocloudRule c) "nocloud-net");
    if fres_Success r then mret (netResult c [nocloudRule c])
    else throw (EDomain (New CodeCloudInitNetModeFailed
           ("Nocloud-net provisioning failed: " ++ default "" (fres_ErrorMessage r)) [])).

Definition provisionISO (c : Config) : GoM W error CloudInitResult :=
  match ci_CloudInitISOPath c with
  | Some isoPath =>
      gone ← missing isoPath;
      if gone : bool then throw (EDomain (New CodeCloudInitISOModeFailed ("Custom cloud-init ISO not found: " ++ isoPath) []))
      else mret (CloudInitResult_ CloudInitModeISO (Some isoPath) None 0 None [])
  | None =>
      let isoPath := Path_Join [ci_VMDir c; ci_CloudInitISOName c] in
      _ ← mapErr (λ err, EDomain (New CodeCloudInitISOModeFailed ("Failed to create cloud-init ISO: " ++ Error err) []))
            (CreateSeedISO notStarted (ci_CloudInitDir c) isoPath);
      mret (CloudInitResult_ CloudInitModeISO (Some isoPath) None 0 None [])
  end.

Definition provisionInject : CloudInitResult := CloudInitResult_ CloudInitModeINJECT None None 0 None [].

Definition Provision (c : Config) : M CloudInitResult :=
  if decide (ci_Mode c = CloudInitModeOFF) then mret provisionOff
  else
    _ ← mapErr (λ err, provisionFailed ("create cloud-init dir: " ++ Error err)) (here (MkdirAll (ci_CloudInitDir c)));
    _ ← here (Generate rangeDirectives parseYAML marshalYAML decodeUsers encodeUsers bcrypt render preview c);
    if decide (ci_Mode c = CloudInitModeNET) then provisionNet c
    else if decide (ci_Mode c = CloudInitModeISO) then here (provisionISO c)
    else if decide (ci_Mode c = CloudInitModeINJECT) then mret provisionInject
    else throw (Errorf ("unknown cloud-init mode: " ++ ci_Mode c) None).
End Provisioner.

(** ** Properties *)

Lemma appendKeys_prefix keys present : ∃ added, appendKeys keys present = (present ++ added)%list.
Proof.
  revert present. induction keys as [|k keys IH]; intros present; simpl; [exists []; by rewrite app_nil_r|].
  case_decide; [apply IH|]. destruct (IH (present ++ [k])%list) as [added ->]. exists ([k] ++ added)%list. by rewrite app_assoc.
Qed.

Lemma appendKeys_elem keys present k : k ∈ appendKeys keys present ↔ k ∈ keys ∨ k ∈ present.
Proof.
  revert present. induction keys as [|k' keys IH]; intros present; simpl; [set_solver|].
  rewrite IH. case_decide; set_solver.
Qed.

Lemma appendKeys_NoDup keys present : NoDup present → NoDup (appendKeys keys present).
Proof.
  revert present. induction keys as [|k keys IH]; intros present Hp; simpl; [done|].
  apply IH. case_decide; [done|]. apply NoDup_app. split_and!; [done|set_solver|apply NoDup_singleton].
Qed.

Lemma appendKeys_there keys present : (∀ k, k ∈ keys → k ∈ present) → appendKeys keys present = present.
Proof.
  revert present. induction keys as [|k keys IH]; intros present Hk; simpl; [done|].
  rewrite decide_True by set_solver. apply IH. set_solver.
Qed.

(** The user whose keys are merged: the first of that name. *)
Definition userNamed (name : string) (users : list cloudInitUser) : option cloudInitUser :=
  head (filter (λ u, cu_Name u = name) users).

Lemma updateUser_Some name keys users users' :
  updateUser name keys users = Some users' →
  ∃ u, userNamed name users = Some u ∧
    userNamed name users' = Some (cloudInitUser_ name (appendKeys keys (cu_SSHAuthorizedKeys u)) (cu_Extra u)) ∧
    filter (λ u, cu_Name u ≠ name) users' = filter (λ u, cu_Name u ≠ name) users.
Proof.
  unfold userNamed. revert users'. induction users as [|u users IH]; intros users'; simpl; [done|].
  destruct (decide (cu_Name u = name)) as [<-|Hn].
  - intros [= <-]. rewrite !filter_cons. cbn [cu_Name]. rewrite !decide_True by done. exists u. rewrite !decide_False by naive_solver. done.
  - intros (users1 & E & ->)%fmap_Some. destruct (IH _ E) as (u1 & Hu1 & Hu2 & Hf). exists u1.
    rewrite !filter_cons. rewrite !(decide_False (P := cu_Name u = name)) by done.
    rewrite !(decide_True (P := cu_Name u ≠ name)) by done. by rewrite Hf.
Qed.

Lemma updateUser_None name keys users : updateUser name keys users = None → filter (λ u, cu_Name u = name) users = [].
Proof.
  induction users as [|u users IH]; simpl; [done|]. case_decide; [done|]. rewrite filter_cons, decide_False by done.
  destruct (updateUser name keys users); [done|]. by intros _; apply IH.
Qed.

Lemma updateUser_there name keys users u :
  userNamed name users = Some u → (∀ k, k ∈ keys → k ∈ cu_SSHAuthorizedKeys u) → updateUser name keys users = Some users.
Proof.
  unfold userNamed. induction users as [|u1 users IH]; simpl; [done|]. rewrite filter_cons.
  destruct (decide (cu_Name u1 = name)) as [<-|Hn].
  - intros [= <-] Hk. rewrite appendKeys_there by done. by destruct u1.
  - intros Hu Hk. by rewrite IH.
Qed.

(** Merging the keys of a machine into the users of a document: the user of that
    name, added when there is none, has all of them after those it had, without
    doubling one; the other users are as they were; merging again changes
    nothing. *)
Lemma mergeUsers_spec name keys users :
  (∃ u, userNamed name (mergeUsers name keys users) = Some u ∧
        (∀ k, k ∈ cu_SSHAuthorizedKeys u ↔ k ∈ keys ∨ ∃ u0, userNamed name users = Some u0 ∧ k ∈ cu_SSHAuthorizedKeys u0) ∧
        (∀ u0, userNamed name users = Some u0 →
           cu_SSHAuthorizedKeys u0 `prefix_of` cu_SSHAuthorizedKeys u ∧ cu_Extra u = cu_Extra u0 ∧
           (NoDup (cu_SSHAuthorizedKeys u0) → NoDup (cu_SSHAuthorizedKeys u)))) ∧
  filter (λ u, cu_Name u ≠ name) (mergeUsers name keys users) = filter (λ u, cu_Name u ≠ name) users ∧
  mergeUsers name keys (mergeUsers name keys users) = mergeUsers name keys users.
Proof.
  assert (∀ u, userNamed name (mergeUsers name keys users) = Some u → (∀ k, k ∈ keys → k ∈ cu_SSHAuthorizedKeys u) →
    mergeUsers name keys (mergeUsers name keys users) = mergeUsers name keys users) as Hidem.
  { intros u Hu Hk. generalize (mergeUsers name keys users) Hu. intros l Hl. unfold mergeUsers. by rewrite (updateUser_there _ _ _ _ Hl Hk). }
  destruct (updateUser name keys users) as [users'|] eqn:E.
  - destruct (updateUser_Some _ _ _ _ E) as (u0 & Hu0 & Hu & Hf).
    assert (mergeUsers name keys users = users') as Hm by (unfold mergeUsers; by rewrite E).
    split_and!; [|by rewrite Hm|].
    + rewrite Hm. eexists. split; [exact Hu|]. cbn [cu_SSHAuthorizedKeys cu_Extra]. split.
      * intros k. rewrite appendKeys_elem. naive_solver.
      * intros u1 Hu1. assert (u1 = u0) as -> by congruence. split_and!; [|done|apply appendKeys_NoDup].
        apply appendKeys_prefix.
    + eapply Hidem; [by rewrite Hm|]. cbn [cu_SSHAuthorizedKeys]. intros k Hk. apply appendKeys_elem. by left.
  - apply updateUser_None in E as Hnone.
    assert (mergeUsers name keys users = (users ++ [cloudInitUser_ name keys []])%list) as Hm by (unfold mergeUsers; by rewrite E).
    assert (userNamed name (mergeUsers name keys users) = Some (cloudInitUser_ name keys [])) as Hu.
    { rewrite Hm. unfold userNamed. rewrite filter_app, Hnone. cbn [app]. by rewrite filter_cons_True by done. }
    split_and!; [| |eapply Hidem; [exact Hu|done]].
    + eexists. split; [exact Hu|]. unfold userNamed. rewrite Hnone. cbn [cu_SSHAuthorizedKeys]. naive_solver.
    + rewrite Hm, filter_app, filter_cons_False, filter_nil, app_nil_r; [done|naive_solver].
Qed.

(** The port that is found lies in the range, and a server can listen on it. *)
Lemma FindFreePort_range {W : Type} `{Ports W} host start end_ (w w' : W) port :
  FindFreePort host start end_ w = (Ok port, w') →
  (start <= port <= end_)%Z ∧ ∃ w0, Listens host port w0 = (true, w').
Proof.
  unfold FindFreePort. rewrite bind_calls.
  assert (∀ n p w w' q, firstFree host p n w = (Some q, w') →
    (p <= q < p + Z.of_nat n)%Z ∧ ∃ w0, Listens host q w0 = (true, w')) as Hf.
  { induction n as [|n IH]; intros p w0 w0' q; [done|]. cbn [firstFree]. rewrite ST_bind_unfold.
    destruct (Listens host p w0) as [[] w1] eqn:E; cbn [fst snd].
    - intros [= <- <-]. split; [lia|eauto].
    - intros Hq. destruct (IH _ _ _ _ Hq) as [? ?]. split; [lia|done]. }
  destruct (firstFree host start (Z.to_nat (end_ + 1 - start)) w) as [[q|] w1] eqn:E; cbn [fst snd]; [|done].
  intros [= <- <-]. destruct (Hf _ _ _ _ _ E) as [? ?]. split; [lia|done].
Qed.
