(* ===== verification/ConfigAPI.v ===== *)
(** * Operations on settings: [pkg/api/config.go, pkg/api/inputs/config_input.go] *)

From stdpp Require Import gmap strings list.
From S2P Require Import Prelude GoStrings Errs Disk Config NetAPI.
#[local] Open Scope string_scope.

Record ConfigInput := ConfigInput_ {
  cfi_Action : string;
  cfi_Category : string;
  cfi_Key : string;
  cfi_Value : value;
  cfi_AllOverrides : bool;
}.

Definition notOverridable (i : ConfigInput) (what hint : string) : result error unit :=
  Err (configError ("'" ++ cfi_Category i ++ "." ++ cfi_Key i ++ "' is not " ++ what ++ hint)).

Definition lsHint : string := ". Use 'mvm config ls' to see valid keys.".

Definition cfi_Validate (i : ConfigInput) : result error unit :=
  if decide (cfi_Action i = "get") then
    if bool_decide (cfi_Category i = "") then Err (configError "Category is required for get operation")
    else if negb (bool_decide (cfi_Key i = "")) && negb (IsKeyInCategory (cfi_Category i) (cfi_Key i)) then
      notOverridable i "a valid setting key" lsHint
    else Ok ()
  else if decide (cfi_Action i = "set") then
    if bool_decide (cfi_Category i = "") || bool_decide (cfi_Key i = "") then
      Err (configError "Category and key are required for set operation")
    else match cfi_Value i with
         | VNil => Err (configError "Value is required for set operation")
         | _ => if negb (IsKeyInCategory (cfi_Category i) (cfi_Key i)) then notOverridable i "an overridable setting" lsHint else Ok ()
         end
  else if decide (cfi_Action i = "reset") then
    if negb (cfi_AllOverrides i) && bool_decide (cfi_Category i = "") then
      Err (configError "Category is required for reset operation (or use --all)")
    else if negb (bool_decide (cfi_Key i = "")) && negb (IsKeyInCategory (cfi_Category i) (cfi_Key i)) then
      notOverridable i "a valid setting key" ""
    else Ok ()
  else if decide (cfi_Action i = "list") then Ok ()
  else Err (configError ("Invalid action: '" ++ cfi_Action i ++ "'. Use get, set, reset, or list.")).

Definition cfi_Resolve (i : ConfigInput) : result error ConfigInput :=
  match cfi_Validate i with Ok _ => Ok i | Err err => Err err end.

Section Operations.
Context {W : Type} `{SettingsRepository W} `{OpEnv W}.
Context (outOfRange : Z) (ParseFloat64 : string → result error float64) (parseMap : string → result error (list (string * value)))
  (registry : ConstraintRegistry W).
(** A value in the audit log. *)
Context (logged : value → string).
#[local] Notation M := (GoM W error).

(** A category, or one value of it. *)
Definition ConfigGet (category key : string) : M (gmap string SettingInfo + value) :=
  resolved ← ofResult (cfi_Resolve (ConfigInput_ "get" category key VNil false));
  if bool_decide (cfi_Category resolved = "") then
    throw (EDomain (New "config.get.missing_category" "Category is required for config get operation." []))
  else if bool_decide (cfi_Key resolved = "") then
    infos ← cfg_ListByCategory (cfi_Category resolved); mret (inl infos)
  else v ← GetValue outOfRange ParseFloat64 parseMap (cfi_Category resolved) (cfi_Key resolved); mret (inr v).

Definition ConfigSet (category key : string) (v : value) : M unit :=
  resolved ← ofResult (cfi_Resolve (ConfigInput_ "set" category key v false));
  _ ← cfg_Set outOfRange ParseFloat64 parseMap registry (cfi_Category resolved) (cfi_Key resolved) (cfi_Value resolved);
  calls (LogOperation "config.set"
    [("category", cfi_Category resolved); ("key", cfi_Key resolved); ("value", logged (cfi_Value resolved))]).

(** [errs.WrapMsg(errs.CodeConfigError, err.Error(), err, errs.WithClass(class))]. *)
Definition orConfigError {A} (class : Errs.Class_) (m : M A) : M A :=
  r ← try m;
  match r with Ok a => mret a | Err err => throw (EDomain (WrapMsg CodeConfigError (Error err) err [WithClass class])) end.

Definition logReset (deleted : Z) (what : string) : M unit :=
  if (0 <? deleted)%Z then calls (LogOperation "config.reset" [("", what)]) else mret ().

Definition ConfigReset (category key : string) (allOverrides : bool) : M Z :=
  resolved ← orConfigError ClassValidation (ofResult (cfi_Resolve (ConfigInput_ "reset" category key VNil allOverrides)));
  let category := cfi_Category resolved in
  let key := cfi_Key resolved in
  if cfi_AllOverrides resolved then
    deleted ← orConfigError ClassInternal cfg_DeleteAll;
    _ ← logReset deleted ("all overrides (" ++ Itoa deleted ++ " removed)");
    mret deleted
  else if bool_decide (key = "") then
    deleted ← orConfigError ClassInternal (cfg_DeleteByCategory category);
    _ ← logReset deleted (category ++ ".* (" ++ Itoa deleted ++ " removed)");
    mret deleted
  else
    deleted ← orConfigError ClassInternal (cfg_Delete category key);
    let resultCount := (if deleted : bool then 1 else 0)%Z in
    _ ← logReset resultCount (category ++ "." ++ key);
    mret resultCount.

Definition ConfigListAll : M (gmap string (gmap string SettingInfo)) :=
  _ ← ofResult (cfi_Resolve (ConfigInput_ "list" "" "" VNil false));
  cfg_ListAll.
End Operations.

(** ** Theorems *)

Lemma entry_keys {A B} (f : A → B) k (l : list (string * A)) :
  k ∈ (map (λ kv, (kv.1, f kv.2)) l).*1 ↔ is_Some (entry k l).
Proof.
  induction l as [|[k' a] l IH]; cbn [map fmap list_fmap entry].
  - split; [by intros ?%elem_of_nil|by intros []].
  - cbn. rewrite elem_of_cons. case_decide; [split; [by eauto|by left]|]. rewrite IH. split; [intros [->|?]; done|by right].
Qed.

(** The check of the inputs is that of the service. *)
Lemma IsKeyInCategory_spec category key :
  key ≠ "" → IsKeyInCategory category key = true ↔ ∃ d, GetDefault category key = Ok d.
Proof.
  intros Hk. unfold IsKeyInCategory, GetDefault, OverridableSettings. rewrite (entry_map (map (λ kv, (kv.1, GoTypeName kv.2)))).
  destruct (entry category OverridableDefaults) as [cat|]; cbn [fmap option_fmap option_map]; [|by split; [|intros []]].
  rewrite bool_decide_eq_true, entry_keys. destruct (entry key cat) as [d|].
  - split; [by eauto|by eauto].
  - split; [by intros []|by intros []].
Qed.

(** So an unknown key never gets past the inputs. *)
Lemma ConfigSet_unknown {W} `{SettingsRepository W} `{OpEnv W} outOfRange pf pm registry logged category key v (w : W) :
  (∀ d, GetDefault category key ≠ Ok d) → ∃ e, ConfigSet outOfRange pf pm registry logged category key v w = (Err e, w).
Proof.
  intros Hno. unfold ConfigSet, cfi_Resolve, cfi_Validate. cbn [cfi_Action cfi_Category cfi_Key cfi_Value].
  rewrite decide_False by done. rewrite decide_True by done.
  destruct (_ || _) eqn:Ee; [by eexists|]. apply orb_false_iff in Ee as [_ Ek%bool_decide_eq_false].
  assert (IsKeyInCategory category key = false) as ->.
  { apply not_true_iff_false. intros Hin. apply IsKeyInCategory_spec in Hin as [d Hd]; [|done]. by apply (Hno d). }
  destruct v; by eexists.
Qed.
