(* ===== verification/Assets.v ===== *)
(** * Images, kernels, binaries, keys, snapshots and vsock devices: their tables

    The repositories and resolvers of the domains whose rows machines refer to
    ([internal/core/image], [kernel], [binary], [key], [snapshot], [vsock]:
    [repository.go], [sqlite.go], [resolver.go]).

    Images, kernels and binaries share the shape of their tables: rows are not
    removed but marked as deleted, some row is the default, a flag says whether
    the file is there.  [AssetRow] is that shape; the statements the three
    tables share are stated on it once. *)

From Stdlib Require Import Ascii.
From stdpp Require Import gmap strings list.
From S2P Require Import Prelude GoStrings Errs Model Infra Sql Version Files Resolving.
#[local] Open Scope string_scope.

(** ** Rows that are marked as deleted *)

Record AssetRow (A : Type) := AssetRow_ {
  ro_ID : A → string;
  ro_CreatedAt : A → string;
  ro_DeletedAt : A → option string;
  ro_IsDefault : A → bool;
  ro_setDefault : bool → A → A;
  ro_setPresent : bool → A → A;
  ro_setDeleted : option string → A → A;
  ro_setTimes : string → string → A → A;
}.
Arguments AssetRow_ {A}.
Arguments ro_ID {A}.
Arguments ro_CreatedAt {A}.
Arguments ro_DeletedAt {A}.
Arguments ro_IsDefault {A}.
Arguments ro_setDefault {A}.
Arguments ro_setPresent {A}.
Arguments ro_setDeleted {A}.
Arguments ro_setTimes {A}.

Section Table.
Context {A : Type} (R : AssetRow A) (like : string → string → bool) (rfc3339 : string → string)
  (constraintError : error) (inUse : string → bool).

#[local] Notation T := (list A).
#[local] Notation M := (GoM (Db T) error).

(** [deleted_at IS NULL]. *)
Definition ro_live (x : A) : bool := bool_decide (ro_DeletedAt R x = None).

(** The first row, if any. *)
Definition firstRow (P : A → bool) : M (option A) := query (λ t : T, head (filter P t)).

Definition row_GetLive (id : string) : M (option A) := firstRow (λ x, bool_decide (ro_ID R x = id) && ro_live x).

Definition row_FindByPrefix (prefix : string) (includeDeleted : bool) : M T :=
  query (λ t : T, filter (λ x, like (prefix ++ "%") (ro_ID R x) && (includeDeleted || ro_live x)) t).

Definition row_ListAll : M T := query (orderBy (ro_CreatedAt R)).

(** [created] is what an existing row keeps of itself. *)
Definition row_Upsert (keep : A → A → A) (x : A) : M unit :=
  statement (λ now (t : T), Ok ((), upsertBy (ro_ID R) x (λ old, ro_setTimes R (ro_CreatedAt R old) now (keep old x)) t)).

(** A row that another table refers to is not deleted. *)
Definition row_Delete (id : string) : M unit :=
  statement (λ _ (t : T), if inUse id && bool_decide (id ∈ ro_ID R <$> t) then Err constraintError
                          else Ok ((), filter (λ x, ro_ID R x ≠ id) t)).

Definition row_SoftDelete (id : string) : M unit :=
  statement (λ now (t : T), Ok ((), updateRow (ro_ID R) id
    (λ x, ro_setPresent R false (ro_setDeleted R (Some (rfc3339 now)) x)) t)).

Definition row_Count : M Z := query (λ t : T, Z.of_nat (length (filter ro_live t))).

Definition ro_touched (now : string) (f : A → A) (x : A) : A := ro_setTimes R (ro_CreatedAt R x) now (f x).

(** [among]: the rows whose default is cleared. *)
Definition row_SetDefault (among : A → bool) (id : string) : M unit :=
  transaction (
    _ ← statement (λ _ (t : T), Ok ((), (λ x, if among x && ro_live x then ro_setDefault R false x else x) <$> t));
    statement (λ now (t : T), Ok ((), updateRow (ro_ID R) id
      (λ x, if ro_live x then ro_touched now (ro_setDefault R true) x else x) t))).

Definition row_UpdateManyIsPresent (ids : list string) (present : bool) : M unit :=
  if decide (ids = []) then mret ()
  else statement (λ now (t : T), Ok ((),
         (λ x, if decide (ro_ID R x ∈ ids) then ro_touched now (ro_setPresent R present) x else x) <$> t)).
End Table.

(** ** Images *)

Definition imgSet (default present : bool) (created updated : string) (deleted : option string) (i : ImageItem) : ImageItem :=
  ImageItem_ (img_ID i) (img_Type i) (img_Name i) (img_Arch i) (img_Path i) (img_FSType i) (img_MinRootfsSizeMiB i)
    (img_OriginalSize i) default present (img_IsImported i) (img_PulledAt i) created updated (img_Version i)
    (img_Distro i) (img_FSUUID i) (img_CompressedSize i) (img_CompressionRatio i) (img_CompressedFormat i) deleted.

Definition imageRow : AssetRow ImageItem := {|
  ro_ID := img_ID; ro_CreatedAt := img_CreatedAt; ro_DeletedAt := img_DeletedAt; ro_IsDefault := img_IsDefault;
  ro_setDefault b i := imgSet b (img_IsPresent i) (img_CreatedAt i) (img_UpdatedAt i) (img_DeletedAt i) i;
  ro_setPresent b i := imgSet (img_IsDefault i) b (img_CreatedAt i) (img_UpdatedAt i) (img_DeletedAt i) i;
  ro_setDeleted d i := imgSet (img_IsDefault i) (img_IsPresent i) (img_CreatedAt i) (img_UpdatedAt i) d i;
  ro_setTimes c u i := imgSet (img_IsDefault i) (img_IsPresent i) c u (img_DeletedAt i) i;
|}.

Class ImageRepository (W : Type) := {
  ir_Get : string → GoM W error (option ImageItem);
  ir_FindByPrefix : string → bool → GoM W error (list ImageItem);
  ir_GetByType : string → GoM W error (option ImageItem);
  ir_GetByVersionAndType : string → string → GoM W error (option ImageItem);
  ir_GetByName : string → bool → GoM W error (option ImageItem);
  ir_Count : GoM W error Z;
  ir_ListAll : GoM W error (list ImageItem);
  ir_Upsert : ImageItem → GoM W error unit;
  ir_SoftDelete : string → GoM W error unit;
  ir_GetDefault : GoM W error (option ImageItem);
  ir_UpdateManyIsPresent : list string → bool → GoM W error unit;
  ir_Delete : string → GoM W error unit;
  ir_SetDefault : string → GoM W error unit;
  ir_ListAllByIDs : list string → GoM W error (list ImageItem);
}.

Section ImageSqlite.
Context (like : string → string → bool) (rfc3339 : string → string) (constraintError : error) (inUse : string → bool).
#[local] Notation T := (list ImageItem).
#[local] Notation M := (GoM (Db T) error).
#[local] Notation live := (ro_live imageRow).

(** The row with this id, deleted or not. *)
Definition imgsqlite_Get (id : string) : M (option ImageItem) := firstRow (λ i, bool_decide (img_ID i = id)).
Definition imgsqlite_FindByPrefix : string → bool → M T := row_FindByPrefix imageRow like.

(** [ORDER BY is_default DESC, created_at DESC]: whether [a] comes no later than [b]. *)
Definition imgBefore (a b : ImageItem) : bool :=
  (img_IsDefault a && negb (img_IsDefault b)) ||
  (bool_decide (img_IsDefault a = img_IsDefault b) && String.leb (img_CreatedAt b) (img_CreatedAt a)).
Definition imgBest (t : T) : option ImageItem :=
  foldr (λ i best, match best with Some b => if imgBefore i b then Some i else Some b | None => Some i end) None t.
Definition imgsqlite_GetByType (typ : string) : M (option ImageItem) :=
  query (λ t : T, imgBest (filter (λ i, bool_decide (img_Type i = typ) && live i) t)).
Definition imgsqlite_GetByVersionAndType (ver typ : string) : M (option ImageItem) :=
  firstRow (λ i, bool_decide (img_Version i = ver) && bool_decide (img_Type i = typ) && live i).
Definition imgsqlite_GetByName (name : string) (includeDeleted : bool) : M (option ImageItem) :=
  firstRow (λ i, bool_decide (img_Name i = name) && (includeDeleted || live i)).
Definition imgsqlite_Count : M Z := row_Count imageRow.
Definition imgsqlite_ListAll : M T := row_ListAll imageRow.
(** The statement does not mention [deleted_at]: a new row has none, an
    existing row keeps its own. *)
Definition imgsqlite_Upsert (i : ImageItem) : M unit :=
  row_Upsert imageRow (λ old i, ro_setDeleted imageRow (img_DeletedAt old) i) (ro_setDeleted imageRow None i).
Definition imgsqlite_SoftDelete : string → M unit := row_SoftDelete imageRow rfc3339.
Definition imgsqlite_GetDefault : M (option ImageItem) := firstRow (λ i, img_IsDefault i && live i).
Definition imgsqlite_UpdateManyIsPresent : list string → bool → M unit := row_UpdateManyIsPresent imageRow.
Definition imgsqlite_Delete : string → M unit := row_Delete imageRow constraintError inUse.
Definition imgsqlite_SetDefault : string → M unit := row_SetDefault imageRow (λ _, true).
Definition imgsqlite_ListAllByIDs (ids : list string) : M T :=
  if decide (ids = []) then mret []
  else query (λ t : T, orderBy img_CreatedAt (filter (λ i, bool_decide (img_ID i ∈ ids) && live i) t)).

Definition imgSqliteRepo : ImageRepository (Db T) := {|
  ir_Get := imgsqlite_Get; ir_FindByPrefix := imgsqlite_FindByPrefix; ir_GetByType := imgsqlite_GetByType;
  ir_GetByVersionAndType := imgsqlite_GetByVersionAndType; ir_GetByName := imgsqlite_GetByName;
  ir_Count := imgsqlite_Count; ir_ListAll := imgsqlite_ListAll; ir_Upsert := imgsqlite_Upsert;
  ir_SoftDelete := imgsqlite_SoftDelete; ir_GetDefault := imgsqlite_GetDefault;
  ir_UpdateManyIsPresent := imgsqlite_UpdateManyIsPresent; ir_Delete := imgsqlite_Delete;
  ir_SetDefault := imgsqlite_SetDefault; ir_ListAllByIDs := imgsqlite_ListAllByIDs;
|}.
End ImageSqlite.

(** The relations to load, and the callback that loads them, which is not part
    of the rows: it is called when there is something to load. *)
Definition relate {W A} (include : option (list string)) (fn : option (list A → ST W unit)) (items : list A) : ST W unit :=
  match include, fn with
  | Some _, Some fn => if decide (items = []) then mret () else fn items
  | _, _ => mret ()
  end.

Section ImageResolver.
Context {W : Type} `{ImageRepository W} (include : option (list string)) (enrichFn : option (list ImageItem → ST W unit)).
#[local] Notation M := (GoM W error).

Definition imageNotFound (msg : string) : error := EDomain (NotFound CodeImageNotFound msg []).
Definition img_one (i : ImageItem) : M ImageItem := _ ← calls (relate include enrichFn [i]); mret i.
Definition img_orMissing (i : option ImageItem) (msg : string) : M ImageItem :=
  match i with Some i => img_one i | None => throw (imageNotFound msg) end.

Definition img_ByID (imageID : string) (includeDeleted : bool) : M ImageItem :=
  r ← try (ir_FindByPrefix imageID includeDeleted);
  match r with
  | Err err => throw (Errorf ("resolve image by ID: " ++ Error err) (Some err))
  | Ok [] => throw (imageNotFound ("Image not found: '" ++ imageID ++ "'"))
  | Ok [i] => img_one i
  | Ok _ => throw (imageNotFound ("Image ID is ambiguous: '" ++ imageID ++ "'"))
  end.

Definition img_ByVersionType (ver typ : string) : M ImageItem :=
  i ← ir_GetByVersionAndType ver typ;
  img_orMissing i ("Image not found: version='" ++ ver ++ "', type='" ++ typ ++ "'").
Definition img_ByType (typ : string) : M ImageItem :=
  i ← ir_GetByType typ; img_orMissing i ("Image not found: '" ++ typ ++ "'").
Definition img_ByName (name : string) (includeDeleted : bool) : M ImageItem :=
  i ← ir_GetByName name includeDeleted; img_orMissing i ("Image not found by name: '" ++ name ++ "'").
Definition img_GetDefault : M (option ImageItem) :=
  i ← ir_GetDefault;
  match i with Some i => (i ← img_one i; mret (Some i)) | None => mret None end.

(** The error itself, not one it wraps. *)
Definition hasCode (code : Code) (err : error) : bool :=
  match err with EDomain d => bool_decide (Code_ d = code) | _ => false end.

(** The next way of resolving, when this one found nothing. *)
Definition orIfMissing {A} (isMissing : error → bool) (m next : M A) : M A :=
  r ← try m;
  match r with
  | Ok x => mret x
  | Err err => if isMissing err then next else throw err
  end.

Definition img_byTypeNameID (value : string) (includeDeleted : bool) : M ImageItem :=
  orIfMissing (hasCode CodeImageNotFound) (img_ByType value)
    (orIfMissing (hasCode CodeImageNotFound) (img_ByName value includeDeleted) (img_ByID value includeDeleted)).

Definition img_Resolve (value : string) (includeDeleted : bool) : M ImageItem :=
  let '(name, ver) := ParseSelector value in
  if bool_decide (name ≠ "") && bool_decide (ver ≠ "") then
    orIfMissing (hasCode CodeImageNotFound) (img_ByVersionType ver name) (img_byTypeNameID name includeDeleted)
  else img_byTypeNameID value includeDeleted.

Definition img_ResolveMany (identifiers : list string) (includeDeleted : bool) : ST W (Resolved ImageItem) :=
  r ← resolveAll img_ID (λ i, img_Resolve i includeDeleted) identifiers;
  let '(items, errorsList) := r in
  _ ← relate include enrichFn items;
  mret (Resolved_ items errorsList (exitCode items errorsList)).
End ImageResolver.

(** ** Kernels *)

Definition krnSet (default present : bool) (created updated : string) (deleted : option string) (k : KernelItem) : KernelItem :=
  KernelItem_ (krn_ID k) (krn_Name k) (krn_BaseName k) (krn_Version k) (krn_Arch k) (krn_Type k) (krn_Path k)
    default present created updated deleted (krn_Features k).

Definition kernelRow : AssetRow KernelItem := {|
  ro_ID := krn_ID; ro_CreatedAt := krn_CreatedAt; ro_DeletedAt := krn_DeletedAt; ro_IsDefault := krn_IsDefault;
  ro_setDefault b k := krnSet b (krn_IsPresent k) (krn_CreatedAt k) (krn_UpdatedAt k) (krn_DeletedAt k) k;
  ro_setPresent b k := krnSet (krn_IsDefault k) b (krn_CreatedAt k) (krn_UpdatedAt k) (krn_DeletedAt k) k;
  ro_setDeleted d k := krnSet (krn_IsDefault k) (krn_IsPresent k) (krn_CreatedAt k) (krn_UpdatedAt k) d k;
  ro_setTimes c u k := krnSet (krn_IsDefault k) (krn_IsPresent k) c u (krn_DeletedAt k) k;
|}.

Class KernelRepository (W : Type) := {
  kr_Get : string → GoM W error (option KernelItem);
  kr_FindByPrefix : string → bool → GoM W error (list KernelItem);
  kr_ListAll : GoM W error (list KernelItem);
  kr_GetByName : string → bool → GoM W error (option KernelItem);
  kr_GetDefault : GoM W error (option KernelItem);
  kr_Upsert : KernelItem → GoM W error unit;
  kr_Delete : string → GoM W error unit;
  kr_SoftDelete : string → GoM W error unit;
  kr_Count : GoM W error Z;
  kr_GetByType : string → GoM W error (option KernelItem);
  kr_GetByVersionAndType : string → string → GoM W error (option KernelItem);
  kr_SetDefault : string → GoM W error unit;
  kr_UpdateManyIsPresent : list string → bool → GoM W error unit;
}.

Section KernelSqlite.
Context (like : string → string → bool) (rfc3339 : string → string) (constraintError : error) (inUse : string → bool).
#[local] Notation T := (list KernelItem).
#[local] Notation M := (GoM (Db T) error).
#[local] Notation live := (ro_live kernelRow).

Definition krnsqlite_Get : string → M (option KernelItem) := row_GetLive kernelRow.
Definition krnsqlite_FindByPrefix : string → bool → M T := row_FindByPrefix kernelRow like.
Definition krnsqlite_ListAll : M T := row_ListAll kernelRow.
Definition krnsqlite_GetByName (name : string) (includeDeleted : bool) : M (option KernelItem) :=
  firstRow (λ k, bool_decide (krn_Name k = name) && (includeDeleted || live k)).
Definition krnsqlite_GetDefault : M (option KernelItem) := firstRow (λ k, krn_IsDefault k && live k).
Definition krnsqlite_Upsert : KernelItem → M unit := row_Upsert kernelRow (λ _ k, k).
Definition krnsqlite_Delete : string → M unit := row_Delete kernelRow constraintError inUse.
Definition krnsqlite_SoftDelete : string → M unit := row_SoftDelete kernelRow rfc3339.
Definition krnsqlite_Count : M Z := row_Count kernelRow.
Definition krnsqlite_GetByType (typ : string) : M (option KernelItem) :=
  firstRow (λ k, bool_decide (krn_Type k = typ) && live k).
Definition krnsqlite_GetByVersionAndType (ver typ : string) : M (option KernelItem) :=
  firstRow (λ k, bool_decide (krn_Version k = ver) && bool_decide (krn_Type k = typ) && live k).
Definition krnsqlite_SetDefault : string → M unit := row_SetDefault kernelRow (λ _, true).
Definition krnsqlite_UpdateManyIsPresent : list string → bool → M unit := row_UpdateManyIsPresent kernelRow.

Definition krnSqliteRepo : KernelRepository (Db T) := {|
  kr_Get := krnsqlite_Get; kr_FindByPrefix := krnsqlite_FindByPrefix; kr_ListAll := krnsqlite_ListAll;
  kr_GetByName := krnsqlite_GetByName; kr_GetDefault := krnsqlite_GetDefault; kr_Upsert := krnsqlite_Upsert;
  kr_Delete := krnsqlite_Delete; kr_SoftDelete := krnsqlite_SoftDelete; kr_Count := krnsqlite_Count;
  kr_GetByType := krnsqlite_GetByType; kr_GetByVersionAndType := krnsqlite_GetByVersionAndType;
  kr_SetDefault := krnsqlite_SetDefault; kr_UpdateManyIsPresent := krnsqlite_UpdateManyIsPresent;
|}.
End KernelSqlite.

(** Paths of the host: the home directory of the user, symbolic links, the
    working directory; and the clock. *)
Class Paths (W : Type) := {
  ExpandTilde : string → ST W string;
  EvalSymlinks : string → GoM W error string;
  Abs : string → GoM W error string;
  NowText : ST W string;
}.

Section KernelResolver.
Context {W : Type} `{KernelRepository W} `{Files W} `{Paths W}.
Context (include : option (list string)) (enrichFn : option (list KernelItem → ST W unit)).
#[local] Notation M := (GoM W error).

(** The text is the entity of the error; its message is empty. *)
Definition kernelNotFound (msg : string) : error := EDomain (NotFound CodeKernelNotFound "" [WithEntity msg]).
Definition krn_one (k : KernelItem) : M KernelItem := _ ← calls (relate include enrichFn [k]); mret k.
Definition krn_orMissing (k : option KernelItem) (msg : string) : M KernelItem :=
  match k with Some k => krn_one k | None => throw (kernelNotFound msg) end.

Definition krn_ByID (kernelID : string) (includeDeleted : bool) : M KernelItem :=
  matches ← kr_FindByPrefix kernelID includeDeleted;
  match matches with
  | [] => throw (kernelNotFound ("Kernel not found: '" ++ kernelID ++ "'"))
  | [k] => krn_one k
  | _ => throw (kernelNotFound ("Kernel ID is ambiguous: '" ++ kernelID ++ "'"))
  end.

Definition krn_ByVersionType (ver typ : string) : M KernelItem :=
  k ← kr_GetByVersionAndType ver typ;
  krn_orMissing k ("Kernel not found: version='" ++ ver ++ "', type='" ++ typ ++ "'").
Definition krn_ByNameVersion (name ver : string) : M KernelItem := krn_ByVersionType ver name.
Definition krn_ByType (typ : string) : M KernelItem :=
  k ← kr_GetByType typ; krn_orMissing k ("Kernel not found: type='" ++ typ ++ "'").
Definition krn_GetDefault : M (option KernelItem) :=
  k ← kr_GetDefault;
  match k with Some k => (k ← krn_one k; mret (Some k)) | None => mret None end.

(** [if x, err := f(path); err == nil { path = x }]. *)
Definition orSame (f : string → M string) (path : string) : M string :=
  r ← try (f path); mret (match r with Ok p => p | Err _ => path end).

Definition ItemFromPath (path : string) : M KernelItem :=
  path ← calls (ExpandTilde path);
  path ← orSame EvalSymlinks path;
  path ← orSame Abs path;
  let name := Base path in
  now ← calls NowText;
  mret (KernelItem_ path name name "unknown" "unknown" "external" path false true now now None []).

(** [os.Stat] succeeds. *)
Definition exists_ (path : string) : M bool := r ← try (Stat path); mret (is_Ok r).

Definition krn_Resolve (value : string) (includeDeleted : bool) : M KernelItem :=
  let '(name, ver) := ParseSelector value in
  if bool_decide (name ≠ "") && bool_decide (ver ≠ "") then krn_ByNameVersion name ver
  else if HasPrefix value "/" then
    path ← calls (ExpandTilde value);
    there ← exists_ path;
    if there : bool then ItemFromPath path else throw (kernelNotFound ("Kernel not found at path: '" ++ value ++ "'"))
  else
    r ← try (krn_ByID value includeDeleted);
    match r with
    | Ok k => mret k
    | Err err =>
        if decide (IsNotFound err ≠ Some true) then throw err
        else
          byType ← try (kr_GetByType value);
          match byType with
          | Ok (Some k) => krn_one k
          | _ =>
              there ← exists_ value;
              if there : bool then ItemFromPath value else throw (kernelNotFound ("Kernel not found: '" ++ value ++ "'"))
          end
    end.

Definition krn_ResolveMany (identifiers : list string) (includeDeleted : bool) : ST W (Resolved KernelItem) :=
  r ← resolveAll krn_ID (λ i, krn_Resolve i includeDeleted) identifiers;
  let '(items, errors) := r in
  _ ← relate include enrichFn items;
  mret (Resolved_ items errors (exitCode items errors)).
End KernelResolver.

(** ** Binaries *)

Definition binSet (default present : bool) (created updated : string) (deleted : option string) (b : BinaryItem) : BinaryItem :=
  BinaryItem_ (bin_ID b) (bin_Type b) (bin_Version b) (bin_FullVersion b) (bin_CIVersion b) (bin_Path b)
    default present created updated deleted.

Definition binaryRow : AssetRow BinaryItem := {|
  ro_ID := bin_ID; ro_CreatedAt := bin_CreatedAt; ro_DeletedAt := bin_DeletedAt; ro_IsDefault := bin_IsDefault;
  ro_setDefault v b := binSet v (bin_IsPresent b) (bin_CreatedAt b) (bin_UpdatedAt b) (bin_DeletedAt b) b;
  ro_setPresent v b := binSet (bin_IsDefault b) v (bin_CreatedAt b) (bin_UpdatedAt b) (bin_DeletedAt b) b;
  ro_setDeleted d b := binSet (bin_IsDefault b) (bin_IsPresent b) (bin_CreatedAt b) (bin_UpdatedAt b) d b;
  ro_setTimes c u b := binSet (bin_IsDefault b) (bin_IsPresent b) c u (bin_DeletedAt b) b;
|}.

Class BinaryRepository (W : Type) := {
  br_Get : string → GoM W error (option BinaryItem);
  br_FindByPrefix : string → bool → GoM W error (list BinaryItem);
  br_ListAll : GoM W error (list BinaryItem);
  br_ListByType : string → GoM W error (list BinaryItem);
  br_GetByTypeAndVersion : string → string → GoM W error (option BinaryItem);
  br_Upsert : BinaryItem → GoM W error unit;
  br_Delete : string → GoM W error unit;
  br_DeleteByType : string → GoM W error unit;
  br_DeleteByTypeAndVersion : string → string → GoM W error unit;
  br_SetDefault : string → string → GoM W error unit;
  br_Count : GoM W error Z;
  br_GetDefault : string → GoM W error (option BinaryItem);
  br_SoftDelete : string → GoM W error unit;
  br_UpdateManyIsPresent : list string → bool → GoM W error unit;
}.

Section BinarySqlite.
Context (like : string → string → bool) (rfc3339 : string → string) (constraintError : error) (inUse : string → bool).
#[local] Notation T := (list BinaryItem).
#[local] Notation M := (GoM (Db T) error).
#[local] Notation live := (ro_live binaryRow).

Definition binsqlite_Get : string → M (option BinaryItem) := row_GetLive binaryRow.
Definition binsqlite_FindByPrefix : string → bool → M T := row_FindByPrefix binaryRow like.
Definition binsqlite_ListAll : M T := row_ListAll binaryRow.
Definition binsqlite_ListByType (typ : string) : M T :=
  query (λ t : T, orderBy bin_CreatedAt (filter (λ b, bool_decide (bin_Type b = typ) && live b) t)).
Definition binsqlite_GetByTypeAndVersion (typ ver : string) : M (option BinaryItem) :=
  firstRow (λ b, bool_decide (bin_Type b = typ) && bool_decide (bin_Version b = ver) && live b).
Definition binsqlite_Upsert : BinaryItem → M unit := row_Upsert binaryRow (λ _ b, b).
Definition binsqlite_Delete : string → M unit := row_Delete binaryRow constraintError inUse.

(** Every row that matches is deleted, or none. *)
Definition binDeleteWhere (P : BinaryItem → bool) : M unit :=
  statement (λ _ (t : T), if existsb (λ b, P b && inUse (bin_ID b)) t then Err constraintError
                          else Ok ((), filter (λ b, negb (P b)) t)).
Definition binsqlite_DeleteByType (typ : string) : M unit := binDeleteWhere (λ b, bool_decide (bin_Type b = typ)).
Definition binsqlite_DeleteByTypeAndVersion (typ ver : string) : M unit :=
  let normalized := TrimPrefix ver "v" in
  let prefixed := "v" ++ normalized in
  binDeleteWhere (λ b, bool_decide (bin_Type b = typ) &&
                       (bool_decide (bin_Version b = normalized) || bool_decide (bin_Version b = prefixed))).
Definition binsqlite_SetDefault (typ id : string) : M unit :=
  row_SetDefault binaryRow (λ b, bool_decide (bin_Type b = typ)) id.
Definition binsqlite_Count : M Z := row_Count binaryRow.
Definition binsqlite_GetDefault (typ : string) : M (option BinaryItem) :=
  firstRow (λ b, bool_decide (bin_Type b = typ) && bin_IsDefault b && live b).
Definition binsqlite_SoftDelete : string → M unit := row_SoftDelete binaryRow rfc3339.
Definition binsqlite_UpdateManyIsPresent : list string → bool → M unit := row_UpdateManyIsPresent binaryRow.

Definition binSqliteRepo : BinaryRepository (Db T) := {|
  br_Get := binsqlite_Get; br_FindByPrefix := binsqlite_FindByPrefix; br_ListAll := binsqlite_ListAll;
  br_ListByType := binsqlite_ListByType; br_GetByTypeAndVersion := binsqlite_GetByTypeAndVersion;
  br_Upsert := binsqlite_Upsert; br_Delete := binsqlite_Delete; br_DeleteByType := binsqlite_DeleteByType;
  br_DeleteByTypeAndVersion := binsqlite_DeleteByTypeAndVersion; br_SetDefault := binsqlite_SetDefault;
  br_Count := binsqlite_Count; br_GetDefault := binsqlite_GetDefault; br_SoftDelete := binsqlite_SoftDelete;
  br_UpdateManyIsPresent := binsqlite_UpdateManyIsPresent;
|}.
End BinarySqlite.

Section BinaryResolver.
Context {W : Type} `{BinaryRepository W} (include : option (list string)) (enrichFn : option (list BinaryItem → ST W unit)).
(** [sort.Slice]. *)
Context (sortSlice : (BinaryItem → BinaryItem → bool) → list BinaryItem → list BinaryItem).
#[local] Notation M := (GoM W error).

Definition binaryNotFound (msg : string) : error := EDomain (NotFound CodeBinaryNotFound msg []).
Definition bin_one (b : BinaryItem) : M BinaryItem := _ ← calls (relate include enrichFn [b]); mret b.

Definition bin_ByID (binaryID : string) (includeDeleted : bool) : M BinaryItem :=
  matches ← br_FindByPrefix binaryID includeDeleted;
  match matches with
  | [] => throw (binaryNotFound ("Binary not found: " ++ binaryID))
  | [b] => bin_one b
  | _ => throw (EDomain (New CodeBinaryNotFound ("Binary ID is ambiguous: " ++ binaryID) []))
  end.

Definition bin_ByTypeVersion (typ ver : string) : M BinaryItem :=
  binary ← br_GetByTypeAndVersion typ ver;
  match binary with
  | Some b => bin_one b
  | None => throw (binaryNotFound ("Binary not found: type='" ++ typ ++ "', version='" ++ ver ++ "'"))
  end.

Definition newerBinary (a b : BinaryItem) : bool := (0 <? Compare (bin_Version a) (bin_Version b))%Z.

(** All that match are enriched, and the first is the answer. *)
Definition bin_ByTypeLatest (typ : string) : M BinaryItem :=
  matches ← br_ListByType typ;
  let matches := match matches with [] | [_] => matches | _ => sortSlice newerBinary matches end in
  match matches with
  | [] => throw (binaryNotFound ("Binary not found by type: " ++ typ))
  | b :: _ => _ ← calls (relate include enrichFn matches); mret b
  end.

Definition bin_GetDefault (typ : string) : M (option BinaryItem) :=
  binary ← br_GetDefault typ;
  match binary with Some b => (b ← bin_one b; mret (Some b)) | None => mret None end.

Definition bin_Resolve (value : string) (includeDeleted : bool) : M BinaryItem :=
  let '(typ, ver) := ParseSelector value in
  if bool_decide (typ ≠ "") && bool_decide (ver ≠ "") then bin_ByTypeVersion typ ver
  else orIfMissing (hasCode CodeBinaryNotFound) (bin_ByID value includeDeleted) (bin_ByTypeLatest value).

(** [errors.As] and the code. *)
Definition wrapsCode (code : Code) (err : error) : bool :=
  match AsDomainError err with Some d => bool_decide (Code_ d = code) | None => false end.

(** An error of another kind ends the loop. *)
Fixpoint bin_resolveLoop (idents : list string) (includeDeleted : bool) (items : list BinaryItem) (errsList : list string)
    (seen : gset string) : ST W (Resolved BinaryItem + (list BinaryItem * list string)) :=
  match idents with
  | [] => mret (inr (items, errsList))
  | identifier :: rest =>
      r ← attempt (bin_Resolve identifier includeDeleted);
      match r with
      | Err err =>
          if wrapsCode CodeBinaryNotFound err then bin_resolveLoop rest includeDeleted items (errsList ++ [Error err])%list seen
          else mret (inl (Resolved_ items (errsList ++ [Error err])%list 0%Z))
      | Ok item =>
          if decide (bin_ID item ∈ seen) then bin_resolveLoop rest includeDeleted items errsList seen
          else bin_resolveLoop rest includeDeleted (items ++ [item])%list errsList ({[bin_ID item]} ∪ seen)
      end
  end.

Definition bin_ResolveMany (identifiers : list string) (includeDeleted : bool) : ST W (Resolved BinaryItem) :=
  r ← bin_resolveLoop (Dedup identifiers) includeDeleted [] [] ∅;
  match r with
  | inl stopped => mret stopped
  | inr (items, errsList) =>
      _ ← relate include enrichFn items;
      mret (Resolved_ items errsList (exitCode items errsList))
  end.
End BinaryResolver.

(** ** SSH keys *)

Definition keySet (default present : bool) (created updated : string) (k : SSHKeyItem) : SSHKeyItem :=
  SSHKeyItem_ (key_ID k) (key_Name k) (key_Fingerprint k) (key_Algorithm k) (key_Comment k) (key_PublicKeyPath k)
    default present created updated (key_PrivateKeyPath k).

Class KeyRepository (W : Type) := {
  keyr_Get : string → GoM W error (option SSHKeyItem);
  keyr_ListAll : GoM W error (list SSHKeyItem);
  keyr_GetByName : string → GoM W error (option SSHKeyItem);
  keyr_GetDefault : GoM W error (option SSHKeyItem);
  keyr_Upsert : SSHKeyItem → GoM W error unit;
  keyr_Delete : string → GoM W error unit;
  keyr_SetDefault : string → GoM W error unit;
  keyr_FindByPrefix : string → GoM W error (list SSHKeyItem);
  keyr_GetDefaults : GoM W error (list SSHKeyItem);
  keyr_ClearDefaults : GoM W error unit;
  keyr_UpdateManyIsPresent : list string → bool → GoM W error unit;
  keyr_Count : GoM W error Z;
}.

Section KeySqlite.
Context (like : string → string → bool) (constraintError : error).
#[local] Notation T := (list SSHKeyItem).
#[local] Notation M := (GoM (Db T) error).

Definition keysqlite_Get (id : string) : M (option SSHKeyItem) := firstRow (λ k, bool_decide (key_ID k = id)).
Definition keysqlite_ListAll : M T := query (orderBy key_Name).
Definition keysqlite_GetByName (name : string) : M (option SSHKeyItem) := firstRow (λ k, bool_decide (key_Name k = name)).
Definition keysqlite_GetDefault : M (option SSHKeyItem) := firstRow key_IsDefault.
Definition keysqlite_Upsert (k : SSHKeyItem) : M unit :=
  statement (λ now (t : T),
    if decide (Exists (λ x, key_Name x = key_Name k ∧ key_ID x ≠ key_ID k) t) then Err constraintError
    else Ok ((), upsertBy key_ID k (λ old, keySet (key_IsDefault k) (key_IsPresent k) (key_CreatedAt old) now k) t)).
Definition keysqlite_Delete (id : string) : M unit :=
  statement (λ _ (t : T), Ok ((), filter (λ k, key_ID k ≠ id) t)).
(** The other defaults stay. *)
Definition keysqlite_SetDefault (id : string) : M unit :=
  statement (λ now (t : T), Ok ((), updateRow key_ID id (λ k, keySet true (key_IsPresent k) (key_CreatedAt k) now k) t)).
Definition keysqlite_FindByPrefix (prefix : string) : M T := query (λ t : T, filter (λ k, like (prefix ++ "%") (key_ID k)) t).
Definition keysqlite_GetDefaults : M T := query (λ t : T, filter key_IsDefault t).
Definition keysqlite_ClearDefaults : M unit :=
  statement (λ _ (t : T), Ok ((), (λ k, keySet false (key_IsPresent k) (key_CreatedAt k) (key_UpdatedAt k) k) <$> t)).
Definition keysqlite_UpdateManyIsPresent (ids : list string) (present : bool) : M unit :=
  if decide (ids = []) then mret ()
  else statement (λ now (t : T), Ok ((),
         (λ k, if decide (key_ID k ∈ ids) then keySet (key_IsDefault k) present (key_CreatedAt k) now k else k) <$> t)).
Definition keysqlite_Count : M Z := query (λ t : T, Z.of_nat (length t)).

Definition keySqliteRepo : KeyRepository (Db T) := {|
  keyr_Get := keysqlite_Get; keyr_ListAll := keysqlite_ListAll; keyr_GetByName := keysqlite_GetByName;
  keyr_GetDefault := keysqlite_GetDefault; keyr_Upsert := keysqlite_Upsert; keyr_Delete := keysqlite_Delete;
  keyr_SetDefault := keysqlite_SetDefault; keyr_FindByPrefix := keysqlite_FindByPrefix;
  keyr_GetDefaults := keysqlite_GetDefaults; keyr_ClearDefaults := keysqlite_ClearDefaults;
  keyr_UpdateManyIsPresent := keysqlite_UpdateManyIsPresent; keyr_Count := keysqlite_Count;
|}.
End KeySqlite.

Section KeyResolver.
Context {W : Type} `{KeyRepository W} `{Files W}.
Context (include : option (list string)) (enrichFn : option (list SSHKeyItem → ST W unit)).
#[local] Notation M := (GoM W error).

Definition keyNotFound (msg entity : string) : error := EDomain (NotFound CodeKeyNotFound msg [WithEntity entity]).
Definition key_one (k : SSHKeyItem) : M SSHKeyItem := _ ← calls (relate include enrichFn [k]); mret k.

Fixpoint key_tryIDs (keyID : string) (candidates : list string) : M SSHKeyItem :=
  match candidates with
  | [] => throw (keyNotFound ("Key not found: '" ++ keyID ++ "'") keyID)
  | candidate :: rest =>
      matches ← keyr_FindByPrefix candidate;
      match matches with
      | [k] => key_one k
      | [] => key_tryIDs keyID rest
      | _ => throw (EDomain (New CodeKeyNotFound ("Key ID is ambiguous: '" ++ keyID ++ "'") [WithEntity keyID]))
      end
  end.

Definition key_ByID (keyID : string) : M SSHKeyItem :=
  key_tryIDs keyID (if HasPrefix keyID "SHA256:" then [keyID] else [keyID; "SHA256:" ++ keyID]).

Definition key_ByName (name : string) : M SSHKeyItem :=
  key ← keyr_GetByName name;
  match key with Some k => key_one k | None => throw (keyNotFound ("Key not found: '" ++ name ++ "'") name) end.

Definition isMissing (err : error) : bool := bool_decide (IsNotFound err = Some true).

(** The name of a public key without its extension. *)
Definition keyStem (path : string) : string := stake (String.length (Base path) - 4) (Base path).
Definition hasPub (path : string) : bool :=
  (4 <=? String.length path)%nat && bool_decide (sdrop (String.length path - 4) path = ".pub").

Definition key_Resolve (value : string) : M SSHKeyItem :=
  orIfMissing isMissing (key_ByName value) (orIfMissing isMissing (key_ByID value) (
    stat ← try (Stat value);
    if is_Ok stat && hasPub value then
      let stem := keyStem value in
      orIfMissing isMissing (key_ByName stem)
        (throw (EDomain (New CodeKeyError ("Public key file '" ++ value ++ "' found on disk but key '" ++ stem ++
           "' is not in the cache. Import it first with: mvm key import " ++ stem ++ " " ++ value) [])))
    else throw (keyNotFound ("Key not found: '" ++ value ++
           "' is not a cached key name, a readable .pub file path, or a resolvable ID.") value))).

Fixpoint key_resolveLoop (idents : list string) (items : list SSHKeyItem) (errsList : list string)
    (seen : gset string) : M (list SSHKeyItem * list string) :=
  match idents with
  | [] => mret (items, errsList)
  | identifier :: rest =>
      r ← try (key_Resolve identifier);
      match r with
      | Err err => if isMissing err then key_resolveLoop rest items (errsList ++ [Error err])%list seen else throw err
      | Ok key =>
          if decide (key_ID key ∈ seen) then key_resolveLoop rest items errsList seen
          else key_resolveLoop rest (items ++ [key])%list errsList ({[key_ID key]} ∪ seen)
      end
  end.

Definition key_ResolveMany (identifiers : list string) : M (Resolved SSHKeyItem) :=
  r ← key_resolveLoop (Dedup identifiers) [] [] ∅;
  let '(items, errsList) := r in
  _ ← calls (relate include enrichFn items);
  mret (Resolved_ items errsList (exitCode items errsList)).

Definition key_GetDefaults : M (list SSHKeyItem) :=
  keys ← keyr_GetDefaults; _ ← calls (relate include enrichFn keys); mret keys.
End KeyResolver.

(** ** Snapshots *)

Class SnapshotRepository (W : Type) := {
  sr_Get : string → GoM W error (option SnapshotItem);
  sr_GetByName : string → GoM W error (option SnapshotItem);
  sr_FindByPrefix : string → GoM W error (list SnapshotItem);
  sr_ListAll : GoM W error (list SnapshotItem);
  sr_Upsert : SnapshotItem → GoM W error unit;
  sr_Delete : string → GoM W error unit;
  sr_CountByKernelID : string → GoM W error Z;
  sr_CountByNetworkID : string → GoM W error Z;
  sr_CountByBinaryID : string → GoM W error Z;
  sr_FindByKernelID : string → GoM W error (list SnapshotItem);
  sr_FindByKernelIDs : list string → GoM W error (list SnapshotItem);
  sr_FindByNetworkID : string → GoM W error (list SnapshotItem);
  sr_FindByNetworkIDs : list string → GoM W error (list SnapshotItem);
  sr_FindByBinaryID : string → GoM W error (list SnapshotItem);
  sr_FindByBinaryIDs : list string → GoM W error (list SnapshotItem);
}.

Definition snapSetTimes (created updated : string) (s : SnapshotItem) : SnapshotItem :=
  SnapshotItem_ (snap_ID s) (snap_Name s) (snap_SourceVMID s) (snap_SourceVMName s) (snap_SnapshotDir s) (snap_MemoryFile s)
    (snap_StateFile s) (snap_RootfsFile s) (snap_KernelID s) (snap_NetworkID s) (snap_BinaryID s) (snap_VCPUCount s)
    (snap_MemSizeMiB s) (snap_DiskSizeMiB s) (snap_ImageID s) (snap_SSHKeys s) (snap_SSHUser s) (snap_ExtraConfig s)
    created updated.

Section SnapshotSqlite.
Context (like : string → string → bool).
#[local] Notation T := (list SnapshotItem).
#[local] Notation M := (GoM (Db T) error).

Definition snapSelect (P : SnapshotItem → bool) : M T := query (λ t : T, filter P t).
Definition snapIn (msg : string) (column : SnapshotItem → string) (ids : list string) : M T :=
  if decide (ids = []) then mret [] else wrapErr msg (snapSelect (λ s, bool_decide (column s ∈ ids))).
Definition snapCount (column : SnapshotItem → string) (id : string) : M Z :=
  query (λ t : T, Z.of_nat (length (filter (λ s, column s = id) t))).

Definition snapsqlite_Get (id : string) : M (option SnapshotItem) := firstRow (λ s, bool_decide (snap_ID s = id)).
Definition snapsqlite_GetByName (name : string) : M (option SnapshotItem) := firstRow (λ s, bool_decide (snap_Name s = name)).
Definition snapsqlite_FindByPrefix (prefix : string) : M T :=
  wrapErr "find snapshot by prefix" (snapSelect (λ s, like (prefix ++ "%") (snap_ID s))).
Definition snapsqlite_ListAll : M T := wrapErr "list all snapshots" (query (orderBy snap_CreatedAt)).
Definition snapsqlite_Upsert (s : SnapshotItem) : M unit :=
  statement (λ now (t : T), Ok ((), upsertBy snap_ID s (λ old, snapSetTimes (snap_CreatedAt old) now s) t)).
Definition snapsqlite_Delete (id : string) : M unit :=
  statement (λ _ (t : T), Ok ((), filter (λ s, snap_ID s ≠ id) t)).
Definition snapsqlite_CountByKernelID : string → M Z := snapCount snap_KernelID.
Definition snapsqlite_CountByNetworkID : string → M Z := snapCount snap_NetworkID.
Definition snapsqlite_CountByBinaryID : string → M Z := snapCount snap_BinaryID.
Definition snapsqlite_FindByKernelID (id : string) : M T :=
  wrapErr "find snapshots by kernel id" (snapSelect (λ s, bool_decide (snap_KernelID s = id))).
Definition snapsqlite_FindByKernelIDs : list string → M T := snapIn "find snapshots by kernel IDs" snap_KernelID.
Definition snapsqlite_FindByNetworkID (id : string) : M T :=
  wrapErr "find snapshots by network id" (snapSelect (λ s, bool_decide (snap_NetworkID s = id))).
Definition snapsqlite_FindByNetworkIDs : list string → M T := snapIn "find snapshots by network IDs" snap_NetworkID.
Definition snapsqlite_FindByBinaryID (id : string) : M T :=
  wrapErr "find snapshots by binary id" (snapSelect (λ s, bool_decide (snap_BinaryID s = id))).
Definition snapsqlite_FindByBinaryIDs : list string → M T := snapIn "find snapshots by binary IDs" snap_BinaryID.

Definition snapSqliteRepo : SnapshotRepository (Db T) := {|
  sr_Get := snapsqlite_Get; sr_GetByName := snapsqlite_GetByName; sr_FindByPrefix := snapsqlite_FindByPrefix;
  sr_ListAll := snapsqlite_ListAll; sr_Upsert := snapsqlite_Upsert; sr_Delete := snapsqlite_Delete;
  sr_CountByKernelID := snapsqlite_CountByKernelID; sr_CountByNetworkID := snapsqlite_CountByNetworkID;
  sr_CountByBinaryID := snapsqlite_CountByBinaryID; sr_FindByKernelID := snapsqlite_FindByKernelID;
  sr_FindByKernelIDs := snapsqlite_FindByKernelIDs; sr_FindByNetworkID := snapsqlite_FindByNetworkID;
  sr_FindByNetworkIDs := snapsqlite_FindByNetworkIDs; sr_FindByBinaryID := snapsqlite_FindByBinaryID;
  sr_FindByBinaryIDs := snapsqlite_FindByBinaryIDs;
|}.
End SnapshotSqlite.

Section SnapshotResolver.
Context {W : Type} `{SnapshotRepository W}.
#[local] Notation M := (GoM W error).

Definition snapNotFound (msg : string) : error := EDomain (NotFound CodeSnapshotNotFound msg []).

Definition snap_ByID (id : string) : M SnapshotItem :=
  matches ← sr_FindByPrefix id;
  match matches with
  | [] => throw (snapNotFound ("snapshot not found: " ++ id))
  | [s] => mret s
  | _ => throw (snapNotFound ("ID " ++ id ++ " matches multiple snapshots: " ++ Join (snap_Name <$> matches) ", "))
  end.

Definition snap_ByName (name : string) : M SnapshotItem :=
  snap ← sr_GetByName name;
  match snap with Some s => mret s | None => throw (snapNotFound ("snapshot not found: " ++ name)) end.

Definition snap_Resolve (identifier : string) : M SnapshotItem := orIfMissing isMissing (snap_ByName identifier) (snap_ByID identifier).

Definition snap_ResolveMany (identifiers : list string) : ST W (Resolved SnapshotItem) :=
  r ← resolveAll snap_ID snap_Resolve identifiers;
  let '(snapshots, errsList) := r in
  mret (Resolved_ snapshots errsList (exitCode snapshots errsList)).
End SnapshotResolver.

(** ** vsock devices ([core/vsock]: [repository.go], [sqlite.go], [resolver.go],
    [service.go]) *)

Class VsockRepository (W : Type) := {
  vkr_GetByVMID : string → GoM W error (option VsockConfigItem);
  vkr_ListByVMIDs : list string → GoM W error (list VsockConfigItem);
  vkr_Upsert : VsockConfigItem → GoM W error unit;
  vkr_DeleteByVMID : string → GoM W error unit;
  vkr_SetUpgradeLock : string → GoM W error unit;
  vkr_ClearUpgradeLock : string → GoM W error unit;
  vkr_UpdateAgentVersion : string → string → GoM W error unit;
}.

Definition vskSet (version : string) (upgrading : bool) (started : option string) (v : VsockConfigItem) : VsockConfigItem :=
  VsockConfigItem_ (vsk_ID v) (vsk_VmID v) (vsk_GuestCID v) (vsk_UDSPath v) (vsk_Port v) (vsk_Token v) version upgrading started.

Section VsockSqlite.
(** [vm_id] is a foreign key: [vms] are the ids there are. *)
Context (constraintError : error) (vms : string → bool).
#[local] Notation T := (list VsockConfigItem).
#[local] Notation M := (GoM (Db T) error).

Definition vsksqlite_GetByVMID (vmID : string) : M (option VsockConfigItem) := firstRow (λ v, bool_decide (vsk_VmID v = vmID)).

(** The statement names six columns: a new row has the defaults of the others,
    an existing row of the machine keeps them and its id. *)
Definition vsksqlite_Upsert (item : VsockConfigItem) : M unit :=
  statement (λ _ (t : T),
    if negb (vms (vsk_VmID item)) then Err constraintError
    else if decide (Exists (λ x, vsk_VmID x ≠ vsk_VmID item ∧ (vsk_GuestCID x = vsk_GuestCID item ∨ vsk_ID x = vsk_ID item)) t)
    then Err constraintError
    else Ok ((), upsertBy vsk_VmID (vskSet "" false None item)
      (λ old, VsockConfigItem_ (vsk_ID old) (vsk_VmID old) (vsk_GuestCID item) (vsk_UDSPath item) (vsk_Port item)
                (vsk_Token item) (vsk_AgentVersion old) (vsk_Upgrading old) (vsk_UpgradeStartedAt old)) t)).

Definition vsksqlite_ListByVMIDs (vmIDs : list string) : M T :=
  if decide (vmIDs = []) then mret [] else query (λ t : T, filter (λ v, vsk_VmID v ∈ vmIDs) t).

Definition vsksqlite_DeleteByVMID (vmID : string) : M unit :=
  statement (λ _ (t : T), Ok ((), filter (λ v, vsk_VmID v ≠ vmID) t)).

(** The rows that are not locked are locked; without one the lock is held. *)
Definition vsksqlite_SetUpgradeLock (vmID : string) : M unit :=
  rows ← statement (λ now (t : T),
    Ok (length (filter (λ v, vsk_VmID v = vmID ∧ vsk_Upgrading v = false) t),
        (λ v, if decide (vsk_VmID v = vmID ∧ vsk_Upgrading v = false)
              then vskSet (vsk_AgentVersion v) true (Some now) v else v) <$> t));
  if bool_decide (rows = 0) then throw (Errorf ("upgrade already in progress for VM " ++ vmID) None) else mret ().

Definition vsksqlite_ClearUpgradeLock (vmID : string) : M unit :=
  statement (λ _ (t : T), Ok ((), updateRow vsk_VmID vmID (λ v, vskSet (vsk_AgentVersion v) false None v) t)).

Definition vsksqlite_UpdateAgentVersion (vmID version : string) : M unit :=
  statement (λ _ (t : T), Ok ((), updateRow vsk_VmID vmID (λ v, vskSet version (vsk_Upgrading v) (vsk_UpgradeStartedAt v) v) t)).

Definition vskSqliteRepo : VsockRepository (Db T) := {|
  vkr_GetByVMID := vsksqlite_GetByVMID; vkr_ListByVMIDs := vsksqlite_ListByVMIDs; vkr_Upsert := vsksqlite_Upsert;
  vkr_DeleteByVMID := vsksqlite_DeleteByVMID; vkr_SetUpgradeLock := vsksqlite_SetUpgradeLock;
  vkr_ClearUpgradeLock := vsksqlite_ClearUpgradeLock; vkr_UpdateAgentVersion := vsksqlite_UpdateAgentVersion;
|}.
End VsockSqlite.

Definition vsk_GetByVMID {W} `{VsockRepository W} (vmID : string) : GoM W error VsockConfigItem :=
  item ← vkr_GetByVMID vmID;
  match item with
  | Some v => mret v
  | None => throw (EDomain (NotFound CodeVsockNotFound ("vsock config not found for VM: " ++ vmID) []))
  end.

Definition VMID (sha256Hex : string → string) (name createdAt : string) : string :=
  stake 32 (sha256Hex (name ++ ":" ++ createdAt)).

Definition maxGuestCID : Z := 4294967295.

Section VsockService.
Context {W : Type} `{VsockRepository W}.
(** [rand.Int(rand.Reader, n)], the time, and the build version. *)
Context (randInt : Z → GoM W error Z) (now : ST W string) (sha256Hex : string → string) (BuildVersion : string).
#[local] Notation M := (GoM W error).

Definition AllocateCID : M Z :=
  r ← try (randInt (maxGuestCID - 2)%Z);
  match r with
  | Ok c => mret (c + 3)%Z
  | Err err => throw (Errorf ("generate vsock CID: " ++ Error err) (Some err))
  end.

Definition maxCIDRetries : nat := 5.

Definition vskSetCID (cid : Z) (v : VsockConfigItem) : VsockConfigItem :=
  VsockConfigItem_ (vsk_ID v) (vsk_VmID v) cid (vsk_UDSPath v) (vsk_Port v) (vsk_Token v) (vsk_AgentVersion v)
    (vsk_Upgrading v) (vsk_UpgradeStartedAt v).

(** [n] attempts are left; after the first one the CID is drawn anew. *)
Fixpoint persistAttempts (n : nat) (first : bool) (item : VsockConfigItem) : M unit :=
  match n with
  | O => throw (Errorf "persist vsock config after 5 retries" None)
  | S n =>
      item ← (if first then mret item else (newCID ← AllocateCID; mret (vskSetCID newCID item)));
      r ← try (vkr_Upsert item);
      match r with Ok _ => mret () | Err _ => persistAttempts n false item end
  end.

Definition PersistConfig (cid : Z) (vmID vmName udsPath : string) (port : Z) (token : string) : M unit :=
  let agentVersion := if bool_decide (BuildVersion = "") then "0.0.0" else BuildVersion in
  timestamp ← calls now;
  persistAttempts maxCIDRetries true
    (VsockConfigItem_ (VMID sha256Hex vmName timestamp) vmID cid udsPath port token agentVersion false None).
End VsockService.

(** ** Theorems *)

(** *** The upgrade lock of a guest agent *)

(** What processes do to the rows of the vsock devices. *)
Inductive vskOp :=
  | OpPersist (item : VsockConfigItem)
  | OpDrop (vmID : string)
  | OpLock (vmID : string)
  | OpUnlock (vmID : string)
  | OpVersion (vmID version : string).

Section UpgradeLock.
Context (constraintError : error) (vms : string → bool).

Definition runOp (op : vskOp) : GoM (Db (list VsockConfigItem)) error unit :=
  match op with
  | OpPersist item => vsksqlite_Upsert constraintError vms item
  | OpDrop vmID => vsksqlite_DeleteByVMID vmID
  | OpLock vmID => vsksqlite_SetUpgradeLock vmID
  | OpUnlock vmID => vsksqlite_ClearUpgradeLock vmID
  | OpVersion vmID v => vsksqlite_UpdateAgentVersion vmID v
  end.

(** Statements of any processes, one after the other, whatever they answer. *)
Definition runOps (ops : list vskOp) (w : Db (list VsockConfigItem)) : Db (list VsockConfigItem) :=
  foldl (λ w op, (runOp op w).2) w ops.

(** The machine has a row, and its rows are locked. *)
Definition locked (vmID : string) (t : list VsockConfigItem) : Prop :=
  vmID ∈ vsk_VmID <$> t ∧ ∀ v, v ∈ t → vsk_VmID v = vmID → vsk_Upgrading v = true.

Lemma locked_fmap vmID f t :
  (∀ v, vsk_VmID (f v) = vsk_VmID v) →
  (∀ v, vsk_VmID v = vmID → vsk_Upgrading v = true → vsk_Upgrading (f v) = true) →
  locked vmID t → locked vmID (f <$> t).
Proof.
  intros Hf Hu [Hin Hl]. split.
  - rewrite <- list_fmap_compose. erewrite list_fmap_ext; [exact Hin|]. intros; simpl; auto.
  - intros v (u & -> & Hv)%list_elem_of_fmap Hid. rewrite Hf in Hid. auto.
Qed.

Lemma statement_locked vmID {A} (f : string → list VsockConfigItem → result error (A * list VsockConfigItem)) w :
  (∀ now t a t', f now t = Ok (a, t') → locked vmID t → locked vmID t') →
  locked vmID (tables w) → locked vmID (tables (statement f w).2).
Proof.
  intros Hf Hl. destruct (statement f w) as [[a|e] w'] eqn:E; cbn [snd].
  - apply statement_Ok in E as [E _]. by eapply Hf.
  - by apply statement_Err in E as [-> _].
Qed.

Lemma runOp_locked vmID op w :
  op ≠ OpDrop vmID → op ≠ OpUnlock vmID → locked vmID (tables w) → locked vmID (tables (runOp op w).2).
Proof.
  intros Hd Hu. destruct op as [item|id|id|id|id v]; cbn [runOp].
  - apply statement_locked. intros now t a t'. destruct (negb _); [done|]. case_decide; [done|]. intros [= <- <-].
    unfold upsertBy. case_decide as Hin.
    + apply locked_fmap; intros x; case_decide; auto.
    + intros [Hid Hl]. split; [rewrite fmap_app; apply elem_of_app; by left|].
      intros x [Hx| ->%list_elem_of_singleton]%elem_of_app Hxid; [auto|]. destruct Hin. simpl in Hxid. simpl; by rewrite Hxid.
  - apply statement_locked. intros now t a t' [= <- <-] [Hin Hl]. split.
    + apply list_elem_of_fmap in Hin as (x & -> & Hx). apply list_elem_of_fmap_2, list_elem_of_filter.
      split; [|done]. intros E. apply Hd. by rewrite E.
    + intros x [_ Hx]%list_elem_of_filter. auto.
  - unfold vsksqlite_SetUpgradeLock. intros Hl. rewrite bind_unfold.
    match goal with |- context [statement ?f w] => pose proof (statement_locked vmID f w) as Hs; destruct (statement f w) as [[n|e] w1] end;
      cbn [snd] in *.
    + assert (locked vmID (tables w1)) as Hl1.
      { apply Hs; [|done]. intros now t a t' [= <- <-]. apply locked_fmap; intros x; by case_decide. }
      by case_bool_decide.
    + apply Hs; [|done]. intros now t a t' [= <- <-]. apply locked_fmap; intros x; by case_decide.
  - apply statement_locked. intros now t a t' [= <- <-]. apply locked_fmap; intros x; [by case_decide|].
    intros Hx. case_decide; [|done]. destruct Hu. congruence.
  - apply statement_locked. intros now t a t' [= <- <-]. apply locked_fmap; intros x; by case_decide.
Qed.

Lemma SetUpgradeLock_locks vmID w w' : vsksqlite_SetUpgradeLock vmID w = (Ok (), w') → locked vmID (tables w').
Proof.
  unfold vsksqlite_SetUpgradeLock. intros (n & w1 & E & Hn)%bind_Ok_inv. apply statement_Ok in E as [[= <- Ht] _].
  revert Hn. case_bool_decide as Hz; [done|]. intros [= <-]. rewrite <- Ht. split.
  - destruct (filter _ (tables w)) as [|v l] eqn:Ef; [by destruct Hz|].
    assert (v ∈ filter (λ v, vsk_VmID v = vmID ∧ vsk_Upgrading v = false) (tables w)) as [[<- _] Hv]%list_elem_of_filter
      by (rewrite Ef; left).
    rewrite <- list_fmap_compose. erewrite list_fmap_ext; [by apply list_elem_of_fmap_2|]. intros i x _. simpl. by case_decide.
  - intros v (x & -> & Hx)%list_elem_of_fmap. case_decide as Hd; [done|]. intros Hid.
    destruct (vsk_Upgrading x) eqn:Ex; [done|]. by destruct Hd.
Qed.

(** C30. The upgrade lock of a machine is exclusive: after one process took it,
    and whatever statements other processes ran since, some of them failing, as
    long as none released it or removed the machine, nobody takes it again. *)
Theorem SetUpgradeLock_exclusive (vmID : string) (ops : list vskOp) (w w' : Db (list VsockConfigItem)) :
  vsksqlite_SetUpgradeLock vmID w = (Ok (), w') → OpUnlock vmID ∉ ops → OpDrop vmID ∉ ops →
  is_Ok (vsksqlite_SetUpgradeLock vmID (runOps ops w')).1 = false.
Proof.
  intros Hlock%SetUpgradeLock_locks Hu Hd. unfold runOps.
  assert (locked vmID (tables (foldl (λ w op, (runOp op w).2) w' ops))) as [_ Hl].
  { revert w' Hlock. induction ops as [|op ops IH]; intros w' Hlock; [done|]. simpl.
    apply not_elem_of_cons in Hu as [Hu1 Hu], Hd as [Hd1 Hd]. apply IH; [done..|]. by apply runOp_locked. }
  set (w1 := foldl _ w' ops) in *. destruct (vsksqlite_SetUpgradeLock vmID w1) as [[[]|e] w2] eqn:E; [|done].
  exfalso. unfold vsksqlite_SetUpgradeLock in E. apply bind_Ok_inv in E as (n & w3 & E & Hn).
  apply statement_Ok in E as [[= <- _] _]. revert Hn. case_bool_decide as Hz; [done|]. intros _. apply Hz.
  apply length_filter_zero. intros v Hv [Hid Hup]. by rewrite Hl in Hup.
Qed.
End UpgradeLock.

(** *** Soft deletion *)

(** Writing the row of an image that is marked as deleted does not bring it
    back: the statement leaves the mark, so no query for live images answers it;
    the same statement of kernels takes the mark away. *)
Lemma Upsert_deleted_image (i : ImageItem) (k : KernelItem) (w w' : Db (list ImageItem)) (v v' : Db (list KernelItem)) :
  imgsqlite_Upsert i w = (Ok (), w') → krnsqlite_Upsert k v = (Ok (), v') →
  (∀ x, x ∈ tables w → img_ID x = img_ID i → img_DeletedAt x ≠ None) → img_ID i ∈ img_ID <$> tables w →
  krn_DeletedAt k = None →
  (∀ x, x ∈ tables w' → img_ID x = img_ID i → ro_live imageRow x = false) ∧
  (∃ x, x ∈ tables v' ∧ krn_ID x = krn_ID k ∧ ro_live kernelRow x = true).
Proof.
  intros [[= Ew] _]%statement_Ok [[= Ev] _]%statement_Ok Hdel Hin Hk. split.
  - rewrite <- Ew. unfold upsertBy. rewrite decide_True by done.
    intros x (y & -> & Hy)%list_elem_of_fmap. unfold ro_live. case_decide as Hid; intros Hx; apply bool_decide_eq_false; simpl in *.
    + by apply Hdel.
    + by destruct Hid.
  - rewrite <- Ev. unfold upsertBy. case_decide as Hkin.
    + apply list_elem_of_fmap in Hkin as (y & Hid & Hy). eexists. split; [by apply list_elem_of_fmap_2|].
      rewrite decide_True by done. split; [done|]. unfold ro_live. by apply bool_decide_eq_true.
    + exists k. split_and!; [apply elem_of_app; right; by apply list_elem_of_singleton|done|].
      unfold ro_live. by apply bool_decide_eq_true.
Qed.

Module AssetExamples.
Definition device (vm : string) (cid : Z) : VsockConfigItem := VsockConfigItem_ ("v" ++ vm) vm cid "/v.sock" 52%Z "t" "" false None.
Definition two : Db (list VsockConfigItem) := Db_ [device "a" 3%Z; device "b" 4%Z] [] "t1".
Definition err : error := Errorf "constraint failed" None.

Lemma SetUpgradeLock_exclusive_witness :
  vsksqlite_SetUpgradeLock "a" two = (Ok (), (vsksqlite_SetUpgradeLock "a" two).2) ∧
  is_Ok (vsksqlite_SetUpgradeLock "a" (runOps err (λ _, true)
    [OpPersist (device "a" 7%Z); OpLock "b"; OpUnlock "b"; OpVersion "a" "2.0"] (vsksqlite_SetUpgradeLock "a" two).2)).1 = false.
Proof.
  assert (vsksqlite_SetUpgradeLock "a" two = (Ok (), (vsksqlite_SetUpgradeLock "a" two).2)) as E by (vm_compute; reflexivity).
  split; [exact E|]. apply (SetUpgradeLock_exclusive err (λ _, true) "a" _ _ _ E).
  - intros [[=]|[[=]|[[=]|[[=]|[]%elem_of_nil]%elem_of_cons]%elem_of_cons]%elem_of_cons]%elem_of_cons.
  - intros [[=]|[[=]|[[=]|[[=]|[]%elem_of_nil]%elem_of_cons]%elem_of_cons]%elem_of_cons]%elem_of_cons.
Defined.

Definition ubuntu (deleted : option string) : ImageItem :=
  ImageItem_ "i1" "ubuntu" "Ubuntu" "x86_64" "/i" "ext4" 1%Z 1%Z false true false "t0" "t0" "t0" "24.04" "" "" None None None deleted.
Definition vmlinux (deleted : option string) : KernelItem :=
  KernelItem_ "k1" "vmlinux" "vmlinux" "6.1" "x86_64" "official" "/k" false true "t0" "t0" deleted [].
Definition images : Db (list ImageItem) := Db_ [ubuntu (Some "t0")] [] "t1".
Definition kernels : Db (list KernelItem) := Db_ [vmlinux (Some "t0")] [] "t1".

Lemma Upsert_deleted_image_witness :
  imgsqlite_GetByType "ubuntu" (imgsqlite_Upsert (ubuntu None) images).2 = (Ok None, (imgsqlite_Upsert (ubuntu None) images).2) ∧
  ∃ x, x ∈ tables (krnsqlite_Upsert (vmlinux None) kernels).2 ∧ krn_ID x = "k1" ∧ ro_live kernelRow x = true.
Proof.
  split; [vm_compute; reflexivity|].
  apply (Upsert_deleted_image (ubuntu None) (vmlinux None) images (imgsqlite_Upsert (ubuntu None) images).2 kernels
    (krnsqlite_Upsert (vmlinux None) kernels).2); [vm_compute; reflexivity..| | |reflexivity].
  - intros x ->%list_elem_of_singleton _. discriminate.
  - left.
Defined.
End AssetExamples.
