(* ===== verification/VMCreateInput.v ===== *)
(** * The input of a machine to create: [pkg/api/inputs/vm_create.go]

    [Resolve] turns what the caller gives into explicit values: references
    become rows, what is absent comes from the settings, and what comes out is
    checked.  It reads the tables and the settings and stats some files.

    The decoders of JSON are parameters: [parseJSON] of a text, [cpuConfigOf] of
    a map read again as the struct of a CPU configuration. *)

From stdpp Require Import gmap strings list.
From S2P Require Import Prelude GoStrings Errs Model Inputs Infra Sql Disk Config Files Resolving Volumes Networks VMRepo FcConfig IPNet Lease Names Assets CloudInit.
#[local] Open Scope string_scope.

(** ** The resolved input *)

Record ResolvedVMCreateInput := ResolvedVMCreateInput_ {
  rv_Name : string;
  rv_VMID : string;
  rv_VMDir : string;
  rv_VCPUCount : Z;
  rv_MemSizeMib : Z;
  rv_User : string;
  rv_DNSServer : string;
  rv_RootUID : Z;
  rv_RootGID : Z;
  rv_UserUID : Z;
  rv_UserGID : Z;
  rv_GuestMACPrefix : string;
  rv_Network : NetworkItem;
  rv_Image : ImageItem;
  rv_Kernel : KernelItem;
  rv_Binary : BinaryItem;
  rv_NetworkPrefixLen : Z;
  rv_CloudInitMode : CloudInitMode;
  rv_SkipCINetworkConfig : bool;
  rv_PCIEnabled : bool;
  rv_NestedVirt : bool;
  rv_AllowRemoteExec : bool;
  rv_EnableConsole : bool;
  rv_EnableLogging : bool;
  rv_EnableMetrics : bool;
  rv_KeepCloudInitISO : bool;
  rv_SkipCleanup : bool;
  rv_SkipDeblob : bool;
  rv_NetworkNetmask : string;
  rv_DiskSizeBytes : Z;
  rv_DiskSizeMib : Z;
  rv_LSMFlags : string;
  rv_LogLevel : string;
  rv_LogFilename : string;
  rv_SerialOutputFilename : string;
  rv_MetricsFilename : string;
  rv_APISocketFilename : string;
  rv_PIDFilename : string;
  rv_ConfigFilename : string;
  rv_ConsoleSocketFilename : string;
  rv_ConsolePIDFilename : string;
  rv_VsockFilename : string;
  rv_CloudInitISOName : string;
  rv_NocloudPortRangeStart : Z;
  rv_NocloudPortRangeEnd : Z;
  rv_NocloudMaxPortRetries : Z;
  rv_RequestedGuestIP : option string;
  rv_RequestedGuestMAC : option string;
  rv_NocloudNetPort : option Z;
  rv_CustomCloudInitConfig : option string;
  rv_CloudInitISOPath : option string;
  rv_NoCloudURL : string;
  rv_NoCloudPort : Z;
  rv_NoCloudPID : Z;
  rv_NoCloudKillAfter : Z;
  rv_NoCloudSharedDir : string;
  rv_CPUConfig : option CpuConfig;
  rv_BootArgs : string;
  rv_SSHKeys : list SSHKeyItem;
  rv_Provisioner : string;
  rv_ExtraDrives : list DriveConfig;
  rv_Volumes : list VolumeItem;
  rv_VsockPort : Z;
  rv_Writeback : bool;
}.

(** [request.CloneVMInput]: the copy of one machine. *)
Definition CloneVMInput (name vmID vmDir : string) (x : ResolvedVMCreateInput) : ResolvedVMCreateInput :=
  ResolvedVMCreateInput_
    name vmID vmDir (rv_VCPUCount x) (rv_MemSizeMib x) (rv_User x) (rv_DNSServer x) (rv_RootUID x) (rv_RootGID x)
    (rv_UserUID x) (rv_UserGID x) (rv_GuestMACPrefix x) (rv_Network x) (rv_Image x) (rv_Kernel x) (rv_Binary x)
    (rv_NetworkPrefixLen x) (rv_CloudInitMode x) (rv_SkipCINetworkConfig x) (rv_PCIEnabled x) (rv_NestedVirt x)
    (rv_AllowRemoteExec x) (rv_EnableConsole x) (rv_EnableLogging x) (rv_EnableMetrics x) (rv_KeepCloudInitISO x)
    (rv_SkipCleanup x) (rv_SkipDeblob x) (rv_NetworkNetmask x) (rv_DiskSizeBytes x) (rv_DiskSizeMib x) (rv_LSMFlags x)
    (rv_LogLevel x) (rv_LogFilename x) (rv_SerialOutputFilename x) (rv_MetricsFilename x) (rv_APISocketFilename x)
    (rv_PIDFilename x) (rv_ConfigFilename x) (rv_ConsoleSocketFilename x) (rv_ConsolePIDFilename x)
    (rv_VsockFilename x) (rv_CloudInitISOName x) (rv_NocloudPortRangeStart x) (rv_NocloudPortRangeEnd x)
    (rv_NocloudMaxPortRetries x) (rv_RequestedGuestIP x) (rv_RequestedGuestMAC x) (rv_NocloudNetPort x)
    (rv_CustomCloudInitConfig x) (rv_CloudInitISOPath x) (rv_NoCloudURL x) (rv_NoCloudPort x) (rv_NoCloudPID x)
    (rv_NoCloudKillAfter x) (rv_NoCloudSharedDir x) (rv_CPUConfig x) (rv_BootArgs x) (rv_SSHKeys x) (rv_Provisioner x)
    (rv_ExtraDrives x) (rv_Volumes x) (rv_VsockPort x) (rv_Writeback x).

(** [resolved.Provisioner = p]. *)
Definition rvSetProvisioner (p : string) (x : ResolvedVMCreateInput) : ResolvedVMCreateInput :=
  ResolvedVMCreateInput_
    (rv_Name x) (rv_VMID x) (rv_VMDir x) (rv_VCPUCount x) (rv_MemSizeMib x) (rv_User x) (rv_DNSServer x)
    (rv_RootUID x) (rv_RootGID x) (rv_UserUID x) (rv_UserGID x) (rv_GuestMACPrefix x) (rv_Network x) (rv_Image x)
    (rv_Kernel x) (rv_Binary x) (rv_NetworkPrefixLen x) (rv_CloudInitMode x) (rv_SkipCINetworkConfig x)
    (rv_PCIEnabled x) (rv_NestedVirt x) (rv_AllowRemoteExec x) (rv_EnableConsole x) (rv_EnableLogging x)
    (rv_EnableMetrics x) (rv_KeepCloudInitISO x) (rv_SkipCleanup x) (rv_SkipDeblob x) (rv_NetworkNetmask x)
    (rv_DiskSizeBytes x) (rv_DiskSizeMib x) (rv_LSMFlags x) (rv_LogLevel x) (rv_LogFilename x)
    (rv_SerialOutputFilename x) (rv_MetricsFilename x) (rv_APISocketFilename x) (rv_PIDFilename x)
    (rv_ConfigFilename x) (rv_ConsoleSocketFilename x) (rv_ConsolePIDFilename x) (rv_VsockFilename x)
    (rv_CloudInitISOName x) (rv_NocloudPortRangeStart x) (rv_NocloudPortRangeEnd x) (rv_NocloudMaxPortRetries x)
    (rv_RequestedGuestIP x) (rv_RequestedGuestMAC x) (rv_NocloudNetPort x) (rv_CustomCloudInitConfig x)
    (rv_CloudInitISOPath x) (rv_NoCloudURL x) (rv_NoCloudPort x) (rv_NoCloudPID x) (rv_NoCloudKillAfter x)
    (rv_NoCloudSharedDir x) (rv_CPUConfig x) (rv_BootArgs x) (rv_SSHKeys x) p (rv_ExtraDrives x) (rv_Volumes x)
    (rv_VsockPort x) (rv_Writeback x).

(** The server of a batch. *)
Definition rvSetNoCloud (url : string) (port pid : Z) (dir : string) (x : ResolvedVMCreateInput) : ResolvedVMCreateInput :=
  ResolvedVMCreateInput_
    (rv_Name x) (rv_VMID x) (rv_VMDir x) (rv_VCPUCount x) (rv_MemSizeMib x) (rv_User x) (rv_DNSServer x)
    (rv_RootUID x) (rv_RootGID x) (rv_UserUID x) (rv_UserGID x) (rv_GuestMACPrefix x) (rv_Network x) (rv_Image x)
    (rv_Kernel x) (rv_Binary x) (rv_NetworkPrefixLen x) (rv_CloudInitMode x) (rv_SkipCINetworkConfig x)
    (rv_PCIEnabled x) (rv_NestedVirt x) (rv_AllowRemoteExec x) (rv_EnableConsole x) (rv_EnableLogging x)
    (rv_EnableMetrics x) (rv_KeepCloudInitISO x) (rv_SkipCleanup x) (rv_SkipDeblob x) (rv_NetworkNetmask x)
    (rv_DiskSizeBytes x) (rv_DiskSizeMib x) (rv_LSMFlags x) (rv_LogLevel x) (rv_LogFilename x)
    (rv_SerialOutputFilename x) (rv_MetricsFilename x) (rv_APISocketFilename x) (rv_PIDFilename x)
    (rv_ConfigFilename x) (rv_ConsoleSocketFilename x) (rv_ConsolePIDFilename x) (rv_VsockFilename x)
    (rv_CloudInitISOName x) (rv_NocloudPortRangeStart x) (rv_NocloudPortRangeEnd x) (rv_NocloudMaxPortRetries x)
    (rv_RequestedGuestIP x) (rv_RequestedGuestMAC x) (rv_NocloudNetPort x) (rv_CustomCloudInitConfig x)
    (rv_CloudInitISOPath x) url port pid (rv_NoCloudKillAfter x) dir (rv_CPUConfig x) (rv_BootArgs x) (rv_SSHKeys x)
    (rv_Provisioner x) (rv_ExtraDrives x) (rv_Volumes x) (rv_VsockPort x) (rv_Writeback x).

(** ** The request *)

Definition VCPUMin : Z := 1.
Definition VCPUMax : Z := 32.
Definition MemMinMB : Z := 128.
Definition MemMaxMB : Z := 65536.
Definition MebibyteBytes : Z := 1048576.

(** [int64(mib) * disk.MebibyteBytes]. *)
Definition mibBytes (mib : Z) : Z := int64 (mib * MebibyteBytes).

Section Request.
Context {W : Type} `{SettingsRepository W} `{Repository W} `{NetworkRepository W} `{ImageRepository W} `{KernelRepository W}
  `{BinaryRepository W} `{KeyRepository W} `{VolumeRepository W} `{LeaseRepository W} `{Files W} `{Paths W} `{TextFiles W}.
Context (outOfRange : Z) (ParseFloat64 : string → result error float64) (parseMap : string → result error (list (string * value)))
  (ParseDuration : string → result error Z).
Context (sortSlice : (BinaryItem → BinaryItem → bool) → list BinaryItem → list BinaryItem).
Context (parseIPv6 : string → option IP) (formatIPv6 : list Z → string) (cidrError : string → error).
Context (parseJSON : string → result error any) (cpuConfigOf : gmap string any → option CpuConfig).
#[local] Notation M := (GoM W error).

(** A setting, its zero value when it cannot be read. *)
Definition orZero {A} (zero : A) (m : M A) : M A := r ← try m; mret (match r with Ok a => a | Err _ => zero end).
Definition cfgString (category key : string) : M string := orZero "" (GetString outOfRange ParseFloat64 parseMap category key).
Definition cfgInt (category key : string) : M Z := orZero 0%Z (GetInt outOfRange ParseFloat64 parseMap category key).
Definition cfgBool (category key : string) : M bool := orZero false (GetBool outOfRange ParseFloat64 parseMap category key).
Definition cfgDuration (category key : string) : M Z :=
  orZero 0%Z (GetDuration outOfRange ParseFloat64 parseMap ParseDuration category key).

Definition errText (f : string → error) {A} (m : M A) : M A :=
  r ← try m; match r with Ok a => mret a | Err err => throw (f (Error err)) end.

(** What a resolver answers, its nil item an error too. *)
Definition found {A} (code : Code) (none : string) (m : M (option A)) : M A :=
  r ← errText (λ msg, EDomain (NotFound code msg [])) m;
  match r with Some a => mret a | None => throw (EDomain (NotFound code none [])) end.

Definition resolveImage (i : VMCreateInput) : M ImageItem :=
  found CodeVMImageNotFound ("No image specified and no default image set. " ++
      "Use 'mvm image pull <name>' then 'mvm image default <name>', or pass --image.")
    (match vci_ImageID i with
     | None => img_GetDefault None None
     | Some id => img ← img_Resolve None None id false; mret (Some img)
     end).

Definition resolveKernel (i : VMCreateInput) : M KernelItem :=
  found CodeVMKernelNotFound ("No kernel specified and no default kernel set. " ++
      "Use 'mvm kernel pull --type <firecracker|official>' " ++ "then 'mvm kernel default <id>', or pass --kernel.")
    (match vci_KernelID i with
     | None => krn_GetDefault None None
     | Some id => krnl ← krn_Resolve None None id false; mret (Some krnl)
     end).

Definition resolveNetwork (i : VMCreateInput) : M NetworkItem :=
  found CodeVMNetworkNotFound ("No network specified and no default network set. " ++
      "Use 'mvm network create' then 'mvm network default <id>', or pass --network.")
    (match vci_NetworkID i with
     | None => nw_GetDefault [] None
     | Some id => netw ← nw_Resolve [] None id false; mret (Some netw)
     end).

Definition resolveBinary (i : VMCreateInput) : M BinaryItem :=
  match vci_BinaryID i with
  | Some (String _ _ as id) => errText (λ msg, EDomain (NotFound CodeVMBinaryNotFound msg [])) (bin_Resolve None None sortSlice id false)
  | _ =>
      r ← errText (λ msg, EDomain (New CodeDatabaseError ("Failed to get default binary: " ++ msg) []))
            (bin_GetDefault None None "firecracker");
      match r with
      | Some b => mret b
      | None => throw (EDomain (NotFound CodeVMBinaryNotFound
          "No binary specified and no default binary set. Use 'mvm bin pull <version>' then 'mvm bin default <id>'." []))
      end
  end.

(** Some were found, or none was asked for. *)
Definition someOf {A} (code : Code) (r : Resolved A) : M (list A) :=
  match rs_Errors r, rs_Items r with
  | first :: _, [] => throw (EDomain (NotFound code first []))
  | _, items => mret items
  end.

Definition resolveSSHKeys (i : VMCreateInput) : M (list SSHKeyItem) :=
  match vci_SSHKeys i with
  | [] => errText (λ msg, EDomain (New CodeDatabaseError ("Failed to get default SSH keys: " ++ msg) [])) (key_GetDefaults None None)
  | names =>
      r ← errText (λ msg, EDomain (NotFound CodeVMSSHKeyNotFound msg [])) (key_ResolveMany None None names);
      someOf CodeVMSSHKeyNotFound r
  end.

Definition resolveVolumes (i : VMCreateInput) : M (list VolumeItem) :=
  match vci_Volumes i with
  | [] => mret []
  | names => r ← calls (vol_ResolveMany None None names); someOf CodeVolumeNotFound r
  end.

Definition resolveMemory (i : VMCreateInput) : M Z :=
  if decide (vci_MemSizeMib i = "") then GetInt outOfRange ParseFloat64 parseMap "defaults.vm" "mem_size_mib"
  else
    let memStr := TrimSpace (vci_MemSizeMib i) in
    match Atoi memStr with
    | Some mib => mret mib
    | None =>
        match ParseDiskSize outOfRange memStr with
        | Ok bytes => mret (Z.quot bytes MebibyteBytes)
        | Err _ => throw (EDomain (New CodeValidationFailed ("Invalid memory size: " ++ memStr) []))
        end
    end.

Definition createInvalid (msg : string) : error := invalid CodeVMCreateFailed msg.
Definition validationFailed (msg : string) : error := EDomain (New CodeValidationFailed msg []).

(** The CPU configuration: given as a map, or the template read as JSON. *)
Definition cpuConfigFor (i : VMCreateInput) : M (option (gmap string any)) :=
  if decide (vci_CPUTemplate i = "") then mret (vci_CPUConfig i)
  else
    match vci_CPUConfig i with
    | Some _ => throw (createInvalid "Cannot specify both --cpu-template and a pre-resolved cpu_config")
    | None =>
        data ← errText (λ msg, createInvalid ("Cannot read CPU template: " ++ msg)) (ReadText (vci_CPUTemplate i));
        match parseJSON data with
        | Err err => throw (createInvalid ("Invalid CPU template JSON: " ++ Error err))
        | Ok (AnyMap l) => mret (Some (list_to_map l))
        | Ok _ => throw (createInvalid "CPU template must be a JSON object")
        end
    end.

(** [net.IP(ipNet.Mask).String()]. *)
Definition netmask (n : IPNet) : string :=
  match nIP n with
  | V4 _ _ _ _ => formatIP formatIPv6 (V4 (maskByte (nOnes n)) (maskByte (nOnes n - 8)) (maskByte (nOnes n - 16)) (maskByte (nOnes n - 24)))
  | V6 bytes => formatIP formatIPv6 (V6 (imap (λ k _, maskByte (nOnes n - 8 * Z.of_nat k)) bytes))
  end.

Definition positive (n : option Z) : option Z := match n with Some n => if (0 <? n)%Z then Some n else None | None => None end.

(** The values of the result, before they are checked. *)
Definition assemble (vmID vmDir : string) (i : VMCreateInput) : M ResolvedVMCreateInput :=
  _ ← (match VMName parseIPv6 (vci_Name i) with
       | Ok _ => mret ()
       | Err err => throw (validationFailed ("Invalid VM name: " ++ Error err))
       end);
  img ← resolveImage i;
  krnl ← resolveKernel i;
  netw ← resolveNetwork i;
  fcBinary ← resolveBinary i;
  sshKeys ← resolveSSHKeys i;
  vols ← resolveVolumes i;
  cacheType ← cfgString "defaults.firecracker" "drive_cache_type";
  let writeback := default (bool_decide (cacheType = CacheTypeWriteback)) (vci_Writeback i) in
  ipv4Net ← (match ParseCIDR parseIPv6 cidrError (nw_Subnet netw) with
             | Ok (_, n) => mret n
             | Err _ => throw (EDomain (New CodeNetworkNotFound ("Invalid network subnet: " ++ nw_Subnet netw) []))
             end);
  rootfsDiskSizeMib ← (if decide (vci_DiskSize i = "") then mret (img_MinRootfsSizeMiB img)
                       else match ParseDiskSize outOfRange (vci_DiskSize i) with
                            | Ok bytes => mret (Z.quot bytes MebibyteBytes)
                            | Err err => throw (validationFailed ("Invalid disk size: " ++ Error err))
                            end);
  memMib ← resolveMemory i;
  _ ← (match vci_VCPUCount i with
       | Some n => if (n <=? 0)%Z then throw (createInvalid "--vcpu must be a positive integer") else mret ()
       | None => mret ()
       end);
  vcpuDefault ← cfgInt "defaults.vm" "vcpu_count";
  let mode := match vci_CloudInitMode i with
              | None => if negb (bool_decide (sshKeys = [])) && bool_decide (vci_CloudInitISOPath i = None)
                        then Some CloudInitModeOFF else None
              | mode => mode
              end in
  ci ← ResolveMode mode (vci_CloudInitISOPath i);
  nestedVirt ← cfgBool "defaults.vm" "nested_virt";
  allowRemoteExec ← cfgBool "defaults.vm" "allow_remote_exec";
  cpuConfig ← cpuConfigFor i;
  pciEnabled ← cfgBool "defaults.vm" "pci_enabled";
  bootArgs ← (if decide (vci_BootArgs i = "")
              then defaultBootArgs ← cfgString "defaults.vm" "boot_args"; mret (defaultBootArgs ++ " root=UUID=" ++ img_FSUUID img)
              else mret (vci_BootArgs i));
  lsmFlags ← (if decide (vci_LSMFlags i = "") then cfgString "defaults.vm" "lsm_flags" else mret (vci_LSMFlags i));
  enableConsole ← cfgBool "defaults.vm" "enable_console";
  enableLogging ← cfgBool "defaults.vm" "enable_logging";
  enableMetrics ← cfgBool "defaults.vm" "enable_metrics";
  user ← cfgString "defaults.vm" "ssh_user";
  let user := match vci_User i with Some u => if decide (u = "") then user else u | None => user end in
  dnsServer ← cfgString "defaults.vm" "dns_server";
  rootUID ← cfgInt "defaults.vm" "root_uid";
  rootGID ← cfgInt "defaults.vm" "root_gid";
  userUID ← cfgInt "defaults.vm" "user_uid";
  userGID ← cfgInt "defaults.vm" "user_gid";
  guestMACPrefix ← cfgString "defaults.vm" "guest_mac_prefix";
  logLevel ← cfgString "defaults.firecracker" "log_level";
  logFilename ← cfgString "defaults.firecracker" "log_filename";
  serialOutputFilename ← cfgString "defaults.firecracker" "serial_output_filename";
  metricsFilename ← cfgString "defaults.firecracker" "metrics_filename";
  apiSocketFilename ← cfgString "defaults.firecracker" "api_socket_filename";
  pidFilename ← cfgString "defaults.firecracker" "pid_filename";
  configFilename ← cfgString "defaults.firecracker" "config_filename";
  consoleSocketFilename ← cfgString "defaults.firecracker" "console_socket_filename";
  consolePIDFilename ← cfgString "defaults.firecracker" "console_pid_filename";
  vsockFilename ← cfgString "defaults.firecracker" "vsock_filename";
  ciIsoName ← cfgString "defaults.cloudinit" "iso_name";
  nocloudPortStart ← cfgInt "defaults.cloudinit" "nocloud_port_range_start";
  nocloudPortEnd ← cfgInt "defaults.cloudinit" "nocloud_port_range_end";
  nocloudMaxRetries ← cfgInt "defaults.cloudinit" "nocloud_max_port_retries";
  nocloudKillAfter ← cfgDuration "defaults.cloudinit" "nocloud_kill_after";
  vsockPort ← (match positive (vci_VsockPort i) with
               | Some port => mret port
               | None => cfgInt "defaults.vm" "vsock_port"
               end);
  mret (ResolvedVMCreateInput_
    (vci_Name i) vmID vmDir (default vcpuDefault (positive (vci_VCPUCount i))) memMib user dnsServer rootUID rootGID
    userUID userGID guestMACPrefix netw img krnl fcBinary
    (nOnes ipv4Net) (cir_Mode ci) (vci_SkipCINetworkConfig i) (default pciEnabled (vci_PCIEnabled i)) (default nestedVirt (vci_NestedVirt i))
    (default allowRemoteExec (vci_AllowRemoteExec i)) (default enableConsole (vci_EnableConsole i))
    (default enableLogging (vci_EnableLogging i)) (default enableMetrics (vci_EnableMetrics i)) (vci_KeepCloudInitISO i)
    (vci_SkipCleanup i) (vci_SkipDeblob i) (netmask ipv4Net) (mibBytes rootfsDiskSizeMib) rootfsDiskSizeMib lsmFlags
    logLevel logFilename serialOutputFilename metricsFilename apiSocketFilename
    pidFilename configFilename consoleSocketFilename consolePIDFilename
    vsockFilename ciIsoName nocloudPortStart nocloudPortEnd
    nocloudMaxRetries (vci_RequestedGuestIP i) (vci_RequestedGuestMAC i) (vci_NocloudNetPort i)
    (vci_CustomCloudInitConfig i) (cir_ISOPath ci) "" 0 0
    nocloudKillAfter "" (cpuConfig ≫= cpuConfigOf) bootArgs sshKeys ""
    (VolumesToDrives vols) vols vsockPort writeback).

(** ** Checks *)

(** A condition that must not hold. *)
Definition refuse (b : bool) (err : error) : M unit := if b then throw err else mret ().

Definition validated (f : string → error) (r : result error unit) : M unit :=
  match r with Ok _ => mret () | Err err => throw (f (Error err)) end.

(** A pointer to a string that is not empty. *)
Definition given (s : option string) : option string :=
  match s with Some s => if decide (s = "") then None else Some s | None => None end.

Definition refuseMissing (path what : string) : M unit :=
  gone ← missing path; refuse gone (createInvalid (what ++ path)).

Definition checkBatch (i : VMCreateInput) (r : ResolvedVMCreateInput) : M unit :=
  let count := default 1%Z (vci_Count i) in
  _ ← refuse (count <? 1)%Z (createInvalid "--count must be at least 1");
  vmCount ← errText (λ msg, EDomain (New CodeDatabaseError ("Failed to count VMs: " ++ msg) [])) Count;
  maxVMs ← cfgInt "settings.vm" "max_vms";
  _ ← refuse (maxVMs <=? vmCount)%Z (EDomain (New CodeVMResourceExhausted
        ("VM limit reached (" ++ Itoa maxVMs ++ "). Remove existing VMs before creating new ones.") []));
  if (1 <? count)%Z then
    _ ← refuse (bool_decide (vci_RequestedGuestIP i ≠ None)) (createInvalid "Cannot specify --ip with --count > 1");
    _ ← refuse (bool_decide (vci_RequestedGuestMAC i ≠ None)) (createInvalid "Cannot specify --mac with --count > 1");
    available ← try (LCountAvailable (nw_ID (rv_Network r)));
    _ ← (match available with
         | Ok n => refuse (n <? count)%Z (invalid CodeNetworkLeaseExhausted
             ("Subnet has only " ++ Itoa n ++ " IPs available, but " ++ Itoa count ++ " VMs requested"))
         | Err _ => mret ()
         end);
    refuse (maxVMs <? int64 (vmCount + count))%Z (EDomain (New CodeVMResourceExhausted
      ("Creating " ++ Itoa count ++ " VMs would exceed the limit (" ++ Itoa vmCount ++ "/" ++ Itoa maxVMs ++
       "). Remove existing VMs first.") []))
  else mret ().

Definition ensureValidate (i : VMCreateInput) (r : ResolvedVMCreateInput) : M unit :=
  let minRootfs := img_MinRootfsSizeMiB (rv_Image r) in
  _ ← (match given (rv_RequestedGuestMAC r) with
       | Some mac => validated validationFailed (MAC mac)
       | None => mret ()
       end);
  _ ← (match given (rv_RequestedGuestIP r) with
       | Some ip => validated validationFailed
           (IPv4Address parseIPv6 cidrError ip "Guest IP" true (nw_Subnet (rv_Network r)) (nw_IPv4Gateway (rv_Network r)))
       | None => mret ()
       end);
  _ ← refuse ((rv_VCPUCount r <? VCPUMin) || (VCPUMax <? rv_VCPUCount r))%Z (createInvalid
        ("Invalid vcpu=" ++ Itoa (rv_VCPUCount r) ++ ": must be between " ++ Itoa VCPUMin ++ " and " ++ Itoa VCPUMax));
  _ ← refuse ((rv_MemSizeMib r <? MemMinMB) || (MemMaxMB <? rv_MemSizeMib r))%Z (createInvalid
        ("Invalid mem_size_mib=" ++ Itoa (rv_MemSizeMib r) ++ ": must be between " ++ Itoa MemMinMB ++ " and " ++ Itoa MemMaxMB));
  _ ← refuseMissing (krn_Path (rv_Kernel r)) "Kernel not found: ";
  _ ← refuseMissing (bin_Path (rv_Binary r)) "Firecracker binary not found: ";
  _ ← errText (λ _, createInvalid ("Firecracker binary not executable: " ++ bin_Path (rv_Binary r))) (Access (bin_Path (rv_Binary r)));
  _ ← (match given (rv_CustomCloudInitConfig r) with
       | Some path => refuseMissing path "Cloud-init config file not found: "
       | None => mret ()
       end);
  _ ← refuse (minRootfs =? 0)%Z (createInvalid
        ("Image " ++ default "<default>" (vci_ImageID i) ++ " is missing minimum_rootfs_size_mib. " ++
         "This image was created with an older version. " ++ "Re-import the image: mvm image pull <slug> --force"));
  _ ← refuse (rv_DiskSizeBytes r <? mibBytes minRootfs)%Z (createInvalid
        ("Requested disk size is smaller than minimum required (" ++ Itoa minRootfs ++
         " MiB). Use a larger size or choose a different image."));
  _ ← forOk (Fields (rv_BootArgs r)) (λ component,
        validated (λ msg, validationFailed ("Invalid boot_args: " ++ msg)) (BootArgComponent component "boot_args"));
  _ ← (if decide (rv_LSMFlags r = "") then mret ()
       else validated (λ msg, validationFailed ("Invalid lsm_flags: " ++ msg)) (BootArgComponent (rv_LSMFlags r) "lsm_flags"));
  checkBatch i r.

Definition vci_Resolve (vmID vmDir : string) (i : VMCreateInput) : M ResolvedVMCreateInput :=
  result ← assemble vmID vmDir i;
  _ ← ensureValidate i result;
  mret result.
End Request.

(** ** What a resolved input satisfies *)
Section Valid.
Context {W : Type} `{SettingsRepository W} `{Repository W} `{NetworkRepository W} `{ImageRepository W} `{KernelRepository W}
  `{BinaryRepository W} `{KeyRepository W} `{VolumeRepository W} `{LeaseRepository W} `{Files W} `{Paths W} `{TextFiles W}.
Context (outOfRange : Z) (ParseFloat64 : string → result error float64) (parseMap : string → result error (list (string * value)))
  (ParseDuration : string → result error Z).
Context (sortSlice : (BinaryItem → BinaryItem → bool) → list BinaryItem → list BinaryItem).
Context (parseIPv6 : string → option IP) (formatIPv6 : list Z → string) (cidrError : string → error).
Context (parseJSON : string → result error any) (cpuConfigOf : gmap string any → option CpuConfig).

#[local] Notation assemble := (assemble outOfRange ParseFloat64 parseMap ParseDuration sortSlice parseIPv6 formatIPv6 cidrError parseJSON cpuConfigOf).
#[local] Notation Resolve := (vci_Resolve outOfRange ParseFloat64 parseMap ParseDuration sortSlice parseIPv6 formatIPv6 cidrError parseJSON cpuConfigOf).
#[local] Notation ensureValidate := (ensureValidate outOfRange ParseFloat64 parseMap parseIPv6 cidrError).

(** One call of a sequence that succeeded. *)
Ltac seq H := match type of H with (mbind _ _) _ = (Ok _, _) => let Ha := fresh "Ha" in apply bind_Ok_inv in H as (? & ? & Ha & H) end.

Lemma refuse_Ok b err (w w' : W) u : refuse b err w = (Ok u, w') → b = false.
Proof. by destruct b. Qed.

Lemma validated_Ok f r (w w' : W) u : validated f r w = (Ok u, w') → r = Ok ().
Proof. by destruct r as [[]|]. Qed.

Lemma forOk_all {A} (l : list A) (f : A → GoM W error unit) (P : A → Prop) w u w' :
  (∀ x w w' u, f x w = (Ok u, w') → P x) → forOk l f w = (Ok u, w') → Forall P l.
Proof.
  intros Hf. revert w. induction l as [|x l IH]; intros w; [by constructor|]. cbn [forOk].
  intros (a & w1 & Ha & Hr)%bind_Ok_inv. constructor; [by eapply Hf|by eapply IH].
Qed.

Lemma ResolveMode_valid mode iso (w w' : W) c : ResolveMode mode iso w = (Ok c, w') → IsValidMode (cir_Mode c) = true.
Proof.
  unfold ResolveMode. destruct mode as [mode|]; [|by intros [= <- _]].
  destruct (IsValidMode (ToLower mode)) eqn:E; [|done]. cbn [negb].
  case_decide as Hm; [|by intros [= <- _]].
  destruct iso as [path|]; [|by intros [= <- _]]. case_decide; [by intros [= <- _]|].
  intros (gone & w1 & _ & Hr)%bind_Ok_inv. destruct gone; [done|]. by injection Hr as <- _.
Qed.

(** What [assemble] takes from the input as it is. *)
Lemma assemble_fields vmID vmDir i (w w' : W) r :
  assemble vmID vmDir i w = (Ok r, w') →
  VMName parseIPv6 (vci_Name i) = Ok () ∧ rv_Name r = vci_Name i ∧ rv_VMID r = vmID ∧ rv_VMDir r = vmDir ∧
  rv_RequestedGuestIP r = vci_RequestedGuestIP i ∧ rv_RequestedGuestMAC r = vci_RequestedGuestMAC i ∧
  (∀ n, vci_VCPUCount i = Some n → rv_VCPUCount r = n) ∧
  rv_DiskSizeBytes r = mibBytes (rv_DiskSizeMib r) ∧ IsValidMode (rv_CloudInitMode r) = true ∧
  rv_ExtraDrives r = VolumesToDrives (rv_Volumes r).
Proof.
  unfold assemble. intros Hr.
  seq Hr. do 16 seq Hr. seq Hr. do 34 (try seq Hr).
  repeat seq Hr. injection Hr as <- _. cbn.
  match goal with Hn : match VMName _ _ with _ => _ end _ = _ |- _ => destruct (VMName parseIPv6 (vci_Name i)) as [[]|]; [|done] end.
  match goal with Hm : ResolveMode _ _ _ = _ |- _ => apply ResolveMode_valid in Hm end.
  split_and!; try done. intros n Hn. rewrite Hn in *. cbn.
  match goal with Hv : (if (n <=? 0)%Z then _ else _) _ = _ |- _ => destruct (Z.leb_spec n 0); [done|] end.
  by destruct (Z.ltb_spec 0 n); [|lia].
Qed.

(** A machine of the batch has no address of its own. *)
Definition batchOf (i : VMCreateInput) : Z := default 1%Z (vci_Count i).

Lemma checkBatch_Ok i r (w w' : W) u :
  checkBatch outOfRange ParseFloat64 parseMap i r w = (Ok u, w') →
  (1 <= batchOf i)%Z ∧ ((1 < batchOf i)%Z → vci_RequestedGuestIP i = None ∧ vci_RequestedGuestMAC i = None).
Proof.
  unfold checkBatch, batchOf. intros Hr. do 4 seq Hr.
  match goal with Hc : refuse (_ <? 1)%Z _ _ = _ |- _ => apply refuse_Ok, Z.ltb_ge in Hc end.
  split; [done|]. intros Hn. apply Z.ltb_lt in Hn. rewrite Hn in Hr. do 2 seq Hr.
  repeat match goal with Hc : refuse (bool_decide _) _ _ = _ |- _ => apply refuse_Ok, bool_decide_eq_false in Hc end.
  split; by apply dec_stable.
Qed.

(** C20. What [VMCreateRequest.Resolve] answers is within the limits of the
    program: a machine has between 1 and 32 processors, and as many as were asked
    for, between 128 MiB and 64 GiB of memory, a root disk at least as large as
    the image needs, a valid name and a known mode of cloud-init; every word of
    its boot arguments and its flags are harmless; an address asked for is a
    private one of the network, and is only asked for one machine. *)
Theorem Resolve_bounds (vmID vmDir : string) (i : VMCreateInput) (w w' : W) (r : ResolvedVMCreateInput) :
  Resolve vmID vmDir i w = (Ok r, w') →
  (1 <= rv_VCPUCount r <= 32)%Z ∧ (∀ n, vci_VCPUCount i = Some n → rv_VCPUCount r = n) ∧
  (128 <= rv_MemSizeMib r <= 65536)%Z ∧
  rv_DiskSizeBytes r = mibBytes (rv_DiskSizeMib r) ∧ (mibBytes (img_MinRootfsSizeMiB (rv_Image r)) <= rv_DiskSizeBytes r)%Z ∧
  VMName parseIPv6 (rv_Name r) = Ok () ∧ IsValidMode (rv_CloudInitMode r) = true ∧
  Forall (λ arg, BootArgComponent arg "boot_args" = Ok ()) (Fields (rv_BootArgs r)) ∧
  (rv_LSMFlags r ≠ "" → BootArgComponent (rv_LSMFlags r) "lsm_flags" = Ok ()) ∧
  (∀ ip, rv_RequestedGuestIP r = Some ip → ip ≠ "" →
     IPv4Address parseIPv6 cidrError ip "Guest IP" true (nw_Subnet (rv_Network r)) (nw_IPv4Gateway (rv_Network r)) = Ok ()) ∧
  (∀ mac, rv_RequestedGuestMAC r = Some mac → mac ≠ "" → MAC mac = Ok ()) ∧
  (1 <= batchOf i)%Z ∧ ((1 < batchOf i)%Z → rv_RequestedGuestIP r = None ∧ rv_RequestedGuestMAC r = None).
Proof.
  intros Hr. unfold vci_Resolve in Hr. seq Hr. seq Hr. injection Hr as <- _.
  match goal with Ha : assemble _ _ _ _ = _ |- _ => apply assemble_fields in Ha as (Hname & Hn & _ & _ & Hip & Hmac & Hcpu & Hdisk & Hmode & _) end.
  match goal with Hv : ensureValidate _ _ _ = _ |- _ => rename Hv into Hval end.
  unfold ensureValidate in Hval. do 12 seq Hval. apply checkBatch_Ok in Hval as [Hcount Hbatch].
  repeat match goal with Hc : refuse _ _ _ = _ |- _ => apply refuse_Ok in Hc end.
  repeat match goal with Hc : (_ || _)%bool = false |- _ => apply orb_false_iff in Hc as [?%Z.ltb_ge ?%Z.ltb_ge] end.
  unfold VCPUMin, VCPUMax, MemMinMB, MemMaxMB in *.
  rewrite Hn, <- Hip, <- Hmac in *. split_and!; try done; try lia.
  - by eapply forOk_all; [|eassumption]; intros ? ? ? ?; apply validated_Ok.
  - intros Hl. match goal with Hc : (if decide (rv_LSMFlags _ = "") then _ else _) _ = _ |- _ => rewrite decide_False in Hc by done; by apply validated_Ok in Hc end.
  - intros ip E Hne. rewrite E in *. unfold given in *. rewrite decide_False in * by done. by eapply validated_Ok.
  - intros mac E Hne. rewrite E in *. unfold given in *. rewrite decide_False in * by done. by eapply validated_Ok.
Qed.
End Valid.
