(* ===== verification/Enrich.v ===== *)
(** * Relations between the domains: [internal/enricher]

    A row holds the ids of rows of other tables; the enricher loads those rows,
    in batches, for the relations a caller asks for by path.  The fields it fills
    are not columns, so they are kept next to the row: [VMRefs] for a machine,
    [OwnerRefs] for the rows that others refer to, [SnapshotRefs] for a snapshot.
    The enricher writes them through pointers as it goes, so what it loaded
    before an error stays: the list of rows is part of the state.

    A pointer to a network is shared by the machines on it.  Its leases are kept
    with each of the machines: they are written for all of them at once. *)

From Stdlib Require Import Ascii.
From stdpp Require Import gmap strings list sorting.
From S2P Require Import Prelude GoStrings Errs Model Infra Sql VMRepo Networks IPNet Lease Volumes Assets.
#[local] Open Scope string_scope.

(** ** Relations by path *)

Record RelationSpec := RelationSpec_ {
  FKField : string;
  Resolver : string;
  Method : string;
  RelationName : string;
  IsReverse : bool;
  BatchMethod : string;
}.

Definition forward (fk resolver method name : string) : RelationSpec := RelationSpec_ fk resolver method name false "".
Definition reverse (resolver method name : string) : RelationSpec := RelationSpec_ "id" resolver method name true method.

Definition VMRelations : gmap string RelationSpec := list_to_map [
  ("kernel", forward "kernel_id" "kernel" "get_kernel" "kernel");
  ("image", forward "image_id" "image" "get_image" "image");
  ("binary", forward "binary_id" "binary" "get_binary" "binary");
  ("network", forward "network_id" "network" "get_network" "network");
  ("network.leases", RelationSpec_ "network" "network_lease" "list_by_network_id_batch" "leases" false "list_by_network_id_batch");
  ("volumes", RelationSpec_ "volume_ids" "volume" "" "volumes" false "resolve_by_vm_volume_ids");
  ("vsock", RelationSpec_ "id" "vsock" "get_by_vm_id" "vsock" true "")].

Definition NetworkRelations : gmap string RelationSpec := list_to_map [
  ("leases", reverse "network_lease" "list_by_network_id_batch" "leases");
  ("vm", reverse "vm" "by_network_id_batch" "vm");
  ("snapshots", reverse "snapshot" "by_network_id_batch" "snapshots")].

Definition ImageRelations : gmap string RelationSpec := list_to_map [("vm", reverse "vm" "by_image_id_batch" "vm")].

Definition KernelRelations : gmap string RelationSpec := list_to_map [
  ("vm", reverse "vm" "by_kernel_id_batch" "vm"); ("snapshots", reverse "snapshot" "by_kernel_id_batch" "snapshots")].

Definition BinaryRelations : gmap string RelationSpec := list_to_map [
  ("vm", reverse "vm" "by_binary_id_batch" "vm"); ("snapshots", reverse "snapshot" "by_binary_id_batch" "snapshots")].

Definition VolumeRelations : gmap string RelationSpec := list_to_map [("vm", reverse "vm" "by_volume_id_batch" "vm")].

Definition KeyRelations : gmap string RelationSpec := ∅.

Definition SnapshotRelations : gmap string RelationSpec := list_to_map [
  ("image", forward "image_id" "image" "get_image" "image");
  ("kernel", forward "kernel_id" "kernel" "get_kernel" "kernel");
  ("network", forward "network_id" "network" "get_network" "network");
  ("binary", forward "binary_id" "binary" "get_binary" "binary")].

(** The keys in the order of [sort.Strings]. *)
Definition availablePaths (registry : gmap string RelationSpec) : list string := orderBy id (map_to_list registry).*1.

Definition validatePaths (include : list string) (registry : gmap string RelationSpec) : option error :=
  match filter (λ path, registry !! path = None) include with
  | [] => None
  | path :: _ => Some (Errorf ("Unknown relation '" ++ path ++ "'. Available: " ++ Join (availablePaths registry) ", ") None)
  end.

(** [strings.Count(path, ".")]. *)
Fixpoint dots (path : string) : nat :=
  match path with
  | EmptyString => 0
  | String c rest => (if Ascii.eqb c "."%char then 1 else 0) + dots rest
  end.

(** [sort.SliceStable] by the number of dots. *)
Fixpoint insertByDots (path : string) (sorted : list string) : list string :=
  match sorted with
  | [] => [path]
  | p :: rest => if (dots path <=? dots p)%nat then path :: sorted else p :: insertByDots path rest
  end.
Definition sortByDotCount (paths : list string) : list string := foldr insertByDots [] paths.

Definition resolveInclude (include : list string) (registry : gmap string RelationSpec) : result error (list string) :=
  if bool_decide (include = []) then
    Err (Errorf "enrichment include list is required — specify which relations to load" None)
  else match validatePaths include registry with
       | Some err => Err err
       | None => Ok (sortByDotCount include)
       end.

(** Errors that are logged: those of the program itself. *)
Definition isEnrichmentError (err : error) : bool := bool_decide (AsDomainError err ≠ None).

(** ** The relations of a row *)

Record VMRefs := VMRefs_ {
  vr_Kernel : option KernelItem;
  vr_Image : option ImageItem;
  vr_Binary : option BinaryItem;
  vr_Network : option NetworkItem;
  vr_Leases : list NetworkLeaseItem;
  vr_Volumes : list VolumeItem;
  vr_Vsock : option VsockConfigItem;
}.
Definition noRefs : VMRefs := VMRefs_ None None None None [] [] None.

Definition setKernel (k : option KernelItem) (r : VMRefs) : VMRefs :=
  VMRefs_ k (vr_Image r) (vr_Binary r) (vr_Network r) (vr_Leases r) (vr_Volumes r) (vr_Vsock r).
Definition setImage (i : option ImageItem) (r : VMRefs) : VMRefs :=
  VMRefs_ (vr_Kernel r) i (vr_Binary r) (vr_Network r) (vr_Leases r) (vr_Volumes r) (vr_Vsock r).
Definition setBinary (b : option BinaryItem) (r : VMRefs) : VMRefs :=
  VMRefs_ (vr_Kernel r) (vr_Image r) b (vr_Network r) (vr_Leases r) (vr_Volumes r) (vr_Vsock r).
Definition setNetwork (n : option NetworkItem) (r : VMRefs) : VMRefs :=
  VMRefs_ (vr_Kernel r) (vr_Image r) (vr_Binary r) n (vr_Leases r) (vr_Volumes r) (vr_Vsock r).
Definition setNetLeases (l : list NetworkLeaseItem) (r : VMRefs) : VMRefs :=
  VMRefs_ (vr_Kernel r) (vr_Image r) (vr_Binary r) (vr_Network r) l (vr_Volumes r) (vr_Vsock r).
Definition setVols (l : list VolumeItem) (r : VMRefs) : VMRefs :=
  VMRefs_ (vr_Kernel r) (vr_Image r) (vr_Binary r) (vr_Network r) (vr_Leases r) l (vr_Vsock r).
Definition setVsock (v : option VsockConfigItem) (r : VMRefs) : VMRefs :=
  VMRefs_ (vr_Kernel r) (vr_Image r) (vr_Binary r) (vr_Network r) (vr_Leases r) (vr_Volumes r) v.

Record OwnerRefs := OwnerRefs_ {
  or_VMs : list VMItem;
  or_Snapshots : list SnapshotItem;
  or_Leases : list NetworkLeaseItem;
}.
Definition setOwnerVMs (l : list VMItem) (r : OwnerRefs) : OwnerRefs := OwnerRefs_ l (or_Snapshots r) (or_Leases r).
Definition setOwnerSnapshots (l : list SnapshotItem) (r : OwnerRefs) : OwnerRefs := OwnerRefs_ (or_VMs r) l (or_Leases r).
Definition setOwnerLeases (l : list NetworkLeaseItem) (r : OwnerRefs) : OwnerRefs := OwnerRefs_ (or_VMs r) (or_Snapshots r) l.

Record SnapshotRefs := SnapshotRefs_ {
  sf_Image : option ImageItem;
  sf_Kernel : option KernelItem;
  sf_Network : option NetworkItem;
  sf_Binary : option BinaryItem;
}.

(** ** Loading a relation *)
Section Load.
Context {W I : Type}.
(** The rows with their relations, and the world. *)
#[local] Notation M := (GoM (list I * W) error).

Definition theItems : M (list I) := λ s, (Ok s.1, s).
Definition onOutside {A} (m : GoM W error A) : M A := λ s, let '(r, w) := m s.2 in (r, (s.1, w)).
Definition updateItems (f : I → I) : M unit := λ s, (Ok (), (f <$> s.1, s.2)).

(** The distinct values that are not empty, in the order of the rows. *)
Definition collectUnique (fn : I → string) (items : list I) : list string := Dedup (filter (λ v, v ≠ "") (fn <$> items)).

(** One lookup per id; what is not found, or fails softly, is left out. *)
Fixpoint fetchAll {A} (get : string → GoM W error (option A)) (ids : list string) (found : gmap string A) : M (gmap string A) :=
  match ids with
  | [] => mret found
  | id :: rest =>
      r ← try (onOutside (get id));
      match r with
      | Ok (Some x) => fetchAll get rest (<[id := x]> found)
      | Ok None => fetchAll get rest found
      | Err err => if isEnrichmentError err then fetchAll get rest found else throw err
      end
  end.

(** A relation the row holds the id of. *)
Definition enrichForward {A} (fk : I → string) (set : option A → I → I) (get : string → GoM W error (option A)) : M unit :=
  items ← theItems;
  let ids := collectUnique fk items in
  if bool_decide (ids = []) then mret ()
  else
    found ← fetchAll get ids ∅;
    updateItems (λ x, if bool_decide (fk x = "") then x else set (found !! fk x) x).

(** [m[k] = append(m[k], r)] for each of its keys. *)
Definition groupRows {R} (keys : R → list string) (rows : list R) : gmap string (list R) :=
  foldl (λ m r, foldl (λ m k, <[k := (default [] (m !! k) ++ [r])%list]> m) m (keys r)) ∅ rows.

(** A query whose domain errors are logged: [None] then. *)
Definition softly {A} (m : GoM W error A) : M (option A) :=
  r ← try (onOutside m);
  match r with
  | Ok a => mret (Some a)
  | Err err => if isEnrichmentError err then mret None else throw err
  end.

(** A relation that other rows hold the id of. *)
Definition enrichReverse {R} (collect : list I → list string) (ident : I → string) (keys : R → list string)
    (set : list R → I → I) (batch : list string → GoM W error (list R)) : M unit :=
  items ← theItems;
  let ids := collect items in
  if bool_decide (ids = []) then mret ()
  else
    rows ← softly (batch ids);
    match rows with
    | None => mret ()
    | Some rows => let groups := groupRows keys rows in updateItems (λ x, set (default [] (groups !! ident x)) x)
    end.

(** The relations of the paths, one after the other. *)
Fixpoint eachPath (paths : list string) (load : string → M unit) : M unit :=
  match paths with
  | [] => mret ()
  | path :: rest => _ ← load path; eachPath rest load
  end.

Definition enrichPaths (registry : gmap string RelationSpec) (load : string → M unit) (include : list string) : M unit :=
  items ← theItems;
  if bool_decide (items = []) then mret ()
  else match resolveInclude include registry with
       | Err err => throw err
       | Ok paths => eachPath paths load
       end.
End Load.

(** ** The enricher *)
Section Enricher.
Context {W : Type} `{Repository W} `{NetworkRepository W} `{LeaseRepository W} `{ImageRepository W} `{KernelRepository W}
  `{BinaryRepository W} `{VolumeRepository W} `{VsockRepository W} `{SnapshotRepository W}.

(** The order in which Go ranges over a set of ids. *)
Context (rangeIDs : gset string → list string).

#[local] Notation Item := (VMItem * VMRefs)%type.
#[local] Notation M := (GoM (list Item * W) error).

Definition onRefs (f : VMRefs → VMRefs) (x : Item) : Item := (x.1, f x.2).

Definition enrichVMKernel : M unit := enrichForward (λ x : Item, vm_KernelID x.1) (λ k, onRefs (setKernel k)) kr_Get.
Definition enrichVMImage : M unit := enrichForward (λ x : Item, vm_ImageID x.1) (λ i, onRefs (setImage i)) ir_Get.
Definition enrichVMBinary : M unit := enrichForward (λ x : Item, vm_BinaryID x.1) (λ b, onRefs (setBinary b)) br_Get.
Definition enrichVMNetwork : M unit := enrichForward (λ x : Item, vm_NetworkID x.1) (λ n, onRefs (setNetwork n)) nr_Get.

Definition networkIDOf (x : Item) : option string :=
  match vr_Network x.2 with
  | Some n => if bool_decide (nw_ID n = "") then None else Some (nw_ID n)
  | None => None
  end.

(** The leases of the networks that are loaded. *)
Definition enrichVMNetworkLeases : M unit :=
  items ← theItems;
  let netIDs : gset string := list_to_set (omap networkIDOf items) in
  if bool_decide (netIDs = ∅) then mret ()
  else
    leases ← softly (LListAllBatch (rangeIDs netIDs));
    match leases with
    | None => mret ()
    | Some leases =>
        let leasesMap := groupRows (λ l, [ls_NetworkID l]) leases in
        updateItems (λ x : Item, match vr_Network x.2 with
                          | Some n => onRefs (setNetLeases (default [] (leasesMap !! nw_ID n))) x
                          | None => x
                          end)
    end.

Definition NUL : ascii := ascii_of_nat 0.
Definition volumeKey (vm : VMItem) : string := Join (vm_VolumeIDs vm) (String NUL "").

(** From the joined ids of each machine to its volumes. *)
Definition resolveByVMVolumeIDs (volKeys : list string) : GoM W error (gmap string (list VolumeItem)) :=
  let allVolumeIDs : gset string := list_to_set (mjoin ((λ key, Split key NUL) <$> volKeys)) in
  if bool_decide (allVolumeIDs = ∅) then mret ∅
  else
    vols ← vr_FindByIDs (rangeIDs allVolumeIDs);
    let volByID := byID vols in
    mret (foldl (λ m key, <[key := omap (λ vid, volByID !! vid) (Split key NUL)]> m) ∅ volKeys).

Definition enrichVMVolumes : M unit :=
  items ← theItems;
  let volKeys := Dedup (volumeKey <$> filter (λ vm, vm_VolumeIDs vm ≠ []) items.*1) in
  if bool_decide (volKeys = []) then mret ()
  else
    results ← softly (resolveByVMVolumeIDs volKeys);
    match results with
    | None => mret ()
    | Some results =>
        updateItems (λ x : Item, if bool_decide (vm_VolumeIDs x.1 = []) then x
                         else onRefs (setVols (default [] (results !! volumeKey x.1))) x)
    end.

Definition enrichVMVsock : M unit :=
  items ← theItems;
  let ids := collectUnique (λ x : Item, vm_ID x.1) items in
  if bool_decide (ids = []) then mret ()
  else
    rows ← softly (vkr_ListByVMIDs ids);
    match rows with
    | None => mret ()
    | Some rows =>
        let vsockConfigs : gmap string VsockConfigItem := foldl (λ m v, <[vsk_VmID v := v]> m) ∅ rows in
        updateItems (λ x : Item, match vsockConfigs !! vm_ID x.1 with
                          | Some vc => onRefs (setVsock (Some vc)) x
                          | None => x
                          end)
    end.

Definition enrichVMPath (path : string) : M unit :=
  if bool_decide (path = "kernel") then enrichVMKernel
  else if bool_decide (path = "image") then enrichVMImage
  else if bool_decide (path = "binary") then enrichVMBinary
  else if bool_decide (path = "network") then enrichVMNetwork
  else if bool_decide (path = "network.leases") then enrichVMNetworkLeases
  else if bool_decide (path = "volumes") then enrichVMVolumes
  else if bool_decide (path = "vsock") then enrichVMVsock
  else mret ().

Definition EnrichVM (include : list string) : M unit := enrichPaths VMRelations enrichVMPath include.

(** *** Rows that others refer to *)

Definition onOwner {A} (f : OwnerRefs → OwnerRefs) (x : A * OwnerRefs) : A * OwnerRefs := (x.1, f x.2).

Section Owner.
Context {A : Type} (collect : list (A * OwnerRefs) → list string) (ident : A → string).
#[local] Notation MO := (GoM (list (A * OwnerRefs) * W) error).
#[local] Notation reversely := (enrichReverse collect (λ x : A * OwnerRefs, ident x.1)).

Definition enrichOwnerVMs (keys : VMItem → list string) (batch : list string → GoM W error (list VMItem)) : MO unit :=
  reversely keys (λ vms, onOwner (setOwnerVMs vms)) batch.
Definition enrichOwnerSnapshots (key : SnapshotItem → string) (batch : list string → GoM W error (list SnapshotItem)) : MO unit :=
  reversely (λ s, [key s]) (λ snaps, onOwner (setOwnerSnapshots snaps)) batch.
Definition enrichOwnerLeases : MO unit :=
  reversely (λ l, [ls_NetworkID l]) (λ leases, onOwner (setOwnerLeases leases)) LListAllBatch.
End Owner.

Definition extractNetworkIDs (items : list (NetworkItem * OwnerRefs)) : list string := collectUnique (λ x, nw_ID x.1) items.
Definition enrichNetworkLeases : GoM (list (NetworkItem * OwnerRefs) * W) error unit := enrichOwnerLeases extractNetworkIDs nw_ID.
Definition enrichNetworkVMs : GoM (list (NetworkItem * OwnerRefs) * W) error unit :=
  enrichOwnerVMs extractNetworkIDs nw_ID (λ vm, [vm_NetworkID vm]) GetByNetworkIDs.
Definition enrichNetworkSnapshots : GoM (list (NetworkItem * OwnerRefs) * W) error unit :=
  enrichOwnerSnapshots extractNetworkIDs nw_ID snap_NetworkID sr_FindByNetworkIDs.
Definition enrichNetworkPath (path : string) : GoM (list (NetworkItem * OwnerRefs) * W) error unit :=
  if bool_decide (path = "leases") then enrichNetworkLeases
  else if bool_decide (path = "vm") then enrichNetworkVMs
  else if bool_decide (path = "snapshots") then enrichNetworkSnapshots
  else mret ().
Definition EnrichNetwork : list string → GoM (list (NetworkItem * OwnerRefs) * W) error unit :=
  enrichPaths NetworkRelations enrichNetworkPath.

Definition collectImageIDs (items : list (ImageItem * OwnerRefs)) : list string := collectUnique (λ x, img_ID x.1) items.
Definition enrichImageVMs : GoM (list (ImageItem * OwnerRefs) * W) error unit :=
  enrichOwnerVMs collectImageIDs img_ID (λ vm, [vm_ImageID vm]) GetByImageIDs.
Definition enrichImagePath (path : string) : GoM (list (ImageItem * OwnerRefs) * W) error unit :=
  if bool_decide (path = "vm") then enrichImageVMs
  else mret ().
Definition EnrichImage : list string → GoM (list (ImageItem * OwnerRefs) * W) error unit :=
  enrichPaths ImageRelations enrichImagePath.

Definition collectKernelIDs (items : list (KernelItem * OwnerRefs)) : list string := collectUnique (λ x, krn_ID x.1) items.
Definition enrichKernelVMs : GoM (list (KernelItem * OwnerRefs) * W) error unit :=
  enrichOwnerVMs collectKernelIDs krn_ID (λ vm, [vm_KernelID vm]) GetByKernelIDs.
Definition enrichKernelSnapshots : GoM (list (KernelItem * OwnerRefs) * W) error unit :=
  enrichOwnerSnapshots collectKernelIDs krn_ID snap_KernelID sr_FindByKernelIDs.
Definition enrichKernelPath (path : string) : GoM (list (KernelItem * OwnerRefs) * W) error unit :=
  if bool_decide (path = "vm") then enrichKernelVMs
  else if bool_decide (path = "snapshots") then enrichKernelSnapshots
  else mret ().
Definition EnrichKernel : list string → GoM (list (KernelItem * OwnerRefs) * W) error unit :=
  enrichPaths KernelRelations enrichKernelPath.

Definition collectBinaryIDs (items : list (BinaryItem * OwnerRefs)) : list string := collectUnique (λ x, bin_ID x.1) items.
Definition enrichBinaryVMs : GoM (list (BinaryItem * OwnerRefs) * W) error unit :=
  enrichOwnerVMs collectBinaryIDs bin_ID (λ vm, [vm_BinaryID vm]) GetByBinaryIDs.
Definition enrichBinarySnapshots : GoM (list (BinaryItem * OwnerRefs) * W) error unit :=
  enrichOwnerSnapshots collectBinaryIDs bin_ID snap_BinaryID sr_FindByBinaryIDs.
Definition enrichBinaryPath (path : string) : GoM (list (BinaryItem * OwnerRefs) * W) error unit :=
  if bool_decide (path = "vm") then enrichBinaryVMs
  else if bool_decide (path = "snapshots") then enrichBinarySnapshots
  else mret ().
Definition EnrichBinary : list string → GoM (list (BinaryItem * OwnerRefs) * W) error unit :=
  enrichPaths BinaryRelations enrichBinaryPath.

Definition collectVolumeIDs (items : list (VolumeItem * OwnerRefs)) : list string := collectUnique (λ x, vol_ID x.1) items.
Definition enrichVolumeVMs : GoM (list (VolumeItem * OwnerRefs) * W) error unit :=
  enrichOwnerVMs collectVolumeIDs vol_ID vm_VolumeIDs FindByVolumeIDsBatch.
Definition enrichVolumePath (path : string) : GoM (list (VolumeItem * OwnerRefs) * W) error unit :=
  if bool_decide (path = "vm") then enrichVolumeVMs
  else mret ().
Definition EnrichVolume : list string → GoM (list (VolumeItem * OwnerRefs) * W) error unit :=
  enrichPaths VolumeRelations enrichVolumePath.

(** *** Snapshots *)

#[local] Notation SItem := (SnapshotItem * SnapshotRefs)%type.
Definition onSnapRefs (f : SnapshotRefs → SnapshotRefs) (x : SItem) : SItem := (x.1, f x.2).

Definition enrichSnapshotKernel : GoM (list SItem * W) error unit :=
  enrichForward (λ x : SItem, snap_KernelID x.1)
    (λ k, onSnapRefs (λ r, SnapshotRefs_ (sf_Image r) k (sf_Network r) (sf_Binary r))) kr_Get.
Definition enrichSnapshotNetwork : GoM (list SItem * W) error unit :=
  enrichForward (λ x : SItem, snap_NetworkID x.1)
    (λ n, onSnapRefs (λ r, SnapshotRefs_ (sf_Image r) (sf_Kernel r) n (sf_Binary r))) nr_Get.
Definition enrichSnapshotImage : GoM (list SItem * W) error unit :=
  enrichForward (λ x : SItem, snap_ImageID x.1)
    (λ i, onSnapRefs (λ r, SnapshotRefs_ i (sf_Kernel r) (sf_Network r) (sf_Binary r))) ir_Get.
Definition enrichSnapshotBinary : GoM (list SItem * W) error unit :=
  enrichForward (λ x : SItem, snap_BinaryID x.1)
    (λ b, onSnapRefs (λ r, SnapshotRefs_ (sf_Image r) (sf_Kernel r) (sf_Network r) b)) br_Get.

Definition enrichSnapshotPath (path : string) : GoM (list SItem * W) error unit :=
  if bool_decide (path = "kernel") then enrichSnapshotKernel
  else if bool_decide (path = "network") then enrichSnapshotNetwork
  else if bool_decide (path = "image") then enrichSnapshotImage
  else if bool_decide (path = "binary") then enrichSnapshotBinary
  else mret ().
Definition EnrichSnapshot : list string → GoM (list SItem * W) error unit :=
  enrichPaths SnapshotRelations enrichSnapshotPath.
End Enricher.

(** ** Theorems *)

Lemma elem_Dedup `{Countable A} (l : list A) x : x ∈ Dedup l ↔ x ∈ l.
Proof.
  unfold Dedup. destruct (dedupLoop_spec l ∅ []) as (_ & Hx & _); [set_solver|constructor|].
  rewrite Hx. set_solver.
Qed.

Lemma lookup_foldl_insert {A} (f : string → A) keys (m : gmap string A) k :
  foldl (λ m key, <[key := f key]> m) m keys !! k = if decide (k ∈ keys) then Some (f k) else m !! k.
Proof.
  revert m. induction keys as [|key keys IH]; intros m; cbn [foldl]; [done|]. rewrite IH.
  destruct (decide (k ∈ keys)) as [Hin|Hin].
  - by rewrite decide_True by by right.
  - destruct (decide (k = key)) as [->|Hne].
    + rewrite lookup_insert_eq. by rewrite decide_True by by left.
    + rewrite lookup_insert_ne by done. by rewrite decide_False by (intros [|]%elem_of_cons; done).
Qed.

(** A map by a key without duplicates finds the row with the key. *)
Lemma lookup_byKey {A} (key : A → string) (l : list A) (m : gmap string A) k :
  NoDup (key <$> l) →
  foldl (λ m x, <[key x := x]> m) m l !! k =
    match head (filter (λ x, key x = k) l) with Some x => Some x | None => m !! k end.
Proof.
  revert m. induction l as [|x l IH]; intros m Hnd; [done|]. rewrite fmap_cons in Hnd. apply NoDup_cons in Hnd as [Hx Hnd].
  cbn [foldl]. rewrite IH by done. rewrite filter_cons. case_decide as Hk.
  - assert (filter (λ y, key y = k) l = []) as ->.
    { destruct (filter _ l) as [|y l'] eqn:E; [done|].
      assert (y ∈ filter (λ y, key y = k) l) as [Hy Hin]%list_elem_of_filter by (rewrite E; left).
      destruct Hx. rewrite Hk, <- Hy. by apply list_elem_of_fmap_2. }
    cbn. subst k. apply lookup_insert_eq.
  - destruct (head _); [done|]. by rewrite lookup_insert_ne.
Qed.

Lemma groupRows_single {R} (key : R → string) (rows : list R) k :
  default [] (groupRows (λ r, [key r]) rows !! k) = filter (λ r, key r = k) rows.
Proof.
  unfold groupRows. cbn [foldl].
  assert (∀ m : gmap string (list R), default [] (foldl (λ m r, <[key r := (default [] (m !! key r) ++ [r])%list]> m) m rows !! k)
            = (default [] (m !! k) ++ filter (λ r, key r = k) rows)%list) as Hm; [|by rewrite Hm, lookup_empty].
  induction rows as [|r rows IH]; intros m; cbn [foldl]; [by rewrite filter_nil, app_nil_r|].
  rewrite IH, filter_cons. case_decide as Hk.
  - subst k. rewrite lookup_insert_eq. cbn. by rewrite <- app_assoc.
  - by rewrite lookup_insert_ne.
Qed.

(** *** Reading repositories

    What is said of a repository: it only reads, and answers its rows; a lookup
    of one row may fail with an error of the program instead of answering none. *)
Section Relations.
Context {W : Type} `{Repository W} `{NetworkRepository W} `{LeaseRepository W} `{ImageRepository W} `{KernelRepository W}
  `{BinaryRepository W} `{VolumeRepository W} `{VsockRepository W} `{SnapshotRepository W}.
Context (rangeIDs : gset string → list string).

Definition looksUp {A} (get : string → GoM W error (option A)) (rows : string → option A) : Prop :=
  ∀ id w, ∃ r, get id w = (r, w) ∧ (r = Ok (rows id) ∨ (rows id = None ∧ ∃ d, r = Err (EDomain d))).

Definition selects {A} (batch : list string → GoM W error (list A)) (key : A → string) (rows : list A) : Prop :=
  ∀ ids w, batch ids w = (Ok (filter (λ x, key x ∈ ids) rows), w).

Lemma fetchAll_spec {I A} (get : string → GoM W error (option A)) rows ids found (s : list I * W) :
  looksUp get rows →
  ∃ m, fetchAll get ids found s = (Ok m, s) ∧
    ∀ id, m !! id = if decide (id ∈ ids) then (match rows id with Some x => Some x | None => found !! id end) else found !! id.
Proof.
  intros Hget. revert found. induction ids as [|i ids IH]; intros found; cbn [fetchAll].
  { exists found. split; [done|]. intros id. by rewrite decide_False by apply not_elem_of_nil. }
  rewrite bind_try. destruct s as [l w]. unfold onOutside. destruct (Hget i w) as (r & E & Hr).
  cbn [fst snd]. rewrite E. cbn [fst snd].
  assert (∀ found', (∀ id, found' !! id = if decide (id = i) then (match rows i with Some x => Some x | None => found !! id end)
                                          else found !! id) →
    ∃ m, fetchAll get ids found' (l, w) = (Ok m, (l, w)) ∧
      ∀ id, m !! id = if decide (id ∈ i :: ids) then (match rows id with Some x => Some x | None => found !! id end)
                      else found !! id) as Hstep.
  { intros found' Hf. destruct (IH found') as (m & Em & Hm). exists m. split; [exact Em|]. intros id. rewrite Hm, Hf.
    destruct (decide (id = i)) as [->|Hne].
    - rewrite (decide_True (P := i ∈ i :: ids)) by left. case_decide; [by destruct (rows i)|done].
    - destruct (decide (id ∈ ids)) as [Hin|Hin].
      + by rewrite decide_True by by right.
      + by rewrite decide_False by (intros [|]%elem_of_cons; done). }
  destruct Hr as [->|(Hn & d & ->)].
  - destruct (rows i) as [x|] eqn:Ex; apply Hstep; intros id.
    + destruct (decide (id = i)) as [->|Hne]; [by rewrite lookup_insert_eq|by rewrite lookup_insert_ne].
    + by case_decide.
  - cbn. apply Hstep. intros id. rewrite Hn. by case_decide.
Qed.

Lemma elem_collectUnique {I} (fn : I → string) items v : v ∈ collectUnique fn items ↔ v ≠ "" ∧ v ∈ fn <$> items.
Proof. unfold collectUnique. rewrite elem_Dedup, list_elem_of_filter. done. Qed.

Lemma map_same {A} (f : A → A) (l : list A) : (∀ x, x ∈ l → f x = x) → f <$> l = l.
Proof.
  intros Hf. rewrite <- (list_fmap_id l) at 2. apply list_fmap_ext. intros i x Hx%list_elem_of_lookup_2. by apply Hf.
Qed.

Lemma map_ext_in {A B} (f g : A → B) (l : list A) : (∀ x, x ∈ l → f x = g x) → f <$> l = g <$> l.
Proof. intros Hf. apply list_fmap_ext. intros i x Hx%list_elem_of_lookup_2. by apply Hf. Qed.

Lemma forward_spec {I A} (fk : I → string) (set : option A → I → I) get rows (items : list I) (w : W) :
  looksUp get rows →
  enrichForward fk set get (items, w) =
    (Ok (), ((λ x, if bool_decide (fk x = "") then x else set (rows (fk x)) x) <$> items, w)).
Proof.
  intros Hget. unfold enrichForward, theItems. rewrite bind_unfold. cbn [fst].
  case_bool_decide as Hids.
  - unfold mret, GoM_ret. do 2 f_equal. symmetry. apply map_same. intros x Hx. case_bool_decide as Hfk; [done|].
    exfalso. apply (not_elem_of_nil (fk x)). rewrite <- Hids. apply elem_collectUnique. split; [done|]. by apply list_elem_of_fmap_2.
  - rewrite bind_unfold. destruct (fetchAll_spec get rows (collectUnique fk items) ∅ (items, w) Hget) as (m & E & Hm).
    rewrite E. unfold updateItems. cbn [fst snd]. do 2 f_equal. apply map_ext_in. intros x Hx.
    case_bool_decide as Hfk; [done|]. f_equal. rewrite Hm, decide_True.
    + rewrite lookup_empty. by destruct (rows (fk x)).
    + apply elem_collectUnique. split; [done|]. by apply list_elem_of_fmap_2.
Qed.

(** What the repositories answer. *)
Context (kernels : string → option KernelItem) (images : string → option ImageItem) (binaries : string → option BinaryItem)
  (networks : string → option NetworkItem) (leases : list NetworkLeaseItem) (volumes : list VolumeItem)
  (devices : list VsockConfigItem).
Context (Hkernels : looksUp kr_Get kernels) (Himages : looksUp ir_Get images) (Hbinaries : looksUp br_Get binaries)
  (Hnetworks : looksUp nr_Get networks) (Hleases : selects LListAllBatch ls_NetworkID leases)
  (Hvolumes : selects vr_FindByIDs vol_ID volumes) (Hdevices : selects vkr_ListByVMIDs vsk_VmID devices).
Context (Hrange : ∀ (s : gset string) x, x ∈ rangeIDs s ↔ x ∈ s).
Context (Hids : ∀ id n, networks id = Some n → nw_ID n = id) (Hvolids : NoDup (vol_ID <$> volumes))
  (Hvmids : NoDup (vsk_VmID <$> devices)).

#[local] Notation Item := (VMItem * VMRefs)%type.

Definition firstWith {A} (key : A → string) (l : list A) (id : string) : option A := head (filter (λ x, key x = id) l).

(** The relations of one machine, path by path. *)
Definition relatePath (path : string) (vm : VMItem) (r : VMRefs) : VMRefs :=
  if bool_decide (path = "kernel") then (if bool_decide (vm_KernelID vm = "") then r else setKernel (kernels (vm_KernelID vm)) r)
  else if bool_decide (path = "image") then (if bool_decide (vm_ImageID vm = "") then r else setImage (images (vm_ImageID vm)) r)
  else if bool_decide (path = "binary") then (if bool_decide (vm_BinaryID vm = "") then r else setBinary (binaries (vm_BinaryID vm)) r)
  else if bool_decide (path = "network") then (if bool_decide (vm_NetworkID vm = "") then r else setNetwork (networks (vm_NetworkID vm)) r)
  else if bool_decide (path = "network.leases") then
    match vr_Network r with Some n => setNetLeases (filter (λ l, ls_NetworkID l = nw_ID n) leases) r | None => r end
  else if bool_decide (path = "volumes") then
    (if bool_decide (vm_VolumeIDs vm = []) then r else setVols (omap (firstWith vol_ID volumes) (vm_VolumeIDs vm)) r)
  else if bool_decide (path = "vsock") then
    (if bool_decide (vm_ID vm = "") then r
     else match firstWith vsk_VmID devices (vm_ID vm) with Some v => setVsock (Some v) r | None => r end)
  else r.

Lemma relatePath_leases vm r : relatePath "network.leases" vm r =
  match vr_Network r with Some n => setNetLeases (filter (λ l, ls_NetworkID l = nw_ID n) leases) r | None => r end.
Proof. reflexivity. Qed.
Lemma relatePath_volumes vm r : relatePath "volumes" vm r =
  if bool_decide (vm_VolumeIDs vm = []) then r else setVols (omap (firstWith vol_ID volumes) (vm_VolumeIDs vm)) r.
Proof. reflexivity. Qed.
Lemma relatePath_vsock vm r : relatePath "vsock" vm r =
  if bool_decide (vm_ID vm = "") then r
  else match firstWith vsk_VmID devices (vm_ID vm) with Some v => setVsock (Some v) r | None => r end.
Proof. reflexivity. Qed.

(** No id holds a NUL, and the networks loaded so far have ids. *)
Definition sound (x : Item) : Prop :=
  Forall (λ id, without NUL id = true) (vm_VolumeIDs x.1) ∧ ∀ n, vr_Network x.2 = Some n → nw_ID n ≠ "".

Lemma relatePath_sound path x : sound x → sound (x.1, relatePath path x.1 x.2).
Proof.
  intros [Hv Hn]. split; [exact Hv|]. cbn [fst snd]. intros n. unfold relatePath.
  repeat case_bool_decide; cbn [vr_Network setKernel setImage setBinary setVols]; eauto.
  - intros En. by rewrite (Hids _ _ En).
  - destruct (vr_Network x.2) eqn:E; [|by rewrite E]. cbn [vr_Network setNetLeases]. rewrite E. eauto.
  - destruct (firstWith _ _ _); cbn [vr_Network setVsock]; eauto.
Qed.

Lemma filter_in {A} (key : A → string) (l : list A) (ids : list string) (id : string) :
  id ∈ ids → filter (λ x, key x = id) (filter (λ x, key x ∈ ids) l) = filter (λ x, key x = id) l.
Proof.
  intros Hin. induction l as [|x l IH]; [done|]. rewrite (filter_cons (λ x, key x ∈ ids)). destruct (decide (key x ∈ ids)) as [Hx|Hx].
  - rewrite !filter_cons. by rewrite IH.
  - rewrite IH, filter_cons. by rewrite decide_False by (intros E; by rewrite E in Hx).
Qed.

Lemma NetworkLeases_spec (items : list Item) (w : W) :
  Forall sound items →
  enrichVMNetworkLeases rangeIDs (items, w) = (Ok (), ((λ x, (x.1, relatePath "network.leases" x.1 x.2)) <$> items, w)).
Proof.
  intros Hs. unfold enrichVMNetworkLeases, theItems. rewrite bind_unfold. cbn [fst].
  assert (∀ x n, x ∈ items → vr_Network x.2 = Some n → nw_ID n ∈ (list_to_set (omap networkIDOf items) : gset string)) as Hin.
  { intros x n Hx En. apply elem_of_list_to_set, list_elem_of_omap. exists x. split; [done|]. unfold networkIDOf. rewrite En.
    rewrite Forall_forall in Hs. destruct (Hs x Hx) as [_ Hn]. by rewrite bool_decide_eq_false_2 by by apply Hn. }
  case_bool_decide as He.
  - unfold mret, GoM_ret. do 2 f_equal. symmetry. apply map_same. intros [vm r] Hx. cbn [fst snd]. f_equal. rewrite relatePath_leases.
    destruct (vr_Network r) as [n|] eqn:En; [|done]. exfalso. apply (not_elem_of_empty (C := gset string) (nw_ID n)).
    rewrite <- He. by apply (Hin (vm, r)).
  - rewrite bind_unfold. unfold softly. rewrite bind_try. unfold onOutside. cbn [fst snd]. rewrite Hleases. cbn [fst snd].
    unfold mret, GoM_ret, updateItems. cbn [fst snd]. do 2 f_equal. apply map_ext_in. intros [vm r] Hx. unfold onRefs. cbn [fst snd].
    rewrite relatePath_leases. destruct (vr_Network r) as [n|] eqn:En; [|done]. do 2 f_equal. rewrite groupRows_single.
    apply filter_in, Hrange. by apply (Hin (vm, r)).
Qed.

Lemma volumeKey_split vm :
  vm_VolumeIDs vm ≠ [] → Forall (λ id, without NUL id = true) (vm_VolumeIDs vm) → Split (volumeKey vm) NUL = vm_VolumeIDs vm.
Proof. intros Hne Hv. unfold volumeKey. by apply Split_Join. Qed.

Lemma Volumes_spec (items : list Item) (w : W) :
  Forall sound items →
  enrichVMVolumes rangeIDs (items, w) = (Ok (), ((λ x, (x.1, relatePath "volumes" x.1 x.2)) <$> items, w)).
Proof.
  intros Hs. rewrite Forall_forall in Hs. unfold enrichVMVolumes, theItems. rewrite bind_unfold. cbn [fst].
  set (keys := Dedup _).
  assert (∀ x, x ∈ items → vm_VolumeIDs x.1 ≠ [] → volumeKey x.1 ∈ keys) as Hkey.
  { intros x Hx Hne. apply elem_Dedup, list_elem_of_fmap_2, list_elem_of_filter. split; [done|]. by apply list_elem_of_fmap_2. }
  case_bool_decide as He.
  - unfold mret, GoM_ret. do 2 f_equal. symmetry. apply map_same. intros [vm r] Hx. cbn [fst snd]. f_equal. rewrite relatePath_volumes.
    case_bool_decide as Hne; [done|]. exfalso. specialize (Hkey _ Hx Hne). rewrite He in Hkey. by apply not_elem_of_nil in Hkey.
  - rewrite bind_unfold. unfold softly. rewrite bind_try. unfold onOutside. cbn [fst snd].
    assert (∃ m, resolveByVMVolumeIDs rangeIDs keys w = (Ok m, w) ∧
      ∀ x, x ∈ items → vm_VolumeIDs x.1 ≠ [] →
        m !! volumeKey x.1 = Some (omap (firstWith vol_ID volumes) (vm_VolumeIDs x.1))) as (m & Em & Hm).
    { unfold resolveByVMVolumeIDs. set (all := list_to_set _ : gset string).
      assert (∀ x vid, x ∈ items → vm_VolumeIDs x.1 ≠ [] → vid ∈ vm_VolumeIDs x.1 → vid ∈ all) as Hall.
      { intros x vid Hx Hne Hvid. apply elem_of_list_to_set, list_elem_of_join. exists (vm_VolumeIDs x.1). split; [done|].
        apply list_elem_of_fmap. exists (volumeKey x.1). split; [|by apply Hkey].
        symmetry. apply volumeKey_split; [done|]. apply (Hs x Hx). }
      case_bool_decide as Ha.
      - exists ∅. split; [done|]. intros x Hx Hne. exfalso. destruct (vm_VolumeIDs x.1) as [|vid l] eqn:El; [done|].
        apply (not_elem_of_empty (C := gset string) vid). rewrite <- Ha. apply (Hall x); rewrite ?El; [done|done|left].
      - rewrite bind_unfold, Hvolumes. eexists. split; [reflexivity|]. intros x Hx Hne.
        rewrite lookup_foldl_insert, decide_True by by apply Hkey. f_equal.
        rewrite volumeKey_split by (done || apply (Hs x Hx)). apply list_omap_ext. apply Forall2_same_length_lookup. split; [done|].
        intros i vid vid' Hi Hi'. simplify_eq. unfold byID. rewrite lookup_byKey by by apply NoDup_fmap_filter.
        rewrite filter_in; [|apply Hrange; apply (Hall x); [done|done|by eapply list_elem_of_lookup_2]].
        unfold firstWith. by destruct (head _). }
    rewrite Em. unfold mret, GoM_ret, updateItems. cbn [fst snd]. do 2 f_equal. apply map_ext_in. intros [vm r] Hx. cbn [fst snd].
    rewrite relatePath_volumes. case_bool_decide as Hne; [done|]. unfold onRefs. cbn [fst snd].
    pose proof (Hm _ Hx Hne) as E. cbn [fst] in E. by rewrite E.
Qed.

Lemma Vsock_spec (items : list Item) (w : W) :
  enrichVMVsock (items, w) = (Ok (), ((λ x, (x.1, relatePath "vsock" x.1 x.2)) <$> items, w)).
Proof.
  unfold enrichVMVsock, theItems. rewrite bind_unfold. cbn [fst].
  assert (∀ x, x ∈ items → vm_ID x.1 ≠ "" → vm_ID x.1 ∈ collectUnique (λ x : Item, vm_ID x.1) items) as Hin.
  { intros x Hx Hne. apply elem_collectUnique. split; [done|]. by apply (list_elem_of_fmap_2 (λ x : Item, vm_ID x.1)). }
  case_bool_decide as He.
  - unfold mret, GoM_ret. do 2 f_equal. symmetry. apply map_same. intros [vm r] Hx. cbn [fst snd]. f_equal. rewrite relatePath_vsock.
    case_bool_decide as Hne; [done|]. specialize (Hin _ Hx Hne). rewrite He in Hin. by apply not_elem_of_nil in Hin.
  - rewrite bind_unfold. unfold softly. rewrite bind_try. unfold onOutside. cbn [fst snd]. rewrite Hdevices. cbn [fst snd].
    unfold mret, GoM_ret, updateItems. cbn [fst snd]. do 2 f_equal. apply map_ext_in. intros [vm r] Hx. cbn [fst snd].
    rewrite lookup_byKey by by apply NoDup_fmap_filter. rewrite relatePath_vsock. case_bool_decide as Hne.
    + destruct (filter (λ v, vsk_VmID v = vm_ID vm) (filter _ devices)) as [|v l] eqn:Ef; [done|]. exfalso.
      assert (v ∈ filter (λ v, vsk_VmID v = vm_ID vm)
        (filter (λ v, vsk_VmID v ∈ collectUnique (λ x : Item, vm_ID x.1) items) devices)) as [Hv Hc]%list_elem_of_filter
        by (rewrite Ef; left).
      apply list_elem_of_filter in Hc as [Hc _]. rewrite Hv, Hne in Hc. by apply elem_collectUnique in Hc as [? _].
    + rewrite filter_in by by apply (Hin _ Hx). unfold firstWith. by destruct (head _).
Qed.

(** *** All the paths *)

Definition vmPaths : list string := ["kernel"; "image"; "binary"; "network"; "network.leases"; "volumes"; "vsock"].

Lemma VMRelations_paths path : VMRelations !! path ≠ None → path ∈ vmPaths.
Proof.
  unfold VMRelations. intros Hp. destruct (_ !! path) as [spec|] eqn:E; [|done].
  apply elem_of_list_to_map_2 in E. apply (list_elem_of_fmap_2 fst) in E. exact E.
Qed.

Lemma enrichVMPath_spec path (items : list Item) (w : W) :
  path ∈ vmPaths → Forall sound items →
  enrichVMPath rangeIDs path (items, w) = (Ok (), ((λ x, (x.1, relatePath path x.1 x.2)) <$> items, w)).
Proof.
  assert (∀ {A} (fk : Item → string) (set : option A → VMRefs → VMRefs) get rows (f : VMItem → VMRefs → VMRefs),
    looksUp get rows →
    (∀ vm r, f vm r = if bool_decide (fk (vm, r) = "") then r else set (rows (fk (vm, r))) r) →
    enrichForward fk (λ k, onRefs (set k)) get (items, w) = (Ok (), ((λ x, (x.1, f x.1 x.2)) <$> items, w))) as Hforward.
  { intros A fk set get rows f Hget Hf. rewrite (forward_spec _ _ _ _ _ _ Hget). do 2 f_equal. apply map_ext_in.
    intros [vm r] _. cbn [fst snd]. rewrite Hf. by case_bool_decide. }
  intros Hp Hs. unfold vmPaths in Hp.
  repeat (apply elem_of_cons in Hp as [->|Hp]); [..|by apply elem_of_nil in Hp].
  - exact (Hforward _ (λ x, vm_KernelID x.1) setKernel kr_Get kernels _ Hkernels (λ vm r, eq_refl)).
  - exact (Hforward _ (λ x, vm_ImageID x.1) setImage ir_Get images _ Himages (λ vm r, eq_refl)).
  - exact (Hforward _ (λ x, vm_BinaryID x.1) setBinary br_Get binaries _ Hbinaries (λ vm r, eq_refl)).
  - exact (Hforward _ (λ x, vm_NetworkID x.1) setNetwork nr_Get networks _ Hnetworks (λ vm r, eq_refl)).
  - by apply NetworkLeases_spec.
  - by apply Volumes_spec.
  - by apply Vsock_spec.
Qed.

Definition relateAll (paths : list string) (vm : VMItem) (r : VMRefs) : VMRefs := foldl (λ r p, relatePath p vm r) r paths.

Lemma eachPath_spec paths (items : list Item) (w : W) :
  Forall (λ p, p ∈ vmPaths) paths → Forall sound items →
  eachPath paths (enrichVMPath rangeIDs) (items, w) = (Ok (), ((λ x, (x.1, relateAll paths x.1 x.2)) <$> items, w)).
Proof.
  intros Hps. revert items. induction Hps as [|p paths Hp Hps IH]; intros items Hs; cbn [eachPath].
  { unfold mret, GoM_ret. do 2 f_equal. symmetry. apply map_same. by intros [vm r] _. }
  rewrite bind_unfold, enrichVMPath_spec, IH by done || (apply Forall_fmap; eapply Forall_impl; [exact Hs|]; intros x; apply relatePath_sound).
  do 2 f_equal. by rewrite <- list_fmap_compose.
Qed.

(** Sorting puts the one path with a dot last. *)
Lemma dots_path p : p ∈ vmPaths → p ≠ "network.leases" → dots p = 0.
Proof.
  unfold vmPaths. intros Hp Hne. repeat (apply elem_of_cons in Hp as [->|Hp]); [..|by apply elem_of_nil in Hp]; done.
Qed.

Lemma insertByDots_last zeros k :
  Forall (λ p, dots p = 0) zeros → Forall (λ p, p = "network.leases") k →
  insertByDots "network.leases" (zeros ++ k) = (zeros ++ "network.leases" :: k)%list.
Proof.
  intros Hz Hk. induction Hz as [|p zeros Hp Hz IH]; cbn [app insertByDots].
  - destruct Hk as [|p k -> Hk]; done.
  - rewrite Hp, IH. done.
Qed.

Lemma sortByDotCount_split paths :
  Forall (λ p, p ∈ vmPaths) paths →
  sortByDotCount paths = (filter (λ p, p ≠ "network.leases") paths ++ filter (λ p, p = "network.leases") paths)%list.
Proof.
  intros Hps. induction Hps as [|p paths Hp Hps IH]; [done|]. unfold sortByDotCount in *. cbn [foldr]. rewrite IH, !filter_cons.
  rewrite Forall_forall in Hps. destruct (decide (p = "network.leases")) as [->|Hne].
  - rewrite decide_False by tauto. apply insertByDots_last; apply Forall_forall; intros q [Hq Hin]%list_elem_of_filter; [|done].
    apply dots_path; auto.
  - rewrite decide_True by done. cbn [app]. destruct (filter _ paths ++ _)%list as [|q l]; [done|]. cbn [insertByDots].
    by rewrite (dots_path p Hp Hne).
Qed.

(** *** Machine by machine *)

Definition whenAsked {A} (paths : list string) (path fk : string) (rows : string → option A) : option A :=
  if bool_decide (path ∈ paths) && negb (bool_decide (fk = "")) then rows fk else None.

(** The relations of one machine, none of them loaded before. *)
Definition related (include : list string) (vm : VMItem) : VMRefs :=
  let network := whenAsked include "network" (vm_NetworkID vm) networks in
  VMRefs_ (whenAsked include "kernel" (vm_KernelID vm) kernels) (whenAsked include "image" (vm_ImageID vm) images)
    (whenAsked include "binary" (vm_BinaryID vm) binaries) network
    (match network with
     | Some n => if bool_decide ("network.leases" ∈ include) then filter (λ l, ls_NetworkID l = nw_ID n) leases else []
     | None => []
     end)
    (if bool_decide ("volumes" ∈ include) then omap (firstWith vol_ID volumes) (vm_VolumeIDs vm) else [])
    (whenAsked include "vsock" (vm_ID vm) (firstWith vsk_VmID devices)).

(** Evaluate the comparisons of constant strings. *)
Ltac decide_paths :=
  unfold relatePath; repeat match goal with
  | |- context [bool_decide (?a = ?b :> string)] =>
      let v := eval vm_compute in (bool_decide (a = b :> string)) in
      match v with true => idtac | false => idtac end; change (bool_decide (a = b :> string)) with v; cbn beta iota
  end.

Lemma whenAsked_snoc {A} paths path p fk (rows : string → option A) :
  whenAsked (paths ++ [p])%list path fk rows =
    if bool_decide (p = path) then (if bool_decide (fk = "") then None else rows fk) else whenAsked paths path fk rows.
Proof.
  unfold whenAsked. destruct (decide (p = path)) as [->|Hp].
  - rewrite (bool_decide_eq_true_2 (path ∈ (paths ++ [path])%list)) by (apply elem_of_app; right; by apply list_elem_of_singleton).
    rewrite (bool_decide_eq_true_2 (path = path)) by done. by case_bool_decide.
  - rewrite (bool_decide_ext (path ∈ (paths ++ [p])%list) (path ∈ paths)).
    + by rewrite (bool_decide_eq_false_2 (p = path)).
    + rewrite elem_of_app, list_elem_of_singleton. intuition congruence.
Qed.

Lemma whenAsked_empty {A} paths path (rows : string → option A) : whenAsked paths path "" rows = None.
Proof. unfold whenAsked. by rewrite andb_false_r. Qed.

Lemma relateAll_flat paths vm :
  Forall (λ p, p ∈ vmPaths ∧ p ≠ "network.leases") paths → relateAll paths vm noRefs = related paths vm.
Proof.
  unfold relateAll. induction paths as [|p paths IH] using rev_ind; intros Hps.
  { unfold related, whenAsked. cbn. done. }
  apply Forall_app in Hps as [Hps [[Hp Hne] _]%Forall_cons]. rewrite foldl_app, (IH Hps). cbn [foldl]. clear IH.
  assert ("network.leases" ∉ (paths ++ [p])%list) as Hleases1.
  { intros [Hin|E%list_elem_of_singleton]%elem_of_app; [|congruence]. rewrite Forall_forall in Hps. by destruct (Hps _ Hin). }
  assert ("network.leases" ∉ paths) as Hleases0 by (intros Hin; apply Hleases1, elem_of_app; by left).
  unfold related. rewrite !whenAsked_snoc. rewrite (bool_decide_eq_false_2 _ Hleases1), (bool_decide_eq_false_2 _ Hleases0).
  assert (∀ o : option NetworkItem, (match o with Some _ => [] | None => [] end) = ([] : list NetworkLeaseItem)) as Hno by by intros [].
  assert (bool_decide ("volumes" ∈ (paths ++ [p])%list) = bool_decide (p = "volumes") || bool_decide ("volumes" ∈ paths)) as Hvol.
  { apply eq_true_iff_eq. rewrite orb_true_iff, !bool_decide_eq_true, elem_of_app, list_elem_of_singleton. intuition congruence. }
  rewrite Hvol. unfold vmPaths in Hp.
  repeat (apply elem_of_cons in Hp as [->|Hp]); try done; [..|by apply elem_of_nil in Hp]; cbn [orb].
  all: rewrite !Hno; decide_paths.
  - destruct (bool_decide_reflect (vm_KernelID vm = "")) as [Hid|Hid]; [by rewrite Hid, whenAsked_empty|done].
  - destruct (bool_decide_reflect (vm_ImageID vm = "")) as [Hid|Hid]; [by rewrite Hid, whenAsked_empty|done].
  - destruct (bool_decide_reflect (vm_BinaryID vm = "")) as [Hid|Hid]; [by rewrite Hid, whenAsked_empty|done].
  - destruct (bool_decide_reflect (vm_NetworkID vm = "")) as [Hid|Hid]; [by rewrite Hid, whenAsked_empty|done].
  - destruct (bool_decide_reflect (vm_VolumeIDs vm = [])) as [Hid|Hid]; [|done]. rewrite Hid. cbn [omap list_omap orb].
    by destruct (bool_decide ("volumes" ∈ paths)).
  - destruct (bool_decide_reflect (vm_ID vm = "")) as [Hid|Hid]; [by rewrite Hid, whenAsked_empty|].
    destruct (firstWith _ _ _) eqn:Ev; [done|]. unfold whenAsked. rewrite Ev.
    by destruct (bool_decide ("vsock" ∈ paths) && negb (bool_decide (vm_ID vm = ""))).
Qed.

Lemma related_perm paths paths' vm : (∀ p, p ∈ paths ↔ p ∈ paths') → related paths vm = related paths' vm.
Proof.
  intros Hp. unfold related, whenAsked.
  by rewrite !(bool_decide_ext (_ ∈ paths) (_ ∈ paths')) by apply Hp.
Qed.

Lemma relateAll_related paths vm :
  Forall (λ p, p ∈ vmPaths) paths → relateAll (sortByDotCount paths) vm noRefs = related paths vm.
Proof.
  intros Hps. rewrite sortByDotCount_split by done. unfold relateAll. rewrite foldl_app.
  set (flat := filter (λ p, p ≠ "network.leases") paths).
  change (foldl (λ r p, relatePath p vm r) noRefs flat) with (relateAll flat vm noRefs).
  rewrite relateAll_flat.
  2: { apply Forall_forall. intros p [Hne Hin]%list_elem_of_filter. rewrite Forall_forall in Hps. auto. }
  assert (∀ p, p ≠ "network.leases" → bool_decide (p ∈ flat) = bool_decide (p ∈ paths)) as Hflat.
  { intros p Hne. apply bool_decide_ext. unfold flat. rewrite list_elem_of_filter. tauto. }
  assert (bool_decide ("network.leases" ∈ flat) = false) as Hno.
  { apply bool_decide_eq_false. unfold flat. rewrite list_elem_of_filter. tauto. }
  destruct (decide ("network.leases" ∈ paths)) as [Hin|Hin].
  - assert (∃ n, filter (λ p, p = "network.leases") paths = replicate (S n) "network.leases") as [n ->].
    { assert (Forall (eq "network.leases") (filter (λ p, p = "network.leases") paths)) as Hall
        by (apply Forall_forall; by intros p [-> _]%list_elem_of_filter).
      destruct (filter (λ p, p = "network.leases") paths) as [|q l] eqn:E.
      - exfalso. apply (not_elem_of_nil "network.leases"). rewrite <- E. by apply list_elem_of_filter.
      - exists (length l). symmetry. by apply replicate_as_Forall_2. }
    assert (∀ m r, foldl (λ r p, relatePath p vm r) r (replicate (S m) "network.leases") = relatePath "network.leases" vm r) as Hrep.
    { intros m. induction m as [|m IH]; intros r; [done|].
      change (replicate (S (S m)) "network.leases") with ("network.leases" :: replicate (S m) "network.leases"). cbn [foldl].
      rewrite IH. rewrite !relatePath_leases. destruct r as [? ? ? [net|] ? ? ?]; reflexivity. }
    rewrite Hrep, relatePath_leases. unfold related, whenAsked. cbn [vr_Network]. rewrite Hno.
    rewrite (Hflat "kernel"), (Hflat "image"), (Hflat "binary"), (Hflat "network"), (Hflat "volumes"), (Hflat "vsock") by done.
    rewrite (bool_decide_eq_true_2 _ Hin).
    destruct (bool_decide ("network" ∈ paths) && negb (bool_decide (vm_NetworkID vm = ""))); [|done].
    by destruct (networks (vm_NetworkID vm)).
  - assert (filter (λ p, p = "network.leases") paths = []) as ->.
    { destruct (filter (λ p, p = "network.leases") paths) as [|q l] eqn:E; [done|]. exfalso.
      assert (q ∈ filter (λ p, p = "network.leases") paths) as [-> Hq]%list_elem_of_filter by (rewrite E; left). done. }
    cbn [foldl]. unfold related, whenAsked. rewrite Hno, (bool_decide_eq_false_2 _ Hin).
    by rewrite (Hflat "kernel"), (Hflat "image"), (Hflat "binary"), (Hflat "network"), (Hflat "volumes"), (Hflat "vsock") by done.
Qed.

(** C26. Enrichment in batches gives each machine what it would be given alone:
    for any include list, in any order, each relation of a machine is the row its
    id refers to, exactly when its path was asked for; the volumes come in the
    order of the machine's list without those that are gone; the leases are
    those of its network, and need the network.  A lookup that fails with an
    error of the program counts as no row. *)
Theorem EnrichVM_related (include : list string) (vms : list VMItem) (w : W) :
  include ≠ [] → vms ≠ [] → validatePaths include VMRelations = None →
  Forall (λ vm, Forall (λ id, without NUL id = true) (vm_VolumeIDs vm)) vms →
  EnrichVM rangeIDs include ((λ vm, (vm, noRefs)) <$> vms, w) =
    (Ok (), ((λ vm, (vm, related include vm)) <$> vms, w)).
Proof.
  intros Hne Hvms Hvalid Hv. unfold EnrichVM, enrichPaths, theItems. rewrite bind_unfold. cbn [fst].
  rewrite bool_decide_eq_false_2 by by destruct vms. unfold resolveInclude. rewrite bool_decide_eq_false_2, Hvalid by done.
  assert (Forall (λ p, p ∈ vmPaths) include) as Hps.
  { apply Forall_forall. intros p Hp. apply VMRelations_paths. intros Hnone. unfold validatePaths in Hvalid.
    destruct (filter _ include) as [|q l] eqn:E; [|done]. apply (not_elem_of_nil p). rewrite <- E. by apply list_elem_of_filter. }
  rewrite eachPath_spec.
  - do 2 f_equal. rewrite <- list_fmap_compose. apply map_ext_in. intros vm _. cbn. f_equal. by apply relateAll_related.
  - rewrite sortByDotCount_split by done. apply Forall_app. rewrite Forall_forall in Hps.
    split; apply Forall_forall; intros p [_ Hp]%list_elem_of_filter; auto.
  - apply Forall_fmap. eapply Forall_impl; [exact Hv|]. intros vm Hvm. split; [exact Hvm|]. by intros n.
Qed.
End Relations.

(** *** A world *)
Module EnrichExamples.
Definition rowsOf {A} (key : A → string) (l : list A) (id : string) : option A := head (filter (λ x, key x = id) l).
Definition noRow {A} : GoM unit error (option A) := mret None.
Definition noRows {A} : GoM unit error (list A) := mret [].
Definition noop : GoM unit error () := mret ().
Definition zero : GoM unit error Z := mret 0%Z.

Definition theNetworks : list NetworkItem :=
  [NetworkItem_ "n1" "lan" "10.0.0.0/24" "mvm-lan" "10.0.0.1" true true false true "t0" "t0" None None].
Definition theKernels : list KernelItem :=
  [KernelItem_ "k1" "vmlinux" "vmlinux" "6.1" "x86_64" "official" "/k" false true "t0" "t0" None []].
Definition theVolumes : list VolumeItem :=
  (λ id, VolumeItem_ id id 1024%Z VolumeFormatRaw ("/disks/" ++ id) VolumeStatusAttached None "t0" "t0" false false "") <$> ["d1"; "d2"].
Definition theDevices : list VsockConfigItem :=
  [VsockConfigItem_ "s1" "vm1" 3%Z "/v.sock" 52%Z "t" "" false None].
Definition theLeases : list NetworkLeaseItem :=
  [NetworkLeaseItem_ "n1" "10.0.0.2" "t0" (Some 1%Z) (Some "vm1") None].

#[export] Instance ex_vms : Repository unit := {|
  Get _ := noRow; GetByName _ := noRow; NamesExist _ := noRows; FindByIP _ := noRow; FindByMAC _ := noRow; FindByPrefix _ := noRows;
  Count := zero; CountByStatus _ := zero; FindByNetworkID _ := noRows; GetByNetworkIDs _ := noRows; FindByKernelID _ := noRows;
  GetByKernelIDs _ := noRows; FindByBinaryID _ := noRows; GetByBinaryIDs _ := noRows; GetByImageIDs _ := noRows; FindByVolumeID _ := noRows;
  FindByVolumeIDsBatch _ := noRows; FindBySSHKeyID _ := noRows; ListAll := noRows; ListByStatus _ := noRows; ListExcludingStatuses _ := noRows;
  Upsert _ := noop; UpdateStatus _ _ := noop; UpdatePID _ _ := noop; UpdateProcessInfo _ _ _ := noop;
  UpdateExitCode _ _ := noop; Delete _ := noop; DeleteMany _ := zero |}.
#[export] Instance ex_networks : NetworkRepository unit := {|
  nr_Get id := mret (rowsOf nw_ID theNetworks id); nr_GetByName _ _ := noRow; nr_FindByPrefix _ _ := noRows; nr_Count := zero;
  nr_ListAll := noRows; nr_Upsert _ := noop; nr_UpdateBridgeActive _ _ := noop; nr_SetDefault _ := noop; nr_GetDefault := noRow;
  nr_UpdateManyIsPresent _ _ := noop; nr_SoftDelete _ := noop; nr_Delete _ := noop |}.
#[export] Instance ex_leases : LeaseRepository unit := {|
  LGet _ _ := noRow; LListAll _ := noRows; LListByVM _ _ := noRows;
  LListAllBatch ids := mret (filter (λ l, ls_NetworkID l ∈ ids) theLeases); LAcquire _ _ _ := noRow; LRelease _ _ := noop;
  LReleaseByVM _ := noop; LCount := zero; LCountAvailable _ := zero |}.
#[export] Instance ex_images : ImageRepository unit := {|
  ir_Get _ := throw (EDomain (NotFound CodeImageNotFound "no such image" [])); ir_FindByPrefix _ _ := noRows; ir_GetByType _ := noRow;
  ir_GetByVersionAndType _ _ := noRow; ir_GetByName _ _ := noRow; ir_Count := zero; ir_ListAll := noRows; ir_Upsert _ := noop;
  ir_SoftDelete _ := noop; ir_GetDefault := noRow; ir_UpdateManyIsPresent _ _ := noop; ir_Delete _ := noop; ir_SetDefault _ := noop;
  ir_ListAllByIDs _ := noRows |}.
#[export] Instance ex_kernels : KernelRepository unit := {|
  kr_Get id := mret (rowsOf krn_ID theKernels id); kr_FindByPrefix _ _ := noRows; kr_ListAll := noRows; kr_GetByName _ _ := noRow;
  kr_GetDefault := noRow; kr_Upsert _ := noop; kr_Delete _ := noop; kr_SoftDelete _ := noop; kr_Count := zero;
  kr_GetByType _ := noRow; kr_GetByVersionAndType _ _ := noRow; kr_SetDefault _ := noop; kr_UpdateManyIsPresent _ _ := noop |}.
#[export] Instance ex_binaries : BinaryRepository unit := {|
  br_Get _ := noRow; br_FindByPrefix _ _ := noRows; br_ListAll := noRows; br_ListByType _ := noRows; br_GetByTypeAndVersion _ _ := noRow;
  br_Upsert _ := noop; br_Delete _ := noop; br_DeleteByType _ := noop; br_DeleteByTypeAndVersion _ _ := noop;
  br_SetDefault _ _ := noop; br_Count := zero; br_GetDefault _ := noRow; br_SoftDelete _ := noop; br_UpdateManyIsPresent _ _ := noop |}.
#[export] Instance ex_volumes : VolumeRepository unit := {|
  vr_Get _ := noRow; vr_FindByPrefix _ := noRows; vr_GetByName _ := noRow; vr_ListAll := noRows; vr_Upsert _ := noop; vr_Delete _ := noop;
  vr_FindByIDs ids := mret (filter (λ v, vol_ID v ∈ ids) theVolumes); vr_Count := zero |}.
#[export] Instance ex_devices : VsockRepository unit := {|
  vkr_GetByVMID _ := noRow; vkr_ListByVMIDs ids := mret (filter (λ v, vsk_VmID v ∈ ids) theDevices); vkr_Upsert _ := noop;
  vkr_DeleteByVMID _ := noop; vkr_SetUpgradeLock _ := noop; vkr_ClearUpgradeLock _ := noop; vkr_UpdateAgentVersion _ _ := noop |}.
#[export] Instance ex_snapshots : SnapshotRepository unit := {|
  sr_Get _ := noRow; sr_GetByName _ := noRow; sr_FindByPrefix _ := noRows; sr_ListAll := noRows; sr_Upsert _ := noop; sr_Delete _ := noop;
  sr_CountByKernelID _ := zero; sr_CountByNetworkID _ := zero; sr_CountByBinaryID _ := zero; sr_FindByKernelID _ := noRows;
  sr_FindByKernelIDs _ := noRows; sr_FindByNetworkID _ := noRows; sr_FindByNetworkIDs _ := noRows; sr_FindByBinaryID _ := noRows;
  sr_FindByBinaryIDs _ := noRows |}.

(** A machine by its network, image, kernel and volumes. *)
Definition machine (id network image kernel : string) (volumes : list string) : VMItem :=
  VMItem_ id id "" 0%Z "" "" network "" image kernel "" "" "" "" 0%Z 0%Z 0%Z "" "" false false false false false false
    "t0" "t0" None None None None None None None None "" "" "" "" "" "" "" "" "" "" "" [] None volumes None.
Definition vm1 : VMItem := machine "vm1" "n1" "i0" "k1" ["d2"; "gone"; "d1"].
Definition vm2 : VMItem := machine "vm2" "" "" "k1" [].
Definition include : list string := ["network.leases"; "kernel"; "volumes"; "image"; "network"; "vsock"].

Lemma lookups_pure {A} (f : string → option A) : looksUp (λ id, (mret (f id) : GoM unit error _)) f.
Proof. intros id w. eexists. split; [reflexivity|]. by left. Qed.

(** The image is gone, and so is one of the volumes. *)
Lemma EnrichVM_related_witness :
  EnrichVM elements include ((λ vm, (vm, noRefs)) <$> [vm1; vm2], ()) =
    (Ok (), ([(vm1, VMRefs_ (head theKernels) None None (head theNetworks) theLeases (rev theVolumes) (head theDevices));
              (vm2, VMRefs_ (head theKernels) None None None [] [] None)], ())).
Proof.
  rewrite (EnrichVM_related elements (rowsOf krn_ID theKernels) (λ _, None) (λ _, None) (rowsOf nw_ID theNetworks) theLeases
    theVolumes theDevices); [vm_compute; reflexivity|..].
  - apply lookups_pure.
  - intros id w. eexists. split; [reflexivity|]. right. split; [reflexivity|]. eexists. reflexivity.
  - apply lookups_pure.
  - apply lookups_pure.
  - intros ids w. reflexivity.
  - intros ids w. reflexivity.
  - intros ids w. reflexivity.
  - intros ids x. apply elem_of_elements.
  - intros id n. unfold rowsOf, theNetworks. cbn [filter list_filter]. case_decide; [|done]. by intros [= <-].
  - apply (bool_decide_unpack _). vm_compute. exact I.
  - apply (bool_decide_unpack _). vm_compute. exact I.
  - discriminate.
  - discriminate.
  - vm_compute. reflexivity.
  - apply (bool_decide_unpack _). vm_compute. exact I.
Defined.
End EnrichExamples.
