(* ===== verification/VMAPI.v ===== *)
(** * Operations on machines: [pkg/api/vm.go, pkg/api/inputs/vm_input.go]

    The operations of the command line on machines that exist: they resolve
    their identifiers, load the relations of the rows ([Enrich]), and act through
    the controller ([VMControl]), the network service and the repositories.  A
    machine that was stopped gets a new Firecracker process ([Spawn]).  Creation
    is in [VMCreate].

    A result keeps a pointer to its machine: it shows the machine as its turn of
    the loop leaves it. *)

From Stdlib Require Import Ascii.
From stdpp Require Import gmap strings list.
From S2P Require Import Prelude GoStrings Errs Model Inputs Infra Sql System Files Resolving Volumes FwRepo FwTracker NetOps Networks VMRepo VMResolver FcConfig Spawn VMControl IPNet Lease Names NetService NetAPI Assets Enrich.
#[local] Open Scope string_scope.

(** ** The console of a machine *)

(** [console.Controller], by what it was made from. *)
Record ConsoleController := ConsoleController_ {
  cc_vmID : string;
  cc_vmPath : string;
  cc_vmName : string;
  cc_pidFilename : string;
  cc_socketFilename : string;
}.

Definition console_NewController (vmID vmPath vmName pidFilename socketFilename : string) : ConsoleController :=
  ConsoleController_ vmID vmPath (if bool_decide (vmName = "") then vmID else vmName) pidFilename socketFilename.

Class Console (W : Type) := {
  CreatePTY : ConsoleController → GoM W error Z;
  CloseClientFD : ConsoleController → ST W unit;
  StartRelay : ConsoleController → GoM W error unit;
  CleanupRelay : ConsoleController → ST W unit;
  RelayGetPID : ConsoleController → ST W (option Z);
  RelaySocket : ConsoleController → ST W string;
}.

(** [system.IsProcessRunning]: there is a process with this id. *)
Class ProcessTable (W : Type) := IsProcessRunning : Z → W → bool.

(** ** Results *)

Record VMVolume := VMVolume_ { vv_ID : string; vv_Name : string; vv_Size : Z; vv_Format : string; vv_Status : string }.

Record VMItemInfo := VMItemInfo_ {
  vii_Name : string; vii_ID : string; vii_Status : string; vii_PID : Z; vii_ExitCode : option Z;
  vii_SSHKeys : list string; vii_SSHUser : option string; vii_CloudInitMode : string;
  vii_NocloudNetPort : option Z; vii_NocloudNetPID : option Z;
  vii_PCIEnabled : bool; vii_NestedVirt : bool; vii_EnableConsole : bool; vii_EnableLogging : bool;
  vii_EnableMetrics : bool; vii_AllowRemoteExec : bool; vii_CreatedAt : string; vii_UpdatedAt : string;
}.
Record VMResourcesInfo := VMResourcesInfo_ { vri_VCPU : Z; vri_Mem : Z; vri_Disk : Z }.
Record VMNetworkingInfo := VMNetworkingInfo_ {
  vni_IPv4 : string; vni_MAC : string; vni_Network : option NetworkItem; vni_TapDevice : string }.
Record VMAssetsInfo := VMAssetsInfo_ {
  vai_Image : option ImageItem; vai_Kernel : option KernelItem; vai_Binary : option BinaryItem }.
Record VMFilesystemInfo := VMFilesystemInfo_ {
  vfi_VMDir : string; vfi_RootfsPath : string; vfi_ConfigPath : option string; vfi_LogPath : option string;
  vfi_SerialOutputPath : option string }.
Record VMConsoleInfo := VMConsoleInfo_ {
  vci_RelayRunning : bool; vci_RelayPID : option Z; vci_RelaySocketPath : option string }.
Record VMVsockInfo := VMVsockInfo_ {
  vsi_ID : string; vsi_GuestCID : Z; vsi_UDSPath : string; vsi_Port : Z; vsi_AgentVersion : string;
  vsi_Upgrading : bool; vsi_UpgradeStartedAt : option string }.

Record VMInspectResult := VMInspectResult_ {
  vmr_VM : VMItemInfo;
  vmr_Resources : VMResourcesInfo;
  vmr_Networking : VMNetworkingInfo;
  vmr_Assets : VMAssetsInfo;
  vmr_Filesystem : VMFilesystemInfo;
  vmr_Console : VMConsoleInfo;
  vmr_Volumes : list VMVolume;
  vmr_Vsock : option VMVsockInfo;
}.

(** Without the token. *)
Definition vsockToInspectInfo (v : option VsockConfigItem) : option VMVsockInfo :=
  (λ v, VMVsockInfo_ (vsk_ID v) (vsk_GuestCID v) (vsk_UDSPath v) (vsk_Port v) (vsk_AgentVersion v) (vsk_Upgrading v)
          (vsk_UpgradeStartedAt v)) <$> v.

Definition opFailed (code : Code) (msg : string) (exception : option error) : OperationResult :=
  OperationResult_ "error" code msg None exception None None.
Definition batchOf (items : list OperationResult) : BatchResult := BatchResult_ items [] ∅.

(** ** Inputs *)
Section Input.
Context {W : Type} `{Repository W} (parseIPv6 : string → option IP) (cidrError : string → error).

Definition resolveFailed (msg : string) : error := EDomain (New CodeVMResolveFailed msg []).

Definition validIdentifier (identifier : string) : result error unit :=
  if ValidMACRegex identifier then
    match MAC identifier with Err _ => Err (resolveFailed ("Invalid MAC address: " ++ identifier)) | Ok _ => Ok () end
  else if IsIPAddress parseIPv6 identifier then
    match IPv4Address parseIPv6 cidrError identifier "guest IP" true "" "" with
    | Err _ => Err (resolveFailed ("Invalid guest IP: " ++ identifier)) | Ok _ => Ok () end
  else
    match EntityName parseIPv6 identifier "VM" 63 with
    | Err _ => Err (resolveFailed ("Invalid VM identifier: " ++ identifier)) | Ok _ => Ok () end.

Fixpoint validIdentifiers (identifiers : list string) : result error unit :=
  match identifiers with
  | [] => Ok ()
  | identifier :: rest => _ ← validIdentifier identifier; validIdentifiers rest
  end.

Definition vmi_Validate (i : VMInput) : result error unit :=
  if bool_decide (vmi_Identifiers i = []) then Err (Errorf "at least one VM identifier is required" None)
  else validIdentifiers (vmi_Identifiers i).

(** The machines found, with the error of those that were not. *)
Definition vmi_Resolve (i : VMInput) : ST W (list VMItem * option error) :=
  match vmi_Validate i with
  | Err err => mret ([], Some err)
  | Ok _ =>
      r ← attempt (VMResolver.ResolveMany (vmi_Identifiers i));
      mret (match r with
            | Err err => ([], Some err)
            | Ok r =>
                let errors := ResolveErrors r in
                if negb (bool_decide (errors = [])) && bool_decide (VMs r = []) then
                  ([], Some (EDomain (NotFound CodeVMNotFound ("Could not resolve any VMs: " ++ Join errors ", ") [])))
                else if negb (bool_decide (errors = [])) then
                  (VMs r, Some (Errorf ("partial resolve failures: " ++ Join errors "; ") None))
                else (VMs r, None)
            end)
  end.
End Input.

Definition FlushARP {W} `{Runner W} (bridge : string) : ST W unit :=
  _ ← Run ["ip"; "neigh"; "flush"; "dev"; bridge] ""; mret ().

(** ** The operations *)
Section Operations.
Context {W : Type} `{Repository W} `{NetworkRepository W} `{LeaseRepository W} `{ImageRepository W} `{KernelRepository W}
  `{BinaryRepository W} `{VolumeRepository W} `{VsockRepository W} `{SnapshotRepository W}.
Context `{NetOps W} `{Tracker W} `{firewallRuleRepo W} `{Runner W} `{Host W} `{Firecracker W} `{ConfigManager W} `{Files W}
  `{Processes W} `{Console W} `{ProcessTable W} `{OpEnv W}.
(** Whether the network service has a tracker; the order of Go's maps; the
    parsers of the library; where machines are kept; a machine in a result. *)
Context (tracked : bool) (rangeIDs : gset string → list string).
Context (parseIPv6 : string → option IP) (cidrError : string → error).
Context (Abs : string → option string) (marshal : FirecrackerVMConfig → result error string).
Context (VmsDir : string) (toAny : VMItem * VMRefs → any).

#[local] Notation Item := (VMItem * VMRefs)%type.
#[local] Notation S := (FirewallTracker * W)%type.
#[local] Notation M := (ST S).
#[local] Notation ME := (GoM S error).

Definition GetVMDirByID (id : string) : string := Path_Join [VmsDir; id].

Definition opOK (code : Code) (x : Item) (msg : string) : OperationResult :=
  OperationResult_ "success" code msg (Some (toAny x)) None None None.

(** A call whose error is dropped. *)
Definition quietly {A} (m : ME A) : M unit := _ ← attempt m; mret ().

(** Best-effort enrichment: what was loaded before an error stays. *)
Definition enriched (include : list string) (items : list Item) : M (list Item) := λ s,
  let '(_, (items, w)) := EnrichVM rangeIDs include (items, s.2) in (items, (s.1, w)).

Definition bare (vms : list VMItem) : list Item := (λ vm, (vm, noRefs)) <$> vms.

Definition operationPaths : list string := ["kernel"; "image"; "binary"; "network"; "network.leases"; "volumes"].

(** [vm.NewController(vm, repo)] and a method of it. *)
Definition controlled (m : GoM (VMItem * W) error unit) (x : Item) : M (option error * Item) := λ s,
  let '(r, (vm, w)) := m (x.1, s.2) in
  ((match r with Ok _ => None | Err err => Some err end, (vm, x.2)), (s.1, w)).

(** A method of the spawner. *)
Definition spawning (m : GoM (Spawner * W) error unit) (sp : Spawner) : M (result error unit * Spawner) := λ s,
  let '(r, (sp, w)) := m (sp, s.2) in ((r, sp), (s.1, w)).

(** [for _, vm := range vms { results = append(results, ...) }]. *)
Fixpoint eachItem (items : list Item) (body : Item → M OperationResult) : M (list OperationResult) :=
  match items with
  | [] => mret []
  | x :: rest => r ← body x; rs ← eachItem rest body; mret (r :: rs)
  end.

(** The frame of the five operations that move machines between their states. *)
Definition overVMs (failed : Code) (input : VMInput) (body : Item → M OperationResult) : M BatchResult :=
  r ← onWorld (vmi_Resolve parseIPv6 cidrError input);
  match r.2 with
  | Some err =>
      mret (batchOf ((λ ident, opFailed failed ("VM not found: " ++ ident ++ " (" ++ Error err ++ ")") None)
                       <$> vmi_Identifiers input))
  | None =>
      items ← enriched operationPaths (bare r.1);
      results ← eachItem items body;
      mret (batchOf results)
  end.

(** The end of a turn of the loop. *)
Definition reported (verb action failed done past : string) (r : option error * Item) : M OperationResult :=
  match r.1 with
  | Some err => mret (opFailed failed (verb ++ " '" ++ vm_Name r.2.1 ++ "': " ++ Error err) (Some err))
  | None =>
      _ ← onWorld (LogOperation action [("", "name=" ++ vm_Name r.2.1)]);
      mret (opOK done r.2 ("VM '" ++ vm_Name r.2.1 ++ "' " ++ past))
  end.

(** Kill what [Stop] left alive. *)
Definition killLeftover (vm : VMItem) : M unit := λ s,
  ((), (s.1, if (0 <? vm_PID vm)%Z && IsProcessRunning (vm_PID vm) s.2 then KillProcess (vm_PID vm) s.2 else s.2)).

Definition shutdownHelper (pid : option Z) : M unit :=
  match pid with
  | Some pid => onWorld (_ ← GracefulShutdown (ShutdownConfig_ pid false None 1000 1 None); mret ())
  | None => mret ()
  end.

(** *** A new process for a machine *)

(** What the row and its relations must have. *)
Definition respawnRefused (x : Item) : option string :=
  let '(v, r) := x in
  match vr_Network r with
  | None => Some "network info is required for VM respawn"
  | Some _ =>
      if negb (from_option (λ b, negb (bool_decide (bin_Path b = ""))) false (vr_Binary r))
      then Some "binary info is required for VM respawn"
      else if bool_decide (vm_KernelID v = "") || negb (from_option (λ k, negb (bool_decide (krn_Path k = ""))) false (vr_Kernel r))
      then Some "kernel info is required for VM respawn"
      else if bool_decide (vm_RootfsPath v = "") then Some "rootfs path is required for VM respawn"
      else if negb (bool_decide (vm_ImageID v = "")) && negb (bool_decide (is_Some (vr_Image r)))
      then Some "image info is required for VM respawn"
      else None
  end.

(** The bridge, the rules of the machine and its TAP device; all failures are
    logged. *)
Definition respawnNetwork (v : VMItem) (network : NetworkItem) : M unit :=
  if negb (bool_decide (vm_TapDevice v = "")) && negb (bool_decide (nw_Bridge network = "")) then
    _ ← match nw_ComputeBridgeAddress parseIPv6 cidrError (nw_IPv4Gateway network) (nw_Subnet network) with
        | Err _ => mret ()
        | Ok bridgeAddr =>
            _ ← WithBatch tracked (vmNetworkBody tracked network bridgeAddr [vm_TapDevice v]);
            quietly (EnsureTapDevice (vm_TapDevice v) (nw_Bridge network))
        end;
    onWorld (FlushARP (nw_Bridge network))
  else mret ().

(** The configuration of the new process.  No stored machine has an empty image
    id (the column is a foreign key), so the image is there; the source reads it
    without looking. *)
Definition respawnConfig (x : Item) (network : NetworkItem) (snapshotMode : bool) (logLevel fcPIDFilename : string)
    (relayFD : option Z) : FirecrackerConfig :=
  let '(v, r) := x in
  let vmDir := GetVMDirByID (vm_ID v) in
  FirecrackerConfig_ vmDir (vm_RootfsPath v) (from_option bin_Path "" (vr_Binary r)) (from_option krn_Path "" (vr_Kernel r))
    (vm_VCPUCount v) (vm_MemSizeMiB v) (vm_IPv4 v) (vm_MAC v) (vm_TapDevice v) (nw_IPv4Gateway network) ""
    (from_option img_FSUUID "" (vr_Image r)) (from_option img_FSType "" (vr_Image r))
    (vm_BootArgs v) (vm_LSMFlags v) (vm_PCIEnabled v) (vm_NestedVirt v)
    (vm_EnableConsole v) (vm_EnableLogging v) (vm_EnableMetrics v) logLevel (default "" (vm_LogPath v))
    (default "" (vm_SerialOutputPath v)) "" (vm_APISocketPath v) (Path_Join [vmDir; fcPIDFilename]) (vm_ConfigPath v)
    None None None None None None (VolumesToDrives (vr_Volumes r)) relayFD snapshotMode false
    ((λ d, VsockConfig_ (vsk_GuestCID d) (vsk_UDSPath d)) <$> vr_Vsock r).

Definition respawnConsole (v : VMItem) : option ConsoleController :=
  if vm_EnableConsole v
  then Some (console_NewController (vm_ID v) (GetVMDirByID (vm_ID v)) (vm_Name v) (vm_ConsolePIDFilename v) (vm_ConsoleSocketFilename v))
  else None.

(** The error, and the machine as it is then. *)
Definition vmRespawnFirecracker (x : Item) (snapshotMode : bool) : M (option error * Item) :=
  let '(v, r) := x in
  match respawnRefused x, vr_Network r with
  | Some msg, _ => mret (Some (Errorf msg None), x)
  | None, None => mret (None, x)
  | None, Some network =>
      _ ← (λ s, if (0 <? vm_PID v)%Z && IsProcessRunning (vm_PID v) s.2
                then onWorld (_ ← GracefulShutdown (ShutdownConfig_ (vm_PID v) false None 100 50 None); mret ()) s
                else ((), s));
      _ ← respawnNetwork v network;
      logLevel ← onWorld (ConfigString "defaults.firecracker" "log_level");
      fcPIDFilename ← onWorld (ConfigString "defaults.firecracker" "pid_filename");
      let consoleController := respawnConsole v in
      relayFD ← match consoleController with
                | Some c => fd ← attempt (onRepo (CreatePTY c)); mret (match fd with Ok fd => Some fd | Err _ => None end)
                | None => mret None
                end;
      written ← spawning (WriteToFile Abs marshal)
                  (newSpawner (respawnConfig x network snapshotMode logLevel fcPIDFilename relayFD));
      match written.1 with
      | Err err => mret (Some (Errorf ("write firecracker config: " ++ Error err) (Some err)), x)
      | Ok _ =>
          spawned ← spawning Spawn written.2;
          match spawned.1 with
          | Err err => mret (Some err, x)
          | Ok _ =>
              _ ← match consoleController with
                  | Some c => _ ← onWorld (CloseClientFD c); quietly (onRepo (StartRelay c))
                  | None => mret ()
                  end;
              let pid := sp_PID spawned.2 in
              let pst := sp_ProcessStartTime spawned.2 in
              _ ← quietly (onRepo (UpdateProcessInfo (vm_ID v) pid pst));
              let newStatus := if snapshotMode then VMStatusPaused else VMStatusRunning in
              _ ← quietly (onRepo (UpdateStatus (vm_ID v) newStatus));
              mret (None, (vmSetStatus newStatus (vmSetStartTime pst (vmSetPID (default 0%Z pid) v)), r))
          end
      end
  end.

(** *** Starting and stopping *)

Definition VMStart (input : VMInput) : M BatchResult :=
  overVMs "vm.start_failed" input (λ x,
    r ← (if has x.1 VMStatusStopped then vmRespawnFirecracker x false else controlled VMControl.Start x);
    reported "start" "vm.start" "vm.start_failed" "vm.started" "started" r).

Definition VMStop (input : VMInput) : M BatchResult :=
  overVMs "vm.stop_failed" input (λ x,
    r ← controlled (VMControl.Stop (vmi_Force input)) x;
    _ ← killLeftover r.2.1;
    reported "stop" "vm.stop" "vm.stop_failed" "vm.stopped" "stopped" (None, r.2)).

Definition VMReboot (input : VMInput) : M BatchResult :=
  overVMs "vm.reboot_failed" input (λ x,
    stopped ← controlled (VMControl.Stop (vmi_Force input)) x;
    r ← vmRespawnFirecracker stopped.2 false;
    reported "reboot" "vm.reboot" "vm.reboot_failed" "vm.rebooted" "rebooted" r).

Definition VMPause (input : VMInput) : M BatchResult :=
  overVMs "vm.pause_failed" input (λ x,
    r ← controlled VMControl.Pause x;
    reported "pause" "vm.pause" "vm.pause_failed" "vm.paused" "paused" r).

Definition VMResume (input : VMInput) : M BatchResult :=
  overVMs "vm.resume_failed" input (λ x,
    r ← controlled VMControl.Resume x;
    reported "resume" "vm.resume" "vm.resume_failed" "vm.resumed" "resumed" r).

(** *** Removal *)

(** The volumes of the machine that still exist. *)
Fixpoint existingVolumes (ids : list string) : M (list VolumeItem) :=
  match ids with
  | [] => mret []
  | id :: rest =>
      v ← attempt (onRepo (vr_Get id));
      vols ← existingVolumes rest;
      mret (match v with Ok (Some v) => v :: vols | _ => vols end)
  end.

Definition freeVolumes (v : VMItem) : M unit :=
  if bool_decide (vm_VolumeIDs v = []) then mret ()
  else
    vols ← existingVolumes (vm_VolumeIDs v);
    if bool_decide (vols = []) then mret () else quietly (onRepo (SetVolumesState vols VolumeStatusAvailable None)).

(** What is left of the machine on the host and in the other tables. *)
Definition releaseHost (v : VMItem) : M unit :=
  _ ← killLeftover v;
  _ ← shutdownHelper (vm_RelayPID v);
  _ ← match vm_RelaySocketPath v with Some path => quietly (onRepo (RemoveFile path)) | None => mret () end;
  _ ← shutdownHelper (vm_NocloudNetPID v);
  _ ← (if negb (bool_decide (vm_TapDevice v = "")) && negb (bool_decide (vm_NetworkID v = ""))
       then quietly (RemoveTap tracked (vm_TapDevice v) "" (vm_NetworkID v)) else mret ());
  _ ← (if bool_decide (vm_ID v = "") then mret () else quietly (onRepo (LReleaseByVM (vm_ID v))));
  freeVolumes v.

Definition removeVM (force : bool) (x : Item) : M OperationResult :=
  let vmDir := GetVMDirByID (vm_ID x.1) in
  stopped ← controlled (VMControl.Stop force) x;
  let x := stopped.2 in
  _ ← releaseHost x.1;
  _ ← quietly (onRepo (Delete (vm_ID x.1)));
  _ ← (if bool_decide (vmDir = "") then mret () else quietly (onRepo (RemoveAll vmDir)));
  _ ← onWorld (LogOperation "vm.remove" [("name", vm_Name x.1)]);
  mret (opOK "vm.removed" x ("VM '" ++ vm_Name x.1 ++ "' removed")).

Definition VMRemove (input : VMInput) : M BatchResult :=
  allowed ← attempt (onRepo (CheckPrivileges "/usr/sbin/ip" "Remove VM"));
  match allowed with
  | Err err => mret (batchOf [opFailed CodePrivilegeRequired ("Privilege check failed: " ++ Error err) (Some err)])
  | Ok _ =>
      r ← onWorld (vmi_Resolve parseIPv6 cidrError input);
      match r.2 with
      | Some err =>
          mret (batchOf [opFailed CodeVMNotFound ("No VMs found matching the given identifiers: " ++ Error err) None])
      | None =>
          items ← enriched operationPaths (bare r.1);
          if bool_decide (items = []) then
            mret (batchOf [opFailed CodeVMNotFound "No VMs found matching the given identifiers" None])
          else
            let unresolvedCount := (Z.of_nat (length (vmi_Identifiers input)) - Z.of_nat (length items))%Z in
            results ← eachItem items (removeVM (vmi_Force input));
            mret (batchOf ((if (0 <? unresolvedCount)%Z
                            then [opFailed CodeVMNotFound (Itoa unresolvedCount ++ " VM identifier(s) not found") None] else [])
                           ++ results)%list)
      end
  end.

Fixpoint pruneVMs (dryRun includeAll : bool) (vms : list VMItem) (removed : list string) : M (list string) :=
  match vms with
  | [] => mret removed
  | vm :: rest =>
      if (has vm VMStatusRunning || has vm VMStatusStarting) && negb includeAll
      then pruneVMs dryRun includeAll rest removed
      else if dryRun then pruneVMs dryRun includeAll rest (removed ++ [vm_Name vm])
      else
        result ← VMRemove (VMInput_ [vm_Name vm] true);
        if HasErrors result then pruneVMs dryRun includeAll rest removed
        else pruneVMs dryRun includeAll rest (removed ++ [vm_Name vm])
  end.

Definition VMPrune (dryRun includeAll : bool) : ME (list string) :=
  allowed ← try (onRepo (CheckPrivileges "/usr/sbin/ip" "prune VMs"));
  match allowed with
  | Err err => throw (EDomain (WrapMsg CodePrivilegeRequired ("Privilege check failed: " ++ Error err) err
                        [WithClass ClassNeedsInteraction]))
  | Ok _ =>
      allVMs ← try (onRepo ListAll);
      match allVMs with
      | Err err => throw (EDomain (WrapMsg CodeDatabaseError ("Failed to list VMs: " ++ Error err) err []))
      | Ok allVMs => calls (pruneVMs dryRun includeAll allVMs [])
      end
  end.

(** *** Reading *)

Definition VMList (statuses : list string) : M (list Item) :=
  vms ← attempt (onRepo (if bool_decide (statuses = []) then ListAll else ListByStatus statuses));
  match vms with
  | Ok vms => enriched operationPaths (bare vms)
  | Err _ => mret []
  end.

Definition VMGet (input : VMInput) : ME Item :=
  match vmi_Identifiers input with
  | [identifier] =>
      vm ← onRepo (VMResolver.Resolve identifier);
      items ← calls (enriched ["kernel"; "image"; "binary"; "network"; "volumes"] (bare [vm]));
      mret (default (vm, noRefs) (head items))
  | _ => throw (Errorf "expected exactly one VM identifier" None)
  end.

(** [EnrichVM] of one machine, with its error. *)
Definition enrichOne (include : list string) (x : Item) : ME Item := λ s,
  let '(r, (items, w)) := EnrichVM rangeIDs include ([x], s.2) in
  (match r with Ok _ => Ok (default x (head items)) | Err err => Err err end, (s.1, w)).

Definition VMInspect (input : VMInput) : ME VMInspectResult :=
  x ← VMGet input;
  x ← enrichOne ["kernel"; "image"; "binary"; "network"; "volumes"; "vsock"] x;
  let '(vm, r) := x in
  relayRunning ← (λ s, (Ok (from_option (λ pid, IsProcessRunning pid s.2) false (vm_RelayPID vm)), s));
  srcVols ← (if bool_decide (vr_Volumes r = []) && negb (bool_decide (vm_VolumeIDs vm = []))
             then vols ← try (onRepo (vr_FindByIDs (vm_VolumeIDs vm)));
                  mret (match vols with Ok vols => vols | Err _ => vr_Volumes r end)
             else mret (vr_Volumes r));
  mret (VMInspectResult_
    (VMItemInfo_ (vm_Name vm) (vm_ID vm) (vm_Status vm) (vm_PID vm) (vm_ExitCode vm) (vm_SSHKeys vm) (vm_SSHUser vm)
       (vm_CloudInitMode vm) (vm_NocloudNetPort vm) (vm_NocloudNetPID vm) (vm_PCIEnabled vm) (vm_NestedVirt vm)
       (vm_EnableConsole vm) (vm_EnableLogging vm) (vm_EnableMetrics vm) (vm_RemoteExec vm) (vm_CreatedAt vm) (vm_UpdatedAt vm))
    (VMResourcesInfo_ (vm_VCPUCount vm) (vm_MemSizeMiB vm) (vm_DiskSizeMiB vm))
    (VMNetworkingInfo_ (vm_IPv4 vm) (vm_MAC vm) (vr_Network r) (vm_TapDevice vm))
    (VMAssetsInfo_ (vr_Image r) (vr_Kernel r) (vr_Binary r))
    (VMFilesystemInfo_ (GetVMDirByID (vm_ID vm)) (vm_RootfsPath vm)
       (if bool_decide (vm_ConfigPath vm = "") then None else Some (vm_ConfigPath vm)) (vm_LogPath vm) (vm_SerialOutputPath vm))
    (VMConsoleInfo_ relayRunning (vm_RelayPID vm) (vm_RelaySocketPath vm))
    ((λ v, VMVolume_ (vol_ID v) (vol_Name v) (vol_SizeBytes v) (vol_Format v) (vol_Status v)) <$> srcVols)
    (vsockToInspectInfo (vr_Vsock r))).
End Operations.
