(* ===== verification/VolumeAPI.v ===== *)
(** * Operations on volumes: [pkg/api/volume.go, pkg/api/inputs/volume_create.go, volume_input.go]

    The operations of the command line on data disks.  They act on two tables:
    a volume records the machine it is attached to, and a machine lists its
    volumes; a machine that runs is also told through the socket of Firecracker.
    The guest agent, which rescans the bus of the guest, and the table of
    binaries, which tells the version of Firecracker, are the class [GuestEnv].

    A list of volume ids that is nil and one that is empty are the same here. *)

From Stdlib Require Import Ascii.
From stdpp Require Import gmap strings list.
From S2P Require Import Prelude GoStrings Errs Model Inputs Infra Sql System Version Disk Files Resolving Volumes VMRepo VMResolver FcConfig VMControl IPNet Names NetAPI.
#[local] Open Scope string_scope.

Record VolumeCreateInput := VolumeCreateInput_ {
  vlc_Name : string;
  vlc_Size : string;
  vlc_Format : option string;
  vlc_ReadOnly : option bool;
  vlc_Shareable : option bool;
  vlc_Writeback : option bool;
}.

Record ResolvedVolumeCreateInput := ResolvedVolumeCreateInput_ {
  rvc_Name : string;
  rvc_SizeBytes : Z;
  rvc_Format : VolumeFormat;
  rvc_Path : string;
  rvc_IsReadOnly : bool;
  rvc_IsShareable : bool;
  rvc_CacheType : string;
}.

(** The parts of [results.VolumeInspect]; the disk information is what the
    decoder of JSON answers. *)
Record VolumeInspectResult (A : Type) := VolumeInspectResult_ {
  vin_Volume : VolumeItem;
  vin_VMID : option string;
  vin_VMName : string;
  vin_DiskInfo : option A;
}.
Arguments VolumeInspectResult_ {A}.

Class GuestEnv (W : Type) := {
  (** Whether there is a client of the guest agent of the machine. *)
  VsockClient : VMItem → GoM W error bool;
  RescanPCI : VMItem → GoM W error unit;
  RemoveHotpluggedPCIDevice : VMItem → GoM W error unit;
  bin_Get : string → GoM W error (option BinaryItem);
  EnrichVolumes : list VolumeItem → ST W unit;
}.

Definition CacheTypeWriteback : string := "Writeback".
Definition CacheTypeUnsafe : string := "Unsafe".

(** ** Inputs *)

Definition volValidate (i : VolumeCreateInput) : result error unit :=
  if bool_decide (vlc_Name i = "") then Err (Errorf "volume name is required" None)
  else if bool_decide (vlc_Size i = "") then Err (Errorf "volume size is required" None)
  else match vlc_Format i with
       | Some f => if bool_decide (f ≠ "raw") && bool_decide (f ≠ "qcow2")
                   then Err (Errorf ("unsupported format: " ++ f ++ ". Use 'raw' or 'qcow2'") None) else Ok ()
       | None => Ok ()
       end.

Section Operations.
Context {W : Type} `{Repository W} `{VolumeRepository W} `{Files W} `{Runner W}
  `{Firecracker W} `{ConfigManager W} `{OpEnv W} `{GuestEnv W}.
Context (notRun : list string → RunResult → error) (parseIPv6 : string → option IP) (outOfRange : Z)
  (sha256Hex : string → string) (GetVolumesDir : string) (toAny : VolumeItem → any).

#[local] Notation M := (GoM W error).

(** A pure check, in the monad. *)
Definition pure {A} (r : result error A) : M A := λ w, (r, w).

Definition dropped {A} (m : M A) : M unit := _ ← try m; mret ().

(** A method of a controller whose VM is not looked at afterwards. *)
Definition onController {A} (vm : VMItem) (m : GoM (VMItem * W) error A) : M A := λ w,
  let '(r, (_, w')) := m (vm, w) in (r, w').

Definition GetVolumePath (name format : string) : string := Path_Join [GetVolumesDir; name ++ "." ++ format].

Definition vlc_Resolve (i : VolumeCreateInput) : M ResolvedVolumeCreateInput :=
  _ ← pure (volValidate i);
  sizeBytes ← volOr (pure (ParseDiskSize outOfRange (vlc_Size i)))
    (λ err, EDomain (New CodeValidationFailed ("Invalid volume size: " ++ Error err) []));
  let format := default VolumeFormatRaw (vlc_Format i) in
  if negb (bool_decide (format = VolumeFormatRaw)) && negb (bool_decide (format = VolumeFormatQCOW2)) then
    throw (EDomain (New CodeValidationFailed ("Unsupported format: " ++ format ++ ". Use 'raw' or 'qcow2'.") []))
  else
    let result := ResolvedVolumeCreateInput_ (vlc_Name i) sizeBytes format (GetVolumePath (vlc_Name i) format)
      (default false (vlc_ReadOnly i)) (default false (vlc_Shareable i))
      (match vlc_Writeback i with
       | Some true => CacheTypeWriteback | Some false => CacheTypeUnsafe | None => "" end) in
    _ ← volOr (pure (VolumeName parseIPv6 (rvc_Name result)))
      (λ err, EDomain (New CodeValidationFailed (Error err) []));
    existing ← volOr (vr_GetByName (rvc_Name result))
      (λ err, EDomain (New CodeDatabaseError ("Failed to check existing volume: " ++ Error err) []));
    match existing with
    | Some _ => throw (EDomain (AlreadyExists CodeVolumeAlreadyExists ("Volume '" ++ rvc_Name result ++ "' already exists") []))
    | None => mret result
    end.

(** The volumes found, with the error of those that were not. *)
Definition vli_Resolve (i : VolumeInput) : ST W (list VolumeItem * option error) :=
  if bool_decide (vli_Identifiers i = []) then mret ([], Some (Errorf "at least one volume identifier is required" None))
  else
    result ← vol_ResolveMany None None (vli_Identifiers i);
    mret (if bool_decide (rs_Errors result = []) then (rs_Items result, None)
          else if bool_decide (rs_Items result = [])
          then ([], Some (Errorf ("failed to resolve volumes: " ++ Join (rs_Errors result) "; ") None))
          else (rs_Items result, Some (Errorf ("partial resolve failures: " ++ Join (rs_Errors result) "; ") None))).

Definition vli_ResolveVM (i : VolumeInput) : M VMItem :=
  if bool_decide (vli_VMIdentifier i = "") then throw (Errorf "VM identifier is required" None)
  else volOr (VMResolver.Resolve (vli_VMIdentifier i))
         (λ err, EDomain (NotFound CodeVMNotFound ("VM not found: " ++ Error err) [])).

(** The same for callers that stop on an error. *)
Definition vli_ResolveAll (i : VolumeInput) : M (list VolumeItem) :=
  r ← calls (vli_Resolve i);
  let '(volumes, err) := r in
  match err with Some err => throw err | None => mret volumes end.

(** ** [volume.go] *)

Definition VolumeListAll : ST W (list VolumeItem) :=
  r ← attempt vr_ListAll;
  mret (match r with Ok volumes => volumes | Err _ => [] end).

Definition VolumeID (name createdAt : string) : string := sha256Hex (name ++ ":" ++ createdAt).

Definition VolumeCreate (input : VolumeCreateInput) : M VolumeItem :=
  resolved ← vlc_Resolve input;
  cacheType ← (if bool_decide (rvc_CacheType resolved = "") then calls (ConfigString "defaults.volume" "cache_type")
               else mret (rvc_CacheType resolved));
  timestamp ← calls NowRFC3339;
  let volumeItem := VolumeItem_ (VolumeID (rvc_Name resolved) timestamp) (rvc_Name resolved) (rvc_SizeBytes resolved)
    (rvc_Format resolved) (rvc_Path resolved) VolumeStatusAvailable None timestamp timestamp
    (rvc_IsReadOnly resolved) (rvc_IsShareable resolved) cacheType in
  _ ← volOr (CreateDisk notRun volumeItem)
    (λ volErr, EDomain (WrapMsg CodeInternal ("Failed to create volume: " ++ Error volErr) volErr []));
  _ ← calls (LogOperation "volume.create" [("name", vlc_Name input)]);
  mret volumeItem.

(** The row of a machine without one of its volumes. *)
Definition vmSetVolumeIDs (ids : list string) (x : VMItem) : VMItem :=
  VMItem_ (vm_ID x) (vm_Name x) (vm_Status x) (vm_PID x) (vm_IPv4 x)
    (vm_MAC x) (vm_NetworkID x) (vm_TapDevice x) (vm_ImageID x) (vm_KernelID x)
    (vm_BinaryID x) (vm_APISocketPath x) (vm_ConfigPath x) (vm_CloudInitMode x) (vm_VCPUCount x)
    (vm_MemSizeMiB x) (vm_DiskSizeMiB x) (vm_RootfsPath x) (vm_RootfsSuffix x) (vm_PCIEnabled x)
    (vm_NestedVirt x) (vm_RemoteExec x) (vm_EnableLogging x) (vm_EnableMetrics x) (vm_EnableConsole x)
    (vm_CreatedAt x) (vm_UpdatedAt x) (vm_RelaySocketPath x) (vm_ProcessStartTime x) (vm_NocloudNetPort x)
    (vm_NocloudNetPID x) (vm_RelayPID x) (vm_ExitCode x) (vm_LogPath x) (vm_SerialOutputPath x)
    (vm_LSMFlags x) (vm_BootArgs x) (vm_LogLevel x) (vm_LogFilename x) (vm_SerialOutputFilename x)
    (vm_MetricsFilename x) (vm_APISocketFilename x) (vm_PIDFilename x) (vm_ConfigFilename x) (vm_ConsolePIDFilename x)
    (vm_ConsoleSocketFilename x) (vm_SSHKeys x) (vm_SSHUser x) ids (vm_CPUConfig x).

Definition withVolume (id : string) (ids : list string) : list string :=
  if bool_decide (id ∈ ids) then ids else (ids ++ [id])%list.
Definition withoutVolume (id : string) (ids : list string) : list string := filter (λ vid, vid ≠ id) ids.

(** Forget a volume in the machine it is attached to; every failure is dropped. *)
Definition releaseFromVM (vol : VolumeItem) (vmID : string) : M unit :=
  r ← try (Get vmID);
  match r with
  | Ok (Some vmItem) =>
      if bool_decide (vm_VolumeIDs vmItem = []) then mret ()
      else
        let vmItem := vmSetVolumeIDs (withoutVolume (vol_ID vol) (vm_VolumeIDs vmItem)) vmItem in
        _ ← dropped (Upsert vmItem);
        dropped (onController vmItem (DetachVolume (vol_ID vol)))
  | _ => mret ()
  end.

Definition volItem (status code message : string) (vol : option VolumeItem) (exception : option error) : OperationResult :=
  OperationResult_ status code message (toAny <$> vol) exception None None.

(** One volume; the result that is reported. *)
Definition removeVolume (force : bool) (vol : VolumeItem) : M OperationResult :=
  let attached := bool_decide (vol_Status vol = VolumeStatusAttached) in
  if attached && negb (freelyShared vol) && negb force then
    mret (volItem StatusError "volume.remove_failed"
            ("Volume '" ++ vol_Name vol ++ "' is attached to a VM. Use --force to remove anyway.") (Some vol) None)
  else
    _ ← match vol_VMID vol with
        | Some vmID => if attached && force then releaseFromVM vol vmID else mret ()
        | None => mret ()
        end;
    _ ← calls (vol_Remove vol);
    _ ← calls (LogOperation "volume.remove" [("name", vol_Name vol)]);
    mret (volItem StatusSuccess "volume.removed" ("Volume '" ++ vol_Name vol ++ "' removed") (Some vol) None).

Definition batchOf (items : list OperationResult) : BatchResult := BatchResult_ items [] ∅.

(** The loop of a batch. *)
Fixpoint eachResult {A} (l : list A) (f : A → M OperationResult) : M (list OperationResult) :=
  match l with
  | [] => mret []
  | x :: rest => r ← f x; rs ← eachResult rest f; mret (r :: rs)
  end.

Definition VolumeRemove (input : VolumeInput) (force : bool) : M BatchResult :=
  r ← calls (vli_Resolve input);
  let '(volumes, err) := r in
  if bool_decide (volumes = []) then
    mret (batchOf [match err with
                   | Some err => volItem StatusError "volume.not_found" (Error err) None (Some err)
                   | None => volItem StatusError "volume.not_found" "No volumes found matching the given identifiers" None None
                   end])
  else
    _ ← calls (EnrichVolumes volumes);
    items ← eachResult volumes (removeVolume force);
    mret (batchOf items).

(** Without an error there is a volume. *)
Definition VolumeGet (input : VolumeInput) : M VolumeItem :=
  volumes ← vli_ResolveAll input;
  match volumes with
  | [vol] => mret vol
  | vol :: _ => throw (Errorf "Expected exactly one volume identifier" None)
  | [] => mret volZero
  end.

Definition VolumeInspect {A} (unmarshal : string → result error A) (input : VolumeInput) : M (VolumeInspectResult A) :=
  vol ← VolumeGet input;
  diskInfo ← try (GetDiskInfo notRun unmarshal (vol_Path vol));
  vmName ← match vol_VMID vol with
           | Some vmID =>
               if bool_decide (vmID = "") then mret ""
               else (r ← try (Get vmID); mret (match r with Ok (Some vm) => vm_Name vm | _ => "" end))
           | None => mret ""
           end;
  mret (VolumeInspectResult_ vol (vol_VMID vol) vmName (match diskInfo with Ok d => Some d | Err _ => None end)).

Definition VolumeResize (input : VolumeCreateInput) : M unit :=
  volumes ← volOr (vli_ResolveAll (VolumeInput_ [vlc_Name input] ""))
    (λ err, EDomain (WrapMsg CodeVolumeNotFound (Error err) err []));
  let vol := default volZero (head volumes) in
  sizeBytes ← volOr (pure (ParseDiskSize outOfRange (vlc_Size input)))
    (λ err, EDomain (New CodeValidationFailed ("Invalid size: " ++ Error err) []));
  _ ← volOr (ResizeDisk notRun NowRFC3339 vol sizeBytes)
    (λ err, EDomain (WrapMsg CodeVolumeResizeFailed ("Failed to resize volume: " ++ Error err) err []));
  calls (LogOperation "volume.resize" [("name", vol_Name vol)]).

(** *** Attaching and detaching *)

(** The machine and the one volume of the input. *)
Definition theTwo (input : VolumeInput) : M (VMItem * VolumeItem) :=
  vmItem ← vli_ResolveVM input;
  volumes ← volOr (vli_ResolveAll input)
    (λ err, EDomain (NotFound CodeVolumeNotFound ("Volume not found: " ++ Error err) []));
  match volumes with
  | [vol] => mret (vmItem, vol)
  | _ => throw (EDomain (NotFound CodeVolumeNotFound "Expected exactly one volume identifier" []))
  end.

Definition refused (msg : string) : error := EDomain (New CodeVMCreateFailed msg [WithClass ClassValidation]).

(** Refuse a version of Firecracker known to be too old for [feature]. *)
Definition versionGate (vmItem : VMItem) (feature what advice : string) : M unit :=
  if bool_decide (vm_BinaryID vmItem = "") then mret ()
  else
    r ← try (bin_Get (vm_BinaryID vmItem));
    match r with
    | Ok (Some bin) =>
        if bool_decide (bin_Version bin = "") then mret ()
        else if IsAtLeastFor (bin_Version bin) feature then mret ()
        else throw (EDomain (New CodeBinaryVersionGate
               (what ++ " requires Firecracker >= 1.16, got " ++ bin_Version bin ++ ". " ++ advice) []))
    | _ => mret ()
    end.

(** Whether there is a client; the error is logged. *)
Definition guestClient (vmItem : VMItem) : M bool :=
  r ← try (VsockClient vmItem);
  mret (match r with Ok b => b | Err _ => false end).

Definition volumeDrive (vol : VolumeItem) : DriveConfig :=
  DriveConfig_ (vol_ID vol) (vol_Path vol) false (vol_IsReadOnly vol) None (vol_CacheType vol) "Sync" AnyNil None.

Definition hotplug (vmItem : VMItem) (vol : VolumeItem) : M unit :=
  if negb (vm_PCIEnabled vmItem) then
    throw (refused ("PCI is not enabled for VM '" ++ vm_Name vmItem ++ "' — volume hotplug requires PCI access in the guest"))
  else
    _ ← versionGate vmItem FeatureHotplug "Volume hotplug"
          "Use a newer Firecracker binary or attach the volume while the VM is stopped.";
    _ ← volOr (onController vmItem (AttachVolume (volumeDrive vol)))
          (λ err, EDomain (New CodeFirecrackerClientError ("Hotplug failed: " ++ Error err) []));
    client ← guestClient vmItem;
    if client : bool then dropped (RescanPCI vmItem) else mret ().

(** Record the attachment: in the volume, then in the machine; failures are
    logged only. *)
Definition recordAttach (vmItem : VMItem) (vol : VolumeItem) : M unit :=
  _ ← dropped (volctl_Attach vol (vm_ID vmItem));
  dropped (Upsert (vmSetVolumeIDs (withVolume (vol_ID vol) (vm_VolumeIDs vmItem)) vmItem)).

Definition VolumeAttach (input : VolumeInput) : M unit :=
  two ← theTwo input;
  let '(vmItem, vol) := two in
  if bool_decide (vol_Status vol = VolumeStatusAttached) then
    throw (refused ("Volume '" ++ vol_Name vol ++ "' is already attached"))
  else if bool_decide (vol_Status vol ≠ VolumeStatusAvailable) && negb (freelyShared vol) then
    throw (refused ("Volume '" ++ vol_Name vol ++ "' is not available"))
  else
    _ ← (if has vmItem VMStatusRunning then hotplug vmItem vol else mret ());
    _ ← recordAttach vmItem vol;
    calls (LogOperation "vm.attach_volume" [("vm", vm_Name vmItem); ("volume", vol_Name vol)]).

Definition hotUnplug (vmItem : VMItem) (vol : VolumeItem) : M unit :=
  _ ← versionGate vmItem FeatureHotUnplug "Volume hot-unplug"
        "Use a newer Firecracker binary or detach the volume while the VM is stopped.";
  client ← guestClient vmItem;
  _ ← (if client : bool then dropped (RemoveHotpluggedPCIDevice vmItem) else mret ());
  _ ← dropped (onController vmItem (DetachVolume (vol_ID vol)));
  if client : bool then dropped (RescanPCI vmItem) else mret ().

Definition recordDetach (vmItem : VMItem) (vol : VolumeItem) : M unit :=
  _ ← dropped (volctl_Detach vol);
  dropped (Upsert (vmSetVolumeIDs (withoutVolume (vol_ID vol) (vm_VolumeIDs vmItem)) vmItem)).

Definition VolumeDetach (input : VolumeInput) : M unit :=
  two ← theTwo input;
  let '(vmItem, vol) := two in
  _ ← (if has vmItem VMStatusRunning then hotUnplug vmItem vol else mret ());
  _ ← recordDetach vmItem vol;
  calls (LogOperation "vm.detach_volume" [("vm", vm_Name vmItem); ("volume", vol_Name vol)]).
End Operations.
