(* ===== verification/VMCreate.v ===== *)
(** * Creating machines: [VMCreate] of [pkg/api/vm.go]

    [VMCreate] resolves its input once, sets up the bridge and the rules of all
    the TAP devices, and starts a goroutine per machine.  What a goroutine does is
    a resumption ([Resume]) over the builder of its machine and the state all
    share, so that the others, and the goroutine that cleans up when the context
    is cancelled, come in between any two steps; [Batch] is the frame they run in.
    A step is one call of a service or of the host, or one access to the builder.

    The provisioner of root file systems ([lib/provisioner]), the image cache and
    the callback for progress are classes.  Timing logs are left out. *)

From Stdlib Require Import Ascii Lia.
From stdpp Require Import gmap strings list relations pretty.
From S2P Require Import Prelude GoStrings Errs Model Inputs Infra Sql System Resume Batch Disk Config Files Resolving Volumes NetOps Networks FwRepo FwTracker VMRepo VMResolver FcConfig Spawn VMControl IPNet Lease Names NetService NetAPI Assets Enrich CloudInit VMCreateInput VMAPI VolumeAPI.
#[local] Open Scope string_scope.

(** ** Services *)

Record BackendOpts := BackendOpts_ {
  bo_RootfsPath : string;
  bo_FsType : string;
  bo_CacheDir : string;
  bo_ProvisionerType : string;
  bo_RootUID : Z;
  bo_RootGID : Z;
  bo_UserUID : Z;
  bo_UserGID : Z;
}.

(** [provisioner.Backend]: the operations are queued and done by [RunBackend]. *)
Class Provisioning (W : Type) := {
  Backend : Type;
  NewBackend : BackendOpts → GoM W error Backend;
  Resize : Backend → Z → GoM W error unit;
  SetHostname : Backend → string → GoM W error unit;
  InjectDNS : Backend → string → GoM W error unit;
  SetupSSH : Backend → string → list string → GoM W error unit;
  SetupSudo : Backend → string → GoM W error unit;
  DisableCloudInit : Backend → GoM W error unit;
  InjectCloudInit : Backend → string → GoM W error unit;
  Deblob : Backend → string → GoM W error unit;
  FixFstab : Backend → GoM W error unit;
  InjectAgent : Backend → string → Z → string → GoM W error unit;
  RunBackend : Backend → GoM W error unit;
}.

Class CreationEnv (W : Type) := {
  (** Phase, status and message of [event.Progress]. *)
  OnProgress : string → string → string → ST W unit;
  EnsureCached : list ImageItem → GoM W error unit;
  MaterializeTo : string → string → string → GoM W error unit;
  (** The bytes of the embedded agent; empty when there is none. *)
  AgentBinary : ST W string;
  (** [rand.Int] below a bound; [UUIDV4]; the four bytes of a new MAC. *)
  RandomBelow : Z → GoM W error Z;
  UUIDV4 : ST W string;
  MACBytes : ST W (Z * Z * Z * Z);
}.

(** ** The builder *)

Record cloudInitResult := cloudInitResult_ {
  cr_mode : CloudInitMode;
  cr_isoPath : option string;
  cr_nocloudURL : option string;
  cr_nocloudPort : option Z;
  cr_nocloudPID : option Z;
}.

Record VMCreateBuilder := VMCreateBuilder_ {
  b_name : string;
  b_vmID : string;
  b_vmDir : string;
  b_guestIP : string;
  b_guestMAC : string;
  b_tapName : string;
  b_rootfsPath : string;
  b_resolved : ResolvedVMCreateInput;
  b_fcManager : option FirecrackerConfig;
  b_spawner : option Spawner;
  b_relay : option ConsoleController;
  b_cloudInitResult : option cloudInitResult;
  b_resourcesCreated : gset string;
  b_vsockCID : Z;
  b_vsockPort : Z;
  b_vsockUDSPath : string;
  b_vsockToken : string;
}.

(** Assignments to the fields. *)
Definition bSetAddress (ip : string) (b : VMCreateBuilder) : VMCreateBuilder :=
  VMCreateBuilder_
    (b_name b) (b_vmID b) (b_vmDir b) ip (b_guestMAC b) (b_tapName b) (b_rootfsPath b) (b_resolved b)
    (b_fcManager b) (b_spawner b) (b_relay b) (b_cloudInitResult b) (b_resourcesCreated b) (b_vsockCID b)
    (b_vsockPort b) (b_vsockUDSPath b) (b_vsockToken b).
Definition bSetDevice (mac tap : string) (b : VMCreateBuilder) : VMCreateBuilder :=
  VMCreateBuilder_
    (b_name b) (b_vmID b) (b_vmDir b) (b_guestIP b) mac tap (b_rootfsPath b) (b_resolved b) (b_fcManager b)
    (b_spawner b) (b_relay b) (b_cloudInitResult b) (b_resourcesCreated b) (b_vsockCID b) (b_vsockPort b)
    (b_vsockUDSPath b) (b_vsockToken b).
Definition bSetRootfs (path : string) (b : VMCreateBuilder) : VMCreateBuilder :=
  VMCreateBuilder_
    (b_name b) (b_vmID b) (b_vmDir b) (b_guestIP b) (b_guestMAC b) (b_tapName b) path (b_resolved b) (b_fcManager b)
    (b_spawner b) (b_relay b) (b_cloudInitResult b) (b_resourcesCreated b) (b_vsockCID b) (b_vsockPort b)
    (b_vsockUDSPath b) (b_vsockToken b).
Definition bSetManager (c : FirecrackerConfig) (b : VMCreateBuilder) : VMCreateBuilder :=
  VMCreateBuilder_
    (b_name b) (b_vmID b) (b_vmDir b) (b_guestIP b) (b_guestMAC b) (b_tapName b) (b_rootfsPath b) (b_resolved b)
    (Some c) (b_spawner b) (b_relay b) (b_cloudInitResult b) (b_resourcesCreated b) (b_vsockCID b) (b_vsockPort b)
    (b_vsockUDSPath b) (b_vsockToken b).
Definition bSetSpawner (sp : Spawner) (b : VMCreateBuilder) : VMCreateBuilder :=
  VMCreateBuilder_
    (b_name b) (b_vmID b) (b_vmDir b) (b_guestIP b) (b_guestMAC b) (b_tapName b) (b_rootfsPath b) (b_resolved b)
    (b_fcManager b) (Some sp) (b_relay b) (b_cloudInitResult b) (b_resourcesCreated b) (b_vsockCID b)
    (b_vsockPort b) (b_vsockUDSPath b) (b_vsockToken b).
Definition bSetRelay (c : ConsoleController) (b : VMCreateBuilder) : VMCreateBuilder :=
  VMCreateBuilder_
    (b_name b) (b_vmID b) (b_vmDir b) (b_guestIP b) (b_guestMAC b) (b_tapName b) (b_rootfsPath b) (b_resolved b)
    (b_fcManager b) (b_spawner b) (Some c) (b_cloudInitResult b) (b_resourcesCreated b) (b_vsockCID b)
    (b_vsockPort b) (b_vsockUDSPath b) (b_vsockToken b).
Definition bSetCloudInit (r : cloudInitResult) (b : VMCreateBuilder) : VMCreateBuilder :=
  VMCreateBuilder_
    (b_name b) (b_vmID b) (b_vmDir b) (b_guestIP b) (b_guestMAC b) (b_tapName b) (b_rootfsPath b) (b_resolved b)
    (b_fcManager b) (b_spawner b) (b_relay b) (Some r) (b_resourcesCreated b) (b_vsockCID b) (b_vsockPort b)
    (b_vsockUDSPath b) (b_vsockToken b).
Definition bSetVsock (port : Z) (token uds : string) (b : VMCreateBuilder) : VMCreateBuilder :=
  VMCreateBuilder_
    (b_name b) (b_vmID b) (b_vmDir b) (b_guestIP b) (b_guestMAC b) (b_tapName b) (b_rootfsPath b) (b_resolved b)
    (b_fcManager b) (b_spawner b) (b_relay b) (b_cloudInitResult b) (b_resourcesCreated b) (b_vsockCID b) port uds
    token.
Definition bSetCID (cid : Z) (b : VMCreateBuilder) : VMCreateBuilder :=
  VMCreateBuilder_
    (b_name b) (b_vmID b) (b_vmDir b) (b_guestIP b) (b_guestMAC b) (b_tapName b) (b_rootfsPath b) (b_resolved b)
    (b_fcManager b) (b_spawner b) (b_relay b) (b_cloudInitResult b) (b_resourcesCreated b) cid (b_vsockPort b)
    (b_vsockUDSPath b) (b_vsockToken b).
(** [builder.markCreated], [builder.wasCreated]. *)
Definition markCreated (resource : string) (b : VMCreateBuilder) : VMCreateBuilder :=
  VMCreateBuilder_
    (b_name b) (b_vmID b) (b_vmDir b) (b_guestIP b) (b_guestMAC b) (b_tapName b) (b_rootfsPath b) (b_resolved b)
    (b_fcManager b) (b_spawner b) (b_relay b) (b_cloudInitResult b) ({[resource]} ∪ b_resourcesCreated b)
    (b_vsockCID b) (b_vsockPort b) (b_vsockUDSPath b) (b_vsockToken b).
Definition wasCreated (resource : string) (b : VMCreateBuilder) : bool := bool_decide (resource ∈ b_resourcesCreated b).

(** [&VMCreateBuilder{...}]. *)
Definition newBuilder (r : ResolvedVMCreateInput) : VMCreateBuilder :=
  VMCreateBuilder_ (rv_Name r) (rv_VMID r) (rv_VMDir r) "" "" "" "" r None None None None ∅ 0 0 "" "".

Definition fcSetRelayFD (fd : Z) (x : FirecrackerConfig) : FirecrackerConfig :=
  FirecrackerConfig_
    (fc_VMDir x) (fc_RootfsPath x) (fc_BinaryPath x) (fc_KernelPath x) (fc_VCPUCount x) (fc_MemSizeMiB x)
    (fc_GuestIP x) (fc_GuestMAC x) (fc_TapName x) (fc_NetworkGateway x) (fc_NetworkNetmask x) (fc_ImageFSUUID x)
    (fc_ImageFSType x) (fc_BootArgs x) (fc_LSMFlags x) (fc_PCIEnabled x) (fc_NestedVirt x) (fc_EnableConsole x)
    (fc_EnableLogging x) (fc_EnableMetrics x) (fc_LogLevel x) (fc_LogPath x) (fc_SerialOutputPath x)
    (fc_MetricsPath x) (fc_APISocketPath x) (fc_PIDPath x) (fc_ConfigPath x) (fc_CloudInitMode x)
    (fc_CloudInitISOPath x) (fc_CloudInitNoCloudURL x) (fc_CPUConfig x) (fc_CPUVendor x) (fc_CPUArchitecture x)
    (fc_ExtraDrives x) (Some fd) (fc_SnapshotMode x) (fc_Writeback x) (fc_Vsock x).
Definition spSetRelayFD (fd : Z) (sp : Spawner) : Spawner :=
  let g := sp_generator sp in
  spSetGenerator (FirecrackerSpawner_ (fcSetRelayFD fd (FcConfig.config g)) (logPath g) (metricsPath g)) sp.

Definition inDir (b : VMCreateBuilder) (filename : string) : string := Path_Join [b_vmDir b; filename].

Definition buildFirecrackerConfig (b : VMCreateBuilder) : FirecrackerConfig :=
  let r := b_resolved b in
  let ciMode := match cr_mode <$> b_cloudInitResult b with
                | Some mode => if decide (mode = CloudInitModeINJECT ∨ mode = CloudInitModeNET ∨ mode = CloudInitModeISO)
                               then mode else CloudInitModeOFF
                | None => CloudInitModeOFF
                end in
  let vsock := if (0 <? b_vsockCID b)%Z && negb (bool_decide (b_vsockUDSPath b = ""))
               then Some (VsockConfig_ (b_vsockCID b) (b_vsockUDSPath b)) else None in
  FirecrackerConfig_
    (b_vmDir b) (b_rootfsPath b) (bin_Path (rv_Binary r)) (krn_Path (rv_Kernel r)) (rv_VCPUCount r)
    (rv_MemSizeMib r) (b_guestIP b) (b_guestMAC b) (b_tapName b) (nw_IPv4Gateway (rv_Network r))
    (rv_NetworkNetmask r) (img_FSUUID (rv_Image r)) (img_FSType (rv_Image r)) (rv_BootArgs r) (rv_LSMFlags r)
    (rv_PCIEnabled r) (rv_NestedVirt r) (rv_EnableConsole r) (rv_EnableLogging r) (rv_EnableMetrics r)
    (rv_LogLevel r) (inDir b (rv_LogFilename r)) (inDir b (rv_SerialOutputFilename r))
    (inDir b (rv_MetricsFilename r)) (inDir b (rv_APISocketFilename r)) (inDir b (rv_PIDFilename r))
    (inDir b (rv_ConfigFilename r)) (Some ciMode) (b_cloudInitResult b ≫= cr_isoPath)
    (b_cloudInitResult b ≫= cr_nocloudURL) (rv_CPUConfig r) None None (rv_ExtraDrives r) None false (rv_Writeback r)
    vsock.

(** [None] when there is no spawner, or it has no process. *)
Definition toVMModel (b : VMCreateBuilder) (now : string) (relayInfo : option Z * string) : option VMItem :=
  sp ← b_spawner b; pid ← sp_PID sp;
  let r := b_resolved b in
  let '(nocloudPort, nocloudPID) :=
    match b_cloudInitResult b ≫= cr_nocloudPort with
    | Some port => (Some port, b_cloudInitResult b ≫= cr_nocloudPID)
    | None => (rv_NocloudNetPort r, None)
    end in
  let relayPID := relayInfo.1 in
  let relaySocket := if decide (relayInfo.2 = "") then None else Some relayInfo.2 in
  Some (
  VMItem_
    (b_vmID b) (rv_Name r) VMStatusRunning pid (b_guestIP b) (b_guestMAC b) (nw_ID (rv_Network r)) (b_tapName b)
    (img_ID (rv_Image r)) (krn_ID (rv_Kernel r)) (bin_ID (rv_Binary r)) (inDir b (rv_APISocketFilename r))
    (inDir b (rv_ConfigFilename r)) (rv_CloudInitMode r) (rv_VCPUCount r) (rv_MemSizeMib r) (rv_DiskSizeMib r)
    (b_rootfsPath b) (img_FSType (rv_Image r)) (rv_PCIEnabled r) (rv_NestedVirt r) (rv_AllowRemoteExec r)
    (rv_EnableLogging r) (rv_EnableMetrics r) (rv_EnableConsole r) now now relaySocket (sp_ProcessStartTime sp)
    nocloudPort nocloudPID relayPID None (Some (inDir b (rv_LogFilename r)))
    (Some (inDir b (rv_SerialOutputFilename r))) (rv_LSMFlags r) (rv_BootArgs r) "" "" "" "" "" "" "" "" ""
    (key_Name <$> rv_SSHKeys r) (Some (rv_User r)) [] (rv_CPUConfig r)).

Definition GenerateBatchNames (baseName : string) (count : Z) : list string :=
  if decide (count = 1%Z) then [baseName]
  else baseName :: ((λ i, baseName ++ "-" ++ Itoa i) <$> seqZ 2 (count - 1)).

(** The names of a batch differ. *)
Lemma GenerateBatchNames_NoDup base count : NoDup (GenerateBatchNames base count).
Proof.
  unfold GenerateBatchNames. case_decide; [apply NoDup_singleton|]. apply NoDup_cons. split.
  - intros (i & E & _)%list_elem_of_fmap. assert (String.length base = String.length (base ++ "-" ++ Itoa i)) as El by congruence.
    rewrite !length_sapp in El. simpl in El. lia.
  - apply NoDup_fmap_2; [|apply NoDup_seqZ]. intros x y E. apply (inj (String.append base)), (inj (String.append "-")) in E.
    by apply (inj pretty) in E.
Qed.

Section Names.
Context (sha256Hex : string → string).
Definition BatchID (name createdAt : string) : string := stake 16 (sha256Hex (name ++ ":" ++ createdAt)).
Definition VMGenerateTAPName (netName vmName : string) : string := "tap-" ++ stake 8 (sha256Hex (netName ++ ":" ++ vmName)).
End Names.

Definition VMGenerateMAC (prefix : string) (bytes : Z * Z * Z * Z) : string :=
  let '(a, b, c, d) := bytes in
  let prefix := if decide (prefix = "") then "02:FC" else prefix in
  prefix ++ ":" ++ hexByte a ++ ":" ++ hexByte b ++ ":" ++ hexByte c ++ ":" ++ hexByte d.

(** ** The creation of one machine *)
Section Create.
Context {W : Type} `{SettingsRepository W} `{Repository W} `{NetworkRepository W} `{LeaseRepository W} `{ImageRepository W}
  `{KernelRepository W} `{BinaryRepository W} `{KeyRepository W} `{VolumeRepository W} `{VsockRepository W} `{SnapshotRepository W}.
Context `{NetOps W} `{Tracker W} `{firewallRuleRepo W} `{Runner W} `{Host W} `{Firecracker W} `{ConfigManager W} `{Files W} `{Paths W}
  `{Processes W} `{Console W} `{ProcessTable W} `{OpEnv W}.
Context `{TextFiles W} `{Ports W} `{ServiceProcesses W} `{Provisioning W} `{CreationEnv W}.
(** The parameters of the parts that are called. *)
Context (outOfRange : Z) (ParseFloat64 : string → result error float64) (parseMap : string → result error (list (string * value)))
  (ParseDuration : string → result error Z).
Context (parseIPv6 : string → option IP) (formatIPv6 : list Z → string) (cidrError : string → error).
Context (Abs : string → option string) (marshal : FirecrackerVMConfig → result error string).
Context (rangeDirectives : list (string * string)) (parseYAML : string → result error any)
  (marshalYAML : gmap string any → result error string) (decodeUsers : any → result error (list cloudInitUser))
  (encodeUsers : list cloudInitUser → result error (list any)) (bcrypt : string → result error string)
  (render : string → TemplateData → result error string) (preview : string → string) (notStarted : RunResult → bool).
Context (sha256Hex : string → string) (tracked : bool).
(** [op.CacheDir], and the version of this build. *)
Context (CacheDir agentVersion : string).

#[local] Notation S := (FirewallTracker * W)%type.
#[local] Notation T := (VMCreateBuilder * S)%type.
#[local] Notation prog A := (resume T A).
#[local] Notation fallible A := (resume T (result error A)).
#[local] Notation "x ⇐ p ; k" := (orReturn p (λ x, k)) (at level 20, p at level 100, k at level 200, right associativity).

(** One step on the world, one on the builder. *)
Definition onWorldS {A} (m : ST S A) : ST T A := λ x, let '(a, s) := m x.2 in (a, (x.1, s)).
Definition step {A} (m : ST S A) : prog A := call (onWorldS m).
Definition stepW {A} (m : ST W A) : prog A := step (onWorld m).
Definition tryS {A} (m : GoM S error A) : fallible A := step m.
Definition tryW {A} (m : GoM W error A) : fallible A := tryS (onRepo m).
Definition builder : prog VMCreateBuilder := call (λ x, (x.1, x)).
Definition assign (f : VMCreateBuilder → VMCreateBuilder) : prog unit := call (λ x, ((), (f x.1, x.2))).

(** The error of a call, with what was being done. *)
Definition orWrap {A} (what : string) (p : fallible A) : fallible A :=
  r ← p; mret (match r with Ok a => Ok a | Err err => Err (wrapf what err) end).

Definition done_ : fallible unit := mret (Ok ()).

(** A call whose error is logged, and one whose error gives the zero value. *)
Definition logged {A} (p : fallible A) : prog unit := _ ← p; mret ().

(** [emitProgress], with the message of a machine of a batch. *)
Definition emitProgress (label phase status msg : string) : prog unit := stepW (OnProgress phase status (label ++ msg)).

(** *** Services that are not modelled elsewhere *)

(** [readPubKeyFile], [key.Service.GetPubkeys]. *)
Definition readPubKeyFile (path : string) : GoM W error string :=
  gone ← missing path;
  if gone : bool then throw (EDomain (New CodeKeyError ("Public key file not found: " ++ path) []))
  else
    content ← mapErr (λ err, EDomain (New CodeKeyError ("Failed to read public key file: " ++ Error err) [])) (ReadText path);
    if decide (TrimSpace content = "") then throw (EDomain (New CodeKeyError ("Public key file is empty: " ++ path) []))
    else mret (TrimSpace content).

Fixpoint GetPubkeys (keys : list SSHKeyItem) : GoM W error (list string) :=
  match keys with
  | [] => mret []
  | key :: rest => content ← readPubKeyFile (key_PublicKeyPath key); contents ← GetPubkeys rest; mret (content :: contents)
  end.

(** *** [vmBuilderExecute] *)

(** The path is a system limit of Unix sockets. *)
Definition socketTooLong (vmID path : string) : error :=
  Errorf ("VM ID '" ++ vmID ++ "' produces a socket path that is too long (" ++ Itoa (Z.of_nat (String.length path)) ++
          " chars, max 107). This is a system limit for Unix domain sockets. Path: " ++ path) None.

Definition setupNetwork (r : ResolvedVMCreateInput) (tap : string) : fallible string :=
  ip ⇐ (match rv_RequestedGuestIP r with
        | Some ip => orWrap "lease specific ip" (tryW (LeaseSpecific (rv_Network r) ip (rv_VMID r)))
        | None => orWrap "lease ip" (tryW (Lease parseIPv6 formatIPv6 cidrError (rv_Network r) (rv_VMID r)))
        end);
  _ ← assign (bSetAddress ip);
  _ ⇐ orWrap "ensure TAP" (tryS (EnsureTapDevice tap (nw_Bridge (rv_Network r))));
  mret (Ok ip).

Definition cloneImage (r : ResolvedVMCreateInput) : fallible string :=
  let img := rv_Image r in
  let fsType := img_FSType img in
  if decide (fsType = "") then mret (Err (Errorf "fsType is required" None))
  else
    let vmRootfsPath := Path_Join [rv_VMDir r; "rootfs." ++ fsType] in
    _ ⇐ orWrap "ensure cached image" (tryW (EnsureCached [img]));
    _ ⇐ orWrap "materialize image" (tryW (MaterializeTo (img_ID img) fsType vmRootfsPath));
    _ ← assign (bSetRootfs vmRootfsPath);
    mret (Ok vmRootfsPath).

(** The configuration of [cloudinit], with the directory and, in the modes of a
    datasource, the server. *)
Definition ciConfig (r : ResolvedVMCreateInput) (guestIP tap dir : string) (pubkeys : list string) (userPassword : string)
    (url : string) (port pid killAfter : Z) : CloudInit.Config :=
  let net := rv_Network r in
  CloudInit.Config_ (rv_CloudInitMode r) (rv_Name r) (rv_VMID r) (rv_VMDir r) dir (nw_ID net) (nw_Name net) guestIP (rv_User r) tap
    (nw_IPv4Gateway net) (rv_NetworkPrefixLen r) (rv_SkipCINetworkConfig r) pubkeys userPassword (rv_CloudInitISOName r)
    (rv_NocloudPortRangeStart r) (rv_NocloudPortRangeEnd r) (rv_NocloudMaxPortRetries r) (rv_CustomCloudInitConfig r)
    url port pid (rv_NocloudNetPort r) (rv_CloudInitISOPath r) (rv_KeepCloudInitISO r) killAfter.

Definition provision (c : CloudInit.Config) : fallible CloudInitResult :=
  tryS (Provision rangeDirectives parseYAML marshalYAML decodeUsers encodeUsers bcrypt render preview notStarted tracked c).

(** The seed of the first boot: the marker and what the mode answers. *)
Definition provisionSeed (r : ResolvedVMCreateInput) (backend : Backend) (guestIP tap : string) (pubkeys : list string)
    (userPassword : string) : fallible (string * option cloudInitResult) :=
  let mode := rv_CloudInitMode r in
  let ownDir := Path_Join [rv_VMDir r; "cloud-init"] in
  if decide (mode = CloudInitModeOFF) then
    _ ⇐ orWrap "disable cloud-init" (tryW (DisableCloudInit backend));
    mret (Ok ("cloud-init-off", None))
  else if decide (mode = CloudInitModeINJECT) then
    res ⇐ orWrap "cloud-init inject provisioning failed" (provision (ciConfig r guestIP tap ownDir pubkeys userPassword "" 0 0 0));
    _ ⇐ orWrap "inject cloud-init" (tryW (InjectCloudInit backend ownDir));
    mret (Ok ("cloud-init-inject", Some (cloudInitResult_ (cres_Mode res) None None None None)))
  else if decide (mode = CloudInitModeISO ∨ mode = CloudInitModeNET) then
    let shared := bool_decide (mode = CloudInitModeNET) && negb (bool_decide (rv_NoCloudSharedDir r = "")) in
    let dir := if shared then Path_Join [rv_NoCloudSharedDir r; guestIP] else ownDir in
    let url := if shared then serverURL (nw_IPv4Gateway (rv_Network r)) (rv_NoCloudPort r) (guestIP ++ "/") else rv_NoCloudURL r in
    res ⇐ orWrap "cloud-init provisioning failed"
            (provision (ciConfig r guestIP tap dir pubkeys userPassword url (rv_NoCloudPort r) (rv_NoCloudPID r) (rv_NoCloudKillAfter r)));
    mret (Ok (if decide (mode = CloudInitModeISO) then "cloud-init-iso" else "cloud-init-net",
              Some (cloudInitResult_ (cres_Mode res) (cres_ISOPath res) (cres_NocloudURL res) (Some (cres_NocloudPort res)) (cres_NocloudPID res))))
  else mret (Ok ("", None)).

(** What the modes without a datasource put into the root file system. *)
Definition setupGuest (r : ResolvedVMCreateInput) (backend : Backend) (pubkeys : list string) : fallible unit :=
  if decide (rv_CloudInitMode r = CloudInitModeOFF ∨ rv_CloudInitMode r = CloudInitModeINJECT) then
    _ ⇐ orWrap "set hostname" (tryW (SetHostname backend (rv_Name r)));
    _ ⇐ orWrap "inject DNS" (tryW (InjectDNS backend (rv_DNSServer r)));
    _ ⇐ orWrap "setup SSH" (tryW (SetupSSH backend (rv_User r) pubkeys));
    orWrap "setup sudo" (tryW (SetupSudo backend (rv_User r)))
  else done_.

(** The agent of the guest, when the machine has a vsock port. *)
Definition injectAgent (r : ResolvedVMCreateInput) (backend : Backend) : fallible unit :=
  if (0 <? rv_VsockPort r)%Z then
    token ← stepW UUIDV4;
    _ ← assign (bSetVsock (rv_VsockPort r) token (Path_Join [rv_VMDir r; rv_VsockFilename r]));
    agent ← stepW AgentBinary;
    if decide (agent = "") then done_
    else orWrap "inject agent" (tryW (InjectAgent backend agent (rv_VsockPort r) token))
  else done_.

Definition provisionRootfs (r : ResolvedVMCreateInput) (rootfsPath guestIP tap : string) : fallible (string * option cloudInitResult) :=
  backend ⇐ orWrap "failed to create VM provisioner" (tryW (NewBackend (BackendOpts_ rootfsPath (img_FSType (rv_Image r)) CacheDir
    (rv_Provisioner r) (rv_RootUID r) (rv_RootGID r) (rv_UserUID r) (rv_UserGID r))));
  _ ⇐ orWrap "resize rootfs" (tryW (Resize backend (rv_DiskSizeBytes r)));
  pubkeys ← tryW (GetPubkeys (rv_SSHKeys r));
  let pubkeys := match pubkeys with Ok l => l | Err _ => [] end in
  userPassword ← tryW (GetString outOfRange ParseFloat64 parseMap "defaults.vm" "user_password");
  let userPassword := match userPassword with Ok p => p | Err _ => "" end in
  _ ⇐ setupGuest r backend pubkeys;
  seed ⇐ provisionSeed r backend guestIP tap pubkeys userPassword;
  _ ⇐ (if rv_SkipDeblob r then done_ else orWrap "deblob rootfs" (tryW (Deblob backend (img_Distro (rv_Image r)))));
  _ ⇐ orWrap "fix fstab" (tryW (FixFstab backend));
  _ ⇐ injectAgent r backend;
  _ ⇐ orWrap "provision VM rootfs" (tryW (RunBackend backend));
  mret (Ok seed).

(** A method of the spawner, which only this goroutine has. *)
Definition withSpawner {A} (m : GoM (Spawner * W) error A) (sp : Spawner) : prog (result error A * Spawner) :=
  step (λ s : S, let '(r, (sp, w)) := m (sp, s.2) in ((r, sp), (s.1, w))).

(** The console before the process starts: its relay, and the end of the
    terminal for the process. *)
Definition createConsole (r : ResolvedVMCreateInput) (sp : Spawner) : fallible (option ConsoleController * Spawner) :=
  if rv_EnableConsole r then
    let c := console_NewController (rv_VMID r) (rv_VMDir r) (rv_Name r) (rv_ConsolePIDFilename r) (rv_ConsoleSocketFilename r) in
    fd ⇐ orWrap "console PTY creation failed" (tryW (CreatePTY c));
    _ ← assign (bSetRelay c);
    mret (Ok (Some c, spSetRelayFD fd sp))
  else mret (Ok (None, sp)).

(** Whether a relay of the console was started. *)
Definition startFirecracker (r : ResolvedVMCreateInput) : fallible bool :=
  b ← builder;
  let sp := newSpawner (buildFirecrackerConfig b) in
  _ ← assign (bSetManager (buildFirecrackerConfig b));
  written ← withSpawner (WriteToFile Abs marshal) sp;
  _ ⇐ orWrap "write firecracker config" (mret written.1);
  console ⇐ createConsole r written.2;
  spawned ← withSpawner Spawn console.2;
  _ ⇐ orWrap "failed to spawn Firecracker" (mret spawned.1);
  _ ← assign (bSetSpawner spawned.2);
  match console.1 with
  | Some c =>
      _ ← stepW (CloseClientFD c);
      _ ⇐ orWrap "console relay start failed" (tryW (StartRelay c));
      mret (Ok true)
  | None => mret (Ok false)
  end.

Definition vmBuilderExecute (label : string) (r : ResolvedVMCreateInput) : fallible unit :=
  let emit := emitProgress label in
  let apiSocketPath := Path_Join [rv_VMDir r; rv_APISocketFilename r] in
  if (108 <=? String.length apiSocketPath)%nat then mret (Err (socketTooLong (rv_VMID r) apiSocketPath))
  else
    mac ← (match rv_RequestedGuestMAC r with
           | Some mac => mret mac
           | None => bytes ← stepW MACBytes; mret (VMGenerateMAC (rv_GuestMACPrefix r) bytes)
           end : prog string);
    let tap := VMGenerateTAPName sha256Hex (nw_Name (rv_Network r)) (rv_Name r) in
    _ ← assign (bSetDevice mac tap);
    _ ⇐ orWrap "create vm directory" (tryW (Files.MkdirAll (rv_VMDir r)));
    _ ← assign (markCreated "vm_dir");
    _ ← emit "network" "running" "Configuring network...";
    guestIP ⇐ setupNetwork r tap;
    _ ← assign (markCreated "network_tap");
    _ ← stepW (FlushARP (nw_Bridge (rv_Network r)));
    _ ← emit "rootfs" "running" "Copying root filesystem...";
    rootfsPath ⇐ cloneImage r;
    _ ← assign (markCreated "rootfs");
    _ ← emit "cloud-init" "running" "Provisioning cloud-init...";
    seed ⇐ provisionRootfs r rootfsPath guestIP tap;
    _ ← (if decide (seed.1 = "") then mret () else assign (markCreated seed.1) : prog unit);
    _ ← (match seed.2 with Some res => assign (bSetCloudInit res) | None => mret () end : prog unit);
    _ ⇐ (if (0 <? rv_VsockPort r)%Z then cid ⇐ tryW (AllocateCID RandomBelow); _ ← assign (bSetCID cid); done_ else done_);
    _ ← emit "firecracker" "running" "Starting Firecracker microVM...";
    relayUp ⇐ startFirecracker r;
    _ ← assign (markCreated "firecracker");
    _ ← (if relayUp : bool then assign (markCreated "console_relay") else mret () : prog unit);
    _ ← emit "complete" "complete" "VM created successfully";
    done_.

(** *** [vmBuilderCleanup]: it reads the builder as it finds it *)

Definition vmBuilderCleanup : prog unit :=
  b ← builder;
  if decide (b_vmDir b = "") then mret ()
  else
    let r := b_resolved b in
    _ ← (if wasCreated "network_tap" b && negb (bool_decide (b_tapName b = "")) then
           _ ← logged (tryS (RemoveTap tracked (b_tapName b) (nw_Bridge (rv_Network r)) (nw_ID (rv_Network r))));
           logged (tryW (LReleaseByVM (b_vmID b)))
         else mret ());
    b ← builder;
    _ ← (match b_relay b with
         | Some c => if wasCreated "console_relay" b then stepW (CleanupRelay c) else mret ()
         | None => mret ()
         end);
    b ← builder;
    _ ← (match b_fcManager b with
         | Some c => if wasCreated "firecracker" b
                     then logged (step (λ s : S, let '(a, (_, w)) := Spawn.Cleanup (Frame_ (newSpawner c) None None, s.2) in (a, (s.1, w))))
                     else mret ()
         | None => mret ()
         end);
    b ← builder;
    if wasCreated "vm_dir" b then logged (tryW (RemoveAll (b_vmDir b))) else mret ().

(** *** What follows the steps *)

Definition relayInfo (b : VMCreateBuilder) : prog (option Z * string) :=
  match b_relay b with
  | Some c => pid ← stepW (RelayGetPID c); socket ← stepW (RelaySocket c); mret (pid, socket)
  | None => mret (None, "")
  end.

Definition saveMachine : fallible VMItem :=
  b ← builder;
  now ← stepW NowRFC3339;
  info ← relayInfo b;
  match toVMModel b now info with
  | None => mret (Err (Errorf (match b_spawner b with
                               | None => "firecracker spawner is not set in context"
                               | Some _ => "failed to spawn firecracker process"
                               end) None))
  | Some vm =>
      _ ⇐ orWrap "upsert VM" (tryW (Upsert vm));
      _ ← (if (0 <? b_vsockCID b)%Z && negb (bool_decide (b_vsockToken b = ""))
           then logged (tryW (PersistConfig RandomBelow NowRFC3339 sha256Hex agentVersion (b_vsockCID b) (b_vmID b) (b_name b)
                                (b_vsockUDSPath b) (b_vsockPort b) (b_vsockToken b)))
           else mret ());
      mret (Ok vm)
  end.

(** The volumes of the machine, and the audit log. *)
Definition publishMachine (r : ResolvedVMCreateInput) (vm : VMItem) : prog VMItem :=
  vm ← (if decide (rv_Volumes r = []) then mret vm
        else
          _ ← logged (tryW (SetVolumesState (rv_Volumes r) VolumeStatusAttached (Some (vm_ID vm))));
          let vm := vmSetVolumeIDs (vol_ID <$> rv_Volumes r) vm in
          _ ← logged (tryW (Upsert vm));
          mret vm);
  _ ← stepW (LogOperation "vm.create" [("", "name=" ++ rv_Name r)]);
  mret vm.

Definition creation (label : string) (r : ResolvedVMCreateInput) : job (B := VMCreateBuilder) (S := S) (V := VMItem) :=
  Job_ (newBuilder r) (vmBuilderExecute label r) saveMachine vmBuilderCleanup (rv_SkipCleanup r) (publishMachine r).

(** *** [VMCreate] *)

(** The order of Go's maps and of [sort.Slice]; where machines and the batches of
    the server are kept; a machine in a result; the decoders of JSON. *)
Context (rangeIDs : gset string → list string)
  (sortSlice : (BinaryItem → BinaryItem → bool) → list BinaryItem → list BinaryItem).
Context (VmsDir NoCloudDir ProvisionerType : string) (toAny : VMItem * VMRefs → any).
Context (parseJSON : string → result error any) (cpuConfigOf : gmap string any → option CpuConfig).

#[local] Notation ME := (GoM S error).

Definition batchCount (i : VMCreateInput) : Z :=
  match vci_Count i with Some n => if (1 <? n)%Z then n else 1%Z | None => 1%Z end.

Definition batchNames (i : VMCreateInput) : list string := GenerateBatchNames (vci_Name i) (batchCount i).

(** One server for the machines of a batch in NET mode. *)
Definition shareServer (name : string) (r : ResolvedVMCreateInput) : ME ResolvedVMCreateInput :=
  if negb (bool_decide (rv_CloudInitMode r = CloudInitModeNET)) then mret r
  else
    now ← calls (onWorld NowRFC3339);
    let batchID := BatchID sha256Hex name now in
    let nocloudDir := Path_Join [NoCloudDir; batchID] in
    let gateway := nw_IPv4Gateway (rv_Network r) in
    _ ← orElse (onRepo (Files.MkdirAll nocloudDir)) (wrapf "create nocloud batch directory");
    freePort ← (match positive (rv_NocloudNetPort r) with
                | Some port => mret port
                | None => orElse (onRepo (FindFreePort gateway (rv_NocloudPortRangeStart r) (rv_NocloudPortRangeEnd r)))
                            (wrapf "find free port for nocloud server")
                end);
    server ← orElse (onRepo (SpawnServer (ServerConfig_ nocloudDir "" freePort gateway
                                            (Path_Join [NoCloudDir; batchID ++ ".log"]) (rv_NoCloudKillAfter r))))
               (wrapf "spawn nocloud server");
    mret (rvSetNoCloud (sr_URL server) (sr_Port server) (sr_PID server) nocloudDir r).

(** Up to the goroutines: the input they share. *)
Definition prepareBatch (i : VMCreateInput) : ME ResolvedVMCreateInput :=
  _ ← orElse (onRepo (CheckPrivileges "/usr/sbin/ip" "create VMs"))
        (λ err, EDomain (WrapMsg CodePrivilegeRequired ("Privilege check failed: " ++ Error err) err [WithClass ClassNeedsInteraction]));
  let names := batchNames i in
  existing ← orElse (onRepo (NamesExist names))
               (λ err, EDomain (WrapMsg CodeDatabaseError ("Failed to check name collisions: " ++ Error err) err []));
  if negb (bool_decide (existing = [])) then
    throw (EDomain (New CodeVMNameCollision ("VM name(s) already exist: " ++ Join existing ", ") []))
  else
    now ← calls (onWorld NowRFC3339);
    let vmID := VMID sha256Hex (vci_Name i) now in
    resolved ← onRepo (vci_Resolve outOfRange ParseFloat64 parseMap ParseDuration sortSlice parseIPv6 formatIPv6 cidrError
                         parseJSON cpuConfigOf vmID (GetVMDirByID VmsDir vmID) i);
    let shared := rvSetProvisioner ProvisionerType resolved in
    let network := rv_Network shared in
    bridgeAddr ← orElse (checked (nw_ComputeBridgeAddress parseIPv6 cidrError (nw_IPv4Gateway network) (nw_Subnet network)))
                   (wrapf "compute bridge address");
    _ ← vmNetworkSetup tracked network bridgeAddr (VMGenerateTAPName sha256Hex (nw_Name network) <$> names);
    shareServer (vci_Name i) shared.

(** The prefix of the messages of one machine. *)
Definition batchLabel (count : Z) (k : nat) (name : string) : string :=
  if (1 <? count)%Z then "[" ++ Itoa (Z.of_nat k + 1) ++ "/" ++ Itoa count ++ "] " ++ name ++ ": " else "".

(** The input of each machine; [times] are the instants at which the goroutines
    read the clock. *)
Definition machineInputs (i : VMCreateInput) (shared : ResolvedVMCreateInput) (times : list string) : list ResolvedVMCreateInput :=
  zip_with (λ name time, let vmID := VMID sha256Hex name time in CloneVMInput name vmID (GetVMDirByID VmsDir vmID) shared)
    (batchNames i) times.

Definition creations (i : VMCreateInput) (shared : ResolvedVMCreateInput) (times : list string) : list job :=
  imap (λ k r, creation (batchLabel (batchCount i) k (rv_Name r)) r) (machineInputs i shared times).

Definition cancelledBySignal : error := Errorf "vm creation cancelled by signal" None.

(** What the collector has: the machines, and the texts of the errors. *)
Definition createdVMs (received : list (nat * result error VMItem)) : list VMItem :=
  omap (λ x : nat * result error VMItem, match x.2 with Ok vm => Some vm | Err _ => None end) received.
Lemma createdVMs_elem received vm : vm ∈ createdVMs received ↔ ∃ i, (i, Ok vm) ∈ received.
Proof.
  unfold createdVMs. rewrite list_elem_of_omap. split.
  - intros ([i [v|e]] & Hin & E); simplify_eq/=. by exists i.
  - intros [i Hin]. by exists (i, Ok vm).
Qed.

Definition createErrors (names : list string) (received : list (nat * result error VMItem)) : list string :=
  omap (λ x : nat * result error VMItem,
          match x.2 with Ok _ => None | Err err => Some (default "" (names !! x.1) ++ ": " ++ Error err) end) received.

(** The rollback of an atomic batch: the result of each removal is dropped. *)
Fixpoint rollback (vms : list VMItem) : ST S unit :=
  match vms with
  | [] => mret ()
  | vm :: rest =>
      _ ← VMRemove tracked rangeIDs parseIPv6 cidrError VmsDir toAny (VMInput_ [vm_Name vm] true);
      rollback rest
  end.

Definition concludeBatch (i : VMCreateInput) (received : list (nat * result error VMItem)) : ME (list VMItem) :=
  let vms := createdVMs received in
  let errors := createErrors (batchNames i) received in
  if vci_Atomic i && negb (bool_decide (errors = [])) && negb (bool_decide (vms = [])) then
    _ ← calls (rollback vms);
    throw (EDomain (New CodeVMAtomicFailed ("Atomic creation failed: " ++ Join errors "; " ++ ". All " ++
             Itoa (Z.of_nat (length vms)) ++ " created VMs have been removed.") []))
  else if negb (bool_decide (errors = [])) && bool_decide (vms = []) then
    throw (EDomain (New CodeVMCreateFailure (Join errors "; ") []))
  else mret vms.

Lemma concludeBatch_plain i received s r s' :
  vci_Atomic i = false → concludeBatch i received s = (r, s') →
  s' = s ∧ match r with Ok vms => vms = createdVMs received | Err _ => createdVMs received = [] end.
Proof.
  intros Ha. unfold concludeBatch. rewrite Ha. cbn [andb].
  destruct (negb _ && _) eqn:E; [|by intros [= <- <-]]. apply andb_true_iff in E as [_ E%bool_decide_eq_true_1]. by intros [= <- <-].
Qed.

(** A run of the operation: its answer depends on the schedule. *)
Inductive VMCreate (i : VMCreateInput) (s : S) : result error (list VMItem) → S → Prop :=
  | VMCreate_refused err s' : prepareBatch i s = (Err err, s') → VMCreate i s (Err err) s'
  | VMCreate_run shared s1 times b r s' :
      prepareBatch i s = (Ok shared, s1) →
      length times = length (batchNames i) →
      let jobs := creations i shared times in
      rtc (bstep jobs cancelledBySignal (vci_Atomic i)) (begin jobs s1) b →
      collected jobs b →
      concludeBatch i (bt_received b) (bt_state b) = (r, s') →
      VMCreate i s r s'.
End Create.
