(* ===== verification/SnapshotAPI.v ===== *)
(** * Operations on snapshots: [pkg/api/snapshot.go], [pkg/api/inputs/snapshot.go]

    A snapshot of a machine is a directory (a copy of the root file system and,
    for a machine that has a process, what Firecracker writes) and a row.
    Restoring one creates machines from it, one after the other.  A restoration
    that stops early has its own outcomes ([stop]): some failures remove the
    machines made so far and some do not, and an image that is gone ends the
    process. *)

From Stdlib Require Import Ascii.
From stdpp Require Import gmap strings list.
From S2P Require Import Prelude GoStrings Errs Model Inputs Infra Sql System Disk Config Files Resolving Volumes FwRepo FwTracker NetOps Networks VMRepo VMResolver FcConfig Spawn VMControl IPNet Lease Names NetService NetAPI Assets Enrich CloudInit VMCreateInput VMAPI VMCreate.
#[local] Open Scope string_scope.

(** ** Files *)

(** The two ways to copy a file, [fdatasync] of a file, links, and [flock] on a
    file that is made if need be ([None] when it cannot be opened). *)
Class SnapshotFiles (W : Type) := {
  copyViaSendfile : string → string → GoM W error unit;
  copyViaIO : string → string → GoM W error unit;
  OpenFile : string → GoM W error Z;
  Fdatasync : Z → GoM W error unit;
  CloseFile : Z → GoM W error unit;
  Symlink : string → string → GoM W error unit;
  LockFile : string → ST W (option Z);
  UnlockFile : Z → ST W unit;
}.

(** ** Inputs *)

Record SnapshotCreateInput := SnapshotCreateInput_ {
  sci_Identifier : string;
  sci_Name : option string;
  sci_Pause : bool;
}.

Record SnapshotRestoreInput := SnapshotRestoreInput_ {
  sri_SnapshotID : string;
  sri_Name : string;
  sri_Count : Z;
  sri_Network : option string;
  sri_Resume : bool;
}.

Definition sci_Validate (i : SnapshotCreateInput) : result error unit :=
  if decide (sci_Identifier i = "") then Err (Errorf "VM identifier is required" None) else Ok ().

Definition sri_Validate (i : SnapshotRestoreInput) : result error unit :=
  if decide (sri_SnapshotID i = "") then Err (Errorf "snapshot identifier is required" None)
  else if decide (sri_Name i = "") then Err (Errorf "VM name is required" None)
  else if (sri_Count i <? 1)%Z then Err (Errorf "count must be at least 1" None)
  else Ok ().

Definition sni_Validate (i : SnapshotInput) : result error unit :=
  if decide (sni_Identifiers i = []) then Err (Errorf "at least one snapshot identifier is required" None) else Ok ().

Section Input.
Context {W : Type} `{Repository W} `{NetworkRepository W} `{SnapshotRepository W}.
#[local] Notation M := (GoM W error).

Definition sci_Resolve (i : SnapshotCreateInput) : M VMItem :=
  _ ← (λ w, (sci_Validate i, w)); VMResolver.Resolve (sci_Identifier i).

Definition ResolveSnapshot (i : SnapshotRestoreInput) : M SnapshotItem :=
  _ ← (λ w, (sri_Validate i, w)); snap_Resolve (sri_SnapshotID i).

(** The network asked for, if any. *)
Definition networkOverride (i : SnapshotRestoreInput) : option string :=
  match sri_Network i with Some n => if decide (n = "") then None else Some n | None => None end.

Definition ResolveNetwork (i : SnapshotRestoreInput) : M (option NetworkItem) :=
  match networkOverride i with
  | None => mret None
  | Some n => net ← nw_Resolve [] None n false; mret (Some net)
  end.

(** The snapshots found, with the error of those that were not. *)
Definition sni_Resolve (i : SnapshotInput) : ST W (list SnapshotItem * option error) :=
  match sni_Validate i with
  | Err err => mret ([], Some err)
  | Ok _ =>
      r ← snap_ResolveMany (sni_Identifiers i);
      mret (if decide (rs_Errors r = []) then (rs_Items r, None)
            else if decide (rs_Items r = []) then
              ([], Some (Errorf ("failed to resolve snapshots: " ++ Join (rs_Errors r) "; ") None))
            else (rs_Items r, Some (Errorf ("partial resolve failures: " ++ Join (rs_Errors r) "; ") None)))
  end.
End Input.

(** ** Results *)

Record SnapshotItemInfo := SnapshotItemInfo_ {
  sii_ID : string; sii_Name : string; sii_SourceVMID : string; sii_SourceVMName : string; sii_BaseDir : string; sii_CreatedAt : string }.
Record SnapshotAssetsInfo := SnapshotAssetsInfo_ {
  sai_Image : option ImageItem; sai_Kernel : option KernelItem; sai_Network : option NetworkItem; sai_Binary : option BinaryItem }.
Record SnapshotResourcesInfo := SnapshotResourcesInfo_ { sre_VCPU : Z; sre_Mem : Z; sre_Disk : Z }.
Record SnapshotInspectResult := SnapshotInspectResult_ {
  si_Snapshot : SnapshotItemInfo;
  si_Assets : SnapshotAssetsInfo;
  si_Resources : SnapshotResourcesInfo;
}.

(** How the restoration of one machine ends the operation: whether the machines
    made before it are removed, and the error; or a nil dereference. *)
Inductive stop :=
  | Stop (undo : bool) (err : error)
  | NilImage.

(** What a restoration answers, when it answers. *)
Inductive restoration :=
  | Returned (vms : list (VMItem * VMRefs)) (err : option error)
  | Panicked.

(** ** Operations *)
Section Operations.
Context {W : Type} `{SettingsRepository W} `{Repository W} `{NetworkRepository W} `{LeaseRepository W} `{ImageRepository W}
  `{KernelRepository W} `{BinaryRepository W} `{VolumeRepository W} `{VsockRepository W} `{SnapshotRepository W}.
Context `{NetOps W} `{Tracker W} `{firewallRuleRepo W} `{Runner W} `{Host W} `{Firecracker W} `{ConfigManager W} `{Files W}
  `{Processes W} `{Console W} `{ProcessTable W} `{OpEnv W} `{Provisioning W} `{CreationEnv W} `{SnapshotFiles W}.
Context (outOfRange : Z) (ParseFloat64 : string → result error float64) (parseMap : string → result error (list (string * value))).
Context (tracked : bool) (rangeIDs : gset string → list string).
Context (parseIPv6 : string → option IP) (formatIPv6 : list Z → string) (cidrError : string → error).
Context (Abs : string → option string) (marshal : FirecrackerVMConfig → result error string).
Context (sha256Hex : string → string) (CacheDir VmsDir agentVersion : string) (toAny : SnapshotItem * SnapshotRefs → any).

#[local] Notation S := (FirewallTracker * W)%type.
#[local] Notation M := (ST S).
#[local] Notation ME := (GoM S error).
#[local] Notation Item := (VMItem * VMRefs)%type.
#[local] Notation SItem := (SnapshotItem * SnapshotRefs)%type.

Definition SnapshotID (sourceVMID createdAt : string) : string := sha256Hex (sourceVMID ++ ":" ++ createdAt).

Definition snapshotDirPath (id : string) : string := Path_Join [CacheDir; "snapshots"; id].
(** The directory is made on the way, and a failure to make it is logged. *)
Definition GetSnapshotDir (id : string) : M string :=
  _ ← quietly (onRepo (Files.MkdirAll (snapshotDirPath id))); mret (snapshotDirPath id).

(** [infra.CopyFile]. *)
Definition CopyFile (src dst : string) : GoM W error unit :=
  sent ← try (copyViaSendfile src dst);
  _ ← (match sent with
       | Ok _ => mret ()
       | Err err =>
           copied ← try (copyViaIO src dst);
           match copied with
           | Ok _ => mret ()
           | Err ioErr => throw (Errorf ("all copy methods failed: sendfile=" ++ Error err ++ ", io.Copy=" ++ Error ioErr) None)
           end
       end);
  f ← mapErr (wrapf "open for fdatasync") (OpenFile dst);
  synced ← try (Fdatasync f);
  match synced with
  | Err err => _ ← try (CloseFile f); throw (wrapf "fdatasync failed" err)
  | Ok _ => CloseFile f
  end.

Definition progress (phase status msg : string) : ME unit := calls (onWorld (OnProgress phase status msg)).
(** A setting whose error is dropped. *)
Definition setting {E} (category key : string) : GoM S E string :=
  r ← calls (attempt (onRepo (cfgString outOfRange ParseFloat64 parseMap category key)));
  mret (match r with Ok v => v | Err _ => "" end).

Definition createFailed (msg : string) (err : error) : error := EDomain (WrapMsg CodeSnapshotCreateFailed msg err []).
Definition restoreFailed (msg : string) (err : error) : error := EDomain (WrapMsg CodeSnapshotRestoreFailed msg err []).
Definition privilegeFailed (err : error) : error :=
  EDomain (WrapMsg CodePrivilegeRequired ("privilege check failed: " ++ Error err) err [WithClass ClassNeedsInteraction]).

(** *** Creation *)

(** The settings of a machine that its snapshot keeps. *)
Definition extraConfig (x : Item) : SnapshotExtraConfig :=
  let v := x.1 in
  let '(port, cid, token) := match vr_Vsock x.2 with Some d => (vsk_Port d, vsk_GuestCID d, vsk_Token d) | None => (0%Z, 0%Z, "") end in
  SnapshotExtraConfig_ (vm_BootArgs v) (vm_LSMFlags v) (vm_PCIEnabled v) (vm_NestedVirt v) (vm_EnableConsole v) (vm_EnableLogging v)
    (vm_EnableMetrics v) (vm_LogLevel v) (vm_CPUConfig v) port cid token.

Definition rootfsOf (dir : string) : string := Path_Join [dir; "rootfs.ext4"].
Definition phantomOf (dir : string) : string := Path_Join [dir; "phantom-rootfs.ext4"].
Definition memoryOf (dir : string) : string := Path_Join [dir; "memory"].
Definition stateOf (dir : string) : string := Path_Join [dir; "vmstate"].

Definition snapshotItem (snapID snapName snapDir now : string) (x : Item) : SnapshotItem :=
  let v := x.1 in
  SnapshotItem_ snapID snapName (vm_ID v) (vm_Name v) snapDir (memoryOf snapDir) (stateOf snapDir) (rootfsOf snapDir)
    (vm_KernelID v) (vm_NetworkID v) (vm_BinaryID v) (vm_VCPUCount v) (vm_MemSizeMiB v) (vm_DiskSizeMiB v) (vm_ImageID v)
    (vm_SSHKeys v) (vm_SSHUser v) (Some (extraConfig x)) now now.

Definition createConfig (i : SnapshotCreateInput) (snapDir rootfsPath : string) : SnapshotCreateConfig :=
  SnapshotCreateConfig_ (memoryOf snapDir) (stateOf snapDir) (sci_Pause i) (phantomOf snapDir) rootfsPath.

Definition snapshotName (i : SnapshotCreateInput) (v : VMItem) (createdAt : string) : string :=
  match sci_Name i with Some n => if decide (n = "") then vm_Name v ++ "-" ++ createdAt else n | None => vm_Name v ++ "-" ++ createdAt end.

(** A call after which, when it fails, the directory of the snapshot is removed. *)
Definition orDiscard {A} (snapDir : string) (m : ME A) (f : error → error) : ME A :=
  r ← try m;
  match r with
  | Ok a => mret a
  | Err err => _ ← calls (quietly (onRepo (RemoveAll snapDir))); throw (f err)
  end.

(** What Firecracker writes for a machine that has a process; the machine as it
    is then. *)
Definition captureState (i : SnapshotCreateInput) (snapDir : string) (x : Item) : ME Item :=
  if has x.1 VMStatusRunning || has x.1 VMStatusPaused then
    _ ← progress "snapshot" "running" "Creating Firecracker snapshot...";
    r ← calls (controlled (VMControl.SnapshotCreate (createConfig i snapDir (vm_RootfsPath x.1))) x);
    match r.1 with Some err => throw err | None => mret r.2 end
  else
    _ ← progress "snapshot" "running" "No API socket — snapshot from stopped VM (rootfs only)...";
    _ ← progress "info" "running" "Snapshot from stopped VM: no memory/state files captured";
    mret x.

(** From the moment the directory is there. *)
Definition fillSnapshot (i : SnapshotCreateInput) (snapID snapDir createdAt : string) (x : Item) : ME SnapshotItem :=
  _ ← progress "rootfs" "running" "Copying root filesystem...";
  _ ← orDiscard snapDir (onRepo (CopyFile (vm_RootfsPath x.1) (rootfsOf snapDir)))
        (λ err, createFailed ("failed to copy rootfs from " ++ vm_RootfsPath x.1 ++ ": " ++ Error err) err);
  _ ← orDiscard snapDir (onRepo (Symlink (rootfsOf snapDir) (phantomOf snapDir)))
        (λ err, createFailed ("failed to create phantom symlink: " ++ Error err) err);
  x ← orDiscard snapDir (captureState i snapDir x)
        (λ err, createFailed ("failed to create snapshot for VM '" ++ vm_Name x.1 ++ "': " ++ Error err) err);
  now ← calls (onWorld NowRFC3339);
  let item := snapshotItem snapID (snapshotName i x.1 createdAt) snapDir now x in
  _ ← progress "store" "running" "Persisting snapshot metadata...";
  _ ← orDiscard snapDir (onRepo (sr_Upsert item))
        (λ err, createFailed ("failed to persist snapshot record: " ++ Error err) err);
  mret item.

Definition SnapshotCreate (i : SnapshotCreateInput) : ME SnapshotItem :=
  _ ← orElse (checked (sci_Validate i)) (λ err, coded CodeSnapshotCreateFailed (Error err));
  _ ← orElse (onRepo (CheckPrivileges "/usr/sbin/ip" "create snapshot")) privilegeFailed;
  _ ← progress "resolve" "running" "Resolving VM...";
  v ← orElse (onRepo (sci_Resolve i)) (createFailed ("vm not found: " ++ sci_Identifier i));
  _ ← progress "enrich" "running" "Enriching VM info...";
  x ← orElse (enrichOne rangeIDs ["kernel"; "image"; "binary"; "network"; "vsock"] (v, noRefs))
        (createFailed "failed to enrich VM with relations");
  createdAt ← calls (onWorld NowRFC3339);
  let snapID := SnapshotID (vm_ID v) createdAt in
  snapDir ← calls (GetSnapshotDir snapID);
  _ ← progress "dir" "running" ("Creating snapshot directory: " ++ snapDir);
  _ ← orElse (onRepo (Files.MkdirAll snapDir)) (createFailed ("failed to create snapshot directory " ++ snapDir));
  item ← fillSnapshot i snapID snapDir createdAt x;
  _ ← calls (onWorld (LogOperation "snapshot.create" [("name", snap_Name item); ("snapshot_id", snapID); ("source_vm", snap_SourceVMName item)]));
  _ ← progress "complete" "complete" ("Snapshot created: " ++ snapID);
  mret item.

(** *** Restoration: what the machines share *)

Definition noSnapRefs : SnapshotRefs := SnapshotRefs_ None None None None.

Definition enrichedSnapshots (include : list string) (items : list SItem) : ME (list SItem) := λ s,
  let '(r, (items, w)) := EnrichSnapshot include (items, s.2) in
  (match r with Ok _ => Ok items | Err err => Err err end, (s.1, w)).

(** The leases of the network are loaded; a failure is logged. *)
Definition warmNetwork (net : NetworkItem) : M unit := λ s,
  let '(_, (_, w)) := EnrichNetwork ["leases"] ([(net, OwnerRefs_ [] [] [])], s.2) in ((), (s.1, w)).

Definition theSnapshot (i : SnapshotRestoreInput) : ME SItem :=
  snap ← orElse (onRepo (ResolveSnapshot i)) (restoreFailed ("snapshot not found: " ++ sri_SnapshotID i));
  let include := (["image"; "kernel"; "binary"] ++ match networkOverride i with None => ["network"] | Some _ => [] end)%list in
  items ← orElse (enrichedSnapshots include [(snap, noSnapRefs)]) (restoreFailed "failed to enrich snapshot with relations");
  mret (default (snap, noSnapRefs) (head items)).

Definition theNetwork (i : SnapshotRestoreInput) (snap : SItem) : ME NetworkItem :=
  chosen ← orElse (onRepo (ResolveNetwork i)) (restoreFailed ("network not found: " ++ default "" (sri_Network i)));
  match (match chosen with Some n => Some n | None => sf_Network snap.2 end) with
  | None => throw (coded CodeSnapshotRestoreFailed
                     "no network available for snapshot restore. specify --network or ensure snapshot has a network")
  | Some n => mret n
  end.

Definition restoreNames (i : SnapshotRestoreInput) : list string :=
  GenerateBatchNames (sri_Name i) (if (sri_Count i <=? 0)%Z then 1%Z else sri_Count i).

Record plan := plan_ { pl_snap : SItem; pl_net : NetworkItem; pl_macPrefix : string }.

Definition tapOf (p : plan) (name : string) : string := VMGenerateTAPName sha256Hex (nw_Name (pl_net p)) name.

(** Up to the first machine; what the batch of firewall rules answers is logged. *)
Definition prepareRestore (i : SnapshotRestoreInput) : ME plan :=
  _ ← orElse (onRepo (CheckPrivileges "/usr/sbin/ip" "restore snapshot")) privilegeFailed;
  snap ← theSnapshot i;
  net ← theNetwork i snap;
  _ ← calls (warmNetwork net);
  guestMACPrefix ← setting "defaults.vm" "guest_mac_prefix";
  let names := restoreNames i in
  existing ← orElse (onRepo (NamesExist names)) (λ err, restoreFailed ("failed to check name collisions: " ++ Error err) err);
  if negb (bool_decide (existing = [])) then
    throw (coded CodeSnapshotRestoreFailed ("vm name(s) already exist: " ++ Join existing ", "))
  else
    bridgeAddr ← orElse (checked (nw_ComputeBridgeAddress parseIPv6 cidrError (nw_IPv4Gateway net) (nw_Subnet net)))
                   (restoreFailed "failed to compute bridge address");
    let p := plan_ snap net guestMACPrefix in
    _ ← calls (WithBatch tracked (vmNetworkBody tracked net bridgeAddr (tapOf p <$> names)));
    mret p.

(** *** Restoration: one machine *)

#[local] Notation MR := (GoM S stop).

(** A failure that ends the operation. *)
Definition stopping {A} (undo : bool) (msg : string) (m : ME A) : MR A := λ s,
  let '(r, s) := m s in
  (match r with Ok a => Ok a | Err err => Err (Stop undo (restoreFailed (msg ++ ": " ++ Error err) err)) end, s).

(** The row of the machine: the assets and the settings of the snapshot. *)
Definition restoredVM (snap : SnapshotItem) (net : NetworkItem) (fsType vmID name ip mac tap rootfsPath createdAt : string) : VMItem :=
  let '(boot, lsm, pci, nested, console, logging, metrics, level) :=
    match snap_ExtraConfig snap with
    | Some c => (sx_BootArgs c, sx_LSMFlags c, sx_PCIEnabled c, sx_NestedVirt c, sx_Console c, sx_EnableLogging c, sx_EnableMetrics c, sx_LogLevel c)
    | None => ("", "", false, false, false, false, false, "")
    end in
  VMItem_ vmID name VMStatusStopped 0 ip mac (nw_ID net) tap (snap_ImageID snap) (snap_KernelID snap) (snap_BinaryID snap) "" "" ""
    (snap_VCPUCount snap) (snap_MemSizeMiB snap) (snap_DiskSizeMiB snap) rootfsPath fsType pci nested false logging metrics console
    createdAt createdAt None None None None None None None None lsm boot level "" "" "" "" "" "" "" ""
    (snap_SSHKeys snap) (snap_SSHUser snap) [] None.

Definition withPaths (config api log serial : string) (v : VMItem) : VMItem :=
  VMItem_ (vm_ID v) (vm_Name v) (vm_Status v) (vm_PID v) (vm_IPv4 v) (vm_MAC v) (vm_NetworkID v) (vm_TapDevice v) (vm_ImageID v)
    (vm_KernelID v) (vm_BinaryID v) api config (vm_CloudInitMode v) (vm_VCPUCount v) (vm_MemSizeMiB v) (vm_DiskSizeMiB v)
    (vm_RootfsPath v) (vm_RootfsSuffix v) (vm_PCIEnabled v) (vm_NestedVirt v) (vm_RemoteExec v) (vm_EnableLogging v)
    (vm_EnableMetrics v) (vm_EnableConsole v) (vm_CreatedAt v) (vm_UpdatedAt v) (vm_RelaySocketPath v) (vm_ProcessStartTime v)
    (vm_NocloudNetPort v) (vm_NocloudNetPID v) (vm_RelayPID v) (vm_ExitCode v) (Some log) (Some serial) (vm_LSMFlags v) (vm_BootArgs v)
    (vm_LogLevel v) (vm_LogFilename v) (vm_SerialOutputFilename v) (vm_MetricsFilename v) (vm_APISocketFilename v) (vm_PIDFilename v)
    (vm_ConfigFilename v) (vm_ConsolePIDFilename v) (vm_ConsoleSocketFilename v) (vm_SSHKeys v) (vm_SSHUser v) (vm_VolumeIDs v)
    (vm_CPUConfig v).

(** The directory, the root file system, the address and the device of the
    machine, and its row. *)
Definition makeMachine (p : plan) (name vmID createdAt : string) : MR Item :=
  let snap := (pl_snap p).1 in
  let net := pl_net p in
  let vmDir := GetVMDirByID VmsDir vmID in
  _ ← stopping true ("failed to create VM directory " ++ vmDir) (onRepo (Files.MkdirAll vmDir));
  let rootfsPath := rootfsOf vmDir in
  _ ← stopping true ("failed to copy rootfs for VM '" ++ name ++ "'") (onRepo (CopyFile (snap_RootfsFile snap) rootfsPath));
  guestIP ← stopping true ("failed to lease IP for VM '" ++ name ++ "'") (onRepo (Lease parseIPv6 formatIPv6 cidrError net vmID));
  bytes ← calls (onWorld MACBytes);
  let tapName := tapOf p name in
  _ ← stopping true ("failed to create TAP device for VM '" ++ name ++ "'") (EnsureTapDevice tapName (nw_Bridge net));
  match sf_Image (pl_snap p).2 with
  | None => throw NilImage
  | Some image =>
      let v := restoredVM snap net (img_FSType image) vmID name guestIP (VMGenerateMAC (pl_macPrefix p) bytes) tapName rootfsPath createdAt in
      _ ← stopping true ("failed to persist VM record '" ++ name ++ "'") (onRepo (Upsert v));
      items ← calls (enriched rangeIDs ["kernel"; "image"; "binary"; "network"] [(v, noRefs)]);
      mret (default (v, noRefs) (head items))
  end.

(** The vsock device of the snapshot, for a machine that had one. *)
Definition restoreVsock (p : plan) (name : string) (x : Item) : MR Item :=
  match snap_ExtraConfig (pl_snap p).1 with
  | Some cfg =>
      if (0 <? sx_VsockPort cfg)%Z && negb (bool_decide (vm_RootfsPath x.1 = "")) then
        vsockFilename ← setting "defaults.firecracker" "vsock_filename";
        let vsockUDSPath := Path_Join [GetVMDirByID VmsDir (vm_ID x.1); vsockFilename] in
        _ ← stopping false ("failed to persist vsock config for restored VM '" ++ name ++ "'")
              (onRepo (PersistConfig RandomBelow NowRFC3339 sha256Hex agentVersion (sx_VsockCID cfg) (vm_ID x.1) name vsockUDSPath
                         (sx_VsockPort cfg) (sx_VsockToken cfg)));
        mret (x.1, setVsock (Some (VsockConfigItem_ "" "" (sx_VsockCID cfg) vsockUDSPath (sx_VsockPort cfg) (sx_VsockToken cfg) "" false None)) x.2)
      else mret x
  | None => mret x
  end.

(** The files of the machine; the second write of the row may fail. *)
Definition placeFiles (x : Item) : MR Item :=
  let vmDir := GetVMDirByID VmsDir (vm_ID x.1) in
  config ← setting "defaults.firecracker" "config_filename";
  api ← setting "defaults.firecracker" "api_socket_filename";
  log ← setting "defaults.firecracker" "log_filename";
  serial ← setting "defaults.firecracker" "serial_output_filename";
  let v := withPaths (Path_Join [vmDir; config]) (Path_Join [vmDir; api]) (Path_Join [vmDir; log]) (Path_Join [vmDir; serial]) x.1 in
  _ ← calls (quietly (onRepo (Upsert v)));
  mret (v, x.2).

(** Whether the snapshot has what Firecracker wrote. *)
Definition snapHasState (snap : SnapshotItem) : M bool :=
  if decide (snap_MemoryFile snap = "" ∨ snap_StateFile snap = "") then mret false
  else
    memory ← attempt (onRepo (Stat (snap_MemoryFile snap)));
    match memory with
    | Err _ => mret false
    | Ok _ => state ← attempt (onRepo (Stat (snap_StateFile snap))); mret (is_Ok state)
    end.

(** The link of the snapshot that Firecracker opens as the root file system. *)
Definition linkPhantom (phantomPath rootfsPath : string) : MR unit :=
  removed ← calls (attempt (onRepo (RemoveFile phantomPath)));
  _ ← (match removed with
       | Err err => if IsNotExist (W := W) err then mret ()
                    else throw (Stop false (restoreFailed ("failed to remove old phantom symlink: " ++ Error err) err))
       | Ok _ => mret ()
       end);
  stopping false "failed to create phantom symlink" (onRepo (Symlink rootfsPath phantomPath)).

Definition unlock (lock : option Z) : M unit := match lock with Some f => onWorld (UnlockFile f) | None => mret () end.

(** The machine is marked, and stays. *)
Definition markErrored (id : string) : M unit := quietly (onRepo (UpdateStatus id VMStatusError)).

(** Load what Firecracker wrote, while no other restoration moves the link. *)
Definition loadState (i : SnapshotRestoreInput) (p : plan) (name : string) (x : Item) : MR (Item * option string) :=
  let snap := (pl_snap p).1 in
  hasState ← calls (snapHasState snap);
  if negb (bool_decide (vm_APISocketPath x.1 = "")) && (hasState : bool) then
    lock ← calls (onWorld (LockFile (Path_Join [snap_SnapshotDir snap; ".restore.lock"])));
    linked ← try (linkPhantom (phantomOf (snap_SnapshotDir snap)) (vm_RootfsPath x.1));
    match linked with
    | Err e => _ ← calls (unlock lock); throw e
    | Ok _ =>
        r ← calls (controlled (VMControl.SnapshotRestore (SnapshotRestoreConfig_ (snap_MemoryFile snap) (snap_StateFile snap) (sri_Resume i)
                     {["eth0" := vm_TapDevice x.1]} (from_option vsk_UDSPath "" (vr_Vsock x.2)) (vm_RootfsPath x.1))) x);
        _ ← calls (unlock lock);
        match r.1 with
        | Some err => _ ← calls (markErrored (vm_ID r.2.1)); mret (r.2, Some ("vm '" ++ name ++ "': load snapshot failed: " ++ Error err))
        | None => mret (r.2, None)
        end
    end
  else mret (x, None).

(** The process of the machine, waiting; then its state.  The row is read again:
    of the relations only the vsock device is kept. *)
Definition revive (i : SnapshotRestoreInput) (p : plan) (name : string) (x : Item) : MR (Item * option string) :=
  r ← calls (vmRespawnFirecracker tracked parseIPv6 cidrError Abs marshal VmsDir x true);
  match r.1 with
  | Some err => _ ← calls (markErrored (vm_ID r.2.1)); mret (r.2, Some ("vm '" ++ name ++ "': respawn failed: " ++ Error err))
  | None =>
      updated ← calls (attempt (onRepo (Get (vm_ID r.2.1))));
      loadState i p name (match updated with Ok (Some v) => (v, setVsock (vr_Vsock r.2.2) noRefs) | _ => r.2 end)
  end.

Definition restoreMachine (i : SnapshotRestoreInput) (p : plan) (name : string) : MR (Item * option string) :=
  createdAt ← calls (onWorld NowRFC3339);
  x ← makeMachine p name (VMID sha256Hex name createdAt) createdAt;
  x ← restoreVsock p name x;
  x ← placeFiles x;
  r ← revive i p name x;
  _ ← (match r.2 with
       | Some _ => mret ()
       | None => calls (onWorld (LogOperation "snapshot.restore" [("snapshot_id", snap_ID (pl_snap p).1); ("vm", name)]))
       end);
  mret r.

(** *** Restoration: all machines *)

Definition cleanupRestoredVM (x : Item) : M unit :=
  let v := x.1 in
  _ ← (if negb (bool_decide (vm_TapDevice v = "")) && negb (bool_decide (vm_NetworkID v = ""))
       then quietly (RemoveTap tracked (vm_TapDevice v) "" (vm_NetworkID v)) else mret ());
  _ ← (if bool_decide (vm_ID v = "") then mret ()
       else _ ← quietly (onRepo (LReleaseByVM (vm_ID v))); quietly (onRepo (Delete (vm_ID v))));
  let vmDir := GetVMDirByID VmsDir (vm_ID v) in
  if bool_decide (vmDir = "") then mret () else quietly (onRepo (RemoveAll vmDir)).

(** The error of machines that were made and could not be brought back. *)
Definition restoreOutcome (failures : list string) : option error :=
  if decide (failures = []) then None
  else Some (coded CodeSnapshotRestoreFailed
               ("snapshot restore completed with " ++ Itoa (Z.of_nat (length failures)) ++ " error(s): " ++ Join failures "; ")).

Fixpoint restoreMachines (i : SnapshotRestoreInput) (p : plan) (names : list string) (made : list Item) (failures : list string) : M restoration :=
  match names with
  | [] => mret (Returned made (restoreOutcome failures))
  | name :: rest =>
      r ← (restoreMachine i p name : M (result stop (Item * option string)));
      match r with
      | Ok (x, failure) => restoreMachines i p rest (made ++ [x]) (failures ++ option_list failure)
      | Err NilImage => mret Panicked
      | Err (Stop undo err) => _ ← (if undo : bool then forEach made cleanupRestoredVM else mret ()); mret (Returned [] (Some err))
      end
  end.

Definition SnapshotRestore (i : SnapshotRestoreInput) : M restoration :=
  r ← attempt (prepareRestore i);
  match r with
  | Err err => mret (Returned [] (Some err))
  | Ok p => restoreMachines i p (restoreNames i) [] []
  end.

(** *** Reading and removal *)

Definition snapshotPaths : list string := ["image"; "kernel"; "network"; "binary"].

(** Best effort: what was loaded before an error stays. *)
Definition displayed (items : list SItem) : M (list SItem) := λ s,
  let '(_, (items, w)) := EnrichSnapshot snapshotPaths (items, s.2) in (items, (s.1, w)).

Definition SnapshotList : M (list SItem) :=
  items ← attempt (onRepo sr_ListAll);
  match items with
  | Err _ => mret []
  | Ok [] => mret []
  | Ok items => displayed ((λ s, (s, noSnapRefs)) <$> items)
  end.

Definition SnapshotInspect (i : SnapshotInput) : ME SnapshotInspectResult :=
  r ← calls (onWorld (sni_Resolve i));
  match r with
  | (_, Some err) => throw err
  | ([snap], None) =>
      items ← calls (displayed [(snap, noSnapRefs)]);
      let refs := (default (snap, noSnapRefs) (head items)).2 in
      mret (SnapshotInspectResult_
        (SnapshotItemInfo_ (snap_ID snap) (snap_Name snap) (snap_SourceVMID snap) (snap_SourceVMName snap) (snap_SnapshotDir snap) (snap_CreatedAt snap))
        (SnapshotAssetsInfo_ (sf_Image refs) (sf_Kernel refs) (sf_Network refs) (sf_Binary refs))
        (SnapshotResourcesInfo_ (snap_VCPUCount snap) (snap_MemSizeMiB snap) (snap_DiskSizeMiB snap)))
  | _ => throw (Errorf "expected exactly one snapshot identifier" None)
  end.

Definition removeSnapshot (snap : SnapshotItem) : M OperationResult :=
  _ ← (if decide (snap_SnapshotDir snap = "") then mret () else quietly (onRepo (RemoveAll (snap_SnapshotDir snap))));
  deleted ← attempt (onRepo (sr_Delete (snap_ID snap)));
  match deleted with
  | Err err => mret (OperationResult_ "error" CodeSnapshotRemoveFailed ("failed to delete snapshot record: " ++ Error err)
                       (Some (toAny (snap, noSnapRefs))) None None None)
  | Ok _ =>
      _ ← onWorld (LogOperation "snapshot.remove" [("name", snap_Name snap); ("snapshot_id", snap_ID snap)]);
      mret (OperationResult_ "success" "snapshot.removed" ("removed snapshot: " ++ snap_Name snap) (Some (toAny (snap, noSnapRefs))) None None None)
  end.

Fixpoint removeSnapshots (snaps : list SnapshotItem) : M (list OperationResult) :=
  match snaps with
  | [] => mret []
  | snap :: rest => r ← removeSnapshot snap; rs ← removeSnapshots rest; mret (r :: rs)
  end.

(** The identifiers that were not found are reported when nothing was found. *)
Definition SnapshotRemove (i : SnapshotInput) : M BatchResult :=
  r ← onWorld (sni_Resolve i);
  match r with
  | ([], Some err) => mret (batchOf [opFailed CodeSnapshotRemoveFailed (Error err) None])
  | (snapshots, _) => results ← removeSnapshots snapshots; mret (batchOf results)
  end.
End Operations.
