(* ===== verification/AppDb.v ===== *)
(** * One database: the tables of the domains together

    The operations of [pkg/api] work on the tables of several domains at once.
    This file puts the tables of machines, volumes, leases and networks into one
    database (one connection: [internal/lib/db], [pkg/api/operation.go]) and gives
    the repositories of the domains over it, next to a host that the database
    knows nothing of.  [sameDb] and [reads] are the frames of programs on such a
    world: those that leave the database alone, and those that only look. *)

From stdpp Require Import gmap strings list.
From S2P Require Import Prelude GoStrings Errs Model Sql System NetOps Networks FwTracker VMRepo FcConfig Files VMControl IPNet Lease Names NetAPI Resolving Volumes VolumeAPI.
#[local] Open Scope string_scope.

Record AppTables := AppTables_ {
  at_vms : list VMItem;
  at_volumes : list VolumeItem;
  at_leases : LeaseTables;
}.

Definition setVMs (x : list VMItem) (t : AppTables) : AppTables := AppTables_ x (at_volumes t) (at_leases t).
Definition setVolumes (x : list VolumeItem) (t : AppTables) : AppTables := AppTables_ (at_vms t) x (at_leases t).
Definition setLeaseTables (x : LeaseTables) (t : AppTables) : AppTables := AppTables_ (at_vms t) (at_volumes t) x.
Definition at_networks (t : AppTables) : list NetworkItem := networks (at_leases t).
Definition setNetworks (x : list NetworkItem) (t : AppTables) : AppTables :=
  setLeaseTables (LeaseTables_ (leases (at_leases t)) (nextID (at_leases t)) x) t.

(** A statement on one part of the tables. *)
Definition onPart {T P A} (get : T → P) (set : P → T → T) (m : GoM (Db P) error A) : GoM (Db T) error A := λ d,
  let '(r, p) := m (Db_ (get (tables d)) (faults d) (clock d)) in
  (r, Db_ (set (tables p) (tables d)) (faults p) (clock p)).

(** The statements on leases, with no other process at work. *)
Definition alone {T A} (m : GoM (Shared T) error A) : GoM (Db T) error A := λ d,
  let '(r, s) := m (Shared_ d []) in (r, db s).

Section Beside.
Context {H : Type}.
Context (like : string → string → bool) (marshal : list string → string) (rowOK : VMItem → bool)
  (constraintError : error) (rfc3339 : string → string) (inUse : string → bool)
  (parseIPv6 : string → option IP) (formatIPv6 : list Z → string) (cidrError : string → error).

#[local] Notation D := (Db AppTables).
#[local] Notation W := (D * H)%type.

Definition inDb {A} (m : GoM D error A) : GoM W error A := λ w, let '(r, d) := m w.1 in (r, (d, w.2)).
Definition onHost {A} (m : ST H A) : ST W A := λ w, let '(a, h) := m w.2 in (a, (w.1, h)).

Definition inVMs {A} (m : GoM (Db (list VMItem)) error A) : GoM W error A := inDb (onPart at_vms setVMs m).
Definition inVolumes {A} (m : GoM (Db (list VolumeItem)) error A) : GoM W error A := inDb (onPart at_volumes setVolumes m).
Definition inLeases {A} (m : GoM (Shared LeaseTables) error A) : GoM W error A :=
  inDb (onPart at_leases setLeaseTables (alone m)).
Definition inNetworks {A} (m : GoM (Db (list NetworkItem)) error A) : GoM W error A :=
  inDb (onPart at_networks setNetworks m).

#[export] Instance app_vms : Repository W :=
  let repo := sqliteRepo like marshal rowOK constraintError in {|
  Get := λ id, inVMs (Get (Repository := repo) id);
  GetByName := λ n, inVMs (GetByName (Repository := repo) n);
  NamesExist := λ l, inVMs (NamesExist (Repository := repo) l);
  FindByIP := λ ip, inVMs (FindByIP (Repository := repo) ip);
  FindByMAC := λ mac, inVMs (FindByMAC (Repository := repo) mac);
  FindByPrefix := λ p, inVMs (FindByPrefix (Repository := repo) p);
  Count := inVMs (Count (Repository := repo));
  CountByStatus := λ l, inVMs (CountByStatus (Repository := repo) l);
  FindByNetworkID := λ id, inVMs (FindByNetworkID (Repository := repo) id);
  GetByNetworkIDs := λ l, inVMs (GetByNetworkIDs (Repository := repo) l);
  FindByKernelID := λ id, inVMs (FindByKernelID (Repository := repo) id);
  GetByKernelIDs := λ l, inVMs (GetByKernelIDs (Repository := repo) l);
  FindByBinaryID := λ id, inVMs (FindByBinaryID (Repository := repo) id);
  GetByBinaryIDs := λ l, inVMs (GetByBinaryIDs (Repository := repo) l);
  GetByImageIDs := λ l, inVMs (GetByImageIDs (Repository := repo) l);
  FindByVolumeID := λ id, inVMs (FindByVolumeID (Repository := repo) id);
  FindByVolumeIDsBatch := λ l, inVMs (FindByVolumeIDsBatch (Repository := repo) l);
  FindBySSHKeyID := λ id, inVMs (FindBySSHKeyID (Repository := repo) id);
  ListAll := inVMs (ListAll (Repository := repo));
  ListByStatus := λ l, inVMs (ListByStatus (Repository := repo) l);
  ListExcludingStatuses := λ l, inVMs (ListExcludingStatuses (Repository := repo) l);
  Upsert := λ vm, inVMs (Upsert (Repository := repo) vm);
  UpdateStatus := λ id st, inVMs (UpdateStatus (Repository := repo) id st);
  UpdatePID := λ id p, inVMs (UpdatePID (Repository := repo) id p);
  UpdateProcessInfo := λ id p t, inVMs (UpdateProcessInfo (Repository := repo) id p t);
  UpdateExitCode := λ id c, inVMs (UpdateExitCode (Repository := repo) id c);
  Delete := λ id, inVMs (Delete (Repository := repo) id);
  DeleteMany := λ l, inVMs (DeleteMany (Repository := repo) l);
|}.

#[export] Instance app_volumes : VolumeRepository W :=
  let repo := volSqliteRepo like constraintError in {|
  vr_Get := λ id, inVolumes (vr_Get (VolumeRepository := repo) id);
  vr_FindByPrefix := λ p, inVolumes (vr_FindByPrefix (VolumeRepository := repo) p);
  vr_GetByName := λ n, inVolumes (vr_GetByName (VolumeRepository := repo) n);
  vr_ListAll := inVolumes (vr_ListAll (VolumeRepository := repo));
  vr_Upsert := λ v, inVolumes (vr_Upsert (VolumeRepository := repo) v);
  vr_Delete := λ id, inVolumes (vr_Delete (VolumeRepository := repo) id);
  vr_FindByIDs := λ l, inVolumes (vr_FindByIDs (VolumeRepository := repo) l);
  vr_Count := inVolumes (vr_Count (VolumeRepository := repo));
|}.

#[export] Instance app_leases : LeaseRepository W :=
  let repo := sqliteLeaseRepo parseIPv6 cidrError constraintError in {|
  LGet := λ n ip, inLeases (LGet (LeaseRepository := repo) n ip);
  LListAll := λ n, inLeases (LListAll (LeaseRepository := repo) n);
  LListByVM := λ n vm, inLeases (LListByVM (LeaseRepository := repo) n vm);
  LListAllBatch := λ l, inLeases (LListAllBatch (LeaseRepository := repo) l);
  LAcquire := λ n ip vm, inLeases (LAcquire (LeaseRepository := repo) n ip vm);
  LRelease := λ n ip, inLeases (LRelease (LeaseRepository := repo) n ip);
  LReleaseByVM := λ vm, inLeases (LReleaseByVM (LeaseRepository := repo) vm);
  LCount := inLeases (LCount (LeaseRepository := repo));
  LCountAvailable := λ n, inLeases (LCountAvailable (LeaseRepository := repo) n);
|}.

#[export] Instance app_networks : NetworkRepository W :=
  let repo := nwSqliteRepo like rfc3339 constraintError inUse in {|
  nr_Get := λ id, inNetworks (nr_Get (NetworkRepository := repo) id);
  nr_GetByName := λ n d, inNetworks (nr_GetByName (NetworkRepository := repo) n d);
  nr_FindByPrefix := λ p d, inNetworks (nr_FindByPrefix (NetworkRepository := repo) p d);
  nr_Count := inNetworks (nr_Count (NetworkRepository := repo));
  nr_ListAll := inNetworks (nr_ListAll (NetworkRepository := repo));
  nr_Upsert := λ n, inNetworks (nr_Upsert (NetworkRepository := repo) n);
  nr_UpdateBridgeActive := λ id b, inNetworks (nr_UpdateBridgeActive (NetworkRepository := repo) id b);
  nr_SetDefault := λ id, inNetworks (nr_SetDefault (NetworkRepository := repo) id);
  nr_GetDefault := inNetworks (nr_GetDefault (NetworkRepository := repo));
  nr_UpdateManyIsPresent := λ ids b, inNetworks (nr_UpdateManyIsPresent (NetworkRepository := repo) ids b);
  nr_SoftDelete := λ id, inNetworks (nr_SoftDelete (NetworkRepository := repo) id);
  nr_Delete := λ id, inNetworks (nr_Delete (NetworkRepository := repo) id);
|}.
End Beside.

(** ** The host beside the database *)
Section Host.
Context {H : Type}.
#[local] Notation W := (Db AppTables * H)%type.

#[export] Instance app_files `{Files H} : Files W := {|
  MkdirAll := λ p, onHost (MkdirAll p); Stat := λ p, onHost (Stat p); IsNotExist := IsNotExist;
  RemoveFile := λ p, onHost (RemoveFile p); RemoveAll := λ p, onHost (RemoveAll p);
|}.
#[export] Instance app_runner `{Runner H} : Runner W := λ args input, onHost (Run args input).
#[export] Instance app_host `{Host H} : Host W := {|
  IsProcessAlive := λ p s w, IsProcessAlive p s w.2;
  KillProcess := λ p w, (w.1, KillProcess p w.2);
  CaptureExitCode := λ p, onHost (CaptureExitCode p);
  GracefulShutdown := λ c, onHost (GracefulShutdown c);
|}.
#[export] Instance app_firecracker `{Firecracker H} : Firecracker W := {|
  SendCtrlAltDel := λ s, onHost (SendCtrlAltDel s); PauseVM := λ s, onHost (PauseVM s);
  ResumeVM := λ s, onHost (ResumeVM s); StartInstance := λ s, onHost (StartInstance s);
  UpdateDrivePath := λ s d p, onHost (UpdateDrivePath s d p);
  CreateSnapshot := λ s m f, onHost (CreateSnapshot s m f);
  LoadSnapshot := λ s m f r n v, onHost (LoadSnapshot s m f r n v);
  PutDrive := λ s d, onHost (PutDrive s d); DeleteDrive := λ s d, onHost (DeleteDrive s d);
|}.
#[export] Instance app_config `{ConfigManager H} : ConfigManager W := {|
  ConfigAddDrive := λ p d, onHost (ConfigAddDrive p d); ConfigRemoveDrive := λ p d, onHost (ConfigRemoveDrive p d);
|}.
#[export] Instance app_env `{OpEnv H} : OpEnv W := {|
  NowRFC3339 := onHost NowRFC3339; LogOperation := λ o c, onHost (LogOperation o c);
  EnrichNetworkRefs := λ l, onHost (EnrichNetworkRefs l); CheckPrivileges := λ b d, onHost (CheckPrivileges b d);
  ConfigString := λ s k, onHost (ConfigString s k); ConfigBool := λ s k, onHost (ConfigBool s k);
  UpdateComponent := λ c b, onHost (UpdateComponent c b);
|}.
#[export] Instance app_guest `{GuestEnv H} : GuestEnv W := {|
  VsockClient := λ vm, onHost (VsockClient vm); RescanPCI := λ vm, onHost (RescanPCI vm);
  RemoveHotpluggedPCIDevice := λ vm, onHost (RemoveHotpluggedPCIDevice vm);
  bin_Get := λ id, onHost (bin_Get id); EnrichVolumes := λ l, onHost (EnrichVolumes l);
|}.
#[export] Instance app_netops `{NetOps H} : NetOps W := {|
  BridgeExists := λ b, onHost (BridgeExists b); TapExists := λ t, onHost (TapExists t);
  BridgeHasSubnet := λ b s, onHost (BridgeHasSubnet b s); GetBridgeTaps := λ b, onHost (GetBridgeTaps b);
  GetTapBridge := λ t, onHost (GetTapBridge t); GetBridgeSlaves := λ b, onHost (GetBridgeSlaves b);
  GetSystemBridges := onHost GetSystemBridges; RunBatch := λ c, onHost (RunBatch c);
  RemoveRawTap := λ t, onHost (RemoveRawTap t); RemoveRawBridge := λ b, onHost (RemoveRawBridge b);
|}.
#[export] Instance app_tracker `{Tracker H} : Tracker W := {|
  tr_Initialize := onHost tr_Initialize; tr_Teardown := onHost tr_Teardown;
  tr_EnsureRule := λ r l, onHost (tr_EnsureRule r l); tr_BatchEnsureRules := λ l, onHost (tr_BatchEnsureRules l);
  tr_RemoveRule := λ r, onHost (tr_RemoveRule r); tr_BatchRemoveRules := λ l, onHost (tr_BatchRemoveRules l);
  tr_EnsureChain := λ c t f p, onHost (tr_EnsureChain c t f p); tr_FlushChain := λ c t, onHost (tr_FlushChain c t);
  tr_CountOrphanedRules := λ n, onHost (tr_CountOrphanedRules n); tr_RuleExists := λ r, onHost (tr_RuleExists r);
|}.
#[export] Instance app_rules `{firewallRuleRepo H} : firewallRuleRepo W := {|
  fr_GetByNetworkID := λ n b, onHost (fr_GetByNetworkID n b);
  fr_GetByNetworkIDAndInterface := λ n i b, onHost (fr_GetByNetworkIDAndInterface n i b);
|}.

(** ** Frames *)

(** Programs that leave the database alone. *)
Definition sameDb (w w' : W) : Prop := w'.1 = w.1.
#[export] Instance sameDb_preorder : PreOrder sameDb.
Proof. split; [by intros w|]. unfold sameDb. intros w1 w2 w3 ? ?. congruence. Qed.

Lemma onHost_same {A} (m : ST H A) : upholds sameDb (onHost m).
Proof. intros [d h]. unfold onHost, sameDb. cbn [fst snd]. by destruct (m h). Qed.

(** Nothing was written, though statements may have failed. *)
Definition untouched (d d' : Db AppTables) : Prop :=
  tables d' = tables d ∧ clock d' = clock d ∧ (faults d = [] → faults d' = []).
#[export] Instance untouched_preorder : PreOrder untouched.
Proof. split; [by intros d|]. intros d1 d2 d3 (T1 & C1 & F1) (T2 & C2 & F2). split_and!; [congruence..|auto]. Qed.

Lemma untouched_healthy d d' : untouched d d' → faults d = [] → d' = d.
Proof. intros (HT & HC & HF) Hf. specialize (HF Hf). destruct d, d'. cbn in *. congruence. Qed.

Lemma same_untouched (w w' : W) : sameDb w w' → untouched w.1 w'.1.
Proof. by intros ->. Qed.

(** A program that changes no table, whatever fails, and whose answer
    satisfies [P]. *)
Definition reads {A} (P : AppTables → A → Prop) (m : GoM W error A) : Prop := ∀ w,
  untouched w.1 (m w).2.1 ∧ ∀ a, (m w).1 = Ok a → P (tables w.1) a.

Lemma reads_healthy {A} (P : AppTables → A → Prop) m w : reads (A := A) P m → faults w.1 = [] →
  (m w).2.1 = w.1 ∧ ∀ a, (m w).1 = Ok a → P (tables w.1) a.
Proof. intros Hm Hf. destruct (Hm w) as [E HP]. split; [by apply untouched_healthy|done]. Qed.

Lemma reads_weaken {A} (P Q : AppTables → A → Prop) m : (∀ t a, P t a → Q t a) → reads P m → reads Q m.
Proof. intros HPQ Hm w. destruct (Hm w) as [H1 H2]. split; [done|]. intros a Ha. apply HPQ, H2, Ha. Qed.

Lemma reads_ret {A} (P : AppTables → A → Prop) a : (∀ t, P t a) → reads P (mret a).
Proof. intros HP w. split; [done|]. intros b [= <-]. apply HP. Qed.

Lemma reads_throw {A} (P : AppTables → A → Prop) e : reads P (throw e).
Proof. intros w. by split. Qed.

Lemma reads_bind {A B} (P : AppTables → A → Prop) (Q : AppTables → B → Prop) m k :
  reads P m → (∀ a, reads (λ t b, P t a → Q t b) (k a)) → reads Q (x ← m; k x).
Proof.
  intros Hm Hk w. rewrite bind_unfold. destruct (Hm w) as [E HP].
  destruct (m w) as [[a|e] w1]; cbn [fst snd] in *; [|by split].
  destruct (Hk a w1) as [E1 HQ]. split; [by etrans|]. intros b Hb. rewrite <- (proj1 E). apply HQ; [done|].
  rewrite (proj1 E). auto.
Qed.

Lemma reads_try {A} (P : AppTables → A → Prop) m :
  reads P m → reads (λ t r, match r with Ok a => P t a | Err _ => True end) (try m).
Proof.
  intros Hm w. destruct (Hm w) as [E HP]. unfold try. destruct (m w) as [r w1]; cbn [fst snd] in *.
  split; [done|]. intros a [= <-]. destruct r; auto.
Qed.

Lemma reads_host {A} (m : GoM H error A) : reads (λ _ _, True) (onHost m).
Proof. intros w. split; [apply same_untouched, (onHost_same m w)|done]. Qed.

Lemma reads_same {A} (m : GoM W error A) : upholds (A := result error A) sameDb m → reads (λ _ _, True) m.
Proof. intros Hm w. split; [apply same_untouched, Hm|done]. Qed.

Lemma reads_ext {A} (P : AppTables → A → Prop) (m m' : GoM W error A) :
  (∀ w, m w = m' w) → reads P m → reads P m'.
Proof. intros E Hm w. rewrite <- (E w). apply Hm. Qed.

(** Programs without an error result. *)
Lemma reads_calls_ret {A} (P : AppTables → A → Prop) a : (∀ t, P t a) → reads P (calls (mret (M := ST W) a)).
Proof. intros HP. by apply (reads_ret P a). Qed.

Lemma reads_calls_bind {A B} (P : AppTables → A → Prop) (Q : AppTables → B → Prop) (m : ST W A) (k : A → ST W B) :
  reads P (calls m) → (∀ a, reads (λ t b, P t a → Q t b) (calls (k a))) → reads Q (calls (x ← m; k x)).
Proof.
  intros Hm Hk. eapply reads_ext; [|exact (reads_bind _ _ _ _ Hm Hk)]. intros w.
  unfold calls, mbind, GoM_bind, ST_bind. by destruct (m w).
Qed.

Lemma reads_attempt {A} (P : AppTables → A → Prop) (m : GoM W error A) :
  reads P m → reads (λ t r, match r with Ok a => P t a | Err _ => True end) (calls (attempt m)).
Proof. intros Hm. exact (reads_try P m Hm). Qed.

(** The items a resolver finds satisfy what each of its answers does. *)
Lemma resolveAll_reads {A} (P : AppTables → A → Prop) (key : A → string) (resolve : string → GoM W error A) idents :
  (∀ i, reads P (resolve i)) →
  reads (λ t r, ∀ x, x ∈ r.1 → P t x) (calls (resolveAll key resolve idents)).
Proof.
  intros Hr. unfold resolveAll.
  assert (∀ l items errs seen, reads (λ t r, (∀ x, x ∈ items → P t x) → ∀ x, x ∈ r.1 → P t x)
            (calls (resolveEach key resolve l items errs seen))) as Hl.
  { intros l. induction l as [|i l IH]; intros items errs seen; cbn [resolveEach].
    - apply reads_calls_ret. auto.
    - eapply reads_calls_bind; [apply reads_attempt, Hr|]. intros [x|e]; [case_decide|].
      + eapply reads_weaken; [|apply IH]. auto.
      + eapply reads_weaken; [|apply IH]. intros t r Hx Hitem Hitems. apply Hx.
        intros y [Hy| ->%list_elem_of_singleton]%elem_of_app; auto.
      + eapply reads_weaken; [|apply IH]. auto. }
  eapply reads_weaken; [|apply Hl]. intros t r Hx. apply Hx. intros x []%elem_of_nil.
Qed.

(** A query of one part. *)
Lemma reads_query {T A} (get : AppTables → T) set (q : T → A) :
  (∀ t, set (get t) t = t) → reads (λ t a, a = q (get t)) (inDb (onPart get set (query q))).
Proof.
  intros Hset [[t f c] h]. unfold inDb, onPart. cbn [fst snd tables faults clock].
  destruct (query q _) as [r p] eqn:E. cbn [fst snd]. pose proof E as [Et Ec]%query_tables. cbn in Et, Ec. rewrite Et, Ec, Hset.
  split; [|intros a ->; by apply query_Ok in E as [-> _]].
  split_and!; [done..|]. cbn. intros ->. unfold query, statement in E. cbn in E. by injection E as _ <-.
Qed.
End Host.

Lemma setVMs_id t : setVMs (at_vms t) t = t.
Proof. by destruct t. Qed.
Lemma setVolumes_id t : setVolumes (at_volumes t) t = t.
Proof. by destruct t. Qed.
