(* ===== verification/AppFrames.v ===== *)
(** * What the calls of the operations leave alone

    The rest of the instances over the world of [AppDb] (the tables that the
    theorems do not look at belong to the host), and frames for the parts that
    the operations on machines call: the network service and the enricher change
    no table here; the controller of a machine changes at most its row. *)

From stdpp Require Import gmap strings list.
From S2P Require Import Prelude GoStrings Errs Model Infra Sql System NetOps Networks FwRepo FwTracker VMRepo VMResolver FcConfig Spawn Files VMControl IPNet Lease Names NetService NetAPI Resolving Volumes VolumeAPI Assets Enrich VMAPI AppDb.
#[local] Open Scope string_scope.

Section Instances.
Context {H : Type}.
#[local] Notation W := (Db AppTables * H)%type.

#[export] Instance app_images `{ImageRepository H} : ImageRepository W := {|
  ir_Get := λ i, onHost (ir_Get i); ir_FindByPrefix := λ p d, onHost (ir_FindByPrefix p d); ir_GetByType := λ t, onHost (ir_GetByType t);
  ir_GetByVersionAndType := λ v t, onHost (ir_GetByVersionAndType v t); ir_GetByName := λ n d, onHost (ir_GetByName n d);
  ir_Count := onHost ir_Count; ir_ListAll := onHost ir_ListAll; ir_Upsert := λ i, onHost (ir_Upsert i);
  ir_SoftDelete := λ i, onHost (ir_SoftDelete i); ir_GetDefault := onHost ir_GetDefault;
  ir_UpdateManyIsPresent := λ l p, onHost (ir_UpdateManyIsPresent l p); ir_Delete := λ i, onHost (ir_Delete i);
  ir_SetDefault := λ i, onHost (ir_SetDefault i); ir_ListAllByIDs := λ l, onHost (ir_ListAllByIDs l);
|}.
#[export] Instance app_kernels `{KernelRepository H} : KernelRepository W := {|
  kr_Get := λ i, onHost (kr_Get i); kr_FindByPrefix := λ p d, onHost (kr_FindByPrefix p d); kr_ListAll := onHost kr_ListAll;
  kr_GetByName := λ n d, onHost (kr_GetByName n d); kr_GetDefault := onHost kr_GetDefault; kr_Upsert := λ k, onHost (kr_Upsert k);
  kr_Delete := λ i, onHost (kr_Delete i); kr_SoftDelete := λ i, onHost (kr_SoftDelete i); kr_Count := onHost kr_Count;
  kr_GetByType := λ t, onHost (kr_GetByType t); kr_GetByVersionAndType := λ v t, onHost (kr_GetByVersionAndType v t);
  kr_SetDefault := λ i, onHost (kr_SetDefault i); kr_UpdateManyIsPresent := λ l p, onHost (kr_UpdateManyIsPresent l p);
|}.
#[export] Instance app_binaries `{BinaryRepository H} : BinaryRepository W := {|
  br_Get := λ i, onHost (br_Get i); br_FindByPrefix := λ p d, onHost (br_FindByPrefix p d); br_ListAll := onHost br_ListAll;
  br_ListByType := λ t, onHost (br_ListByType t); br_GetByTypeAndVersion := λ t v, onHost (br_GetByTypeAndVersion t v);
  br_Upsert := λ b, onHost (br_Upsert b); br_Delete := λ i, onHost (br_Delete i); br_DeleteByType := λ t, onHost (br_DeleteByType t);
  br_DeleteByTypeAndVersion := λ t v, onHost (br_DeleteByTypeAndVersion t v); br_SetDefault := λ t i, onHost (br_SetDefault t i);
  br_Count := onHost br_Count; br_GetDefault := λ t, onHost (br_GetDefault t); br_SoftDelete := λ i, onHost (br_SoftDelete i);
  br_UpdateManyIsPresent := λ l p, onHost (br_UpdateManyIsPresent l p);
|}.
#[export] Instance app_devices `{VsockRepository H} : VsockRepository W := {|
  vkr_GetByVMID := λ i, onHost (vkr_GetByVMID i); vkr_ListByVMIDs := λ l, onHost (vkr_ListByVMIDs l);
  vkr_Upsert := λ v, onHost (vkr_Upsert v); vkr_DeleteByVMID := λ i, onHost (vkr_DeleteByVMID i);
  vkr_SetUpgradeLock := λ i, onHost (vkr_SetUpgradeLock i); vkr_ClearUpgradeLock := λ i, onHost (vkr_ClearUpgradeLock i);
  vkr_UpdateAgentVersion := λ i v, onHost (vkr_UpdateAgentVersion i v);
|}.
#[export] Instance app_snapshots `{SnapshotRepository H} : SnapshotRepository W := {|
  sr_Get := λ i, onHost (sr_Get i); sr_GetByName := λ n, onHost (sr_GetByName n); sr_FindByPrefix := λ p, onHost (sr_FindByPrefix p);
  sr_ListAll := onHost sr_ListAll; sr_Upsert := λ s, onHost (sr_Upsert s); sr_Delete := λ i, onHost (sr_Delete i);
  sr_CountByKernelID := λ i, onHost (sr_CountByKernelID i); sr_CountByNetworkID := λ i, onHost (sr_CountByNetworkID i);
  sr_CountByBinaryID := λ i, onHost (sr_CountByBinaryID i); sr_FindByKernelID := λ i, onHost (sr_FindByKernelID i);
  sr_FindByKernelIDs := λ l, onHost (sr_FindByKernelIDs l); sr_FindByNetworkID := λ i, onHost (sr_FindByNetworkID i);
  sr_FindByNetworkIDs := λ l, onHost (sr_FindByNetworkIDs l); sr_FindByBinaryID := λ i, onHost (sr_FindByBinaryID i);
  sr_FindByBinaryIDs := λ l, onHost (sr_FindByBinaryIDs l);
|}.
#[export] Instance app_processes `{Processes H} : Processes W := {|
  OpenTruncated := λ p, onHost (OpenTruncated p); CloseFd := λ f, onHost (CloseFd f);
  StartProcess := λ c i o e, onHost (StartProcess c i o e); Probe := λ p, onHost (Probe p); KillChild := λ p, onHost (KillChild p);
  WaitChild := λ p, onHost (WaitChild p); WaitForSocket := λ p t, onHost (WaitForSocket p t); Dial := λ p t, onHost (Dial p t);
  GetProcessStartTime := λ p, onHost (GetProcessStartTime p); WritePIDFile := λ f p, onHost (WritePIDFile f p);
  WriteText := λ f t, onHost (WriteText f t);
|}.
#[export] Instance app_console `{Console H} : Console W := {|
  CreatePTY := λ c, onHost (CreatePTY c); CloseClientFD := λ c, onHost (CloseClientFD c); StartRelay := λ c, onHost (StartRelay c);
  CleanupRelay := λ c, onHost (CleanupRelay c); RelayGetPID := λ c, onHost (RelayGetPID c); RelaySocket := λ c, onHost (RelaySocket c);
|}.
#[export] Instance app_table `{ProcessTable H} : ProcessTable W := λ pid w, IsProcessRunning pid w.2.
End Instances.

(** ** Relations between worlds *)
Section Relations.
Context {H : Type}.
#[local] Notation W := (Db AppTables * H)%type.

(** A database without failures stays as it is. *)
Definition gently (w w' : W) : Prop := faults w.1 = [] → w'.1 = w.1.

#[export] Instance gently_preorder : PreOrder gently.
Proof.
  split; [by intros w|]. unfold gently. intros w1 w2 w3 H12 H23 Hf.
  specialize (H12 Hf). rewrite <- H12 in Hf. by rewrite H23, H12 by congruence.
Qed.

(** A relation on the world, next to some other state. *)
Definition beside {X} (R : relation W) (s s' : X * W) : Prop := R s.2 s'.2.

#[export] Instance beside_preorder {X} R `{!PreOrder R} : PreOrder (beside (X := X) R).
Proof. split; [intros s; unfold beside; reflexivity|]. unfold beside. intros s1 s2 s3 ? ?. by etrans. Qed.

Lemma same_gently {A} (m : ST W A) : upholds sameDb m → upholds gently m.
Proof. intros Hm w _. apply Hm. Qed.

Lemma reads_gently {A} (P : AppTables → A → Prop) (m : GoM W error A) : reads P m → upholds (A := result error A) gently m.
Proof. intros Hm w Hf. by destruct (reads_healthy P m w Hm Hf). Qed.

Lemma host_gently {A} (m : ST H A) : upholds gently (onHost m).
Proof. apply same_gently, onHost_same. Qed.

Lemma onWorld_beside {A} R (m : ST W A) : upholds R m → upholds (beside R) (onWorld m).
Proof. intros Hm [t w]. unfold onWorld, beside. specialize (Hm w). cbn [fst snd]. by destruct (m w). Qed.

Lemma onRepo_beside {A} R (m : GoM W error A) :
  upholds (A := result error A) R m → upholds (A := result error A) (beside R) (onRepo m).
Proof. intros Hm. exact (onWorld_beside R m Hm). Qed.
End Relations.

(** ** The network service *)
Section Network.
Context {H : Type} `{NetOps H} `{Tracker H} `{firewallRuleRepo H} `{Runner H}.
#[local] Notation W := (Db AppTables * H)%type.
#[local] Notation S := (FirewallTracker * W)%type.

#[local] Notation quiet := (beside (X := FirewallTracker) (sameDb (H := H))).

Lemma world_quiet {A} (m : ST H A) : upholds quiet (onWorld (onHost m)).
Proof. apply onWorld_beside, onHost_same. Qed.

Lemma runBatchOr_quiet wrap cmds : upholds quiet (runBatchOr (W := W) wrap cmds).
Proof.
  unfold runBatchOr. apply upholds_okbind; [apply _|apply upholds_try, world_quiet|]. intros [|]; upholds.
Qed.

Lemma EnsureBridge_quiet bridge addr : upholds quiet (EnsureBridge (W := W) bridge addr).
Proof.
  unfold EnsureBridge. apply upholds_okbind; [apply _|apply upholds_calls, world_quiet|]. intros present.
  apply upholds_okbind; [apply _| |].
  - destruct present; [|apply runBatchOr_quiet]. apply upholds_okbind; [apply _|apply upholds_calls, world_quiet|].
    intros subnet. apply runBatchOr_quiet.
  - intros _. apply upholds_okbind; [apply _|apply upholds_calls, world_quiet|]. intros r. upholds.
Qed.

Lemma EnsureTapDevice_quiet tap bridge : upholds quiet (EnsureTapDevice (W := W) tap bridge).
Proof.
  unfold EnsureTapDevice. apply upholds_okbind; [apply _|apply upholds_calls, world_quiet|]. intros [|]; [|apply runBatchOr_quiet].
  apply upholds_okbind; [apply _|apply upholds_calls, world_quiet|]. intros current.
  case_bool_decide; [upholds|]. destruct (negb _); apply runBatchOr_quiet.
Qed.

Lemma ensureOr_quiet wrap rule label : upholds quiet (ensureOr (W := W) wrap rule label).
Proof.
  unfold ensureOr. apply upholds_okbind; [apply _| |intros res; destruct (fres_Success res); upholds].
  apply upholds_calls. intros s. unfold ft_EnsureRule. destruct (batchMode s.1); [by unfold beside|apply world_quiet].
Qed.

Lemma AddTap_quiet tracked tap bridge id subnet : upholds quiet (AddTapFirewallRules (W := W) tracked tap bridge id subnet).
Proof.
  unfold AddTapFirewallRules. destruct (negb tracked); [upholds|].
  apply upholds_forOk; [apply _|]. intros rule. apply ensureOr_quiet.
Qed.

Lemma EnsureNAT_quiet tracked bridge gws subnet id : upholds quiet (EnsureNAT (W := W) tracked bridge gws subnet id).
Proof.
  unfold EnsureNAT, svc_Initialize, whenTracked. apply upholds_okbind; [apply _| |intros _].
  - apply upholds_calls. destruct tracked; [apply world_quiet|upholds].
  - apply upholds_forOk; [apply _|]. intros gw. unfold ensureGateway. destruct (negb tracked); [upholds|].
    apply upholds_okbind; [apply _|apply ensureOr_quiet|intros _].
    apply upholds_okbind; [apply _|apply ensureOr_quiet|intros _]. apply ensureOr_quiet.
Qed.

Lemma RemoveTap_quiet tracked tap bridge id : upholds quiet (RemoveTap (W := W) tracked tap bridge id).
Proof.
  unfold RemoveTap. apply upholds_okbind; [apply _|apply upholds_calls, world_quiet|]. intros present.
  destruct (negb present); [upholds|].
  apply upholds_okbind; [apply _|apply upholds_calls; case_bool_decide; [apply world_quiet|upholds]|]. intros effective.
  apply upholds_okbind; [apply _| |intros _; apply world_quiet].
  apply upholds_calls. destruct (_ && _); [|upholds]. unfold removeTapRules.
  apply upholds_bind; [apply _|apply world_quiet|]. intros [[|r rs]|]; [upholds| |upholds].
  apply upholds_bind; [apply _|apply world_quiet|]. intros. upholds.
Qed.

Lemma flush_quiet : upholds quiet (flushBatch (W := W)).
Proof.
  intros [t w]. unfold flushBatch, beside. cbn [fst snd]. case_decide; [done|].
  pose proof (onHost_same (tr_BatchEnsureRules (batchRules t)) w) as Hs. unfold sameDb in *.
  change (tr_BatchEnsureRules (W := W) (batchRules t) w) with (onHost (tr_BatchEnsureRules (W := H) (batchRules t)) w).
  by destruct (onHost _ w).
Qed.

Lemma WithBatch_quiet {A} tracked (fn : ST S A) : upholds quiet fn → upholds quiet (WithBatch (W := W) tracked fn).
Proof.
  intros Hfn. unfold WithBatch. destruct tracked; [|exact Hfn]. intros s. unfold ft_WithBatch.
  assert (upholds quiet (a ← fn; _ ← flushBatch; mret a)) as Hm.
  { apply upholds_bind; [apply _|done|]. intros a. apply upholds_bind; [apply _|apply flush_quiet|]. intros. upholds. }
  apply (Hm (FirewallTracker_ true [], s.2)).
Qed.

Lemma vmNetworkBody_quiet tracked network addr taps : upholds quiet (vmNetworkBody (W := W) tracked network addr taps).
Proof.
  unfold vmNetworkBody. apply upholds_bind; [apply _|exact (EnsureBridge_quiet _ _)|]. intros [u|e]; [|upholds].
  apply upholds_bind; [apply _| |intros _].
  - destruct (_ && _); [|upholds]. apply upholds_bind; [apply _|exact (EnsureNAT_quiet _ _ _ _ _)|]. intros. upholds.
  - apply upholds_bind; [apply _| |intros; upholds]. apply upholds_forEach; [apply _|]. intros tap.
    apply upholds_bind; [apply _|exact (AddTap_quiet _ _ _ _ _)|]. intros. upholds.
Qed.
End Network.

(** ** Queries *)
Section Queries.
Context {H : Type}.
Context (like : string → string → bool) (marshal : list string → string) (rowOK : VMItem → bool)
  (constraintError : error) (parseIPv6 : string → option IP) (cidrError : string → error).
#[local] Notation W := (Db AppTables * H)%type.
#[local] Instance frame_vms : Repository W := app_vms like marshal rowOK constraintError.
#[local] Instance frame_volumes : VolumeRepository W := app_volumes like constraintError.
#[local] Instance frame_leases : LeaseRepository W := app_leases constraintError parseIPv6 cidrError.

Lemma inVMs_query {A} (q : list VMItem → A) : reads (H := H) (λ t a, a = q (at_vms t)) (inVMs (query q)).
Proof. apply reads_query, setVMs_id. Qed.

Lemma inVolumes_query {A} (q : list VolumeItem → A) : reads (H := H) (λ t a, a = q (at_volumes t)) (inVolumes (query q)).
Proof. apply reads_query, setVolumes_id. Qed.

Lemma setLeases_id t : setLeaseTables (at_leases t) t = t.
Proof. by destruct t. Qed.

(** A query of leases, with no other process at work. *)
Lemma inLeases_select {A} (q : LeaseTables → A) :
  reads (H := H) (λ t a, a = q (at_leases t)) (inLeases (select q)).
Proof.
  intros [[t f c] h]. unfold inLeases, inDb, onPart, alone, select, exec, interfere. cbn.
  change (statement _ ?d) with (query q d). destruct (query q (Db_ (at_leases t) f c)) as [r p] eqn:E. cbn.
  pose proof E as [Et Ec]%query_tables. cbn in Et, Ec. rewrite Et, Ec, setLeases_id.
  split; [|intros a ->; by apply query_Ok in E as [-> _]].
  split_and!; [done..|]. cbn. intros ->. unfold query, statement in E. cbn in E. by injection E as _ <-.
Qed.
End Queries.

(** ** The enricher *)

(** It moves the world along [R] and keeps the rows it loads relations for. *)
Definition rowsOnly {W A B} (R : relation W) (s s' : list (A * B) * W) : Prop := R s.2 s'.2 ∧ s'.1.*1 = s.1.*1.

#[export] Instance rowsOnly_preorder {W A B} (R : relation W) `{!PreOrder R} : PreOrder (rowsOnly (A := A) (B := B) R).
Proof.
  split; [intros s; split; reflexivity|]. intros s1 s2 s3 [H1 E1] [H2 E2]. split; [by etrans|congruence].
Qed.

Section Enricher.
Context {W : Type} (R : relation W) `{!PreOrder R}.
Context {A B : Type}.
#[local] Notation I := (A * B)%type.
#[local] Notation kept := (rowsOnly (A := A) (B := B) R).

Lemma outside_kept {T} (m : GoM W error T) :
  upholds (A := result error T) R m → upholds (A := result error T) kept (onOutside m).
Proof. intros Hm [items w]. unfold onOutside. specialize (Hm w). cbn [fst snd]. by destruct (m w). Qed.

Lemma items_kept : upholds (A := result error (list I)) kept theItems.
Proof. intros s. unfold theItems. cbn [snd]. reflexivity. Qed.

Lemma update_kept (f : I → I) : (∀ x, (f x).1 = x.1) → upholds (A := result error unit) kept (updateItems f).
Proof.
  intros Hf [items w]. unfold updateItems. cbn [fst snd]. split; cbn [fst snd]; [reflexivity|].
  rewrite <- list_fmap_compose. apply list_fmap_ext. intros i x _. simpl. apply Hf.
Qed.

Lemma fetchAll_kept {T} (get : string → GoM W error (option T)) ids found :
  (∀ id, upholds (A := result error (option T)) R (get id)) →
  upholds (A := result error (gmap string T)) kept (fetchAll get ids found).
Proof.
  intros Hget. revert found. induction ids as [|id ids IH]; intros found; cbn [fetchAll]; [upholds|].
  apply upholds_okbind; [apply _|apply upholds_try, outside_kept, Hget|].
  intros [[x|]|e]; [apply IH..|]. destruct (isEnrichmentError e); [apply IH|upholds].
Qed.

Lemma forward_kept {T} (fk : I → string) (set : option T → I → I) get :
  (∀ id, upholds (A := result error (option T)) R (get id)) → (∀ t x, (set t x).1 = x.1) →
  upholds (A := result error unit) kept (enrichForward fk set get).
Proof.
  intros Hget Hset. unfold enrichForward. apply upholds_okbind; [apply _|apply items_kept|]. intros items.
  case_bool_decide; [upholds|]. apply upholds_okbind; [apply _|by apply fetchAll_kept|].
  intros found. apply update_kept. intros x. by case_bool_decide.
Qed.

Lemma softly_kept {T} (m : GoM W error T) :
  upholds (A := result error T) R m → upholds (A := result error (option T)) kept (softly m).
Proof.
  intros Hm. unfold softly. apply upholds_okbind; [apply _|by apply upholds_try, outside_kept|].
  intros [t|e]; [upholds|]. destruct (isEnrichmentError e); upholds.
Qed.

Lemma paths_kept registry load include :
  (∀ path, upholds (A := result error unit) kept (load path)) →
  upholds (A := result error unit) kept (enrichPaths registry load include).
Proof.
  intros Hload. unfold enrichPaths. apply upholds_okbind; [apply _|apply items_kept|]. intros items.
  case_bool_decide; [upholds|]. destruct (resolveInclude include registry) as [paths|e]; [|upholds].
  induction paths as [|p paths IH]; cbn [eachPath]; [upholds|].
  apply upholds_okbind; [apply _|apply Hload|intros _; exact IH].
Qed.
End Enricher.

Section EnrichVM.
Context {W : Type} (R : relation W) `{!PreOrder R}.
Context `{Repository W} `{NetworkRepository W} `{LeaseRepository W} `{ImageRepository W} `{KernelRepository W}
  `{BinaryRepository W} `{VolumeRepository W} `{VsockRepository W} `{SnapshotRepository W}.
Context (rangeIDs : gset string → list string).
Context (Hkernel : ∀ id, upholds (A := result error _) R (kr_Get id)) (Himage : ∀ id, upholds (A := result error _) R (ir_Get id))
  (Hbinary : ∀ id, upholds (A := result error _) R (br_Get id)) (Hnetwork : ∀ id, upholds (A := result error _) R (nr_Get id))
  (Hleases : ∀ ids, upholds (A := result error _) R (LListAllBatch ids))
  (Hvolumes : ∀ ids, upholds (A := result error _) R (vr_FindByIDs ids))
  (Hdevices : ∀ ids, upholds (A := result error _) R (vkr_ListByVMIDs ids)).

Lemma EnrichVM_kept include : upholds (A := result error unit) (rowsOnly R) (EnrichVM (W := W) rangeIDs include).
Proof.
  apply paths_kept; [apply _|]. intros path. unfold enrichVMPath.
  case_bool_decide; [by apply forward_kept|]. case_bool_decide; [by apply forward_kept|].
  case_bool_decide; [by apply forward_kept|]. case_bool_decide; [by apply forward_kept|].
  case_bool_decide; [|case_bool_decide; [|case_bool_decide; [|upholds]]].
  - unfold enrichVMNetworkLeases. apply upholds_okbind; [apply _|apply items_kept; apply _|]. intros items.
    case_bool_decide; [upholds|]. apply upholds_okbind; [apply _|by apply softly_kept|].
    intros [l|]; [|upholds]. apply update_kept; [apply _|]. intros x. by destruct (vr_Network x.2).
  - unfold enrichVMVolumes. apply upholds_okbind; [apply _|apply items_kept; apply _|]. intros items.
    case_bool_decide; [upholds|]. apply upholds_okbind; [apply _|apply softly_kept; [apply _|]|].
    + unfold resolveByVMVolumeIDs. case_bool_decide; [upholds|]. apply upholds_okbind; [apply _|apply Hvolumes|]. intros. upholds.
    + intros [l|]; [|upholds]. apply update_kept; [apply _|]. intros x. by case_bool_decide.
  - unfold enrichVMVsock. apply upholds_okbind; [apply _|apply items_kept; apply _|]. intros items.
    case_bool_decide; [upholds|]. apply upholds_okbind; [apply _|by apply softly_kept|].
    intros [l|]; [|upholds]. apply update_kept; [apply _|]. intros x. by destruct (_ !! _).
Qed.
End EnrichVM.
