(* ===== verification/Attach.v ===== *)
(** * Who a volume belongs to

    What the operations on volumes ([VolumeAPI]) do to the tables of machines and
    volumes of one database ([AppDb]).  The host, with the processes, files and
    guests, is arbitrary; the statements of the database do not fail where an
    invariant is claimed ([VolumeAttach_owned]), and may fail in [VolumeDetach_effect].

    The claim of the code is that a volume is in the hands of one machine unless
    it is shared and read-only: [owned].  Attaching keeps it.  Detaching does not,
    because it never looks at whom the volume is attached to. *)

From stdpp Require Import gmap strings list.
From S2P Require Import Prelude GoStrings Errs Model Inputs Infra Sql System VMRepo VMResolver FcConfig Files Resolving Volumes VMControl IPNet Lease Names NetAPI VolumeAPI AppDb.
#[local] Open Scope string_scope.

(** The columns of the table of volumes that have no duplicates. *)
Record volumesOK (t : list VolumeItem) : Prop := {
  v_ids : NoDup (vol_ID <$> t);
  v_names : NoDup (vol_Name <$> t);
}.

(** Every volume a machine lists is recorded as attached to that machine. *)
Definition owned (t : AppTables) : Prop := ∀ vm v,
  vm ∈ at_vms t → v ∈ at_volumes t → freelyShared v = false → vol_ID v ∈ vm_VolumeIDs vm →
  vol_Status v = VolumeStatusAttached ∧ vol_VMID v = Some (vm_ID vm).

(** So two machines never list the same volume. *)
Lemma owned_one_owner t vm1 vm2 v :
  owned t → vm1 ∈ at_vms t → vm2 ∈ at_vms t → v ∈ at_volumes t → freelyShared v = false →
  vol_ID v ∈ vm_VolumeIDs vm1 → vol_ID v ∈ vm_VolumeIDs vm2 → vm_ID vm1 = vm_ID vm2.
Proof.
  intros Ho H1 H2 Hv Hf Hl1 Hl2. destruct (Ho vm1 v H1 Hv Hf Hl1) as [_ E1], (Ho vm2 v H2 Hv Hf Hl2) as [_ E2]. congruence.
Qed.

Section Attach.
Context {H : Type} `{Host H} `{Firecracker H} `{ConfigManager H} `{OpEnv H} `{GuestEnv H}.
Context (like : string → string → bool) (marshal : list string → string) (rowOK : VMItem → bool)
  (constraintError : error).

#[local] Notation W := (Db AppTables * H)%type.
#[local] Existing Instance app_vms.
#[local] Existing Instance app_volumes.
#[local] Instance repo_vms : Repository W := app_vms like marshal rowOK constraintError.
#[local] Instance repo_volumes : VolumeRepository W := app_volumes like constraintError.

(** ** Finding the machine and the volume *)

Lemma reads_vms {A} (P : AppTables → A → Prop) (q : list VMItem → A) :
  (∀ t, P t (q (at_vms t))) → reads (H := H) P (inVMs (query q)).
Proof.
  intros HP. eapply reads_weaken; [|apply reads_query, setVMs_id]. intros t a Ha. simpl in Ha. subst a. apply HP.
Qed.

Lemma reads_volumes {A} (P : AppTables → A → Prop) (q : list VolumeItem → A) :
  (∀ t, P t (q (at_volumes t))) → reads (H := H) P (inVolumes (query q)).
Proof.
  intros HP. eapply reads_weaken; [|apply reads_query, setVolumes_id]. intros t a Ha. simpl in Ha. subst a. apply HP.
Qed.

Lemma inVMs_wrapErr {A} msg (m : GoM (Db (list VMItem)) error A) :
  ∀ w : W, inVMs (wrapErr msg m) w =
    match inVMs m w with (Err e, w') => (Err (Errorf (msg ++ ": " ++ Error e) (Some e)), w') | r => r end.
Proof. intros [d h]. unfold inVMs, inDb, onPart, wrapErr. cbn [fst snd]. by destruct (m _) as [[a|e] p]. Qed.

Lemma reads_wrapErr {A} (P : AppTables → A → Prop) msg (m : GoM (Db (list VMItem)) error A) :
  reads (H := H) P (inVMs m) → reads (H := H) P (inVMs (wrapErr msg m)).
Proof.
  intros Hm w. rewrite inVMs_wrapErr. destruct (Hm w) as [E HP].
  destruct (inVMs m w) as [[a|e] w']; cbn [fst snd] in *; by split.
Qed.

#[local] Notation isVM := (λ t vm, vm ∈ at_vms t).
#[local] Notation isVolume := (λ t v, v ∈ at_volumes t).

(** A query for at most one row. *)
Lemma getOr_reads (m : GoM W error (option VMItem)) e :
  reads (H := H) (λ t o, ∀ x, o = Some x → isVM t x) m →
  reads (H := H) isVM (o ← m; match o with None => throw e | Some x => mret x end).
Proof.
  intros Hm. eapply reads_bind; [exact Hm|]. intros [x|]; [|apply reads_throw].
  apply reads_ret. intros t Hx. by apply Hx.
Qed.

Lemma head_filter_reads (P : VMItem → bool) : reads (H := H) (λ t o, ∀ x, o = Some x → isVM t x) (inVMs (sqlGet P)).
Proof.
  apply reads_vms. intros t x Hx%head_Some_elem_of. apply list_elem_of_filter in Hx; tauto.
Qed.

Lemma VMResolve_reads identifier : reads (H := H) isVM (VMResolver.Resolve (W := W) identifier).
Proof.
  unfold VMResolver.Resolve. eapply reads_bind.
  { apply reads_try, getOr_reads, head_filter_reads. }
  intros [vm|err]; [by apply reads_ret|]. eapply reads_weaken; [intros t a Ha _; exact Ha|].
  case_decide; [apply reads_throw|]. repeat case_match; [apply getOr_reads, head_filter_reads..|].
  eapply reads_bind.
  - apply reads_wrapErr. apply reads_vms with (P := λ t l, ∀ x, x ∈ l → isVM t x).
    intros t x Hx. apply list_elem_of_filter in Hx; tauto.
  - intros [|x [|]]; [apply reads_throw| |apply reads_throw].
    apply reads_ret. intros t Ht. apply Ht. left.
Qed.

Lemma volResolve_reads identifier : reads (H := H) isVolume (vol_Resolve (W := W) None None identifier).
Proof.
  unfold vol_Resolve. eapply reads_bind; [apply reads_try|].
  - eapply (reads_bind (λ t o, ∀ x, o = Some x → isVolume t x)).
    + apply reads_volumes. intros t x Hx%head_Some_elem_of. apply list_elem_of_filter in Hx. tauto.
    + intros [v|]; [|apply reads_throw]. apply (reads_ret (H := H) _ v). intros t Ht. by apply Ht.
  - intros [v|err]; [by apply reads_ret|]. eapply reads_weaken; [intros t a Ha _; exact Ha|].
    case_decide; [apply reads_throw|].
    eapply (reads_bind (λ t l, ∀ x, x ∈ l → isVolume t x)).
    + apply reads_volumes. intros t x Hx. apply list_elem_of_filter in Hx. tauto.
    + intros [|v [|]]; [apply reads_throw| |apply reads_throw].
      apply (reads_ret (H := H) _ v). intros t Ht. apply Ht. left.
Qed.

Lemma volOr_reads {A} (P : AppTables → A → Prop) (m : GoM W error A) f : reads P m → reads P (volOr m f).
Proof.
  intros Hm. unfold volOr. eapply reads_bind; [by apply reads_try|].
  intros [a|e]; [by apply reads_ret|apply reads_throw].
Qed.

Lemma theTwo_reads input :
  reads (H := H) (λ t two, isVM t two.1 ∧ isVolume t two.2) (theTwo (W := W) input).
Proof.
  unfold theTwo. eapply reads_bind.
  { unfold vli_ResolveVM. case_bool_decide; [apply reads_throw|]. apply volOr_reads, VMResolve_reads. }
  intros vm. eapply (reads_bind (λ t l, ∀ x, x ∈ l → isVolume t x)).
  - apply volOr_reads. unfold vli_ResolveAll. eapply (reads_bind (λ t r, ∀ x, x ∈ r.1 → isVolume t x)).
    + unfold vli_Resolve. case_bool_decide.
      { apply reads_calls_ret. intros t x []%elem_of_nil. }
      eapply (reads_calls_bind (λ t r, ∀ x, x ∈ rs_Items r → isVolume t x)).
      * unfold vol_ResolveMany. eapply reads_calls_bind; [apply resolveAll_reads, volResolve_reads|].
        intros [l errs]. cbn [vol_enrich]. eapply (reads_calls_bind (λ t l', l' = l)); [by apply reads_calls_ret|].
        intros l'. apply reads_calls_ret. intros t -> Hx. exact Hx.
      * intros r. apply reads_calls_ret. intros t Hr. repeat case_bool_decide; [done| |done]. intros x []%elem_of_nil.
    + intros [l [e|]]; [apply reads_throw|]. by apply reads_ret.
  - intros [|v [|]]; [apply reads_throw| |apply reads_throw].
    apply reads_ret. intros t Hl Hvm. split; [done|]. apply Hl. left.
Qed.

(** ** Machines that run *)

Lemma onController_same {A} vm (m : GoM (VMItem * W) error A) :
  (∀ s, (m s).2.2.1 = s.2.1) → upholds (A := result error A) sameDb (onController vm m).
Proof.
  intros Hm w. unfold onController, sameDb. specialize (Hm (vm, w)). by destruct (m (vm, w)) as [r [vm' w']].
Qed.

Lemma lift_db {A} (m : GoM W error A) s : (∀ w : W, (m w).2.1 = w.1) → (VMControl.lift m s).2.2.1 = s.2.1.
Proof. intros Hm. unfold VMControl.lift. specialize (Hm s.2). by destruct (m s.2). Qed.

Lemma ignored_same {A} (m : GoM W error A) :
  upholds (A := result error A) sameDb m → upholds (A := result error unit) sameDb (dropped m).
Proof. intros Hm. unfold dropped. upholds. Qed.

Lemma volOr_same {A} (m : GoM W error A) f :
  upholds (A := result error A) sameDb m → upholds (A := result error A) sameDb (volOr m f).
Proof. intros Hm. unfold volOr. upholds. Qed.

Lemma AttachVolume_same vm d : upholds (A := result error unit) sameDb (onController (W := W) vm (AttachVolume d)).
Proof.
  apply onController_same. intros [vm' w]. unfold AttachVolume, getVM. rewrite !bind_unfold. cbn [fst snd].
  pose proof (lift_db (PutDrive (vm_APISocketPath vm') d) (vm', w)) as HP.
  destruct (VMControl.lift _ (vm', w)) as [[u|e] s]; cbn [fst snd] in *.
  - rewrite lift_db; [apply HP|]; intros w'; apply (onHost_same _ w').
  - apply HP. intros w'; apply (onHost_same _ w').
Qed.

Lemma DetachVolume_same vm d : upholds (A := result error unit) sameDb (onController (W := W) vm (DetachVolume d)).
Proof.
  apply onController_same. intros [vm' w]. unfold DetachVolume, getVM. rewrite !bind_unfold. cbn [fst snd].
  pose proof (lift_db (DeleteDrive (vm_APISocketPath vm') d) (vm', w)) as HP.
  destruct (VMControl.lift _ (vm', w)) as [[u|e] s]; cbn [fst snd] in *.
  - rewrite bind_unfold. pose proof (lift_db (ConfigRemoveDrive (vm_ConfigPath vm') d) s) as HC.
    destruct (VMControl.lift _ s) as [[b|e] s']; cbn [fst snd] in *;
      (change (s'.2.1 = w.1); rewrite HC; [apply HP|]; intros w'; apply (onHost_same _ w')).
  - apply HP. intros w'; apply (onHost_same _ w').
Qed.

Lemma versionGate_same vm feature what advice :
  upholds (A := result error unit) sameDb (versionGate (W := W) vm feature what advice).
Proof.
  unfold versionGate. case_bool_decide; [upholds|]. apply upholds_okbind; [apply _| |intros].
  - apply upholds_try, onHost_same.
  - upholds.
Qed.

Lemma guestClient_same vm : upholds (A := result error bool) sameDb (guestClient (W := W) vm).
Proof.
  unfold guestClient. apply upholds_okbind; [apply _| |intros].
  - apply upholds_try, onHost_same.
  - upholds.
Qed.

Lemma guestCall_same {A} (b : bool) (m : GoM H error A) :
  upholds (A := result error unit) sameDb (if b then dropped (W := W) (onHost m) else mret (M := GoM W error) ()).
Proof. destruct b; [apply ignored_same, onHost_same|upholds]. Qed.

Lemma hotplug_same vm v : upholds (A := result error unit) sameDb (hotplug (W := W) vm v).
Proof.
  unfold hotplug. destruct (negb _); [upholds|].
  apply upholds_okbind; [apply _|apply versionGate_same|intros _].
  apply upholds_okbind; [apply _|apply volOr_same, AttachVolume_same|intros _].
  apply upholds_okbind; [apply _|apply guestClient_same|intros c]. apply guestCall_same.
Qed.

Lemma hotUnplug_same vm v : upholds (A := result error unit) sameDb (hotUnplug (W := W) vm v).
Proof.
  unfold hotUnplug. apply upholds_okbind; [apply _|apply versionGate_same|intros _].
  apply upholds_okbind; [apply _|apply guestClient_same|intros c].
  apply upholds_okbind; [apply _|apply guestCall_same|intros _].
  apply upholds_okbind; [apply _|apply ignored_same, DetachVolume_same|intros _]. apply guestCall_same.
Qed.

(** ** The two statements *)

(** The machines after a write whose failure is only logged. *)
Definition written (now : string) (vm : VMItem) (t : list VMItem) : list VMItem :=
  match upsertRow rowOK constraintError now vm t with Ok (_, t') => t' | Err _ => t end.

(** A row of the new table is one of the old table, or has the id and the
    volumes of the row written. *)
Lemma written_elem now vm t x :
  x ∈ written now vm t → x ∈ t ∨ (vm_ID x = vm_ID vm ∧ vm_VolumeIDs x = vm_VolumeIDs vm).
Proof.
  unfold written, upsertRow. case_decide; [by left|]. destruct (negb _); [by left|]. case_decide as Hin.
  - intros (y & -> & Hy)%list_elem_of_fmap. case_decide; [right|by left]. done.
  - intros [Hx| ->%list_elem_of_singleton]%elem_of_app; [by left|by right].
Qed.

(** Writing back a row of the table, under its id and name. *)
Lemma volUpsertRow_back now v u t :
  volumesOK t → v ∈ t → vol_ID u = vol_ID v → vol_Name u = vol_Name v →
  volUpsertRow constraintError u now t =
    Ok ((), updateRow vol_ID (vol_ID v) (λ old, volSetTimes (vol_CreatedAt old) now u) t).
Proof.
  intros [Hids Hnames] Hv Hid Hname. unfold volUpsertRow. rewrite decide_False.
  - unfold upsertBy. rewrite decide_True; [by rewrite Hid|]. rewrite Hid. by apply list_elem_of_fmap_2.
  - intros (x & Hx & [Hn Hi])%Exists_exists. apply Hi. rewrite Hid. f_equal.
    apply (elem_of_fmap_inj vol_Name t); [done..|congruence].
Qed.

(** A statement on the machines, or on the volumes, of a healthy database. *)
Lemma Upsert_healthy vm (w : W) :
  faults w.1 = [] →
  ∃ r, Upsert (W := W) vm w =
    (r, (Db_ (setVMs (written (clock w.1) vm (at_vms (tables w.1))) (tables w.1)) [] (clock w.1), w.2)).
Proof.
  destruct w as [[t f c] h]. cbn [fst snd faults tables clock]. intros ->. cbn. unfold inVMs, inDb, onPart, written. cbn.
  destruct (upsertRow _ _ c vm (at_vms t)) as [[[] vms]|e]; eauto.
Qed.

Lemma vr_Upsert_back v u (w : W) :
  faults w.1 = [] → volumesOK (at_volumes (tables w.1)) → v ∈ at_volumes (tables w.1) →
  vol_ID u = vol_ID v → vol_Name u = vol_Name v →
  vr_Upsert (W := W) u w =
    (Ok (), (Db_ (setVolumes (updateRow vol_ID (vol_ID v) (λ old, volSetTimes (vol_CreatedAt old) (clock w.1) u)
                                (at_volumes (tables w.1))) (tables w.1)) [] (clock w.1), w.2)).
Proof.
  destruct w as [[t f c] h]. cbn [fst snd faults tables clock]. intros -> Hok Hv Hid Hname.
  cbn. unfold inVolumes, inDb, onPart. cbn. by rewrite (volUpsertRow_back c v u).
Qed.

(** ** Recording *)

(** What [Attach] and [Detach] of the controller of a volume do. *)
Definition mark (st : VolumeStatus) (o : option string) (v : VolumeItem) : GoM W error VolumeItem :=
  if freelyShared v then mret v
  else (_ ← vr_Upsert (W := W) (volSetState st o v); mret (volSetState st o v)).

Definition marked (now : string) (st : VolumeStatus) (o : option string) (v : VolumeItem) (t : list VolumeItem) : list VolumeItem :=
  if freelyShared v then t
  else updateRow vol_ID (vol_ID v) (λ old, volSetTimes (vol_CreatedAt old) now (volSetState st o v)) t.

Lemma dropped_unfold {A} (m : GoM W error A) w : dropped m w = (Ok (), (m w).2).
Proof. unfold dropped. by rewrite bind_try. Qed.

Lemma record_healthy st o ids vm v (w : W) :
  faults w.1 = [] → volumesOK (at_volumes (tables w.1)) → v ∈ at_volumes (tables w.1) →
  (_ ← dropped (mark st o v); dropped (Upsert (W := W) (vmSetVolumeIDs ids vm))) w =
    (Ok (), (Db_ (AppTables_ (written (clock w.1) (vmSetVolumeIDs ids vm) (at_vms (tables w.1)))
                   (marked (clock w.1) st o v (at_volumes (tables w.1))) (at_leases (tables w.1))) []
                 (clock w.1), w.2)).
Proof.
  intros Hf Hok Hv. rewrite bind_unfold, dropped_unfold.
  assert ((mark st o v w).2 = (Db_ (setVolumes (marked (clock w.1) st o v (at_volumes (tables w.1))) (tables w.1)) []
            (clock w.1), w.2)) as E.
  { unfold mark, marked. destruct (freelyShared v).
    - destruct w as [[[] f c] h]. cbn in *. by subst f.
    - rewrite bind_unfold. by rewrite (vr_Upsert_back v _ w). }
  rewrite E, dropped_unfold. destruct (Upsert_healthy (vmSetVolumeIDs ids vm)
    (Db_ (setVolumes (marked (clock w.1) st o v (at_volumes (tables w.1))) (tables w.1)) [] (clock w.1), w.2)) as (r & Eu);
    [done|]. by rewrite Eu.
Qed.

(** A write to one part of the tables is done or not, and is done when no
    statement fails. *)
Lemma part_write {T} (get : AppTables → T) set (f : string → T → result error (() * T)) (w : W) :
  (∀ t, set (get t) t = t) →
  ∃ didIt : bool, (faults w.1 = [] → didIt = true) ∧
    let d := (inDb (onPart get set (statement f)) w).2.1 in
    clock d = clock w.1 ∧ (faults w.1 = [] → faults d = []) ∧
    tables d = if didIt then match f (clock w.1) (get (tables w.1)) with Ok (_, t) => set t (tables w.1) | Err _ => tables w.1 end
               else tables w.1.
Proof.
  intros Hset. destruct w as [[t fs c] h]. unfold inDb, onPart, statement. cbn [fst snd tables faults clock].
  exists (match fs with Some _ :: _ => false | _ => true end). split; [by intros ->|].
  destruct fs as [|[e|] fs]; cbn [fst snd tables faults clock]; [| |destruct (f c (get t)) as [[[] p]|e]; cbn; by rewrite ?Hset].
  - destruct (f c (get t)) as [[[] p]|e]; cbn; by rewrite ?Hset.
  - by rewrite Hset.
Qed.

Lemma mark_any st o v (w : W) :
  volumesOK (at_volumes (tables w.1)) → v ∈ at_volumes (tables w.1) →
  ∃ didIt : bool, (faults w.1 = [] → didIt = true) ∧
    let d := (mark st o v w).2.1 in
    clock d = clock w.1 ∧ (faults w.1 = [] → faults d = []) ∧
    tables d = setVolumes (if didIt then marked (clock w.1) st o v (at_volumes (tables w.1)) else at_volumes (tables w.1)) (tables w.1).
Proof.
  intros Hok Hv. unfold mark, marked. destruct (freelyShared v).
  { exists true. cbn. by rewrite setVolumes_id. }
  rewrite bind_unfold. change (vr_Upsert (W := W) ?u) with (inVolumes (H := H) (statement (volUpsertRow constraintError u))).
  destruct (part_write at_volumes setVolumes (volUpsertRow constraintError (volSetState st o v)) w setVolumes_id) as (b & Hb & Hd).
  unfold inVolumes. destruct (inDb _ w) as [[u|e] w1]; cbn [fst snd] in *; exists b; rewrite (volUpsertRow_back _ v) in Hd by done;
    destruct Hd as (Hc & Hfs & Ht); cbv zeta; cbn; rewrite Ht; (split_and!; [done..|]); destruct b; by rewrite ?setVolumes_id.
Qed.

(** Whatever fails, each of the two writes is done or not. *)
Lemma record_any st o ids vm v (w : W) :
  volumesOK (at_volumes (tables w.1)) → v ∈ at_volumes (tables w.1) →
  ∃ marks lists : bool, (faults w.1 = [] → marks = true ∧ lists = true) ∧
    let run := (_ ← dropped (mark st o v); dropped (Upsert (W := W) (vmSetVolumeIDs ids vm))) w in
    run.1 = Ok () ∧ tables run.2.1 =
      AppTables_ (if lists then written (clock w.1) (vmSetVolumeIDs ids vm) (at_vms (tables w.1)) else at_vms (tables w.1))
        (if marks then marked (clock w.1) st o v (at_volumes (tables w.1)) else at_volumes (tables w.1)) (at_leases (tables w.1)).
Proof.
  intros Hok Hv. destruct (mark_any st o v w Hok Hv) as (b1 & Hb1 & Hc1 & Hf1 & Ht1). rewrite bind_unfold, dropped_unfold.
  destruct (mark st o v w) as [m w1]. cbn [fst snd] in *. rewrite dropped_unfold. set (row := vmSetVolumeIDs ids vm).
  change (Upsert (W := W) row) with (inVMs (H := H) (statement (λ now t, upsertRow rowOK constraintError now row t))).
  destruct (part_write at_vms setVMs (λ now t, upsertRow rowOK constraintError now row t) w1 setVMs_id) as (b2 & Hb2 & _ & _ & Ht2).
  exists b1, b2. split; [auto|]. split; [done|]. cbn [snd]. unfold inVMs. rewrite Ht2, Hc1, Ht1. unfold written.
  destruct b2; [|done]. cbn. set (r := upsertRow _ _ _ _ _).
  change (upsertRow rowOK constraintError (clock w.1) row (at_vms (tables w.1))) with r. by destruct r as [[[] t']|e].
Qed.

(** A row of the new table is a row of the old one, or the one that was marked. *)
Lemma marked_elem now st o v t u :
  u ∈ marked now st o v t → v ∈ t → volumesOK t →
  (u ∈ t ∧ (freelyShared v = false → vol_ID u ≠ vol_ID v)) ∨
  (freelyShared v = false ∧ u = volSetTimes (vol_CreatedAt v) now (volSetState st o v)).
Proof.
  unfold marked. intros Hu Hv [Hids _]. destruct (freelyShared v) eqn:Ef; [by left|].
  apply list_elem_of_fmap in Hu as (y & -> & Hy). case_decide as Hd; [right|by left].
  split; [done|]. by rewrite (elem_of_fmap_inj vol_ID t y v).
Qed.

Lemma owned_attach now vm v t ids :
  owned t → volumesOK (at_volumes t) → vm ∈ at_vms t → v ∈ at_volumes t →
  (vol_Status v ≠ VolumeStatusAttached) →
  (∀ id, id ∈ ids → id = vol_ID v ∨ id ∈ vm_VolumeIDs vm) →
  owned (AppTables_ (written now (vmSetVolumeIDs ids vm) (at_vms t))
           (marked now VolumeStatusAttached (Some (vm_ID vm)) v (at_volumes t)) (at_leases t)).
Proof.
  intros Ho Hok Hvm Hv Hst Hids x u Hx Hu Hf Hl. cbn [at_vms at_volumes] in *.
  apply written_elem in Hx as Hx'. cbn in Hx'.
  destruct (marked_elem _ _ _ _ _ u Hu Hv Hok) as [[Hu' Hne]|[Hfv ->]].
  - destruct Hx' as [Hx'|[Hid Hl']]; [by apply (Ho x u)|]. rewrite Hl' in Hl.
    destruct (Hids _ Hl) as [Heq|Hin]; [|rewrite Hid; by apply (Ho vm u)].
    destruct (freelyShared v) eqn:Ef; [|by destruct Hne].
    rewrite (elem_of_fmap_inj vol_ID (at_volumes t) u v) in Hf; [congruence|by apply Hok|done..].
  - cbn. split; [done|]. f_equal. destruct Hx' as [Hx'|[Hid _]]; [|done].
    destruct (Ho x v Hx' Hv Hfv Hl) as [Ha _]. done.
Qed.

(** ** The operations *)

(** The machine is told when it runs, then the tables are written. *)
Lemma told_record (tell : GoM W error unit) st o ids op context vm v (w : W) r w' :
  upholds (A := result error unit) sameDb tell →
  faults w.1 = [] → volumesOK (at_volumes (tables w.1)) → v ∈ at_volumes (tables w.1) →
  (_ ← tell;
   _ ← (_ ← dropped (mark st o v); dropped (Upsert (W := W) (vmSetVolumeIDs ids vm)));
   calls (LogOperation op context)) w = (r, w') →
  match r with
  | Err _ => w'.1 = w.1
  | Ok _ => w'.1 = Db_ (AppTables_ (written (clock w.1) (vmSetVolumeIDs ids vm) (at_vms (tables w.1)))
                       (marked (clock w.1) st o v (at_volumes (tables w.1))) (at_leases (tables w.1))) [] (clock w.1)
  end.
Proof.
  intros Htell Hf Hok Hv Erun. specialize (Htell w). unfold sameDb in Htell.
  rewrite (bind_unfold tell) in Erun. destruct (tell w) as [[u|e] w1]; cbn [fst snd] in *; [|by injection Erun as <- <-].
  rewrite <- Htell in *. clear Htell. pose proof (record_healthy st o ids vm v w1 Hf Hok Hv) as E.
  rewrite (bind_unfold (_ ← dropped (mark st o v); dropped (Upsert (vmSetVolumeIDs ids vm)))), E in Erun.
  pose proof (onHost_same (LogOperation (W := H) op context) : upholds sameDb (LogOperation (W := W) op context)) as Hs.
  match type of Erun with calls _ ?w0 = _ => specialize (Hs w0) end. unfold calls in Erun.
  destruct (LogOperation (W := W) op context _) as [u' w2]. by injection Erun as <- <-.
Qed.

Lemma VolumeAttach_cases input (w : W) :
  faults w.1 = [] → volumesOK (at_volumes (tables w.1)) →
  let run := VolumeAttach (W := W) input w in
  match run.1 with
  | Err _ => run.2.1 = w.1
  | Ok _ => ∃ vm v, vm ∈ at_vms (tables w.1) ∧ v ∈ at_volumes (tables w.1) ∧ vol_Status v ≠ VolumeStatusAttached ∧
      run.2.1 = Db_ (AppTables_ (written (clock w.1) (vmSetVolumeIDs (withVolume (vol_ID v) (vm_VolumeIDs vm)) vm) (at_vms (tables w.1)))
                       (marked (clock w.1) VolumeStatusAttached (Some (vm_ID vm)) v (at_volumes (tables w.1))) (at_leases (tables w.1))) [] (clock w.1)
  end.
Proof.
  intros Hf Hok run. unfold run, VolumeAttach. clear run. rewrite !(bind_unfold (theTwo input)).
  destruct (reads_healthy _ _ w (theTwo_reads input) Hf) as [E Htwo]. destruct (theTwo input w) as [[[vm v]|e] w1]; cbn [fst snd] in *; [|done].
  destruct (Htwo _ eq_refl) as [Hvm Hv]. cbn [fst snd] in *. rewrite <- E in *. clear Htwo E.
  case_bool_decide as Hst; [done|]. destruct (_ && _); [done|].
  assert (upholds (A := result error unit) sameDb (if has vm VMStatusRunning then hotplug (W := W) vm v else mret (M := GoM W error) ())) as Htell.
  { destruct (has _ _); [apply hotplug_same|upholds]. }
  match goal with |- match (?x).1 with _ => _ end => destruct x as [r w2] eqn:E end.
  pose proof (told_record _ VolumeStatusAttached (Some (vm_ID vm)) _ _ _ vm v w1 r w2 Htell Hf Hok Hv E) as Hrun.
  destruct r as [u|e]; [|done]. by exists vm, v.
Qed.

(** The same, whatever fails. *)
Lemma told_any (tell : GoM W error unit) st o ids op context vm v (w : W) r w' :
  upholds (A := result error unit) sameDb tell → volumesOK (at_volumes (tables w.1)) → v ∈ at_volumes (tables w.1) →
  (_ ← tell;
   _ ← (_ ← dropped (mark st o v); dropped (Upsert (W := W) (vmSetVolumeIDs ids vm)));
   calls (LogOperation op context)) w = (r, w') →
  match r with
  | Err _ => w'.1 = w.1
  | Ok _ => ∃ marks lists : bool, (faults w.1 = [] → marks = true ∧ lists = true) ∧ tables w'.1 =
      AppTables_ (if lists then written (clock w.1) (vmSetVolumeIDs ids vm) (at_vms (tables w.1)) else at_vms (tables w.1))
        (if marks then marked (clock w.1) st o v (at_volumes (tables w.1)) else at_volumes (tables w.1)) (at_leases (tables w.1))
  end.
Proof.
  intros Htell Hok Hv Erun. specialize (Htell w). unfold sameDb in Htell. rewrite (bind_unfold tell) in Erun.
  destruct (tell w) as [[u|e] w1]; cbn [fst snd] in *; [|by injection Erun as <- <-]. rewrite <- Htell in *. clear Htell.
  destruct (record_any st o ids vm v w1 Hok Hv) as (b1 & b2 & Hb & Hr & Ht).
  rewrite (bind_unfold (_ ← dropped (mark st o v); dropped (Upsert (vmSetVolumeIDs ids vm)))) in Erun.
  destruct ((_ ← dropped (mark st o v); dropped (Upsert (vmSetVolumeIDs ids vm))) w1) as [r1 w2].
  cbn [fst snd] in *. subst r1. unfold calls in Erun.
  pose proof (onHost_same (LogOperation (W := H) op context) : upholds sameDb (LogOperation (W := W) op context)) as Hs.
  specialize (Hs w2). destruct (LogOperation (W := W) op context w2) as [u' w3]. injection Erun as <- <-.
  exists b1, b2. unfold sameDb in Hs. cbn [fst snd] in Hs. by rewrite Hs.
Qed.

Lemma marked_ok now st o v t : v ∈ t → volumesOK t → volumesOK (marked now st o v t).
Proof.
  intros Hv [Hids Hnames]. unfold marked, updateRow. destruct (freelyShared v); [done|].
  assert (∀ x, x ∈ t → vol_ID x = vol_ID v → x = v) as Hx.
  { intros x Hx Hid. by apply (elem_of_fmap_inj vol_ID t). }
  split.
  - rewrite <- list_fmap_compose. erewrite list_fmap_ext; [exact Hids|]. intros i x _. simpl. by case_decide.
  - rewrite <- list_fmap_compose. erewrite list_fmap_ext; [exact Hnames|].
    intros i x Hi%list_elem_of_lookup_2. simpl. case_decide as Hd; [|done]. by rewrite (Hx x Hi Hd).
Qed.

(** The invariant, on a database whose statements do not fail. *)
Definition inHands (w : W) : Prop :=
  faults w.1 = [] ∧ volumesOK (at_volumes (tables w.1)) ∧ owned (tables w.1).

(** C21. Attaching a volume, whether it succeeds or not, to a machine that runs or
    not and whatever the guest and Firecracker answer, keeps every volume in the
    hands of the one machine it is recorded as attached to. *)
Theorem VolumeAttach_owned (input : VolumeInput) (w : W) :
  inHands w → inHands (VolumeAttach input w).2.
Proof.
  intros (Hf & Hok & Ho). pose proof (VolumeAttach_cases input w Hf Hok) as Hrun. cbv zeta in Hrun.
  destruct (VolumeAttach input w) as [[u|e] w']; cbn [fst snd] in *.
  - destruct Hrun as (vm & v & Hvm & Hv & Hst & Hw'). unfold inHands. rewrite Hw'.
    split_and!; [done|by apply marked_ok|]. cbn [tables].
    apply owned_attach; [done..|]. unfold withVolume. intros id. case_bool_decide; [by right|].
    rewrite elem_of_app, list_elem_of_singleton. tauto.
  - unfold inHands. by rewrite Hrun.
Qed.

(** Writing back a machine of the table. *)
Lemma written_row now vm ids t :
  tableOK t → vm ∈ t →
  written now (vmSetVolumeIDs ids vm) t =
    if rowOK (vmSetVolumeIDs ids vm) then
      updateRow vm_ID (vm_ID vm) (λ old, vmSetTimes (vm_CreatedAt old) now (vmSetVolumeIDs ids vm)) t
    else t.
Proof.
  intros [Hids Hnames Hst] Hvm. unfold written, upsertRow. rewrite decide_False.
  - destruct (rowOK _); [|done]. cbn [negb]. rewrite decide_True by (change (vm_ID vm ∈ vm_ID <$> t); by apply list_elem_of_fmap_2).
    assert (vmStored (vmSetVolumeIDs ids vm) = vmSetVolumeIDs ids vm) as E.
    { specialize (Hst vm Hvm). destruct vm. unfold vmStored, vmSetVolumeIDs in *. cbn in *.
      injection Hst as ? ? ? ? ? ? ? ? ?. by subst. }
    rewrite E. done.
  - intros (x & Hx & [Hn Hi])%Exists_exists. apply Hi. cbn in *. f_equal. by apply (elem_of_fmap_inj vm_Name t).
Qed.

(** C22. Detaching a volume, in well-formed tables (ids and names are distinct, rows
    are as they are stored), whatever statements fail.  An error means that no
    table was changed.  Otherwise the machine and the volume are those the input
    names, and what may have changed are two rows: the volume is made available
    (unless it is one that machines share read-only, which is never marked) and it
    is taken off the list of that machine.  Each of the two writes is done or is
    not, since their failures are only logged; both are done when no statement
    fails and the row of the machine satisfies its constraints.  The machine the
    volume was recorded as attached to plays no part: it may be another one, which
    goes on listing the volume. *)
Theorem VolumeDetach_effect (input : VolumeInput) (w : W) :
  volumesOK (at_volumes (tables w.1)) → tableOK (at_vms (tables w.1)) →
  let run := VolumeDetach (W := W) input w in
  match run.1 with
  | Err _ => untouched w.1 run.2.1
  | Ok _ => ∃ vm v (freed unlisted : bool), (theTwo input w).1 = Ok (vm, v) ∧
      vm ∈ at_vms (tables w.1) ∧ v ∈ at_volumes (tables w.1) ∧
      (faults w.1 = [] → freed = true ∧ ((∀ x, rowOK x = true) → unlisted = true)) ∧
      tables run.2.1 = AppTables_
        (if unlisted then
           updateRow vm_ID (vm_ID vm) (λ old, vmSetTimes (vm_CreatedAt old) (clock w.1)
             (vmSetVolumeIDs (withoutVolume (vol_ID v) (vm_VolumeIDs vm)) vm)) (at_vms (tables w.1))
         else at_vms (tables w.1))
        (if freed then marked (clock w.1) VolumeStatusAvailable None v (at_volumes (tables w.1)) else at_volumes (tables w.1))
        (at_leases (tables w.1))
  end.
Proof.
  intros Hok Hvms run. unfold run, VolumeDetach. clear run. rewrite !(bind_unfold (theTwo input)).
  destruct (theTwo_reads input w) as [E Htwo]. destruct (theTwo input w) as [[[vm v]|e] w1]; cbn [fst snd] in *; [|done].
  destruct (Htwo _ eq_refl) as [Hvm Hv]. cbn [fst snd] in *. destruct E as (Et & Ec & Ef). rewrite <- Et, <- Ec in *. clear Htwo.
  assert (upholds (A := result error unit) sameDb (if has vm VMStatusRunning then hotUnplug (W := W) vm v
                                                   else mret (M := GoM W error) ())) as Htell.
  { destruct (has _ _); [apply hotUnplug_same|upholds]. }
  match goal with |- match (?x).1 with _ => _ end => destruct x as [r w2] eqn:E end.
  apply (told_any _ VolumeStatusAvailable None _ _ _ vm v w1 r w2 Htell Hok Hv) in E.
  destruct r as [u|e]; cbn [fst snd] in *; [|by rewrite E]. destruct E as (freed & lists & Hb & E).
  exists vm, v, freed, (lists && rowOK (vmSetVolumeIDs (withoutVolume (vol_ID v) (vm_VolumeIDs vm)) vm)).
  split_and!; [done..| |].
  - intros Hf. destruct (Hb (Ef Hf)) as [-> ->]. split; [done|]. intros Hrow. apply Hrow.
  - rewrite E. f_equal. destruct lists; [|done]. cbn [andb]. by apply written_row.
Qed.
End Attach.

(** ** Instances *)

Module AttachExamples.

(** A host on which every call succeeds and does nothing; the guests have no
    agent. *)
#[export] Instance quiet_host : Host unit := {|
  IsProcessAlive _ _ _ := false; KillProcess _ w := w; CaptureExitCode _ w := (None, w);
  GracefulShutdown _ w := (None, w);
|}.
#[export] Instance quiet_fc : Firecracker unit := {|
  SendCtrlAltDel _ := mret true; PauseVM _ := mret (); ResumeVM _ := mret (); StartInstance _ := mret ();
  UpdateDrivePath _ _ _ := mret (); CreateSnapshot _ _ _ := mret (); LoadSnapshot _ _ _ _ _ _ := mret ();
  PutDrive _ _ := mret (); DeleteDrive _ _ := mret ();
|}.
#[export] Instance quiet_config : ConfigManager unit := {|
  ConfigAddDrive _ _ := mret (); ConfigRemoveDrive _ _ := mret true;
|}.
#[export] Instance quiet_env : OpEnv unit := {|
  NowRFC3339 := mret "t1"; LogOperation _ _ := mret (); EnrichNetworkRefs _ := mret [];
  CheckPrivileges _ _ := mret (); ConfigString _ _ := mret ""; ConfigBool _ _ := mret false;
  UpdateComponent _ _ := mret ();
|}.
#[export] Instance quiet_guest : GuestEnv unit := {|
  VsockClient _ := mret false; RescanPCI _ := mret (); RemoveHotpluggedPCIDevice _ := mret ();
  bin_Get _ := mret None; EnrichVolumes _ := mret ();
|}.

Import RepoExamples.

Definition disk (id : string) (st : VolumeStatus) (owner : option string) : VolumeItem :=
  VolumeItem_ id id 1024%Z VolumeFormatRaw ("/disks/" ++ id) st owner "t0" "t0" false false "".
Definition worldOf (vms : list VMItem) (volumes : list VolumeItem) : Db AppTables * unit :=
  (Db_ (AppTables_ vms volumes (LeaseTables_ [] 1 [])) [] "t1", ()).

(** Two machines, a free disk [d1], and a disk [d2] in the hands of [web]. *)
Definition twoMachines : Db AppTables * unit :=
  worldOf [vmSetVolumeIDs ["d2"] (exVM "id1" "web"); exVM "id2" "db"]
          [disk "d1" VolumeStatusAvailable None; disk "d2" VolumeStatusAttached (Some "id1")].

Definition attach (vol vm : string) (w : Db AppTables * unit) : result error unit * (Db AppTables * unit) :=
  VolumeAttach (W := Db AppTables * unit) (H := app_vms noLike fixedMarshal allRows violated)
    (H0 := app_volumes noLike violated) (VolumeInput_ [vol] vm) w.
Definition detach (vol vm : string) (w : Db AppTables * unit) : result error unit * (Db AppTables * unit) :=
  VolumeDetach (W := Db AppTables * unit) (H := app_vms noLike fixedMarshal allRows violated)
    (H0 := app_volumes noLike violated) (VolumeInput_ [vol] vm) w.

Lemma twoMachines_inHands : inHands twoMachines.
Proof.
  split_and!; [done| |].
  - split; apply (bool_decide_unpack _); vm_compute; exact I.
  - intros vm v Hvm Hv _ Hl.
    apply elem_of_cons in Hvm as [->|[->|[]%elem_of_nil]%elem_of_cons]; [|by apply elem_of_nil in Hl].
    apply list_elem_of_singleton in Hl.
    apply elem_of_cons in Hv as [->|[->|[]%elem_of_nil]%elem_of_cons]; [done|by split].
Qed.

Lemma twoMachines_rows : tableOK (at_vms (tables twoMachines.1)).
Proof.
  split; [apply (bool_decide_unpack _); vm_compute; exact I..|].
  intros vm [->|[->|[]%elem_of_nil]%elem_of_cons]%elem_of_cons; reflexivity.
Qed.

(** The free disk goes to [db]; the disk of [web] does not. *)
Lemma VolumeAttach_owned_witness :
  (attach "d1" "db" twoMachines).1 = Ok () ∧
  (vol_VMID <$> at_volumes (tables (attach "d1" "db" twoMachines).2.1)) = [Some "id2"; Some "id1"] ∧
  inHands (attach "d1" "db" twoMachines).2 ∧
  is_Ok (attach "d2" "db" twoMachines).1 = false ∧
  inHands (attach "d2" "db" twoMachines).2.
Proof.
  split_and!; [vm_compute; reflexivity|vm_compute; reflexivity| |vm_compute; reflexivity|].
  - exact (VolumeAttach_owned noLike fixedMarshal allRows violated (VolumeInput_ ["d1"] "db") twoMachines twoMachines_inHands).
  - exact (VolumeAttach_owned noLike fixedMarshal allRows violated (VolumeInput_ ["d2"] "db") twoMachines twoMachines_inHands).
Defined.

(** The disk of [web] is detached from [db]: it is free to be attached again,
    while [web] goes on listing it. *)
Lemma VolumeDetach_effect_witness :
  (detach "d2" "db" twoMachines).1 = Ok () ∧
  (vol_Status <$> at_volumes (tables (detach "d2" "db" twoMachines).2.1)) = [VolumeStatusAvailable; VolumeStatusAvailable] ∧
  (vm_VolumeIDs <$> at_vms (tables (detach "d2" "db" twoMachines).2.1)) = [["d2"]; []] ∧
  ∃ vm v, vm ∈ at_vms (tables twoMachines.1) ∧ v ∈ at_volumes (tables twoMachines.1) ∧
    tables (detach "d2" "db" twoMachines).2.1 = AppTables_
      (updateRow vm_ID (vm_ID vm) (λ old, vmSetTimes (vm_CreatedAt old) "t1"
         (vmSetVolumeIDs (withoutVolume (vol_ID v) (vm_VolumeIDs vm)) vm)) (at_vms (tables twoMachines.1)))
      (marked "t1" VolumeStatusAvailable None v (at_volumes (tables twoMachines.1)))
      (at_leases (tables twoMachines.1)).
Proof.
  assert ((detach "d2" "db" twoMachines).1 = Ok ()) as E by (vm_compute; reflexivity).
  split_and!; [exact E|vm_compute; reflexivity|vm_compute; reflexivity|].
  pose proof (VolumeDetach_effect noLike fixedMarshal allRows violated (VolumeInput_ ["d2"] "db") twoMachines
    (proj1 (proj2 twoMachines_inHands)) twoMachines_rows) as He.
  cbv zeta in He.
  match type of He with match ?r.1 with _ => _ end => change r with (detach "d2" "db" twoMachines) in He end. rewrite E in He.
  destruct He as (vm & v & freed & unlisted & _ & Hvm & Hv & Hdone & Ht). destruct (Hdone eq_refl) as [-> Hlist].
  rewrite (Hlist (λ _, eq_refl)) in Ht. exists vm, v. split_and!; [exact Hvm|exact Hv|exact Ht].
Defined.

(** When the statement that frees the disk of [web] fails, the detachment is still
    reported: no machine lists the disk, and it stays attached to [web], so it
    cannot be attached again. *)
Definition unwritable : Db AppTables * unit :=
  (Db_ (tables twoMachines.1) [None; None; Some (Errorf "disk I/O error" None)] (clock twoMachines.1), ()).

Lemma VolumeDetach_unfreed :
  (detach "d2" "web" unwritable).1 = Ok () ∧
  (vol_Status <$> at_volumes (tables (detach "d2" "web" unwritable).2.1)) = [VolumeStatusAvailable; VolumeStatusAttached] ∧
  (vol_VMID <$> at_volumes (tables (detach "d2" "web" unwritable).2.1)) = [None; Some "id1"] ∧
  (vm_VolumeIDs <$> at_vms (tables (detach "d2" "web" unwritable).2.1)) = [[]; []] ∧
  is_Ok (attach "d2" "db" (detach "d2" "web" unwritable).2).1 = false.
Proof. split_and!; vm_compute; reflexivity. Qed.
End AttachExamples.
