(* ===== verification/Removal.v ===== *)
(** * What removal does to the tables

    [VMRemove] and [VMPrune] ([VMAPI]) on one database ([AppDb]) whose statements
    do not fail, among any host: what the processes, the files and the network
    answer does not matter.  A machine that is removed leaves no row, no lease and
    no volume behind, and nothing else changes; pruning spares the machines that
    run. *)

From stdpp Require Import gmap strings list.
From S2P Require Import Prelude Triple GoStrings Errs Model Inputs Infra Sql System NetOps Networks FwRepo FwTracker VMRepo VMResolver FcConfig Spawn Files VMControl IPNet Lease Names NetService NetAPI Resolving Volumes VolumeAPI Assets Enrich VMAPI AppDb AppFrames Attach.
#[local] Open Scope string_scope.

(** ** The tables without some machines *)

(** An attached volume of the list, once it is free again. *)
Definition freedVolume (now : string) (ids : list string) (v : VolumeItem) : VolumeItem :=
  if decide (vol_ID v ∈ ids ∧ vol_Status v = VolumeStatusAttached ∧ freelyShared v = false)
  then volSetTimes (vol_CreatedAt v) now (volSetState VolumeStatusAvailable None v) else v.

Definition withoutVMs (now : string) (rows : list VMItem) (t : AppTables) : AppTables :=
  AppTables_ (filter (λ vm, vm_ID vm ∉ vm_ID <$> rows) (at_vms t))
    (freedVolume now (mjoin (vm_VolumeIDs <$> rows)) <$> at_volumes t)
    (setLeases (filter (λ l, ls_VMID l ∉ Some <$> (vm_ID <$> rows)) (leases (at_leases t))) (at_leases t)).

Lemma freedVolume_id now ids v : vol_ID (freedVolume now ids v) = vol_ID v.
Proof. unfold freedVolume. by case_decide. Qed.
Lemma freedVolume_name now ids v : vol_Name (freedVolume now ids v) = vol_Name v.
Proof. unfold freedVolume. by case_decide. Qed.
Lemma freedVolume_shared now ids v : freelyShared (freedVolume now ids v) = freelyShared v.
Proof. unfold freedVolume. by case_decide. Qed.

Lemma freedVolume_app now ids ids' v : freedVolume now ids' (freedVolume now ids v) = freedVolume now (ids ++ ids') v.
Proof.
  unfold freedVolume at 2. case_decide as H1.
  - unfold freedVolume. rewrite decide_False by (intros (_ & Hs & _); by cbn in Hs).
    rewrite decide_True; [done|]. rewrite elem_of_app. tauto.
  - unfold freedVolume. destruct (decide (vol_ID v ∈ ids' ∧ _)) as [H2|H2].
    + rewrite decide_True; [done|]. rewrite elem_of_app. tauto.
    + rewrite decide_False; [done|]. rewrite elem_of_app. tauto.
Qed.

Lemma freedVolumes_ok now ids t : volumesOK t → volumesOK (freedVolume now ids <$> t).
Proof.
  intros [Hi Hn]. split; rewrite <- list_fmap_compose.
  - erewrite list_fmap_ext; [exact Hi|]. intros i v _. apply freedVolume_id.
  - erewrite list_fmap_ext; [exact Hn|]. intros i v _. apply freedVolume_name.
Qed.

Lemma filter_always {A} (P : A → Prop) `{∀ x, Decision (P x)} (l : list A) : Forall P l → filter P l = l.
Proof. induction 1 as [|x l Hx Hl IH]; [done|]. by rewrite filter_cons, decide_True, IH. Qed.

Lemma withoutVMs_nil now t : withoutVMs now [] t = t.
Proof.
  destruct t as [vms vols [ls n nets]]. unfold withoutVMs, setLeases. cbn. f_equal.
  - apply filter_always, Forall_true. intros vm. apply not_elem_of_nil.
  - rewrite <- (list_fmap_id vols) at 2. apply list_fmap_ext. intros i v _. unfold freedVolume. rewrite decide_False; [done|].
    intros [Hv _]. by apply elem_of_nil in Hv.
  - f_equal. apply filter_always, Forall_true. intros l. apply not_elem_of_nil.
Qed.

Lemma withoutVMs_app now rows rows' t : withoutVMs now rows' (withoutVMs now rows t) = withoutVMs now (rows ++ rows') t.
Proof.
  destruct t as [vms vols [ls n nets]]. unfold withoutVMs, setLeases. cbn. rewrite !fmap_app, join_app. f_equal.
  - rewrite list_filter_filter. apply list_filter_iff. intros x. set_solver.
  - rewrite <- list_fmap_compose. apply list_fmap_ext. intros i v _. simpl. by rewrite freedVolume_app.
  - f_equal. rewrite list_filter_filter. apply list_filter_iff. intros x. set_solver.
Qed.

(** What is gone of a machine. *)
Definition erased (vm : VMItem) (t : AppTables) : Prop :=
  vm_ID vm ∉ vm_ID <$> at_vms t ∧
  (∀ l, l ∈ leases (at_leases t) → ls_VMID l ≠ Some (vm_ID vm)) ∧
  (∀ v, v ∈ at_volumes t → vol_ID v ∈ vm_VolumeIDs vm → freelyShared v = false → vol_Status v ≠ VolumeStatusAttached).

Lemma withoutVMs_erased now vm rows t : vm ∈ rows → erased vm (withoutVMs now rows t).
Proof.
  intros Hvm. assert (vm_ID vm ∈ vm_ID <$> rows) as Hin by by apply list_elem_of_fmap_2. split_and!; cbn.
  - intros (x & E & Hx%list_elem_of_filter)%list_elem_of_fmap. rewrite E in Hin. tauto.
  - intros l [Hl _]%list_elem_of_filter E. rewrite E in Hl. destruct Hl. by apply list_elem_of_fmap_2.
  - intros v (y & -> & Hy)%list_elem_of_fmap. rewrite freedVolume_id, freedVolume_shared. intros Hv Hs.
    unfold freedVolume. case_decide as Hd; [done|]. intros Hst. destruct Hd. split_and!; [|done..].
    apply list_elem_of_join. exists (vm_VolumeIDs vm). split; [done|]. by apply list_elem_of_fmap_2.
Qed.

Section Removal.
Context {H : Type} `{NetOps H} `{Tracker H} `{firewallRuleRepo H} `{Host H} `{Firecracker H} `{Files H} `{ProcessTable H}
  `{OpEnv H} `{ImageRepository H} `{KernelRepository H} `{BinaryRepository H} `{VsockRepository H}.
Context (like : string → string → bool) (marshal : list string → string) (rowOK : VMItem → bool)
  (constraintError : error) (rfc3339 : string → string) (inUse : string → bool)
  (parseIPv6 : string → option IP) (cidrError : string → error).
Context (tracked : bool) (rangeIDs : gset string → list string) (VmsDir : string) (toAny : VMItem * VMRefs → any).

#[local] Notation W := (Db AppTables * H)%type.
#[local] Notation S := (FirewallTracker * W)%type.
#[local] Notation Item := (VMItem * VMRefs)%type.
#[local] Instance removal_vms : Repository W := app_vms like marshal rowOK constraintError.
#[local] Instance removal_volumes : VolumeRepository W := app_volumes like constraintError.
#[local] Instance removal_leases : LeaseRepository W := app_leases constraintError parseIPv6 cidrError.
#[local] Instance removal_networks : NetworkRepository W := app_networks like constraintError rfc3339 inUse.

#[local] Notation db s := (s.2.1 : Db AppTables).
#[local] Notation gentle := (beside (X := FirewallTracker) (gently (H := H))).
#[local] Notation VMRemove := (VMRemove (W := W) tracked rangeIDs parseIPv6 cidrError VmsDir toAny).
#[local] Notation removeVM := (removeVM (W := W) tracked VmsDir toAny).

(** ** What only looks *)

Lemma enriched_rows include items (s : S) :
  faults (db s) = [] →
  let '(items', s') := enriched (W := W) rangeIDs include items s in db s' = db s ∧ items'.*1 = items.*1.
Proof.
  intros Hf. unfold enriched.
  assert (upholds (A := result error unit) (rowsOnly gently) (EnrichVM (W := W) rangeIDs include)) as Hk.
  { apply EnrichVM_kept; [apply _|intros; apply host_gently..| | | |intros; apply host_gently].
    - intros id. eapply reads_gently, reads_query. by intros [? ? []].
    - intros ids. change (LListAllBatch (W := W) ids) with (inLeases (H := H) (lease_ListAllBatch ids)).
      unfold lease_ListAllBatch. destruct (decide (ids = [])).
      + intros [[t f c] h] Hf'. cbn in *. subst. by destruct t.
      + eapply reads_gently, inLeases_select.
    - intros ids. change (vr_FindByIDs (W := W) ids) with (inVolumes (H := H) (volsqlite_FindByIDs ids)).
      unfold volsqlite_FindByIDs. destruct (decide (ids = [])).
      + intros [[t f c] h] Hf'. cbn in *. subst. by destruct t.
      + eapply reads_gently, inVolumes_query. }
  specialize (Hk (items, s.2)). destruct (EnrichVM (W := W) rangeIDs include (items, s.2)) as [r [items' w']].
  destruct Hk as [Hg Hi]. cbn [fst snd] in *. split; [by apply Hg|done].
Qed.

Lemma resolveLoop_reads idents vms errs seen :
  reads (H := H) (λ t r, (∀ vm, vm ∈ vms → vm ∈ at_vms t) → ∀ vm, vm ∈ r.1 → vm ∈ at_vms t)
    (resolveLoop (W := W) idents vms errs seen).
Proof.
  revert vms errs seen. induction idents as [|i idents IH]; intros vms errs seen; cbn [resolveLoop]; [apply reads_ret; auto|].
  eapply reads_bind; [apply reads_try, VMResolve_reads|]. intros [vm|e]; [case_decide|].
  - eapply reads_weaken; [|apply IH]. auto.
  - eapply reads_weaken; [|apply IH]. intros t r Hr Hvm Hvms. apply Hr.
    intros x [Hx| ->%list_elem_of_singleton]%elem_of_app; auto.
  - eapply reads_weaken; [|apply IH]. auto.
Qed.

Lemma resolve_rows input (w : W) :
  faults w.1 = [] →
  let '(r, w') := vmi_Resolve (W := W) parseIPv6 cidrError input w in
  w'.1 = w.1 ∧ ∀ vm, vm ∈ r.1 → vm ∈ at_vms (tables w.1).
Proof.
  intros Hf. unfold vmi_Resolve. destruct (vmi_Validate _ _ _) as [u|e]; [|split; [done|intros vm []%elem_of_nil]].
  rewrite ST_bind_unfold. unfold attempt, ResolveMany. rewrite bind_unfold.
  destruct (reads_healthy _ _ w (resolveLoop_reads (Dedup (vmi_Identifiers input)) [] [] ∅) Hf) as [E Hr].
  destruct (resolveLoop (W := W) _ _ _ _ w) as [[[vms errs]|e] w1]; cbn [fst snd] in *.
  - split; [exact E|]. specialize (Hr _ eq_refl (λ vm Hvm, match not_elem_of_nil vm Hvm with end)). cbn [fst] in Hr.
    cbv [mret GoM_ret ST_ret]. cbn [fst snd VMs ResolveErrors]. repeat case_match; cbn [fst]; auto. intros vm []%elem_of_nil.
  - split; [exact E|]. intros vm []%elem_of_nil.
Qed.

(** A machine's own name names it. *)
Lemma resolve_name vm force (w : W) :
  faults w.1 = [] → vm ∈ at_vms (tables w.1) → NoDup (vm_Name <$> at_vms (tables w.1)) →
  let '(r, _) := vmi_Resolve (W := W) parseIPv6 cidrError (VMInput_ [vm_Name vm] force) w in r.2 = None → r.1 = [vm].
Proof.
  intros Hf Hvm Hnames. unfold vmi_Resolve. destruct (vmi_Validate _ _ _) as [u|e]; [|done].
  rewrite ST_bind_unfold. unfold attempt, ResolveMany, vmi_Identifiers.
  change (Dedup [vm_Name vm]) with [vm_Name vm]. rewrite bind_unfold. cbn [resolveLoop]. rewrite bind_try.
  assert (VMResolver.Resolve (W := W) (vm_Name vm) w = (Ok vm, w)) as E.
  { unfold VMResolver.Resolve. rewrite bind_try. unfold ByName.
    assert (GetByName (W := W) (vm_Name vm) w = (Ok (Some vm), w)) as Eq.
    { change (GetByName (W := W) (vm_Name vm)) with (inVMs (H := H) (sqlGet (λ x, bool_decide (vm_Name x = vm_Name vm)))).
      destruct w as [[t f c] h]. cbn [fst snd faults tables] in *. subst f. unfold inVMs, inDb, onPart, sqlGet, query.
      cbn [fst snd tables faults clock]. rewrite statement_healthy by done. cbn [fst snd tables faults clock]. rewrite setVMs_id.
      do 2 f_equal. apply head_filter_unique; [done|by apply bool_decide_pack|].
      intros y Hy Hn%bool_decide_unpack. by apply (elem_of_fmap_inj vm_Name (at_vms t)). }
    rewrite bind_unfold, Eq. done. }
  rewrite E. cbn [fst snd]. rewrite decide_False by apply not_elem_of_empty. done.
Qed.

(** ** What stopping a machine writes *)

(** Only the row with the id changes, and in memory only the status. *)
Definition touches (id : string) (s s' : VMItem * W) : Prop := vm_ID s.1 = id →
  vmSetStatus "" s'.1 = vmSetStatus "" s.1 ∧
  (faults s.2.1 = [] → ∃ vms, s'.2.1 = Db_ (setVMs vms (tables s.2.1)) [] (clock s.2.1) ∧
    filter (λ vm, vm_ID vm ≠ id) vms = filter (λ vm, vm_ID vm ≠ id) (at_vms (tables s.2.1))).

Lemma status_id vm vm' : vmSetStatus "" vm' = vmSetStatus "" vm → vm_ID vm' = vm_ID vm.
Proof. intros E. by apply (f_equal vm_ID) in E. Qed.

#[local] Instance touches_preorder id : PreOrder (touches id).
Proof.
  split.
  - intros [vm [[t f c] h]] _. split; [done|]. cbn [fst snd faults tables clock]. intros ->. exists (at_vms t). by rewrite setVMs_id.
  - intros s1 s2 s3 Hs12 Hs23 Hid. destruct (Hs12 Hid) as [E1 T1].
    destruct Hs23 as [E2 T2]; [by rewrite (status_id _ _ E1)|]. split; [congruence|].
    intros Hf. destruct (T1 Hf) as (vms1 & D1 & F1). rewrite D1 in T2. cbn [faults tables clock] in T2.
    destruct (T2 eq_refl) as (vms2 & D2 & F2). exists vms2. split; [exact D2|]. rewrite F2. exact F1.
Qed.

Lemma host_touches {A} id (m : GoM H error A) : upholds (A := result error A) (touches id) (VMControl.lift (onHost m)).
Proof.
  intros [vm [[t f c] h]] _. unfold VMControl.lift, onHost. cbn [fst snd]. destruct (m h) as [r h']. split; [done|].
  cbn [fst snd faults tables clock]. intros ->. exists (at_vms t). by rewrite setVMs_id.
Qed.

Lemma effect_touches {A} id (f : W → A * W) : upholds sameDb f → upholds (A := result error A) (touches id) (effect f).
Proof.
  intros Hf [vm w] _. unfold effect. cbn [fst snd]. specialize (Hf w). unfold sameDb in Hf.
  destruct (f w) as [a w']. cbn [fst snd] in *. split; [done|]. rewrite Hf. destruct w.1 as [t fs c]. cbn. intros ->.
  exists (at_vms t). by rewrite setVMs_id.
Qed.

Lemma getVM_touches {A} id (k : VMItem → GoM (VMItem * W) error A) :
  (∀ vm, vm_ID vm = id → upholds (A := result error A) (touches id) (k vm)) →
  upholds (A := result error A) (touches id) (vm ← getVM; k vm).
Proof. intros Hk s Hid. by apply (Hk s.1). Qed.

Lemma gets_touches {A} id (f : W → A) : upholds (A := result error A) (touches id) (gets f).
Proof. intros s. unfold gets. cbn [snd]. reflexivity. Qed.

Lemma setStatus_touches id st : upholds (A := result error unit) (touches id) (setStatus (W := W) st).
Proof.
  intros [vm w] _. unfold setStatus. cbn [fst snd]. split; [by destruct vm|]. destruct w.1 as [t fs c]. cbn. intros ->.
  exists (at_vms t). by rewrite setVMs_id.
Qed.

(** A statement that changes the rows with the id and keeps their ids. *)
Lemma update_touches id (f : VMItem → VMItem) :
  (∀ vm, vm_ID (f vm) = vm_ID vm) →
  upholds (A := result error unit) (touches id) (VMControl.lift (inVMs (H := H) (updateWhere id f))).
Proof.
  intros Hf [vm [[t fs c] h]] _. unfold VMControl.lift, inVMs, inDb, onPart, updateWhere. cbn [fst snd faults tables clock].
  destruct fs as [|e fs]; [|destruct e; by split].
  rewrite statement_healthy by done. cbn [fst snd faults tables clock]. split; [done|]. intros _. eexists. split; [reflexivity|].
  induction (at_vms t) as [|x l IH]; [done|]. rewrite fmap_cons, !filter_cons, IH.
  destruct (decide (vm_ID x = id)) as [E|E].
  - rewrite decide_False by (cbn; rewrite Hf; tauto). by rewrite decide_False by tauto.
  - by rewrite !decide_True by done.
Qed.

Lemma updateStatus_touches id vm st :
  vm_ID vm = id → upholds (A := result error unit) (touches id) (updateStatus (W := W) vm st).
Proof.
  intros <-. change (updateStatus (W := W) vm st) with
    (VMControl.lift (inVMs (H := H) (updateWhere (vm_ID vm) (vmSetStatus st)))). by apply update_touches.
Qed.

Lemma shutdown_touches id force pid : upholds (A := result error unit) (touches id) (shutdownProcess (W := W) force pid).
Proof.
  assert (∀ c, upholds (A := result error _) (touches id) (effect (W := W) (GracefulShutdown c))) as Hshut.
  { intros c. apply effect_touches, onHost_same. }
  unfold shutdownProcess. apply getVM_touches. intros vm Hid. apply upholds_okbind; [apply _| |].
  - unfold stopProcess. apply getVM_touches. intros vm' _. destruct (_ && _).
    + apply upholds_okbind; [apply _|apply upholds_try, host_touches|]. intros sent.
      apply upholds_okbind; [apply _|destruct (match sent with Ok b => b | Err _ => false end); [apply Hshut|upholds]|].
      intros [c|]; [upholds|apply Hshut].
    + apply upholds_okbind; [apply _| |intros _; apply Hshut].
      destruct force; [by apply effect_touches|upholds].
  - intros exitCode. apply upholds_okbind; [apply _|destruct exitCode; [upholds|apply effect_touches, onHost_same]|].
    intros code. apply upholds_okbind; [apply _| |intros _; by apply updateStatus_touches].
    destruct code as [c|]; [|upholds]. subst id.
    change (VMControl.lift (UpdateExitCode (vm_ID vm) c)) with
      (VMControl.lift (inVMs (H := H) (updateWhere (vm_ID vm) (vmSetExitCode (Some c))))). by apply update_touches.
Qed.

Lemma Stop_touches id force : upholds (A := result error unit) (touches id) (VMControl.Stop (W := W) force).
Proof.
  assert (∀ pid, upholds (A := result error _) (touches id) (reap (W := W) pid)) as Hreap.
  { intros pid. unfold reap. apply upholds_okbind; [apply _|apply effect_touches, onHost_same|intros; upholds]. }
  unfold VMControl.Stop. apply getVM_touches. intros vm Hid. destruct (_ && _).
  - unfold stopOrphan. apply getVM_touches. intros vm' Hid'.
    apply upholds_okbind; [apply _|apply gets_touches|]. intros [|].
    + apply upholds_okbind; [apply _|by apply effect_touches|intros _].
      apply upholds_okbind; [apply _|by apply updateStatus_touches|intros _]. apply setStatus_touches.
    + destruct (0 <? vm_PID vm)%Z; [apply Hreap|upholds].
  - apply upholds_okbind; [apply _|apply gets_touches|]. intros [|].
    + apply upholds_okbind; [apply _|destruct (0 <? vm_PID vm)%Z; [apply Hreap|upholds]|intros _].
      by apply updateStatus_touches.
    + apply upholds_okbind; [apply _|by apply updateStatus_touches|intros _].
      apply upholds_okbind; [apply _|apply upholds_try, shutdown_touches|]. intros [u|e]; [upholds|].
      apply upholds_okbind; [apply _|by apply upholds_try, updateStatus_touches|intros; upholds].
Qed.

(** ** Steps that keep the database *)

#[local] Notation at_ d := (λ s : S, db s = d).

Lemma gentle_leads {A} (m : ST S A) d : faults d = [] → upholds gentle m → leads (at_ d) m (λ _, at_ d).
Proof. intros Hf Hm s <-. specialize (Hm s). unfold beside, gently in Hm. by apply Hm. Qed.

Lemma quietly_leads {A} (m : GoM S error A) P Q : leads P m (λ _, Q) → leads P (quietly m) (λ _, Q).
Proof. intros Hm. unfold quietly. eapply leads_bind; [exact Hm|]. intros r. by apply leads_ret. Qed.

Lemma host_leads {A} (m : ST H A) d : faults d = [] → leads (at_ d) (onWorld (onHost m)) (λ _, at_ d).
Proof. intros Hf. apply gentle_leads; [done|]. apply onWorld_beside, host_gently. Qed.

Lemma kill_leads vm d : leads (at_ d) (killLeftover (W := W) vm) (λ _, at_ d).
Proof. intros [t [d' h]] E. cbn in *. by destruct (_ && _). Qed.

Lemma shutdownHelper_leads pid d : faults d = [] → leads (at_ d) (shutdownHelper (W := W) pid) (λ _, at_ d).
Proof.
  intros Hf. unfold shutdownHelper. destruct pid as [pid|]; [|by apply leads_ret].
  apply gentle_leads; [done|]. apply onWorld_beside. apply upholds_bind; [apply _|apply host_gently|intros; upholds].
Qed.

(** ** Volumes *)

Lemma existing_leads ids d :
  faults d = [] → NoDup (vol_ID <$> at_volumes (tables d)) →
  leads (at_ d) (existingVolumes (W := W) ids)
    (λ vols s, db s = d ∧ (∀ v, v ∈ vols ↔ v ∈ at_volumes (tables d) ∧ vol_ID v ∈ ids)).
Proof.
  intros Hf Hids. induction ids as [|id ids IH]; cbn [existingVolumes].
  - apply leads_ret. intros s Hs. split; [done|]. intros v. split; [by intros ?%elem_of_nil|intros [_ ?%elem_of_nil]; done].
  - eapply (leads_bind _ _ _ (λ r s, db s = d ∧ r = Ok (head (filter (λ v, vol_ID v = id) (at_volumes (tables d)))))).
    { intros [t [d' h]] E. cbn in E. subst d'.
      change (vr_Get (W := W) id) with (inVolumes (H := H) (query (λ t, head (filter (λ v, vol_ID v = id) t)))).
      unfold attempt, onRepo, onWorld. cbn [snd].
      destruct (reads_healthy _ _ (d, h) (inVolumes_query (H := H) (λ t, head (filter (λ v, vol_ID v = id) t))) Hf) as [E HP].
      destruct d as [tb fs c]. cbn in Hf. subst fs. by rewrite (surjective_pairing (inVolumes _ _)). }
    intros r. apply (leads_pre _ (λ s, r = Ok (head (filter (λ v, vol_ID v = id) (at_volumes (tables d)))) ∧ db s = d)); [tauto|].
    apply leads_pure. intros ->. eapply leads_bind; [exact IH|]. intros vols. apply leads_ret. intros s [Hs Hvols].
    split; [done|]. intros v.
    assert (∀ x, head (filter (λ v, vol_ID v = id) (at_volumes (tables d))) = Some x ↔ x ∈ at_volumes (tables d) ∧ vol_ID x = id) as Hx.
    { intros x. split.
      - intros Hx%head_Some_elem_of%list_elem_of_filter. tauto.
      - intros [Hx Hi]. apply head_filter_unique; [done..|]. intros y Hy Hyi. apply (elem_of_fmap_inj vol_ID _ y x Hids Hy Hx). congruence. }
    destruct (head _) as [x|].
    + rewrite !elem_of_cons, Hvols. specialize (Hx x) as Hxx. destruct Hxx as [Hxx _]. destruct (Hxx eq_refl) as [Hin Hi].
      split; [intros [->|[? ?]]; auto|]. intros [Hv [Hvi|Hvi]]; [left|by right].
      apply (elem_of_fmap_inj vol_ID _ v x Hids Hv Hin). congruence.
    + rewrite elem_of_cons, Hvols. split; [tauto|]. intros [Hv [Hvi|Hvi]]; [|done].
      specialize (Hx v) as [_ Hx]. by discriminate (Hx (conj Hv Hvi)).
Qed.

#[local] Notation with_ d := (λ w : W, w.1 = d).

Lemma onRepo_leads {A} (m : GoM W error A) d d' : leads (with_ d) m (λ _, with_ d') → leads (at_ d) (onRepo m) (λ _, at_ d').
Proof.
  intros Hm [t w] E. cbn [snd] in E. specialize (Hm w E). unfold onRepo, onWorld. cbn [fst snd]. by destruct (m w).
Qed.

Lemma freed_one now v t0 ids :
  volumesOK t0 → v ∈ t0 →
  freedVolume now (ids ++ [vol_ID v]) <$> t0 =
    (if decide (vol_Status v = VolumeStatusAttached ∧ freelyShared v = false)
     then updateRow vol_ID (vol_ID v) (λ old, volSetTimes (vol_CreatedAt old) now (volSetState VolumeStatusAvailable None v))
            (freedVolume now ids <$> t0)
     else freedVolume now ids <$> t0).
Proof.
  intros [Hids _] Hv. case_decide as Hd.
  - unfold updateRow. rewrite <- list_fmap_compose. apply list_fmap_ext. intros i y Hy%list_elem_of_lookup_2. simpl.
    rewrite freedVolume_id. destruct (decide (vol_ID y = vol_ID v)) as [E|E].
    + assert (y = v) as -> by by apply (elem_of_fmap_inj vol_ID t0). unfold freedVolume at 1.
      rewrite decide_True by (rewrite elem_of_app, list_elem_of_singleton; tauto). f_equal. unfold freedVolume. by case_decide.
    + unfold freedVolume. assert (vol_ID y ∈ (ids ++ [vol_ID v])%list ↔ vol_ID y ∈ ids) as Hin
        by (rewrite elem_of_app, list_elem_of_singleton; tauto).
      destruct (decide (vol_ID y ∈ ids ∧ _)) as [Hc1|Hc1].
      * rewrite decide_True; [done|]. by rewrite Hin.
      * rewrite decide_False; [done|]. by rewrite Hin.
  - apply list_fmap_ext. intros i y Hy%list_elem_of_lookup_2. unfold freedVolume.
    destruct (decide (vol_ID y ∈ ids ∧ _)) as [Hc1|Hc1].
    + rewrite decide_True; [done|]. rewrite elem_of_app. tauto.
    + rewrite decide_False; [done|]. rewrite elem_of_app, list_elem_of_singleton. intros [[?|Hy'] Hst]; [tauto|].
      apply Hd. by rewrite <- (elem_of_fmap_inj vol_ID t0 y v Hids Hy Hv Hy').
Qed.

Lemma freeing_leads vols now t0 tb :
  volumesOK t0 → (∀ v, v ∈ vols → v ∈ t0) → ∀ ids,
  leads (with_ (Db_ (setVolumes (freedVolume now ids <$> t0) tb) [] now))
    (forEach vols (λ vol, if decide (vol_Status vol ≠ VolumeStatusAttached) then mret ()
                          else _ ← attempt (volctl_Detach (W := W) vol); mret ()))
    (λ _, with_ (Db_ (setVolumes (freedVolume now (ids ++ (vol_ID <$> vols)) <$> t0) tb) [] now)).
Proof.
  intros Hok. induction vols as [|v vols IH]; intros Hin ids; cbn [forEach].
  { apply leads_ret. intros w Hw. by rewrite app_nil_r. }
  assert (v ∈ t0) as Hv by (apply Hin; left). pose proof (freed_one now v t0 ids Hok Hv) as E1.
  eapply (leads_bind _ _ _ (λ _, with_ (Db_ (setVolumes (freedVolume now (ids ++ [vol_ID v]) <$> t0) tb) [] now))).
  - rewrite E1. destruct (decide (vol_Status v ≠ VolumeStatusAttached)) as [Hst|Hst].
    + rewrite decide_False by tauto. by apply leads_ret.
    + eapply leads_bind; [|intros r; apply leads_ret; intros w Hw; exact Hw]. unfold attempt, volctl_Detach. intros [d h] E. cbn [fst] in E. subst d.
      destruct (decide (vol_Status v = VolumeStatusAttached ∧ freelyShared v = false)) as [[_ Efs]|Efs];
        [|destruct (freelyShared v); [done|by destruct Efs; split; [apply dec_stable|]]].
      rewrite Efs, bind_unfold.
      pose proof (vr_Upsert_back like constraintError (freedVolume now ids v) (volSetState VolumeStatusAvailable None v)
        (Db_ (setVolumes (freedVolume now ids <$> t0) tb) [] now, h)) as Eu.
      change (vr_Upsert (W := W)) with (vr_Upsert (W := W) (VolumeRepository := Attach.repo_volumes (H := H) like constraintError)).
      rewrite Eu; [cbn [fst snd tables clock at_volumes setVolumes]; by rewrite freedVolume_id|done| | |
        by rewrite freedVolume_id|by rewrite freedVolume_name].
      * by apply freedVolumes_ok.
      * by apply list_elem_of_fmap_2.
  - intros _. rewrite fmap_cons. change (vol_ID v :: (vol_ID <$> vols)) with ([vol_ID v] ++ (vol_ID <$> vols))%list.
    rewrite app_assoc. apply IH. intros x Hx. apply Hin. by right.
Qed.

Lemma freedVolume_ext now ids ids' v : (vol_ID v ∈ ids ↔ vol_ID v ∈ ids') → freedVolume now ids v = freedVolume now ids' v.
Proof.
  intros E. unfold freedVolume. destruct (decide (vol_ID v ∈ ids ∧ _)) as [Hc1|Hc1].
  - rewrite decide_True; [done|]. tauto.
  - rewrite decide_False; [done|]. tauto.
Qed.

(** The database with the volumes of the list freed. *)
Definition afterFree (ids : list string) (d : Db AppTables) : Db AppTables :=
  Db_ (setVolumes (freedVolume (clock d) ids <$> at_volumes (tables d)) (tables d)) [] (clock d).

Lemma freeVolumes_leads v d :
  faults d = [] → volumesOK (at_volumes (tables d)) →
  leads (at_ d) (freeVolumes (W := W) v) (λ _, at_ (afterFree (vm_VolumeIDs v) d)).
Proof.
  intros Hf Hok. assert (∀ ids, (∀ x, x ∈ at_volumes (tables d) → vol_ID x ∉ ids) → afterFree ids d = d) as Hsame.
  { intros ids Hno. unfold afterFree. destruct d as [[vms vols ls] fs c]. cbn in *. subst fs. do 2 f_equal. unfold setVolumes. cbn.
    f_equal. rewrite <- (list_fmap_id vols) at 2. apply list_fmap_ext. intros i x Hx%list_elem_of_lookup_2. unfold freedVolume.
    rewrite decide_False; [done|]. intros [Hin _]. by apply (Hno x). }
  unfold freeVolumes. case_bool_decide as Hnil.
  { apply leads_ret. intros s Hs. rewrite Hsame; [done|]. intros x _. rewrite Hnil. apply not_elem_of_nil. }
  eapply leads_bind; [apply existing_leads; [done|apply Hok]|]. intros vols.
  apply (leads_pre _ (λ s, (∀ v0, v0 ∈ vols ↔ v0 ∈ at_volumes (tables d) ∧ vol_ID v0 ∈ vm_VolumeIDs v) ∧ db s = d)); [tauto|].
  apply leads_pure. intros Hvols. case_bool_decide as Hnone.
  { apply leads_ret. intros s Hs. rewrite Hsame; [done|]. intros x Hx Hin. subst vols. by apply (not_elem_of_nil x), Hvols. }
  apply quietly_leads, onRepo_leads. unfold SetVolumesState. rewrite decide_False by done. rewrite decide_False by done.
  rewrite decide_True by done. intros w Hw.
  pose proof (freeing_leads vols (clock d) (at_volumes (tables d)) (tables d) Hok (λ x Hx, proj1 (proj1 (Hvols x) Hx)) [] w) as Hrun.
  unfold calls. destruct (forEach _ _ w) as [u w']. cbn [fst snd] in *. rewrite Hrun.
  - unfold afterFree. cbn [app]. enough (∀ x, x ∈ at_volumes (tables d) →
      freedVolume (clock d) (vol_ID <$> vols) x = freedVolume (clock d) (vm_VolumeIDs v) x) as Hsm.
    { rewrite (list_fmap_ext _ (freedVolume (clock d) (vm_VolumeIDs v))); [done|].
      intros i x Hx%list_elem_of_lookup_2. by apply Hsm. }
    intros x Hx. apply freedVolume_ext. split.
    + intros (y & E & Hy)%list_elem_of_fmap. apply Hvols in Hy as [Hy Hyi]. by rewrite E.
    + intros Hin. apply list_elem_of_fmap_2. by apply Hvols.
  - rewrite Hw. destruct d as [[vms vols' ls] fs c]. cbn in *. subst fs. do 2 f_equal. unfold setVolumes. cbn. f_equal.
    rewrite <- (list_fmap_id vols') at 1. apply list_fmap_ext. intros i x _. unfold freedVolume. rewrite decide_False; [done|].
    intros [Hin _]. by apply elem_of_nil in Hin.
Qed.


(** ** One machine *)

Definition afterRelease (id : string) (d : Db AppTables) : Db AppTables :=
  Db_ (setLeaseTables (releaseByVM id (at_leases (tables d))) (tables d)) [] (clock d).

Lemma leases_leads id d : faults d = [] → leads (at_ d) (quietly (onRepo (LReleaseByVM (W := W) id))) (λ _, at_ (afterRelease id d)).
Proof.
  intros Hf. apply quietly_leads, onRepo_leads. intros [d' h] E. cbn [fst] in E. subst d'.
  destruct d as [t fs c]. cbn in Hf. by subst fs.
Qed.

Lemma Delete_leads id d :
  faults d = [] →
  leads (at_ d) (quietly (onRepo (Delete (W := W) id)))
    (λ _, at_ (Db_ (setVMs (filter (λ vm, vm_ID vm ≠ id) (at_vms (tables d))) (tables d)) [] (clock d))).
Proof.
  intros Hf. apply quietly_leads, onRepo_leads. intros [d' h] E. cbn [fst] in E. subst d'.
  destruct d as [t fs c]. cbn in Hf. by subst fs.
Qed.

Lemma tap_leads tap bridge id d :
  faults d = [] → leads (at_ d) (quietly (RemoveTap (W := W) tracked tap bridge id)) (λ _, at_ d).
Proof.
  intros Hf. apply quietly_leads. intros s <-. exact (RemoveTap_quiet tracked tap bridge id s).
Qed.

Lemma releaseHost_leads v d :
  faults d = [] → vm_ID v ≠ "" → volumesOK (at_volumes (tables d)) →
  leads (at_ d) (releaseHost (W := W) tracked v) (λ _, at_ (afterFree (vm_VolumeIDs v) (afterRelease (vm_ID v) d))).
Proof.
  intros Hf Hid Hok. unfold releaseHost.
  eapply leads_bind; [apply kill_leads|]. intros ?.
  eapply leads_bind; [by apply shutdownHelper_leads|]. intros ?.
  eapply (leads_bind _ _ _ (λ _, at_ d)).
  { destruct (vm_RelaySocketPath v); [|by apply leads_ret]. by apply quietly_leads, host_leads. }
  intros ?. eapply leads_bind; [by apply shutdownHelper_leads|]. intros ?.
  eapply (leads_bind _ _ _ (λ _, at_ d)).
  { destruct (_ && _); [by apply tap_leads|by apply leads_ret]. }
  intros ?. rewrite bool_decide_eq_false_2 by done.
  eapply leads_bind; [by apply leases_leads|]. intros ?. by apply freeVolumes_leads.
Qed.

Lemma controlled_leads force (x : Item) d :
  faults d = [] →
  leads (at_ d) (controlled (W := W) (VMControl.Stop force) x)
    (λ r s, vmSetStatus "" r.2.1 = vmSetStatus "" x.1 ∧ ∃ vms, db s = Db_ (setVMs vms (tables d)) [] (clock d) ∧
      filter (λ vm, vm_ID vm ≠ vm_ID x.1) vms = filter (λ vm, vm_ID vm ≠ vm_ID x.1) (at_vms (tables d))).
Proof.
  intros Hf [t w] E. cbn [fst snd] in E. subst d. unfold controlled. cbn [fst snd].
  destruct (Stop_touches (vm_ID x.1) force (x.1, w) eq_refl) as [Ex Hd].
  destruct (VMControl.Stop force (x.1, w)) as [r [vm w']]. cbn [fst snd] in *. by split; [|apply Hd].
Qed.

(** The machine is gone, from whichever state. *)
Lemma removeVM_leads force x d :
  faults d = [] → vm_ID x.1 ≠ "" → volumesOK (at_volumes (tables d)) →
  leads (at_ d) (removeVM force x)
    (λ r s, Status r = "success" ∧ db s = Db_ (withoutVMs (clock d) [x.1] (tables d)) [] (clock d)).
Proof.
  intros Hf Hid Hok. unfold VMAPI.removeVM. eapply leads_bind; [by apply controlled_leads|].
  intros [o [vm refs]]. cbn [fst snd]. apply leads_pure. intros Ex s (vms & Hs & Hvms).
  assert (vm_ID vm = vm_ID x.1) as Ei by by apply status_id.
  assert (vm_VolumeIDs vm = vm_VolumeIDs x.1) as Ev by by apply (f_equal vm_VolumeIDs) in Ex.
  revert s Hs. set (d1 := Db_ (setVMs vms (tables d)) [] (clock d)).
  assert (leads (at_ d1)
    (_ ← releaseHost (W := W) tracked vm; _ ← quietly (onRepo (Delete (W := W) (vm_ID vm)));
     _ ← (if bool_decide (GetVMDirByID VmsDir (vm_ID x.1) = "") then mret ()
          else quietly (onRepo (RemoveAll (W := W) (GetVMDirByID VmsDir (vm_ID x.1)))));
     _ ← onWorld (LogOperation (W := W) "vm.remove" [("name", vm_Name vm)]);
     mret (opOK toAny "vm.removed" (vm, refs) ("VM '" ++ vm_Name vm ++ "' removed")))
    (λ r s, Status r = "success" ∧ db s = Db_ (withoutVMs (clock d) [x.1] (tables d)) [] (clock d))) as Hrest;
    [|exact Hrest].
  eapply leads_bind; [apply releaseHost_leads; [done|by rewrite Ei|done]|]. intros ?.
  eapply leads_bind; [by apply Delete_leads|]. intros ?.
  match goal with |- leads ?P _ _ => apply (leads_bind _ _ _ (λ _, P)) end.
  { case_bool_decide; [apply leads_ret; intros s Hs; exact Hs|]. apply quietly_leads. by apply host_leads. }
  intros ?. eapply leads_bind; [by apply host_leads|]. intros ?. apply leads_ret. intros s ->. split; [done|].
  unfold withoutVMs, setVMs, afterFree, afterRelease, releaseByVM, setLeases. cbn. rewrite Ei, Ev, app_nil_r. do 3 f_equal.
  - rewrite Hvms. apply list_filter_iff. intros y. set_solver.
  - apply list_filter_iff. intros l. set_solver.
Qed.

Lemma removeAll_leads force items d :
  faults d = [] → Forall (λ x, vm_ID x.1 ≠ "") items → volumesOK (at_volumes (tables d)) →
  leads (at_ d) (eachItem items (removeVM force))
    (λ rs s, length rs = length items ∧ Forall (λ r, Status r = "success") rs ∧
       db s = Db_ (withoutVMs (clock d) items.*1 (tables d)) [] (clock d)).
Proof.
  revert d. induction items as [|x items IH]; intros d Hf Hids Hok; cbn [eachItem].
  - apply leads_ret. intros s Hs. rewrite withoutVMs_nil, Hs. split_and!; [done|constructor|]. destruct d. cbn in Hf. by subst.
  - apply Forall_cons in Hids as [Hid Hids]. eapply leads_bind; [by apply removeVM_leads|]. intros r. apply leads_pure. intros Hr.
    eapply leads_bind; [apply IH; [done..|by apply freedVolumes_ok]|]. intros rs. apply leads_ret.
    intros s (Hlen & Hrs & Hs). split_and!; [cbn; by rewrite Hlen|by constructor|].
    rewrite Hs. cbn [tables clock faults]. by rewrite withoutVMs_app.
Qed.

(** Its guard and its resolver. *)
Definition removable (d : Db AppTables) : Prop :=
  faults d = [] ∧ volumesOK (at_volumes (tables d)) ∧ Forall (λ vm, vm_ID vm ≠ "") (at_vms (tables d)).

(** What a call of [VMRemove] did: nothing, or the removal of what the
    identifiers name, with one success for each. *)
Inductive removed (d : Db AppTables) (input : VMInput) : BatchResult → Db AppTables → Prop :=
  | removed_none br :
      HasErrors br = true → filter (λ r, Status r = "success") (BR_Items br) = [] → removed d input br d
  | removed_rows br rows h :
      (vmi_Resolve (W := W) parseIPv6 cidrError input (d, h)).1 = (rows, None) → rows ≠ [] →
      length (filter (λ r, Status r = "success") (BR_Items br)) = length rows →
      HasErrors br = bool_decide (length rows < length (vmi_Identifiers input))%nat →
      removed d input br (Db_ (withoutVMs (clock d) rows (tables d)) [] (clock d)).

Lemma removed_by s input :
  removable (db s) → let '(br, s') := VMRemove input s in removed (db s) input br (db s').
Proof.
  intros (Hf & Hok & Hids). unfold VMAPI.VMRemove. rewrite ST_bind_unfold.
  assert (db (attempt (onRepo (CheckPrivileges (W := W) "/usr/sbin/ip" "Remove VM")) s).2 = db s) as Eg
    by exact (host_leads (CheckPrivileges (W := H) "/usr/sbin/ip" "Remove VM") (db s) Hf s eq_refl).
  destruct (attempt _ s) as [[u|e] [t [d h]]]; cbn [fst snd] in *; subst d; [|by constructor].
  rewrite ST_bind_unfold. unfold onWorld. cbn [fst snd].
  pose proof (resolve_rows input (db s, h) Hf) as Hrows.
  destruct (vmi_Resolve parseIPv6 cidrError input (db s, h)) as [[rows o] w1] eqn:Er. cbn [fst snd] in *.
  destruct Hrows as [Ew Hrows]. destruct o as [e|]; [cbv [mret ST_ret]; cbn [fst snd]; rewrite Ew; by constructor|].
  rewrite ST_bind_unfold.
  pose proof (enriched_rows operationPaths (bare rows) (t, w1)) as He. cbn [fst snd] in He. rewrite Ew in He. specialize (He Hf).
  destruct (enriched _ _ _ (t, w1)) as [items s2]. cbn [fst snd] in *. destruct He as [Es Hitems].
  assert (items.*1 = rows) as Hi by (rewrite Hitems; unfold bare; rewrite <- list_fmap_compose; apply list_fmap_id).
  case_bool_decide as Hnil; [cbv [mret ST_ret]; cbn [fst snd]; rewrite Es; by constructor|]. rewrite ST_bind_unfold.
  assert (Forall (λ x, vm_ID x.1 ≠ "") items) as Hid.
  { apply Forall_forall. intros x Hx. apply (Forall_forall (λ vm, vm_ID vm ≠ "") (at_vms (tables (db s)))); [done|].
    apply Hrows. rewrite <- Hi. by apply list_elem_of_fmap_2. }
  pose proof (removeAll_leads (vmi_Force input) items (db s) Hf Hid Hok s2 Es) as Hrun.
  destruct (eachItem items _ s2) as [rs s3]. cbn [fst snd] in *. destruct Hrun as (Hlen & Hrs & Edb).
  cbv [mret ST_ret]. cbn [fst snd]. rewrite Edb, Hi.
  assert (length items = length rows) as Hl by by rewrite <- Hi, length_fmap.
  apply (removed_rows _ _ _ _ h); [by rewrite Er|by intros ->; destruct items| |]; unfold batchOf; cbn [BR_Items].
  - rewrite filter_app, (filter_always _ rs) by done. rewrite length_app, Hlen, Hl. by case_match.
  - unfold HasErrors. cbn [BR_Items]. rewrite Hl.
    assert (hasErrorsLoop rs = false) as Hno.
    { clear -Hrs. induction Hrs as [|r rs Hr Hrs IH]; [done|]. cbn [hasErrorsLoop]. unfold failedItem. by rewrite Hr. }
    destruct (Z.ltb_spec 0 (Z.of_nat (length (vmi_Identifiers input)) - Z.of_nat (length rows))).
    + rewrite bool_decide_eq_true_2 by lia. done.
    + rewrite bool_decide_eq_false_2 by lia. exact Hno.
Qed.

(** C23. [VMRemove], on a database whose statements do not fail and among any
    host: it removes the machines it found and touches nothing else; of each of
    them no row, no lease and no attached volume is left, whatever happened to
    its processes and files; and it reports one success for each.  If it removed
    none, the result says so. *)
Theorem VMRemove_effect s input :
  removable (db s) →
  let '(br, s') := VMRemove input s in
  ∃ rows, db s' = Db_ (withoutVMs (clock (db s)) rows (tables (db s))) [] (clock (db s)) ∧
    Forall (λ vm, vm ∈ at_vms (tables (db s)) ∧ erased vm (tables (db s'))) rows ∧
    length (filter (λ r, Status r = "success") (BR_Items br)) = length rows ∧
    (rows = [] → HasErrors br = true).
Proof.
  intros Hr. pose proof (removed_by s input Hr) as Hrm. destruct (VMRemove input s) as [br s'].
  destruct Hr as [Hf _]. inversion Hrm as [br' Her Hno|br' rows h Hres Hne Hlen Her]; subst.
  - exists []. rewrite withoutVMs_nil. rewrite Hno. split_and!; [|constructor|done|done]. destruct (db s). cbn in *. by subst.
  - exists rows. split_and!; [done| |done|done]. apply Forall_forall. intros vm Hvm. split.
    + pose proof (resolve_rows input (db s, h) Hf) as Hrows. destruct (vmi_Resolve _ _ _ _) as [[rows' o] w1]. cbn in *.
      injection Hres as -> ->. by apply Hrows.
    + by apply withoutVMs_erased.
Qed.

(** ** Pruning *)
#[local] Notation pruneVMs := (pruneVMs (W := W) tracked rangeIDs parseIPv6 cidrError VmsDir toAny).
#[local] Notation VMPrune := (VMPrune (W := W) tracked rangeIDs parseIPv6 cidrError VmsDir toAny).

(** Machines that run or are about to. *)
Definition busy (vm : VMItem) : bool := has vm VMStatusRunning || has vm VMStatusStarting.
Definition prunable (includeAll : bool) (vm : VMItem) : bool := negb (busy vm && negb includeAll).

Lemma dryRun_names includeAll vms names (s : S) :
  pruneVMs true includeAll vms names s = ((names ++ (vm_Name <$> filter (prunable includeAll) vms))%list, s).
Proof.
  revert names. induction vms as [|vm vms IH]; intros names; cbn [VMAPI.pruneVMs]; [by rewrite app_nil_r|].
  rewrite filter_cons. change (has vm VMStatusRunning || has vm VMStatusStarting) with (busy vm).
  destruct (busy vm && negb includeAll) eqn:Eb.
  - rewrite decide_False; [apply IH|]. unfold prunable. rewrite Eb. by intros [].
  - rewrite decide_True; [|unfold prunable; by rewrite Eb]. rewrite IH, <- app_assoc. done.
Qed.

(** One name: the machine is removed, or nothing happens. *)
Lemma remove_one vm s :
  removable (db s) → vm ∈ at_vms (tables (db s)) → NoDup (vm_Name <$> at_vms (tables (db s))) →
  let '(br, s') := VMRemove (VMInput_ [vm_Name vm] true) s in
  db s' = if HasErrors br then db s else Db_ (withoutVMs (clock (db s)) [vm] (tables (db s))) [] (clock (db s)).
Proof.
  intros Hr Hvm Hn. pose proof (removed_by s (VMInput_ [vm_Name vm] true) Hr) as Hrm.
  destruct (VMRemove _ s) as [br s']. inversion Hrm as [br' Her|br' rows h Hres Hne Hlen Her]; subst; [by rewrite Her|].
  pose proof (resolve_name vm true (db s, h) (proj1 Hr) Hvm Hn) as Hone.
  destruct (vmi_Resolve _ _ _ _) as [r w1]. cbn [fst] in Hres. subst r. cbn [fst snd] in Hone. rewrite (Hone eq_refl) in *.
  rewrite Her. by rewrite bool_decide_eq_false_2 by (cbn; lia).
Qed.

Lemma removable_without d rows : removable d → removable (Db_ (withoutVMs (clock d) rows (tables d)) [] (clock d)).
Proof.
  intros (Hf & Hok & Hids). split_and!; [done|by apply freedVolumes_ok|]. cbn. apply Forall_forall. intros vm [_ Hvm]%list_elem_of_filter.
  by apply (Forall_forall (λ vm, vm_ID vm ≠ "") (at_vms (tables d))).
Qed.

(** The run of the loop, from what it has already removed. *)
Lemma pruned_by d includeAll (vms gone : list VMItem) (s : S) :
  removable d → NoDup (vm_Name <$> at_vms (tables d)) →
  NoDup (vm_ID <$> (gone ++ vms)%list) → (∀ vm, vm ∈ vms → vm ∈ at_vms (tables d)) →
  db s = Db_ (withoutVMs (clock d) gone (tables d)) [] (clock d) →
  let '(names, s') := pruneVMs false includeAll vms (vm_Name <$> gone) s in
  ∃ rows, db s' = Db_ (withoutVMs (clock d) (gone ++ rows)%list (tables d)) [] (clock d) ∧ names = vm_Name <$> (gone ++ rows)%list ∧
    Forall (λ vm, vm ∈ vms ∧ prunable includeAll vm) rows.
Proof.
  intros Hr Hn. revert gone s. induction vms as [|vm vms IH]; intros gone s Hids Hin Hs; cbn [VMAPI.pruneVMs].
  { exists []. by rewrite app_nil_r. }
  assert (NoDup (vm_ID <$> (gone ++ vms)%list)) as Hids'.
  { rewrite fmap_app, fmap_cons in Hids. rewrite fmap_app. apply NoDup_app in Hids as (Hg & Hd & Hv).
    apply NoDup_cons in Hv as [_ Hv]. apply NoDup_app. split_and!; [done| |done]. intros i Hi Hi'. apply (Hd i Hi). by right. }
  assert (∀ x, x ∈ vms → x ∈ at_vms (tables d)) as Hin' by (intros x Hx; apply Hin; by right).
  assert (∀ r : list string * S, (let '(names, s') := r in ∃ rows,
      db s' = Db_ (withoutVMs (clock d) (gone ++ rows)%list (tables d)) [] (clock d) ∧ names = vm_Name <$> (gone ++ rows)%list ∧
      Forall (λ vm0, vm0 ∈ vms ∧ prunable includeAll vm0) rows) →
    let '(names, s') := r in ∃ rows,
      db s' = Db_ (withoutVMs (clock d) (gone ++ rows)%list (tables d)) [] (clock d) ∧ names = vm_Name <$> (gone ++ rows)%list ∧
      Forall (λ vm0, vm0 ∈ vm :: vms ∧ prunable includeAll vm0) rows) as Hskip.
  { intros [names s'] (rows & Hdb & Hnames & Hrows). exists rows. split_and!; [done..|].
    eapply Forall_impl; [exact Hrows|]. intros x [Hx Hp]. split; [by right|done]. }
  destruct (_ && negb includeAll) eqn:Eb; [by apply Hskip, IH|].
  assert (prunable includeAll vm) as Hp by (unfold prunable, busy; by rewrite Eb).
  rewrite ST_bind_unfold.
  assert (vm ∈ at_vms (tables (db s))) as Hvm.
  { rewrite Hs. cbn. apply list_elem_of_filter. split; [|apply Hin; left]. intros Hg. rewrite fmap_app, fmap_cons in Hids.
    apply NoDup_app in Hids as (_ & Hd & _). apply (Hd _ Hg). left. }
  assert (removable (db s)) as Hrs by (rewrite Hs; by apply removable_without).
  assert (NoDup (vm_Name <$> at_vms (tables (db s)))) as Hns by (rewrite Hs; by apply NoDup_fmap_filter).
  pose proof (remove_one vm s Hrs Hvm Hns) as H1r. destruct (VMRemove _ s) as [br s1]. cbn [fst snd].
  destruct (HasErrors br); [apply Hskip, IH; [done..|congruence]|].
  assert (∀ rows, (gone ++ [vm]) ++ rows = gone ++ vm :: rows)%list as Hassoc by (intros; by rewrite <- app_assoc).
  assert (db s1 = Db_ (withoutVMs (clock d) (gone ++ [vm])%list (tables d)) [] (clock d)) as Hs1
    by (rewrite H1r, Hs; cbn [tables clock]; by rewrite withoutVMs_app).
  assert (NoDup (vm_ID <$> ((gone ++ [vm]) ++ vms)%list)) as Hids1 by by rewrite Hassoc.
  specialize (IH (gone ++ [vm])%list s1 Hids1 Hin' Hs1). rewrite fmap_app in IH. cbn [fmap list_fmap] in IH.
  destruct (pruneVMs _ _ _ _ s1) as [names s']. destruct IH as (rows & Hdb & Hnames & Hrows).
  exists (vm :: rows). rewrite Hassoc in Hdb, Hnames. split_and!; [done..|]. constructor; [split; [left|done]|].
  eapply Forall_impl; [exact Hrows|]. intros x [Hx Hpx]. split; [by right|done].
Qed.

(** What a call did: the tables without some machines that could be pruned, the
    names of which it returns.  With [dryRun] it removes none and returns the
    names of all of them. *)
Definition pruneOutcome (dryRun includeAll : bool) (d : Db AppTables) (r : result error (list string)) (d' : Db AppTables) : Prop :=
  ∃ rows, d' = Db_ (withoutVMs (clock d) rows (tables d)) [] (clock d) ∧
    Forall (λ vm, vm ∈ at_vms (tables d) ∧ prunable includeAll vm ∧ erased vm (tables d')) rows ∧
    match r with
    | Ok names => if dryRun then rows = [] ∧ names ≡ₚ vm_Name <$> filter (prunable includeAll) (at_vms (tables d))
                  else names = vm_Name <$> rows
    | Err _ => rows = []
    end.

(** C24. [VMPrune], on a database whose statements do not fail, whose machines have
    distinct names and distinct, nonempty ids, and among any host: it spares every machine that runs or starts, unless it was told to
    include them all; the names it returns are those of the machines that are
    gone, none of which leaves a row, a lease or an attached volume; with
    [dryRun] it returns the names of the machines it would try and changes
    nothing; when it fails it has changed nothing. *)
Theorem VMPrune_spares s dryRun includeAll :
  removable (db s) → NoDup (vm_Name <$> at_vms (tables (db s))) → NoDup (vm_ID <$> at_vms (tables (db s))) →
  let '(r, s') := VMPrune dryRun includeAll s in pruneOutcome dryRun includeAll (db s) r (db s').
Proof.
  intros Hr Hn Hi. pose proof (proj1 Hr) as Hf. unfold VMAPI.VMPrune.
  assert (db s = Db_ (withoutVMs (clock (db s)) [] (tables (db s))) [] (clock (db s))) as Hsame
    by (rewrite withoutVMs_nil; destruct (db s); cbn in *; by subst).
  rewrite bind_try.
  assert (db (onRepo (CheckPrivileges (W := W) "/usr/sbin/ip" "prune VMs") s).2 = db s) as Eg
    by exact (host_leads (CheckPrivileges (W := H) "/usr/sbin/ip" "prune VMs") (db s) Hf s eq_refl).
  destruct (onRepo (CheckPrivileges _ _) s) as [[u|e] s1]; cbn [fst snd] in *; cycle 1.
  { unfold throw. rewrite Eg. exists []. split_and!; [done|constructor|done]. }
  assert (try (onRepo (ListAll (W := W))) s1 = (Ok (Ok (orderBy vm_CreatedAt (at_vms (tables (db s))))), s1)) as Hall.
  { destruct s1 as [t [[tb fs c] h]]. cbn in Eg. rewrite <- Eg in *. cbn in Hf. subst fs. by destruct tb. }
  rewrite bind_unfold, Hall. unfold calls. pose proof (orderBy_perm vm_CreatedAt (at_vms (tables (db s)))) as Hperm.
  destruct dryRun.
  - rewrite dryRun_names, Eg. exists []. split_and!; [done|constructor|done|]. by rewrite Hperm.
  - pose proof (pruned_by (db s) includeAll (orderBy vm_CreatedAt (at_vms (tables (db s)))) [] s1 Hr Hn) as Hp.
    cbn [app fmap list_fmap] in Hp. destruct (pruneVMs _ _ _ _ s1) as [names s'].
    destruct Hp as (rows & Hdb & Hnames & Hrows); [by rewrite Hperm|intros vm; by rewrite Hperm|by rewrite Eg|].
    exists rows. split_and!; [done| |done]. apply Forall_forall. intros vm Hvm.
    destruct (proj1 (Forall_forall _ _) Hrows vm Hvm) as [Hx Hpx]. rewrite Hperm in Hx. split_and!; [done..|].
    rewrite Hdb. by apply withoutVMs_erased.
Qed.
End Removal.

(** * Examples *)
Module RemovalExamples.
Import RepoExamples AttachExamples EnrichExamples.

#[export] Instance quiet_netops : NetOps unit := {|
  BridgeExists _ := mret true; TapExists _ := mret true; BridgeHasSubnet _ _ := mret true; GetBridgeTaps _ := mret [];
  GetTapBridge _ := mret ""; GetBridgeSlaves _ := mret []; GetSystemBridges := mret []; RunBatch _ := mret (); RemoveRawTap _ := mret ();
  RemoveRawBridge _ := mret ();
|}.
#[export] Instance quiet_tracker : Tracker unit := {|
  tr_Initialize := mret (); tr_Teardown := mret (); tr_EnsureRule r l := mret (FirewallRuleResult_ true None None None);
  tr_BatchEnsureRules l := mret (FirewallRuleResult_ true None None None); tr_RemoveRule r := mret (FirewallRuleResult_ true None None None);
  tr_BatchRemoveRules l := mret (FirewallRuleResult_ true None None None); tr_EnsureChain _ _ _ _ := mret true; tr_FlushChain _ _ := mret true;
  tr_CountOrphanedRules _ := mret 0%Z; tr_RuleExists _ := mret true;
|}.
#[export] Instance quiet_rules : firewallRuleRepo unit := {|
  fr_GetByNetworkID _ _ := mret []; fr_GetByNetworkIDAndInterface _ _ _ := mret [];
|}.
#[export] Instance quiet_files : Files unit := {|
  MkdirAll _ := mret (); Stat _ := mret (); IsNotExist _ := false; RemoveFile _ := mret (); RemoveAll _ := mret ();
|}.
#[export] Instance quiet_table : ProcessTable unit := λ _ _, false.

#[local] Notation ExW := (Db AppTables * unit)%type.
#[local] Instance ex_app_vms : Repository ExW := removal_vms noLike fixedMarshal allRows violated.
#[local] Instance ex_app_volumes : VolumeRepository ExW := removal_volumes noLike violated.
#[local] Instance ex_app_leases : LeaseRepository ExW := removal_leases violated (λ _, None) (λ s, Errorf s None).
#[local] Instance ex_app_networks : NetworkRepository ExW := removal_networks noLike violated id (λ _, false).

(** [web] has stopped and has a lease and a disk; [db] runs. *)
Definition webAndDb : Db AppTables :=
  Db_ (AppTables_ [vmSetVolumeIDs ["d2"] (exVM "id1" "web"); vmSetStatus VMStatusRunning (exVM "id2" "db")]
         [disk "d2" VolumeStatusAttached (Some "id1"); disk "d3" VolumeStatusAvailable None]
         (LeaseTables_ [NetworkLeaseItem_ "n1" "10.0.0.2" "t0" (Some 1%Z) (Some "id1") None;
                        NetworkLeaseItem_ "n1" "10.0.0.3" "t0" (Some 2%Z) (Some "id2") None] 3 [])) [] "t1".
Definition atRest (d : Db AppTables) : FirewallTracker * ExW := (FirewallTracker_ false [], (d, ())).

Definition remove (names : list string) (d : Db AppTables) : BatchResult * (FirewallTracker * ExW) :=
  VMRemove (W := ExW) true elements (λ _, None) (λ s, Errorf s None) "/vms" (λ _, AnyNil) (VMInput_ names true) (atRest d).
Definition prune (dryRun includeAll : bool) (d : Db AppTables) : result error (list string) * (FirewallTracker * ExW) :=
  VMPrune (W := ExW) true elements (λ _, None) (λ s, Errorf s None) "/vms" (λ _, AnyNil) dryRun includeAll (atRest d).

(** The columns that matter. *)
Definition rowsIn (s : FirewallTracker * ExW) : list string * list (string * VolumeStatus) * list (option string) :=
  let t := tables s.2.1 in
  (vm_Name <$> at_vms t, (λ v, (vol_ID v, vol_Status v)) <$> at_volumes t, ls_VMID <$> leases (at_leases t)).

Lemma webAndDb_removable : removable webAndDb.
Proof.
  split_and!; [done| |].
  - split; apply (bool_decide_unpack _); vm_compute; exact I.
  - apply (bool_decide_unpack _); vm_compute; exact I.
Qed.

(** A name that is given twice is reported as not found, although its machine is
    removed. *)
Lemma VMRemove_effect_witness :
  rowsIn (remove ["web"; "web"] webAndDb).2 =
    (["db"], [("d2", VolumeStatusAvailable); ("d3", VolumeStatusAvailable)], [Some "id2"]) ∧
  HasErrors (remove ["web"; "web"] webAndDb).1 = true ∧
  ∃ rows, (remove ["web"; "web"] webAndDb).2.2.1 = Db_ (withoutVMs "t1" rows (tables webAndDb)) [] "t1" ∧
    Forall (λ vm, vm ∈ at_vms (tables webAndDb) ∧ erased vm (tables (remove ["web"; "web"] webAndDb).2.2.1)) rows ∧
    length (filter (λ r, Status r = "success") (BR_Items (remove ["web"; "web"] webAndDb).1)) = length rows ∧
    (rows = [] → HasErrors (remove ["web"; "web"] webAndDb).1 = true).
Proof.
  split_and!; [vm_compute; reflexivity|vm_compute; reflexivity|].
  pose proof (VMRemove_effect noLike fixedMarshal allRows violated id (λ _, false) (λ _, None) (λ s, Errorf s None) true elements
    "/vms" (λ _, AnyNil) (atRest webAndDb) (VMInput_ ["web"; "web"] true) webAndDb_removable) as He.
  match type of He with let '(_, _) := ?r in _ => change r with (remove ["web"; "web"] webAndDb) in He end.
  by destruct (remove ["web"; "web"] webAndDb) as [br s'].
Defined.

(** When the statement that deletes the row of [web] fails, its lease is gone and its
    disk is free, and it is reported as pruned, but the row stays. *)
Definition undeletable : Db AppTables :=
  Db_ (tables webAndDb) (replicate 7 None ++ [Some (Errorf "disk I/O error" None)])%list (clock webAndDb).

Lemma VMPrune_unremoved :
  (prune false false undeletable).1 = Ok ["web"] ∧
  rowsIn (prune false false undeletable).2 =
    (["web"; "db"], [("d2", VolumeStatusAvailable); ("d3", VolumeStatusAvailable)], [Some "id2"]).
Proof. split; vm_compute; reflexivity. Qed.

Lemma VMPrune_spares_witness :
  (prune false false webAndDb).1 = Ok ["web"] ∧
  rowsIn (prune false false webAndDb).2 =
    (["db"], [("d2", VolumeStatusAvailable); ("d3", VolumeStatusAvailable)], [Some "id2"]) ∧
  (prune true true webAndDb).1 = Ok ["web"; "db"] ∧
  pruneOutcome false false webAndDb (prune false false webAndDb).1 (prune false false webAndDb).2.2.1 ∧
  pruneOutcome true true webAndDb (prune true true webAndDb).1 (prune true true webAndDb).2.2.1.
Proof.
  assert (NoDup (vm_Name <$> at_vms (tables webAndDb)) ∧ NoDup (vm_ID <$> at_vms (tables webAndDb))) as [Hn Hi]
    by (split; apply (bool_decide_unpack _); vm_compute; exact I).
  assert (∀ dryRun includeAll, pruneOutcome dryRun includeAll webAndDb (prune dryRun includeAll webAndDb).1
    (prune dryRun includeAll webAndDb).2.2.1) as He.
  { intros dryRun includeAll.
    pose proof (VMPrune_spares noLike fixedMarshal allRows violated id (λ _, false) (λ _, None) (λ s, Errorf s None) true elements
      "/vms" (λ _, AnyNil) (atRest webAndDb) dryRun includeAll webAndDb_removable Hn Hi) as He.
    match type of He with let '(_, _) := ?r in _ => change r with (prune dryRun includeAll webAndDb) in He end.
    by destruct (prune dryRun includeAll webAndDb) as [br s']. }
  split_and!; [vm_compute; reflexivity..|apply He|apply He].
Defined.
End RemovalExamples.
