(* ===== verification/Creation.v ===== *)
(** * What a creation does to the table of machines

    [VMCreate] on one database ([AppDb]) and among any host, whatever the schedule
    of its goroutines: the statements on other tables, and everything the host
    does, leave the machines alone ([keepsVMs]), and of the steps of a creation
    only those that record the machine touch its row. *)

From stdpp Require Import gmap strings list relations.
From S2P Require Import Prelude GoStrings Errs Model Inputs Infra Sql System Resume Batch Disk Config Files Resolving Volumes NetOps Networks FwRepo FwTracker VMRepo VMResolver FcConfig Spawn VMControl IPNet Lease Names NetService NetAPI Assets Enrich CloudInit VMCreateInput VMAPI VolumeAPI VMCreate AppDb AppFrames Attach Removal.
#[local] Open Scope string_scope.

(** ** The rest of the host *)
Section Instances.
Context {H : Type}.
#[local] Notation W := (Db AppTables * H)%type.

#[export] Instance app_settings `{SettingsRepository H} : SettingsRepository W := {|
  cfr_Get := λ c k, onHost (cfr_Get c k); cfr_Set := λ c k v, onHost (cfr_Set c k v); cfr_Delete := λ c k, onHost (cfr_Delete c k);
  cfr_DeleteByCategory := λ c, onHost (cfr_DeleteByCategory c); cfr_DeleteAll := onHost cfr_DeleteAll; cfr_Count := onHost cfr_Count;
  cfr_ListByCategory := λ c, onHost (cfr_ListByCategory c);
|}.
#[export] Instance app_keys `{KeyRepository H} : KeyRepository W := {|
  keyr_Get := λ i, onHost (keyr_Get i); keyr_ListAll := onHost keyr_ListAll; keyr_GetByName := λ n, onHost (keyr_GetByName n);
  keyr_GetDefault := onHost keyr_GetDefault; keyr_Upsert := λ k, onHost (keyr_Upsert k); keyr_Delete := λ i, onHost (keyr_Delete i);
  keyr_SetDefault := λ i, onHost (keyr_SetDefault i); keyr_FindByPrefix := λ p, onHost (keyr_FindByPrefix p);
  keyr_GetDefaults := onHost keyr_GetDefaults; keyr_ClearDefaults := onHost keyr_ClearDefaults;
  keyr_UpdateManyIsPresent := λ l b, onHost (keyr_UpdateManyIsPresent l b); keyr_Count := onHost keyr_Count;
|}.
#[export] Instance app_paths `{Paths H} : Paths W := {|
  ExpandTilde := λ p, onHost (ExpandTilde p); EvalSymlinks := λ p, onHost (EvalSymlinks p);
  Abs := λ p, onHost (Abs p); NowText := onHost NowText;
|}.
#[export] Instance app_texts `{TextFiles H} : TextFiles W := {|
  ReadText := λ p, onHost (ReadText p); CloudInit.WriteText := λ p t, onHost (CloudInit.WriteText p t); Access := λ p, onHost (Access p);
|}.
#[export] Instance app_ports `{Ports H} : Ports W := {|
  Listens := λ h p, onHost (Listens h p); Dials := λ h p, onHost (Dials h p);
|}.
#[export] Instance app_services `{ServiceProcesses H} : ServiceProcesses W := λ s l, onHost (SpawnService s l).
#[export] Instance app_provisioning `{Provisioning H} : Provisioning W := {|
  Backend := Backend (W := H); NewBackend := λ o, onHost (NewBackend o); Resize := λ b n, onHost (Resize b n);
  SetHostname := λ b n, onHost (SetHostname b n); InjectDNS := λ b d, onHost (InjectDNS b d);
  SetupSSH := λ b u l, onHost (SetupSSH b u l); SetupSudo := λ b u, onHost (SetupSudo b u);
  DisableCloudInit := λ b, onHost (DisableCloudInit b); InjectCloudInit := λ b d, onHost (InjectCloudInit b d);
  Deblob := λ b d, onHost (Deblob b d); FixFstab := λ b, onHost (FixFstab b);
  InjectAgent := λ b a p t, onHost (InjectAgent b a p t); RunBackend := λ b, onHost (RunBackend b);
|}.
#[export] Instance app_creation `{CreationEnv H} : CreationEnv W := {|
  OnProgress := λ p s m, onHost (OnProgress p s m); EnsureCached := λ l, onHost (EnsureCached l);
  MaterializeTo := λ i f p, onHost (MaterializeTo i f p); AgentBinary := onHost AgentBinary;
  RandomBelow := λ n, onHost (RandomBelow n); UUIDV4 := onHost UUIDV4; MACBytes := onHost MACBytes;
|}.
End Instances.

(** ** The frame *)

Section Frame.
Context {H : Type}.
#[local] Notation W := (Db AppTables * H)%type.

Definition keepsVMs (w w' : W) : Prop := at_vms (tables w'.1) = at_vms (tables w.1).

#[export] Instance keepsVMs_preorder : PreOrder keepsVMs.
Proof. split; [by intros w|]. unfold keepsVMs. intros w1 w2 w3 ? ?. congruence. Qed.

Lemma host_keeps {A} (m : ST H A) : upholds keepsVMs (onHost m).
Proof. intros w. unfold keepsVMs. by rewrite (onHost_same m w). Qed.

Lemma same_keeps {A} (m : ST W A) : upholds sameDb m → upholds keepsVMs m.
Proof. intros Hm w. unfold keepsVMs. by rewrite (Hm w). Qed.

Lemma quiet_keeps {X A} (m : ST (X * W) A) : upholds (beside sameDb) m → upholds (beside keepsVMs) m.
Proof. intros Hm [x w]. specialize (Hm (x, w)). unfold beside, sameDb, keepsVMs in *. by rewrite Hm. Qed.

Lemma inVolumes_keeps {A} (m : GoM (Db (list VolumeItem)) error A) : upholds (A := result error A) keepsVMs (inVolumes m).
Proof. intros [d h]. unfold inVolumes, inDb, onPart, keepsVMs. cbn [fst snd]. by destruct (m _). Qed.

Lemma inLeases_keeps {A} (m : GoM (Shared LeaseTables) error A) : upholds (A := result error A) keepsVMs (inLeases m).
Proof. intros [d h]. unfold inLeases, inDb, onPart, keepsVMs. cbn [fst snd]. by destruct (AppDb.alone m _). Qed.

Lemma inNetworks_keeps {A} (m : GoM (Db (list NetworkItem)) error A) : upholds (A := result error A) keepsVMs (inNetworks m).
Proof. intros [d h]. unfold inNetworks, inDb, onPart, keepsVMs. cbn [fst snd]. by destruct (m _). Qed.

Lemma inVMs_query_keeps {A} (q : list VMItem → A) : upholds (A := result error A) keepsVMs (inVMs (query q)).
Proof. intros [[t f c] h]. unfold inVMs, inDb, onPart, keepsVMs, query, statement. cbn. by destruct f as [|[e|] f]. Qed.

Lemma inVMs_wrap_keeps {A} msg (m : GoM (Db (list VMItem)) error A) :
  upholds (A := result error A) keepsVMs (inVMs m) → upholds (A := result error A) keepsVMs (inVMs (wrapErr msg m)).
Proof.
  intros Hm [d h]. specialize (Hm (d, h)). revert Hm. unfold inVMs, inDb, onPart, wrapErr, keepsVMs. cbn [fst snd].
  by destruct (m _) as [[a|e] p].
Qed.

(** The world next to some other state. *)
Lemma next_to_keeps {X A} (m : ST W A) :
  upholds keepsVMs m → upholds (beside (X := X) keepsVMs) (λ s, let '(a, w) := m s.2 in (a, (s.1, w))).
Proof. intros Hm [x w]. unfold beside. specialize (Hm w). cbn [fst snd]. by destruct (m w). Qed.

Lemma onWorld_keeps {A} (m : ST W A) : upholds keepsVMs m → upholds (beside keepsVMs) (onWorld m).
Proof. apply next_to_keeps. Qed.

Lemma onRepo_keeps {A} (m : GoM W error A) :
  upholds (A := result error A) keepsVMs m → upholds (A := result error A) (beside keepsVMs) (onRepo m).
Proof. exact (next_to_keeps (X := FirewallTracker) m). Qed.

Lemma inWorld_keeps {X A} (m : GoM W error A) :
  upholds (A := result error A) keepsVMs m → upholds (A := result error A) (beside (X := X) keepsVMs) (inWorld m).
Proof. exact (next_to_keeps (X := X) m). Qed.

Lemma theState_keeps {X} : upholds (A := result error X) (beside keepsVMs) (theState (W := W)).
Proof. intros s. unfold theState, beside. cbn [snd]. reflexivity. Qed.

Lemma modify_keeps {X} (f : X → X) : upholds (A := result error unit) (beside keepsVMs) (modify (W := W) f).
Proof. intros s. unfold modify, beside. cbn [snd]. reflexivity. Qed.

Lemma ok_keeps {A} (r : result error A) : upholds (A := result error A) keepsVMs (ok (W := W) r).
Proof. intros w. unfold ok. cbn [snd]. reflexivity. Qed.

Lemma checked_keeps {A} (r : result error A) : upholds (A := result error A) (beside keepsVMs) (checked (W := W) r).
Proof. intros w. unfold checked. cbn [snd]. reflexivity. Qed.
End Frame.

Ltac keeps_call :=
  first [ apply host_keeps | apply inVolumes_keeps | apply inLeases_keeps | apply inNetworks_keeps | apply inVMs_query_keeps
        | apply inVMs_wrap_keeps, inVMs_query_keeps ].
Ltac keeps_step tac :=
  lazymatch goal with
  | |- upholds _ (mbind _ _) => first [apply upholds_okbind; [typeclasses eauto| |intros]|apply upholds_bind; [typeclasses eauto| |intros]]
  | |- upholds _ (mret _) => first [apply upholds_okret; typeclasses eauto|apply upholds_ret; typeclasses eauto]
  | |- upholds _ (throw _) => apply upholds_throw; typeclasses eauto
  | |- upholds _ (try _) => apply upholds_try
  | |- upholds _ (calls _) => apply upholds_calls
  | |- upholds _ (forEach _ _) => apply upholds_forEach; [typeclasses eauto|intros]
  | |- upholds _ (forOk _ _) => apply upholds_forOk; [typeclasses eauto|intros]
  | |- upholds _ (match _ with _ => _ end) => case_match
  | |- upholds _ (let _ := _ in _) => cbv zeta
  | |- upholds _ (relate _ _ _) => unfold relate
  | |- upholds _ (attempt _) => unfold attempt
  | |- upholds _ (onWorld _) => apply onWorld_keeps
  | |- upholds _ (here _) => apply onWorld_keeps
  | |- upholds _ (onRepo _) => apply onRepo_keeps
  | |- upholds _ (inWorld _) => apply inWorld_keeps
  | |- upholds _ theState => apply theState_keeps
  | |- upholds _ (modify _) => apply modify_keeps
  | |- upholds _ (ok _) => apply ok_keeps
  | |- upholds _ (checked _) => apply checked_keeps
  | |- upholds _ (mapErr _ _) => unfold mapErr
  | |- upholds _ (orElse _ _) => unfold orElse
  | |- _ => first [tac|keeps_call|solve [eauto with upholds]|progress case_match]
  end.
Ltac keeps_by tac := repeat keeps_step tac.
Ltac keeps := keeps_by fail.

(** ** Reading the input *)
Section Inputs.
Context {H : Type} `{SettingsRepository H} `{ImageRepository H} `{KernelRepository H} `{BinaryRepository H} `{KeyRepository H}
  `{Files H} `{Paths H} `{TextFiles H}.
Context (like : string → string → bool) (marshal : list string → string) (rowOK : VMItem → bool) (constraintError : error)
  (rfc3339 : string → string) (inUse : string → bool).
Context (outOfRange : Z) (ParseFloat64 : string → result error float64) (parseMap : string → result error (list (string * value)))
  (ParseDuration : string → result error Z).
Context (sortSlice : (BinaryItem → BinaryItem → bool) → list BinaryItem → list BinaryItem).
Context (parseIPv6 : string → option IP) (formatIPv6 : list Z → string) (cidrError : string → error).
Context (parseJSON : string → result error any) (cpuConfigOf : gmap string any → option CpuConfig).
#[local] Notation W := (Db AppTables * H)%type.
#[local] Instance cr_vms : Repository W := app_vms like marshal rowOK constraintError.
#[local] Instance cr_volumes : VolumeRepository W := app_volumes like constraintError.
#[local] Instance cr_leases : LeaseRepository W := app_leases constraintError parseIPv6 cidrError.
#[local] Instance cr_networks : NetworkRepository W := app_networks like constraintError rfc3339 inUse.

#[local] Notation looks m := (upholds (A := result error _) keepsVMs m).

Lemma casting_keeps {A} c k (f : value → result error A) : looks (casting (W := W) outOfRange ParseFloat64 parseMap c k f).
Proof. unfold casting, GetValue, ofResult. keeps. Qed.

Lemma orIfMissing_keeps {A} p (m next : GoM W error A) : looks m → looks next → looks (orIfMissing p m next).
Proof. intros Hm Hn. unfold orIfMissing. upholds. Qed.

Lemma image_keeps i : looks (resolveImage (W := W) i).
Proof.
  unfold resolveImage, found, errText, img_GetDefault, img_Resolve, img_byTypeNameID, img_ByType, img_ByName, img_ByID,
    img_ByVersionType, img_orMissing, img_one. keeps_by ltac:(apply orIfMissing_keeps).
Qed.

Lemma kernel_keeps i : looks (resolveKernel (W := W) i).
Proof.
  unfold resolveKernel, found, errText, krn_GetDefault, krn_Resolve, krn_ByNameVersion, krn_ByVersionType, krn_ByType, krn_ByID,
    ItemFromPath, exists_, orSame, krn_orMissing, krn_one. keeps.
Qed.
Lemma network_keeps i : looks (resolveNetwork (W := W) i).
Proof.
  unfold resolveNetwork, found, errText, nw_GetDefault, nw_Resolve, nw_ByName, nw_ByID, Networks.enrichOne, nw_enrich. keeps.
Qed.
Lemma binary_keeps i : looks (resolveBinary (W := W) sortSlice i).
Proof.
  unfold resolveBinary, found, errText, bin_GetDefault, bin_Resolve, bin_ByTypeVersion, bin_ByTypeLatest, bin_ByID, bin_one.
  keeps_by ltac:(apply orIfMissing_keeps).
Qed.

Lemma keyResolve_keeps value : looks (key_Resolve (W := W) None None value).
Proof.
  assert (∀ id, looks (key_ByID (W := W) None None id)) as Hid.
  { intros id. unfold key_ByID. generalize (if HasPrefix id "SHA256:" then [id] else [id; "SHA256:" ++ id]). intros l.
    induction l as [|c l IH]; cbn [key_tryIDs]; [keeps|]. unfold key_one. keeps; exact IH. }
  unfold key_Resolve, key_ByName, key_one.
  keeps_by ltac:(first [apply orIfMissing_keeps|apply Hid]).
Qed.

Lemma keyMany_keeps l : looks (key_ResolveMany (W := W) None None l).
Proof.
  unfold key_ResolveMany. keeps.
  enough (∀ idents items errs seen, looks (key_resolveLoop (W := W) None None idents items errs seen)) as Hl by apply Hl.
  induction idents as [|i idents IH]; intros items errs seen; cbn [key_resolveLoop]; [keeps|].
  apply upholds_okbind; [apply _|apply upholds_try, keyResolve_keeps|]. intros r. repeat case_match; keeps; apply IH.
Qed.

Lemma volResolve_keeps value : looks (vol_Resolve (W := W) None None value).
Proof. unfold vol_Resolve, vol_ByName, vol_ByID, vol_enrichOne, vol_enrich. keeps. Qed.

Lemma volMany_keeps l : upholds keepsVMs (vol_ResolveMany (W := W) None None l).
Proof.
  unfold vol_ResolveMany, resolveAll, vol_enrich. keeps.
  enough (∀ idents items errs seen, upholds keepsVMs (resolveEach vol_ID (vol_Resolve (W := W) None None) idents items errs seen)) as Hl
    by apply Hl.
  induction idents as [|i idents IH]; intros items errs seen; cbn [resolveEach]; [keeps|].
  apply upholds_bind; [apply _|exact (volResolve_keeps i)|]. intros r. repeat case_match; apply IH.
Qed.

Lemma setting_keeps {A} (zero : A) (m : GoM W error A) : looks m → looks (orZero zero m).
Proof. intros Hm. unfold orZero. keeps. Qed.

Ltac setting := first [unfold cfgString|unfold cfgInt|unfold cfgBool|unfold cfgDuration]; apply setting_keeps, casting_keeps.

Lemma assemble_keeps vmID vmDir i :
  looks (assemble (W := W) outOfRange ParseFloat64 parseMap ParseDuration sortSlice parseIPv6 formatIPv6 cidrError parseJSON cpuConfigOf
    vmID vmDir i).
Proof.
  unfold assemble, resolveSSHKeys, resolveVolumes, someOf, resolveMemory, cpuConfigFor, errText, ResolveMode, key_GetDefaults, missing.
  keeps_by ltac:(first [setting|apply casting_keeps|apply image_keeps|apply kernel_keeps|apply network_keeps|apply binary_keeps
    |apply keyMany_keeps|apply volMany_keeps]).
Qed.

Lemma validate_keeps i r :
  looks (ensureValidate (W := W) outOfRange ParseFloat64 parseMap parseIPv6 cidrError i r).
Proof.
  unfold ensureValidate, checkBatch, validated, refuseMissing, refuse, missing, errText. keeps_by ltac:(setting).
Qed.

Lemma Resolve_keeps vmID vmDir i :
  looks (vci_Resolve (W := W) outOfRange ParseFloat64 parseMap ParseDuration sortSlice parseIPv6 formatIPv6 cidrError parseJSON
    cpuConfigOf vmID vmDir i).
Proof.
  unfold vci_Resolve. apply upholds_okbind; [apply _|apply assemble_keeps|]. intros r.
  apply upholds_okbind; [apply _|apply validate_keeps|]. intros. keeps.
Qed.
End Inputs.

(** ** The services of a creation *)
Section Services.
Context {H : Type} `{Files H} `{TextFiles H} `{Ports H} `{ServiceProcesses H} `{Runner H} `{Tracker H} `{Processes H} `{NetOps H}
  `{SettingsRepository H} `{VsockRepository H} `{firewallRuleRepo H} `{OpEnv H} `{CreationEnv H}.
Context (like : string → string → bool) (constraintError : error) (parseIPv6 : string → option IP) (formatIPv6 : list Z → string)
  (cidrError : string → error).
#[local] Notation W := (Db AppTables * H)%type.
#[local] Notation S := (FirewallTracker * W)%type.
#[local] Instance sv_volumes : VolumeRepository W := app_volumes like constraintError.
#[local] Instance sv_leases : LeaseRepository W := app_leases constraintError parseIPv6 cidrError.
#[local] Notation looks m := (upholds (A := result error _) keepsVMs m).
#[local] Notation quiet m := (upholds (beside keepsVMs) m).

Lemma SpawnServer_keeps c : looks (SpawnServer (W := W) c).
Proof.
  unfold SpawnServer. keeps. generalize 50. induction n as [|n IH]; cbn [awaitServer]; keeps.
Qed.

Lemma FindFreePort_keeps host a b : looks (FindFreePort (W := W) host a b).
Proof.
  unfold FindFreePort. keeps. generalize (Z.to_nat (b + 1 - a)). intros n. revert a.
  induction n as [|n IH]; intros a; cbn [firstFree]; keeps_by ltac:(apply IH).
Qed.

Lemma Generate_keeps rangeDirectives parseYAML marshalYAML decodeUsers encodeUsers bcrypt render preview c :
  looks (CloudInit.Generate (W := W) rangeDirectives parseYAML marshalYAML decodeUsers encodeUsers bcrypt render preview c).
Proof. unfold CloudInit.Generate, parseCustomCloudInitConfig, writeCustomCloudInitFiles, writeMetaData. keeps. Qed.

Lemma ensureChain_keeps c t' f p : quiet (ft_EnsureChain (W := W) c t' f p).
Proof. unfold ft_EnsureChain. keeps. Qed.

Lemma ensureRule_keeps r l : quiet (ft_EnsureRule (W := W) r l).
Proof. intros s. unfold ft_EnsureRule. destruct (batchMode s.1); [by unfold beside|]. apply quiet_keeps, world_quiet. Qed.

Lemma Provision_keeps rangeDirectives parseYAML marshalYAML decodeUsers encodeUsers bcrypt render preview notStarted tracked c :
  quiet (Provision (W := W) rangeDirectives parseYAML marshalYAML decodeUsers encodeUsers bcrypt render preview notStarted tracked c).
Proof.
  unfold Provision, provisionNet, provisionISO, withServer, serverPort, CreateSeedISO, requireSeed, missing.
  keeps_by ltac:(first [apply Generate_keeps|apply ensureRule_keeps|apply ensureChain_keeps|apply SpawnServer_keeps|apply FindFreePort_keeps]).
Qed.

(** The spawner. *)
Lemma closing_keeps fd : quiet (closing (W := W) fd).
Proof. unfold closing. keeps. Qed.

Lemma Cleanup_keeps : quiet (Spawn.Cleanup (W := W)).
Proof. unfold Spawn.Cleanup, CloseFilePointers, onSpawner. keeps_by ltac:(apply closing_keeps). Qed.

Lemma awaitSocket_keeps n socket pid : quiet (awaitSocket (W := W) n socket pid).
Proof. induction n as [|n IH]; cbn [awaitSocket]; unfold listening; keeps. Qed.

Lemma spawnBody_keeps : quiet (spawnBody (W := W)).
Proof.
  unfold spawnBody, removeStaleSocket, openOutput, openLog, verifySocket, CloseFilePointers, onSpawner, setRelay, setStarted.
  keeps_by ltac:(first [apply closing_keeps|apply awaitSocket_keeps|apply next_to_keeps, host_keeps]).
Qed.

Lemma Spawn_keeps : quiet (Spawn (W := W)).
Proof.
  intros [sp w]. unfold Spawn. pose proof (spawnBody_keeps (Frame_ sp None None, w)) as Hb. unfold beside in *. cbn [fst snd] in *.
  destruct (spawnBody _) as [[u|e] fs]; cbn [fst snd] in *; [exact Hb|].
  assert (quiet (abandon (W := W))) as Ha by (unfold abandon; keeps_by ltac:(first [apply closing_keeps|apply Cleanup_keeps])).
  specialize (Ha fs). unfold beside in Ha. destruct (abandon fs) as [r fs']; cbn [fst snd] in *. by etrans.
Qed.

Lemma WriteToFile_keeps Abs marshal : quiet (WriteToFile (W := W) Abs marshal).
Proof.
  unfold WriteToFile. keeps. intros s. unfold generate, beside. destruct (FcConfig.Generate _ _) as [r g]. cbn [snd]. reflexivity.
Qed.

(** Leases and volumes. *)
Lemma Lease_keeps net vmID : looks (Lease (W := W) parseIPv6 formatIPv6 cidrError net vmID).
Proof.
  unfold Lease. generalize maxRetries. intros n. induction n as [|n IH]; cbn [leaseLoop]; unfold GetLeases; keeps.
Qed.
Lemma LeaseSpecific_keeps net ip vmID : looks (LeaseSpecific (W := W) net ip vmID).
Proof. unfold LeaseSpecific, IsAvailable. keeps. Qed.
Lemma SetVolumesState_keeps l st o : looks (SetVolumesState (W := W) l st o).
Proof.
  unfold SetVolumesState, volctl_Attach, volctl_Detach. keeps.
Qed.
Lemma PersistConfig_keeps sha v cid id name path port token :
  looks (PersistConfig (W := W) RandomBelow NowRFC3339 sha v cid id name path port token).
Proof.
  assert (∀ n first item, looks (persistAttempts (W := W) RandomBelow n first item)) as Hp.
  { induction n as [|n IH]; intros first item; cbn [persistAttempts]; unfold AllocateCID; keeps_by ltac:(apply IH). }
  unfold PersistConfig. keeps_by ltac:(apply Hp).
Qed.
Lemma GetPubkeys_keeps l : looks (GetPubkeys (W := W) l).
Proof. induction l as [|k l IH]; cbn [GetPubkeys]; unfold readPubKeyFile, missing; keeps_by ltac:(apply IH). Qed.
End Services.

(** ** The row of a machine *)

(** The row that holds [vm], whatever its times. *)
Definition stored (vm : VMItem) (x : option VMItem) : Prop := ∃ c u, x = Some (vmSetTimes c u (vmStored vm)).
(** After the row was written, and after the volumes were: the second statement
    may have failed. *)
Definition savedRow (vm : VMItem) (x : option VMItem) : Prop := vm_VolumeIDs vm = [] ∧ stored vm x.
Definition madeRow (vm : VMItem) (x : option VMItem) : Prop := stored vm x ∨ stored (vmSetVolumeIDs [] vm) x.

Lemma vmSetVolumeIDs_twice l l' vm : vmSetVolumeIDs l (vmSetVolumeIDs l' vm) = vmSetVolumeIDs l vm.
Proof. done. Qed.
Lemma vmSetVolumeIDs_same vm : vm_VolumeIDs vm = [] → vmSetVolumeIDs [] vm = vm.
Proof. destruct vm; cbn. by intros ->. Qed.

(** The statement that writes it. *)
Lemma upsertRow_rows rowOK constraintError now vm t :
  match upsertRow rowOK constraintError now vm t with
  | Ok (_, t') => stored vm (findRow t' (vm_ID vm)) ∧ ∀ id, id ≠ vm_ID vm → findRow t' id = findRow t id
  | Err _ => True
  end.
Proof.
  unfold upsertRow. case_decide; [done|]. destruct (negb _); [done|].
  assert (∀ x, vm_ID (if decide (vm_ID x = vm_ID vm) then vmSetTimes (vm_CreatedAt x) now (vmStored vm) else x) = vm_ID x) as Hid
    by (intros x; by case_decide as E).
  case_decide as Hin.
  - split.
    + rewrite (findRow_fmap _ _ _ Hid). apply list_elem_of_fmap in Hin as (x & Ex & Hx).
      destruct (findRow t (vm_ID vm)) as [y|] eqn:Ef.
      * apply findRow_Some in Ef as [_ Ey]. cbn. rewrite decide_True by done. by do 2 eexists.
      * exfalso. unfold findRow in Ef. apply head_None in Ef. assert (x ∈ filter (λ v, vm_ID v = vm_ID vm) t) as Hf
          by by apply list_elem_of_filter. rewrite Ef in Hf. by apply elem_of_nil in Hf.
    + intros id Hne. rewrite (findRow_fmap _ _ _ Hid). destruct (findRow t id) as [y|] eqn:Ef; [|done].
      apply findRow_Some in Ef as [_ Ey]. cbn. by rewrite decide_False by congruence.
  - assert (∀ id, findRow (t ++ [vmStored vm]) id = match findRow t id with Some x => Some x | None => findRow [vmStored vm] id end) as Happ.
    { intros id. unfold findRow. rewrite filter_app. by destruct (filter _ t). }
    split.
    + rewrite Happ. destruct (findRow t (vm_ID vm)) as [y|] eqn:Ef.
      { apply findRow_Some in Ef as [Hy Ey]. exfalso. apply Hin. rewrite <- Ey. by apply list_elem_of_fmap_2. }
      rewrite findRow_cons, decide_True by done. exists (vm_CreatedAt vm), (vm_UpdatedAt vm). by destruct vm.
    + intros id Hne. rewrite Happ. destruct (findRow t id) as [y|]; [done|]. rewrite findRow_cons, decide_False by done. done.
Qed.

(** ** One creation, among the others *)
Section Creation.
Context {H : Type} `{SettingsRepository H} `{ImageRepository H} `{KernelRepository H} `{BinaryRepository H} `{KeyRepository H}
  `{VsockRepository H} `{SnapshotRepository H}.
Context `{NetOps H} `{Tracker H} `{firewallRuleRepo H} `{Runner H} `{Host H} `{Firecracker H} `{ConfigManager H} `{Files H} `{Paths H}
  `{Processes H} `{Console H} `{ProcessTable H} `{OpEnv H}.
Context `{TextFiles H} `{Ports H} `{ServiceProcesses H} `{Provisioning H} `{CreationEnv H}.
Context (like : string → string → bool) (marshalList : list string → string) (rowOK : VMItem → bool) (constraintError : error)
  (rfc3339 : string → string) (inUse : string → bool).
Context (outOfRange : Z) (ParseFloat64 : string → result error float64) (parseMap : string → result error (list (string * value)))
  (ParseDuration : string → result error Z).
Context (parseIPv6 : string → option IP) (formatIPv6 : list Z → string) (cidrError : string → error).
Context (Abs : string → option string) (marshal : FirecrackerVMConfig → result error string).
Context (rangeDirectives : list (string * string)) (parseYAML : string → result error any)
  (marshalYAML : gmap string any → result error string) (decodeUsers : any → result error (list cloudInitUser))
  (encodeUsers : list cloudInitUser → result error (list any)) (bcrypt : string → result error string)
  (render : string → TemplateData → result error string) (preview : string → string) (notStarted : RunResult → bool).
Context (sha256Hex : string → string) (tracked : bool) (CacheDir agentVersion : string).

#[local] Notation W := (Db AppTables * H)%type.
#[local] Notation S := (FirewallTracker * W)%type.
#[local] Notation T := (VMCreateBuilder * S)%type.
#[local] Instance creation_vms : Repository W := app_vms like marshalList rowOK constraintError.
#[local] Instance creation_volumes : VolumeRepository W := app_volumes like constraintError.
#[local] Instance creation_leases : LeaseRepository W := app_leases constraintError parseIPv6 cidrError.
#[local] Instance creation_networks : NetworkRepository W := app_networks like constraintError rfc3339 inUse.

Definition vmRow (s : S) (id : string) : option VMItem := findRow (at_vms (tables s.2.1)) id.
Definition isOf (id : string) (b : VMCreateBuilder) : Prop := b_vmID b = id.

Section Machine.
Variable (k : string).
#[local] Notation inert := (Resume.within (ofBuilder (S := S) isOf k) (Batch.sameRows (B := VMCreateBuilder) vmRow)).
#[local] Notation aside := (Resume.within (ofBuilder (S := S) isOf k) (otherRows (B := VMCreateBuilder) vmRow k)).
#[local] Notation quiet m := (upholds (beside keepsVMs) m).

Lemma step_inert {A} (m : ST S A) : quiet m → inert (step m).
Proof.
  intros Hm. apply within_call. intros [b s] Hb. unfold onWorldS. specialize (Hm s). cbn [fst snd].
  destruct (m s) as [a s']. split; [|done]. intros id. unfold vmRow, beside in *. cbn [snd] in *. by rewrite Hm.
Qed.

Lemma assign_inert f : (∀ b, b_vmID (f b) = b_vmID b) → inert (assign f).
Proof. intros Hf. apply within_call. intros [b s] Hb. split; [done|]. unfold ofBuilder, isOf in *. cbn in *. by rewrite Hf. Qed.

Lemma builder_inert {A} (f : VMCreateBuilder → resume T A) : (∀ b, isOf k b → inert (f b)) → inert (b ← builder; f b).
Proof. intros Hf. apply within_step; [by intros x Hx|]. intros x Hx. by apply Hf. Qed.

Lemma orWrap_inert {A} what (p : resume T (result error A)) : inert p → inert (orWrap what p).
Proof. intros Hp. unfold orWrap. apply within_bind; [done|]. intros r. apply within_ret. Qed.

Lemma logged_inert {A} (p : resume T (result error A)) : inert p → inert (logged p).
Proof. intros Hp. unfold logged. apply within_bind; [done|]. intros r. apply within_ret. Qed.

(** One step of a program that leaves the machines alone; [tac] knows some calls. *)
Ltac inert_step tac :=
  lazymatch goal with
  | |- Resume.within _ _ (mbind _ builder) => apply builder_inert; intros
  | |- Resume.within _ _ (mbind _ _) => apply within_bind; [|intros]
  | |- Resume.within _ _ (orReturn _ _) => apply within_orReturn; [|intros]
  | |- Resume.within _ _ (orWrap _ _) => apply orWrap_inert
  | |- Resume.within _ _ (logged _) => apply logged_inert
  | |- Resume.within _ _ (step _) => apply step_inert
  | |- Resume.within _ _ (tryS _) => apply step_inert
  | |- Resume.within _ _ (tryW _) => apply step_inert
  | |- Resume.within _ _ (stepW _) => apply step_inert
  | |- Resume.within _ _ (assign _) => apply assign_inert; done
  | |- Resume.within _ _ (mret _) => apply within_ret
  | |- Resume.within _ _ done_ => apply within_ret
  | |- Resume.within _ _ (emitProgress _ _ _ _) => apply step_inert
  | |- Resume.within _ _ (match _ with _ => _ end) => case_match
  | |- Resume.within _ _ (let _ := _ in _) => cbv zeta
  | |- Resume.within _ _ _ => tac
  | |- _ => keeps_step tac
  end.
Ltac inert_by tac := repeat inert_step tac.

Lemma withSpawner_inert {A} (m : GoM (Spawner * W) error A) sp :
  upholds (A := result error A) (beside keepsVMs) m → inert (withSpawner m sp).
Proof.
  intros Hm. apply step_inert. intros [t w]. specialize (Hm (sp, w)). unfold beside in *. cbn [fst snd] in *.
  by destruct (m (sp, w)) as [r [sp' w']].
Qed.

Lemma setupNetwork_inert r tap : inert (setupNetwork parseIPv6 formatIPv6 cidrError r tap).
Proof.
  unfold setupNetwork.
  inert_by ltac:(first [apply LeaseSpecific_keeps|apply Lease_keeps|apply quiet_keeps, EnsureTapDevice_quiet]).
Qed.

Lemma cloneImage_inert r : inert (cloneImage r).
Proof. unfold cloneImage. inert_by fail. Qed.

Lemma startFirecracker_inert r : inert (startFirecracker Abs marshal r).
Proof.
  unfold startFirecracker, createConsole. inert_by ltac:(first [apply withSpawner_inert|apply WriteToFile_keeps|apply Spawn_keeps]).
Qed.

Lemma provisionRootfs_inert r path ip tap :
  inert (provisionRootfs outOfRange ParseFloat64 parseMap rangeDirectives parseYAML marshalYAML decodeUsers encodeUsers bcrypt render preview
    notStarted tracked CacheDir r path ip tap).
Proof.
  unfold provisionRootfs, setupGuest, provisionSeed, injectAgent, provision.
  inert_by ltac:(first [apply GetPubkeys_keeps|apply casting_keeps|apply Provision_keeps]).
Qed.

Lemma execute_inert label r :
  inert (vmBuilderExecute outOfRange ParseFloat64 parseMap parseIPv6 formatIPv6 cidrError Abs marshal rangeDirectives parseYAML marshalYAML
    decodeUsers encodeUsers bcrypt render preview notStarted sha256Hex tracked CacheDir label r).
Proof.
  unfold vmBuilderExecute, AllocateCID, FlushARP.
  inert_by ltac:(first [apply setupNetwork_inert|apply cloneImage_inert|apply provisionRootfs_inert|apply startFirecracker_inert]).
Qed.

Lemma cleanup_inert : inert (vmBuilderCleanup tracked).
Proof.
  unfold vmBuilderCleanup. inert_by ltac:(apply quiet_keeps, RemoveTap_quiet).
  intros [t w]. pose proof (Cleanup_keeps (Frame_ (newSpawner f) None None, w)) as Hc. unfold beside in *. cbn [fst snd] in *.
  by destruct (Spawn.Cleanup _) as [r [fr w']].
Qed.

(** The statement that records the machine. *)
Lemma Upsert_rows vm (s : S) :
  let '(r, s') := onRepo (Upsert (W := W) vm) s in
  (∀ id, id ≠ vm_ID vm → vmRow s' id = vmRow s id) ∧
  match r with Ok _ => stored vm (vmRow s' (vm_ID vm)) | Err _ => vmRow s' (vm_ID vm) = vmRow s (vm_ID vm) end.
Proof.
  destruct s as [t [[tb f c] h]]. unfold vmRow, onRepo, onWorld. cbn. unfold inVMs, inDb, onPart, statement. cbn.
  pose proof (upsertRow_rows rowOK constraintError c vm (at_vms tb)) as Hu.
  destruct f as [|[e|] f]; cbn; try done;
    destruct (upsertRow _ _ c vm (at_vms tb)) as [[[] vms]|e]; cbn; by try split; try apply Hu.
Qed.

Lemma toVMModel_fields b now info vm : toVMModel b now info = Some vm → vm_ID vm = b_vmID b ∧ vm_VolumeIDs vm = [].
Proof.
  unfold toVMModel. destruct (b_spawner b) as [sp|]; [|done]. cbn. destruct (sp_PID sp) as [pid|]; [|done]. cbn.
  destruct (b_cloudInitResult b ≫= cr_nocloudPort); by intros [= <-].
Qed.

Lemma inert_aside {A} (p : resume T A) : inert p → aside p.
Proof. apply within_weaken. intros x x' Hs id _. apply Hs. Qed.

Lemma Upsert_aside vm : vm_ID vm = k → aside (tryW (Upsert (W := W) vm)).
Proof.
  intros <-. apply within_call. intros [b s] Hb. unfold onWorldS. pose proof (Upsert_rows vm s) as Hu. cbn [fst snd].
  destruct (onRepo _ s) as [r s']. destruct Hu as [Hu _]. by split.
Qed.

Lemma relayInfo_inert b : inert (relayInfo b).
Proof. unfold relayInfo. inert_by fail. Qed.

Lemma save_aside : aside (saveMachine sha256Hex agentVersion).
Proof.
  unfold saveMachine. apply within_step; [by intros x Hx|]. intros x Hx.
  apply within_bind; [apply inert_aside, step_inert; keeps|]. intros now.
  apply within_bind; [apply inert_aside, relayInfo_inert|]. intros info. cbn [fst].
  destruct (toVMModel _ _ _) as [vm|] eqn:E; [|apply within_ret]. apply toVMModel_fields in E as [E _].
  apply within_orReturn.
  - unfold orWrap. apply within_bind; [apply Upsert_aside; by rewrite E|]. intros. apply within_ret.
  - intros _. apply inert_aside. inert_by ltac:(apply PersistConfig_keeps).
Qed.

Lemma publish_aside r vm : vm_ID vm = k → aside (publishMachine r vm).
Proof.
  intros E. unfold publishMachine. apply within_bind.
  - case_decide; [apply within_ret|]. apply within_bind; [apply inert_aside; inert_by ltac:(apply SetVolumesState_keeps)|].
    intros _. apply within_bind; [|intros; apply within_ret]. unfold logged. apply within_bind; [by apply Upsert_aside|].
    intros. apply within_ret.
  - intros vm'. apply inert_aside. inert_by fail.
Qed.

#[local] Notation among := (Resume.stays (keepsRow (B := VMCreateBuilder) vmRow k)).

Lemma record_among {A} vm b s (f : result error unit → resume T A) Q :
  vm_ID vm = k →
  (∀ r s', match r with Ok _ => stored vm (vmRow s' k) | Err _ => vmRow s' k = vmRow s k end → among (f r) Q (b, s')) →
  among (r ← tryW (Upsert (W := W) vm); f r) Q (b, s).
Proof.
  intros <- Hf [b1 s1] [Eb E1]. cbn in Eb, E1. subst b1. cbn. unfold onWorldS. cbn [fst snd].
  pose proof (Upsert_rows vm s1) as Hu.
  destruct (onRepo _ s1) as [r s2]. destruct Hu as [_ Hu]. cbn [fst snd] in *. apply Hf. destruct r; [done|congruence].
Qed.

Lemma save_among b s : isOf k b →
  among (saveMachine sha256Hex agentVersion)
    (λ r x, match r with Ok v => savedRow v (vmRow x.2 k) | Err _ => vmRow x.2 k = vmRow s k end) (b, s).
Proof.
  intros Hb [b1 s1] [Eb E1]. cbn in Eb, E1. subst b1. cbn [fst snd].
  apply (stays_after vmRow isOf); [done|apply step_inert; keeps|]. intros now [b2 s2] Hb2 E2. cbn in E2.
  apply (stays_after vmRow isOf); [done|apply relayInfo_inert|]. intros info [b3 s3] Hb3 E3. cbn in E3.
  destruct (toVMModel b now info) as [vm|] eqn:Evm.
  2:{ intros [b4 s4] [_ E4]. cbn in *. congruence. }
  apply toVMModel_fields in Evm as [Eid Evol]. rewrite Hb in Eid. unfold orReturn, orWrap.
  apply stays_bind; [apply _|]. apply record_among; [done|]. intros r s4 Hr [b5 s5] [Eb5 E5]. cbn in Eb5, E5. subst b5.
  destruct r as [u|e].
  - apply (stays_after vmRow isOf).
    + done.
    + inert_by ltac:(apply PersistConfig_keeps).
    + intros _ [b6 s6] _ E6 x [_ E7]. cbn in *. split; [done|]. congruence.
  - intros x [_ E6]. cbn in *. congruence.
Qed.

Lemma stored_ID vm s : stored vm (vmRow s k) → vm_ID vm = k.
Proof. intros (c & u & E). apply findRow_Some in E as [_ E]. done. Qed.

Lemma publish_among r vm b s : isOf k b → savedRow vm (vmRow s k) →
  among (publishMachine r vm) (λ v x, madeRow v (vmRow x.2 k)) (b, s).
Proof.
  intros Hb [Hnone Hst]. pose proof (stored_ID _ _ Hst) as Hid. unfold publishMachine. apply stays_bind; [apply _|].
  assert (∀ v b' s', isOf k b' → madeRow v (vmRow s' k) →
    among (_ ← stepW (LogOperation "vm.create" [("", "name=" ++ rv_Name r)]); mret v) (λ v x, madeRow v (vmRow x.2 k)) (b', s')) as Hlog.
  { intros v b' s' Hb' Hv. apply (stays_after vmRow isOf); [done|inert_by fail|]. intros _ [b1 s1] _ E1 x [_ E2]. cbn in *. congruence. }
  case_decide as Hvols.
  { intros [b1 s1] [Eb E1]. cbn in Eb, E1. subst b1. apply Hlog; [done|]. left. by rewrite E1. }
  apply (stays_after vmRow isOf); [done|inert_by ltac:(apply SetVolumesState_keeps)|]. intros _ [b1 s1] Hb1 E1. cbn in E1.
  apply stays_bind; [apply _|]. unfold logged. apply record_among; [done|].
  intros res s2 Hr [b2 s3] [Eb2 E3] [b3 s4] [Eb3 E4]. cbn in *. subst b2 b3. apply Hlog; [done|].
  unfold madeRow. rewrite vmSetVolumeIDs_twice, vmSetVolumeIDs_same by done. rewrite E4, E3. destruct res; [by left|].
  right. by rewrite Hr, E1.
Qed.

Lemma creation_tame label r : rv_VMID r = k →
  tame vmRow isOf savedRow madeRow k
    (creation outOfRange ParseFloat64 parseMap parseIPv6 formatIPv6 cidrError Abs marshal rangeDirectives parseYAML marshalYAML decodeUsers
       encodeUsers bcrypt render preview notStarted sha256Hex tracked CacheDir agentVersion label r).
Proof.
  intros Hk. split; cbn [creation jb_start jb_execute jb_cleanup jb_save jb_publish].
  - done.
  - apply execute_inert.
  - apply cleanup_inert.
  - apply save_aside.
  - intros v s [_ Hs]. apply publish_aside. by eapply stored_ID.
  - intros b s Hb. by apply save_among.
  - intros v b s Hb Hs. by apply publish_among.
Qed.
End Machine.

(** ** The whole operation *)
#[local] Notation quiet m := (upholds (beside keepsVMs) m).
Context (rangeIDs : gset string → list string) (sortSlice : (BinaryItem → BinaryItem → bool) → list BinaryItem → list BinaryItem).
Context (VmsDir NoCloudDir ProvisionerType : string) (toAny : VMItem * VMRefs → any).
Context (parseJSON : string → result error any) (cpuConfigOf : gmap string any → option CpuConfig).
#[local] Notation prepareBatch := (prepareBatch (W := W) outOfRange ParseFloat64 parseMap ParseDuration parseIPv6 formatIPv6 cidrError sha256Hex
  tracked sortSlice VmsDir NoCloudDir ProvisionerType parseJSON cpuConfigOf).
#[local] Notation VMCreate := (VMCreate (W := W) outOfRange ParseFloat64 parseMap ParseDuration parseIPv6 formatIPv6 cidrError Abs marshal
  rangeDirectives parseYAML marshalYAML decodeUsers encodeUsers bcrypt render preview notStarted sha256Hex tracked CacheDir agentVersion
  rangeIDs sortSlice VmsDir NoCloudDir ProvisionerType toAny parseJSON cpuConfigOf).

Lemma NamesExist_keeps names : upholds (A := result error _) keepsVMs (NamesExist (W := W) names).
Proof.
  intros [d h]. cbn. unfold sqlite_NamesExist. case_decide; [|exact (inVMs_wrap_keeps _ _ (inVMs_query_keeps _) (d, h))].
  unfold keepsVMs, inVMs, inDb, onPart. by destruct d as [[] ? ?].
Qed.

Lemma prepare_keeps i : upholds (A := result error _) (beside keepsVMs) (prepareBatch i).
Proof.
  unfold VMCreate.prepareBatch, vmNetworkSetup, shareServer.
  keeps_by ltac:(first [apply NamesExist_keeps|apply Resolve_keeps|apply FindFreePort_keeps|apply SpawnServer_keeps
    |apply quiet_keeps, WithBatch_quiet, vmNetworkBody_quiet]).
Qed.

Lemma machineInputs_IDs i shared times :
  rv_VMID <$> machineInputs sha256Hex VmsDir i shared times = zip_with (VMID sha256Hex) (batchNames i) times.
Proof.
  unfold machineInputs. generalize (batchNames i). intros names. revert times.
  induction names as [|n names IH]; intros [|t times]; [done..|]. cbn. by rewrite IH.
Qed.

Lemma madeRow_ID id vm s : madeRow vm (vmRow s id) → vm_ID vm = id.
Proof. by intros [Hs|Hs]; apply stored_ID in Hs. Qed.

(** The ids of the machines of a batch, and the goroutines that create them. *)
#[local] Notation creations := (creations (W := W) outOfRange ParseFloat64 parseMap parseIPv6 formatIPv6 cidrError Abs marshal rangeDirectives
  parseYAML marshalYAML decodeUsers encodeUsers bcrypt render preview notStarted sha256Hex tracked CacheDir agentVersion VmsDir).
Lemma length_creations i shared times : length (creations i shared times) = length (machineInputs sha256Hex VmsDir i shared times).
Proof. apply length_imap. Qed.

Lemma creations_tame i shared times :
  Forall2 (tame vmRow isOf savedRow madeRow) (rv_VMID <$> machineInputs sha256Hex VmsDir i shared times) (creations i shared times).
Proof.
  apply Forall2_fmap_l, Forall2_lookup. intros n. unfold VMCreate.creations. rewrite list_lookup_imap.
  destruct (_ !! n) as [r|]; constructor. by apply creation_tame.
Qed.

Lemma machine_ids i shared times :
  (∀ n n' t t', n ∈ batchNames i → n' ∈ batchNames i → VMID sha256Hex n t = VMID sha256Hex n' t' → n = n') →
  NoDup (rv_VMID <$> machineInputs sha256Hex VmsDir i shared times).
Proof.
  rewrite machineInputs_IDs. intros Hids. apply NoDup_alt. intros a b id Ha Hb.
  apply lookup_zip_with_Some in Ha as (n & t & -> & Hn & _). apply lookup_zip_with_Some in Hb as (n' & t' & E & Hn' & _).
  assert (n = n') as <- by (eapply Hids; eauto using list_elem_of_lookup_2).
  by eapply NoDup_lookup; [apply GenerateBatchNames_NoDup|..].
Qed.

(** C17. [VMCreate] without [Atomic], on one database and among any host, whatever
    the schedule of its goroutines and whether or not it is cancelled: when it
    answers with machines, each of them has its row, up to the times and, when the
    statement that records its volumes failed, its volumes; the rows of all other
    machines are as they were.  When it answers with an error, no row has changed.
    The ids of the machines of the batch are taken to be distinct. *)
Theorem VMCreate_rows i s r s' :
  VMCreate i s r s' → vci_Atomic i = false →
  (∀ n n' t t', n ∈ batchNames i → n' ∈ batchNames i → VMID sha256Hex n t = VMID sha256Hex n' t' → n = n') →
  match r with
  | Ok vms => (∀ id, id ∉ vm_ID <$> vms → vmRow s' id = vmRow s id) ∧ ∀ vm, vm ∈ vms → madeRow vm (vmRow s' (vm_ID vm))
  | Err _ => ∀ id, vmRow s' id = vmRow s id
  end.
Proof.
  intros Hrun Hatomic Hids. destruct Hrun as [err s' Hprep|shared s1 times b r s' Hprep Htimes jobs Hr Hcol Hend]; [|subst jobs].
  - intros id. unfold vmRow. pose proof (prepare_keeps i s) as Hk. rewrite Hprep in Hk. unfold beside, keepsVMs in Hk. cbn in Hk. by rewrite Hk.
  - assert (∀ id, vmRow s1 id = vmRow s id) as Hs1.
    { intros id. unfold vmRow. pose proof (prepare_keeps i s) as Hk. rewrite Hprep in Hk. unfold beside, keepsVMs in Hk. cbn in Hk. by rewrite Hk. }
    destruct (concludeBatch_plain _ _ _ _ _ _ _ _ _ _ _ Hatomic Hend) as [-> Hanswer].
    destruct (batch_rows vmRow isOf savedRow madeRow _ _ _ _ (machine_ids i shared times Hids) (creations_tame i shared times) _ _ Hr)
      as [Hother Hrow].
    assert (∀ id, id ∉ vm_ID <$> createdVMs (bt_received b) → vmRow (bt_state b) id = vmRow s1 id) as Hkept.
    { intros id Hid. destruct (decide (id ∈ rv_VMID <$> machineInputs sha256Hex VmsDir i shared times)) as [Hin|Hout]; [|by apply Hother].
      apply list_elem_of_lookup in Hin as [n Hn].
      destruct (collected_every _ _ _ _ _ n Hr Hcol) as [[vm|e] Hres].
      - by rewrite length_creations, <- (length_fmap rv_VMID); eapply lookup_lt_Some.
      - exfalso. apply Hid. assert (madeRow vm (vmRow (bt_state b) id)) as Hm by (apply (Hrow n id (Ok vm)); [done|apply elem_of_app; by left]).
        apply madeRow_ID in Hm as <-. apply list_elem_of_fmap_2, createdVMs_elem. by exists n.
      - apply (Hrow n id (Err e)); [done|apply elem_of_app; by left]. }
    destruct r as [vms|e]; [subst vms; split|].
    + intros id Hid. rewrite Hkept by done. apply Hs1.
    + intros vm [n Hn]%createdVMs_elem.
      destruct (lookup_lt_is_Some_2 (rv_VMID <$> machineInputs sha256Hex VmsDir i shared times) n) as [id Hid].
      { rewrite length_fmap, <- length_creations. eapply sent_bound; [exact Hr|]. apply elem_of_app. by left. }
      assert (madeRow vm (vmRow (bt_state b) id)) as Hm by (apply (Hrow n id (Ok vm)); [done|apply elem_of_app; by left]).
      by rewrite (madeRow_ID _ _ _ Hm).
    + intros id. rewrite Hkept; [apply Hs1|]. rewrite Hanswer. apply not_elem_of_nil.
Qed.
End Creation.

(** * Examples *)
Module CreationExamples.
Import RepoExamples AttachExamples EnrichExamples RemovalExamples.

(** A host on which every call succeeds, with an image, a kernel and a binary. *)
Definition theImage : ImageItem :=
  ImageItem_ "i1" "alpine" "alpine" "x86_64" "/images/i1" "ext4" 512 512 true true false "t0" "t0" "t0" "3.20" "alpine" "u-1" None None None None.
Definition theKernel : KernelItem := KernelItem_ "k1" "vmlinux" "vmlinux" "6.1" "x86_64" "official" "/k" true true "t0" "t0" None [].
Definition theBinary : BinaryItem := BinaryItem_ "b1" "firecracker" "1.10.0" "v1.10.0" None "/fc" true true "t0" "t0" None.
Definition theNetwork : NetworkItem := NetworkItem_ "n1" "lan" "10.0.0.0/24" "mvm-lan" "10.0.0.1" true true true true "t0" "t0" None None.

#[export] Instance quiet_settings : SettingsRepository unit := {|
  cfr_Get _ _ := mret VNil; cfr_Set _ _ _ := mret (); cfr_Delete _ _ := mret true; cfr_DeleteByCategory _ := mret 0%Z;
  cfr_DeleteAll := mret 0%Z; cfr_Count := mret 0%Z; cfr_ListByCategory _ := mret ∅ |}.
#[export] Instance quiet_images : ImageRepository unit := {|
  ir_Get _ := mret (Some theImage); ir_FindByPrefix _ _ := mret []; ir_GetByType _ := mret None;
  ir_GetByVersionAndType _ _ := mret None; ir_GetByName _ _ := mret None; ir_Count := mret 0%Z; ir_ListAll := mret []; ir_Upsert _ := mret ();
  ir_SoftDelete _ := mret (); ir_GetDefault := mret (Some theImage); ir_UpdateManyIsPresent _ _ := mret (); ir_Delete _ := mret ();
  ir_SetDefault _ := mret (); ir_ListAllByIDs _ := mret [] |}.
#[export] Instance quiet_kernels : KernelRepository unit := {|
  kr_Get _ := mret (Some theKernel); kr_FindByPrefix _ _ := mret []; kr_ListAll := mret []; kr_GetByName _ _ := mret None;
  kr_GetDefault := mret (Some theKernel); kr_Upsert _ := mret (); kr_Delete _ := mret (); kr_SoftDelete _ := mret (); kr_Count := mret 0%Z;
  kr_GetByType _ := mret None; kr_GetByVersionAndType _ _ := mret None; kr_SetDefault _ := mret (); kr_UpdateManyIsPresent _ _ := mret () |}.
#[export] Instance quiet_binaries : BinaryRepository unit := {|
  br_Get _ := mret None; br_FindByPrefix _ _ := mret []; br_ListAll := mret []; br_ListByType _ := mret []; br_GetByTypeAndVersion _ _ := mret None;
  br_Upsert _ := mret (); br_Delete _ := mret (); br_DeleteByType _ := mret (); br_DeleteByTypeAndVersion _ _ := mret ();
  br_SetDefault _ _ := mret (); br_Count := mret 0%Z; br_GetDefault _ := mret (Some theBinary); br_SoftDelete _ := mret ();
  br_UpdateManyIsPresent _ _ := mret () |}.
#[export] Instance quiet_keys : KeyRepository unit := {|
  keyr_Get _ := mret None; keyr_ListAll := mret []; keyr_GetByName _ := mret None; keyr_GetDefault := mret None; keyr_Upsert _ := mret ();
  keyr_Delete _ := mret (); keyr_SetDefault _ := mret (); keyr_FindByPrefix _ := mret []; keyr_GetDefaults := mret [];
  keyr_ClearDefaults := mret (); keyr_UpdateManyIsPresent _ _ := mret (); keyr_Count := mret 0%Z |}.
#[export] Instance quiet_paths : Paths unit := {|
  ExpandTilde p := mret p; EvalSymlinks p := mret p; Abs p := mret p; NowText := mret "t1" |}.
#[export] Instance quiet_texts : TextFiles unit := {| ReadText _ := mret ""; CloudInit.WriteText _ _ := mret (); Access _ := mret () |}.
#[export] Instance quiet_ports : Ports unit := {| Listens _ _ := mret true; Dials _ _ := mret true |}.
#[export] Instance quiet_services : ServiceProcesses unit := λ _ _, mret 77%Z.
#[export] Instance quiet_provisioning : Provisioning unit := {|
  Backend := unit; NewBackend _ := mret (); Resize _ _ := mret (); SetHostname _ _ := mret (); InjectDNS _ _ := mret ();
  SetupSSH _ _ _ := mret (); SetupSudo _ _ := mret (); DisableCloudInit _ := mret (); InjectCloudInit _ _ := mret (); Deblob _ _ := mret ();
  FixFstab _ := mret (); InjectAgent _ _ _ _ := mret (); RunBackend _ := mret () |}.
#[export] Instance quiet_creation : CreationEnv unit := {|
  OnProgress _ _ _ := mret (); EnsureCached _ := mret (); MaterializeTo _ _ _ := mret (); AgentBinary := mret ""; RandomBelow _ := mret 7%Z;
  UUIDV4 := mret "u"; MACBytes := mret (1, 2, 3, 4)%Z |}.
#[export] Instance quiet_processes : Processes unit := {|
  OpenTruncated _ := mret 5%Z; CloseFd _ := mret (); StartProcess _ _ _ _ := mret 42%Z; Probe _ := mret (); KillChild _ := mret ();
  WaitChild _ := mret 0%Z; WaitForSocket _ _ := mret (); Dial _ _ := mret (); GetProcessStartTime _ := mret (Some 9%Z);
  WritePIDFile _ _ := mret (); Spawn.WriteText _ _ := mret () |}.
#[export] Instance quiet_console : Console unit := {|
  CreatePTY _ := mret 6%Z; CloseClientFD _ := mret (); StartRelay _ := mret (); CleanupRelay _ := mret (); RelayGetPID _ := mret None;
  RelaySocket _ := mret "" |}.
#[export] Instance quiet_runner : Runner unit := λ _ _, mret (RunResult_ "" "" 0).

#[local] Notation ExW := (Db AppTables * unit)%type.
#[local] Notation ExS := (FirewallTracker * ExW)%type.
#[local] Instance run_vms : Repository ExW := creation_vms noLike fixedMarshal allRows violated.
#[local] Instance run_volumes : VolumeRepository ExW := creation_volumes noLike violated.
#[local] Instance run_leases : LeaseRepository ExW := creation_leases violated (λ _, None) (λ s, Errorf s None).
#[local] Instance run_networks : NetworkRepository ExW := creation_networks noLike violated id (λ _, false).

Definition noneOf {A} (s : string) : result error A := Err (Errorf s None).
Definition exPrepare (i : VMCreateInput) : ExS → result error ResolvedVMCreateInput * ExS :=
  prepareBatch 0%Z noneOf noneOf (λ _, Ok 300%Z) (λ _, None) (λ _, "") (λ s, Errorf s None) id true (λ _ l, l) "/vms" "/nocloud" "guestfs"
    noneOf (λ _, None) i.
Definition exJobs (i : VMCreateInput) (r : ResolvedVMCreateInput) : list (job (B := VMCreateBuilder) (S := ExS) (V := VMItem)) :=
  creations (W := ExW) 0%Z noneOf noneOf (λ _, None) (λ _, "") (λ s, Errorf s None) Some (λ _, Ok "{}") [] noneOf (λ _, Ok "")
    (λ _, Ok []) (λ _, Ok []) Ok (λ _ _, Ok "") id (λ _, false) id true "/cache" "" "/vms" i r ((λ _, "t2") <$> batchNames i).
Definition exConclude (i : VMCreateInput) (b : batch (B := VMCreateBuilder) (S := ExS) (V := VMItem)) : result error (list VMItem) * ExS :=
  concludeBatch (W := ExW) (λ _, None) (λ s, Errorf s None) true elements "/vms" (λ _, AnyNil) i (bt_received b) (bt_state b).

(** One machine is there; two are created; the database fails at one statement. *)
Definition oneMachine (fs : list (option error)) : ExS :=
  atRest (Db_ (AppTables_ [exVM "id1" "old"] [] (LeaseTables_ [] 1 [theNetwork])) fs "t1").
Definition two : VMCreateInput :=
  VMCreateInput_ "web" [] None "" None None None None "" None None None None None None None "" None false "" "" (Some "lan") None None None
    None false None false false (Some 2%Z) false [] None None.
Definition turns : list choice := [Main 0; Main 1; WatchReleased 0; WatchReleased 1; Watch 0; Watch 1; Receive].
Definition exBatch (fs : list (option error)) : option (batch (B := VMCreateBuilder) (S := ExS) (V := VMItem)) :=
  match exPrepare two (oneMachine fs) with (Ok r, s) => Some (drive (exJobs two r) cancelledBySignal false 600 turns (begin (exJobs two r) s)) | _ => None end.
Definition failing : list (option error) := (replicate 12 None ++ [Some violated])%list.

#[local] Notation run i s r s' := (VMCreate (W := ExW) 0%Z noneOf noneOf (λ _, Ok 300%Z) (λ _, None) (λ _, "") (λ msg, Errorf msg None) Some
  (λ _, Ok "{}") [] noneOf (λ _, Ok "") (λ _, Ok []) (λ _, Ok []) Ok (λ _ _, Ok "") id (λ _, false) id true "/cache" "" elements (λ _ l, l)
  "/vms" "/nocloud" "guestfs" (λ _, AnyNil) noneOf (λ _, None) i s r s').

(** A run of the scheduler, up to its answer. *)
Lemma example_run fs b : exBatch fs = Some b → collected (match exPrepare two (oneMachine fs) with (Ok r, _) => exJobs two r | _ => [] end) b →
  run two (oneMachine fs) (exConclude two b).1 (exConclude two b).2.
Proof.
  unfold exBatch. destruct (exPrepare two (oneMachine fs)) as [[r|e] s] eqn:Ep; [|discriminate]. intros <-%(inj Some) Hc.
  eapply (VMCreate_run _ _ _ _ _ _ _ _ _ _ _ _ _ _ _ _ _ _ _ _ _ _ _ _ _ _ _ _ _ _ _ _ r s); [exact Ep| | |exact Hc|].
  - by rewrite length_fmap.
  - apply drive_rtc.
  - unfold exConclude. by destruct (concludeBatch _ _ _ _ _ _ _ _ _).
Qed.

(** What is seen of the end of a run: the names it answers, and those in the table. *)
Definition seen (fs : list (option error)) : option (list string * list string) :=
  b ← exBatch fs;
  if decide (length (bt_received b) = 2) then
    match exConclude two b with (Ok vms, s) => Some (vm_Name <$> vms, vm_Name <$> at_vms (tables s.2.1)) | _ => None end
  else None.

Lemma two_names n n' t t' : n ∈ batchNames two → n' ∈ batchNames two → VMID id n t = VMID id n' t' → n = n'.
Proof.
  change (batchNames two) with ["web"; "web-2"]. rewrite !elem_of_cons, !elem_of_nil. unfold VMID, id.
  intros [->|[->|[]]] [->|[->|[]]]; cbn; [done|intros E; exfalso; discriminate E..|done].
Qed.

Lemma VMCreate_rows_witness : ∃ vms s',
  run two (oneMachine failing) (Ok vms) s' ∧ vm_Name <$> vms = ["web"] ∧ vm_Name <$> at_vms (tables s'.2.1) = ["old"; "web"] ∧
  (∀ id, id ∉ vm_ID <$> vms → vmRow s' id = vmRow (oneMachine failing) id) ∧ ∀ vm, vm ∈ vms → madeRow vm (vmRow s' (vm_ID vm)).
Proof.
  assert (seen failing = Some (["web"], ["old"; "web"])) as Hseen by (vm_compute; reflexivity).
  unfold seen in Hseen. destruct (exBatch failing) as [b|] eqn:Eb; [|discriminate].
  change (Some b ≫= ?f) with (f b) in Hseen. cbv beta in Hseen. destruct (decide (length (bt_received b) = 2)) as [El|]; [|discriminate].
  pose proof (example_run failing b Eb) as Hrun.
  destruct (exConclude two b) as [[vms|e] s'] eqn:Ec; [|discriminate]. cbn [fst snd] in Hrun.
  exists vms, s'. assert (run two (oneMachine failing) (Ok vms) s') as Hr.
  { apply Hrun. unfold collected. rewrite El. vm_compute. reflexivity. }
  split; [exact Hr|]. injection Hseen as E1 E2. split; [exact E1|]. split; [exact E2|].
  eapply VMCreate_rows in Hr; [exact Hr|reflexivity|exact two_names].
Defined.

(** The same batch after a number of turns. *)
#[local] Notation batchAfter n r s := (drive (exJobs two r) cancelledBySignal false n turns (begin (exJobs two r) s)).

Lemma two_prepared : ∃ r s, exPrepare two (oneMachine failing) = (Ok r, s).
Proof.
  assert (is_Ok (exPrepare two (oneMachine failing)).1 = true) as Hok by (vm_compute; reflexivity).
  destruct (exPrepare two (oneMachine failing)) as [[r|e] s]; [by exists r, s|discriminate].
Qed.

(** Half way, none of the results is there. *)
Lemma batch_live_witness : ∃ r s, exPrepare two (oneMachine failing) = (Ok r, s) ∧
  bt_received (batchAfter 60 r s) = [] ∧
  (collected (exJobs two r) (batchAfter 60 r s) ∨
   ∃ c b', c ≠ Cancel ∧ next (exJobs two r) cancelledBySignal false c (batchAfter 60 r s) = Some b') ∧
  Acc (flip (bstep (exJobs two r) cancelledBySignal false)) (batchAfter 60 r s).
Proof.
  destruct two_prepared as (r & s & E). exists r, s. split; [exact E|]. split.
  - assert (match exPrepare two (oneMachine failing) with (Ok r, s) => bt_received (batchAfter 60 r s) | _ => [] end = []) as Hn
      by (vm_compute; reflexivity). rewrite E in Hn. exact Hn.
  - apply (batch_live (exJobs two r) cancelledBySignal false s). apply drive_rtc.
Defined.

(** In the end, the machine that was created is as its goroutine left it. *)
Lemma success_not_cleaned_witness : ∃ r s t vm, exPrepare two (oneMachine failing) = (Ok r, s) ∧
  bt_threads (batchAfter 600 r s) !! 0 = Some t ∧ th_main t = Sent (Ok vm) ∧ th_watch t = Gone ∧ th_cleaned t = false.
Proof.
  destruct two_prepared as (r & s & E). exists r, s.
  assert (match exPrepare two (oneMachine failing) with
          | (Ok r, s) => match bt_threads (batchAfter 600 r s) !! 0 with Some (Thread_ _ (Sent (Ok _)) _ _) => true | _ => false end
          | _ => false end = true) as Ht by (vm_compute; reflexivity).
  rewrite E in Ht. destruct (bt_threads (batchAfter 600 r s) !! 0) as [t|] eqn:Et; [|discriminate Ht].
  pose proof (success_not_cleaned (exJobs two r) cancelledBySignal false s _ 0 t (drive_rtc _ _ _ 600 turns _) Et) as Hs.
  destruct t as [loc [p|p|p|p e|p|[vm|e]] wt cl]; try discriminate Ht. exists (Thread_ loc (Sent (Ok vm)) wt cl), vm.
  split; [exact E|]. split; [reflexivity|]. split; [reflexivity|]. exact Hs.
Defined.

Lemma Resolve_bounds_witness : ∃ r w',
  vci_Resolve (W := ExW) 0%Z noneOf noneOf (λ _, Ok 300%Z) (λ _ l, l) (λ _, None) (λ _, "") (λ msg, Errorf msg None) noneOf (λ _, None)
    "web:t1" "/vms/web:t1" two (oneMachine []).2 = (Ok r, w') ∧
  (1 <= rv_VCPUCount r <= 32)%Z ∧ (128 <= rv_MemSizeMib r <= 65536)%Z ∧ rv_DiskSizeBytes r = mibBytes (rv_DiskSizeMib r) ∧
  rv_RequestedGuestIP r = None.
Proof.
  destruct (vci_Resolve (W := ExW) _ _ _ _ _ _ _ _ _ _ _ _ _ (oneMachine []).2) as [[r|e] w'] eqn:E.
  2: { exfalso. assert (is_Ok (vci_Resolve (W := ExW) 0%Z noneOf noneOf (λ _, Ok 300%Z) (λ _ l, l) (λ _, None) (λ _, "")
         (λ msg, Errorf msg None) noneOf (λ _, None) "web:t1" "/vms/web:t1" two (oneMachine []).2).1 = true) as Hok by (vm_compute; reflexivity).
       rewrite E in Hok. discriminate. }
  exists r, w'. split; [reflexivity|].
  destruct (Resolve_bounds _ _ _ _ _ _ _ _ _ _ _ _ _ _ _ _ E) as (Hc & _ & Hm & Hd & _ & _ & _ & _ & _ & _ & _ & _ & Hb).
  split_and!; [exact (proj1 Hc)|exact (proj2 Hc)|exact (proj1 Hm)|exact (proj2 Hm)|exact Hd|]. apply Hb. vm_compute. reflexivity.
Defined.
End CreationExamples.
