(* ===== verification/Restoration.v ===== *)
(** * What a restoration does to the table of machines

    [SnapshotRestore] ([SnapshotAPI]) on one database ([AppDb]) and among any host:
    every machine it answers with has its row, made from the snapshot, and the
    rows of all other machines stay.  A program is followed by [steady]: it leaves
    the rows of other machines alone, and the row of its machine, once there,
    keeps what was asked for ([portrait]), whatever its status, process and times. *)

From stdpp Require Import gmap strings list.
From S2P Require Import Prelude Triple GoStrings Errs Model Inputs Infra Sql System Disk Config Files Resolving Volumes NetOps Networks FwRepo FwTracker VMRepo VMResolver FcConfig Spawn VMControl IPNet Lease Names NetService NetAPI Assets Enrich CloudInit VMCreateInput VMAPI VolumeAPI VMCreate SnapshotAPI AppDb AppFrames Attach Removal Creation.
#[local] Open Scope string_scope.

(** ** Machines up to their status, process and times *)

Record machine := machine_ {
  mc_ID : string; mc_Name : string; mc_IPv4 : string; mc_MAC : string; mc_NetworkID : string; mc_TapDevice : string;
  mc_ImageID : string; mc_KernelID : string; mc_BinaryID : string; mc_VCPUCount : Z; mc_MemSizeMiB : Z; mc_DiskSizeMiB : Z;
  mc_RootfsPath : string;
}.
Definition portrait (v : VMItem) : machine :=
  machine_ (vm_ID v) (vm_Name v) (vm_IPv4 v) (vm_MAC v) (vm_NetworkID v) (vm_TapDevice v) (vm_ImageID v) (vm_KernelID v)
    (vm_BinaryID v) (vm_VCPUCount v) (vm_MemSizeMiB v) (vm_DiskSizeMiB v) (vm_RootfsPath v).

(** The machine a restoration makes, with the address and the MAC it was given. *)
Definition restoredAs (sha256Hex : string → string) (VmsDir : string) (p : plan) (name time ip mac : string) : machine :=
  let snap := (pl_snap p).1 in
  let vmID := VMID sha256Hex name time in
  machine_ vmID name ip mac (nw_ID (pl_net p)) (tapOf sha256Hex p name) (snap_ImageID snap) (snap_KernelID snap) (snap_BinaryID snap)
    (snap_VCPUCount snap) (snap_MemSizeMiB snap) (snap_DiskSizeMiB snap) (rootfsOf (GetVMDirByID VmsDir vmID)).

Lemma portrait_ID v v' : portrait v = portrait v' → vm_ID v = vm_ID v'.
Proof. by intros [= ->]. Qed.

(** ** Answers that do not depend on the world *)
Definition answers {W A} (P : A → Prop) (m : ST W A) : Prop := ∀ w, P (m w).1.
Lemma answers_bind {W A B} (P : B → Prop) (m : ST W A) (k : A → ST W B) : (∀ a, answers P (k a)) → answers P (x ← m; k x).
Proof. intros Hk w. rewrite ST_bind_unfold. apply Hk. Qed.
Lemma answers_ret {W A} (P : A → Prop) (a : A) : P a → answers P (mret (M := ST W) a).
Proof. by intros HP w. Qed.
Ltac answers :=
  repeat lazymatch goal with
  | |- answers _ (mbind _ _) => apply answers_bind; intros
  | |- answers _ (mret _) => apply answers_ret
  | |- answers _ (let _ := _ in _) => cbv zeta
  | |- answers _ (match _ with _ => _ end) => case_match
  end.

Section Restoration.
Context {H : Type} `{SettingsRepository H} `{ImageRepository H} `{KernelRepository H} `{BinaryRepository H} `{VsockRepository H}
  `{SnapshotRepository H}.
Context `{NetOps H} `{Tracker H} `{firewallRuleRepo H} `{Runner H} `{Host H} `{Firecracker H} `{ConfigManager H} `{Files H}
  `{Processes H} `{Console H} `{ProcessTable H} `{OpEnv H} `{Provisioning H} `{CreationEnv H} `{SnapshotFiles H}.
Context (like : string → string → bool) (marshalList : list string → string) (rowOK : VMItem → bool) (constraintError : error)
  (rfc3339 : string → string) (inUse : string → bool).
Context (outOfRange : Z) (ParseFloat64 : string → result error float64) (parseMap : string → result error (list (string * value))).
Context (tracked : bool) (rangeIDs : gset string → list string).
Context (parseIPv6 : string → option IP) (formatIPv6 : list Z → string) (cidrError : string → error).
Context (Abs : string → option string) (marshal : FirecrackerVMConfig → result error string).
Context (sha256Hex : string → string) (VmsDir agentVersion : string).

#[local] Notation W := (Db AppTables * H)%type.
#[local] Notation S := (FirewallTracker * W)%type.
#[local] Notation Item := (VMItem * VMRefs)%type.
#[local] Instance rs_vms : Repository W := creation_vms like marshalList rowOK constraintError.
#[local] Instance rs_volumes : VolumeRepository W := creation_volumes like constraintError.
#[local] Instance rs_leases : LeaseRepository W := creation_leases constraintError parseIPv6 cidrError.
#[local] Instance rs_networks : NetworkRepository W := creation_networks like constraintError rfc3339 inUse.
#[export] Instance rs_files : SnapshotFiles W := {|
  copyViaSendfile := λ a b, onHost (copyViaSendfile a b); copyViaIO := λ a b, onHost (copyViaIO a b); OpenFile := λ p, onHost (OpenFile p);
  Fdatasync := λ f, onHost (Fdatasync f); CloseFile := λ f, onHost (CloseFile f); Symlink := λ a b, onHost (Symlink a b);
  LockFile := λ p, onHost (LockFile p); UnlockFile := λ f, onHost (UnlockFile f);
|}.
#[local] Notation quiet m := (upholds (beside keepsVMs) m).
#[local] Notation looks m := (upholds (A := result error _) keepsVMs m).

(** ** The frame *)

(** The rows of all machines but [k]. *)
Definition others (k : string) (s s' : S) : Prop := ∀ id, id ≠ k → vmRow s' id = vmRow s id.

Record steady (k : string) (c : machine) (s s' : S) : Prop := {
  st_others : others k s s';
  st_row : portrait <$> vmRow s k = Some c → portrait <$> vmRow s' k = Some c;
}.
#[export] Instance steady_preorder k c : PreOrder (steady k c).
Proof.
  split; [by intros s; split|]. intros s1 s2 s3 [Ho1 Hr1] [Ho2 Hr2]. split; [|auto].
  intros id Hid. by rewrite Ho2, Ho1.
Qed.

Lemma keeps_steady {A} k c (m : ST S A) : quiet m → upholds (steady k c) m.
Proof.
  intros Hm s. specialize (Hm s). unfold beside, keepsVMs in Hm. split; [intros id _|]; unfold vmRow; by rewrite Hm.
Qed.

(** A statement on the row of the machine. *)
Lemma updated_rows id f now t :
  (∀ v, portrait (f v) = portrait v) →
  let t' := (λ vm, if decide (vm_ID vm = id) then vmSetTimes (vm_CreatedAt vm) now (f vm) else vm) <$> t in
  (∀ i, i ≠ id → findRow t' i = findRow t i) ∧ portrait <$> findRow t' id = portrait <$> findRow t id.
Proof.
  intros Hf t'. subst t'.
  assert (∀ v, vm_ID (if decide (vm_ID v = id) then vmSetTimes (vm_CreatedAt v) now (f v) else v) = vm_ID v) as Hid.
  { intros v. case_decide; [|done]. exact (portrait_ID _ _ (Hf v)). }
  split; [intros i Hi|]; rewrite (findRow_fmap _ _ _ Hid).
  - destruct (findRow t i) as [v|] eqn:E; [|done]. apply findRow_Some in E as [_ E]. cbn. by rewrite decide_False by congruence.
  - destruct (findRow t id) as [v|] eqn:E; [|done]. apply findRow_Some in E as [_ E]. cbn. rewrite decide_True by done.
    f_equal. exact (Hf v).
Qed.

Lemma updateWhere_steady id f c (s : S) :
  (∀ v, portrait (f v) = portrait v) → steady id c s (onRepo (inVMs (updateWhere id f)) s).2.
Proof.
  intros Hf. destruct s as [t [[tb fs cl] h]]. pose proof (updated_rows id f cl (at_vms tb) Hf) as [Ho Hr].
  destruct fs as [|[e|] fs]; [|by split|]; (split; [exact Ho|]; intros Hv; etrans; [exact Hr|exact Hv]).
Qed.

Lemma UpdateStatus_steady id st c : upholds (A := result error unit) (steady id c) (onRepo (UpdateStatus (W := W) id st)).
Proof. intros s. by apply (updateWhere_steady id (vmSetStatus st)). Qed.

Lemma UpdateProcessInfo_steady id pid st c :
  upholds (A := result error unit) (steady id c) (onRepo (UpdateProcessInfo (W := W) id pid st)).
Proof.
  intros s. cbn. unfold sqlite_UpdateProcessInfo. destruct pid as [p|].
  - by apply (updateWhere_steady id (λ vm, vmSetStartTime st (vmSetPID p vm))).
  - apply keeps_steady. intros [t [[tb fs cl] h]]. unfold beside, onRepo, onWorld, inVMs, inDb, onPart, statement, keepsVMs. cbn.
    destruct fs as [|[e|] fs]; cbn; [case_decide; done|done|case_decide; done].
Qed.

Lemma stored_portrait vm x : stored vm x → portrait <$> x = Some (portrait vm).
Proof. by intros (c & u & ->). Qed.

Lemma Upsert_portrait vm k (s : S) :
  vm_ID vm = k →
  others k s (onRepo (Upsert (W := W) vm) s).2 ∧
  match (onRepo (Upsert (W := W) vm) s).1 with
  | Ok _ => portrait <$> vmRow (onRepo (Upsert (W := W) vm) s).2 k = Some (portrait vm)
  | Err _ => vmRow (onRepo (Upsert (W := W) vm) s).2 k = vmRow s k
  end.
Proof.
  intros <-. pose proof (Upsert_rows (H := H) like marshalList rowOK constraintError vm s) as Hu.
  destruct (onRepo _ s) as [[u|e] s']; cbn [fst snd]; destruct Hu as [Ho Hr]; (split; [exact Ho|]); [by apply stored_portrait|exact Hr].
Qed.

Lemma Upsert_steady vm : upholds (A := result error unit) (steady (vm_ID vm) (portrait vm)) (onRepo (Upsert (W := W) vm)).
Proof.
  intros s. destruct (Upsert_portrait vm _ s eq_refl) as [Ho Hr]. split; [exact Ho|]. intros Hs.
  destruct (onRepo _ s) as [[u|e] s']; cbn [fst snd] in *; [done|]. by rewrite Hr.
Qed.

(** The row, read. *)
Lemma Get_row id (s : S) :
  vmRow (onRepo (Get (W := W) id) s).2 = vmRow s ∧
  match (onRepo (Get (W := W) id) s).1 with Ok (Some v) => vmRow s id = Some v | _ => True end.
Proof.
  destruct s as [t [[tb fs cl] h]]. destruct fs as [|[e|] fs]; cbn; (split; [reflexivity|]); try exact I;
    (destruct (head (filter (λ v, bool_decide (vm_ID v = id)) (at_vms tb))) as [v|] eqn:E; [|done]);
    unfold vmRow, findRow; cbn; rewrite <- E; f_equal; apply list_filter_iff; intros v'; by rewrite bool_decide_spec.
Qed.

(** ** Triples *)

Definition made (k : string) (c : machine) (s0 s : S) : Prop := others k s0 s ∧ portrait <$> vmRow s k = Some c.

Lemma triple_steady {E A} k c s0 (m : GoM S E A) :
  upholds (A := result E A) (steady k c) m → triple (made k c s0) m (λ _, made k c s0) (λ _, others k s0).
Proof.
  intros Hm s [Ho Hr]. destruct (Hm s) as [Ho' Hr']. destruct (m s) as [[a|e] s']; cbn [snd] in *.
  - split; [|auto]. intros id Hid. by rewrite Ho', Ho.
  - intros id Hid. by rewrite Ho', Ho.
Qed.

Lemma triple_aside {E A} k s0 (m : GoM S E A) :
  upholds (A := result E A) (beside keepsVMs) m → triple (others k s0) m (λ _, others k s0) (λ _, others k s0).
Proof.
  intros Hm s Ho. specialize (Hm s). unfold beside, keepsVMs in Hm.
  destruct (m s) as [[a|e] s']; cbn [snd] in *; intros id Hid; unfold vmRow; rewrite Hm; by apply Ho.
Qed.

Lemma stopping_upholds {A} R undo msg (m : GoM S error A) :
  upholds (A := result error A) R m → upholds (A := result stop A) R (stopping (W := W) undo msg m).
Proof. intros Hm s. unfold stopping. specialize (Hm s). by destruct (m s). Qed.

Lemma enriched_one include v :
  leads (λ s : S, True) (enriched rangeIDs include [(v, noRefs)]) (λ items _, (default (v, noRefs) (head items)).1 = v) ∧
  quiet (enriched (W := W) rangeIDs include [(v, noRefs)]).
Proof.
  assert (upholds (A := result error unit) (rowsOnly keepsVMs) (EnrichVM (W := W) rangeIDs include)) as Hk.
  { apply EnrichVM_kept; [apply _|..]; intros; keeps. }
  split; [intros s _|intros s]; specialize (Hk ([(v, noRefs)], s.2)); unfold enriched, beside;
    destruct (EnrichVM (W := W) rangeIDs include _) as [r [items w]]; destruct Hk as [Hw Hi]; cbn in *; [|exact Hw].
  destruct items as [|[v' refs] items]; [done|]. by injection Hi as ->.
Qed.

(** ** The pieces *)

Lemma CopyFile_keeps src dst : looks (CopyFile (W := W) src dst).
Proof. unfold CopyFile. keeps. Qed.

Lemma setting_quiet {E} category key : upholds (A := result E string) (beside keepsVMs) (setting (W := W) outOfRange ParseFloat64 parseMap category key).
Proof.
  unfold setting.
  keeps_by ltac:(unfold cfgString). apply setting_keeps, casting_keeps.
Qed.

Lemma quietly_keeps {A} (m : GoM S error A) : upholds (A := result error A) (beside keepsVMs) m → quiet (quietly m).
Proof. intros Hm. unfold quietly. keeps. Qed.

Lemma quietly_steady {A} k c (m : GoM S error A) : upholds (A := result error A) (steady k c) m → upholds (steady k c) (quietly m).
Proof. intros Hm. unfold quietly. apply upholds_bind; [apply _|exact Hm|]. intros. apply upholds_ret. apply _. Qed.

Lemma spawning_keeps (m : GoM (Spawner * W) error unit) sp :
  upholds (A := result error unit) (beside keepsVMs) m → quiet (spawning m sp).
Proof.
  intros Hm [t w]. specialize (Hm (sp, w)). unfold spawning, beside in *. cbn [fst snd] in *. by destruct (m (sp, w)) as [r [sp' w']].
Qed.

Lemma respawnNetwork_keeps v net : quiet (respawnNetwork (W := W) tracked parseIPv6 cidrError v net).
Proof.
  unfold respawnNetwork, FlushARP.
  keeps_by ltac:(first [apply quietly_keeps|apply quiet_keeps, EnsureTapDevice_quiet|apply quiet_keeps, WithBatch_quiet, vmNetworkBody_quiet]).
Qed.

Ltac steady_step tac :=
  lazymatch goal with
  | |- upholds _ (mbind _ _) => first [apply upholds_okbind; [apply steady_preorder| |intros]|apply upholds_bind; [apply steady_preorder| |intros]]
  | |- upholds _ (mret _) => first [apply upholds_okret; apply steady_preorder|apply upholds_ret; apply steady_preorder]
  | |- upholds _ (throw _) => apply upholds_throw; apply steady_preorder
  | |- upholds _ (try _) => apply upholds_try
  | |- upholds _ (calls _) => apply upholds_calls
  | |- upholds _ (attempt _) => unfold attempt
  | |- upholds _ (match _ with _ => _ end) => case_match
  | |- upholds _ (let _ := _ in _) => cbv zeta
  | |- _ => first [tac|solve [apply keeps_steady; keeps_by tac]|apply quietly_steady]
  end.
Ltac steady_by tac := repeat steady_step tac.

Lemma respawn_steady x flag c :
  upholds (steady (vm_ID x.1) c) (vmRespawnFirecracker (W := W) tracked parseIPv6 cidrError Abs marshal VmsDir x flag).
Proof.
  destruct x as [v r]. unfold vmRespawnFirecracker. cbn [fst].
  steady_by ltac:(first [apply UpdateStatus_steady|apply UpdateProcessInfo_steady|apply respawnNetwork_keeps
    |apply spawning_keeps|apply WriteToFile_keeps|apply Spawn_keeps]).
  intros s. destruct (_ && _); [|reflexivity]. generalize s. apply keeps_steady. keeps.
Qed.

Lemma respawn_portrait x flag :
  answers (λ r : option error * Item, portrait r.2.1 = portrait x.1)
    (vmRespawnFirecracker (W := W) tracked parseIPv6 cidrError Abs marshal VmsDir x flag).
Proof. destruct x as [v r]. unfold vmRespawnFirecracker. answers; done. Qed.

(** The controller of the machine, loading a snapshot. *)
Lemma load_run cfg v w c :
  let '(_, (v', w')) := VMControl.SnapshotRestore (W := W) cfg (v, w) in
  portrait v' = portrait v ∧ ∀ t, steady (vm_ID v) c (t, w) (t, w').
Proof.
  unfold VMControl.SnapshotRestore. rewrite bind_getVM. case_bool_decide; [by split|].
  assert (∀ (m : GoM W error unit) w' t, looks m → steady (vm_ID v) c (t, w') (t, (m w').2)) as Hquiet.
  { intros m w' t Hm. pose proof (keeps_steady (vm_ID v) c (onRepo m) (onRepo_keeps m Hm) (t, w')) as Hs.
    unfold onRepo, onWorld in Hs. cbn [fst snd] in Hs. by destruct (m w'). }
  rewrite bind_lift. match goal with |- context [LoadSnapshot ?a ?b ?d ?e ?f ?g w] => pose proof (λ t, Hquiet (LoadSnapshot (W := W) a b d e f g) w t) as Hload end.
  destruct (LoadSnapshot _ _ _ _ _ _ w) as [[u|e] w1]; cbn [snd] in *; [|split; [done|]; intros t; apply Hload; keeps].
  unfold updateStatus. rewrite bind_lift.
  pose proof (λ t, UpdateStatus_steady (vm_ID v) (if sr_Resume cfg then VMStatusRunning else VMStatusPaused) c (t, w1)) as Hup.
  unfold onRepo, onWorld in Hup. cbn [fst snd] in Hup.
  destruct (UpdateStatus _ _ w1) as [[u'|e] w2]; cbn [snd] in *; (split; [done|]); intros t; (etrans; [apply Hload; keeps|apply Hup]).
Qed.

Lemma load_steady cfg x c : upholds (steady (vm_ID x.1) c) (controlled (W := W) (VMControl.SnapshotRestore cfg) x).
Proof.
  destruct x as [v refs]. intros [t w]. unfold controlled. cbn [fst snd]. pose proof (load_run cfg v w c) as Hl.
  destruct (VMControl.SnapshotRestore cfg (v, w)) as [r [v' w']]. apply Hl.
Qed.

Lemma load_portrait cfg x :
  answers (λ r : option error * Item, portrait r.2.1 = portrait x.1) (controlled (W := W) (VMControl.SnapshotRestore cfg) x).
Proof.
  destruct x as [v refs]. intros [t w]. unfold controlled. cbn [fst snd]. pose proof (load_run cfg v w (portrait v)) as Hl.
  destruct (VMControl.SnapshotRestore cfg (v, w)) as [r [v' w']]. apply Hl.
Qed.

(** ** One machine *)

#[local] Notation answer k c s0 := (λ (r : Item * option string) s, made k c s0 s ∧ portrait r.1.1 = c).
#[local] Notation ended k s0 := (λ (_ : stop), others k s0).

Lemma linkPhantom_keeps path rootfs : upholds (A := result stop unit) (beside keepsVMs) (linkPhantom (W := W) path rootfs).
Proof. unfold linkPhantom. keeps_by ltac:(apply stopping_upholds). Qed.

Lemma triple_answered {A} (P : A → Prop) (R : S → Prop) (m : ST S A) (X : stop → S → Prop) :
  leads R m (λ _, R) → answers P m → triple R (calls m) (λ a s, R s ∧ P a) X.
Proof. intros Hm Ha. apply triple_calls. intros s Hs. split; [by apply Hm|apply Ha]. Qed.

Lemma steady_leads {A} k c s0 (m : ST S A) : upholds (steady k c) m → leads (made k c s0) m (λ _, made k c s0).
Proof. intros Hm s [Ho Hr]. destruct (Hm s) as [Ho' Hr']. split; [|auto]. intros id Hid. by rewrite Ho', Ho. Qed.

Lemma loadState_spec i p name x c s0 : portrait x.1 = c →
  triple (made (mc_ID c) c s0) (loadState (W := W) i p name x) (answer (mc_ID c) c s0) (ended (mc_ID c) s0).
Proof.
  intros Hx. unfold loadState.
  eapply triple_bind; [apply triple_steady, keeps_steady; unfold snapHasState; keeps|]. intros hasState. cbv beta.
  destruct (negb _ && hasState); [|by apply triple_ret].
  eapply triple_bind; [apply triple_steady, keeps_steady; keeps|]. intros lock. cbv beta.
  eapply triple_bind; [apply triple_steady, upholds_try, keeps_steady, linkPhantom_keeps|]. intros [u|e]; cbv beta.
  2: { eapply triple_bind; [apply triple_steady, keeps_steady; unfold unlock; keeps|]. intros. by apply triple_throw; intros s []. }
  eapply triple_bind; [apply (triple_answered (λ r, portrait r.2.1 = c))|].
  { apply steady_leads. rewrite <- Hx. apply load_steady. }
  { rewrite <- Hx. apply load_portrait. }
  intros [r x']. apply triple_pre with (P' := λ s, portrait x'.1 = c ∧ made (mc_ID c) c s0 s); [by intros s []|].
  apply triple_pure. cbn [fst snd]. intros Hx'.
  eapply triple_bind; [apply triple_steady, keeps_steady; unfold unlock; keeps|]. intros. cbv beta.
  destruct r as [err|]; [|by apply triple_ret].
  eapply triple_bind; [apply triple_steady, upholds_calls|intros; by apply triple_ret].
  apply quietly_steady. rewrite <- Hx'. apply UpdateStatus_steady.
Qed.

Lemma revive_spec i p name x c s0 : portrait x.1 = c →
  triple (made (mc_ID c) c s0) (revive (W := W) tracked parseIPv6 cidrError Abs marshal VmsDir i p name x)
    (answer (mc_ID c) c s0) (ended (mc_ID c) s0).
Proof.
  intros Hx. unfold revive. eapply triple_bind; [apply (triple_answered (λ r, portrait r.2.1 = c))|].
  { apply steady_leads. rewrite <- Hx. apply respawn_steady. }
  { rewrite <- Hx. apply respawn_portrait. }
  intros [r x']. apply triple_pre with (P' := λ s, portrait x'.1 = c ∧ made (mc_ID c) c s0 s); [by intros s []|].
  apply triple_pure. cbn [fst snd]. intros Hx'. destruct r as [err|].
  - eapply triple_bind; [apply triple_steady, upholds_calls|intros; by apply triple_ret].
    apply quietly_steady. rewrite <- Hx'. apply UpdateStatus_steady.
  - eapply triple_bind with (R := λ r s, match r with Ok (Some v) => portrait v = c | _ => True end ∧ made (mc_ID c) c s0 s).
    + apply triple_calls. intros s [Ho Hr]. destruct (Get_row (vm_ID x'.1) s) as [Hsame Hv].
      change (attempt ?m s) with (m s). destruct (onRepo _ s) as [g s']. cbn [fst snd] in *. split.
      * destruct g as [[v|]|]; [|done..]. rewrite <- Hx' in Hr. change (mc_ID (portrait x'.1)) with (vm_ID x'.1) in Hr.
        rewrite Hv in Hr. cbn in Hr. apply (inj Some) in Hr. by rewrite Hr.
      * split; [intros id Hid|]; rewrite Hsame; [by apply Ho|done].
    + intros r. apply triple_pure. intros Hr. apply loadState_spec. by destruct r as [[v|]|].
Qed.

#[local] Notation restoredAs := (restoredAs sha256Hex VmsDir).

Lemma makeMachine_spec p name time s0 :
  let k := VMID sha256Hex name time in
  triple (others k s0)
    (makeMachine (W := W) rangeIDs parseIPv6 formatIPv6 cidrError sha256Hex VmsDir p name k time)
    (λ x s, made k (portrait x.1) s0 s ∧ ∃ ip mac, portrait x.1 = restoredAs p name time ip mac) (ended k s0).
Proof.
  intros k. unfold makeMachine.
  eapply triple_bind; [apply triple_aside, stopping_upholds; keeps|]. intros []. cbv beta.
  eapply triple_bind; [apply triple_aside, stopping_upholds, onRepo_keeps, CopyFile_keeps|]. intros []. cbv beta.
  eapply triple_bind; [apply triple_aside, stopping_upholds, onRepo_keeps, Lease_keeps|]. intros ip. cbv beta.
  eapply triple_bind; [apply triple_aside; keeps|]. intros bytes. cbv beta.
  eapply triple_bind; [apply triple_aside, stopping_upholds, quiet_keeps, EnsureTapDevice_quiet|]. intros []. cbv beta.
  destruct (sf_Image _) as [image|]; [|by apply triple_throw].
  set (v := restoredVM _ _ _ _ _ _ _ _ _ _).
  assert (portrait v = restoredAs p name time ip (VMGenerateMAC (pl_macPrefix p) bytes)) as Hv.
  { subst v. unfold restoredVM. by destruct (snap_ExtraConfig _). }
  assert (vm_ID v = k) as Hk by by apply (f_equal mc_ID) in Hv.
  eapply triple_bind with (R := λ _, made k (portrait v) s0).
  - intros s Ho. destruct (Upsert_portrait v k s Hk) as [Ho' Hr]. unfold stopping.
    destruct (onRepo _ s) as [[u|e] s']; cbn [fst snd] in *; [split; [|done]|]; intros id Hid; by rewrite Ho', Ho.
  - intros []. eapply triple_bind with (R := λ items s, (default (v, noRefs) (head items)).1 = v ∧ made k (portrait v) s0 s).
    + apply triple_calls. intros s Hs. split; [by apply (proj1 (enriched_one _ v))|].
      exact (steady_leads _ _ _ _ (keeps_steady _ _ _ (proj2 (enriched_one _ v))) s Hs).
    + intros items. apply triple_pure. intros Hi. apply triple_ret. intros s Hs. rewrite Hi. split; [done|]. by do 2 eexists.
Qed.

Lemma restoreVsock_spec p name x k c s0 :
  triple (made k c s0)
    (restoreVsock (W := W) outOfRange ParseFloat64 parseMap sha256Hex VmsDir agentVersion p name x)
    (λ x' s, made k c s0 s ∧ x'.1 = x.1) (ended k s0).
Proof.
  unfold restoreVsock. destruct (snap_ExtraConfig _) as [cfg|]; [|by apply triple_ret].
  destruct (_ && _); [|by apply triple_ret].
  eapply triple_bind; [apply triple_steady, keeps_steady, setting_quiet|]. intros filename. cbv beta zeta.
  eapply triple_bind; [apply triple_steady, stopping_upholds, keeps_steady, onRepo_keeps, PersistConfig_keeps|].
  intros []. by apply triple_ret.
Qed.

Lemma placeFiles_spec x c s0 : portrait x.1 = c →
  triple (made (mc_ID c) c s0) (placeFiles (W := W) outOfRange ParseFloat64 parseMap VmsDir x)
    (λ x' s, made (mc_ID c) c s0 s ∧ portrait x'.1 = c) (ended (mc_ID c) s0).
Proof.
  intros Hx. unfold placeFiles. do 4 (eapply triple_bind; [apply triple_steady, keeps_steady, setting_quiet|]; intros ?; cbv beta zeta).
  eapply triple_bind; [apply triple_steady, upholds_calls, quietly_steady|intros []; by apply triple_ret].
  rewrite <- Hx. apply (Upsert_steady (withPaths _ _ _ _ x.1)).
Qed.

(** One turn of the loop: it ends with the machine and its row, or it ends the
    operation; the other rows stay. *)
Lemma restoreMachine_spec i p name s0 :
  let '(r, s) := restoreMachine (W := W) outOfRange ParseFloat64 parseMap tracked rangeIDs parseIPv6 formatIPv6 cidrError Abs marshal sha256Hex
                   VmsDir agentVersion i p name s0 in
  ∃ time, others (VMID sha256Hex name time) s0 s ∧
  match r with
  | Ok (x, _) => ∃ ip mac, portrait x.1 = restoredAs p name time ip mac ∧
      portrait <$> vmRow s (VMID sha256Hex name time) = Some (restoredAs p name time ip mac)
  | Err _ => True
  end.
Proof.
  unfold restoreMachine. rewrite bind_calls. destruct (onWorld NowRFC3339 s0) as [time s1] eqn:Ew. cbn [fst snd].
  assert (∀ id, vmRow s1 id = vmRow s0 id) as Hs1.
  { intros id. assert (quiet (onWorld (NowRFC3339 (W := W)))) as Hq by keeps. specialize (Hq s0). rewrite Ew in Hq.
    unfold beside, keepsVMs in Hq. cbn in Hq. unfold vmRow. by rewrite Hq. }
  set (k := VMID sha256Hex name time).
  enough (triple (others k s1)
    (x ← makeMachine (W := W) rangeIDs parseIPv6 formatIPv6 cidrError sha256Hex VmsDir p name k time;
     x ← restoreVsock outOfRange ParseFloat64 parseMap sha256Hex VmsDir agentVersion p name x;
     x ← placeFiles outOfRange ParseFloat64 parseMap VmsDir x;
     r ← revive tracked parseIPv6 cidrError Abs marshal VmsDir i p name x;
     _ ← (match r.2 with
          | Some _ => mret ()
          | None => calls (onWorld (LogOperation "snapshot.restore" [("snapshot_id", snap_ID (pl_snap p).1); ("vm", name)]))
          end);
     mret r)
    (λ r s, ∃ ip mac, made k (restoredAs p name time ip mac) s1 s ∧ portrait r.1.1 = restoredAs p name time ip mac) (ended k s1)) as Ht.
  { assert (others k s1 s1) as H0' by (by intros id _). specialize (Ht s1 H0').
    destruct ((_ ← makeMachine _ _ _ _ _ _ _ _ _ _; _) s1) as [[[x f]|e] s]; exists time.
    - destruct Ht as (ip & mac & [Ho Hr] & Hx). split; [intros id Hid; by rewrite Ho, Hs1|]. by exists ip, mac.
    - split; [intros id Hid; by rewrite Ht, Hs1|done]. }
  eapply triple_bind; [apply makeMachine_spec|]. intros x. cbv beta.
  apply triple_pre with (P' := λ s, (∃ ip mac, portrait x.1 = restoredAs p name time ip mac) ∧ made k (portrait x.1) s1 s); [by intros s []|].
  apply triple_pure. intros (ip & mac & Hx). rewrite Hx.
  eapply triple_post with (Q' := λ r s, made k (restoredAs p name time ip mac) s1 s ∧ portrait r.1.1 = restoredAs p name time ip mac).
  { intros r s Hr. by exists ip, mac. }
  eapply triple_bind; [apply restoreVsock_spec|]. intros x1. cbv beta.
  apply triple_pre with (P' := λ s, x1.1 = x.1 ∧ made k (restoredAs p name time ip mac) s1 s); [by intros s []|]. apply triple_pure. intros Hx1.
  eapply triple_bind; [apply (placeFiles_spec x1 (restoredAs p name time ip mac)); by rewrite Hx1|]. intros x2. cbv beta.
  apply triple_pre with (P' := λ s, portrait x2.1 = restoredAs p name time ip mac ∧ made k (restoredAs p name time ip mac) s1 s); [by intros s []|].
  apply triple_pure. intros Hx2.
  eapply triple_bind; [by apply (revive_spec i p name x2 (restoredAs p name time ip mac))|]. intros r. cbv beta.
  apply triple_pre with (P' := λ s, portrait r.1.1 = restoredAs p name time ip mac ∧ made k (restoredAs p name time ip mac) s1 s); [by intros s []|].
  apply triple_pure. intros Hr.
  eapply triple_bind; [apply triple_steady, keeps_steady; destruct r.2; keeps|]. intros []. by apply triple_ret.
Qed.

(** ** All machines *)

#[export] Instance others_preorder k : PreOrder (others k).
Proof. split; [by intros s id|]. intros s1 s2 s3 Ha Hb id Hid. by rewrite Hb, Ha. Qed.

Lemma keeps_others {A} k (m : ST S A) : quiet m → upholds (others k) m.
Proof. intros Hm s id _. specialize (Hm s). unfold beside, keepsVMs in Hm. unfold vmRow. by rewrite Hm. Qed.

Lemma Delete_others id : upholds (A := result error unit) (others id) (onRepo (Delete (W := W) id)).
Proof.
  intros [t [[tb fs cl] h]] i Hi.
  assert (findRow (filter (λ vm, vm_ID vm ≠ id) (at_vms tb)) i = findRow (at_vms tb) i) as Hr.
  { unfold findRow. rewrite list_filter_filter. f_equal. apply list_filter_iff. intros v. split; [by intros []|]. intros <-. by split. }
  destruct fs as [|[e|] fs]; [exact Hr|done|exact Hr].
Qed.

Lemma cleanup_others x : upholds (others (vm_ID x.1)) (cleanupRestoredVM (W := W) tracked VmsDir x).
Proof.
  unfold cleanupRestoredVM. apply upholds_bind; [apply _| |intros []].
  { apply keeps_others. case_match; [apply quietly_keeps, quiet_keeps, RemoveTap_quiet|keeps]. }
  apply upholds_bind; [apply _| |intros []].
  - case_match; [apply keeps_others; keeps|]. apply upholds_bind; [apply _| |intros []].
    + apply keeps_others, quietly_keeps. keeps.
    + unfold quietly, attempt. apply upholds_bind; [apply _|apply Delete_others|]. intros. apply upholds_ret. apply _.
  - apply keeps_others. cbv zeta. case_match; [keeps|apply quietly_keeps; keeps].
Qed.

(** A machine of the answer and its row. *)
Definition restored (p : plan) (s : S) (name : string) (x : Item) : Prop :=
  ∃ time ip mac, portrait x.1 = restoredAs p name time ip mac ∧
    portrait <$> vmRow s (VMID sha256Hex name time) = Some (restoredAs p name time ip mac).

(** The ids of machines with other names are distinct. *)
Definition distinctIDs (names : list string) : Prop :=
  ∀ n n' t t', n ∈ names → n' ∈ names → VMID sha256Hex n t = VMID sha256Hex n' t' → n = n'.

Lemma cleanups_others p s0 names made s :
  Forall2 (restored p s0) names made →
  ∀ id, (∀ n t, n ∈ names → id ≠ VMID sha256Hex n t) → vmRow (forEach made (cleanupRestoredVM (W := W) tracked VmsDir) s).2 id = vmRow s id.
Proof.
  intros Hm id. revert s. induction Hm as [|name x names made (time & ip & mac & Hx & _) Hm IH]; intros s Hid; cbn [forEach]; [done|].
  rewrite ST_bind_unfold, IH by (intros n t Hn; apply Hid; by right). apply cleanup_others.
  apply (f_equal mc_ID) in Hx. cbn in Hx. rewrite Hx. apply Hid. by left.
Qed.

Lemma restoreMachines_spec i p rest : ∀ pre made failures s,
  Forall2 (restored p s) pre made → NoDup (pre ++ rest) → distinctIDs (pre ++ rest) →
  let '(r, s') := restoreMachines (W := W) outOfRange ParseFloat64 parseMap tracked rangeIDs parseIPv6 formatIPv6 cidrError Abs marshal sha256Hex
                    VmsDir agentVersion i p rest made failures s in
  (∀ id, (∀ n t, n ∈ (pre ++ rest)%list → id ≠ VMID sha256Hex n t) → vmRow s' id = vmRow s id) ∧
  match r with
  | Returned vms err => (vms = [] ∧ is_Some err) ∨ Forall2 (restored p s') (pre ++ rest) vms
  | Panicked => True
  end.
Proof.
  induction rest as [|name rest IH]; intros pre made failures s Hmade Hnd Hids; cbn [restoreMachines].
  { rewrite app_nil_r. split; [done|]. by right. }
  rewrite ST_bind_unfold. pose proof (restoreMachine_spec i p name s) as Hone.
  destruct (restoreMachine _ _ _ _ _ _ _ _ _ _ _ _ _ i p name s) as [r s1]. cbn [fst snd]. destruct Hone as (time & Ho & Hr).
  assert (∀ id, (∀ n t, n ∈ (pre ++ name :: rest)%list → id ≠ VMID sha256Hex n t) → vmRow s1 id = vmRow s id) as Hs1.
  { intros id Hid. apply Ho, Hid. apply elem_of_app. right. by left. }
  destruct r as [[x failure]|[undo err|]]; [| |by split].
  - destruct Hr as (ip & mac & Hx & Hrow). specialize (IH (pre ++ [name]) (made ++ [x]) (failures ++ option_list failure) s1)%list.
    rewrite <- app_assoc in IH. cbn [app] in IH.
    assert (Forall2 (restored p s1) (pre ++ [name]) (made ++ [x])) as Hmade1.
    { apply Forall2_app; [|apply Forall2_cons; split; [by exists time, ip, mac|constructor]].
      assert (name ∉ pre) as Hnew by (apply NoDup_app in Hnd as (_ & Hd & _); intros Hp; apply (Hd name Hp); by left).
      eapply Forall2_weaken; [exact Hmade|]. intros n y Hn (t & ip' & mac' & Hy & Hyrow). exists t, ip', mac'. split; [done|].
      rewrite Ho; [done|]. intros Heq. apply Hids in Heq; [by subst| |]; apply elem_of_app; [by left|right; by left]. }
    specialize (IH Hmade1 Hnd Hids). destruct (restoreMachines _ _ _ _ _ _ _ _ _ _ _ _ _ _ _ _ _ _ s1) as [r' s']. destruct IH as [Ho' Hr'].
    split; [|exact Hr']. intros id Hid. rewrite Ho' by done. by apply Hs1.
  - rewrite ST_bind_unfold. split; [|by left]. cbn [fst snd mret ST_ret]. intros id Hid.
    destruct undo; [|by apply Hs1]. rewrite (cleanups_others p s pre made); [by apply Hs1|done|]. intros n t Hn. apply Hid. apply elem_of_app. by left.
Qed.

(** ** The whole operation *)

Lemma reverse_kept {I B R} collect (ident : I * B → string) (keys : R → list string) set (batch : list string → GoM W error (list R)) :
  (∀ ids, looks (batch ids)) → (∀ l x, (set l x).1 = x.1) →
  upholds (A := result error unit) (rowsOnly keepsVMs) (enrichReverse collect ident keys set batch).
Proof.
  intros Hb Hset. unfold enrichReverse. apply upholds_okbind; [apply _|apply items_kept; apply _|]. intros items.
  case_bool_decide; [upholds|]. apply upholds_okbind; [apply _|apply softly_kept; [apply _|apply Hb]|].
  intros [rows|]; [|upholds]. apply update_kept; [apply _|]. intros x. apply Hset.
Qed.

Lemma machinesOn_keeps ids : looks (GetByNetworkIDs (W := W) ids).
Proof.
  intros [d h]. cbn. unfold sqlite_GetByNetworkIDs. case_decide; [|exact (inVMs_wrap_keeps _ _ (inVMs_query_keeps _) (d, h))].
  unfold keepsVMs, inVMs, inDb, onPart. by destruct d as [[] ? ?].
Qed.

Lemma warmNetwork_keeps net : quiet (warmNetwork (W := W) net).
Proof.
  assert (upholds (A := result error unit) (rowsOnly keepsVMs) (EnrichNetwork (W := W) ["leases"])) as Hk.
  { unfold EnrichNetwork. apply paths_kept; [apply _|]. intros path. unfold enrichNetworkPath.
    repeat case_bool_decide; [| | |upholds]; apply reverse_kept; try done; intros ids; first [apply machinesOn_keeps|keeps]. }
  intros [t w]. unfold warmNetwork, beside. cbn [fst snd]. specialize (Hk ([(net, OwnerRefs_ [] [] [])], w)).
  destruct (EnrichNetwork _ _) as [r [l w']]. apply Hk.
Qed.

Lemma enrichedSnapshots_keeps include items : upholds (A := result error _) (beside keepsVMs) (enrichedSnapshots (W := W) include items).
Proof.
  assert (upholds (A := result error unit) (rowsOnly keepsVMs) (EnrichSnapshot (W := W) include)) as Hk.
  { unfold EnrichSnapshot. apply paths_kept; [apply _|]. intros path. unfold enrichSnapshotPath.
    repeat case_bool_decide; [| | | |upholds]; (apply forward_kept; [apply _| |done]); intros id; keeps. }
  intros [t w]. unfold enrichedSnapshots, beside. cbn [fst snd]. specialize (Hk (items, w)).
  destruct (EnrichSnapshot _ _) as [r [l w']]. apply Hk.
Qed.

Lemma prepareRestore_keeps i :
  upholds (A := result error plan) (beside keepsVMs)
    (prepareRestore (W := W) outOfRange ParseFloat64 parseMap tracked parseIPv6 cidrError sha256Hex i).
Proof.
  unfold prepareRestore, theSnapshot, theNetwork, ResolveSnapshot, ResolveNetwork, snap_Resolve, snap_ByName, snap_ByID, nw_Resolve,
    nw_ByName, nw_ByID, Networks.enrichOne, nw_enrich.
  keeps_by ltac:(first [apply NamesExist_keeps|apply enrichedSnapshots_keeps|apply warmNetwork_keeps|apply setting_quiet|apply orIfMissing_keeps
    |apply quiet_keeps, WithBatch_quiet, vmNetworkBody_quiet]).
  intros w. reflexivity.
Qed.

(** C14. [SnapshotRestore] on one database and among any host: when it answers with
    machines, they are those of the batch, in order, each made from the assets and
    resources of the snapshot and with a network, a TAP device and a root file
    system of its own, and each has a row that says so, even if its process or
    its state could not be brought back.  In every case the rows of machines that
    are not of the batch are as they were.  The ids of machines with different
    names are taken to be distinct. *)
Theorem SnapshotRestore_rows i s r s' :
  SnapshotRestore (W := W) outOfRange ParseFloat64 parseMap tracked rangeIDs parseIPv6 formatIPv6 cidrError Abs marshal sha256Hex VmsDir
    agentVersion i s = (r, s') →
  distinctIDs (restoreNames i) →
  (∀ id, (∀ n t, n ∈ restoreNames i → id ≠ VMID sha256Hex n t) → vmRow s' id = vmRow s id) ∧
  match r with
  | Returned vms err =>
      (vms = [] ∧ is_Some err) ∨
      ∃ p s1, prepareRestore (W := W) outOfRange ParseFloat64 parseMap tracked parseIPv6 cidrError sha256Hex i s = (Ok p, s1) ∧
        Forall2 (restored p s') (restoreNames i) vms
  | Panicked => True
  end.
Proof.
  unfold SnapshotRestore. rewrite ST_bind_unfold. intros Hrun Hids. pose proof (prepareRestore_keeps i s) as Hk. unfold beside, keepsVMs in Hk.
  change (attempt ?m s) with (m s) in Hrun. destruct (prepareRestore _ _ _ _ _ _ _ i s) as [[p|e] s1] eqn:Ep; cbn [fst snd] in *.
  - pose proof (restoreMachines_spec i p (restoreNames i) [] [] [] s1 ltac:(constructor)) as Hall. rewrite Hrun in Hall. cbn [app] in Hall.
    destruct Hall as [Ho Hr]; [apply GenerateBatchNames_NoDup|exact Hids|]. split.
    + intros id Hid. rewrite Ho by done. unfold vmRow. by rewrite Hk.
    + destruct r as [vms err|]; [|done]. destruct Hr as [Hr|Hr]; [by left|right]. by exists p, s1.
  - injection Hrun as <- <-. split; [|by left]. intros id _. unfold vmRow. by rewrite Hk.
Qed.
End Restoration.

(** * An example *)
Module RestorationExamples.
Import RepoExamples AttachExamples EnrichExamples RemovalExamples CreationExamples.

Definition theSnapshotRow : SnapshotItem :=
  SnapshotItem_ "s1" "before" "id1" "old" "/snapshots/s1" "/snapshots/s1/memory" "/snapshots/s1/vmstate" "/snapshots/s1/rootfs.ext4"
    "k1" "n1" "b1" 2 512 1024 "i1" ["laptop"] (Some "root") None "t0" "t0".

#[local] Instance one_snapshot : SnapshotRepository unit := {|
  sr_Get _ := mret (Some theSnapshotRow); sr_GetByName _ := mret (Some theSnapshotRow); sr_FindByPrefix _ := mret []; sr_ListAll := mret [];
  sr_Upsert _ := mret (); sr_Delete _ := mret (); sr_CountByKernelID _ := mret 0%Z; sr_CountByNetworkID _ := mret 0%Z;
  sr_CountByBinaryID _ := mret 0%Z; sr_FindByKernelID _ := mret []; sr_FindByKernelIDs _ := mret []; sr_FindByNetworkID _ := mret [];
  sr_FindByNetworkIDs _ := mret []; sr_FindByBinaryID _ := mret []; sr_FindByBinaryIDs _ := mret [] |}.
(** The database has the binary under its id. *)
#[local] Instance one_binary : BinaryRepository unit := {|
  br_Get _ := mret (Some theBinary); br_FindByPrefix _ _ := mret []; br_ListAll := mret []; br_ListByType _ := mret [];
  br_GetByTypeAndVersion _ _ := mret None; br_Upsert _ := mret (); br_Delete _ := mret (); br_DeleteByType _ := mret ();
  br_DeleteByTypeAndVersion _ _ := mret (); br_SetDefault _ _ := mret (); br_Count := mret 0%Z; br_GetDefault _ := mret (Some theBinary);
  br_SoftDelete _ := mret (); br_UpdateManyIsPresent _ _ := mret () |}.

#[local] Instance quiet_copies : SnapshotFiles unit := {|
  copyViaSendfile _ _ := mret (); copyViaIO _ _ := mret (); OpenFile _ := mret 5%Z; Fdatasync _ := mret (); CloseFile _ := mret ();
  Symlink _ _ := mret (); LockFile _ := mret (Some 6%Z); UnlockFile _ := mret () |}.

#[local] Notation ExW := (Db AppTables * unit)%type.
#[local] Instance res_vms : Repository ExW := rs_vms noLike fixedMarshal allRows violated.
#[local] Instance res_volumes : VolumeRepository ExW := rs_volumes noLike violated.
#[local] Instance res_leases : LeaseRepository ExW := rs_leases violated (λ _, None) (λ s, Errorf s None).
#[local] Instance res_networks : NetworkRepository ExW := rs_networks noLike violated id (λ _, false).

Definition restoreTwo : SnapshotRestoreInput := SnapshotRestoreInput_ "before" "web" 2 None true.
Definition exPlan (s : FirewallTracker * ExW) : result error plan * (FirewallTracker * ExW) :=
  prepareRestore (W := ExW) 0%Z noneOf noneOf true (λ _, None) (λ s, Errorf s None) id restoreTwo s.
Definition exRestore (s : FirewallTracker * ExW) : restoration * (FirewallTracker * ExW) :=
  SnapshotRestore (W := ExW) 0%Z noneOf noneOf true elements (λ _, None) (λ _, "") (λ s, Errorf s None) Some (λ _, Ok "{}") id "/vms" ""
    restoreTwo s.

(** The names in the answer and in the table, and the statuses there. *)
Definition outcome (r : restoration * (FirewallTracker * ExW)) : option (list string * bool * list (string * VMStatus)) :=
  match r with
  | (Returned vms err, s) => Some ((λ x : VMItem * VMRefs, vm_Name x.1) <$> vms, bool_decide (err = None),
                                   (λ v, (vm_Name v, vm_Status v)) <$> at_vms (tables s.2.1))
  | (Panicked, _) => None
  end.

Lemma SnapshotRestore_rows_witness :
  outcome (exRestore (oneMachine [])) =
    Some (["web"; "web-2"], true, [("old", ""); ("web", VMStatusRunning); ("web-2", VMStatusRunning)]) ∧
  ∃ vms s' p s1, exRestore (oneMachine []) = (Returned vms None, s') ∧ exPlan (oneMachine []) = (Ok p, s1) ∧
    Forall2 (restored id "/vms" p s') ["web"; "web-2"] vms.
Proof.
  assert (outcome (exRestore (oneMachine [])) =
    Some (["web"; "web-2"], true, [("old", ""); ("web", VMStatusRunning); ("web-2", VMStatusRunning)])) as Ho
    by (vm_compute; reflexivity).
  split; [exact Ho|]. destruct (exRestore (oneMachine [])) as [[vms err|] s'] eqn:E; [|discriminate Ho].
  injection Ho as Hn He%bool_decide_eq_true_1 _. subst err.
  assert (distinctIDs id (restoreNames restoreTwo)) as Hids.
  { intros n n' t t'. change (restoreNames restoreTwo) with ["web"; "web-2"]. apply two_names. }
  unfold exRestore in E. eapply SnapshotRestore_rows in E; [|exact Hids]. destruct E as [_ [[-> _]|(p & s1 & Hp & Hr)]]; [discriminate Hn|].
  exists vms, s', p, s1. split; [reflexivity|]. split; [exact Hp|exact Hr].
Defined.
End RestorationExamples.
