(* ===== verification/Keys.v ===== *)
(** * SSH keys: [internal/core/key], [pkg/api/key.go], [pkg/api/inputs/key_*.go]

    Public keys in their text form, the service that generates, imports and lists
    keys, the export of a pair of files, and the operations.  The table and the
    resolver are in [Assets].  At the end, what the guard of [KeyRemove] does. *)

From Stdlib Require Import Ascii.
From stdpp Require Import gmap strings list.
From S2P Require Import Prelude GoStrings Errs Model Inputs Infra Sql System Version Config Files Resolving IPTables IPNet Names NetAPI VMRepo Assets CloudInit VMAPI VMCreate AppDb Creation.
#[local] Open Scope string_scope.

(** ** Public keys *)

Definition keyError (msg : string) : error := EDomain (New CodeKeyError msg []).

(** The alphabet of [base64.StdEncoding]. *)
Definition base64Value (c : ascii) : option nat :=
  let n := nat_of_ascii c in
  if (65 <=? n)%nat && (n <=? 90)%nat then Some (n - 65)
  else if (97 <=? n)%nat && (n <=? 122)%nat then Some (n - 71)
  else if (48 <=? n)%nat && (n <=? 57)%nat then Some (n + 4)
  else if (n =? 43)%nat then Some 62
  else if (n =? 47)%nat then Some 63
  else None.

Definition base64Digit (v : nat) : ascii :=
  ascii_of_nat (if v <? 26 then v + 65 else if v <? 52 then v + 71 else if v <? 62 then v - 4 else if v =? 62 then 43 else 47)%nat.

(** [base64.RawStdEncoding.DecodeString], for text without line breaks: four
    characters make three bytes, and the last bits of a short group are dropped. *)
Fixpoint base64Decode (s : string) : option string :=
  match s with
  | "" => Some ""
  | String a (String b rest) =>
      x ← base64Value a; y ← base64Value b;
      let first := ascii_of_nat (x * 4 + y / 16) in
      match rest with
      | "" => Some (String first "")
      | String c rest =>
          z ← base64Value c;
          let second := ascii_of_nat (y mod 16 * 16 + z / 4) in
          match rest with
          | "" => Some (String first (String second ""))
          | String d rest =>
              w ← base64Value d;
              bytes ← base64Decode rest;
              Some (String first (String second (String (ascii_of_nat (z mod 4 * 64 + w)) bytes)))
          end
      end
  | _ => None
  end.

(** [base64.StdEncoding.EncodeToString] without its padding. *)
Fixpoint base64Encode (s : string) : string :=
  match s with
  | "" => ""
  | String a rest =>
      let x := nat_of_ascii a in
      match rest with
      | "" => String (base64Digit (x / 4)) (String (base64Digit (x mod 4 * 16)) "")
      | String b rest =>
          let y := nat_of_ascii b in
          match rest with
          | "" => String (base64Digit (x / 4)) (String (base64Digit (x mod 4 * 16 + y / 16)) (String (base64Digit (y mod 16 * 4)) ""))
          | String c rest =>
              let z := nat_of_ascii c in
              String (base64Digit (x / 4)) (String (base64Digit (x mod 4 * 16 + y / 16))
                (String (base64Digit (y mod 16 * 4 + z / 64)) (String (base64Digit (z mod 64)) (base64Encode rest))))
          end
      end
  end.

Definition invalidKey : error := keyError "Invalid public key format".

(** [sha256.Sum256], as bytes. *)
Definition computeFingerprint (sha256 : string → string) (pubKeyContent : string) : result error string :=
  match Fields pubKeyContent with
  | _ :: data :: _ =>
      match base64Decode (TrimRight data "="%char) with
      | Some keyBytes => Ok ("SHA256:" ++ base64Encode (sha256 keyBytes))
      | None => Err invalidKey
      end
  | _ => Err invalidKey
  end.

Definition IsPrivateKey (content : string) : bool := Contains content "-----BEGIN" && Contains content "PRIVATE KEY-----".

Definition ValidAlgorithms : list string := ["ed25519"; "rsa"; "ecdsa"].

Definition ParseAlgorithm (pubKeyContent : string) : result error string :=
  match Fields pubKeyContent with algorithm :: _ => Ok algorithm | [] => Err invalidKey end.

(** Past the first word and the white space that follows it. *)
Fixpoint afterWord (s : string) : string :=
  match s with
  | "" => ""
  | String c s' => if isSpace c then TrimLeftSpace s else afterWord s'
  end.

Definition ParseComment (pubKeyContent : string) : string :=
  let trimmed := TrimSpace pubKeyContent in
  if (length (Fields trimmed) <? 3)%nat then "" else afterWord (afterWord trimmed).

(** [strings.Replace(path, ".pub", "", 1)]. *)
Definition dropPub (path : string) : string :=
  match Cut path ".pub" with Some (before, after) => before ++ after | None => path end.

(** ** Parameters and inputs *)

Record CreateParams := CreateParams_ {
  kp_Name : string;
  kp_Algorithm : string;
  kp_Bits : Z;
  kp_Comment : string;
  kp_OutputDir : string;
  kp_Overwrite : bool;
  kp_SetDefault : bool;
}.

Record ResolvedKeyCreateInput := ResolvedKeyCreateInput_ {
  rkc_Name : string;
  rkc_Algorithm : string;
  rkc_Bits : option Z;
  rkc_OutputDir : string;
  rkc_Comment : string;
  rkc_Overwrite : bool;
  rkc_SetDefault : bool;
}.

Record KeyImportInput := KeyImportInput_ {
  kii_Name : string;
  kii_PubKeyPath : string;
  kii_PubKeyContent : string;
  kii_Overwrite : bool;
  kii_SetDefault : bool;
}.

Record KeyInfo := KeyInfo_ {
  ki_ID : string; ki_Name : string; ki_Fingerprint : string; ki_Algorithm : string; ki_Comment : string; ki_IsDefault : bool; ki_IsPresent : bool }.
Record KeyFilesInfo := KeyFilesInfo_ { kf_PublicKeyPath : string; kf_PrivateKeyPath : option string }.
Record KeyTimestampsInfo := KeyTimestampsInfo_ { kt_CreatedAt : string; kt_UpdatedAt : string }.
Record KeyInspectResult := KeyInspectResult_ { kin_Key : KeyInfo; kin_Files : KeyFilesInfo; kin_Timestamps : KeyTimestampsInfo }.

(** [exec.LookPath], [os.Hostname], [os.Chmod], and the copy that keeps the
    permissions and times of a file. *)
Class KeyHost (W : Type) := {
  LookPath : string → GoM W error string;
  Hostname : GoM W error string;
  Chmod : string → Z → GoM W error unit;
  CopyPreservingMetadata : string → string → GoM W error unit;
}.

(** ** The service and the operations *)
Section Keys.
Context {W : Type} `{KeyRepository W} `{Repository W} `{Files W} `{TextFiles W} `{Runner W} `{OpEnv W} `{KeyHost W}.
Context (parseIPv6 : string → option IP) (sha256 : string → string) (keysDir : string) (toAny : SSHKeyItem → any).
#[local] Notation M := (GoM W error).

(** A call whose error is dropped. *)
Definition silently {A} (m : M A) : M unit := _ ← try m; mret ().
(** [os.Stat(path)] without an error. *)
Definition present (path : string) : M bool := r ← try (Stat path); mret (is_Ok r).
Definition ofEither {A} (r : result error A) : M A := λ w, (r, w).

Definition checkDependencies : M unit :=
  mapErr (λ _, EDomain (New CodeKeyDependencyMissing
    "ssh-keygen is not installed. Install openssh-client (apt install openssh-client / brew install openssh)." []))
    (_ ← LookPath "ssh-keygen"; mret ()).

Fixpoint ReadPubKeyContents (keys : list SSHKeyItem) : M (list string) :=
  match keys with
  | [] => mret []
  | k :: rest =>
      here ← (if decide (key_PublicKeyPath k = "") then mret false else present (key_PublicKeyPath k));
      if here : bool then
        data ← mapErr (λ err, keyError ("Failed to read public key file: " ++ Error err)) (ReadText (key_PublicKeyPath k));
        contents ← ReadPubKeyContents rest;
        mret (TrimSpace data :: contents)
      else ReadPubKeyContents rest
  end.

Definition keygenArgs (privateKeyPath comment algorithm : string) (bits : Z) : list string :=
  (["ssh-keygen"; "-t"; algorithm; "-f"; privateKeyPath; "-N"; ""; "-C"; comment] ++
   if decide (algorithm = "rsa") then ["-b"; Itoa (if (bits <=? 0)%Z then 4096 else bits)] else [])%list.

Definition generateKeypair (privateKeyPath pubKeyPath comment algorithm : string) (bits : Z) : M string :=
  result ← calls (Run (keygenArgs privateKeyPath comment algorithm bits) "");
  if negb (RR_ExitCode result =? 0)%Z then throw (keyError ("ssh-keygen failed: " ++ TrimSpace (Stderr result)))
  else
    pubContent ← mapErr (λ err, keyError ("Failed to read generated public key: " ++ Error err)) (ReadText pubKeyPath);
    mret (TrimSpace pubContent).

(** The row of a key, from the text of its public part. *)
Definition keyItem (name pubContent pubPath : string) (privatePath : option string) (setDefault : bool) : M SSHKeyItem :=
  fingerprint ← ofEither (computeFingerprint sha256 pubContent);
  alg ← ofEither (ParseAlgorithm pubContent);
  now ← calls NowRFC3339;
  mret (SSHKeyItem_ fingerprint name fingerprint alg (ParseComment pubContent) pubPath setDefault true now now privatePath).

(** The key of this name gives way, or the operation ends; an error of the lookup
    is dropped. *)
Definition makeRoom (name : string) (overwrite : bool) (onOld : M unit) (refusal : string) : M unit :=
  existing ← try (keyr_GetByName name);
  match existing with
  | Ok (Some old) => if overwrite then _ ← onOld; keyr_Delete (key_ID old) else throw (keyError refusal)
  | _ => mret ()
  end.

Definition newLine : string := String (ascii_of_nat 10) "".

Definition CreateKeypair (p : CreateParams) : M SSHKeyItem :=
  _ ← checkDependencies;
  _ ← mapErr (wrapf "create output dir") (Files.MkdirAll (kp_OutputDir p));
  let privateKeyPath := Path_Join [kp_OutputDir p; kp_Name p] in
  let pubKeyPath := Path_Join [kp_OutputDir p; kp_Name p ++ ".pub"] in
  _ ← makeRoom (kp_Name p) (kp_Overwrite p) (mret ()) ("Key '" ++ kp_Name p ++ "' already exists in cache. Remove it first.");
  comment ← (if decide (kp_Comment p = "") then
               hostname ← try Hostname;
               let hostname := match hostname with Ok h => h | Err _ => "" end in
               mret (kp_Name p ++ "@" ++ (if decide (hostname = "") then "localhost" else hostname))
             else mret (kp_Comment p));
  _ ← (if kp_Overwrite p then _ ← silently (RemoveFile privateKeyPath); silently (RemoveFile pubKeyPath) else mret ());
  pubContent ← generateKeypair privateKeyPath pubKeyPath comment (kp_Algorithm p) (kp_Bits p);
  _ ← silently (CloudInit.WriteText pubKeyPath (pubContent ++ newLine));
  sshKey ← keyItem (kp_Name p) pubContent pubKeyPath (Some privateKeyPath) (kp_SetDefault p);
  _ ← mapErr (wrapf "upsert key") (keyr_Upsert sshKey);
  mret sshKey.

(** The private key next to a public key: without its extension. *)
Definition privatePathOf (pubKeyPath : string) : string :=
  let stripped := TrimSuffix pubKeyPath ".pub" in if decide (stripped = pubKeyPath) then dropPub pubKeyPath else stripped.

Definition Import (name pubKeyPath pubKeyContent : string) (overwrite setDefault : bool) : M SSHKeyItem :=
  let pubPath := Path_Join [keysDir; name ++ ".pub"] in
  _ ← makeRoom name overwrite (here ← present pubPath; if here : bool then silently (RemoveFile pubPath) else mret ())
        ("Key '" ++ name ++ "' already exists. Remove it first to replace.");
  _ ← mapErr (λ err, keyError ("Failed to write public key file: " ++ Error err)) (CloudInit.WriteText pubPath (pubKeyContent ++ newLine));
  let privateKeyPath := privatePathOf pubKeyPath in
  found ← present privateKeyPath;
  let privateKeyExists := (found : bool) && negb (bool_decide (privateKeyPath = pubKeyPath)) in
  sshKey ← keyItem name pubKeyContent pubPath (if privateKeyExists then Some privateKeyPath else None) setDefault;
  _ ← mapErr (wrapf "upsert key") (keyr_Upsert sshKey);
  mret sshKey.

(** [GetPubkey] and [GetPubkeys] of identifiers; those of keys are
    [VMCreate.readPubKeyFile] and [VMCreate.GetPubkeys]. *)
Definition GetPubkeyOf (identifier : string) : M string :=
  k ← key_Resolve None None identifier; readPubKeyFile (key_PublicKeyPath k).

Definition GetPubkeysOf (identifiers : list string) : M (list string) :=
  r ← key_ResolveMany None None identifiers;
  match rs_Errors r, rs_Items r with
  | msg :: _, [] => throw (keyError msg)
  | _, items => GetPubkeys items
  end.

(** The keys whose public file is gone. *)
Fixpoint missingKeys (keys : list SSHKeyItem) : M (list string) :=
  match keys with
  | [] => mret []
  | k :: rest => gone ← missing (key_PublicKeyPath k); ids ← missingKeys rest; mret (if gone : bool then key_ID k :: ids else ids)
  end.

Definition List (verify : bool) : M (list SSHKeyItem) :=
  keys ← keyr_ListAll;
  if negb verify then mret keys
  else
    ids ← missingKeys keys;
    if decide (ids = []) then mret keys else _ ← keyr_UpdateManyIsPresent ids false; keyr_ListAll.

Definition SetDefaults (keys : list SSHKeyItem) : M unit := forOk keys (λ k, keyr_SetDefault (key_ID k)).
Definition ClearDefaultKeys : M unit := keyr_ClearDefaults.

(** *** The controller *)

Definition exportFailed (msg : string) (opts : list ErrorOption) : error := EDomain (New CodeKeyExportFailed msg opts).

Definition Export (k : SSHKeyItem) (destDir : string) (overwrite : bool) : M (string * string) :=
  let sourcePublic := key_PublicKeyPath k in
  let sourcePrivate := default "" (key_PrivateKeyPath k) in
  if decide (sourcePublic = "") then throw (exportFailed ("Public key path not set for '" ++ key_Name k ++ "'") [WithEntity (key_Name k)])
  else
    gone ← missing sourcePublic;
    if gone : bool then throw (exportFailed ("Public key not found at '" ++ sourcePublic ++ "'") [WithEntity (key_Name k)])
    else
      privateGone ← (if decide (sourcePrivate = "") then mret false else missing sourcePrivate);
      if privateGone : bool then throw (exportFailed ("Private key not found at '" ++ sourcePrivate ++ "'") [WithEntity (key_Name k)])
      else
        _ ← Files.MkdirAll destDir;
        let destPrivate := Path_Join [destDir; key_Name k] in
        let destPublic := Path_Join [destDir; key_Name k ++ ".pub"] in
        existing ← (if overwrite then mret []
                    else
                      p ← present destPrivate; q ← present destPublic;
                      mret ((if p : bool then [destPrivate] else []) ++ (if q : bool then [destPublic] else []))%list);
        if negb (bool_decide (existing = [])) then
          throw (exportFailed ("Key file(s) already exist: " ++ Join existing ", " ++ ". Use --overwrite to replace.") [])
        else
          _ ← (if decide (sourcePrivate = "") then mret ()
               else
                 _ ← mapErr (wrapf "copy private key") (CopyPreservingMetadata sourcePrivate destPrivate);
                 mapErr (wrapf "chmod private key") (Chmod destPrivate 384));
          _ ← mapErr (wrapf "copy public key") (CopyPreservingMetadata sourcePublic destPublic);
          mret (destPrivate, destPublic).

(** *** Inputs *)

Definition algorithmRefused (what algorithm : string) : string :=
  what ++ " algorithm: '" ++ algorithm ++ "'. Valid choices: ed25519, rsa, ecdsa".

Definition kci_Validate (i : KeyCreateInput) : result error unit :=
  if decide (kci_Name i = "") then Err (Errorf "key name is required" None)
  else if bool_decide (kci_Algorithm i ≠ "") && bool_decide (kci_Algorithm i ∉ ValidAlgorithms)
  then Err (Errorf (algorithmRefused "invalid" (kci_Algorithm i)) None)
  else Ok ().

Definition keyFilesExist (name outputDir : string) : M unit :=
  let refuse (path : string) : M unit :=
    here ← present path;
    if here : bool then throw (EDomain (AlreadyExists CodeKeyAlreadyExists ("Key file already exists: " ++ path ++ ". Use --force to replace.") []))
    else mret () in
  _ ← refuse (Path_Join [outputDir; name]); refuse (Path_Join [outputDir; name ++ ".pub"]).

Definition kci_Resolve (i : KeyCreateInput) : M ResolvedKeyCreateInput :=
  _ ← ofEither (kci_Validate i);
  _ ← mapErr (λ err, coded CodeValidationFailed (Error err)) (ofEither (KeyName parseIPv6 (kci_Name i)));
  let algorithm := if decide (kci_Algorithm i = "") then "ed25519" else kci_Algorithm i in
  if bool_decide (algorithm ∉ ValidAlgorithms) then throw (coded CodeValidationFailed (algorithmRefused "Invalid" algorithm))
  else
    comment ← (if decide (kci_Comment i = "") then
                 hostname ← try Hostname;
                 mret (kci_Name i ++ "@" ++ match hostname with Ok h => h | Err _ => "unknown" end)
               else mret (kci_Comment i));
    let outputDir := if decide (kci_OutputDir i = "") then keysDir else kci_OutputDir i in
    _ ← (if kci_Overwrite i then mret () else keyFilesExist (kci_Name i) outputDir);
    mret (ResolvedKeyCreateInput_ (kci_Name i) algorithm (if (kci_Bits i =? 0)%Z then None else Some (kci_Bits i)) outputDir comment
            (kci_Overwrite i) (kci_SetDefault i)).

Definition kyi_Validate (i : KeyInput) : result error unit :=
  if decide (kyi_Identifiers i = []) then Err (Errorf "at least one key identifier is required" None) else Ok ().

(** The keys found come with the error of those that were not; no caller looks at
    them then. *)
Definition kyi_Resolve (i : KeyInput) : M (list SSHKeyItem) :=
  _ ← ofEither (kyi_Validate i);
  r ← key_ResolveMany None None (kyi_Identifiers i);
  if decide (rs_Errors r = []) then mret (rs_Items r)
  else if decide (rs_Items r = []) then
    throw (EDomain (NotFound CodeKeyNotFound ("failed to resolve keys: " ++ Join (rs_Errors r) "; ") []))
  else throw (Errorf ("partial resolve failures: " ++ Join (rs_Errors r) "; ") None).

(** *** [pkg/api/key.go] *)

Definition KeyListAll : M (list SSHKeyItem) := List false.

Definition KeyGet (i : KeyInput) : M SSHKeyItem :=
  keys ← kyi_Resolve i;
  match keys with
  | [k] => mret k
  | _ => throw (Errorf ("expected exactly one key, got " ++ Itoa (Z.of_nat (length keys))) None)
  end.

Definition KeyCreate (i : KeyCreateInput) : M SSHKeyItem :=
  r ← mapErr (λ err, wrapped CodeKeyCreateFailed (Error err) err) (kci_Resolve i);
  k ← mapErr (λ err, wrapped CodeKeyCreateFailed ("Key creation failed: " ++ Error err) err)
        (CreateKeypair (CreateParams_ (rkc_Name r) (rkc_Algorithm r) (default 0%Z (rkc_Bits r)) (rkc_Comment r) (rkc_OutputDir r)
                          (rkc_Overwrite r) (rkc_SetDefault r)));
  _ ← calls (LogOperation "key.create" [("algorithm", key_Algorithm k); ("name", key_Name k)]);
  mret k.

Definition addFailed (msg : string) : error := coded CodeKeyAddFailed msg.

Definition KeyImport (i : KeyImportInput) : M SSHKeyItem :=
  let path := kii_PubKeyPath i in
  gone ← missing path;
  if gone : bool then throw (addFailed ("Public key file not found: " ++ path))
  else
    data ← mapErr (λ err, wrapped CodeKeyAddFailed ("Failed to read public key file: " ++ Error err) err) (ReadText path);
    let pubKeyContent := TrimSpace data in
    if decide (pubKeyContent = "") then throw (addFailed ("Public key file is empty: " ++ path))
    else if IsPrivateKey pubKeyContent then
      let altPath := path ++ ".pub" in
      alt ← present altPath;
      throw (addFailed ("'" ++ path ++ "' looks like a private key." ++ newLine ++
        (if alt : bool then "Use the public key instead: mvm key import " ++ kii_Name i ++ " " ++ altPath
         else "Pass the corresponding .pub file instead: mvm key import " ++ kii_Name i ++ " <path>.pub")))
    else
      k ← mapErr (λ err, wrapped CodeKeyAddFailed ("Failed to add key: " ++ Error err) err)
            (Import (kii_Name i) path pubKeyContent (kii_Overwrite i) (kii_SetDefault i));
      _ ← calls (LogOperation "key.add" [("name", key_Name k)]);
      mret k.

Definition removeFailed (msg : string) (exception : option error) : OperationResult := opFailed "key.remove_failed" msg exception.

Definition removeKey (force : bool) (k : SSHKeyItem) : ST W OperationResult :=
  vms ← attempt (FindBySSHKeyID (key_ID k));
  let vms := match vms with Ok vms => vms | Err _ => [] end in
  if negb (bool_decide (vms = [])) && negb force then
    mret (removeFailed ("Key '" ++ key_Name k ++ "' is used by VM(s): " ++ Join (vm_Name <$> vms) ", " ++ ". Use --force to remove anyway.") None)
  else
    _ ← (if decide (key_PublicKeyPath k = "") then mret () else _ ← attempt (RemoveFile (key_PublicKeyPath k)); mret ());
    _ ← (match key_PrivateKeyPath k with
         | Some path => if decide (path = "") then mret () else _ ← attempt (RemoveFile path); mret ()
         | None => mret ()
         end);
    deleted ← attempt (keyr_Delete (key_ID k));
    match deleted with
    | Err err => mret (removeFailed ("Failed to remove key '" ++ key_Name k ++ "': " ++ Error err) (Some err))
    | Ok _ =>
        _ ← LogOperation "key.remove" [("name", key_Name k)];
        mret (OperationResult_ "success" "key.removed" "" (Some (toAny k)) None None None)
    end.

Fixpoint removeKeys (force : bool) (keys : list SSHKeyItem) : ST W (list OperationResult) :=
  match keys with
  | [] => mret []
  | k :: rest => r ← removeKey force k; rs ← removeKeys force rest; mret (r :: rs)
  end.

Definition KeyRemove (i : KeyInput) (force : bool) : ST W BatchResult :=
  keys ← attempt (kyi_Resolve i);
  match keys with
  | Err err => mret (batchOf [removeFailed (Error err) (Some err)])
  | Ok keys => results ← removeKeys force keys; mret (batchOf results)
  end.

Definition KeyInspect (i : KeyInput) : M KeyInspectResult :=
  k ← KeyGet i;
  mret (KeyInspectResult_
    (KeyInfo_ (key_ID k) (key_Name k) (key_Fingerprint k) (key_Algorithm k) (key_Comment k) (key_IsDefault k) (key_IsPresent k))
    (KeyFilesInfo_ (key_PublicKeyPath k) (key_PrivateKeyPath k))
    (KeyTimestampsInfo_ (key_CreatedAt k) (key_UpdatedAt k))).

(** The path of a private key is in the answer even when there is none. *)
Definition KeyExport (i : KeyInput) (destination : string) (overwrite : bool) : M (list string) :=
  keys ← mapErr (λ err, coded CodeKeyExportFailed ("Key not found: " ++ Error err)) (kyi_Resolve i);
  match keys with
  | [k] =>
      dest ← mapErr (λ err, wrapped CodeKeyExportFailed (Error err) err) (Export k destination overwrite);
      mret [dest.1; dest.2]
  | _ => throw (coded CodeKeyExportFailed ("expected exactly one key, got " ++ Itoa (Z.of_nat (length keys))))
  end.

Definition KeySetDefaults (i : KeyInput) : M unit :=
  keys ← try (kyi_Resolve i);
  match keys with
  | Err _ | Ok [] => throw (coded CodeKeyDefaultSetFailed "Key not found")
  | Ok keys =>
      _ ← mapErr (λ err, wrapped CodeKeyDefaultSetFailed ("Failed to set default key: " ++ Error err) err) (SetDefaults keys);
      calls (forEach keys (λ k, LogOperation "key.set_default" [("name", key_Name k)]))
  end.

Definition KeyGetDefaults : M (list SSHKeyItem) := keyr_GetDefaults.

Definition KeyClearDefaults : M unit :=
  _ ← mapErr (λ err, wrapped CodeKeyDefaultsClearFailed ("Failed to clear defaults: " ++ Error err) err) ClearDefaultKeys;
  calls (LogOperation "key.clear_defaults" []).
End Keys.
