(* ===== verification/InUse.v ===== *)
(** * Keys in use

    [KeyRemove] asks the table of machines for those that use the key, to refuse
    when there are some.  It asks by the id of the key; the rows of machines hold
    the names of their keys ([VMCreate.toVMModel]).  On one database the guard
    never holds, and removal with and without force are the same. *)

From Stdlib Require Import Ascii.
From stdpp Require Import gmap strings list.
From S2P Require Import Prelude GoStrings Errs Model Inputs Infra Sql System Files Resolving IPNet Lease Names NetOps Networks FwTracker VMRepo NetAPI Volumes VMControl Assets CloudInit VMAPI VMCreate AppDb AppFrames Attach Removal Creation Keys.
#[local] Open Scope string_scope.

(** ** Ids and names *)

Definition base64Char (c : ascii) : bool := bool_decide (is_Some (base64Value c)).

(** The ids of keys: fingerprints. *)
Definition fingerprintText (id : string) : Prop := ∃ data, id = "SHA256:" ++ data ∧ allChars base64Char data = true.

(** A name without a colon or a quote. *)
Definition plainName (name : string) : Prop := without ":"%char name = true ∧ without (ascii_of_nat 34) name = true.

Lemma base64Digit_char v : (v < 64)%nat → base64Char (base64Digit v) = true.
Proof.
  intros Hv. assert (v ∈ seq 0 64) as Hin by (apply elem_of_seq; lia). clear Hv. revert v Hin. apply Forall_forall.
  apply (bool_decide_unpack _). vm_compute. exact I.
Qed.

Lemma base64Encode_text s : allChars base64Char (base64Encode s) = true.
Proof.
  assert (∀ c, let x := nat_of_ascii c in
    (x / 4 < 64 ∧ x / 16 < 16 ∧ x / 64 < 4 ∧ x mod 4 < 4 ∧ x mod 16 < 16 ∧ x mod 64 < 64)%nat) as Hc.
  { intros c x. pose proof (nat_ascii_bounded c). repeat split; (apply Nat.Div0.div_lt_upper_bound || apply Nat.mod_upper_bound); subst x; lia. }
  cbv zeta in Hc. enough (∀ n s, (String.length s <= n)%nat → allChars base64Char (base64Encode s) = true) as Hall by (by apply (Hall (String.length s))).
  induction n as [|n IH]; intros t Ht; [by destruct t; simpl in Ht; [|lia]|].
  destruct t as [|a [|b [|c t]]]; [done|..]; cbn [base64Encode allChars];
    try pose proof (Hc a); try pose proof (Hc b); try pose proof (Hc c);
    rewrite ?base64Digit_char; try (zify; Z.to_euclidean_division_equations; lia); apply IH; simpl in Ht; lia.
Qed.

(** The ids of the keys the program makes. *)
Lemma computeFingerprint_text sha256 content id : computeFingerprint sha256 content = Ok id → fingerprintText id.
Proof.
  unfold computeFingerprint. destruct (Fields content) as [|a [|data rest]]; try discriminate. destruct (base64Decode _) as [bytes|]; [|discriminate].
  intros E. injection E as <-. exists (base64Encode (sha256 bytes)). split; [done|apply base64Encode_text].
Qed.

Lemma lower_colon c : Ascii.eqb (lower c) ":"%char = Ascii.eqb c ":"%char.
Proof. by destruct c as [[] [] [] [] [] [] [] []]. Qed.

Lemma without_ToLower s : without ":"%char (ToLower s) = without ":"%char s.
Proof.
  unfold without. induction s as [|c s IH]; [done|]. cbn [ToLower allChars]. by rewrite IH, lower_colon.
Qed.

(** ** Removal *)
Section InUse.
Context {H : Type} `{KeyRepository H} `{Files H} `{OpEnv H}.
Context (like : string → string → bool) (marshal : list string → string) (rowOK : VMItem → bool) (constraintError : error)
  (toAny : SSHKeyItem → any).
#[local] Notation W := (Db AppTables * H)%type.
#[local] Instance use_vms : Repository W := app_vms like marshal rowOK constraintError.

(** What LIKE (which folds case) and JSON do with the ids and plain names: a row
    matches only when it has the id among its names. *)
Context (Hquoted : ∀ id names, fingerprintText id → Forall plainName names → quotedIn like marshal id names = true →
  ∃ n, n ∈ names ∧ ToLower n = ToLower id).

Definition namesKeys (w : W) : Prop := ∀ vm, vm ∈ at_vms (tables w.1) → Forall plainName (vm_SSHKeys vm).

Lemma not_quoted id names : fingerprintText id → Forall plainName names → quotedIn like marshal id names = false.
Proof.
  intros Hid Hn. destruct (quotedIn like marshal id names) eqn:E; [|done]. exfalso.
  destruct (Hquoted id names Hid Hn E) as (n & Hin & Hl). rewrite Forall_forall in Hn. destruct (Hn n Hin) as [Hc _].
  rewrite <- without_ToLower, Hl in Hc. destruct Hid as (data & -> & _). discriminate Hc.
Qed.

Lemma users_none id (w : W) :
  fingerprintText id → namesKeys w → match (FindBySSHKeyID (W := W) id w).1 with Ok vms => vms = [] | Err _ => True end.
Proof.
  intros Hid Hw. destruct w as [[tb fs cl] h].
  assert (filter (λ vm, quotedIn like marshal id (vm_SSHKeys vm)) (at_vms tb) = []) as Hnil.
  { destruct (filter _ _) as [|v l] eqn:E; [done|]. exfalso.
    assert (v ∈ filter (λ vm, quotedIn like marshal id (vm_SSHKeys vm)) (at_vms tb)) as [Hq Hin]%list_elem_of_filter by (rewrite E; left).
    rewrite (not_quoted id _ Hid (Hw v Hin)) in Hq. done. }
  destruct fs as [|[e|] fs]; [exact Hnil|exact I|exact Hnil].
Qed.

Lemma removeKey_same k (w : W) : fingerprintText (key_ID k) → namesKeys w → removeKey toAny false k w = removeKey toAny true k w.
Proof.
  intros Hid Hw. unfold removeKey. rewrite !ST_bind_unfold. change (attempt ?m w) with (m w).
  pose proof (users_none (key_ID k) w Hid Hw) as Hu. destruct (FindBySSHKeyID (key_ID k) w) as [[vms|e] w']; cbn [fst snd] in *; [|done].
  by subst vms.
Qed.

Lemma removeKey_keeps force k : upholds keepsVMs (removeKey (W := W) toAny force k).
Proof. unfold removeKey. keeps. Qed.

Lemma removeKeys_same keys : ∀ w : W, Forall (λ k, fingerprintText (key_ID k)) keys → namesKeys w →
  removeKeys toAny false keys w = removeKeys toAny true keys w.
Proof.
  induction keys as [|k keys IH]; intros w Hids Hw; cbn [removeKeys]; [done|]. apply Forall_cons in Hids as [Hk Hids].
  rewrite !ST_bind_unfold, (removeKey_same k w Hk Hw).
  rewrite IH; [done|done|]. intros vm. rewrite (removeKey_keeps true k w). apply Hw.
Qed.

(** C27. [KeyRemove] on one database and among any host: when the machines hold
    the names of their keys, as creation records them, and the keys found have
    fingerprints for ids, it does the same without force as with it, so a key in
    use is removed and nothing is refused. *)
Theorem KeyRemove_force_idle i (w : W) :
  (∀ keys w', kyi_Resolve (W := W) i w = (Ok keys, w') → Forall (λ k, fingerprintText (key_ID k)) keys) →
  namesKeys w → KeyRemove toAny i false w = KeyRemove toAny i true w.
Proof.
  intros Hids Hw. unfold KeyRemove. rewrite !ST_bind_unfold. change (attempt ?m w) with (m w).
  assert (upholds (A := result error (list SSHKeyItem)) keepsVMs (kyi_Resolve (W := W) i)) as Hk.
  { unfold kyi_Resolve, ofEither. keeps_by ltac:(apply keyMany_keeps). intros w'. cbn. reflexivity. }
  specialize (Hk w). destruct (kyi_Resolve i w) as [[keys|e] w'] eqn:E; cbn [fst snd] in *; [|done].
  rewrite !ST_bind_unfold, (removeKeys_same keys w'); [done|by eapply Hids|]. intros vm. rewrite Hk. apply Hw.
Qed.
End InUse.

(** * An example *)
Module InUseExamples.
Import RepoExamples RemovalExamples.

(** A column of one name, and the pattern that is that name. *)
Definition oneName (names : list string) : string := dquote ++ default "" (head names) ++ dquote.
Definition exactly (p s : string) : bool := bool_decide (p = "%" ++ s ++ "%").

Lemma sapp_inj_r s t u : s ++ u = t ++ u → s = t.
Proof.
  revert t. induction s as [|c s IH]; intros [|d t] E; [done|..].
  - apply (f_equal String.length) in E. rewrite !length_sapp in E. simpl in E. lia.
  - apply (f_equal String.length) in E. rewrite !length_sapp in E. simpl in E. lia.
  - rewrite !sapp_cons in E. injection E as -> E. f_equal. by apply IH.
Qed.

Lemma oneName_quoted id names :
  fingerprintText id → Forall plainName names → quotedIn exactly oneName id names = true → ∃ n, n ∈ names ∧ ToLower n = ToLower id.
Proof.
  intros (data & -> & _) _ E%bool_decide_eq_true_1. destruct names as [|n names]; [discriminate E|].
  exists n. split; [left|]. f_equal. generalize dependent ("SHA256:" ++ data). intros key E. unfold oneName, dquote in E.
  cbn [head default from_option] in E. unfold id in E. rewrite <- !sapp_assoc in E. cbn in E. injection E as E. symmetry. by eapply sapp_inj_r.
Qed.

(** The machine [web] was created with the key [laptop]. *)
Definition laptop : SSHKeyItem := SSHKeyItem_ "SHA256:abc" "laptop" "SHA256:abc" "ed25519" "me" "/k/laptop.pub" false true "t0" "t0" None.
Definition webVM : VMItem :=
  VMItem_ "id1" "web" "" 0%Z "10.0.0.2" "52:54:00:00:00:01" "net1" "" "" "" "" "" "" "" 0%Z 0%Z 0%Z "" "" false false false false false false
    "t0" "t0" None None None None None None None None "" "" "" "" "" "" "" "" "" "" "" ["laptop"] None [] None.

#[local] Notation Keys := (Db (list SSHKeyItem)).
#[local] Instance keys_table : KeyRepository Keys := keySqliteRepo noLike violated.
#[local] Instance keys_files : Files Keys := {|
  MkdirAll _ := mret (); Stat _ := mret (); IsNotExist _ := false; RemoveFile _ := mret (); RemoveAll _ := mret () |}.
#[local] Instance keys_env : OpEnv Keys := {|
  NowRFC3339 := mret "t1"; LogOperation _ _ := mret (); EnrichNetworkRefs _ := mret []; CheckPrivileges _ _ := mret ();
  ConfigString _ _ := mret ""; ConfigBool _ _ := mret false; UpdateComponent _ _ := mret () |}.

Definition inUse : Db AppTables * Keys := (Db_ (AppTables_ [webVM] [] (LeaseTables_ [] 1 [])) [] "t1", Db_ [laptop] [] "t1").
#[local] Instance use_ex : Repository (Db AppTables * Keys) := use_vms exactly oneName allRows violated.
#[local] Notation remove force := (KeyRemove (W := Db AppTables * Keys) (λ _, AnyNil) (KeyInput_ ["laptop"]) force inUse).

Lemma KeyRemove_force_idle_witness :
  HasErrors (remove false).1 = false ∧ tables (remove false).2.2 = [] ∧ vm_SSHKeys <$> at_vms (tables (remove false).2.1) = [["laptop"]] ∧
  remove false = remove true.
Proof.
  split_and!; [by vm_compute..|].
  apply (KeyRemove_force_idle exactly oneName allRows violated (λ _, AnyNil) oneName_quoted).
  - intros keys w' E. enough ((kyi_Resolve (KeyInput_ ["laptop"]) inUse).1 = Ok [laptop]) as Hr.
    { rewrite E in Hr. injection Hr as ->. repeat constructor. by exists "abc". }
    by vm_compute.
  - intros vm [->|[]%elem_of_nil]%elem_of_cons. repeat constructor.
Defined.
End InUseExamples.
