(* ===== verification/Conversation.v ===== *)
(** * Programs that talk over a connection

    The file transfer has two ends, a process on the host and the agent in the
    guest, each with a world of its own.  A [talk] is what one of them does: it
    reads and writes bytes on its connections, and between that it acts on its
    world.  [plays] says what one end does against any peer; [joint] puts two ends
    on one connection, a queue of bytes each way, and lets them take turns in any
    order.  The order does not matter: [joint_determined].  [meets] puts the
    traces of the two ends together.

    Loops that wait for the peer have fuel; [Stuck] is what they are without. *)

From Stdlib Require Import Ascii.
From stdpp Require Import base tactics relations list strings.
From S2P Require Import Prelude GoStrings Errs.
#[local] Open Scope string_scope.

Lemma stake_sapp n s t : (n <= String.length s)%nat → stake n (s ++ t) = stake n s.
Proof. revert s. induction n as [|n IH]; intros [|c s] Hn; simpl in *; try done; [lia|]. by rewrite IH by lia. Qed.

Lemma sdrop_sapp n s t : (n <= String.length s)%nat → sdrop n (s ++ t) = sdrop n s ++ t.
Proof. revert s. induction n as [|n IH]; intros [|c s] Hn; simpl in *; try done; [lia|]. by rewrite <- IH by lia. Qed.

Lemma stake_all n s : (String.length s <= n)%nat → stake n s = s.
Proof. revert s. induction n as [|n IH]; intros [|c s] Hn; simpl in *; try done; [lia|]. by rewrite IH by lia. Qed.

Lemma sdrop_all n s : (String.length s <= n)%nat → sdrop n s = "".
Proof. revert s. induction n as [|n IH]; intros [|c s] Hn; simpl in *; try done; [lia|]. apply IH. lia. Qed.

(** ** Programs *)

(** [C] names the connections.  [Crash] is a panic. *)
Inductive talk (C S A : Type) : Type :=
  | Done (a : A)
  | Crash
  | Stuck
  | Read (c : C) (n : nat) (k : result error string → talk C S A)
  | Write (c : C) (s : string) (k : result error unit → talk C S A)
  | Local (B : Type) (m : S → B * S) (k : B → talk C S A).
Arguments Done {C S A}.
Arguments Crash {C S A}.
Arguments Stuck {C S A}.
Arguments Read {C S A}.
Arguments Write {C S A}.
Arguments Local {C S A}.

Fixpoint tbind {C S A B} (p : talk C S A) (f : A → talk C S B) : talk C S B :=
  match p with
  | Done a => f a
  | Crash => Crash
  | Stuck => Stuck
  | Read c n k => Read c n (λ r, tbind (k r) f)
  | Write c s k => Write c s (λ r, tbind (k r) f)
  | Local X m k => Local X m (λ x, tbind (k x) f)
  end.

(** Programs that may return an error. *)
Definition speech (C S E A : Type) : Type := talk C S (result E A).

#[export] Instance speech_ret C S E : MRet (speech C S E) := λ A a, Done (Ok a).
#[export] Instance speech_bind C S E : MBind (speech C S E) :=
  λ A B f p, tbind p (λ r, match r with Ok a => f a | Err e => Done (Err e) end).

Section Speech.
Context {C S : Type}.

Definition refuse {E A} (e : E) : speech C S E A := Done (Err e).
(** Both results of a call. *)
Definition tried {E E' A} (p : speech C S E A) : speech C S E' (result E A) := tbind p (λ r, Done (Ok r)).
Definition failing {E E' A} (f : E → E') (p : speech C S E A) : speech C S E' A :=
  tbind p (λ r, Done (match r with Ok a => Ok a | Err e => Err (f e) end)).
(** Calls on the world of this end. *)
Definition locally {E A} (m : GoM S E A) : speech C S E A := Local _ m Done.
Definition acts {E A} (m : ST S A) : speech C S E A := Local _ m (λ a, Done (Ok a)).
Definition panic {E A} : speech C S E A := Crash.
Definition exhausted {E A} : speech C S E A := Stuck.
(** [io.ReadFull] on [n] bytes, and [Write]. *)
Definition readFull (c : C) (n : nat) : speech C S error string := Read c n Done.
Definition write (c : C) (s : string) : speech C S error unit := Write c s Done.
End Speech.

(** ** One end, against any peer *)

(** What happens on a connection, with the answer of the call. *)
Inductive event (C : Type) : Type :=
  | Heard (c : C) (n : nat) (r : result error string)
  | Said (c : C) (s : string) (r : result error unit).
Arguments Heard {C}.
Arguments Said {C}.

Section Plays.
Context {C S : Type}.
Implicit Types tr : list (event C).

(** [p] ends with [a]; reads that succeed have as many bytes as they ask for. *)
Fixpoint plays {A} (p : talk C S A) (w : S) tr (a : A) (w' : S) : Prop :=
  match p with
  | Done b => tr = [] ∧ a = b ∧ w' = w
  | Crash | Stuck => False
  | Read c n k => ∃ r tr', tr = Heard c n r :: tr' ∧ (∀ s, r = Ok s → String.length s = n) ∧ plays (k r) w tr' a w'
  | Write c s k => ∃ r tr', tr = Said c s r :: tr' ∧ plays (k r) w tr' a w'
  | Local X m k => plays (k (m w).1) (m w).2 tr a w'
  end.

Lemma plays_tbind {A B} (p : talk C S A) (f : A → talk C S B) w tr b w' :
  plays (tbind p f) w tr b w' ↔ ∃ a w1 tr1 tr2, tr = (tr1 ++ tr2)%list ∧ plays p w tr1 a w1 ∧ plays (f a) w1 tr2 b w'.
Proof.
  revert w tr. induction p as [a| | |c n k IH|c s k IH|X m k IH]; intros w tr; cbn [tbind plays].
  - split.
    + intros Hf. by exists a, w, [], tr.
    + by intros (? & ? & ? & ? & -> & (-> & -> & ->) & Hf).
  - split; [done|]. by intros (? & ? & ? & ? & _ & [] & _).
  - split; [done|]. by intros (? & ? & ? & ? & _ & [] & _).
  - split.
    + intros (r & t & -> & Hr & (a & w1 & t1 & t2 & -> & Hp & Hf)%IH). exists a, w1, (Heard c n r :: t1), t2.
      split; [done|]. split; [by exists r, t1|done].
    + intros (a & w1 & ? & t2 & -> & (r & t1 & -> & Hr & Hp) & Hf). exists r, (t1 ++ t2)%list.
      split; [done|]. split; [done|]. apply IH. by exists a, w1, t1, t2.
  - split.
    + intros (r & t & -> & (a & w1 & t1 & t2 & -> & Hp & Hf)%IH). exists a, w1, (Said c s r :: t1), t2.
      split; [done|]. split; [by exists r, t1|done].
    + intros (a & w1 & ? & t2 & -> & (r & t1 & -> & Hp) & Hf). exists r, (t1 ++ t2)%list.
      split; [done|]. apply IH. by exists a, w1, t1, t2.
  - apply IH.
Qed.

(** *** Rules for speeches *)
Section Rules.
Context {E : Type}.
#[local] Notation M := (speech C S E).

Lemma plays_ret {A} (a : A) w : plays (mret (M := M) a) w [] (Ok a) w.
Proof. done. Qed.

Lemma plays_bind {A B} (p : M A) (k : A → M B) w tr1 tr2 a w1 r w2 :
  plays p w tr1 (Ok a) w1 → plays (k a) w1 tr2 r w2 → plays (x ← p; k x) w (tr1 ++ tr2)%list r w2.
Proof. intros Hp Hk. apply plays_tbind. by exists (Ok a), w1, tr1, tr2. Qed.

Lemma plays_bind_err {A B} (p : M A) (k : A → M B) w tr e w1 :
  plays p w tr (Err e) w1 → plays (x ← p; k x) w tr (Err e) w1.
Proof. intros Hp. apply plays_tbind. exists (Err e), w1, tr, []. by rewrite app_nil_r. Qed.

Lemma plays_bind_inv {A B} (p : M A) (k : A → M B) w tr r w2 :
  plays (x ← p; k x) w tr r w2 →
  (∃ a w1 tr1 tr2, tr = (tr1 ++ tr2)%list ∧ plays p w tr1 (Ok a) w1 ∧ plays (k a) w1 tr2 r w2) ∨
  (∃ e, r = Err e ∧ plays p w tr (Err e) w2).
Proof.
  intros ([a|e] & w1 & tr1 & tr2 & -> & Hp & Hk)%plays_tbind; [left; by exists a, w1, tr1, tr2|right].
  destruct Hk as (-> & -> & ->). exists e. by rewrite app_nil_r.
Qed.

Lemma plays_locally {A} (m : GoM S E A) w : plays (locally (C := C) m) w [] (m w).1 (m w).2.
Proof. done. Qed.

Lemma plays_acts {A} (m : ST S A) w : plays (acts (C := C) (E := E) m) w [] (Ok (m w).1) (m w).2.
Proof. done. Qed.

Lemma plays_tried {E' A} (p : speech C S E' A) w tr r w' : plays p w tr r w' → plays (tried (E' := E) p) w tr (Ok r) w'.
Proof. intros Hp. apply plays_tbind. exists r, w', tr, []. by rewrite app_nil_r. Qed.

Lemma plays_failing {E' A} (f : E' → E) (p : speech C S E' A) w tr a w' :
  plays p w tr (Ok a) w' → plays (failing f p) w tr (Ok a) w'.
Proof. intros Hp. apply plays_tbind. exists (Ok a), w', tr, []. by rewrite app_nil_r. Qed.

Lemma plays_tried_inv {E' A} (p : speech C S E' A) w tr r w' :
  plays (tried (E' := E) p) w tr r w' → ∃ r', r = Ok r' ∧ plays p w tr r' w'.
Proof. intros (r' & w1 & tr1 & tr2 & -> & Hp & -> & -> & ->)%plays_tbind. exists r'. by rewrite app_nil_r. Qed.

Lemma plays_failing_inv {E' A} (f : E' → E) (p : speech C S E' A) w tr r w' :
  plays (failing f p) w tr r w' → ∃ r', r = (match r' with Ok a => Ok a | Err e => Err (f e) end) ∧ plays p w tr r' w'.
Proof. intros (r' & w1 & tr1 & tr2 & -> & Hp & -> & -> & ->)%plays_tbind. exists r'. by rewrite app_nil_r. Qed.
End Rules.
End Plays.

(** ** Two ends of a connection *)

(** What a read answers when the peer is gone. *)
Definition eof (inbox : string) : error := Errorf (if decide (inbox = "") then "EOF" else "unexpected EOF") None.

Definition over {C S A} (p : talk C S A) : bool := match p with Done _ | Crash => true | _ => false end.

(** One step of an end, from the bytes that are there for it and whether the peer
    is gone; with what it writes.  A write to a peer that is gone succeeds: it
    stays in the queue. *)
Definition advance {S A} (gone : bool) (inbox : string) (p : talk unit S A) (w : S) : option (talk unit S A * S * string * string) :=
  match p with
  | Done _ | Crash | Stuck => None
  | Read _ n k =>
      if (n <=? String.length inbox)%nat then Some (k (Ok (stake n inbox)), w, sdrop n inbox, "")
      else if gone then Some (k (Err (eof inbox)), w, "", "") else None
  | Write _ s k => Some (k (Ok ()), w, inbox, s)
  | Local X m k => Some (k (m w).1, (m w).2, inbox, "")
  end.

Record link (S1 S2 A B : Type) := Link {
  lk_left : talk unit S1 A;
  lk_lworld : S1;
  lk_right : talk unit S2 B;
  lk_rworld : S2;
  lk_toRight : string;
  lk_toLeft : string;
}.
Arguments Link {S1 S2 A B}.
Arguments lk_left {S1 S2 A B}.
Arguments lk_lworld {S1 S2 A B}.
Arguments lk_right {S1 S2 A B}.
Arguments lk_rworld {S1 S2 A B}.
Arguments lk_toRight {S1 S2 A B}.
Arguments lk_toLeft {S1 S2 A B}.

Section Joint.
Context {S1 S2 A B : Type}.
Implicit Types c d : link S1 S2 A B.

Definition stepLeft c : option (link S1 S2 A B) :=
  '(p, w, inbox, said) ← advance (over (lk_right c)) (lk_toLeft c) (lk_left c) (lk_lworld c);
  Some (Link p w (lk_right c) (lk_rworld c) (lk_toRight c ++ said) inbox).
Definition stepRight c : option (link S1 S2 A B) :=
  '(p, w, inbox, said) ← advance (over (lk_left c)) (lk_toRight c) (lk_right c) (lk_rworld c);
  Some (Link (lk_left c) (lk_lworld c) p w inbox (lk_toLeft c ++ said)).

Definition joint c d : Prop := stepLeft c = Some d ∨ stepRight c = Some d.

(** Bytes that come later do not change a step. *)
Lemma advance_later {S' A'} (p : talk unit S' A') w gone inbox p' w' rest said more :
  advance false inbox p w = Some (p', w', rest, said) → advance gone (inbox ++ more) p w = Some (p', w', rest ++ more, said).
Proof.
  destruct p as [a| | |u n k|u s k|X m k]; try done; cbn [advance]; [|by intros [= <- <- <- <-]..].
  destruct (Nat.leb_spec n (String.length inbox)) as [Hn|]; [|done]. intros [= <- <- <- <-].
  rewrite length_sapp. destruct (Nat.leb_spec n (String.length inbox + String.length more)) as [_|]; [|lia].
  by rewrite stake_sapp, sdrop_sapp.
Qed.

Lemma advance_over {S' A'} (p : talk unit S' A') w gone inbox x : advance gone inbox p w = Some x → over p = false.
Proof. by destruct p. Qed.

Lemma joint_diamond c d e : stepLeft c = Some d → stepRight c = Some e → ∃ f, stepRight d = Some f ∧ stepLeft e = Some f.
Proof.
  destruct c as [p w q v out back]. unfold stepLeft, stepRight. cbn [lk_left lk_lworld lk_right lk_rworld lk_toRight lk_toLeft].
  destruct (advance (over q) back p w) as [[[[p' w'] back'] said]|] eqn:Ep; [|done]. intros [= <-].
  destruct (advance (over p) out q v) as [[[[q' v'] out'] said']|] eqn:Eq; [|done]. intros [= <-].
  cbn [lk_left lk_lworld lk_right lk_rworld lk_toRight lk_toLeft].
  pose proof (advance_over _ _ _ _ _ Ep) as Op. pose proof (advance_over _ _ _ _ _ Eq) as Oq. rewrite Op in Eq. rewrite Oq in Ep.
  apply (advance_later _ _ (over p') _ _ _ _ _ said) in Eq. apply (advance_later _ _ (over q') _ _ _ _ _ said') in Ep.
  rewrite Ep, Eq. by eexists.
Qed.

(** One order: the left end as long as it can. *)
Fixpoint runJoint (n : nat) c : link S1 S2 A B :=
  match n with
  | O => c
  | S n =>
      match stepLeft c with
      | Some d => runJoint n d
      | None => match stepRight c with Some d => runJoint n d | None => c end
      end
  end.

Lemma runJoint_rtc n c : rtc joint c (runJoint n c).
Proof.
  revert c. induction n as [|n IH]; intros c; cbn [runJoint]; [done|]. destruct (stepLeft c) as [d|] eqn:El.
  - eapply rtc_l; [by left|apply IH].
  - destruct (stepRight c) as [d|] eqn:Er; [|done]. eapply rtc_l; [by right|apply IH].
Qed.

(** All runs to the end are equally long, and end the same. *)
Lemma joint_determined n c d : nsteps joint n c d → (∀ e, ¬ joint d e) →
  ∀ m e, nsteps joint m c e → (m <= n)%nat ∧ nsteps joint (n - m) e d.
Proof.
  intros Hn Hd.
  assert (∀ n c, nsteps joint n c d → ∀ c', joint c c' → ∃ n', n = S n' ∧ nsteps joint n' c' d) as Hone.
  { clear n c Hn. induction n as [|n IH]; intros c Hn c' Hc; inversion Hn as [|? ? c1 ? H1 Hrest]; subst; [by destruct (Hd c')|]. exists n. split; [done|].
    assert (c1 = c' ∨ ∃ f, joint c1 f ∧ joint c' f) as [->|(f & Hf1 & Hf)].
    { unfold joint in *. destruct H1 as [E1|E1], Hc as [E2|E2]; [left; congruence|right|right|left; congruence].
      - destruct (joint_diamond c c1 c' E1 E2) as (f & F1 & F2). exists f. auto.
      - destruct (joint_diamond c c' c1 E2 E1) as (f & F1 & F2). exists f. auto. }
    - done.
    - destruct (IH c1 Hrest f Hf1) as (n' & -> & Hn'). by eapply nsteps_l. }
  intros m e Hm. revert n Hn. induction Hm as [x|m x y z Hxy Hyz IH]; intros n Hn; [split; [lia|by rewrite Nat.sub_0_r]|].
  destruct (Hone n x Hn y Hxy) as (n' & -> & Hn'). destruct (IH n' Hn') as [Hle Hr]. split; [lia|done].
Qed.
End Joint.

(** ** Traces that meet *)

(** The traces of the two ends, from the bytes that are on the way to the right
    and to the left; [out'] and [back'] are never read. *)
Section Meets.
Context (out' back' : string).
Inductive meets : list (event unit) → list (event unit) → string → string → Prop :=
  | meets_end : meets [] [] out' back'
  | meets_saidL s tr1 tr2 out back : meets tr1 tr2 (out ++ s) back → meets (Said () s (Ok ()) :: tr1) tr2 out back
  | meets_saidR s tr1 tr2 out back : meets tr1 tr2 out (back ++ s) → meets tr1 (Said () s (Ok ()) :: tr2) out back
  | meets_heardL s tr1 tr2 out back : meets tr1 tr2 out back → meets (Heard () (String.length s) (Ok s) :: tr1) tr2 out (s ++ back)
  | meets_heardR s tr1 tr2 out back : meets tr1 tr2 out back → meets tr1 (Heard () (String.length s) (Ok s) :: tr2) (s ++ out) back.

End Meets.

Section Completes.
Context {S1 S2 A B : Type}.
#[local] Notation joint := (joint (S1 := S1) (S2 := S2) (A := A) (B := B)).

(** The next event of a program, after what it does on its world. *)
Definition upNext {S X} (p : talk unit S X) (w : S) (tr : list (event unit)) (a : X) (w' : S) : Prop :=
  match tr with
  | [] => p = Done a ∧ w = w'
  | Heard _ n r :: tr => ∃ k, p = Read () n k ∧ plays (k r) w tr a w'
  | Said _ s r :: tr => ∃ k, p = Write () s k ∧ plays (k r) w tr a w'
  end.

Lemma left_upNext (p : talk unit S1 A) w tr a w' q (v : S2) out back : plays p w tr a w' →
  ∃ p1 w1, rtc joint (Link p w q v out back) (Link p1 w1 q v out back) ∧ upNext p1 w1 tr a w'.
Proof.
  revert w. induction p as [b| | |[] n k _|[] s k _|X m k IH]; intros w Hp; cbn [plays] in Hp; try done.
  - destruct Hp as (-> & -> & ->). by exists (Done b), w.
  - destruct Hp as (r & tr' & -> & _ & Hp). exists (Read () n k), w. split; [done|]. by exists k.
  - destruct Hp as (r & tr' & -> & Hp). exists (Write () s k), w. split; [done|]. by exists k.
  - destruct (IH _ _ Hp) as (p1 & w1 & Hr & Hn). exists p1, w1. split; [|done]. eapply rtc_l; [|exact Hr].
    left. unfold stepLeft. cbn. by rewrite sapp_nil_r.
Qed.

Lemma right_upNext (q : talk unit S2 B) v tr b v' p (w : S1) out back : plays q v tr b v' →
  ∃ q1 v1, rtc joint (Link p w q v out back) (Link p w q1 v1 out back) ∧ upNext q1 v1 tr b v'.
Proof.
  revert v. induction q as [a| | |[] n k _|[] s k _|X m k IH]; intros v Hq; cbn [plays] in Hq; try done.
  - destruct Hq as (-> & -> & ->). by exists (Done a), v.
  - destruct Hq as (r & tr' & -> & _ & Hq). exists (Read () n k), v. split; [done|]. by exists k.
  - destruct Hq as (r & tr' & -> & Hq). exists (Write () s k), v. split; [done|]. by exists k.
  - destruct (IH _ _ Hq) as (q1 & v1 & Hr & Hn). exists q1, v1. split; [|done]. eapply rtc_l; [|exact Hr].
    right. unfold stepRight. cbn. by rewrite sapp_nil_r.
Qed.

Lemma advance_read {S X} n (k : result error string → talk unit S X) w gone s inbox :
  n = String.length s → advance gone (s ++ inbox) (Read () n k) w = Some (k (Ok s), w, inbox, "").
Proof.
  intros ->. cbn [advance]. rewrite length_sapp. destruct (Nat.leb_spec (String.length s) (String.length s + String.length inbox)) as [_|]; [|lia].
  by rewrite stake_sapp, sdrop_sapp, stake_all, sdrop_all by lia.
Qed.

Lemma meets_completes out' back' tr1 tr2 out back : meets out' back' tr1 tr2 out back →
  ∀ p w q v a w' b v', plays p w tr1 a w' → plays q v tr2 b v' →
  rtc joint (Link p w q v out back) (Link (Done a) w' (Done b) v' out' back').
Proof.
  induction 1 as [|s tr1 tr2 out back _ IH|s tr1 tr2 out back _ IH|s tr1 tr2 out back _ IH|s tr1 tr2 out back _ IH];
    intros p w q v a w' b v' Hp Hq.
  - destruct (left_upNext p w _ a w' q v out' back' Hp) as (p1 & w1 & Hr & -> & ->).
    destruct (right_upNext q v _ b v' (Done a) w' out' back' Hq) as (q1 & v1 & Hr' & -> & ->). by etrans.
  - destruct (left_upNext p w _ a w' q v out back Hp) as (p1 & w1 & Hr & k & -> & Hk).
    pose proof (IH (k (Ok ())) w1 q v a w' b v' Hk Hq) as Hr'. etrans; [exact Hr|].
    eapply rtc_l; [|exact Hr']. left. by unfold stepLeft.
  - destruct (right_upNext q v _ b v' p w out back Hq) as (q1 & v1 & Hr & k & -> & Hk).
    pose proof (IH p w (k (Ok ())) v1 a w' b v' Hp Hk) as Hr'. etrans; [exact Hr|].
    eapply rtc_l; [|exact Hr']. right. by unfold stepRight.
  - destruct (left_upNext p w _ a w' q v out (s ++ back) Hp) as (p1 & w1 & Hr & k & -> & Hk).
    pose proof (IH (k (Ok s)) w1 q v a w' b v' Hk Hq) as Hr'. etrans; [exact Hr|].
    eapply rtc_l; [|exact Hr']. left. unfold stepLeft. cbn [lk_left lk_lworld lk_right lk_rworld lk_toRight lk_toLeft].
    rewrite advance_read by done. cbn. by rewrite sapp_nil_r.
  - destruct (right_upNext q v _ b v' p w (s ++ out) back Hq) as (q1 & v1 & Hr & k & -> & Hk).
    pose proof (IH p w (k (Ok s)) v1 a w' b v' Hp Hk) as Hr'. etrans; [exact Hr|].
    eapply rtc_l; [|exact Hr']. right. unfold stepRight. cbn [lk_left lk_lworld lk_right lk_rworld lk_toRight lk_toLeft].
    rewrite advance_read by done. cbn. by rewrite sapp_nil_r.
Qed.

(** Whatever the turns, a run has at most [n] steps, and from wherever it is the
    rest of it leads to [d], which is the end. *)
Definition settles (c d : link S1 S2 A B) : Prop :=
  (∀ e, ¬ joint d e) ∧ ∃ n, ∀ m e, nsteps joint m c e → (m <= n)%nat ∧ rtc joint e d.

Lemma meets_settles out' back' tr1 tr2 p w q v a w' b v' : meets out' back' tr1 tr2 "" "" → plays p w tr1 a w' → plays q v tr2 b v' →
  settles (Link p w q v "" "") (Link (Done a) w' (Done b) v' out' back').
Proof.
  intros Hm Hp Hq. pose proof (meets_completes _ _ _ _ _ _ Hm p w q v a w' b v' Hp Hq) as Hr.
  assert (∀ e, ¬ joint (Link (Done a) w' (Done b) v' out' back') e) as Hend by (by intros e [He|He]). split; [done|].
  apply rtc_nsteps in Hr as (n & Hn). exists n. intros m e Hme.
  destruct (joint_determined n _ _ Hn Hend m e Hme) as [Hle Hrest]. split; [done|]. apply rtc_nsteps. by eexists.
Qed.
End Completes.
