(* ===== verification/FileTransfer.v ===== *)
(** * File transfer: [internal/service/agent/file_transfer.go], [internal/core/vsock/file_transfer.go]

    Both ends of the copy of files between the host and a guest, and between two
    guests by way of the host, as programs that talk over the connection
    ([Conversation]): the binary frames, the agent's handlers of a push and of a
    pull, and the three methods of the host's client.  JSON payloads are texts of
    a class; the file system of an end is a class too. *)

From Stdlib Require Import Ascii.
From stdpp Require Import base gmap list strings.
From S2P Require Import Prelude GoStrings Errs Version Files Archive Conversation.
#[local] Open Scope string_scope.

(** ** Binary frames *)

Definition FtPush : ascii := ascii_of_nat 16.
Definition FtPull : ascii := ascii_of_nat 17.
Definition FtMeta : ascii := ascii_of_nat 32.
Definition FtData : ascii := ascii_of_nat 33.
Definition FtOK : ascii := ascii_of_nat 34.
Definition FtMkdir : ascii := ascii_of_nat 48.
Definition FtError : ascii := ascii_of_nat 64.
Definition FtProgress : ascii := ascii_of_nat 80.
Definition FtDone : ascii := ascii_of_nat 96.

(** [%02x]. *)
Definition hexByte (c : ascii) : string :=
  let n := nat_of_ascii c in String (hexDigit (n / 16)) (String (hexDigit (n mod 16)) "").

(** [binary.BigEndian.PutUint32], and [binary.Read] into an [uint32]. *)
Definition bigEndian32 (z : Z) : string :=
  let digit k := ascii_of_nat (Z.to_nat (Z.land (Z.shiftr z k) 255)) in
  String (digit 24%Z) (String (digit 16%Z) (String (digit 8%Z) (String (digit 0%Z) ""))).
Fixpoint fromBigEndian (acc : Z) (s : string) : Z :=
  match s with
  | "" => acc
  | String c s => fromBigEndian (Z.lor (Z.shiftl acc 8) (Z.of_nat (nat_of_ascii c))) s
  end.

Definition len (s : string) : Z := Z.of_nat (String.length s).

(** The header of a frame: the length of its type and payload. *)
Definition header (payload : string) : string := bigEndian32 (uint32 (len payload + 1)).

Section Frames.
Context {C S : Type}.

(** A frame without a type is an index out of range. *)
Definition ReadFTFrame (r : C) : speech C S error (ascii * string) :=
  length ← failing (wrapf "read frame length") (readFull r 4);
  buf ← failing (wrapf "read frame body") (readFull r (Z.to_nat (fromBigEndian 0 length)));
  match buf with
  | "" => panic
  | String frameType payload => mret (frameType, payload)
  end.

Definition WriteFTFrame (w : C) (frameType : ascii) (payload : string) : speech C S error unit :=
  _ ← failing (wrapf "write frame header") (write w (header payload));
  _ ← failing (wrapf "write frame type") (write w (String frameType ""));
  if (0 <? len payload)%Z then failing (wrapf "write frame payload") (write w payload) else mret ().
End Frames.

(** ** Payloads *)

Record FtPushPayload := FtPushPayload_ {
  push_Paths : list string;
  push_Dest : string;
  push_Overwrite : bool;
  push_NoSync : bool;
}.
Record FtPullPayload := FtPullPayload_ {
  pull_Path : string;
  pull_Dest : string;
  pull_Overwrite : bool;
  pull_Recursive : bool;
}.
Record FtMetaPayload := FtMetaPayload_ {
  meta_Path : string;
  meta_Size : Z;
  meta_Mode : Z;
  meta_SHA256 : string;
  meta_Accepted : bool;
}.
Record FtProgressPayload := FtProgressPayload_ {
  prog_Path : string;
  prog_Bytes : Z;
  prog_Total : Z;
}.
Record FtErrorPayload := FtErrorPayload_ {
  fte_Code : string;
  fte_Message : string;
}.
Record FtDonePayload := FtDonePayload_ {
  done_Files : Z;
  done_Bytes : Z;
  done_Errors : Z;
}.
(** [map[string]string] with one key, ["path"]. *)
Record MkdirPayload := MkdirPayload_ { mkdir_Path : string }.

(** [json.Marshal] and [json.Unmarshal]. *)
Class Json (A : Type) := {
  marshal : A → string;
  unmarshal : string → result error A;
}.

(** [FtMetaPayload{Accepted: true}]. *)
Definition accepted : FtMetaPayload := FtMetaPayload_ "" 0 0 "" true.

(** ** The file system of an end *)

Inductive fileKind := Regular | Directory | SymbolicLink | Special.
#[export] Instance fileKind_eq_dec : EqDecision fileKind.
Proof. solve_decision. Defined.

Record FileInfo := FileInfo_ { fi_Kind : fileKind; fi_Size : Z; fi_Perm : Z }.
Definition IsDir (fi : FileInfo) : bool := bool_decide (fi_Kind fi = Directory).
Definition IsRegular (fi : FileInfo) : bool := bool_decide (fi_Kind fi = Regular).

(** The error of a [Read]. *)
Inductive readEnd := More | AtEnd | Broken (err : error).

Class Disks (W : Type) := {
  Lstat : string → GoM W error FileInfo;
  StatInfo : string → GoM W error FileInfo;
  RealPath : string → GoM W error string;
  OpenDir : string → GoM W error unit;
  Readdirnames : string → GoM W error (list string);
  OpenRead : string → GoM W error Z;
  (** [io.Copy] into a hash *)
  ReadAll : Z → GoM W error string;
  (** at most so many bytes *)
  ReadChunk : Z → Z → ST W (string * readEnd);
  (** [O_WRONLY|O_TRUNC], and with [O_CREATE] and a mode *)
  OpenTrunc : string → GoM W error Z;
  OpenCreate : string → Z → GoM W error Z;
  WriteChunk : Z → string → GoM W error unit;
  SyncFd : Z → GoM W error unit;
  CloseFd : Z → ST W unit;
  (** [unix.Sync] *)
  SyncAll : ST W unit;
  (** [ctx.Err()] *)
  CtxErr : ST W (option error);
}.

Definition ftBufferSize : Z := 262144.

(** ** [filepath.Rel] *)

Definition relElements (path : string) : list string :=
  if decide (path = ".") then [] else if decide (path = "/") then [""] else Split path slash.

Fixpoint relFrom (refused : error) (base targ : list string) : result error string :=
  match base, targ with
  | [], _ => Ok (Join targ "/")
  | _, [] => Ok (Join ((λ _, "..") <$> base) "/")
  | b :: base', t :: targ' =>
      if decide (b = t) then relFrom refused base' targ'
      else if decide (b = "..") then Err refused
      else Ok (Join ((λ _, "..") <$> base) "/" ++ "/" ++ Join targ "/")
  end.

Definition Rel (basepath targpath : string) : result error string :=
  let base := Clean basepath in
  let targ := Clean targpath in
  let refused := Errorf ("Rel: can't make " ++ targpath ++ " relative to " ++ basepath) None in
  if decide (targ = base) then Ok "."
  else if decide (rooted base ≠ rooted targ) then Err refused
  else relFrom refused (relElements base) (relElements targ).

(** ** The agent *)
Section Agent.
Context {W : Type} `{Files W} `{Disks W}.
Context `{Json FtPushPayload} `{Json FtPullPayload} `{Json FtMetaPayload} `{Json FtProgressPayload} `{Json FtErrorPayload}
  `{Json FtDonePayload} `{Json MkdirPayload}.
(** [sha256] in hexadecimal. *)
Context (sha256Hex : string → string).
(** The handlers return nothing; an early return out of a loop is the error. *)
#[local] Notation M := (speech unit W unit).
#[local] Notation conn := ().

(** [return] on an error. *)
Definition must {A} (p : speech unit W error A) : M A := failing (λ _, ()) p.
Definition leave {A} : M A := refuse ().
(** A call whose error is looked at. *)
Definition outcome {A} (m : GoM W error A) : M (result error A) := acts (attempt m).
(** [defer f.Close()]. *)
Definition thenClose {A} (f : Z) (p : M A) : M A :=
  tbind p (λ r, _ ← acts (CloseFd f); Done (A := result unit A) r).
Definition cancelled : M bool := err ← acts CtxErr; mret (bool_decide (err ≠ None)).

(** An error frame, whatever becomes of it. *)
Definition sayError (code msg : string) : M unit :=
  _ ← tried (WriteFTFrame conn FtError (marshal (FtErrorPayload_ code msg))); mret ().

(** *** Push *)

(** Not [O_CREATE] first: the kernel refuses it for the files of others in sticky
    directories. *)
Definition openDest (destPath : string) (mode : Z) : GoM W error Z := λ w,
  match OpenTrunc destPath w with
  | (Err err, w) => if IsNotExist (W := W) err then OpenCreate destPath mode w else (Err err, w)
  | r => r
  end.

(** The end of a file: whether it is kept. *)
Definition finishFile (meta : FtMetaPayload) (destPath : string) (f : Z) (data : string) : M (bool * Z) :=
  let hashHex := sha256Hex data in
  if decide (meta_SHA256 meta ≠ "" ∧ hashHex ≠ meta_SHA256 meta) then
    _ ← acts (CloseFd f);
    _ ← outcome (RemoveFile destPath);
    _ ← sayError "hash_mismatch" ("SHA-256 mismatch for " ++ destPath);
    mret (false, len data)
  else
    said ← tried (WriteFTFrame conn FtOK (marshal (FtMetaPayload_ (meta_Path meta) (len data) 0 hashHex false)));
    match said with
    | Err _ => _ ← acts (CloseFd f); leave
    | Ok _ =>
        synced ← outcome (SyncFd f);
        _ ← acts (CloseFd f);
        match synced with Err _ => leave | Ok _ => mret (true, len data) end
    end.

(** The frames of one file; [data] is what was written so far. *)
Fixpoint dataLoop (fuel : nat) (meta : FtMetaPayload) (destPath : string) (f : Z) (data : string) : M (bool * Z) :=
  match fuel with
  | O => exhausted
  | S fuel =>
      frame ← tried (ReadFTFrame conn);
      match frame with
      | Err _ => _ ← acts (CloseFd f); leave
      | Ok (frameType, chunk) =>
          if decide (frameType = FtData) then
            if decide (chunk = "") then finishFile meta destPath f data
            else
              written ← outcome (WriteChunk f chunk);
              match written with
              | Err _ => _ ← acts (CloseFd f); leave
              | Ok _ => dataLoop fuel meta destPath f (data ++ chunk)
              end
          else if decide (frameType = FtProgress) then dataLoop fuel meta destPath f data
          else if decide (frameType = FtError) then _ ← acts (CloseFd f); mret (false, len data)
          else _ ← acts (CloseFd f); leave
      end
  end.

(** A file that was announced: whether it was received, and the bytes it took. *)
Definition receiveFile (fuel : nat) (overwrite : bool) (meta : FtMetaPayload) (destPath : string) : M (bool * Z) :=
  found ← (if overwrite then mret false else st ← outcome (StatInfo destPath); mret (is_Ok st));
  if found : bool then _ ← sayError "exists" ("file exists: " ++ destPath); mret (false, 0%Z)
  else
    made ← outcome (MkdirAll (Dir destPath));
    match made with
    | Err err => _ ← sayError "mkdir_failed" (Error err); mret (false, 0%Z)
    | Ok _ =>
        opened ← outcome (openDest destPath (meta_Mode meta));
        match opened with
        | Err err => _ ← sayError "create_failed" (Error err); mret (false, 0%Z)
        | Ok f =>
            said ← tried (WriteFTFrame conn FtMeta (marshal accepted));
            match said with
            | Err _ => _ ← acts (CloseFd f); leave
            | Ok _ => dataLoop fuel meta destPath f ""
            end
        end
    end.

Record totals := Totals { tt_Files : Z; tt_Bytes : Z; tt_Errors : Z }.
Definition noTotals : totals := Totals 0 0 0.
Definition addFile (bytes : Z) (t : totals) : totals := Totals (tt_Files t + 1) (tt_Bytes t + bytes) (tt_Errors t).
Definition addError (bytes : Z) (t : totals) : totals := Totals (tt_Files t) (tt_Bytes t + bytes) (tt_Errors t + 1).
Definition addResult (r : bool * Z) (t : totals) : totals := if r.1 then addFile r.2 t else addError r.2 t.
Definition donePayload (t : totals) : FtDonePayload := FtDonePayload_ (tt_Files t) (tt_Bytes t) (tt_Errors t).

Fixpoint pushLoop (fuel : nat) (push : FtPushPayload) (dest : string) (destIsDir : bool) (t : totals) : M totals :=
  match fuel with
  | O => exhausted
  | S fuel =>
      stop ← cancelled;
      if stop : bool then leave
      else
        '(frameType, payload) ← must (ReadFTFrame conn);
        if decide (frameType = FtDone) then mret t
        else if decide (frameType = FtError) then pushLoop fuel push dest destIsDir (addError 0 t)
        else if decide (frameType ≠ FtMeta) then leave
        else
          match unmarshal payload with
          | Err _ => leave
          | Ok meta =>
              let destPath := if destIsDir then Path_Join [dest; meta_Path meta] else dest in
              r ← receiveFile fuel (push_Overwrite push) meta destPath;
              pushLoop fuel push dest destIsDir (addResult r t)
          end
  end.

Definition handleFTPush (fuel : nat) (pushPayload : string) : M unit :=
  match unmarshal (A := FtPushPayload) pushPayload with
  | Err _ => sayError "invalid" "invalid push payload"
  | Ok push =>
      let dest := TrimSuffix (push_Dest push) "/" in
      destIsDir ← (if HasSuffix (push_Dest push) "/" then mret true
                   else st ← outcome (StatInfo dest); mret (match st with Ok fi => IsDir fi | Err _ => false end));
      if negb destIsDir && (1 <? length (push_Paths push))%nat then
        sayError "not_a_directory" ("'" ++ push_Dest push ++ "' is not a directory")
      else
        let fileLoopDir := if destIsDir : bool then dest else Dir dest in
        made ← outcome (MkdirAll fileLoopDir);
        match made with
        | Err err => sayError "mkdir_failed" (Error err)
        | Ok _ =>
            _ ← must (WriteFTFrame conn FtMkdir (marshal (MkdirPayload_ fileLoopDir)));
            t ← pushLoop fuel push dest destIsDir noTotals;
            _ ← (if push_NoSync push then mret () else acts SyncAll);
            must (WriteFTFrame conn FtDone (marshal (donePayload t)))
        end
  end.

(** *** Pull *)

(** The content of a file in frames; [None] when the connection is lost, with
    whether the file could be read to its end otherwise. *)
Fixpoint sendData (fuel : nat) (f : Z) (name : string) (size sent : Z) : M (option (Z * bool)) :=
  match fuel with
  | O => exhausted
  | S fuel =>
      '(data, ending) ← acts (ReadChunk f ftBufferSize);
      said ← (if decide (data = "") then mret (Ok ())
              else
                r ← tried (WriteFTFrame conn FtData data);
                match r with
                | Err err => mret (Err err)
                | Ok _ => tried (WriteFTFrame conn FtProgress (marshal (FtProgressPayload_ name (sent + len data) size)))
                end);
      match said with
      | Err _ => mret None
      | Ok _ =>
          match ending with
          | More => sendData fuel f name size (sent + len data)%Z
          | AtEnd => mret (Some ((sent + len data)%Z, true))
          | Broken _ => mret (Some ((sent + len data)%Z, false))
          end
      end
  end.

(** The same for a pull of one file, which can be cancelled. *)
Fixpoint streamFile (fuel : nat) (f : Z) (name : string) (size sent : Z) : M Z :=
  match fuel with
  | O => exhausted
  | S fuel =>
      stop ← cancelled;
      if stop : bool then leave
      else
        '(data, ending) ← acts (ReadChunk f ftBufferSize);
        _ ← (if decide (data = "") then mret ()
             else
               _ ← must (WriteFTFrame conn FtData data);
               must (WriteFTFrame conn FtProgress (marshal (FtProgressPayload_ name (sent + len data) size))));
        match ending with
        | More => streamFile fuel f name size (sent + len data)%Z
        | AtEnd => mret (sent + len data)%Z
        | Broken _ => leave
        end
  end.

Definition hashRefused (payload hashHex : string) : bool :=
  match unmarshal (A := FtMetaPayload) payload with
  | Ok m => bool_decide (meta_SHA256 m ≠ "" ∧ meta_SHA256 m ≠ hashHex)
  | Err _ => false
  end.

Definition pullFile (fuel : nat) (path : string) (fi : FileInfo) : M unit :=
  let baseName := Base path in
  opened ← outcome (OpenRead path);
  match opened with
  | Err err => sayError "open_failed" (Error err)
  | Ok hashFile =>
      content ← outcome (ReadAll hashFile);
      _ ← acts (CloseFd hashFile);
      match content with
      | Err _ => leave
      | Ok content =>
          let hashHex := sha256Hex content in
          _ ← must (WriteFTFrame conn FtMeta (marshal (FtMetaPayload_ baseName (fi_Size fi) (fi_Perm fi) hashHex false)));
          '(frameType, _) ← must (ReadFTFrame conn);
          if decide (frameType ≠ FtMeta) then leave
          else
            f ← must (locally (OpenRead path));
            thenClose f (
              sent ← streamFile fuel f baseName (fi_Size fi) 0;
              _ ← must (WriteFTFrame conn FtData "");
              '(frameType, okPayload) ← must (ReadFTFrame conn);
              if decide (frameType ≠ FtOK) then leave
              else if hashRefused okPayload hashHex then leave
              else must (WriteFTFrame conn FtDone (marshal (FtDonePayload_ 1 sent 0))))
      end
  end.

(** The content of a file the host accepted. *)
Definition streamOne (fuel : nat) (path relPath : string) (fi : FileInfo) (hashHex : string) (t : totals) : M (bool * totals) :=
  opened ← outcome (OpenRead path);
  match opened with
  | Err _ => mret (true, addError 0 t)
  | Ok f =>
      sent ← sendData fuel f relPath (fi_Size fi) 0;
      _ ← acts (CloseFd f);
      match sent with
      | None => mret (false, t)
      | Some (sent, whole) =>
          let t := if whole : bool then t else addError 0 t in
          said ← tried (WriteFTFrame conn FtData "");
          match said with
          | Err _ => mret (false, t)
          | Ok _ =>
              answer ← tried (ReadFTFrame conn);
              match answer with
              | Err _ => mret (false, t)
              | Ok (frameType, okPayload) =>
                  if decide (frameType = FtError) then mret (true, addError 0 t)
                  else if decide (frameType ≠ FtOK) then mret (false, t)
                  else if hashRefused okPayload hashHex then mret (true, addError 0 t)
                  else mret (true, addFile sent t)
              end
          end
      end
  end.

(** One file of a directory.  The answer is whether to go on in its directory. *)
Definition pullOne (fuel : nat) (srcDir path : string) (t : totals) : M (bool * totals) :=
  let failed := (true, addError 0 t) in
  match Rel srcDir path with
  | Err _ => mret failed
  | Ok relPath =>
      st ← outcome (StatInfo path);
      match st with
      | Err _ => mret failed
      | Ok fi =>
          opened ← outcome (OpenRead path);
          match opened with
          | Err _ => mret failed
          | Ok hashFile =>
              content ← outcome (ReadAll hashFile);
              _ ← acts (CloseFd hashFile);
              match content with
              | Err _ => mret failed
              | Ok content =>
                  let hashHex := sha256Hex content in
                  said ← tried (WriteFTFrame conn FtMeta (marshal (FtMetaPayload_ relPath (fi_Size fi) (fi_Perm fi) hashHex false)));
                  match said with
                  | Err _ => mret (false, t)
                  | Ok _ =>
                      accept ← tried (ReadFTFrame conn);
                      match accept with
                      | Err _ => mret (false, t)
                      | Ok (frameType, _) =>
                          if decide (frameType = FtError) then mret failed
                          else if decide (frameType ≠ FtMeta) then mret (false, t)
                          else streamOne fuel path relPath fi hashHex t
                      end
                  end
              end
          end
      end
  end.
(** The entries of a directory; [recur] walks another one. *)
Fixpoint walkNames (recur : string → totals → M totals) (fuel : nat) (srcDir dir : string) (names : list string) (t : totals) : M totals :=
  match names with
  | [] => mret t
  | name :: rest =>
      let path := Path_Join [dir; name] in
      let next t := walkNames recur fuel srcDir dir rest t in
      let file :=
        stop ← cancelled;
        if stop : bool then mret t
        else '(more, t) ← pullOne fuel srcDir path t; if more : bool then next t else mret t in
      l ← outcome (Lstat path);
      match l with
      | Err _ => next t
      | Ok lfi =>
          match fi_Kind lfi with
          | SymbolicLink =>
              st ← outcome (StatInfo path);
              match st with
              | Err _ => next t
              | Ok tfi => if IsDir tfi then t ← recur path t; next t else if negb (IsRegular tfi) then next t else file
              end
          | Directory => t ← recur path t; next t
          | Special => next t
          | Regular => file
          end
      end
  end.

(** [stack]: the directories it is in. *)
Fixpoint walkFn (depth fuel : nat) (srcDir dir : string) (stack : list string) (t : totals) : M totals :=
  match depth with
  | O => exhausted
  | S depth =>
      real ← outcome (RealPath dir);
      match real with
      | Err _ => mret t
      | Ok realPath =>
          if decide (realPath ∈ stack) then mret t
          else
            opened ← outcome (OpenDir dir);
            match opened with
            | Err _ => mret t
            | Ok _ =>
                names ← outcome (Readdirnames dir);
                match names with
                | Err _ => mret t
                | Ok names => walkNames (λ path t, walkFn depth fuel srcDir path (stack ++ [realPath])%list t) fuel srcDir dir names t
                end
            end
      end
  end.

Definition handleFTPullRecursive (fuel : nat) (srcDir : string) : M unit :=
  let srcDir := Clean srcDir in
  t ← walkFn fuel fuel srcDir srcDir [] noTotals;
  must (WriteFTFrame conn FtDone (marshal (donePayload t))).

Definition handleFTPull (fuel : nat) (pullPayload : string) : M unit :=
  match unmarshal (A := FtPullPayload) pullPayload with
  | Err _ => sayError "invalid" "invalid pull payload"
  | Ok pull =>
      st ← outcome (StatInfo (pull_Path pull));
      match st with
      | Err err => sayError "not_found" (Error err)
      | Ok fi =>
          if IsDir fi then
            if pull_Recursive pull then handleFTPullRecursive fuel (pull_Path pull)
            else sayError "is_directory" ("'" ++ pull_Path pull ++ "' is a directory; use recursive=true to pull")
          else pullFile fuel (pull_Path pull) fi
      end
  end.

Definition handleFileTransfer (fuel : nat) : M unit :=
  frame ← tried (ReadFTFrame conn);
  match frame with
  | Err _ => mret ()
  | Ok (frameType, payload) =>
      if decide (frameType = FtPush) then handleFTPush fuel payload
      else if decide (frameType = FtPull) then handleFTPull fuel payload
      else sayError "invalid" ("unknown frame type: 0x" ++ hexByte frameType)
  end.
End Agent.

(** ** The client on the host *)

Record FTResult := FTResult_ { ft_Files : Z; ft_Bytes : Z; ft_Errors : Z }.
Record fileEntry := fileEntry_ { absPath : string; relativePath : string }.

(** The request of a transfer, and the type of its answer. *)
Record execRequest := execRequest_ { rq_ID : string; rq_Type : string; rq_Token : string }.

(** The agent at the other end of a connection; the handshake in JSON frames; the
    callback for progress, if there is one. *)
Class Agents (C W : Type) := {
  ensureAgent : C → GoM W error unit;
  SendFrame : C → execRequest → GoM W error unit;
  readFrameRaw : C → GoM W error string;
  Token : C → string;
  Progress : Z → Z → ST W unit;
}.

Section Sources.
Context {W : Type} `{Disks W}.
#[local] Notation M := (GoM W error).

(** The entries of a directory; [recur] walks another one. *)
Fixpoint walkEntries (recur : string → M (list fileEntry)) (baseDir dir : string) (names : list string) (entries : list fileEntry) :
    M (list fileEntry) :=
  match names with
  | [] => mret entries
  | name :: rest =>
      let path := Path_Join [dir; name] in
      let next entries := walkEntries recur baseDir dir rest entries in
      let walk := sub ← recur path; next (entries ++ sub)%list in
      let file := next (entries ++ [fileEntry_ path (match Rel baseDir path with Ok rel => rel | Err _ => "" end)])%list in
      l ← try (Lstat path);
      match l with
      | Err _ => next entries
      | Ok lfi =>
          match fi_Kind lfi with
          | SymbolicLink =>
              st ← try (StatInfo path);
              match st with
              | Err _ => next entries
              | Ok tfi => if IsDir tfi then walk else if IsRegular tfi then file else next entries
              end
          | Directory => walk
          | Regular => file
          | Special => next entries
          end
      end
  end.

Fixpoint walkWithSymlinks (depth : nat) (baseDir dir : string) (stack : list string) : M (list fileEntry) :=
  match depth with
  | O => mret []
  | S depth =>
      real ← try (RealPath dir);
      match real with
      | Err _ => mret []
      | Ok realPath =>
          if decide (realPath ∈ stack) then mret []
          else
            opened ← try (OpenDir dir);
            match opened with
            | Err err => throw (wrapf ("open directory " ++ dir) err)
            | Ok _ =>
                names ← try (Readdirnames dir);
                match names with
                | Err err => throw (wrapf ("read directory " ++ dir) err)
                | Ok names => walkEntries (λ path, walkWithSymlinks depth baseDir path (stack ++ [realPath])%list) baseDir dir names []
                end
            end
      end
  end.

Fixpoint expandSources (depth : nat) (srcPaths : list string) (entries : list fileEntry) : M (list fileEntry) :=
  match srcPaths with
  | [] => mret entries
  | src :: rest =>
      let file := [fileEntry_ src (Base src)] in
      let next sub := expandSources depth rest (entries ++ sub)%list in
      let walk dir :=
        sub ← try (walkWithSymlinks depth (Dir src) dir []);
        match sub with Err err => throw (wrapf ("walk source " ++ src) err) | Ok sub => next sub end in
      l ← try (Lstat src);
      match l with
      | Err _ => throw (Errorf ("source not found: " ++ src) None)
      | Ok fi =>
          match fi_Kind fi with
          | SymbolicLink =>
              st ← try (StatInfo src);
              match st with
              | Err _ => next []
              | Ok tfi => if IsDir tfi then walk src else if IsRegular tfi then next file else next []
              end
          | Directory => walk (Clean src)
          | _ => next file
          end
      end
  end.
End Sources.

Section Client.
Context {C W : Type} `{Files W} `{Disks W} `{Agents C W}.
Context `{Json FtPushPayload} `{Json FtPullPayload} `{Json FtMetaPayload} `{Json FtProgressPayload} `{Json FtErrorPayload}
  `{Json FtDonePayload}.
Context (sha256Hex : string → string).
#[local] Notation M := (speech C W error).

Definition requestTypeFileTransfer : string := "file-transfer".
Definition responseTypeFTReady : string := "ft-ready".
Definition ftRequest (c : C) : execRequest := execRequest_ "1" requestTypeFileTransfer (Token (W := W) c).

Definition startTransfer (c : C) : M unit :=
  _ ← failing (wrapf "vsock connection failed") (locally (ensureAgent c));
  _ ← failing (wrapf "send handshake failed") (locally (SendFrame c (ftRequest c)));
  answer ← failing (wrapf "read handshake response failed") (locally (readFrameRaw c));
  if decide (answer ≠ responseTypeFTReady) then refuse (Errorf ("unexpected handshake response type: " ++ answer) None) else mret ().

(** [return nil, fmt.Errorf("... cancelled: %w", ctx.Err())]. *)
Definition unlessCancelled (what : string) : M unit :=
  err ← acts CtxErr; match err with Some e => refuse (wrapf (what ++ " cancelled") e) | None => mret () end.
Definition looked {A} (m : GoM W error A) : M (result error A) := acts (attempt m).
Definition reportError (c : C) (code msg : string) : M unit :=
  _ ← tried (E' := error) (WriteFTFrame c FtError (marshal (FtErrorPayload_ code msg))); mret ().
Definition unexpected (what : string) (frameType : ascii) : error := Errorf (what ++ "0x" ++ hexByte frameType) None.

(** *** From the host to a guest *)

Fixpoint sendChunks (fuel : nat) (c : C) (f : Z) (path : string) (size sent : Z) : M Z :=
  match fuel with
  | O => exhausted
  | S fuel =>
      '(data, ending) ← acts (ReadChunk f ftBufferSize);
      _ ← (if decide (data = "") then mret ()
           else
             said ← tried (WriteFTFrame c FtData data);
             match said with
             | Err err => _ ← acts (CloseFd f); refuse (wrapf "write data frame" err)
             | Ok _ => acts (Progress (C := C) (sent + len data) size)
             end);
      match ending with
      | More => sendChunks fuel c f path size (sent + len data)%Z
      | AtEnd => mret (sent + len data)%Z
      | Broken err => _ ← acts (CloseFd f); refuse (wrapf ("read source " ++ path) err)
      end
  end.

(** A file that was accepted: the bytes sent, and whether it was refused after that. *)
Definition sendContent (fuel : nat) (c : C) (entry : fileEntry) (size : Z) (hashHex : string) : M (Z * bool) :=
  opened ← looked (OpenRead (absPath entry));
  match opened with
  | Err err => _ ← reportError c "open_failed" (Error err); mret (0%Z, false)
  | Ok f =>
      sent ← sendChunks fuel c f (absPath entry) size 0;
      _ ← acts (CloseFd f);
      _ ← failing (wrapf "write eos frame") (WriteFTFrame c FtData "");
      '(frameType, okPayload) ← failing (wrapf "read ok frame") (ReadFTFrame c);
      if decide (frameType = FtError) then mret (sent, false)
      else if decide (frameType ≠ FtOK) then refuse (unexpected "expected ok frame, got " frameType)
      else
        match unmarshal (A := FtMetaPayload) okPayload with
        | Err _ => mret (sent, true)
        | Ok okMeta =>
            if decide (meta_SHA256 okMeta ≠ "" ∧ meta_SHA256 okMeta ≠ hashHex) then
              refuse (Errorf ("SHA-256 mismatch for " ++ relativePath entry ++ ": local=" ++ hashHex ++ " agent=" ++ meta_SHA256 okMeta) None)
            else mret (sent, true)
        end
  end.

Definition sendEntry (fuel : nat) (c : C) (entry : fileEntry) : M (Z * bool) :=
  _ ← unlessCancelled "push";
  st ← looked (StatInfo (absPath entry));
  match st with
  | Err _ => mret (0%Z, false)
  | Ok fi =>
      opened ← looked (OpenRead (absPath entry));
      match opened with
      | Err err => _ ← reportError c "open_failed" (Error err); mret (0%Z, false)
      | Ok f =>
          content ← looked (ReadAll f);
          _ ← acts (CloseFd f);
          match content with
          | Err err => refuse (wrapf ("read source " ++ absPath entry) err)
          | Ok content =>
              let hashHex := sha256Hex content in
              _ ← failing (wrapf "write meta frame")
                    (WriteFTFrame c FtMeta (marshal (FtMetaPayload_ (relativePath entry) (fi_Size fi) (fi_Perm fi) hashHex false)));
              '(frameType, acceptPayload) ← failing (wrapf "read accept frame") (ReadFTFrame c);
              if decide (frameType = FtError) then mret (0%Z, false)
              else if decide (frameType ≠ FtMeta) then refuse (unexpected "expected meta/accept frame, got " frameType)
              else
                match unmarshal (A := FtMetaPayload) acceptPayload with
                | Err err => refuse (wrapf "parse accept" err)
                | Ok accept => if meta_Accepted accept then sendContent fuel c entry (fi_Size fi) hashHex else mret (0%Z, false)
                end
          end
      end
  end.

Fixpoint sendEntries (fuel : nat) (c : C) (entries : list fileEntry) (bytes errors : Z) : M (Z * Z) :=
  match entries with
  | [] => mret (bytes, errors)
  | entry :: rest =>
      '(sent, kept) ← sendEntry fuel c entry;
      sendEntries fuel c rest (bytes + sent)%Z (if kept : bool then errors else errors + 1)%Z
  end.

(** What follows the handshake. *)
Definition pushFiles (fuel : nat) (c : C) (srcPaths : list string) (destPath : string) (overwrite noSync : bool) : M FTResult :=
  if negb (HasSuffix destPath "/") && (1 <? length srcPaths)%nat then
    refuse (Errorf "multiple sources require a directory destination (trailing /)" None)
  else
    destPath ← match srcPaths with
               | [src] =>
                   if HasSuffix destPath "/" then mret destPath
                   else st ← looked (StatInfo src);
                        mret (match st with Ok fi => if IsDir fi then destPath ++ "/" else destPath | Err _ => destPath end)
               | _ => mret destPath
               end;
    _ ← failing (wrapf "write push frame") (WriteFTFrame c FtPush (marshal (FtPushPayload_ srcPaths destPath overwrite noSync)));
    '(frameType, _) ← failing (wrapf "read mkdir ack") (ReadFTFrame c);
    if decide (frameType ≠ FtMkdir) then refuse (unexpected "expected mkdir ack, got frame type " frameType)
    else
      entries ← failing (wrapf "expand sources") (locally (expandSources fuel srcPaths []));
      '(bytes, errors) ← sendEntries fuel c entries 0 0;
      let files := (Z.of_nat (length entries) - errors)%Z in
      _ ← failing (wrapf "write done frame") (WriteFTFrame c FtDone (marshal (FtDonePayload_ files bytes errors)));
      mret (FTResult_ files bytes errors).

Definition FTCopyToVM (fuel : nat) (c : C) (srcPaths : list string) (destPath : string) (overwrite noSync : bool) : M FTResult :=
  _ ← startTransfer c; pushFiles fuel c srcPaths destPath overwrite noSync.

(** *** From a guest to the host *)

(** The frames of one file; [None] when the agent gives it up. *)
Fixpoint receiveLoop (fuel : nat) (c : C) (destPath : string) (f : Z) (data : string) : M (option string) :=
  match fuel with
  | O => exhausted
  | S fuel =>
      err ← acts CtxErr;
      match err with
      | Some e => _ ← acts (CloseFd f); refuse (wrapf "pull cancelled" e)
      | None =>
          frame ← tried (ReadFTFrame c);
          match frame with
          | Err err => _ ← acts (CloseFd f); refuse (wrapf "read data frame" err)
          | Ok (frameType, chunk) =>
              if decide (frameType = FtData) then
                if decide (chunk = "") then mret (Some data)
                else
                  written ← looked (WriteChunk f chunk);
                  match written with
                  | Err err => _ ← acts (CloseFd f); refuse (wrapf "write file chunk" err)
                  | Ok _ => receiveLoop fuel c destPath f (data ++ chunk)
                  end
              else if decide (frameType = FtProgress) then
                _ ← match unmarshal (A := FtProgressPayload) chunk with
                    | Ok prog => acts (Progress (C := C) (prog_Bytes prog) (prog_Total prog))
                    | Err _ => mret ()
                    end;
                receiveLoop fuel c destPath f data
              else if decide (frameType = FtError) then
                _ ← acts (CloseFd f); _ ← looked (RemoveFile destPath); mret None
              else _ ← acts (CloseFd f); refuse (unexpected "unexpected frame type during pull: " frameType)
          end
      end
  end.

Definition receivePullFile (fuel : nat) (c : C) (metaPayload destPath : string) (destIsDir overwrite : bool) : M FTResult :=
  match unmarshal (A := FtMetaPayload) metaPayload with
  | Err err => refuse (wrapf "parse meta" err)
  | Ok meta =>
      let fullDestPath := if destIsDir then Path_Join [destPath; meta_Path meta] else destPath in
      found ← (if overwrite then mret false else st ← looked (StatInfo fullDestPath); mret (is_Ok st));
      if found : bool then
        _ ← reportError c "exists" ("file exists: " ++ fullDestPath);
        mret (FTResult_ 0 0 1)
      else
        _ ← failing (wrapf "write accept frame") (WriteFTFrame c FtMeta (marshal accepted));
        _ ← failing (wrapf "create destination directory") (locally (MkdirAll (Dir fullDestPath)));
        f ← failing (wrapf "create destination file") (locally (OpenCreate fullDestPath (meta_Mode meta)));
        received ← receiveLoop fuel c fullDestPath f "";
        _ ← acts (CloseFd f);
        match received with
        | None => mret (FTResult_ 0 0 1)
        | Some data =>
            let localHash := sha256Hex data in
            if decide (meta_SHA256 meta ≠ "" ∧ localHash ≠ meta_SHA256 meta) then
              _ ← looked (RemoveFile fullDestPath);
              refuse (Errorf ("SHA-256 mismatch for " ++ meta_Path meta ++ ": local=" ++ localHash ++ " remote=" ++ meta_SHA256 meta) None)
            else
              _ ← failing (wrapf "write ok frame")
                    (WriteFTFrame c FtOK (marshal (FtMetaPayload_ (meta_Path meta) (len data) 0 localHash false)));
              mret (FTResult_ 1 (len data) 0)
        end
  end.

Definition agentError (what payload : string) : error :=
  match unmarshal (A := FtErrorPayload) payload with
  | Ok e => Errorf (what ++ ": " ++ fte_Code e ++ ": " ++ fte_Message e) None
  | Err _ => Errorf (what ++ " during pull") None
  end.

Definition addResults (r t : FTResult) : FTResult :=
  FTResult_ (ft_Files t + ft_Files r) (ft_Bytes t + ft_Bytes r) (ft_Errors t + ft_Errors r).

Fixpoint pullLoop (fuel : nat) (c : C) (destPath : string) (destIsDir overwrite : bool) (t : FTResult) : M FTResult :=
  match fuel with
  | O => exhausted
  | S fuel =>
      _ ← unlessCancelled "pull";
      '(frameType, payload) ← failing (wrapf "read frame") (ReadFTFrame c);
      if decide (frameType = FtDone) then mret t
      else if decide (frameType = FtError) then refuse (agentError "agent error" payload)
      else if decide (frameType = FtMeta) then
        r ← receivePullFile fuel c payload destPath destIsDir overwrite;
        pullLoop fuel c destPath destIsDir overwrite (addResults r t)
      else refuse (unexpected "unexpected frame type during pull: " frameType)
  end.

(** What follows the handshake. *)
Definition pullFiles (fuel : nat) (c : C) (srcPath destPath : string) (overwrite : bool) : M FTResult :=
  destIsDir ← (if HasSuffix destPath "/" then mret true
               else st ← looked (StatInfo destPath); mret (match st with Ok fi => IsDir fi | Err _ => false end));
  let isRecursive := destIsDir || HasSuffix srcPath "/" in
  _ ← failing (wrapf "write pull frame") (WriteFTFrame c FtPull (marshal (FtPullPayload_ srcPath destPath overwrite isRecursive)));
  pullLoop fuel c destPath destIsDir overwrite (FTResult_ 0 0 0).

Definition FTCopyFromVM (fuel : nat) (c : C) (srcPath destPath : string) (overwrite : bool) : M FTResult :=
  _ ← startTransfer c; pullFiles fuel c srcPath destPath overwrite.

(** *** From a guest to another *)

(** The messages of the relay are its own; [%w] of no error is printed so. *)
Definition joinTransfer (name : string) (c : C) : M unit :=
  _ ← failing (wrapf (name ++ " handshake failed")) (locally (SendFrame c (ftRequest c)));
  answer ← failing (wrapf (name ++ " handshake response failed")) (locally (readFrameRaw c));
  if decide (answer ≠ responseTypeFTReady) then refuse (Errorf (name ++ " handshake response failed: %!w(<nil>)") None) else mret ().

Fixpoint relayLoop (fuel : nat) (src dst : C) (bytes : Z) : M Z :=
  match fuel with
  | O => exhausted
  | S fuel =>
      _ ← unlessCancelled "relay";
      '(frameType, chunk) ← failing (wrapf "relay read from source") (ReadFTFrame src);
      if decide (frameType = FtData) then
        _ ← failing (wrapf "relay write data to dest") (WriteFTFrame dst FtData chunk);
        if decide (chunk = "") then
          '(ft, okPayload) ← failing (wrapf "relay read dest ok") (ReadFTFrame dst);
          if decide (ft = FtError) then refuse (Errorf "dest error during relay" None)
          else if decide (ft ≠ FtOK) then refuse (unexpected "expected dest ok, got " ft)
          else
            _ ← failing (wrapf "relay forward ok to source") (WriteFTFrame src FtOK okPayload);
            mret bytes
        else relayLoop fuel src dst (bytes + len chunk)%Z
      else if decide (frameType = FtProgress) then
        _ ← match unmarshal (A := FtProgressPayload) chunk with
            | Ok prog => acts (Progress (C := C) (prog_Bytes prog) (prog_Total prog))
            | Err _ => mret ()
            end;
        relayLoop fuel src dst bytes
      else if decide (frameType = FtError) then
        _ ← tried (E' := error) (WriteFTFrame dst FtError chunk);
        refuse (match unmarshal (A := FtErrorPayload) chunk with
                | Ok e => Errorf ("source error: " ++ fte_Code e ++ ": " ++ fte_Message e) None
                | Err _ => Errorf "source error during relay" None
                end)
      else refuse (unexpected "unexpected frame type in relay: " frameType)
  end.

Definition FTCopyVMToVM (fuel : nat) (src dst : C) (srcPath destPath : string) (overwrite : bool) : M FTResult :=
  _ ← failing (wrapf "source vsock connection failed") (locally (ensureAgent src));
  _ ← failing (wrapf "dest vsock connection failed") (locally (ensureAgent dst));
  _ ← joinTransfer "source" src;
  _ ← joinTransfer "dest" dst;
  _ ← failing (wrapf "source pull frame") (WriteFTFrame src FtPull (marshal (FtPullPayload_ srcPath "" overwrite false)));
  _ ← failing (wrapf "dest push frame") (WriteFTFrame dst FtPush (marshal (FtPushPayload_ [] destPath overwrite false)));
  '(frameType, _) ← failing (wrapf "read dest mkdir") (ReadFTFrame dst);
  if decide (frameType ≠ FtMkdir) then refuse (unexpected "expected dest mkdir, got " frameType)
  else
    '(frameType, srcMetaPayload) ← failing (wrapf "read source meta") (ReadFTFrame src);
    if decide (frameType = FtError) then refuse (Errorf "source error during pull" None)
    else if decide (frameType ≠ FtMeta) then refuse (unexpected "expected source meta, got " frameType)
    else
      _ ← failing (wrapf "forward meta to dest") (WriteFTFrame dst FtMeta srcMetaPayload);
      '(frameType, dstAcceptPayload) ← failing (wrapf "read dest accept") (ReadFTFrame dst);
      if decide (frameType = FtError) then
        _ ← reportError src "dest_rejected" "destination rejected file";
        refuse (Errorf "destination rejected file" None)
      else if decide (frameType ≠ FtMeta) then refuse (unexpected "expected dest accept meta, got " frameType)
      else
        _ ← failing (wrapf "forward accept to source") (WriteFTFrame src FtMeta dstAcceptPayload);
        bytes ← relayLoop fuel src dst 0;
        _ ← failing (wrapf "read source done") (ReadFTFrame src);
        _ ← failing (wrapf "write dest done") (WriteFTFrame dst FtDone (marshal (FtDonePayload_ 1 bytes 0)));
        _ ← tried (E' := error) (ReadFTFrame dst);
        mret (FTResult_ 1 bytes 0).
End Client.
