(* ===== verification/FileDelivery.v ===== *)
(** * What a file transfer delivers

    Frames read back as they were written; the walk of the sources ends; a file
    that either end reports as received has the announced hash, whatever the peer
    and the disk do; and, on disks that do not fail, a push delivers every file,
    whatever the turns of the two ends. *)

From Stdlib Require Import Ascii.
From stdpp Require Import gmap list strings.
From S2P Require Import Prelude GoStrings Errs Version Files Archive IPNet Conversation FileTransfer.
#[local] Open Scope string_scope.

(** ** Frames *)

(** The frame fits the 32 bits of its length. *)
Definition fits (payload : string) : Prop := (len payload + 1 < 2 ^ 32)%Z.

Definition frameBytes (frameType : ascii) (payload : string) : string := header payload ++ String frameType payload.

Definition saidFrame {C} (c : C) (frameType : ascii) (payload : string) : list (event C) :=
  (Said c (header payload) (Ok ()) :: Said c (String frameType "") (Ok ()) ::
   if (0 <? len payload)%Z then [Said c payload (Ok ())] else [])%list.
Definition heardFrame {C} (c : C) (frameType : ascii) (payload : string) : list (event C) :=
  [Heard c (String.length (header payload)) (Ok (header payload));
   Heard c (String.length (String frameType payload)) (Ok (String frameType payload))].

Lemma bigEndian32_roundtrip z : (0 <= z < 2 ^ 32)%Z → fromBigEndian 0 (bigEndian32 z) = z.
Proof.
  intros Hz. unfold bigEndian32. cbn [fromBigEndian].
  assert (∀ k, (0 <= k)%Z → Z.of_nat (nat_of_ascii (ascii_of_nat (Z.to_nat (Z.land (Z.shiftr z k) 255)))) = ((z / 2 ^ k) mod 256)%Z) as Hd.
  { intros k Hk. change 255%Z with (Z.ones 8). rewrite Z.land_ones, Z.shiftr_div_pow2 by lia. change (2 ^ 8)%Z with 256%Z.
    pose proof (Z.mod_pos_bound (z / 2 ^ k) 256 ltac:(lia)). rewrite nat_ascii_embedding by lia. lia. }
  rewrite !Hd by lia. rewrite !lor_shiftl by div_lia. div_lia.
Qed.

Lemma length_header payload : String.length (header payload) = 4%nat.
Proof. done. Qed.

Lemma header_length payload : fits payload → Z.to_nat (fromBigEndian 0 (header payload)) = S (String.length payload).
Proof.
  intros Hf. unfold header. assert (0 <= len payload + 1 < 2 ^ 32)%Z as Hr by (unfold fits, len in *; lia).
  rewrite uint32_small, bigEndian32_roundtrip by done. unfold len. lia.
Qed.

#[local] Arguments fromBigEndian : simpl never.
#[local] Arguments header : simpl never.

Section FrameRules.
Context {C S : Type} (c : C).

Lemma plays_Write frameType payload (w : S) : plays (WriteFTFrame c frameType payload) w (saidFrame c frameType payload) (Ok ()) w.
Proof.
  unfold WriteFTFrame, saidFrame, failing, write. cbn. eexists _, _. split; [done|]. eexists _, _. split; [done|].
  destruct (0 <? len payload)%Z; cbn; [|done]. by eexists _, _.
Qed.

Lemma plays_Read frameType payload (w : S) : fits payload →
  plays (ReadFTFrame c) w (heardFrame c frameType payload) (Ok (frameType, payload)) w.
Proof.
  intros Hf. unfold ReadFTFrame, heardFrame, failing, readFull. cbn. eexists _, _. split; [done|]. split; [by intros ? [= <-]|].
  cbn. rewrite (header_length payload Hf). eexists _, _. split; [done|]. split; [by intros ? [= <-]|]. done.
Qed.
End FrameRules.

(** ** Messages both ways *)

(** A message: whether it goes to the right, and the frame. *)
Definition message : Type := bool * ascii * string.
Definition leftEvents (m : message) : list (event unit) :=
  if m.1.1 then saidFrame () m.1.2 m.2 else heardFrame () m.1.2 m.2.
Definition rightEvents (m : message) : list (event unit) :=
  if m.1.1 then heardFrame () m.1.2 m.2 else saidFrame () m.1.2 m.2.

Lemma frame_bytes frameType payload : (if (0 <? len payload)%Z then String frameType "" ++ payload else String frameType "") = String frameType payload.
Proof. unfold len. destruct payload as [|x payload]; [done|]. by destruct (Z.ltb_spec 0 (Z.of_nat (String.length (String x payload)))); simpl in *; [|lia]. Qed.

Lemma meets_heardR_all out' back' s tr1 tr2 back :
  meets out' back' tr1 tr2 "" back → meets out' back' tr1 (Heard () (String.length s) (Ok s) :: tr2) s back.
Proof. intros Hm. rewrite <- (sapp_nil_r s) at 3. by apply meets_heardR. Qed.
Lemma meets_heardL_all out' back' s tr1 tr2 out :
  meets out' back' tr1 tr2 out "" → meets out' back' (Heard () (String.length s) (Ok s) :: tr1) tr2 out s.
Proof. intros Hm. rewrite <- (sapp_nil_r s) at 3. by apply meets_heardL. Qed.

Lemma meets_message out' back' m tr1 tr2 :
  meets out' back' tr1 tr2 "" "" → meets out' back' (leftEvents m ++ tr1) (rightEvents m ++ tr2) "" "".
Proof.
  intros Hm. destruct m as [[[] t] payload]; unfold leftEvents, rightEvents, saidFrame, heardFrame; cbn [fst snd app].
  - apply meets_saidL, meets_saidL. pose proof (frame_bytes t payload) as Hb. revert Hb.
    destruct (0 <? len payload)%Z; cbn [app]; intros Hb; [apply meets_saidL; rewrite <- sapp_assoc|]; rewrite Hb;
      by apply meets_heardR, meets_heardR_all.
  - apply meets_saidR, meets_saidR. pose proof (frame_bytes t payload) as Hb. revert Hb.
    destruct (0 <? len payload)%Z; cbn [app]; intros Hb; [apply meets_saidR; rewrite <- sapp_assoc|]; rewrite Hb;
      by apply meets_heardL, meets_heardL_all.
Qed.

Lemma meets_messages out' back' ms tr1 tr2 :
  meets out' back' tr1 tr2 "" "" → meets out' back' ((ms ≫= leftEvents) ++ tr1) ((ms ≫= rightEvents) ++ tr2) "" "".
Proof.
  intros Hm. induction ms as [|m ms IH]; [done|]. cbn [mbind list_bind]. rewrite <- !(assoc (++)%list). by apply meets_message.
Qed.

(** ** The walk of the sources ends *)
Section Walk.
Context {W : Type} `{Disks W}.
(** The directories there are, by their physical paths. *)
Context (places : gset string) (Hplaces : ∀ dir w real w', RealPath dir w = (Ok real, w') → real ∈ places).

Lemma walkEntries_ext recur recur' baseDir dir names : (∀ path (w : W), recur path w = recur' path w) →
  ∀ entries w, walkEntries recur baseDir dir names entries w = walkEntries recur' baseDir dir names entries w.
Proof.
  intros Hr. induction names as [|name names IH]; intros entries w; cbn [walkEntries]; [done|].
  rewrite !bind_try. destruct (Lstat _ w) as [[lfi|e] w1]; cbn [fst snd]; [|apply IH].
  assert (∀ w, (sub ← recur (Path_Join [dir; name]); walkEntries recur baseDir dir names (entries ++ sub)%list) w =
    (sub ← recur' (Path_Join [dir; name]); walkEntries recur' baseDir dir names (entries ++ sub)%list) w) as Hwalk.
  { intros w2. rewrite !bind_unfold, Hr. destruct (recur' _ w2) as [[sub|e] w3]; [apply IH|done]. }
  destruct (fi_Kind lfi); [apply IH|apply Hwalk| |apply IH]. rewrite !bind_try.
  destruct (StatInfo _ w1) as [[tfi|e] w2]; cbn [fst snd]; [|apply IH]. destruct (IsDir tfi); [apply Hwalk|]. destruct (IsRegular tfi); apply IH.
Qed.

Lemma walk_enough depth baseDir : ∀ more dir stack (w : W),
  NoDup stack → (∀ p, p ∈ stack → p ∈ places) → (size places - length stack < depth)%nat →
  walkWithSymlinks (depth + more) baseDir dir stack w = walkWithSymlinks depth baseDir dir stack w.
Proof.
  induction depth as [|depth IH]; intros more dir stack w Hnd Hin Hd; [lia|]. cbn [Nat.add walkWithSymlinks].
  rewrite !bind_try. destruct (RealPath dir w) as [[real|e] w1] eqn:Er; cbn [fst snd]; [|done].
  destruct (decide (real ∈ stack)) as [|Hnew]; [done|].
  assert (NoDup (stack ++ [real])) as Hnd'.
  { apply NoDup_app. split; [done|]. split; [by intros p Hp ->%list_elem_of_singleton|by apply NoDup_singleton]. }
  assert (∀ p, p ∈ (stack ++ [real])%list → p ∈ places) as Hin'.
  { intros p [Hp| ->%list_elem_of_singleton]%elem_of_app; [by apply Hin|by eapply Hplaces]. }
  assert (length (stack ++ [real]) <= size places)%nat as Hle.
  { rewrite <- (size_list_to_set (C := gset string)) by done. apply subseteq_size. intros p Hp%elem_of_list_to_set. by apply Hin'. }
  rewrite !bind_try. destruct (OpenDir dir w1) as [[[]|e] w2]; cbn [fst snd]; [|done].
  rewrite !bind_try. destruct (Readdirnames dir w2) as [[names|e] w3]; cbn [fst snd]; [|done].
  apply walkEntries_ext. intros path w4. apply IH; [done|done|]. rewrite length_app in *. cbn [length] in *. lia.
Qed.

(** On a file system with finitely many directories the sources are expanded
    to the end, however its links lead in circles: more depth than there are
    directories changes nothing. *)
Theorem expandSources_terminates depth more srcPaths entries (w : W) :
  (size places < depth)%nat → expandSources (depth + more) srcPaths entries w = expandSources depth srcPaths entries w.
Proof.
  intros Hd. revert entries w. induction srcPaths as [|src rest IH]; intros entries w; cbn [expandSources]; [done|].
  rewrite !bind_try. destruct (Lstat src w) as [[fi|e] w1]; cbn [fst snd]; [|done].
  assert (∀ dir w, (sub ← try (walkWithSymlinks (depth + more) (Dir src) dir []);
      match sub with Err err => throw (wrapf ("walk source " ++ src) err) | Ok sub => expandSources (depth + more) rest (entries ++ sub)%list end) w =
    (sub ← try (walkWithSymlinks depth (Dir src) dir []);
      match sub with Err err => throw (wrapf ("walk source " ++ src) err) | Ok sub => expandSources depth rest (entries ++ sub)%list end) w) as Hwalk.
  { intros dir w2. rewrite !bind_try, walk_enough; [|constructor|by intros p Hp%elem_of_nil|cbn [length]; lia].
    destruct (walkWithSymlinks depth _ _ _ w2) as [[sub|e] w3]; cbn [fst snd]; [apply IH|done]. }
  destruct (fi_Kind fi); [apply IH|apply Hwalk| |apply IH]. rewrite !bind_try.
  destruct (StatInfo src w1) as [[tfi|e] w2]; cbn [fst snd]; [|apply IH]. destruct (IsDir tfi); [apply Hwalk|]. destruct (IsRegular tfi); apply IH.
Qed.
End Walk.

(** ** A plain disk

    Files by their paths, directories, and open files with their offsets.  The
    next calls fail as the list of faults says. *)
Record disk := Disk {
  dk_files : gmap string string;
  dk_dirs : gset string;
  dk_open : gmap Z (string * nat);
  dk_next : Z;
  dk_faults : list (option error);
}.

Definition setFiles (files : gmap string string) (d : disk) : disk := Disk files (dk_dirs d) (dk_open d) (dk_next d) (dk_faults d).
Definition setDirs (dirs : gset string) (d : disk) : disk := Disk (dk_files d) dirs (dk_open d) (dk_next d) (dk_faults d).
Definition setOpen (l : gmap Z (string * nat)) (d : disk) : disk := Disk (dk_files d) (dk_dirs d) l (dk_next d) (dk_faults d).
Definition setFaults (l : list (option error)) (d : disk) : disk := Disk (dk_files d) (dk_dirs d) (dk_open d) (dk_next d) l.

Definition notThere : error := Errorf "file does not exist" None.
Definition notOpen : error := Errorf "file already closed" None.

(** A call that fails has done nothing. *)
Definition faulty {A} (m : GoM disk error A) : GoM disk error A := λ d,
  match dk_faults d with
  | [] => m d
  | None :: l => m (setFaults l d)
  | Some e :: l => (Err e, setFaults l d)
  end.

Definition opening (path : string) : GoM disk error Z := λ d,
  (Ok (dk_next d), Disk (dk_files d) (dk_dirs d) (<[dk_next d := (path, 0%nat)]> (dk_open d)) (dk_next d + 1) (dk_faults d)).

Definition infoAt (path : string) : GoM disk error FileInfo := λ d,
  (if decide (path ∈ dk_dirs d) then Ok (FileInfo_ Directory 4096 493)
   else match dk_files d !! path with Some c => Ok (FileInfo_ Regular (len c) 420) | None => Err notThere end, d).

Definition readAt (f n : Z) : ST disk (string * readEnd) := λ d,
  match dk_open d !! f with
  | Some (path, off) =>
      let data := stake (Z.to_nat n) (sdrop off (default "" (dk_files d !! path))) in
      (data, if decide (data = "") then AtEnd else More, setOpen (<[f := (path, off + String.length data)%nat]> (dk_open d)) d)
  | None => ("", Broken notOpen, d)
  end.

Definition entriesOf (dir : string) (d : disk) : list string :=
  omap (λ path, if decide (Dir path = dir) then Some (Base path) else None) (elements (dom (dk_files d) ∪ dk_dirs d)).

#[export] Instance disk_files : Files disk := {|
  MkdirAll path := faulty (λ d, if decide (path = "" ∨ is_Some (dk_files d !! path)) then (Err notThere, d)
                                else (Ok (), setDirs ({[path]} ∪ dk_dirs d) d));
  Stat path := _ ← faulty (infoAt path); mret ();
  IsNotExist e := bool_decide (Error e = Error notThere);
  RemoveFile path := faulty (λ d, match dk_files d !! path with
                                  | Some _ => (Ok (), setFiles (delete path (dk_files d)) d)
                                  | None => (Err notThere, d)
                                  end);
  RemoveAll path := faulty (λ d, (Ok (), setFiles (delete path (dk_files d)) d));
|}.

#[export] Instance disk_disks : Disks disk := {|
  Lstat path := faulty (infoAt path);
  StatInfo path := faulty (infoAt path);
  RealPath path := faulty (λ d, (Ok path, d));
  OpenDir dir := faulty (λ d, (if decide (dir ∈ dk_dirs d) then Ok () else Err notThere, d));
  Readdirnames dir := faulty (λ d, (Ok (entriesOf dir d), d));
  OpenRead path := faulty (λ d, if decide (is_Some (dk_files d !! path)) then opening path d else (Err notThere, d));
  ReadAll f := faulty (λ d, match dk_open d !! f with
                            | Some (path, off) => (Ok (sdrop off (default "" (dk_files d !! path))), d)
                            | None => (Err notOpen, d)
                            end);
  ReadChunk f n := λ d, match faulty (λ d, let '(r, d) := readAt f n d in (Ok r, d)) d with
                        | (Ok r, d) => (r, d)
                        | (Err e, d) => ("", Broken e, d)
                        end;
  OpenTrunc path := faulty (λ d, if decide (is_Some (dk_files d !! path)) then opening path (setFiles (<[path := ""]> (dk_files d)) d)
                                 else (Err notThere, d));
  OpenCreate path _ := faulty (λ d, if decide (path ∈ dk_dirs d) then (Err notThere, d)
                                    else opening path (setFiles (<[path := ""]> (dk_files d)) d));
  WriteChunk f data := faulty (λ d, match dk_open d !! f with
                                    | Some (path, _) => (Ok (), setFiles (alter (λ c, c ++ data) path (dk_files d)) d)
                                    | None => (Err notOpen, d)
                                    end);
  SyncFd _ := faulty (λ d, (Ok (), d));
  CloseFd f := λ d, ((), setOpen (delete f (dk_open d)) d);
  SyncAll d := ((), d);
  CtxErr d := match faulty (λ d, (Ok (), d)) d with (Ok _, d) => (None, d) | (Err e, d) => (Some e, d) end;
|}.

(** ** Frames do not touch the world *)
Section Silent.
Context {C : Type}.

Definition silent {S E A} (p : speech C S E A) : Prop := ∀ w tr r w', plays p w tr r w' → w' = w.

Lemma silent_bind {S E A B} (p : speech C S E A) (k : A → speech C S E B) : silent p → (∀ a, silent (k a)) → silent (x ← p; k x).
Proof.
  intros Hp Hk w tr r w' [(a & w1 & tr1 & tr2 & _ & H1 & H2)|(e & _ & H1)]%plays_bind_inv; [|by eapply Hp].
  apply Hk in H2 as ->. by eapply Hp.
Qed.
Lemma silent_failing {S E E' A} (f : E → E') (p : speech C S E A) : silent p → silent (failing f p).
Proof. intros Hp w tr r w' (r' & _ & Hr)%plays_failing_inv. by eapply Hp. Qed.
Lemma silent_readFull {S} c n : silent (S := S) (readFull c n).
Proof. intros w tr r w' (r' & tr' & _ & _ & _ & _ & ->). done. Qed.
Lemma silent_write {S} c s : silent (S := S) (write c s).
Proof. intros w tr r w' (r' & tr' & _ & _ & _ & ->). done. Qed.
Lemma silent_ret {S E A} (a : A) : silent (S := S) (E := E) (mret a).
Proof. intros w tr r w' (_ & _ & ->). done. Qed.

Lemma silent_ReadFTFrame {S} c : silent (S := S) (ReadFTFrame c).
Proof.
  unfold ReadFTFrame. apply silent_bind; [apply silent_failing, silent_readFull|]. intros l.
  apply silent_bind; [apply silent_failing, silent_readFull|]. intros [|t p]; [intros w tr r w' []|apply silent_ret].
Qed.
Lemma silent_WriteFTFrame {S} c t p : silent (S := S) (WriteFTFrame c t p).
Proof.
  unfold WriteFTFrame. apply silent_bind; [apply silent_failing, silent_write|]. intros _.
  apply silent_bind; [apply silent_failing, silent_write|]. intros _. case_match; [apply silent_failing, silent_write|apply silent_ret].
Qed.

Lemma plays_silent {S E A B} (p : speech C S E A) (k : A → speech C S E B) w tr b w' :
  silent p → plays (x ← p; k x) w tr (Ok b) w' → ∃ a tr', plays (k a) w tr' (Ok b) w'.
Proof. intros Hp [(a & w1 & tr1 & tr2 & _ & ->%Hp & Hk)|(e & [=] & _)]%plays_bind_inv. by exists a, tr2. Qed.

Lemma plays_tried_silent {S E E' A B} (p : speech C S E A) (k : result E A → speech C S E' B) w tr r w' :
  silent p → plays (x ← tried p; k x) w tr r w' → ∃ a tr', plays (k a) w tr' r w'.
Proof.
  intros Hp [(a & w1 & tr1 & tr2 & _ & (r' & [= ->] & ->%Hp)%plays_tried_inv & Hk)|(e & _ & (r' & [=] & _)%plays_tried_inv)]%plays_bind_inv.
  by exists r', tr2.
Qed.

Lemma silent_tried {S E E' A} (p : speech C S E A) : silent p → silent (tried (E' := E') p).
Proof. intros Hp w tr r w' (r' & _ & Hr)%plays_tried_inv. by eapply Hp. Qed.

Lemma plays_acts_bind {S E A B} (m : ST S A) (k : A → speech C S E B) w tr r w' :
  plays (x ← acts m; k x) w tr r w' ↔ plays (k (m w).1) (m w).2 tr r w'.
Proof. done. Qed.

Lemma plays_acts_map {S E A B D} (m : ST S A) (f : A → B) (k : B → speech C S E D) w tr r w' :
  plays (y ← (x ← acts m; mret (f x)); k y) w tr r w' ↔ plays (k (f (m w).1)) (m w).2 tr r w'.
Proof. done. Qed.
End Silent.

(** ** What is received is what was announced *)
Section Verified.
Context {C : Type} `{Agents C disk}.
Context `{Json FtPushPayload} `{Json FtPullPayload} `{Json FtMetaPayload} `{Json FtProgressPayload} `{Json FtErrorPayload}
  `{Json FtDonePayload} `{Json MkdirPayload}.
Context (sha256Hex : string → string).

(** The open file is the one at the path, with this content. *)
Definition writing (d : disk) (f : Z) (path data : string) : Prop :=
  (∃ off, dk_open d !! f = Some (path, off)) ∧ dk_files d !! path = Some data.

(** At the path is a file with the hash that was announced, if one was; nothing
    else is different. *)
Definition asAnnounced (meta : FtMetaPayload) (path : string) (bytes : Z) (d d' : disk) : Prop :=
  ∃ data, dk_files d' = <[path := data]> (dk_files d) ∧ bytes = len data ∧
    (meta_SHA256 meta = "" ∨ sha256Hex data = meta_SHA256 meta).

(** A call that changes no content and no open file. *)
Definition calm {A} (m : ST disk A) : Prop := ∀ d, dk_files (m d).2 = dk_files d ∧ dk_open (m d).2 = dk_open d.

Lemma faulty_calm {A} (m : GoM disk error A) : calm (A := result error A) m → calm (A := result error A) (faulty m).
Proof. intros Hm d. unfold faulty. destruct (dk_faults d) as [|[e|] l]; [apply Hm|done|]. apply (Hm (setFaults l d)). Qed.

Lemma info_calm path : calm (A := result error FileInfo) (StatInfo path).
Proof. by apply faulty_calm. Qed.
Lemma mkdir_calm path : calm (A := result error unit) (MkdirAll path).
Proof. apply faulty_calm. intros d. by case_decide. Qed.
Lemma sync_calm f : calm (A := result error unit) (SyncFd f).
Proof. by apply faulty_calm. Qed.
Lemma ctx_calm : calm CtxErr.
Proof. intros d. cbn. unfold faulty. by destruct (dk_faults d) as [|[e|] l]. Qed.

(** [f] is the file at [path], which has [data]; the rest is as in [d0]. *)
Definition filling (d0 : disk) (path : string) (f : Z) (data : string) (d : disk) : Prop :=
  (∃ off, dk_open d !! f = Some (path, off)) ∧ dk_files d = <[path := data]> (dk_files d0).

Lemma filling_calm {A} (m : ST disk A) d0 path f data d : calm m → filling d0 path f data d → filling d0 path f data (m d).2.
Proof. intros Hm [Ho Hf]. destruct (Hm d) as [Ef Eo]. unfold filling. by rewrite Ef, Eo. Qed.

Lemma write_fills d0 path f data chunk d d' :
  filling d0 path f data d → WriteChunk f chunk d = (Ok (), d') → filling d0 path f (data ++ chunk) d'.
Proof.
  intros [[off Ho] Hf] E. assert (∃ l, d' = setFaults l (setFiles (alter (λ c, c ++ chunk) path (dk_files d)) d)) as [l ->].
  { cbn in E. unfold faulty in E. destruct d as [fs ds os nx fl]. cbn in *. destruct fl as [|[e|] fl]; cbn in E; [|done|]; rewrite Ho in E;
      injection E as <-; by eexists. }
  split; [by exists off|]. cbn. rewrite Hf. rewrite alter_insert_eq. done.
Qed.

Lemma OpenTrunc_fills path d : match OpenTrunc path d with (Ok f, d') => filling d path f "" d' | (Err _, d') => dk_files d' = dk_files d end.
Proof.
  cbn. unfold faulty. destruct (dk_faults d) as [|[e|] l]; cbn; [| done |]; (destruct (decide _) as [?|?]; [|done]); (split; [exists 0%nat; cbn; by rewrite lookup_insert_eq|done]).
Qed.

Lemma OpenCreate_fills path mode d f d' : OpenCreate path mode d = (Ok f, d') → filling d path f "" d'.
Proof.
  cbn. unfold faulty. destruct (dk_faults d) as [|[e|] l]; cbn; [|done|]; (destruct (decide _) as [?|?]; [done|]);
    (intros [= <- <-]; split; [exists 0%nat; cbn; by rewrite lookup_insert_eq|done]).
Qed.

Lemma openDest_fills path mode d f d' : openDest path mode d = (Ok f, d') → filling d path f "" d'.
Proof.
  unfold openDest. pose proof (OpenTrunc_fills path d) as Ht. destruct (OpenTrunc path d) as [[f1|e] d1]; [by intros [= <- <-]|].
  destruct (IsNotExist e); [|done]. intros Hc%OpenCreate_fills. unfold filling in *. by rewrite <- Ht.
Qed.

(** *** The agent *)
Lemma silent_sayError code msg : silent (sayError (W := disk) code msg).
Proof. apply silent_bind; [apply silent_tried, silent_WriteFTFrame|]. intros r. apply silent_ret. Qed.

Lemma dataLoop_announced fuel meta path f d0 : ∀ data d tr bytes d',
  filling d0 path f data d → plays (dataLoop sha256Hex fuel meta path f data) d tr (Ok (true, bytes)) d' → asAnnounced meta path bytes d0 d'.
Proof.
  induction fuel as [|fuel IH]; intros data d tr bytes d' Hf Hp; [destruct Hp|]. cbn [dataLoop] in Hp.
  apply plays_tried_silent in Hp as (frame & tr1 & Hp); [|apply silent_ReadFTFrame].
  destruct frame as [[t chunk]|e]; [|destruct Hp as (_ & [=] & _)].
  destruct (decide (t = FtData)); [destruct (decide (chunk = ""))|destruct (decide (t = FtProgress)); [by eapply (IH _ _ _ _ _ Hf)|]].
  - unfold finishFile in Hp. destruct (decide (_ ∧ _)) as [|Hhash].
    { unfold outcome in Hp. rewrite !plays_acts_bind in Hp. apply plays_silent in Hp as (? & ? & Hp); [|apply silent_sayError]. destruct Hp as (_ & [=] & _). }
    apply plays_tried_silent in Hp as (said & tr2 & Hp); [|apply silent_WriteFTFrame]. destruct said as [[]|?]; [|destruct Hp as (_ & [=] & _)].
    pose proof (filling_calm _ _ _ _ _ _ (sync_calm f) Hf) as Hs. unfold outcome, attempt in Hp. rewrite !plays_acts_bind in Hp.
    destruct (SyncFd f d) as [[[]|?] d1]; cbn [fst snd] in *; [|destruct Hp as (_ & [=] & _)].
    destruct Hp as (_ & [= ->] & ->). exists data. split; [apply Hs|]. split; [done|].
    destruct (decide (meta_SHA256 meta = "")); [by left|right]. destruct (decide (sha256Hex data = meta_SHA256 meta)); [done|]. by destruct Hhash.
  - unfold outcome, attempt in Hp. rewrite plays_acts_bind in Hp.
    destruct (WriteChunk f chunk d) as [[[]|?] d1] eqn:Ew; cbn [fst snd] in *; [|destruct Hp as (_ & [=] & _)].
    eapply IH; [|exact Hp]. by eapply write_fills.
  - destruct (decide (t = FtError)); destruct Hp as (_ & [=] & _).
Qed.

Lemma receiveFile_announced fuel overwrite meta path d tr bytes d' :
  plays (receiveFile sha256Hex fuel overwrite meta path) d tr (Ok (true, bytes)) d' → asAnnounced meta path bytes d d'.
Proof.
  intros Hp. unfold receiveFile, outcome in Hp.
  assert (∃ tr1 d1, dk_files d1 = dk_files d ∧ plays (
    made ← acts (attempt (MkdirAll (Dir path)));
    match made with
    | Err err => _ ← sayError "mkdir_failed" (Error err); mret (false, 0%Z)
    | Ok _ =>
        opened ← acts (attempt (openDest path (meta_Mode meta)));
        match opened with
        | Err err => _ ← sayError "create_failed" (Error err); mret (false, 0%Z)
        | Ok f =>
            said ← tried (WriteFTFrame () FtMeta (marshal accepted));
            match said with
            | Err _ => _ ← acts (CloseFd f); leave
            | Ok _ => dataLoop sha256Hex fuel meta path f ""
            end
        end
    end) d1 tr1 (Ok (true, bytes)) d') as (tr1 & d1 & E1 & Hp1).
  { destruct overwrite; [by exists tr, d|].
    rewrite plays_acts_map in Hp. unfold attempt in Hp.
    destruct (info_calm path d) as [E _]. destruct (is_Ok _); [|by exists tr, (StatInfo path d).2].
    apply plays_silent in Hp as (? & ? & Hp); [|apply silent_sayError]. destruct Hp as (_ & [=] & _). }
  clear Hp. rewrite plays_acts_bind in Hp1. destruct (mkdir_calm (Dir path) d1) as [E2 _]. unfold attempt in *.
  destruct (MkdirAll (Dir path) d1) as [[[]|e] d2]; cbn [fst snd] in *.
  2: { apply plays_silent in Hp1 as (? & ? & Hp1); [|apply silent_sayError]. destruct Hp1 as (_ & [=] & _). }
  rewrite plays_acts_bind in Hp1. destruct (openDest path (meta_Mode meta) d2) as [[f|e] d3] eqn:Eo; cbn [fst snd] in *.
  2: { apply plays_silent in Hp1 as (? & ? & Hp1); [|apply silent_sayError]. destruct Hp1 as (_ & [=] & _). }
  apply plays_tried_silent in Hp1 as (said & tr2 & Hp1); [|apply silent_WriteFTFrame]. destruct said as [[]|e]; [|destruct Hp1 as (_ & [=] & _)].
  apply openDest_fills in Eo. eapply dataLoop_announced; [|exact Hp1]. unfold filling in *. by rewrite <- E1, <- E2.
Qed.

(** *** The host *)
Context (Hprogress : ∀ a b d, (Progress (C := C) (W := disk) a b d).2 = d).

Lemma silent_reportError (c : C) code msg : silent (reportError (W := disk) c code msg).
Proof. apply silent_bind; [apply silent_tried, silent_WriteFTFrame|]. intros r. apply silent_ret. Qed.

Lemma silent_locally {A B} (m : GoM disk error A) (k : A → speech C disk error B) d tr b d' (what : string) :
  plays (x ← failing (wrapf what) (locally m); k x) d tr (Ok b) d' →
  ∃ a, (m d).1 = Ok a ∧ plays (k a) (m d).2 tr (Ok b) d'.
Proof.
  intros Hp. change (plays (tbind (Done (match (m d).1 with Ok a => Ok a | Err e => Err (wrapf what e) end))
    (λ r, match r with Ok a => k a | Err e => Done (Err e) end)) (m d).2 tr (Ok b) d') in Hp.
  destruct (m d).1 as [a|e]; [by exists a|]. destruct Hp as (_ & [=] & _).
Qed.

Lemma receiveLoop_announced fuel (c : C) path f d0 : ∀ data d tr whole d',
  filling d0 path f data d → plays (receiveLoop fuel c path f data) d tr (Ok (Some whole)) d' → filling d0 path f whole d'.
Proof.
  induction fuel as [|fuel IH]; intros data d tr whole d' Hf Hp; [destruct Hp|]. cbn [receiveLoop] in Hp.
  rewrite plays_acts_bind in Hp. pose proof (filling_calm _ _ _ _ _ _ ctx_calm Hf) as Hc.
  destruct (CtxErr d) as [[e|] d1]; cbn [fst snd] in *; [destruct Hp as (_ & [=] & _)|].
  apply plays_tried_silent in Hp as (frame & tr1 & Hp); [|apply silent_ReadFTFrame].
  destruct frame as [[t chunk]|?]; [|destruct Hp as (_ & [=] & _)].
  destruct (decide (t = FtData)); [destruct (decide (chunk = ""))|destruct (decide (t = FtProgress))].
  - destruct Hp as (_ & [= ->] & ->). done.
  - unfold looked, attempt in Hp. rewrite plays_acts_bind in Hp.
    destruct (WriteChunk f chunk d1) as [[[]|?] d2] eqn:Ew; cbn [fst snd] in *; [|destruct Hp as (_ & [=] & _)].
    eapply IH; [|exact Hp]. by eapply write_fills.
  - destruct (unmarshal chunk) as [prog|?]; [|by eapply (IH data); [|exact Hp]].
    rewrite plays_acts_bind in Hp. rewrite Hprogress in Hp. by eapply (IH data); [|exact Hp].
  - destruct (decide (t = FtError)); destruct Hp as (_ & [=] & _).
Qed.

Lemma receivePullFile_announced fuel (c : C) metaPayload dest isDir overwrite d tr r d' :
  plays (receivePullFile sha256Hex fuel c metaPayload dest isDir overwrite) d tr (Ok r) d' → ft_Files r ≠ 0%Z →
  ∃ meta, unmarshal metaPayload = Ok meta ∧
    asAnnounced meta (if isDir then Path_Join [dest; meta_Path meta] else dest) (ft_Bytes r) d d'.
Proof.
  intros Hp Hr. unfold receivePullFile in Hp. destruct (unmarshal metaPayload) as [meta|?]; [|destruct Hp as (_ & [=] & _)].
  exists meta. split; [done|]. set (path := if isDir then Path_Join [dest; meta_Path meta] else dest) in *.
  assert (∃ tr1 d1, dk_files d1 = dk_files d ∧ plays (
    _ ← failing (wrapf "write accept frame") (WriteFTFrame c FtMeta (marshal accepted));
    _ ← failing (wrapf "create destination directory") (locally (MkdirAll (Dir path)));
    f ← failing (wrapf "create destination file") (locally (OpenCreate path (meta_Mode meta)));
    received ← receiveLoop fuel c path f "";
    _ ← acts (CloseFd f);
    match received with
    | None => mret (FTResult_ 0 0 1)
    | Some data =>
        let localHash := sha256Hex data in
        if decide (meta_SHA256 meta ≠ "" ∧ localHash ≠ meta_SHA256 meta) then
          _ ← looked (RemoveFile path);
          refuse (Errorf ("SHA-256 mismatch for " ++ meta_Path meta ++ ": local=" ++ localHash ++ " remote=" ++ meta_SHA256 meta) None)
        else
          _ ← failing (wrapf "write ok frame") (WriteFTFrame c FtOK (marshal (FtMetaPayload_ (meta_Path meta) (len data) 0 localHash false)));
          mret (FTResult_ 1 (len data) 0)
    end) d1 tr1 (Ok r) d') as (tr1 & d1 & E1 & Hp1).
  { destruct overwrite; [by exists tr, d|]. unfold looked in Hp. rewrite plays_acts_map in Hp. unfold attempt in Hp.
    destruct (info_calm path d) as [E _]. destruct (is_Ok _); [|by exists tr, (StatInfo path d).2].
    apply plays_silent in Hp as (? & ? & Hp); [|apply silent_reportError]. destruct Hp as (_ & [= ->] & _). by destruct Hr. }
  clear Hp. apply plays_silent in Hp1 as ([] & tr2 & Hp); [|apply silent_failing, silent_WriteFTFrame].
  apply silent_locally in Hp as ([] & _ & Hp). destruct (mkdir_calm (Dir path) d1) as [E2 _].
  apply silent_locally in Hp as (f & Eo & Hp). destruct (OpenCreate _ _ _) as [r1 d3] eqn:Ec. cbn [fst snd] in *. subst r1.
  apply OpenCreate_fills in Ec.
  apply plays_bind_inv in Hp as [(received & d4 & tr3 & tr4 & _ & Hl & Hp)|(? & [=] & _)].
  rewrite plays_acts_bind in Hp. destruct received as [data|]; [|destruct Hp as (_ & [= ->] & _); by destruct Hr].
  destruct (decide (_ ∧ _)) as [|Hhash]; [destruct Hp as (_ & [=] & _)|].
  apply plays_silent in Hp as ([] & tr5 & Hp); [|apply silent_failing, silent_WriteFTFrame]. destruct Hp as (_ & [= ->] & ->).
  eapply (receiveLoop_announced _ _ _ _ d1) in Hl; [|unfold filling in *; by rewrite <- E2].
  exists data. split; [cbn; rewrite <- E1; apply Hl|]. split; [done|].
  destruct (decide (meta_SHA256 meta = "")); [by left|right]. destruct (decide (sha256Hex data = meta_SHA256 meta)); [done|]. by destruct Hhash.
Qed.

(** C9. Whatever the peer sends and whatever calls of the disk fail: when the agent
    counts a file of a push as received, or the host a file of a pull, the file at
    its place has exactly the content that was received, which has the announced
    SHA-256 unless none was announced, the count of bytes is its length, and no
    other file has changed. *)
Theorem received_as_announced :
  (∀ fuel overwrite meta path d tr bytes d',
     plays (receiveFile sha256Hex fuel overwrite meta path) d tr (Ok (true, bytes)) d' → asAnnounced meta path bytes d d') ∧
  (∀ fuel (c : C) metaPayload dest isDir overwrite d tr r d',
     plays (receivePullFile sha256Hex fuel c metaPayload dest isDir overwrite) d tr (Ok r) d' → ft_Files r ≠ 0%Z →
     ∃ meta, unmarshal metaPayload = Ok meta ∧
       asAnnounced meta (if isDir then Path_Join [dest; meta_Path meta] else dest) (ft_Bytes r) d d').
Proof. split; [exact receiveFile_announced|exact receivePullFile_announced]. Qed.
End Verified.

(** ** Delivery *)

Section Steps.
Context {C S : Type} (c : C).

Lemma plays_said {E A} (g : error → E) t p (k : unit → speech C S E A) w tr r w' :
  plays (k ()) w tr r w' → plays (x ← failing g (WriteFTFrame c t p); k x) w (saidFrame c t p ++ tr) r w'.
Proof. intros Hk. eapply plays_bind; [apply plays_failing, plays_Write|exact Hk]. Qed.

Lemma plays_said_tried {E A} t p (k : result error unit → speech C S E A) w tr r w' :
  plays (k (Ok ())) w tr r w' → plays (x ← tried (WriteFTFrame c t p); k x) w (saidFrame c t p ++ tr) r w'.
Proof. intros Hk. eapply plays_bind; [apply plays_tried, plays_Write|exact Hk]. Qed.

Lemma plays_heard {E A} (g : error → E) t p (k : ascii * string → speech C S E A) w tr r w' : fits p →
  plays (k (t, p)) w tr r w' → plays (x ← failing g (ReadFTFrame c); k x) w (heardFrame c t p ++ tr) r w'.
Proof. intros Hf Hk. eapply plays_bind; [by apply plays_failing, plays_Read|exact Hk]. Qed.

Lemma plays_heard_tried {E A} t p (k : result error (ascii * string) → speech C S E A) w tr r w' : fits p →
  plays (k (Ok (t, p))) w tr r w' → plays (x ← tried (ReadFTFrame c); k x) w (heardFrame c t p ++ tr) r w'.
Proof. intros Hf Hk. eapply plays_bind; [by apply plays_tried, plays_Read|exact Hk]. Qed.
End Steps.

(** The chunks of a content, in a row. *)
Definition joined (chunks : list string) : string := foldr String.append "" chunks.

Lemma Clean_nonempty path : Clean path ≠ "".
Proof.
  unfold Clean. repeat case_bool_decide; try done; by destruct (rooted path).
Qed.

Lemma Dir_nonempty path : Dir path ≠ "".
Proof. unfold Dir. destruct (CutLast path "/") as [[? ?]|]; apply Clean_nonempty. Qed.

Lemma sdrop_sdrop n m s : sdrop n (sdrop m s) = sdrop (m + n) s.
Proof. revert s. induction m as [|m IH]; intros [|x s]; try done; [by destruct n|apply IH]. Qed.

Lemma stake_sdrop n s : stake n s ++ sdrop n s = s.
Proof. revert s. induction n as [|n IH]; intros [|x s]; try done. cbn [stake sdrop]. by rewrite sapp_cons, IH. Qed.

Lemma length_stake n s : String.length (stake n s) = (n `min` String.length s)%nat.
Proof. revert s. induction n as [|n IH]; intros [|x s]; cbn; try done. by rewrite IH. Qed.

Lemma length_sdrop n s : String.length (sdrop n s) = (String.length s - n)%nat.
Proof. revert s. induction n as [|n IH]; intros [|x s]; cbn; done. Qed.

Lemma stake_nil n s : (0 < n)%nat → stake n s = "" → s = "".
Proof. destruct n; [lia|]. by destruct s. Qed.

Section Delivery.
Context `{Agents unit disk}.
Context `{Json FtPushPayload} `{Json FtPullPayload} `{Json FtMetaPayload} `{Json FtProgressPayload} `{Json FtErrorPayload}
  `{Json FtDonePayload} `{Json MkdirPayload}.
Context (sha256Hex : string → string).
Context (Hprogress : ∀ a b d, (Progress (C := unit) (W := disk) a b d).2 = d).

(** The JSON text of a payload fits a frame and is read back. *)
Definition carried {A} `{Json A} (a : A) : Prop := fits (marshal a) ∧ unmarshal (marshal a) = Ok a.

Definition chunkMessages (chunks : list string) : list message := (λ chunk, (true, FtData, chunk)) <$> chunks.
(** The frames of one file. *)
Definition fileMessages (meta ok : FtMetaPayload) (chunks : list string) : list message :=
  ((true, FtMeta, marshal meta) :: (false, FtMeta, marshal accepted) ::
   chunkMessages chunks ++ [(true, FtData, ""); (false, FtOK, marshal ok)])%list.

Definition goodChunks (chunks : list string) : Prop := Forall (λ chunk, chunk ≠ "" ∧ fits chunk) chunks.

(** *** The host reads *)

(** The disk has the same content, and nothing will fail. *)
Definition alike (d d' : disk) : Prop := dk_files d' = dk_files d ∧ dk_dirs d' = dk_dirs d ∧ dk_faults d' = [].

Lemma plays_sendChunks fuel f path size content : ∀ off sent d,
  dk_open d !! f = Some (path, off) → dk_files d !! path = Some content → dk_faults d = [] →
  (String.length content - off < fuel)%nat →
  ∃ chunks d', plays (sendChunks fuel () f path size sent) d (chunkMessages chunks ≫= leftEvents) (Ok (sent + len (sdrop off content))%Z) d' ∧
    joined chunks = sdrop off content ∧ goodChunks chunks ∧ (length chunks <= String.length content - off)%nat ∧ alike d d'.
Proof.
  induction fuel as [|fuel IH]; intros off sent d Ho Hf Hd Hlen; [lia|]. cbn [sendChunks].
  set (data := stake (Z.to_nat ftBufferSize) (sdrop off content)).
  set (d1 := setOpen (<[f := (path, off + String.length data)%nat]> (dk_open d)) d).
  assert (ReadChunk f ftBufferSize d = ((data, if decide (data = "") then AtEnd else More), d1)) as Hr.
  { cbn. unfold faulty, readAt. by rewrite Hd, Ho, Hf. }
  assert (dk_faults d1 = []) as Hd1 by exact Hd.
  destruct (decide (data = "")) as [Hnil|Hdata].
  - assert (sdrop off content = "") as E.
    { apply stake_nil in Hnil; [done|]. unfold ftBufferSize. lia. }
    exists [], d1. split; [|rewrite E; split; [done|]; split; [constructor|]; split; [cbn; lia|done]].
    cbn [chunkMessages fmap list_fmap mbind list_bind]. apply plays_acts_bind. rewrite Hr. cbn [fst snd].
    destruct (decide (data = "")) as [_|]; [|done]. rewrite Hnil, E. done.
  - assert (0 < String.length data <= String.length content - off)%nat as Hpos.
    { split; [|unfold data; rewrite length_stake, length_sdrop; lia]. clearbody data. destruct data; [done|]. simpl. lia. }
    destruct (IH (off + String.length data)%nat (sent + len data)%Z d1) as (chunks & d2 & Hp & Hj & Hg & Hl & Ha).
    { cbn. by rewrite lookup_insert_eq. } { done. } { done. }
    { lia. }
    assert (sdrop (off + String.length data) content = sdrop (Z.to_nat ftBufferSize) (sdrop off content)) as Hrest.
    { rewrite <- sdrop_sdrop. unfold data. rewrite length_stake.
      destruct (Nat.le_ge_cases (Z.to_nat ftBufferSize) (String.length (sdrop off content))) as [Hle|Hge].
      - by rewrite Nat.min_l by done.
      - by rewrite Nat.min_r, !sdrop_all by lia. }
    exists (data :: chunks), d2. split; [|split; [|split; [|split]]].
    + cbn [chunkMessages fmap list_fmap mbind list_bind]. apply plays_acts_bind. rewrite Hr. cbn [fst snd].
      destruct (decide (data = "")) as [|_]; [done|]. unfold leftEvents at 1. cbn [fst snd].
      eapply plays_bind. { rewrite <- (app_nil_r (saidFrame _ _ _)). apply plays_said_tried. cbn. rewrite Hprogress. split_and!; reflexivity. }
      replace (sent + len (sdrop off content))%Z with (sent + len data + len (sdrop (off + String.length data) content))%Z; [exact Hp|].
      rewrite Hrest. unfold len. rewrite <- (stake_sdrop (Z.to_nat ftBufferSize) (sdrop off content)) at 2. fold data.
      rewrite length_sapp. lia.
    + cbn [joined foldr]. fold (joined chunks). rewrite Hj, Hrest. apply stake_sdrop.
    + constructor; [|done]. split; [done|]. unfold fits, len, data. rewrite length_stake.
      unfold ftBufferSize. lia.
    + cbn [length]. lia.
    + done.
Qed.

(** *** Calls that do not fail *)
Definition opened (path : string) (d : disk) : disk := (opening path d).2.

Lemma faulty_ok {A} (m : GoM disk error A) d : dk_faults d = [] → faulty m d = m d.
Proof. intros Hd. unfold faulty. by rewrite Hd. Qed.
Lemma opened_at path d : dk_open (opened path d) !! dk_next d = Some (path, 0%nat).
Proof. cbn. by rewrite lookup_insert_eq. Qed.
Lemma ctx_ok d : dk_faults d = [] → CtxErr d = (None, d).
Proof. intros Hd. cbn. unfold faulty. by rewrite Hd. Qed.
Lemma info_ok d path c : dk_faults d = [] → path ∉ dk_dirs d → dk_files d !! path = Some c →
  StatInfo path d = (Ok (FileInfo_ Regular (len c) 420), d).
Proof. intros Hd Hp Hc. cbn. unfold faulty, infoAt. rewrite Hd. destruct (decide _); [done|]. by rewrite Hc. Qed.
Lemma lstat_ok d path c : dk_faults d = [] → path ∉ dk_dirs d → dk_files d !! path = Some c →
  Lstat path d = (Ok (FileInfo_ Regular (len c) 420), d).
Proof. exact (info_ok d path c). Qed.
Lemma info_none d path : dk_faults d = [] → path ∉ dk_dirs d → dk_files d !! path = None → StatInfo path d = (Err notThere, d).
Proof. intros Hd Hp Hc. cbn. unfold faulty, infoAt. rewrite Hd. destruct (decide _); [done|]. by rewrite Hc. Qed.
Lemma plays_bind_nil {C S E A B} (p : speech C S E A) (k : A → speech C S E B) w tr a w1 r w2 :
  plays p w [] (Ok a) w1 → plays (k a) w1 tr r w2 → plays (x ← p; k x) w tr r w2.
Proof. exact (plays_bind p k w [] tr a w1 r w2). Qed.
Lemma plays_locally_ok {C S E A} (m : GoM S E A) w a w' : m w = (Ok a, w') → plays (locally (C := C) m) w [] (Ok a) w'.
Proof. intros E'. cbn. by rewrite E'. Qed.
Lemma openRead_ok d path c : dk_faults d = [] → dk_files d !! path = Some c → OpenRead path d = (Ok (dk_next d), opened path d).
Proof. intros Hd Hc. etrans; [exact (faulty_ok _ d Hd)|]. cbv beta. destruct (decide _) as [|[]]; [reflexivity|by exists c]. Qed.
Lemma readAll_ok d f path c : dk_faults d = [] → dk_open d !! f = Some (path, 0%nat) → dk_files d !! path = Some c → ReadAll f d = (Ok c, d).
Proof. intros Hd Ho Hc. cbn. unfold faulty. by rewrite Hd, Ho, Hc. Qed.
Lemma mkdir_ok d path : dk_faults d = [] → path ≠ "" → dk_files d !! path = None → MkdirAll path d = (Ok (), setDirs ({[path]} ∪ dk_dirs d) d).
Proof. intros Hd Hp Hc. cbn. unfold faulty. rewrite Hd. destruct (decide _) as [[|[? ?]]|]; [done|congruence|done]. Qed.

Lemma plays_acts_then {C S E A B D} (m : ST S A) (g : A → speech C S E B) (k : B → speech C S E D) w tr r w' :
  plays (y ← (x ← acts m; g x); k y) w tr r w' ↔ plays (y ← g (m w).1; k y) (m w).2 tr r w'.
Proof. done. Qed.

Lemma plays_ret_then {C S E A B} (a : A) (k : A → speech C S E B) w tr r w' : plays (x ← mret a; k x) w tr r w' ↔ plays (k a) w tr r w'.
Proof. done. Qed.

Definition metaOf (rel content : string) : FtMetaPayload := FtMetaPayload_ rel (len content) 420 (sha256Hex content) false.
Definition okOf (rel content : string) : FtMetaPayload := FtMetaPayload_ rel (len content) 0 (sha256Hex content) false.

Lemma plays_sendContent fuel entry content d :
  dk_faults d = [] → dk_files d !! absPath entry = Some content → (String.length content < fuel)%nat →
  carried (okOf (relativePath entry) content) →
  ∃ chunks d', plays (sendContent fuel () entry (len content) (sha256Hex content)) d
      ((chunkMessages chunks ++ [(true, FtData, ""); (false, FtOK, marshal (okOf (relativePath entry) content))])%list ≫= leftEvents)
      (Ok (len content, true)) d' ∧
    joined chunks = content ∧ goodChunks chunks ∧ (length chunks <= String.length content)%nat ∧ alike d d'.
Proof.
  intros Hd Hc Hl [Hfit Hread]. set (f := dk_next d).
  destruct (plays_sendChunks fuel f (absPath entry) (len content) content 0 0 (opened (absPath entry) d)) as
    (chunks & d1 & Hp & Hj & Hg & Hn & Hf & Hdi & Hfa); [apply opened_at|done|done|lia|].
  exists chunks, (CloseFd f d1).2. split; [|split; [done|split; [done|split; [lia|done]]]].
  unfold sendContent, looked, attempt. rewrite plays_acts_bind, (openRead_ok d _ content) by done. cbn [fst snd].
  rewrite bind_app. eapply plays_bind; [exact Hp|]. rewrite plays_acts_bind. cbn [mbind list_bind].
  unfold leftEvents at 1 2. cbn [fst snd].
  apply plays_said. apply plays_heard; [done|]. cbn [fst snd]. rewrite Hread. cbn [okOf meta_SHA256].
  destruct (decide (FtOK = FtError)); [done|]. destruct (decide (FtOK ≠ FtOK)); [done|]. destruct (decide (_ ∧ _)) as [[_ []]|]; done.
Qed.

Lemma plays_sendEntry fuel entry content d :
  dk_faults d = [] → absPath entry ∉ dk_dirs d → dk_files d !! absPath entry = Some content → (String.length content < fuel)%nat →
  carried accepted → carried (okOf (relativePath entry) content) →
  ∃ chunks d', plays (sendEntry sha256Hex fuel () entry) d
      (fileMessages (metaOf (relativePath entry) content) (okOf (relativePath entry) content) chunks ≫= leftEvents)
      (Ok (len content, true)) d' ∧
    joined chunks = content ∧ goodChunks chunks ∧ (length chunks <= String.length content)%nat ∧ alike d d'.
Proof.
  intros Hd Hdir Hc Hl [Hfa Hra] Hok. set (f := dk_next d). set (d1 := (CloseFd f (opened (absPath entry) d)).2).
  destruct (plays_sendContent fuel entry content d1) as (chunks & d2 & Hp & Hj & Hg & Hn & Ha); [done..|].
  exists chunks, d2. split; [|split; [done|split; [done|split; [done|exact Ha]]]].
  unfold sendEntry, unlessCancelled, looked, attempt. rewrite plays_acts_then, ctx_ok by done. cbn [fst snd].
  rewrite plays_ret_then, plays_acts_bind, (info_ok d _ content) by done. cbn [fst snd fi_Size fi_Perm].
  rewrite plays_acts_bind, (openRead_ok d _ content) by done. cbn [fst snd].
  rewrite plays_acts_bind, (readAll_ok _ _ (absPath entry) content) by (done || apply opened_at). cbn [fst snd].
  rewrite plays_acts_bind. cbn [fileMessages mbind list_bind]. unfold leftEvents at 1 2. cbn [fst snd].
  apply plays_said. apply plays_heard; [done|]. rewrite Hra.
  destruct (decide (FtMeta = FtError)); [done|]. destruct (decide (FtMeta ≠ FtMeta)); [done|]. exact Hp.
Qed.

(** *** The guest writes *)
Lemma write_ok d f path off chunk : dk_faults d = [] → dk_open d !! f = Some (path, off) →
  WriteChunk f chunk d = (Ok (), setFiles (alter (λ c, c ++ chunk) path (dk_files d)) d).
Proof. intros Hd Ho. etrans; [exact (faulty_ok _ d Hd)|]. cbv beta. by rewrite Ho. Qed.

Lemma sync_ok d f : dk_faults d = [] → SyncFd f d = (Ok (), d).
Proof. exact (faulty_ok _ d). Qed.

Lemma openDest_ok d path mode : dk_faults d = [] → path ∉ dk_dirs d →
  openDest path mode d = (Ok (dk_next d), opened path (setFiles (<[path := ""]> (dk_files d)) d)).
Proof.
  intros Hd Hp. unfold openDest. assert (OpenTrunc path d = if decide (is_Some (dk_files d !! path))
    then opening path (setFiles (<[path := ""]> (dk_files d)) d) else (Err notThere, d)) as -> by exact (faulty_ok _ d Hd).
  destruct (decide _); [done|]. assert (IsNotExist (W := disk) notThere = true) as -> by done.
  assert (OpenCreate path mode d = if decide (path ∈ dk_dirs d) then (Err notThere, d)
    else opening path (setFiles (<[path := ""]> (dk_files d)) d)) as -> by exact (faulty_ok _ d Hd).
  by destruct (decide _).
Qed.

Lemma plays_dataLoop path f off rel content : ∀ chunks data g,
  dk_open g !! f = Some (path, off) → dk_files g !! path = Some data → dk_faults g = [] →
  goodChunks chunks → data ++ joined chunks = content →
  ∃ g', (∀ fuel, (length chunks < fuel)%nat → plays (dataLoop sha256Hex fuel (metaOf rel content) path f data) g
      ((chunkMessages chunks ++ [(true, FtData, ""); (false, FtOK, marshal (okOf rel content))])%list ≫= rightEvents)
      (Ok (true, len content)) g') ∧
    dk_files g' = <[path := content]> (dk_files g) ∧ dk_dirs g' = dk_dirs g ∧ dk_faults g' = [].
Proof.
  induction chunks as [|chunk chunks IH]; intros data g Ho Hf Hd Hg E.
  - cbn [joined foldr] in E. rewrite sapp_nil_r in E. subst data. exists (CloseFd f g).2.
    split; [|split; [cbn; by rewrite insert_id|done]]. intros [|fuel] Hl; [lia|]. cbn [dataLoop chunkMessages fmap list_fmap app mbind list_bind].
    unfold rightEvents at 1 2. cbn [fst snd]. apply plays_heard_tried; [done|].
    destruct (decide (FtData = FtData)); [|done]. destruct (decide ("" = "")); [|done]. unfold finishFile. cbn [metaOf meta_SHA256 meta_Path].
    destruct (decide (_ ∧ _)) as [[_ []]|]; [done|]. apply plays_said_tried. unfold outcome, attempt. rewrite plays_acts_bind, sync_ok by done.
    done.
  - apply Forall_cons in Hg as [[Hchunk Hfit] Hg]. cbn [joined foldr] in E. fold (joined chunks) in E. rewrite sapp_assoc in E.
    destruct (IH (data ++ chunk) (setFiles (alter (λ c, c ++ chunk) path (dk_files g)) g)) as (g' & Hp & Hf' & Hdi & Hfa); [done| |done|done|done|].
    { cbn. by rewrite lookup_alter_eq, Hf. }
    exists g'. split; [|split; [rewrite Hf'; cbn; rewrite insert_alter; by destruct (decide _)|done]].
    intros [|fuel] Hl; cbn [length] in Hl; [lia|]. cbn [dataLoop chunkMessages fmap list_fmap app mbind list_bind]. unfold rightEvents at 1. cbn [fst snd]. apply plays_heard_tried; [done|].
    destruct (decide (FtData = FtData)); [|done]. destruct (decide (chunk = "")); [done|].
    unfold outcome, attempt. rewrite plays_acts_bind, (write_ok _ _ _ _ _ Hd Ho). apply Hp. lia.
Qed.

(** There is room for a file at the path. *)
Definition roomFor (overwrite : bool) (path : string) (g : disk) : Prop :=
  path ∉ dk_dirs g ∧ dk_files g !! Dir path = None ∧ Dir path ≠ path ∧ (overwrite = true ∨ dk_files g !! path = None).

Lemma plays_receiveFile overwrite path rel content chunks g :
  dk_faults g = [] → roomFor overwrite path g → goodChunks chunks → joined chunks = content →
  ∃ g', (∀ fuel, (length chunks < fuel)%nat → plays (receiveFile sha256Hex fuel overwrite (metaOf rel content) path) g
      (((false, FtMeta, marshal accepted) :: chunkMessages chunks ++ [(true, FtData, ""); (false, FtOK, marshal (okOf rel content))])%list
        ≫= rightEvents) (Ok (true, len content)) g') ∧
    dk_files g' = <[path := content]> (dk_files g) ∧ dk_dirs g' = {[Dir path]} ∪ dk_dirs g ∧ dk_faults g' = [].
Proof.
  intros Hd (Hdir & Hpar & Hne & How) Hg E. set (g1 := setDirs ({[Dir path]} ∪ dk_dirs g) g).
  assert (path ∉ dk_dirs g1) as Hdir1 by (cbn; set_solver).
  set (g2 := opened path (setFiles (<[path := ""]> (dk_files g1)) g1)).
  destruct (plays_dataLoop path (dk_next g1) 0 rel content chunks "" g2) as (g' & Hp & Hf & Hdi & Hfa); [unfold g2; cbn; by rewrite lookup_insert_eq| |done|done|done|].
  { cbn. by rewrite lookup_insert_eq. }
  exists g'. split; [|split; [rewrite Hf; cbn; by rewrite insert_insert_eq|by rewrite Hdi]]. intros fuel Hl.
  unfold receiveFile, outcome, attempt. cbn [mbind list_bind]. unfold rightEvents at 1. cbn [fst snd].
  assert (∀ k : bool → speech unit disk unit (bool * Z), plays (k false) g (saidFrame () FtMeta (marshal accepted) ++
      ((chunkMessages chunks ++ [(true, FtData, ""); (false, FtOK, marshal (okOf rel content))])%list ≫= rightEvents)) (Ok (true, len content)) g' →
    plays (found ← (if overwrite then mret false else st ← acts (λ w, StatInfo path w); mret (is_Ok st)); k found) g (saidFrame () FtMeta (marshal accepted) ++
      ((chunkMessages chunks ++ [(true, FtData, ""); (false, FtOK, marshal (okOf rel content))])%list ≫= rightEvents)) (Ok (true, len content)) g') as Hfound.
  { intros k Hk. destruct overwrite; [done|]. rewrite plays_acts_map. destruct How as [|How]; [done|]. by rewrite info_none. }
  apply Hfound. rewrite plays_acts_bind, mkdir_ok by (done || apply Dir_nonempty). cbn [fst snd]. fold g1.
  rewrite plays_acts_bind, openDest_ok by done. cbn [fst snd]. fold g2. apply plays_said_tried. by apply Hp.
Qed.

(** *** All the files *)
Definition entryOf (src : string) : fileEntry := fileEntry_ src (Base src).

Lemma expandSources_files depth srcs : ∀ entries d, dk_faults d = [] →
  Forall (λ s, s ∉ dk_dirs d ∧ is_Some (dk_files d !! s)) srcs →
  expandSources depth srcs entries d = (Ok (entries ++ (entryOf <$> srcs))%list, d).
Proof.
  induction srcs as [|s srcs IH]; intros entries d Hd Hs; cbn [expandSources fmap list_fmap]; [by rewrite app_nil_r|].
  apply Forall_cons in Hs as [[Hdir [c Hc]] Hs]. rewrite bind_try, (lstat_ok d s c) by done. cbn [fst snd fi_Kind].
  rewrite IH by done. by rewrite <- (assoc (++)%list).
Qed.

Section Files.
Context (fuel : nat) (push : FtPushPayload) (dest : string) (content : string → string).

(** Where a source goes, and what it takes. *)
Definition target (src : string) : string := Path_Join [dest; Base src].
Definition source (src : string) (h : disk) : Prop :=
  src ∉ dk_dirs h ∧ dk_files h !! src = Some (content src) ∧ (String.length (content src) < fuel)%nat ∧
  carried (metaOf (Base src) (content src)) ∧ carried (okOf (Base src) (content src)).
Definition total (srcs : list string) : Z := foldr (λ s n, len (content s) + n)%Z 0%Z srcs.
Definition delivered (srcs : list string) (files : gmap string string) : gmap string string :=
  foldl (λ files s, <[target s := content s]> files) files srcs.

Lemma roomFor_next s s' g g' : roomFor (push_Overwrite push) (target s') g → target s ≠ target s' → Dir (target s) ≠ target s' →
  Dir (target s') ≠ target s → dk_files g' = <[target s := content s]> (dk_files g) → dk_dirs g' = {[Dir (target s)]} ∪ dk_dirs g →
  roomFor (push_Overwrite push) (target s') g'.
Proof.
  intros (H1' & H2' & H3' & H4') Hne Hd Hd' Ef Ed. unfold roomFor. rewrite Ef, Ed. split; [set_solver|].
  rewrite !lookup_insert_ne by done. done.
Qed.

Lemma plays_files srcs : ∀ h g t bytes,
  carried accepted → dk_faults h = [] → dk_faults g = [] → Forall (λ s, source s h) srcs → NoDup (target <$> srcs) →
  Forall (λ s, roomFor (push_Overwrite push) (target s) g) srcs →
  (∀ s s', s ∈ srcs → s' ∈ srcs → Dir (target s) ≠ target s') →
  ∃ ms h' g', plays (sendEntries sha256Hex fuel () (entryOf <$> srcs) bytes 0) h (ms ≫= leftEvents) (Ok (bytes + total srcs, 0)%Z) h' ∧
    alike h h' ∧ dk_faults g' = [] ∧ dk_files g' = delivered srcs (dk_files g) ∧
    ∀ k tr r g'', (fuel <= k)%nat →
      plays (pushLoop sha256Hex k push dest true (Totals (tt_Files t + Z.of_nat (length srcs)) (tt_Bytes t + total srcs) (tt_Errors t))) g' tr r g'' →
      plays (pushLoop sha256Hex (length srcs + k) push dest true t) g ((ms ≫= rightEvents) ++ tr)%list r g''.
Proof.
  induction srcs as [|s srcs IH]; intros h g t bytes Hacc Hh Hg Hs Hnd Hroom Hdirs.
  - exists [], h, g. cbn [total foldr length Nat.add]. rewrite !Z.add_0_r. split; [done|]. split; [done|]. split; [done|]. split; [done|].
    intros k tr r g'' _ Hp. by destruct t.
  - apply Forall_cons in Hs as [(Hdir & Hc & Hlen & Hmeta & Hok) Hs]. apply Forall_cons in Hroom as [Hr Hroom].
    cbn [fmap list_fmap] in Hnd. apply NoDup_cons in Hnd as [Hnew Hnd].
    destruct (plays_sendEntry fuel (entryOf s) (content s) h) as (chunks & h1 & Hp1 & Hj & Hgood & Hcl & Hh1); [done..|].
    destruct (plays_receiveFile (push_Overwrite push) (target s) (Base s) (content s) chunks g) as (g1 & Hp3 & Hf1 & Hd1 & Hfa1); [done..|].
    destruct (IH h1 g1 (addFile (len (content s)) t) (bytes + len (content s))%Z) as (ms & h' & g' & Hp2 & Hh2 & Hg' & Hf' & Hk); [done|apply Hh1|done| |done| | |].
    { destruct Hh1 as (E1 & E2 & E3). eapply Forall_impl; [exact Hs|]. intros s' (A1 & A2 & A3). unfold source. by rewrite E1, E2. }
    { rewrite Forall_forall in Hroom |- *. intros s' Hs'. eapply roomFor_next; [by apply Hroom| | | |exact Hf1|exact Hd1].
      - intros E. apply Hnew. rewrite E. by apply list_elem_of_fmap_2.
      - apply Hdirs; [by left|by right].
      - apply Hdirs; [by right|by left]. }
    { intros s1 s2 E1 E2. apply Hdirs; by right. }
    exists (fileMessages (metaOf (Base s) (content s)) (okOf (Base s) (content s)) chunks ++ ms)%list, h', g'.
    split; [|split; [|split; [done|split; [|]]]].
    + rewrite bind_app. cbn [fmap list_fmap sendEntries]. eapply plays_bind; [exact Hp1|].
      cbn [total foldr]. fold (total srcs). rewrite Z.add_assoc. exact Hp2.
    + destruct Hh1 as (E1 & E2 & E3), Hh2 as (F1 & F2 & F3). unfold alike. by rewrite F1, F2.
    + rewrite Hf', Hf1. done.
    + intros k tr r g'' Hfuel Hp. rewrite bind_app, <- (assoc (++)%list). cbn [length Nat.add pushLoop]. unfold cancelled.
      rewrite plays_acts_map, ctx_ok by done. cbn [fst snd]. destruct (bool_decide_reflect (None (A := error) ≠ None)); [done|].
      cbn [fileMessages mbind list_bind]. unfold rightEvents at 1. cbn [fst snd]. rewrite <- (assoc (++)%list).
      apply plays_heard; [apply Hmeta|]. destruct (decide (FtMeta = FtDone)); [done|]. destruct (decide (FtMeta = FtError)); [done|].
      destruct (decide (FtMeta ≠ FtMeta)); [done|]. destruct Hmeta as [_ ->]. cbn [metaOf meta_Path]. fold (metaOf (Base s) (content s)).
      change (Path_Join [dest; Base s]) with (target s).
      eapply plays_bind; [apply Hp3; lia|]. apply Hk; [done|]. unfold addResult, addFile. cbn [fst snd tt_Files tt_Bytes tt_Errors].
      replace (tt_Files t + 1 + Z.of_nat (length srcs))%Z with (tt_Files t + Z.of_nat (S (length srcs)))%Z by lia.
      by rewrite <- Z.add_assoc.
Qed.
End Files.

Lemma delivered_lookup dest content srcs : ∀ files, NoDup (target dest <$> srcs) →
  (∀ s, s ∈ srcs → delivered dest content srcs files !! target dest s = Some (content s)) ∧
  (∀ path, path ∉ target dest <$> srcs → delivered dest content srcs files !! path = files !! path).
Proof.
  induction srcs as [|s srcs IH]; intros files Hnd; cbn [delivered foldl fmap list_fmap] in *; [split; [by intros s ?%elem_of_nil|done]|].
  apply NoDup_cons in Hnd as [Hnew Hnd]. destruct (IH (<[target dest s := content s]> files) Hnd) as [Hin Hout]. unfold delivered in *.
  split.
  - intros s' [->|Hs']%elem_of_cons; [|by apply Hin]. rewrite Hout by done. by rewrite lookup_insert_eq.
  - intros path Hp. apply not_elem_of_cons in Hp as [Hne Hp]. rewrite Hout by done. by apply lookup_insert_ne.
Qed.

Lemma meets_said_end frameType payload : meets "" (frameBytes frameType payload) [] (saidFrame () frameType payload) "" "".
Proof.
  unfold saidFrame. apply meets_saidR, meets_saidR. pose proof (frame_bytes frameType payload) as Hb. revert Hb. unfold frameBytes.
  destruct (0 <? len payload)%Z; intros Hb; [apply meets_saidR; rewrite <- sapp_assoc|]; rewrite Hb; constructor.
Qed.

(** What the theorem asks for: a directory that can be made at the destination,
    sources that are files, targets that are distinct and do not lie in each
    other, with nothing in the way, and payloads that JSON and the frames carry. *)
Record deliverable (fuel : nat) (srcs : list string) (destPath : string) (overwrite noSync : bool) (content : string → string)
    (h g : disk) : Prop := {
  dv_slash : HasSuffix destPath "/" = true;
  dv_root : TrimSuffix destPath "/" ≠ "";
  dv_free : dk_files g !! TrimSuffix destPath "/" = None;
  dv_host : dk_faults h = [];
  dv_guest : dk_faults g = [];
  dv_sources : Forall (λ s, source fuel content s h) srcs;
  dv_targets : NoDup (target (TrimSuffix destPath "/") <$> srcs);
  dv_room : Forall (λ s, roomFor overwrite (target (TrimSuffix destPath "/") s) g) srcs;
  dv_inside : TrimSuffix destPath "/" ∉ target (TrimSuffix destPath "/") <$> srcs;
  dv_apart : ∀ s s', s ∈ srcs → s' ∈ srcs → Dir (target (TrimSuffix destPath "/") s) ≠ target (TrimSuffix destPath "/") s';
  dv_push : carried (FtPushPayload_ srcs destPath overwrite noSync);
  dv_accept : carried accepted;
  dv_mkdir : fits (marshal (MkdirPayload_ (TrimSuffix destPath "/")));
  dv_done : fits (marshal (FtDonePayload_ (Z.of_nat (length srcs)) (total content srcs) 0));
}.

(** The frames of a push, up to the summary of the host. *)
Definition summary (content : string → string) (srcs : list string) : FtDonePayload :=
  FtDonePayload_ (Z.of_nat (length srcs)) (total content srcs) 0.
Definition pushMessages (push : FtPushPayload) (dest : string) (done : FtDonePayload) (ms : list message) : list message :=
  ((true, FtPush, marshal push) :: (false, FtMkdir, marshal (MkdirPayload_ dest)) :: ms ++ [(true, FtDone, marshal done)])%list.

Lemma host_pushes fuel content srcs destPath overwrite noSync dest ms h h' :
  HasSuffix destPath "/" = true → dk_faults h = [] → Forall (λ s, source fuel content s h) srcs → fits (marshal (MkdirPayload_ dest)) →
  plays (sendEntries sha256Hex fuel () (entryOf <$> srcs) 0 0) h (ms ≫= leftEvents) (Ok (0 + total content srcs, 0)%Z) h' →
  plays (pushFiles sha256Hex fuel () srcs destPath overwrite noSync) h
    (pushMessages (FtPushPayload_ srcs destPath overwrite noSync) dest (summary content srcs) ms ≫= leftEvents)
    (Ok (FTResult_ (Z.of_nat (length srcs)) (total content srcs) 0)) h'.
Proof.
  intros Hslash Hh Hs Hmk Hleft. unfold pushMessages, pushFiles. cbn [mbind list_bind]. rewrite Hslash. cbn [negb andb].
  assert (∀ (k : string → speech unit disk error FTResult) tr r, plays (k destPath) h tr r h' →
    plays (x ← match srcs with [src] => mret destPath | _ => mret destPath end; k x) h tr r h') as Hmode.
  { intros k tr r Hk. by destruct srcs as [|? [|? ?]]. }
  apply Hmode. unfold leftEvents at 1 2. cbn [fst snd]. apply plays_said. apply plays_heard; [done|].
  destruct (decide (FtMkdir ≠ FtMkdir)); [done|].
  eapply plays_bind_nil. { apply plays_failing, plays_locally_ok. apply expandSources_files; [done|].
    eapply Forall_impl; [exact Hs|]. intros s (A1 & A2 & _). rewrite A2. by split; [|eexists]. }
  rewrite bind_app. eapply plays_bind; [exact Hleft|]. cbn [mbind list_bind]. unfold leftEvents at 1. cbn [fst snd].
  cbn [app]. rewrite length_fmap, Z.sub_0_r, Z.add_0_l. apply plays_said. done.
Qed.

(** The guest, from what it does with the files on. *)
Lemma guest_receives fuel push dest done ms g g' :
  HasSuffix (push_Dest push) "/" = true → TrimSuffix (push_Dest push) "/" = dest → dest ≠ "" → dk_files g !! dest = None →
  dk_faults g = [] → carried push →
  plays (pushLoop sha256Hex fuel push dest true noTotals) (setDirs ({[dest]} ∪ dk_dirs g) g)
    ((ms ++ [(true, FtDone, marshal done)])%list ≫= rightEvents) (Ok (Totals (done_Files done) (done_Bytes done) (done_Errors done))) g' →
  plays (handleFileTransfer sha256Hex fuel) g
    ((pushMessages push dest done ms ≫= rightEvents) ++ saidFrame () FtDone (marshal done))%list (Ok ()) g'.
Proof.
  intros Hslash Hdest Hroot Hfree Hg [Hfit Hpush] Hloop. unfold pushMessages. cbn [mbind list_bind]. unfold rightEvents at 1 2. cbn [fst snd].
  rewrite <- !(assoc (++)%list). unfold handleFileTransfer. apply plays_heard_tried; [done|]. destruct (decide (FtPush = FtPush)); [|done].
  unfold handleFTPush. rewrite Hpush, Hslash, Hdest. rewrite plays_ret_then. cbn [negb andb].
  unfold outcome, attempt. rewrite plays_acts_bind, mkdir_ok by done. cbn [fst snd]. apply plays_said.
  eapply plays_bind; [exact Hloop|].
  assert (∀ (k : unit → speech unit disk unit unit) tr r, plays (k ()) g' tr r g' →
    plays (x ← (if push_NoSync push then mret () else acts SyncAll); k x) g' tr r g') as Hsync.
  { intros k tr r Hk. by destruct (push_NoSync push). }
  apply Hsync. unfold must, donePayload. cbn [tt_Files tt_Bytes tt_Errors]. eapply plays_failing. destruct done. apply plays_Write.
Qed.

(** C8. A push of files to a directory of a guest, when [deliverable] holds: no disk
    fails; the destination ends in a slash, is not the root, and no file has its name;
    the sources are readable files of the host; their targets, the base names in the
    destination, are distinct, do not lie in each other or take the name of the
    destination, and each has room: no directory is there, its parent is no file,
    and there is no file either, unless overwriting is asked for; the payloads fit
    their frames and JSON reads them back; and the fuel is above the length of each
    file.  Then in whatever order the host and the agent take their turns, with bytes on the way
    in between, the transfer comes to an end after finitely many steps.  Then the
    host answers that every file was copied, each target in the guest has the
    content of its source, and nothing else has changed.  The agent's own summary
    is still unread on the connection. *)
Theorem push_delivers fuel fuel' content srcs destPath overwrite noSync h g :
  deliverable fuel srcs destPath overwrite noSync content h g → (length srcs + fuel < fuel')%nat →
  let dest := TrimSuffix destPath "/" in
  let n := Z.of_nat (length srcs) in
  ∃ h' g',
    settles (Link (pushFiles sha256Hex fuel () srcs destPath overwrite noSync) h (handleFileTransfer sha256Hex fuel') g "" "")
      (Link (Done (Ok (FTResult_ n (total content srcs) 0))) h' (Done (Ok ())) g' ""
         (frameBytes FtDone (marshal (summary content srcs)))) ∧
    dk_files h' = dk_files h ∧
    (∀ s, s ∈ srcs → dk_files g' !! target dest s = dk_files h !! s) ∧
    (∀ path, path ∉ target dest <$> srcs → dk_files g' !! path = dk_files g !! path).
Proof.
  intros [Hslash Hroot Hfree Hh Hg Hs Hnd Hroom Hin Hapart Hpush Hacc Hmk Hdone] Hfuel dest n.
  set (push := FtPushPayload_ srcs destPath overwrite noSync) in *. set (g0 := setDirs ({[dest]} ∪ dk_dirs g) g).
  destruct (plays_files fuel push dest content srcs h g0 noTotals 0) as (ms & h' & g' & Hleft & Hh' & Hg' & Hf' & Hright); [done..| |done|].
  { rewrite Forall_forall in Hroom |- *. intros s E. destruct (Hroom s E) as (A1 & A2). split; [|done]. intros Ed. apply Hin. fold dest.
    assert (target dest s ∈ target dest <$> srcs) as E2 by (by apply list_elem_of_fmap_2).
    assert (target dest s = dest) as E3; [|by rewrite E3 in E2]. revert Ed. unfold g0. cbn [setDirs dk_dirs].
    rewrite elem_of_union, elem_of_singleton. by intros [Ed|Ed]. }
  exists h', g'. split; [|split; [apply Hh'|]].
  - apply meets_settles with ((pushMessages push dest (summary content srcs) ms ≫= leftEvents) ++ [])%list
      ((pushMessages push dest (summary content srcs) ms ≫= rightEvents) ++ saidFrame () FtDone (marshal (summary content srcs)))%list;
      [apply meets_messages, meets_said_end| |].
    + rewrite app_nil_r. by apply host_pushes.
    + apply guest_receives; [done..|]. fold g0. rewrite bind_app.
      replace fuel' with (length srcs + (fuel' - length srcs))%nat by lia. apply Hright; [lia|].
      destruct (fuel' - length srcs)%nat as [|k] eqn:Ek; [lia|]. cbn [pushLoop]. unfold cancelled.
      rewrite plays_acts_map, ctx_ok by done. cbn [fst snd]. destruct (bool_decide_reflect (None (A := error) ≠ None)); [done|].
      cbn [mbind list_bind]. unfold rightEvents. cbn [fst snd]. apply plays_heard; [done|]. by destruct (decide (FtDone = FtDone)).
  - destruct (delivered_lookup dest content srcs (dk_files g) Hnd) as [Hd1 Hd2]. rewrite Hf'. split; [|exact Hd2].
    intros s E. change (dk_files g0) with (dk_files g). rewrite Hd1 by done. rewrite Forall_forall in Hs. by destruct (Hs s E) as (_ & -> & _).
Qed.
End Delivery.

(** * Examples *)
Module FileExamples.

(** Payloads as binary numbers. *)
Fixpoint bitsOf (p : positive) : string :=
  match p with xH => "" | xO p => String "0" (bitsOf p) | xI p => String "1" (bitsOf p) end.
Fixpoint ofBits (s : string) : positive :=
  match s with "" => xH | String c s => if Ascii.eqb c "1" then xI (ofBits s) else xO (ofBits s) end.
#[local] Instance bits_json {A} `{Countable A} : Json A := {|
  marshal a := bitsOf (encode a);
  unmarshal s := match decode (ofBits s) with Some a => Ok a | None => Err notThere end |}.

Lemma ofBits_bitsOf p : ofBits (bitsOf p) = p.
Proof. induction p as [p IH|p IH|]; cbn; [by rewrite IH..|done]. Qed.
Lemma bits_roundtrip {A} `{Countable A} (a : A) : unmarshal (marshal a) = Ok a.
Proof. cbn. by rewrite ofBits_bitsOf, decode_encode. Qed.

#[local] Instance push_eq_dec : EqDecision FtPushPayload. Proof. solve_decision. Defined.
#[local] Instance pull_eq_dec : EqDecision FtPullPayload. Proof. solve_decision. Defined.
#[local] Instance meta_eq_dec : EqDecision FtMetaPayload. Proof. solve_decision. Defined.
#[local] Instance progress_eq_dec : EqDecision FtProgressPayload. Proof. solve_decision. Defined.
#[local] Instance ftError_eq_dec : EqDecision FtErrorPayload. Proof. solve_decision. Defined.
#[local] Instance done_eq_dec : EqDecision FtDonePayload. Proof. solve_decision. Defined.
#[local] Instance mkdir_eq_dec : EqDecision MkdirPayload. Proof. solve_decision. Defined.
#[local] Program Instance push_countable : Countable FtPushPayload :=
  inj_countable' (λ x, (push_Paths x, push_Dest x, push_Overwrite x, push_NoSync x)) (λ '(a, b, c, d), FtPushPayload_ a b c d) _.
Next Obligation. by intros []. Qed.
#[local] Program Instance pull_countable : Countable FtPullPayload :=
  inj_countable' (λ x, (pull_Path x, pull_Dest x, pull_Overwrite x, pull_Recursive x)) (λ '(a, b, c, d), FtPullPayload_ a b c d) _.
Next Obligation. by intros []. Qed.
#[local] Program Instance meta_countable : Countable FtMetaPayload :=
  inj_countable' (λ x, (meta_Path x, meta_Size x, meta_Mode x, meta_SHA256 x, meta_Accepted x)) (λ '(a, b, c, d, e), FtMetaPayload_ a b c d e) _.
Next Obligation. by intros []. Qed.
#[local] Program Instance progress_countable : Countable FtProgressPayload :=
  inj_countable' (λ x, (prog_Path x, prog_Bytes x, prog_Total x)) (λ '(a, b, c), FtProgressPayload_ a b c) _.
Next Obligation. by intros []. Qed.
#[local] Program Instance ftError_countable : Countable FtErrorPayload :=
  inj_countable' (λ x, (fte_Code x, fte_Message x)) (λ '(a, b), FtErrorPayload_ a b) _.
Next Obligation. by intros []. Qed.
#[local] Program Instance done_countable : Countable FtDonePayload :=
  inj_countable' (λ x, (done_Files x, done_Bytes x, done_Errors x)) (λ '(a, b, c), FtDonePayload_ a b c) _.
Next Obligation. by intros []. Qed.
#[local] Program Instance mkdir_countable : Countable MkdirPayload := inj_countable' mkdir_Path MkdirPayload_ _.
Next Obligation. by intros []. Qed.

#[local] Instance quiet_agents : Agents unit disk := {|
  ensureAgent _ := mret (); SendFrame _ _ := mret (); readFrameRaw _ := mret "ft-ready"; Token _ := ""; Progress _ _ := mret () |}.

Lemma quiet_progress a b d : (Progress (C := unit) (W := disk) a b d).2 = d.
Proof. done. Qed.

Definition hash (s : string) : string := "#" ++ s.
Definition hostDisk : disk := Disk {[ "/a/x.txt" := "hello"; "/b/y" := "" ]} {[ "/a"; "/b" ]} ∅ 3 [].
Definition guestDisk : disk := Disk {[ "/root/in/x.txt" := "old"; "/etc/motd" := "hi" ]} {[ "/root/in" ]} ∅ 3 [].

Lemma example_carried {A} `{Countable A} (a : A) : bool_decide (fits (marshal a)) = true → carried a.
Proof. intros Hf%bool_decide_eq_true. split; [done|apply bits_roundtrip]. Qed.

Definition contentOf (s : string) : string := default "" (dk_files hostDisk !! s).

Lemma example_source s c :
  s ∉ dk_dirs hostDisk → dk_files hostDisk !! s = Some c → (String.length c < 10)%nat →
  bool_decide (fits (marshal (metaOf hash (Base s) c))) = true → bool_decide (fits (marshal (okOf hash (Base s) c))) = true →
  source hash 10 contentOf s hostDisk.
Proof.
  intros Hd Hc Hl Hm Ho. unfold source, contentOf. rewrite Hc. cbn [default from_option].
  split_and!; [done|done|done|by apply example_carried..].
Qed.

Lemma example_deliverable : deliverable hash 10 ["/a/x.txt"; "/b/y"] "/root/in/" true false contentOf hostDisk guestDisk.
Proof.
  split.
  - vm_compute. reflexivity.
  - vm_compute. discriminate.
  - vm_compute. reflexivity.
  - reflexivity.
  - reflexivity.
  - constructor; [|constructor; [|constructor]]; [apply (example_source _ "hello")|apply (example_source _ "")];
      first [apply (bool_decide_unpack _); vm_compute; exact I|vm_compute; reflexivity|apply Nat.ltb_lt; vm_compute; reflexivity].
  - apply (bool_decide_unpack _). vm_compute. exact I.
  - apply (bool_decide_unpack _). vm_compute. exact I.
  - apply (bool_decide_unpack _). vm_compute. exact I.
  - intros s s'. rewrite !elem_of_cons, !elem_of_nil. intros [->|[->|[]]] [->|[->|[]]]; vm_compute; discriminate.
  - apply example_carried. vm_compute. reflexivity.
  - apply example_carried. vm_compute. reflexivity.
  - vm_compute. reflexivity.
  - vm_compute. reflexivity.
Qed.

Lemma push_delivers_witness : ∃ h' g',
  settles (Link (pushFiles hash 10 () ["/a/x.txt"; "/b/y"] "/root/in/" true false) hostDisk (handleFileTransfer hash 20) guestDisk "" "")
    (Link (Done (Ok (FTResult_ 2 5 0))) h' (Done (Ok ())) g' "" (frameBytes FtDone (marshal (FtDonePayload_ 2 5 0)))) ∧
  dk_files g' !! "/root/in/x.txt" = Some "hello" ∧ dk_files g' !! "/root/in/y" = Some "" ∧ dk_files g' !! "/etc/motd" = Some "hi".
Proof.
  destruct (push_delivers hash quiet_progress 10 20 contentOf ["/a/x.txt"; "/b/y"] "/root/in/" true false hostDisk guestDisk example_deliverable)
    as (h' & g' & Hs & _ & Hin & Hout); [cbn; lia|]. exists h', g'. split; [exact Hs|].
  split; [|split].
  - etrans; [exact (Hin "/a/x.txt" ltac:(by left))|by vm_compute].
  - etrans; [exact (Hin "/b/y" ltac:(by right; left))|by vm_compute].
  - etrans; [apply (Hout "/etc/motd"); apply (bool_decide_unpack _); by vm_compute|by vm_compute].
Defined.

(** A file of four bytes arrives in the guest while the disk works. *)
Lemma received_as_announced_witness : ∃ tr g', plays (receiveFile hash 10 true (metaOf hash "x" "data") "/root/in/x.txt") guestDisk tr (Ok (true, 4%Z)) g' ∧
  asAnnounced hash (metaOf hash "x" "data") "/root/in/x.txt" 4 guestDisk g'.
Proof.
  destruct (plays_receiveFile hash quiet_progress true "/root/in/x.txt" "x" "data" ["da"; "ta"] guestDisk) as (g' & Hp & _); [done| |repeat constructor; done|done|].
  { split; [apply (bool_decide_unpack _); by vm_compute|]. split; [by vm_compute|]. split; [by vm_compute|by left]. }
  eexists _, g'. split; [apply (Hp 10%nat); cbn; lia|]. eapply (proj1 (received_as_announced (C := unit) hash quiet_progress)). apply (Hp 10%nat). cbn. lia.
Defined.

(** An agent that is not ours. *)
Definition hostile : speech unit unit error unit :=
  _ ← ReadFTFrame ();
  _ ← WriteFTFrame () FtMeta (marshal (FtMetaPayload_ "../../../etc/passwd" 1 420 "" false));
  _ ← ReadFTFrame ();
  _ ← WriteFTFrame () FtData "x";
  _ ← WriteFTFrame () FtData "";
  _ ← ReadFTFrame ();
  WriteFTFrame () FtDone "".

(** The name of a pulled file is the guest's: the host writes outside of the
    directory it was asked to write to. *)
Lemma pull_escapes : ∃ d, rtc joint (Link (pullFiles hash 20 () "/srv/" "/home/me/in/" false) hostDisk hostile () "" "") d ∧
  lk_left d = Done (Ok (FTResult_ 1 1 0)) ∧ dk_files (lk_lworld d) !! "/etc/passwd" = Some "x".
Proof.
  exists (runJoint 200 (Link (pullFiles hash 20 () "/srv/" "/home/me/in/" false) hostDisk hostile () "" "")).
  split; [apply runJoint_rtc|]. split; vm_compute; reflexivity.
Qed.

(** Without force, a file that is there is refused, and the agent closes the
    connection: the host answers that it is gone, not that the file exists. *)
Lemma pull_refusal_lost : ∃ d, rtc joint (Link (pullFiles hash 20 () "/etc/motd" "/a/x.txt" false) hostDisk (handleFileTransfer hash 20) guestDisk "" "") d ∧
  lk_left d = Done (Err (wrapf "read frame" (wrapf "read frame length" (eof "")))).
Proof.
  exists (runJoint 200 (Link (pullFiles hash 20 () "/etc/motd" "/a/x.txt" false) hostDisk (handleFileTransfer hash 20) guestDisk "" "")).
  split; [apply runJoint_rtc|]. vm_compute. reflexivity.
Qed.

(** Four bytes from a guest make the host panic. *)
Lemma empty_frame_panics : ∃ d, rtc joint (Link (pullFiles hash 20 () "/srv/" "/home/me/in/" false) hostDisk (write (S := unit) () (bigEndian32 0)) () "" "") d ∧
  lk_left d = Crash.
Proof.
  exists (runJoint 200 (Link (pullFiles hash 20 () "/srv/" "/home/me/in/" false) hostDisk (write (S := unit) () (bigEndian32 0)) () "" "")).
  split; [apply runJoint_rtc|]. vm_compute. reflexivity.
Qed.
End FileExamples.
