(* ===== verification/Pipeline.v ===== *)
(** * Pipelines: [internal/lib/workflow/pipeline.go, step.go, state.go]

    A [Pipeline] runs the levels of [BuildDAG]: the steps of a level run
    concurrently, and the next level starts when all of them have returned.  The
    goroutines of a level are modelled as programs whose atomic actions on a
    shared world interleave in every order. *)

From stdpp Require Import gmap strings list relations.
From S2P Require Import Prelude GoStrings Errs Model Dag.
#[local] Open Scope string_scope.

(** ** Programs *)

(** The body of a goroutine: atomic actions on the world, and an answer. *)
Inductive prog (W : Type) : Type :=
  | PRet (err : option error)
  | PDo (X : Type) (m : W → X * W) (k : X → prog W).
Arguments PRet {W}.
Arguments PDo {W}.

(** [event.Progress], less the fields of downloads. *)
Record Progress := Progress_ { Phase : string; ProgressStatus : string; ProgressMessage : string }.

(** ** The shared state ([state.go]); every method is atomic under its lock *)

(** The values are [any]; a run keeps values of one sum type [V] in it. *)
Definition SharedState (V : Type) := gmap string V.

Definition NewSharedState {V} : SharedState V := ∅.
Definition SetValue {V} (stepName : string) (value : V) (s : SharedState V) : SharedState V :=
  <[stepName := value]> s.
Definition GetValue {V} (stepName : string) (s : SharedState V) : option V := s !! stepName.

(** In no particular order. *)
Definition Keys {V} (s : SharedState V) : list string := (map_to_list s).*1.

(** ** Steps ([step.go]) *)

(** [StateWriter]: nil, or a call on the world. *)
Definition StateWriter (W : Type) : Type := option (ResourceState → W → option error * W).

(** The methods of [Step] that [BuildDAG] does not read; a step is a pointer, and
    what its methods read and write of it is part of the world. *)
Class Runnable (W A : Type) := {
  Apply : A → ResourceState → StateWriter W → prog W;
  Destroy : A → ResourceState → StateWriter W → prog W;
  StateData : A → W → ResourceState;
  SpecHash : A → string;
  Removes : A → list string;
}.

(** The adapter [StepFunc]. *)
Record StepFunc (W : Type) := StepFunc_ {
  sf_stepType : string;
  sf_name : string;
  sf_deps : list string;
  sf_removes : list string;
  sf_specHash : string;
  sf_applyFn : ResourceState → StateWriter W → prog W;
  sf_destroyFn : ResourceState → StateWriter W → prog W;
  sf_stateDataFn : W → ResourceState;
}.
Arguments StepFunc_ {W}.
Arguments sf_stepType {W}.
Arguments sf_name {W}.
Arguments sf_deps {W}.
Arguments sf_removes {W}.
Arguments sf_specHash {W}.
Arguments sf_applyFn {W}.
Arguments sf_destroyFn {W}.
Arguments sf_stateDataFn {W}.

(** No hash is set by the constructor. *)
Definition NewStepFunc {W} (stepType name : string) (deps removes : list string)
    (apply destroy : ResourceState → StateWriter W → prog W) (stateData : W → ResourceState) : StepFunc W :=
  StepFunc_ stepType name deps removes "" apply destroy stateData.

#[export] Instance StepFunc_Step W : Step (StepFunc W) :=
  {| Name := sf_name; Type_ := sf_stepType; Dependencies := sf_deps |}.
#[export] Instance StepFunc_Runnable W : Runnable W (StepFunc W) :=
  {| Apply := sf_applyFn; Destroy := sf_destroyFn; StateData := sf_stateDataFn;
     SpecHash := sf_specHash; Removes := sf_removes |}.

(** The wrapper of [NewDestroyPipeline]. *)
Record stepDepOverride (A : Type) := StepDepOverride { sdo_Step : A; sdo_deps : list string }.
Arguments StepDepOverride {A}.
Arguments sdo_Step {A}.
Arguments sdo_deps {A}.

#[export] Instance stepDepOverride_Step A `{Step A} : Step (stepDepOverride A) :=
  {| Name := λ w, Name (sdo_Step w); Type_ := λ w, Type_ (sdo_Step w); Dependencies := sdo_deps |}.
#[export] Instance stepDepOverride_Runnable W A `{Runnable W A} : Runnable W (stepDepOverride A) :=
  {| Apply := λ w, Apply (sdo_Step w); Destroy := λ w, Destroy (sdo_Step w);
     StateData := λ w, StateData (sdo_Step w); SpecHash := λ w, SpecHash (sdo_Step w);
     Removes := λ w, Removes (sdo_Step w) |}.

(** ** Pipelines *)

Record Pipeline (A : Type) := Pipeline_ { steps : list A; plevels : list (list A) }.
Arguments Pipeline_ {A}.
Arguments steps {A}.
Arguments plevels {A}.

Definition dagError (e : dag_error) : error :=
  Errorf (match e with
          | DuplicateStepName name => "duplicate step name: " ++ name
          | MissingDependency step dep => "step " ++ Quote step ++ " depends on " ++ Quote dep ++ ", but no step with that name exists"
          | CycleDetected cyclePath => "cycle detected in step dependencies: " ++ cyclePath
          end) None.

(** [BuildDAG] always returns (theorem [BuildDAG_errors] of [Dag]); [None] would
    be a run without end. *)
Definition NewPipeline {A} `{Step A} (ss : list A) : option (result error (Pipeline A)) :=
  match BuildDAG ss with
  | None => None
  | Some (Err e) =>
      let err := dagError e in Some (Err (Errorf ("build DAG: " ++ Error err) (Some err)))
  | Some (Ok lvls) => Some (Ok (Pipeline_ ss lvls))
  end.

Definition NewDestroyPipeline {A} `{Step A} (ss : list A) (existingNames : gset string)
    : option (result error (Pipeline (stepDepOverride A))) :=
  NewPipeline ((λ s, StepDepOverride s (filter (λ d, d ∈ existingNames) (Dependencies s))) <$> ss).

(** ** Running levels *)
Section Machine.
Context {W A : Type} `{Step A}.

(** What [Execute] and [Destroy] run for a step, whether they stop after a level
    with an error, the messages of their events, the text around an error, and
    [ctx.Err()] of a context that is done. *)
Context (body : A → prog W) (halts : bool) (startMsg doneMsg : string).
Context (wrap : string → error → error) (ctxErr : error).

(** Where the goroutine of a step is: not scheduled yet, in the step's method,
    back from it, past the event that reports the answer, past [wg.Done()]. *)
Inductive gphase :=
  | GPending
  | GRunning (p : prog W)
  | GReturned (r : option error)
  | GReported (r : option error)
  | GDone (r : option error).

(** Where the loop is: before a level, waiting for the goroutines of one, or back. *)
Inductive control :=
  | CHead (left : list (list A))
  | CLevel (gs : list (A * gphase)) (left : list (list A))
  | CReturn (err : option error).

(** [events]: the calls of [emitProgress] so far. *)
Record mstate := MState {
  ctl : control;
  firstErr : option error;
  events : list Progress;
  mworld : W;
}.

Definition runningEvent (s : A) : Progress := Progress_ (Name s) "running" startMsg.

Definition reportEvent (s : A) (r : option error) : Progress :=
  match r with
  | None => Progress_ (Name s) "complete" doneMsg
  | Some e => Progress_ (Name s) "failed" (Error e)
  end.

(** [if firstErr == nil { firstErr = ... }]. *)
Definition recordErr (first : option error) (s : A) (r : option error) : option error :=
  match first, r with
  | None, Some e => Some (wrap (Name s) e)
  | _, _ => first
  end.

Inductive mstep : mstate → mstate → Prop :=
  (** [case <-ctx.Done(): return ctx.Err()]: the context may be done at any level. *)
  | m_cancel l left fe ev w :
      mstep (MState (CHead (l :: left)) fe ev w) (MState (CReturn (Some ctxErr)) fe ev w)
  | m_level l left fe ev w :
      mstep (MState (CHead (l :: left)) fe ev w)
            (MState (CLevel ((λ s, (s, GPending)) <$> l) left) fe ev w)
  | m_end fe ev w :
      mstep (MState (CHead []) fe ev w) (MState (CReturn (if halts then None else fe)) fe ev w)
  | m_start gs left i s fe ev w :
      gs !! i = Some (s, GPending) →
      mstep (MState (CLevel gs left) fe ev w)
            (MState (CLevel (<[i := (s, GRunning (body s))]> gs) left) fe (ev ++ [runningEvent s])%list w)
  | m_act gs left i s X m (k : X → prog W) x w' fe ev w :
      gs !! i = Some (s, GRunning (PDo X m k)) → m w = (x, w') →
      mstep (MState (CLevel gs left) fe ev w) (MState (CLevel (<[i := (s, GRunning (k x))]> gs) left) fe ev w')
  | m_return gs left i s r fe ev w :
      gs !! i = Some (s, GRunning (PRet r)) →
      mstep (MState (CLevel gs left) fe ev w) (MState (CLevel (<[i := (s, GReturned r)]> gs) left) fe ev w)
  | m_report gs left i s r fe ev w :
      gs !! i = Some (s, GReturned r) →
      mstep (MState (CLevel gs left) fe ev w)
            (MState (CLevel (<[i := (s, GReported r)]> gs) left) fe (ev ++ [reportEvent s r])%list w)
  | m_done gs left i s r fe ev w :
      gs !! i = Some (s, GReported r) →
      mstep (MState (CLevel gs left) fe ev w)
            (MState (CLevel (<[i := (s, GDone r)]> gs) left) (recordErr fe s r) ev w)
  (** [wg.Wait()] returns. *)
  | m_wait gs left fe ev w :
      Forall (λ g, ∃ r, g.2 = GDone r) gs →
      mstep (MState (CLevel gs left) fe ev w)
            (MState (if halts && bool_decide (is_Some fe) then CReturn fe else CHead left) fe ev w).

Definition minit (lvls : list (list A)) (w : W) : mstate := MState (CHead lvls) None [] w.
End Machine.

Section Operations.
Context {W A : Type} `{Step A, !Runnable W A}.

(** The states of a prior run, by name; the last of a name wins. *)
Definition savedByStep (savedResources : list AppliedResource) : gmap string ResourceState :=
  foldl (λ m sr, <[ar_Name sr := ar_State sr]> m) ∅ savedResources.

Definition zeroState : ResourceState := ResourceState_ ∅ ∅ (ResourceMeta_ false "").

Definition savedState (savedResources : list AppliedResource) (s : A) : ResourceState :=
  default zeroState (savedByStep savedResources !! Name s).

(** [cfg.onStepComplete], as the writer of one step. *)
Definition writerOf (onStepComplete : option (A → ResourceState → W → option error * W)) (s : A) : StateWriter W :=
  (λ cb, cb s) <$> onStepComplete.

Definition stepError (name : string) (e : error) : error :=
  Errorf ("step " ++ Quote name ++ ": " ++ Error e) (Some e).

Definition destroyError (name : string) (e : error) : error :=
  Errorf ("destroy step " ++ Quote name ++ ": " ++ Error e) (Some e).

Definition Execute_step (savedResources : list AppliedResource)
    (onStepComplete : option (A → ResourceState → W → option error * W)) (ctxErr : error)
    : mstate → mstate → Prop :=
  mstep (λ s, Apply s (savedState savedResources s) (writerOf onStepComplete s))
    true "starting" "done" stepError ctxErr.

Definition Execute_init (p : Pipeline A) (w : W) : mstate := minit (plevels p) w.

Definition Destroy_step (savedResources : list AppliedResource)
    (onStepComplete : option (A → ResourceState → W → option error * W)) (ctxErr : error)
    : mstate → mstate → Prop :=
  mstep (λ s, Destroy s (savedState savedResources s) (writerOf onStepComplete s))
    false "destroying" "destroyed" destroyError ctxErr.

Definition Destroy_init (p : Pipeline A) (w : W) : mstate := minit (reverse (plevels p)) w.
End Operations.

(** ** The invariant of a run *)

(** The events about one step, in order. *)
Definition eventsOf (n : string) (ev : list Progress) : list Progress :=
  filter (λ e, Phase e = n) ev.

Lemma eventsOf_app n ev evs : eventsOf n (ev ++ evs) = (eventsOf n ev ++ eventsOf n evs)%list.
Proof. apply filter_app. Qed.

Lemma eventsOf_other n m evs : n ≠ m → Forall (λ e, Phase e = m) evs → eventsOf n evs = [].
Proof.
  intros Hne. induction 1 as [|e evs He Hevs IH]; [done|].
  unfold eventsOf in *. rewrite filter_cons, decide_False by congruence. done.
Qed.

Lemma eventsOf_same n evs : Forall (λ e, Phase e = n) evs → eventsOf n evs = evs.
Proof.
  induction 1 as [|e evs He Hevs IH]; [done|].
  unfold eventsOf in *. by rewrite filter_cons, decide_True, IH.
Qed.

Lemma eventsOf_elem n e ev : e ∈ eventsOf n ev → e ∈ ev.
Proof. by intros [_ ?]%list_elem_of_filter. Qed.

Section MachineProperties.
Context {W A : Type} `{Step A}.
Context (body : A → prog W) (halts : bool) (startMsg doneMsg : string).
Context (wrap : string → error → error) (ctxErr : error).
Context (lvls : list (list A)) (names_unique : NoDup (Name <$> mjoin lvls)).

#[local] Notation mstep := (mstep body halts startMsg doneMsg wrap ctxErr).
#[local] Notation runningEvent := (runningEvent startMsg).
#[local] Notation reportEvent := (reportEvent doneMsg).
#[local] Notation mstate := (mstate (W := W) (A := A)).
#[local] Notation gphase := (gphase (W := W)).

(** The events a goroutine has emitted. *)
Definition trace (s : A) (ph : gphase) : list Progress :=
  match ph with
  | GPending => []
  | GRunning _ | GReturned _ => [runningEvent s]
  | GReported r | GDone r => [runningEvent s; reportEvent s r]
  end.

(** When the method of a step starts, every step of an earlier level has
    reported, without error if errors stop the run. *)
Definition ordered (ev : list Progress) : Prop :=
  ∀ e1 s e2, ev = (e1 ++ runningEvent s :: e2)%list →
  ∀ j k t, j < k → atLevel lvls j t → atLevel lvls k s →
  ∃ r, reportEvent t r ∈ e1 ∧ (halts = true → r = None).

Definition stepsIn {B : Type} (ls : list (list (A * B))) : list (list A) := (λ l : list (A * B), l.*1) <$> ls.

(** The goroutines of the level at hand, and the levels after it. *)
Inductive view : control → list (list (A * gphase)) → list (list A) → Prop :=
  | v_head left : view (CHead left) [] left
  | v_level gs left : view (CLevel gs left) [gs] left
  | v_return r left : view (CReturn r) [] left
  | v_halted r gs left : view (CReturn r) [gs] left.

(** [passed]: the levels left behind, with the answers of their steps. *)
Record minv (st : mstate) (passed : list (list (A * option error)))
    (cur : list (list (A * gphase))) (left : list (list A)) : Prop := {
  mi_view : view (ctl st) cur left;
  mi_levels : lvls = (stepsIn passed ++ stepsIn cur ++ left)%list;
  mi_passed : ∀ l s r, l ∈ passed → (s, r) ∈ l →
    eventsOf (Name s) (events st) = [runningEvent s; reportEvent s r];
  mi_cur : ∀ gs i s ph, gs ∈ cur → gs !! i = Some (s, ph) →
    eventsOf (Name s) (events st) = trace s ph;
  mi_left : ∀ l s, l ∈ left → s ∈ l → eventsOf (Name s) (events st) = [];
  mi_known : ∀ e, e ∈ events st → Phase e ∈ Name <$> mjoin lvls;
  mi_halt : halts = true → ∀ l s r, l ∈ passed → (s, r) ∈ l → r = None;
  mi_noErr : firstErr st = None →
    (∀ l s r, l ∈ passed → (s, r) ∈ l → r = None) ∧
    (∀ gs s r, gs ∈ cur → (s, GDone r) ∈ gs → r = None);
  mi_err : ∀ e, firstErr st = Some e → ∃ s err, e = wrap (Name s) err ∧
    ((∃ l, l ∈ passed ∧ (s, Some err) ∈ l) ∨ (∃ gs, gs ∈ cur ∧ (s, GDone (Some err)) ∈ gs));
  mi_order : ordered (events st);
  mi_return : ∀ r, ctl st = CReturn r →
    (r = Some ctxErr ∧ cur = []) ∨
    (cur = [] ∧ left = [] ∧ r = if halts then None else firstErr st) ∨
    (halts = true ∧ r = firstErr st ∧ is_Some r ∧
      ∃ gs, cur = [gs] ∧ Forall (λ g : A * gphase, ∃ a, g.2 = GDone a) gs);
}.

Lemma minv_init w : minv (minit lvls w) [] [] lvls.
Proof.
  split; simpl; try done; try (intros; exfalso; by eapply elem_of_nil).
  - constructor.
  - split; intros ??? Hl; by apply elem_of_nil in Hl.
  - intros e1 s e2 E. by destruct e1.
Qed.

Lemma stepsIn_elem {B} (ls : list (list (A * B))) l s r :
  l ∈ ls → (s, r) ∈ l → s ∈ mjoin (stepsIn ls).
Proof.
  intros Hl Hs. apply list_elem_of_join. exists l.*1. split.
  - apply list_elem_of_fmap. by exists (s, r).
  - apply list_elem_of_fmap. by exists l.
Qed.

Lemma left_elem (ls : list (list A)) l s : l ∈ ls → s ∈ l → Name s ∈ Name <$> mjoin ls.
Proof. intros Hl Hs. apply list_elem_of_fmap_2, list_elem_of_join. eauto. Qed.

Lemma atLevel_name k s : atLevel lvls k s → Name s ∈ Name <$> mjoin lvls.
Proof. intros Hk. apply list_elem_of_fmap_2, atLevel_join. eauto. Qed.

(** A name is at one level. *)
Lemma atLevel_unique j k s t : atLevel lvls j s → atLevel lvls k t → Name s = Name t → j = k ∧ s = t.
Proof.
  intros Hj Hk E.
  assert (s = t) as <- by
    (apply (elem_of_fmap_inj Name (mjoin lvls)); [done|apply atLevel_join; eauto..|done]).
  split; [|done]. clear E. destruct Hj as (l & Hl & Hs), Hk as (l' & Hl' & Hs').
  apply NoDup_fmap_1 in names_unique. revert j k Hl Hl'. induction lvls as [|x ls IH]; [done|].
  rewrite join_cons in names_unique. apply NoDup_app in names_unique as (_ & Hdis & Hnd).
  intros [|j] [|k] Hl Hl'; simpl in *; simplify_eq; [done|..].
  - exfalso. apply (Hdis s); [done|]. apply list_elem_of_join. exists l'.
    split; [done|by eapply list_elem_of_lookup_2].
  - exfalso. apply (Hdis s); [done|]. apply list_elem_of_join. exists l.
    split; [done|by eapply list_elem_of_lookup_2].
  - f_equal. by apply IH.
Qed.

(** A step of the level at hand is in no other level, and once in its own. *)
Lemma cur_name_unique (passed : list (list (A * option error))) (gs : list (A * gphase)) left i s ph :
  lvls = (stepsIn passed ++ stepsIn [gs] ++ left)%list → gs !! i = Some (s, ph) →
  (∀ l t r, l ∈ passed → (t, r) ∈ l → Name t ≠ Name s) ∧
  (∀ j t ph', gs !! j = Some (t, ph') → j ≠ i → Name t ≠ Name s) ∧
  (∀ l t, l ∈ left → t ∈ l → Name t ≠ Name s) ∧ atLevel lvls (length passed) s.
Proof.
  intros El Hi. pose proof names_unique as Hnd. rewrite El, !join_app, !fmap_app in Hnd.
  unfold stepsIn at 2 in Hnd. rewrite fmap_cons, join_cons, fmap_nil in Hnd.
  change (mjoin (M := list) (A := A) []) with (@nil A) in Hnd. rewrite app_nil_r in Hnd.
  apply NoDup_app in Hnd as (_ & Hpc & (Hc & Hcl & _)%NoDup_app).
  assert (Name s ∈ Name <$> gs.*1) as Hs.
  { apply list_elem_of_fmap_2, list_elem_of_fmap. exists (s, ph). split; [done|]. by eapply list_elem_of_lookup_2. }
  split_and!.
  - intros l t r Hl Ht E. apply (Hpc (Name t)); [by eapply list_elem_of_fmap_2, stepsIn_elem|]. rewrite E. apply elem_of_app. by left.
  - intros j t ph' Hj Hne E. apply Hne. eapply (NoDup_lookup (Name <$> gs.*1) j i (Name t)); [done|..];
      rewrite !list_lookup_fmap; [by rewrite Hj|by rewrite Hi, E].
  - intros l t Hl Ht E. apply (Hcl (Name s)); [done|]. rewrite <-E. by eapply left_elem.
  - exists gs.*1. split.
    + rewrite El, lookup_app_r by (unfold stepsIn; by rewrite length_fmap).
      unfold stepsIn. rewrite length_fmap, Nat.sub_diag. done.
    + apply list_elem_of_fmap. exists (s, ph). split; [done|]. by eapply list_elem_of_lookup_2.
Qed.

(** A report adds nothing to check; a start must come after the earlier levels. *)
Lemma ordered_report ev s r : ordered ev → ordered (ev ++ [reportEvent s r])%list.
Proof.
  intros Hev e1 t e2 E. destruct e2 as [|e e2' _] using rev_ind.
  - apply app_inj_2 in E as [_ E]; [|done]. exfalso. destruct r; by injection E.
  - rewrite app_comm_cons, app_assoc in E. apply app_inj_2 in E as [E _]; [|done]. by eapply Hev.
Qed.

Lemma ordered_start ev s k :
  ordered ev → atLevel lvls k s →
  (∀ j t, j < k → atLevel lvls j t → ∃ r, reportEvent t r ∈ ev ∧ (halts = true → r = None)) →
  ordered (ev ++ [runningEvent s])%list.
Proof.
  intros Hev Hk Hearlier e1 t e2 E. destruct e2 as [|e e2' _] using rev_ind.
  - apply app_inj_2 in E as [-> E]; [|done]. injection E as E.
    intros j k' u Hj Hu Ht. destruct (atLevel_unique _ _ _ _ Hk Ht E) as [<- _]. by eapply Hearlier.
  - rewrite app_comm_cons, app_assoc in E. apply app_inj_2 in E as [E _]; [|done]. by eapply Hev.
Qed.

Lemma minv_start st passed gs left i s :
  minv st passed [gs] left → gs !! i = Some (s, GPending) →
  ordered (events st ++ [runningEvent s])%list.
Proof.
  intros [Hv El Hp Hc Hl Hk Hh Hne He Ho Hr] Hi.
  destruct (cur_name_unique _ _ _ _ _ _ El Hi) as (_ & _ & _ & Hat).
  apply (ordered_start _ _ (length passed)); [done..|]. intros j t Hj (l & Hlj & Ht).
  rewrite El, lookup_app_l in Hlj by (unfold stepsIn; by rewrite length_fmap).
  unfold stepsIn in Hlj. apply list_lookup_fmap_Some in Hlj as (l' & -> & Hl').
  apply list_elem_of_lookup_2 in Hl'. apply list_elem_of_fmap in Ht as ([t' r] & -> & Ht).
  exists r. split; [|intros Hhalt; by eapply Hh].
  apply (eventsOf_elem (Name t')). rewrite (Hp l' t' r) by done. right. left.
Qed.

(** A step of one goroutine keeps the invariant, when what it emits is what its
    new phase says. *)
Lemma minv_update st passed gs left i s ph ph' evs fe w :
  minv st passed [gs] left → ctl st = CLevel gs left → gs !! i = Some (s, ph) →
  Forall (λ e, Phase e = Name s) evs → trace s ph' = (trace s ph ++ evs)%list →
  (∀ r, ph ≠ GDone r) →
  ordered (events st ++ evs)%list →
  ((∃ r, ph' = GDone r ∧ fe = recordErr wrap (firstErr st) s r) ∨
   ((∀ r, ph' ≠ GDone r) ∧ fe = firstErr st)) →
  minv (MState (CLevel (<[i := (s, ph')]> gs) left) fe (events st ++ evs)%list w)
    passed [<[i := (s, ph')]> gs] left.
Proof.
  intros [Hv El Hp Hc Hl Hk Hh Hne He Ho Hr] Hctl Hi Hevs Htr Hnd Hord Hfe.
  destruct (cur_name_unique _ _ _ _ _ _ El Hi) as (Np & Nc & Nl & Hat).
  pose proof (lookup_lt_Some _ _ _ Hi) as Hlt.
  assert ((<[i := (s, ph')]> gs).*1 = gs.*1) as Efst.
  { apply list_eq. intros j. rewrite !list_lookup_fmap, list_lookup_insert. case_decide as Hj; [|done].
    destruct Hj as [<- _]. by rewrite Hi. }
  assert (∀ t a, (t, GDone a) ∈ gs → (t, GDone a) ∈ <[i := (s, ph')]> gs) as Hkeep.
  { intros t a [j Hj]%list_elem_of_lookup. apply list_elem_of_lookup. exists j.
    rewrite list_lookup_insert_ne; [done|]. intros ->. rewrite Hi in Hj. injection Hj as _ ->. by eapply Hnd. }
  assert (∀ t a, (t, GDone a) ∈ <[i := (s, ph')]> gs → (t = s ∧ ph' = GDone a) ∨ (t, GDone a) ∈ gs) as Hnew.
  { intros t a [j Hj]%list_elem_of_lookup. rewrite list_lookup_insert in Hj. case_decide.
    - left. by injection Hj as -> ->.
    - right. by eapply list_elem_of_lookup_2. }
  split; simpl; try done.
  - constructor.
  - rewrite El. unfold stepsIn. by rewrite !fmap_cons, Efst.
  - intros l t r Hlp Ht. rewrite eventsOf_app, (eventsOf_other _ _ evs (Np _ _ _ Hlp Ht) Hevs), app_nil_r. by eapply Hp.
  - intros gs' j t pj ->%list_elem_of_singleton Hj. rewrite list_lookup_insert in Hj. case_decide as Hij.
    + injection Hj as <- <-. rewrite eventsOf_app, (eventsOf_same (Name s) evs), Htr by done. f_equal.
      eapply Hc; [by left|done].
    + assert (j ≠ i) as Hne' by (intros ->; tauto).
      rewrite eventsOf_app, (eventsOf_other _ _ evs (Nc _ _ _ Hj Hne') Hevs), app_nil_r. eapply Hc; [by left|done].
  - intros l t Hll Ht. rewrite eventsOf_app, (eventsOf_other _ _ evs (Nl _ _ Hll Ht) Hevs), app_nil_r. by eapply Hl.
  - intros e [Hin|Hin]%elem_of_app; [auto|]. eapply Forall_forall in Hevs; [|done]. rewrite Hevs.
    by eapply atLevel_name.
  - intros Hnone. destruct Hfe as [(a & -> & ->)|[Hnd' ->]].
    + unfold recordErr in Hnone. destruct (firstErr st) eqn:Ef; [done|]. destruct a; [done|].
      destruct (Hne eq_refl) as [H1 H2]. split; [done|].
      intros gs' t r ->%list_elem_of_singleton [[_ [= <-]]|Hin]%Hnew; [done|]. by eapply H2; [left|].
    + destruct (Hne Hnone) as [H1 H2]. split; [done|].
      intros gs' t r ->%list_elem_of_singleton [[_ ->]|Hin]%Hnew; [by exfalso; eapply Hnd'|]. by eapply H2; [left|].
  - intros e Hfe'.
    assert (firstErr st = Some e ∨ ∃ err, ph' = GDone (Some err) ∧ e = wrap (Name s) err) as [Hold|(err & -> & ->)].
    { destruct Hfe as [(a & -> & ->)|[_ ->]]; [|by left]. unfold recordErr in Hfe'.
      destruct (firstErr st); [by left|]. destruct a as [err|]; [|done]. injection Hfe' as <-. eauto. }
    + destruct (He e Hold) as (t & err & -> & [Hpt|(gs' & ->%list_elem_of_singleton & Hct)]);
        exists t, err; split; [done|by left|done|right].
      eexists. split; [by left|by apply Hkeep].
    + exists s, err. split; [done|]. right. eexists. split; [by left|].
      apply list_elem_of_lookup. exists i. by apply list_lookup_insert_eq.
Qed.

Lemma minv_silent passed gs left fe ev w i s ph ph' fe' w' :
  minv (MState (CLevel gs left) fe ev w) passed [gs] left → gs !! i = Some (s, ph) →
  trace s ph' = trace s ph → (∀ r, ph ≠ GDone r) →
  ((∃ r, ph' = GDone r ∧ fe' = recordErr wrap fe s r) ∨ ((∀ r, ph' ≠ GDone r) ∧ fe' = fe)) →
  minv (MState (CLevel (<[i := (s, ph')]> gs) left) fe' ev w') passed [<[i := (s, ph')]> gs] left.
Proof.
  intros Hi Hgs Htr Hnd Hfe. pose proof (minv_update _ _ _ _ i s ph ph' [] fe' w' Hi eq_refl Hgs) as Hu.
  simpl in Hu. rewrite !app_nil_r in Hu. apply Hu; [constructor|done|done|apply (mi_order _ _ _ _ Hi)|done].
Qed.

(** The loop returns between two levels. *)
Lemma minv_back fe ev w passed left r :
  minv (MState (CHead left) fe ev w) passed [] left →
  (r = Some ctxErr ∨ left = [] ∧ r = if halts then None else fe) →
  minv (MState (CReturn r) fe ev w) passed [] left.
Proof.
  intros [Hv El Hp Hc Hl Hk Hh Hne He Ho Hr] Hret. split; try done; [constructor|].
  intros r' [= <-]. destruct Hret as [->|[-> ->]]; [by left|by right; left].
Qed.

(** The goroutines of a level are created. *)
Lemma minv_level fe ev w passed l left :
  minv (MState (CHead (l :: left)) fe ev w) passed [] (l :: left) →
  minv (MState (CLevel ((λ s, (s, GPending)) <$> l) left) fe ev w) passed [(λ s, (s, GPending)) <$> l] left.
Proof.
  intros [Hv El Hp Hc Hl Hk Hh Hne He Ho Hr]. simpl in *. split; simpl; try done.
  - constructor.
  - rewrite El. unfold stepsIn. simpl. rewrite <-list_fmap_compose.
    by rewrite (list_fmap_ext _ id), list_fmap_id by done.
  - intros gs i s ph ->%list_elem_of_singleton Hi. rewrite list_lookup_fmap in Hi.
    destruct (l !! i) as [t|] eqn:Et; [|done]. injection Hi as <- <-.
    eapply (Hl l); [by left|by eapply list_elem_of_lookup_2].
  - intros l' s Hl' Hs. eapply Hl; [by right|done].
  - intros Hfe. destruct (Hne Hfe) as [H1 _]. split; [done|].
    by intros gs s r ->%list_elem_of_singleton (t & [=] & _)%list_elem_of_fmap.
  - intros e Hfe. destruct (He e Hfe) as (s & err & -> & [Hx|(gs & Hgs & _)]); [eauto 10|].
    by apply elem_of_nil in Hgs.
Qed.

Definition answerOf (ph : gphase) : option error := match ph with GDone r => r | _ => None end.

(** The goroutines of a level are all done, and the loop goes on. *)
Lemma minv_next fe ev w passed gs left :
  minv (MState (CLevel gs left) fe ev w) passed [gs] left →
  Forall (λ g : A * gphase, ∃ r, g.2 = GDone r) gs → (halts = true → fe = None) →
  minv (MState (CHead left) fe ev w) (passed ++ [(λ g, (g.1, answerOf g.2)) <$> gs])%list [] left.
Proof.
  intros [Hv El Hp Hc Hl Hk Hh Hne He Ho Hr] Hdone Hfe. simpl in *.
  assert (∀ s r, (s, r) ∈ (λ g : A * gphase, (g.1, answerOf g.2)) <$> gs → (s, GDone r) ∈ gs) as Hans.
  { intros s r ([t ph] & [= -> ->] & Hin)%list_elem_of_fmap. eapply Forall_forall in Hdone as [a Ha]; [|done].
    simpl in *. by subst ph. }
  split; simpl; try done.
  - constructor.
  - rewrite El. unfold stepsIn. rewrite fmap_app, <-app_assoc. f_equal. simpl.
    by rewrite <-list_fmap_compose.
  - intros l s r [Hin| ->%list_elem_of_singleton]%elem_of_app Hs; [by eapply Hp|].
    apply Hans in Hs as [i Hi]%list_elem_of_lookup. by rewrite (Hc gs i s _ ltac:(by left) Hi).
  - intros ???? Hx. by apply elem_of_nil in Hx.
  - intros Hhalt l s r [Hin| ->%list_elem_of_singleton]%elem_of_app Hs; [by eapply Hh|].
    apply Hans in Hs. destruct (Hne (Hfe Hhalt)) as [_ H2]. eapply (H2 gs); [by left|done].
  - intros Hnone. destruct (Hne Hnone) as [H1 H2]. split; [|intros ??? Hx; by apply elem_of_nil in Hx].
    intros l s r [Hin| ->%list_elem_of_singleton]%elem_of_app Hs; [by eapply H1|].
    apply Hans in Hs. eapply (H2 gs); [by left|done].
  - intros e Hsome. destruct (He e Hsome) as (s & err & -> & Hx). exists s, err. split; [done|]. left.
    destruct Hx as [(l & Hin & Hs)|(gs' & ->%list_elem_of_singleton & Hs)].
    + exists l. split; [|done]. apply elem_of_app. by left.
    + eexists. split; [apply elem_of_app; right; by apply list_elem_of_singleton|].
      apply list_elem_of_fmap. by exists (s, GDone (Some err)).
Qed.

(** The run stops at a level with an error. *)
Lemma minv_halt fe ev w passed gs left :
  minv (MState (CLevel gs left) fe ev w) passed [gs] left →
  Forall (λ g : A * gphase, ∃ r, g.2 = GDone r) gs → halts = true → is_Some fe →
  minv (MState (CReturn fe) fe ev w) passed [gs] left.
Proof.
  intros [Hv El Hp Hc Hl Hk Hh Hne He Ho Hr] Hdone Hhalt Hfe. split; try done; [constructor|].
  intros r' [= <-]. right. right. simpl. eauto 10.
Qed.

Lemma minv_step st st' :
  (∃ passed cur left, minv st passed cur left) → mstep st st' →
  ∃ passed cur left, minv st' passed cur left.
Proof.
  intros (passed & cur & left & Hi) Hstep. pose proof (mi_view _ _ _ _ Hi) as Hv.
  destruct Hstep; inversion Hv; subst.
  - eexists _, _, _. apply minv_back; [exact Hi|by left].
  - eexists _, _, _. by apply minv_level.
  - eexists _, _, _. apply minv_back; [exact Hi|by right].
  - eexists _, _, _. eapply (minv_update (MState _ _ ev _)); try done; [by repeat constructor| |by right].
    exact (minv_start _ _ _ _ _ _ Hi H0).
  - eexists _, _, _. eapply minv_silent; try done. by right.
  - eexists _, _, _. eapply minv_silent; try done. by right.
  - eexists _, _, _. eapply (minv_update (MState _ _ ev _)); try done; [repeat constructor; by destruct r| |by right].
    apply ordered_report, (mi_order _ _ _ _ Hi).
  - eexists _, _, _. eapply minv_silent; try done. left. eauto.
  - destruct (halts && bool_decide (is_Some fe)) eqn:Eh; eexists _, _, _.
    + apply andb_prop in Eh as [Eh Hfe%bool_decide_eq_true]. by apply minv_halt.
    + apply minv_next; [done|done|]. intros Hhalt. rewrite Hhalt in Eh. destruct fe; [|done].
      by rewrite bool_decide_true in Eh.
Qed.

Lemma minv_reach w st :
  rtc mstep (minit lvls w) st → ∃ passed cur left, minv st passed cur left.
Proof.
  intros Hr. remember (minit lvls w) as st0. assert (∃ passed cur left, minv st0 passed cur left) as H0.
  { subst. eexists _, _, _. apply minv_init. }
  clear Heqst0. induction Hr; eauto using minv_step.
Qed.

(** A step is in a level left behind, in the one at hand, or in a later one. *)
Lemma minv_where st passed cur left k s :
  minv st passed cur left → atLevel lvls k s →
  (∃ l r, l ∈ passed ∧ (s, r) ∈ l ∧ k < length passed) ∨
  (∃ gs i ph, gs ∈ cur ∧ gs !! i = Some (s, ph) ∧ k = length passed) ∨
  (∃ l, l ∈ left ∧ s ∈ l ∧ (length passed + length cur ≤ k)%nat).
Proof.
  intros Hi (l & Hl & Hs). pose proof (mi_view _ _ _ _ Hi) as Hv. rewrite (mi_levels _ _ _ _ Hi) in Hl.
  unfold stepsIn in Hl. apply lookup_app_Some in Hl as [Hl|[Hk Hl]].
  - left. apply list_lookup_fmap_Some in Hl as (l' & -> & Hl'). apply list_elem_of_fmap in Hs as ([t r] & -> & Hs).
    exists l', r. split_and!; [by eapply list_elem_of_lookup_2|done|by eapply lookup_lt_Some].
  - right. rewrite length_fmap in *. apply lookup_app_Some in Hl as [Hl|[Hk' Hl]].
    + left. apply list_lookup_fmap_Some in Hl as (gs & -> & Hg).
      apply list_elem_of_fmap in Hs as ([t ph] & -> & Hs). apply list_elem_of_lookup in Hs as [i Hgi].
      exists gs, i, ph. split_and!; [by eapply list_elem_of_lookup_2|done|].
      inversion Hv; subst; destruct (k - length passed)%nat as [|[]] eqn:Ek; try done; lia.
    + right. rewrite length_fmap in *. exists l. split_and!; [by eapply list_elem_of_lookup_2|done|lia].
Qed.

(** When the run is over, the methods that were started have reported. *)
Lemma minv_returned st passed cur left k s r :
  minv st passed cur left → ctl st = CReturn r → atLevel lvls k s →
  (∃ a, eventsOf (Name s) (events st) = [runningEvent s; reportEvent s a] ∧
    (k < length passed ∧ (∃ l, l ∈ passed ∧ (s, a) ∈ l) ∨
     k = length passed ∧ halts = true ∧ is_Some r ∧ (∃ gs, gs ∈ cur ∧ (s, GDone a) ∈ gs))) ∨
  (eventsOf (Name s) (events st) = [] ∧ (length passed + length cur ≤ k)%nat ∧ left ≠ []).
Proof.
  intros Hi Hr Hs. destruct (minv_where _ _ _ _ _ _ Hi Hs)
    as [(l & a & Hl & Hsl & Hk)|[(gs & i & ph & Hg & Hgi & Hk)|(l & Hl & Hsl & Hk)]].
  - left. exists a. split; [by eapply (mi_passed _ _ _ _ Hi)|]. left. split; [done|eauto].
  - left. pose proof (mi_cur _ _ _ _ Hi _ _ _ _ Hg Hgi) as Hev.
    destruct (mi_return _ _ _ _ Hi r Hr) as [[_ ->]|[(-> & _)|(Hh & -> & Hsome & gs' & -> & Hdone)]];
      [by apply elem_of_nil in Hg..|].
    apply list_elem_of_singleton in Hg as ->. apply list_elem_of_lookup_2 in Hgi.
    eapply Forall_forall in Hdone as [a Ha]; [|done]. simpl in Ha. subst ph.
    exists a. split; [exact Hev|]. right. split_and!; [done..|]. eexists. split; [by left|done].
  - right. split_and!; [by eapply (mi_left _ _ _ _ Hi)|done|]. intros ->. by apply elem_of_nil in Hl.
Qed.

(** The error kept is a reported one. *)
Lemma minv_error_step st passed cur left e :
  minv st passed cur left → firstErr st = Some e →
  ∃ s err k, atLevel lvls k s ∧ e = wrap (Name s) err ∧ reportEvent s (Some err) ∈ events st.
Proof.
  intros Hi He. destruct (mi_err _ _ _ _ Hi e He) as (s & err & -> & Hs).
  assert (s ∈ mjoin lvls ∧ eventsOf (Name s) (events st) = [runningEvent s; reportEvent s (Some err)])
    as [[k Hk]%atLevel_join Hev].
  { rewrite (mi_levels _ _ _ _ Hi), !join_app, !elem_of_app. destruct Hs as [(l & Hl & Hs)|(gs & Hg & Hs)].
    - split; [left; by eapply stepsIn_elem|by eapply (mi_passed _ _ _ _ Hi)].
    - split; [right; left; by eapply stepsIn_elem|].
      apply list_elem_of_lookup in Hs as [i Hgi]. by apply (mi_cur _ _ _ _ Hi _ _ _ _ Hg Hgi). }
  exists s, err, k. split_and!; [done..|]. apply (eventsOf_elem (Name s)). rewrite Hev. right. left.
Qed.

Lemma report_in_pair s err a :
  reportEvent s (Some err) ∈ [runningEvent s; reportEvent s a] → a ≠ None.
Proof. intros [E|E%list_elem_of_singleton]%elem_of_cons; [done|]. by intros ->. Qed.

Lemma report_elem s r ev : reportEvent s r ∈ ev → reportEvent s r ∈ eventsOf (Name s) ev.
Proof. intros Hin. apply list_elem_of_filter. split; [by destruct r|done]. Qed.

(** Nothing deeper than a failed step was started, when errors stop the run. *)
Lemma minv_failed_last st passed cur left r j k s t err :
  minv st passed cur left → ctl st = CReturn r → halts = true →
  atLevel lvls j s → atLevel lvls k t → j < k → reportEvent s (Some err) ∈ events st →
  eventsOf (Name t) (events st) = [].
Proof.
  intros Hi Hr Hh Hs Ht Hjk Herr%report_elem. pose proof (mi_halt _ _ _ _ Hi Hh) as Hok.
  assert (j = length passed) as ->.
  { destruct (minv_returned _ _ _ _ _ _ _ Hi Hr Hs) as [(a & E & [(_ & l & Hl & Hsl)|(-> & _)])|(E & _)];
      [|done|rewrite E in Herr; by apply elem_of_nil in Herr].
    rewrite E in Herr. apply report_in_pair in Herr. by destruct Herr; eapply Hok. }
  destruct (minv_returned _ _ _ _ _ _ _ Hi Hr Ht) as [(a & _ & [(Hk & _)|(Hk & _)])|(E & _)]; [lia|lia|done].
Qed.
End MachineProperties.

(** ** Termination *)
Section Termination.
Context {W A : Type} `{Step A}.
Context (body : A → prog W) (halts : bool) (startMsg doneMsg : string).
Context (wrap : string → error → error) (ctxErr : error).

#[local] Notation mstep := (mstep body halts startMsg doneMsg wrap ctxErr).
#[local] Notation gphase := (gphase (W := W)).

(** What a goroutine can do next. *)
Definition pstep (s : A) (ph ph' : gphase) : Prop :=
  match ph with
  | GPending => ph' = GRunning (body s)
  | GRunning (PRet r) => ph' = GReturned r
  | GRunning (PDo X m k) => ∃ x, ph' = GRunning (k x)
  | GReturned r => ph' = GReported r
  | GReported r => ph' = GDone r
  | GDone _ => False
  end.

Lemma pstep_Acc s ph : Acc (flip (pstep s)) ph.
Proof.
  assert (∀ r, Acc (flip (pstep s)) (GDone r)) as Hd by (intros r; by constructor).
  assert (∀ r, Acc (flip (pstep s)) (GReported r)) as Hr by (intros r; by constructor; intros ? ->).
  assert (∀ r, Acc (flip (pstep s)) (GReturned r)) as Ht by (intros r; by constructor; intros ? ->).
  assert (∀ p, Acc (flip (pstep s)) (GRunning p)) as Hp.
  { induction p as [r|X m k IH]; constructor; [by intros ? ->|]. intros ph' [x ->]. apply IH. }
  destruct ph; auto. by constructor; intros ? ->.
Qed.

Definition lstep (gs gs' : list (A * gphase)) : Prop :=
  ∃ i s ph ph', gs !! i = Some (s, ph) ∧ pstep s ph ph' ∧ gs' = <[i := (s, ph')]> gs.

Lemma lstep_Acc gs : Acc (flip lstep) gs.
Proof.
  induction gs as [|[s ph] gs IH].
  { constructor. intros gs' (i & s & ph & ph' & Hi & _). by rewrite lookup_nil in Hi. }
  revert gs IH. induction (pstep_Acc s ph) as [ph _ IHp]. intros gs Hgs.
  induction Hgs as [gs Hgs IHg]. constructor. intros gs' (i & t & q & q' & Hi & Hq & ->).
  destruct i as [|i]; simpl in *.
  - injection Hi as <- <-. apply IHp; [done|]. by constructor.
  - apply IHg. exists i, t, q, q'. done.
Qed.

Lemma return_Acc r fe ev w : Acc (flip mstep) (MState (CReturn r) fe ev w).
Proof. constructor. intros st Hst. inversion Hst. Qed.

Lemma level_Acc left gs :
  (∀ fe ev w, Acc (flip mstep) (MState (CHead left) fe ev w)) →
  ∀ fe ev w, Acc (flip mstep) (MState (CLevel gs left) fe ev w).
Proof.
  intros Hleft. induction (lstep_Acc gs) as [gs _ IH]. intros fe ev w. constructor. intros st Hst.
  inversion Hst; subst; clear Hst.
  1-5: apply IH; do 4 eexists; split; [done|]; split; [simpl; eauto|done].
  destruct (halts && _); [apply return_Acc|apply Hleft].
Qed.

Lemma head_Acc left fe ev w : Acc (flip mstep) (MState (CHead left) fe ev w).
Proof.
  revert fe ev w. induction left as [|l left IH]; intros fe ev w; constructor; intros st Hst;
    inversion Hst; subst; try apply return_Acc.
  apply level_Acc, IH.
Qed.

(** Every run is finite. *)
Lemma mstep_Acc st : Acc (flip mstep) st.
Proof.
  destruct st as [[left|gs left|r] fe ev w]; [apply head_Acc|apply level_Acc; intros; apply head_Acc|apply return_Acc].
Qed.

(** No run gets stuck. *)
Lemma mstep_progress st : (∃ r, ctl st = CReturn r) ∨ ∃ st', mstep st st'.
Proof.
  destruct st as [[[|l rest]|gs rest|r] fe ev w]; [right|right|right|left; eauto].
  - eexists. apply m_end.
  - eexists. apply m_level.
  - set (isDone (g : A * gphase) := match g.2 with GDone _ => true | _ => false end).
    destruct (decide (Forall (λ g, isDone g = true) gs)) as [Hall|Hex].
    + eexists. apply m_wait. eapply Forall_impl; [exact Hall|]. intros [s []]; simpl; try done. eauto.
    + apply not_Forall_Exists, Exists_exists in Hex as ([s ph] & [i Hi]%list_elem_of_lookup & Hg); [|apply _].
      destruct ph as [|[r|X m k]|r|r|r]; [| | | | |by destruct (Hg eq_refl)].
      * eexists. by eapply m_start.
      * eexists. by eapply m_return.
      * destruct (m w) as [x w'] eqn:E. eexists. by eapply m_act.
      * eexists. by eapply m_report.
      * eexists. by eapply m_done.
Qed.
End Termination.

(** ** What [Execute] and [Destroy] guarantee *)

(** The levels of a pipeline: distinct names, and each dependency one level or
    more before its dependent. *)
Lemma NewPipeline_levels {A} `{Step A} (ss : list A) p :
  NewPipeline ss = Some (Ok p) →
  NoDup (Name <$> mjoin (plevels p)) ∧ mjoin (plevels p) ≡ₚ ss ∧
  ∀ k s d, atLevel (plevels p) k s → d ∈ Dependencies s →
    ∃ j t, j < k ∧ atLevel (plevels p) j t ∧ Name t = d.
Proof.
  unfold NewPipeline. destruct (BuildDAG ss) as [[lvls|e]|] eqn:E; [|done|done]. intros [= <-]. simpl.
  apply BuildDAG_Ok_inv in E as (Hnd & _ & st & Hi & Hsz & ->).
  pose proof (kinv_partition _ _ Hi Hsz) as Hp. split_and!; [by rewrite Hp|done|].
  intros k s d Hs Hd. destruct (ki_exact _ _ Hi s k (or_introl Hs)) as [Hdeps _]. auto.
Qed.

Section Guarantees.
Context {W A : Type} `{Step A, !Runnable W A}.
Context (ss : list A) (p : Pipeline A) (HP : NewPipeline ss = Some (Ok p)).
Context (saved : list AppliedResource).
Context (cb : option (A → ResourceState → W → option error * W)) (ctxErr : error).

#[local] Notation running s msg := (Progress_ (Name s) "running" msg).
#[local] Notation complete s msg := (Progress_ (Name s) "complete" msg).

Lemma steps_at_levels s : s ∈ ss ↔ ∃ k, atLevel (plevels p) k s.
Proof. destruct (NewPipeline_levels _ _ HP) as (_ & <- & _). apply atLevel_join. Qed.

(** C1. Dependencies come first: in every interleaving of [Execute], a step is
    started only after every one of its dependencies was applied without error. *)
Theorem Execute_order w st e1 s e2 d :
  rtc (Execute_step saved cb ctxErr) (Execute_init p w) st →
  events st = (e1 ++ running s "starting" :: e2)%list → s ∈ ss → d ∈ Dependencies s →
  ∃ t, t ∈ ss ∧ Name t = d ∧ complete t "done" ∈ e1.
Proof.
  intros Hr E [k Hs]%steps_at_levels Hd. destruct (NewPipeline_levels _ _ HP) as (Hnd & _ & Hdep).
  destruct (Hdep k s d Hs Hd) as (j & t & Hj & Ht & <-).
  destruct (minv_reach _ _ _ _ _ _ _ Hnd w st Hr) as (passed & cur & left & Hi).
  destruct (mi_order _ _ _ _ _ _ _ _ _ _ Hi e1 s e2 E j k t Hj Ht Hs) as (r & Hin & Hnone).
  rewrite (Hnone eq_refl) in Hin. exists t. split_and!; [|done|done]. apply steps_at_levels. eauto.
Qed.

Lemma Execute_nil w st :
  rtc (Execute_step saved cb ctxErr) (Execute_init p w) st → ctl st = CReturn None →
  ∀ s, s ∈ ss → eventsOf (Name s) (events st) = [running s "starting"; complete s "done"].
Proof.
  intros Hr Hret s [k Hs]%steps_at_levels. destruct (NewPipeline_levels _ _ HP) as (Hnd & _ & _).
  destruct (minv_reach _ _ _ _ _ _ _ Hnd w st Hr) as (passed & cur & left & Hi).
  pose proof (mi_return _ _ _ _ _ _ _ _ _ _ Hi None Hret) as Hcase.
  destruct Hcase as [([=] & _)|[(-> & -> & _)|(_ & _ & [? [=]] & _)]].
  eapply minv_returned in Hs; [|exact Hi|exact Hret].
  destruct Hs as [(a & E & [(_ & l & Hl & Hsl)|(_ & _ & [? [=]] & _)])|(_ & _ & Hne)]; [|by destruct Hne].
  rewrite (mi_halt _ _ _ _ _ _ _ _ _ _ Hi eq_refl _ _ _ Hl Hsl) in E. exact E.
Qed.

(** C2. What a returned [Execute] has done: every started step has returned, and
    was applied once; a nil error means that all were applied without error;
    otherwise the error is the context's, or wraps the error of a failed step;
    and nothing of a level after a failed step was started. *)
Theorem Execute_result w st r :
  rtc (Execute_step saved cb ctxErr) (Execute_init p w) st → ctl st = CReturn r →
  (∀ s, s ∈ ss → eventsOf (Name s) (events st) = [] ∨
    ∃ a, eventsOf (Name s) (events st) = [running s "starting"; reportEvent "done" s a]) ∧
  match r with
  | None => ∀ s, s ∈ ss → eventsOf (Name s) (events st) = [running s "starting"; complete s "done"]
  | Some e => e = ctxErr ∨ ∃ s err, s ∈ ss ∧ e = stepError (Name s) err ∧
      reportEvent "done" s (Some err) ∈ events st
  end ∧
  (∀ j k s t err, atLevel (plevels p) j s → atLevel (plevels p) k t → j < k →
    reportEvent "done" s (Some err) ∈ events st → eventsOf (Name t) (events st) = []).
Proof.
  intros Hr Hret. destruct (NewPipeline_levels _ _ HP) as (Hnd & _ & _).
  destruct (minv_reach _ _ _ _ _ _ _ Hnd w st Hr) as (passed & cur & left & Hi).
  split_and!.
  - intros s [k Hs]%steps_at_levels.
    eapply minv_returned in Hs as [(a & E & _)|(E & _)]; [eauto|eauto|exact Hi|exact Hret].
  - pose proof (mi_return _ _ _ _ _ _ _ _ _ _ Hi r Hret) as Hcase.
    destruct r as [e|].
    + assert (e = ctxErr ∨ firstErr st = Some e) as [->|He]; [|by left|].
      { destruct Hcase as [([= ->] & _)|[(_ & _ & [=])|(_ & -> & _)]]; auto. }
      right. eapply minv_error_step in He as (s & err & k & Hs & -> & Hin); [|exact Hi].
      exists s, err. split_and!; [|done|done]. apply steps_at_levels. eauto.
    + by eapply Execute_nil.
  - intros j k s t err Hs Ht Hjk Herr. eapply minv_failed_last; [exact Hi|exact Hret|done|exact Hs|exact Ht|done|exact Herr].
Qed.

(** C34. [Execute] and [Destroy] always return: no interleaving is infinite, and
    none gets stuck before the end. *)
Theorem pipelines_terminate w :
  (∀ st, rtc (Execute_step saved cb ctxErr) (Execute_init p w) st →
    Acc (flip (Execute_step saved cb ctxErr)) st ∧
    ((∃ r, ctl st = CReturn r) ∨ ∃ st', Execute_step saved cb ctxErr st st')) ∧
  (∀ st, rtc (Destroy_step saved cb ctxErr) (Destroy_init p w) st →
    Acc (flip (Destroy_step saved cb ctxErr)) st ∧
    ((∃ r, ctl st = CReturn r) ∨ ∃ st', Destroy_step saved cb ctxErr st st')).
Proof. split; intros st _; (split; [apply mstep_Acc|apply mstep_progress]). Qed.
End Guarantees.

(** ** Destroying *)

Section DestroyGuarantees.
Context {W A : Type} `{Step A, !Runnable W A}.
Context (ss : list A) (existingNames : gset string) (p : Pipeline (stepDepOverride A)).
Context (HP : NewDestroyPipeline ss existingNames = Some (Ok p)).
Context (saved : list AppliedResource).
Context (cb : option (stepDepOverride A → ResourceState → W → option error * W)) (ctxErr : error).

#[local] Notation running s msg := (Progress_ (Name s) "running" msg).
#[local] Notation complete s msg := (Progress_ (Name s) "complete" msg).

(** The wrapper of a step, in its pipeline. *)
Definition cleanedStep (s : A) : stepDepOverride A :=
  StepDepOverride s (filter (λ d, d ∈ existingNames) (Dependencies s)).

Lemma cleaned_level s : s ∈ ss → ∃ k, atLevel (plevels p) k (cleanedStep s).
Proof.
  intros Hs. destruct (NewPipeline_levels _ _ HP) as (_ & Hp & _). apply atLevel_join. rewrite Hp.
  by apply (list_elem_of_fmap_2 cleanedStep).
Qed.

Lemma level_cleaned k w : atLevel (plevels p) k w → ∃ s, s ∈ ss ∧ w = cleanedStep s.
Proof.
  intros Hk. destruct (NewPipeline_levels _ _ HP) as (_ & Hp & _).
  assert (w ∈ mjoin (plevels p)) as Hw by (apply atLevel_join; eauto). rewrite Hp in Hw.
  apply list_elem_of_fmap in Hw as (s & -> & Hs). by exists s.
Qed.

Lemma atLevel_rev {B} (lvls : list (list B)) k w :
  atLevel lvls k w → atLevel (reverse lvls) (length lvls - S k) w.
Proof.
  intros (l & Hl & Hw). pose proof (lookup_lt_Some _ _ _ Hl) as Hlt. exists l. split; [|done].
  rewrite reverse_lookup by lia. replace (length lvls - S (length lvls - S k))%nat with k by lia. done.
Qed.

(** C3. Dependents go first: in every interleaving of [Destroy], the teardown of
    a step starts only after the teardown of every saved step that depends on it
    has returned; a failed one does not hold up the rest. *)
Theorem Destroy_order w st e1 s e2 t :
  rtc (Destroy_step saved cb ctxErr) (Destroy_init p w) st →
  events st = (e1 ++ running s "destroying" :: e2)%list →
  s ∈ ss → t ∈ ss → Name s ∈ Dependencies t → Name s ∈ existingNames →
  ∃ r, reportEvent "destroyed" t r ∈ e1.
Proof.
  intros Hr E Hs Ht Hd Hex. destruct (NewPipeline_levels _ _ HP) as (Hnd & _ & Hdep).
  destruct (cleaned_level s Hs) as [j Hj], (cleaned_level t Ht) as [k Hk].
  destruct (Hdep k (cleanedStep t) (Name s) Hk) as (j' & w' & Hlt & Hj' & En).
  { simpl. by apply list_elem_of_filter. }
  assert (j = j') as <- by (by eapply (atLevel_unique (plevels p))).
  assert (NoDup (Name <$> mjoin (reverse (plevels p)))) as Hnd'.
  { by rewrite reverse_Permutation. }
  destruct (minv_reach _ _ _ _ _ _ _ Hnd' w st Hr) as (passed & cur & left & Hi).
  pose proof (atLevel_lt _ _ _ Hk).
  destruct (mi_order _ _ _ _ _ _ _ _ _ _ Hi e1 (cleanedStep s) e2 E (length (plevels p) - S k)
    (length (plevels p) - S j) (cleanedStep t)) as (r & Hin & _); [lia|by apply atLevel_rev..|].
  by exists r.
Qed.

Lemma unique_reversed : NoDup (Name <$> mjoin (reverse (plevels p))).
Proof. destruct (NewPipeline_levels _ _ HP) as (Hnd & _ & _). by rewrite reverse_Permutation. Qed.

(** A failed teardown does not stop [Destroy]: unless its context is done,
    it tears down every saved step once, and returns nil exactly when all were
    torn down without error; its error is the context's or wraps a step's. *)
Lemma Destroy_result w st r :
  rtc (Destroy_step saved cb ctxErr) (Destroy_init p w) st → ctl st = CReturn r → r ≠ Some ctxErr →
  (∀ s, s ∈ ss → ∃ a, eventsOf (Name s) (events st) = [running s "destroying"; reportEvent "destroyed" s a]) ∧
  (r = None ↔ ∀ s, s ∈ ss → complete s "destroyed" ∈ events st) ∧
  (∀ e, r = Some e → ∃ s err, s ∈ ss ∧ e = destroyError (Name s) err ∧
    reportEvent "destroyed" s (Some err) ∈ events st).
Proof.
  intros Hr Hret Hctx. pose proof unique_reversed as Hnd.
  destruct (minv_reach _ _ _ _ _ _ _ Hnd w st Hr) as (passed & cur & left & Hi).
  assert (cur = [] ∧ left = [] ∧ r = firstErr st) as (-> & -> & ->).
  { destruct (mi_return _ _ _ _ _ _ _ _ _ _ Hi r Hret) as [[-> _]|[(? & ? & ?)|([=] & _)]]; done. }
  assert (∀ s, s ∈ ss → ∃ l a, l ∈ passed ∧ (cleanedStep s, a) ∈ l ∧
    eventsOf (Name s) (events st) = [running s "destroying"; reportEvent "destroyed" s a]) as Hall.
  { intros s [k Hk%atLevel_rev]%cleaned_level. eapply minv_returned in Hk; [|exact Hi|exact Hret].
    destruct Hk as [(a & E & [(_ & l & Hl & Hs)|(_ & [=] & _)])|(_ & _ & Hne)]; [|done].
    exists l, a. done. }
  assert (∀ e, firstErr st = Some e → ∃ s err, s ∈ ss ∧ e = destroyError (Name s) err ∧
    reportEvent "destroyed" s (Some err) ∈ events st) as Herr.
  { intros e He. eapply minv_error_step in He as (x & err & k & Hk & -> & Hin); [|exact Hi].
    assert (∃ j, atLevel (plevels p) j x) as [j Hj].
    { apply atLevel_join. rewrite <-(reverse_Permutation (plevels p)). apply atLevel_join. eauto. }
    apply level_cleaned in Hj as (s & Hs & ->). exists s, err. done. }
  split_and!; [| |done].
  - intros s Hs. destruct (Hall s Hs) as (_ & a & _ & _ & E). eauto.
  - split.
    + intros Hnone s Hs. destruct (Hall s Hs) as (l & a & Hl & Hsl & E).
      destruct (mi_noErr _ _ _ _ _ _ _ _ _ _ Hi Hnone) as [Hno _]. rewrite (Hno _ _ _ Hl Hsl) in E.
      apply (eventsOf_elem (Name s)). rewrite E. right. left.
    + intros Hcomplete. destruct (firstErr st) as [e|] eqn:He; [|done]. exfalso.
      destruct (Herr e eq_refl) as (s & err & Hs & _ & Hin). destruct (Hall s Hs) as (_ & a & _ & _ & E).
      pose proof (Hcomplete s Hs) as Hc. apply report_elem in Hin. rewrite E in Hin.
      apply (report_elem _ s None) in Hc. rewrite E in Hc.
      apply report_in_pair in Hin. destruct a as [e'|]; [|done].
      apply elem_of_cons in Hc as [Hc|Hc%list_elem_of_singleton]; done.
Qed.
End DestroyGuarantees.

(** ** Instances *)

Module PipelineExamples.
(** A network and a VM on it; the world is a log of what was done. *)
Definition log (line : string) : prog (list string) := PDo unit (λ w, ((), (w ++ [line])%list)) (λ _, PRet None).
Definition logStep (name : string) (deps : list string) : StepFunc (list string) :=
  NewStepFunc "test" name deps [] (λ _ _, log (name ++ " up")) (λ _ _, log (name ++ " down")) (λ _, zeroState).
Definition net := logStep "net" [].
Definition vm := logStep "vm" ["net"; "gone"].
Definition app := logStep "app" ["net"].
Definition done_ : error := Errorf "context canceled" None.
Definition up : Pipeline (StepFunc (list string)) := Pipeline_ [app; net] [[net]; [app]].
Definition names : gset string := {["net"; "vm"]}.
Definition override (s : StepFunc (list string)) (deps : list string) := StepDepOverride s deps.
Definition down : Pipeline (stepDepOverride (StepFunc (list string))) :=
  Pipeline_ [override vm ["net"]; override net []] [[override net []]; [override vm ["net"]]].

Lemma up_built : NewPipeline [app; net] = Some (Ok up).
Proof. vm_compute. reflexivity. Qed.

(** The saved dependency "gone" is no longer there, and is ignored. *)
Lemma down_built : NewDestroyPipeline [vm; net] names = Some (Ok down).
Proof. vm_compute. reflexivity. Qed.

(** Runs the only step of a level to the end. *)
Ltac one_step :=
  eapply rtc_l; [apply m_level|]; eapply rtc_l; [eapply (m_start _ _ _ _ _ _ _ _ 0); reflexivity|];
  eapply rtc_l; [eapply (m_act _ _ _ _ _ _ _ _ 0); reflexivity|];
  eapply rtc_l; [eapply (m_return _ _ _ _ _ _ _ _ 0); reflexivity|];
  eapply rtc_l; [eapply (m_report _ _ _ _ _ _ _ _ 0); reflexivity|];
  eapply rtc_l; [eapply (m_done _ _ _ _ _ _ _ _ 0); reflexivity|];
  eapply rtc_l; [eapply m_wait; repeat constructor; eexists; reflexivity|]; simpl.

Definition allUp : list Progress :=
  [Progress_ "net" "running" "starting"; Progress_ "net" "complete" "done";
   Progress_ "app" "running" "starting"; Progress_ "app" "complete" "done"].

Lemma run_up : rtc (Execute_step [] None done_) (Execute_init up [])
  (MState (CReturn None) None allUp ["net up"; "app up"]).
Proof. one_step. one_step. eapply rtc_l; [apply m_end|]. apply rtc_refl. Qed.

Definition allDown : list Progress :=
  [Progress_ "vm" "running" "destroying"; Progress_ "vm" "complete" "destroyed";
   Progress_ "net" "running" "destroying"; Progress_ "net" "complete" "destroyed"].

Lemma run_down : rtc (Destroy_step [] None done_) (Destroy_init down [])
  (MState (CReturn None) None allDown ["vm down"; "net down"]).
Proof. one_step. one_step. eapply rtc_l; [apply m_end|]. apply rtc_refl. Qed.

Lemma Execute_order_witness :
  ∃ t, t ∈ [app; net] ∧ Name t = "net" ∧
    Progress_ (Name t) "complete" "done" ∈ [Progress_ "net" "running" "starting"; Progress_ "net" "complete" "done"].
Proof.
  apply (Execute_order [app; net] up up_built [] None done_ [] _
    [Progress_ "net" "running" "starting"; Progress_ "net" "complete" "done"] app
    [Progress_ "app" "complete" "done"] "net" run_up); [reflexivity|left|left].
Defined.

Lemma Execute_result_witness :
  eventsOf "app" allUp = [Progress_ "app" "running" "starting"; Progress_ "app" "complete" "done"].
Proof.
  refine (proj1 (proj2 (Execute_result [app; net] up up_built [] None done_ [] _ None run_up eq_refl)) app _). left.
Defined.

Lemma Destroy_order_witness :
  ∃ r, reportEvent "destroyed" vm r ∈ [Progress_ "vm" "running" "destroying"; Progress_ "vm" "complete" "destroyed"].
Proof.
  apply (Destroy_order [vm; net] names down down_built [] None done_ [] _
    [Progress_ "vm" "running" "destroying"; Progress_ "vm" "complete" "destroyed"] net
    [Progress_ "net" "complete" "destroyed"] vm run_down);
    [reflexivity|right; left|left|left|apply elem_of_union; left; by apply elem_of_singleton].
Defined.

Lemma Destroy_result_witness :
  Progress_ "vm" "complete" "destroyed" ∈ allDown ∧
  (@None error = None ↔ ∀ s, s ∈ [vm; net] → Progress_ (Name s) "complete" "destroyed" ∈ allDown).
Proof.
  split; [right; left|].
  refine (proj1 (proj2 (Destroy_result [vm; net] names down down_built [] None done_ [] _ None run_down eq_refl _))).
  discriminate.
Defined.

Lemma pipelines_terminate_witness :
  (∃ st', Execute_step [] None done_ (Execute_init up []) st').
Proof.
  destruct (proj1 (pipelines_terminate up [] None done_ []) (Execute_init up []) (rtc_refl _ _)) as [_ [[r E]|H]].
  - discriminate E.
  - exact H.
Defined.
End PipelineExamples.
