(* ===== verification/Persist.v ===== *)
(** * Workflow state on disk: [internal/lib/workflow/persist.go]

    The state of a workflow is a YAML file in a directory of its own, replaced by
    writing a temporary file and renaming it.  The file system is modelled by
    its directories; every system call may fail for reasons of its own, and the
    states between the calls are recorded, since a crash can expose any of them. *)

From stdpp Require Import gmap strings list.
From S2P Require Import Prelude GoStrings Errs Model.
#[local] Open Scope string_scope.

(** ** The file system *)

(** The files of each directory, by name. *)
Notation Dirs Data := (gmap string (gmap string Data)).

(** [ioFaults]: the failures of the next calls; [history]: the states since the start. *)
Record Fs (Data : Type) := Fs_ {
  dirs : Dirs Data;
  ioFaults : list (option error);
  history : list (Dirs Data);
}.
Arguments Fs_ {Data}.
Arguments dirs {Data}.
Arguments ioFaults {Data}.
Arguments history {Data}.

Section Persist.
Context {Data : Type}.

(** The content of a file just created, the errors of the system for a file or
    directory that is not there. *)
Context (emptyFile : Data) (notExist : string → error).

(** [yaml.Marshal] and [yaml.Unmarshal] of a state; [crypto.SHA256]. *)
Context (marshal : WorkflowState → result error Data) (unmarshal : Data → result error WorkflowState).
Context (SHA256 : Data → string).

#[local] Notation M := (GoM (Fs Data) error).

(** One system call. *)
Definition syscall {A} (f : Dirs Data → result error (A * Dirs Data)) : M A := λ w,
  match ioFaults w with
  | Some e :: fs => (Err e, Fs_ (dirs w) fs (history w ++ [dirs w])%list)
  | fs =>
      match f (dirs w) with
      | Ok (a, d) => (Ok a, Fs_ d (tail fs) (history w ++ [d])%list)
      | Err e => (Err e, Fs_ (dirs w) (tail fs) (history w ++ [dirs w])%list)
      end
  end.

Definition fileAt (d : Dirs Data) (dir name : string) : option Data :=
  d !! dir ≫= λ fs, fs !! name.

Definition setFile (dir name : string) (data : Data) (d : Dirs Data) : Dirs Data :=
  alter (λ fs, <[name := data]> fs) dir d.

Definition path (dir name : string) : string := dir ++ "/" ++ name.

Definition sysMkdirAll (dir : string) : M unit :=
  syscall (λ d, Ok ((), match d !! dir with Some _ => d | None => <[dir := ∅]> d end)).

(** [os.OpenFile(O_RDONLY|O_CREATE)]. *)
Definition sysOpenCreate (dir name : string) : M unit :=
  syscall (λ d, match d !! dir with
                | None => Err (notExist (path dir name))
                | Some fs => Ok ((), match fs !! name with Some _ => d | None => setFile dir name emptyFile d end)
                end).

(** A call that reads or changes no file, such as [flock] and [fdatasync]. *)
Definition sysNop : M unit := syscall (λ d, Ok ((), d)).

Definition sysStat (dir name : string) : M unit :=
  syscall (λ d, match fileAt d dir name with None => Err (notExist (path dir name)) | Some _ => Ok ((), d) end).

Definition sysRead (dir name : string) : M Data :=
  syscall (λ d, match fileAt d dir name with None => Err (notExist (path dir name)) | Some x => Ok (x, d) end).

(** Opening for writing truncates; the data comes after. *)
Definition sysTruncate (dir name : string) : M unit :=
  syscall (λ d, match d !! dir with
                | None => Err (notExist (path dir name))
                | Some _ => Ok ((), setFile dir name emptyFile d)
                end).

Definition sysFill (dir name : string) (data : Data) : M unit :=
  syscall (λ d, Ok ((), setFile dir name data d)).

Definition sysRemove (dir name : string) : M unit :=
  syscall (λ d, match fileAt d dir name with
                | None => Err (notExist (path dir name))
                | Some _ => Ok ((), alter (delete name) dir d)
                end).

Definition sysRename (dir src dst : string) : M unit :=
  syscall (λ d, match fileAt d dir src with
                | None => Err (notExist (path dir src))
                | Some x => Ok ((), alter (λ fs, <[dst := x]> (delete src fs)) dir d)
                end).

Definition sysRemoveAll (dir : string) : M unit := syscall (λ d, Ok ((), delete dir d)).

(** [os.WriteFile]. *)
Definition WriteFile (dir name : string) (data : Data) : M unit :=
  _ ← sysTruncate dir name; sysFill dir name data.

Definition wrapIO {A} (msg : string) (m : M A) : M A := λ w,
  match m w with
  | (Err err, w') => (Err (Errorf (msg ++ ": " ++ Error err) (Some err)), w')
  | r => r
  end.

(** Both methods of [infra.CopyFile] open, truncate and fill (at once: a failing
    [sendfile] fails at offset 0). *)
Definition copyVia (how : string) (dir src dst : string) : M unit :=
  x ← wrapIO ("open src for " ++ how) (sysRead dir src);
  _ ← wrapIO ("open dst for " ++ how) (sysTruncate dir dst);
  if decide (how = "sendfile") then wrapIO "sendfile at offset 0" (sysFill dir dst x)
  else sysFill dir dst x.

Definition CopyFile (dir src dst : string) : M unit :=
  r ← try (copyVia "sendfile" dir src dst);
  _ ← (match r with
       | Ok _ => mret ()
       | Err err =>
           r' ← try (copyVia "io.Copy" dir src dst);
           match r' with
           | Ok _ => mret ()
           | Err ioErr => throw (Errorf ("all copy methods failed: sendfile=" ++ Error err ++
                                         ", io.Copy=" ++ Error ioErr) None)
           end
       end);
  o ← try (sysRead dir dst);
  match o with
  | Err err => throw (Errorf ("open for fdatasync: " ++ Error err) (Some err))
  | Ok _ =>
      s ← try sysNop;
      match s with
      | Err err => throw (Errorf ("fdatasync failed: " ++ Error err) (Some err))
      | Ok _ => sysNop
      end
  end.

(** ** [persist.go] *)

(** The lock is released when the function returns; the world of this file is
    that of the process that holds it. *)
Definition acquireLock (dir : string) : M unit :=
  _ ← wrapIO ("open lock file " ++ path dir ".lock") (sysOpenCreate dir ".lock");
  wrapIO ("acquire lock on " ++ path dir ".lock") sysNop.

Definition WriteWorkflowState (dir : string) (state : WorkflowState) : M unit :=
  _ ← wrapIO ("create workflow state dir " ++ dir) (sysMkdirAll dir);
  _ ← wrapIO "lock workflow state" (acquireLock dir);
  st ← try (sysStat dir "state.yaml");
  _ ← (match st with
       | Ok _ => wrapIO ("backup state file " ++ path dir "state.yaml")
                   (CopyFile dir "state.yaml" "state.yaml.backup")
       | Err _ => mret ()
       end);
  match marshal state with
  | Err err => throw (Errorf ("marshal workflow state: " ++ Error err) (Some err))
  | Ok data =>
      _ ← try (sysRemove dir "state.yaml.tmp");
      r ← try (WriteFile dir "state.yaml.tmp" data);
      match r with
      | Err err =>
          _ ← try (sysRemove dir "state.yaml.tmp");
          throw (Errorf ("write temp state file " ++ path dir "state.yaml.tmp" ++ ": " ++ Error err) (Some err))
      | Ok _ =>
          r' ← try (sysRename dir "state.yaml.tmp" "state.yaml");
          match r' with
          | Err err =>
              _ ← try (sysRemove dir "state.yaml.tmp");
              throw (Errorf ("rename state file " ++ path dir "state.yaml.tmp" ++ " -> " ++
                             path dir "state.yaml" ++ ": " ++ Error err) (Some err))
          | Ok _ => mret ()
          end
      end
  end.

Definition wsSetHash (h : string) (s : WorkflowState) : WorkflowState :=
  WorkflowState_ (ws_WorkflowID s) (ws_SpecPath s) (ws_SchemaVersion s) (ws_CreatedAt s)
    (ws_UpdatedAt s) h (ws_Resources s).

Definition ReadWorkflowState (dir : string) : M WorkflowState :=
  l ← try (sysStat dir ".lock");
  _ ← (match l with
       | Ok _ => wrapIO "acquire shared lock" (acquireLock dir)
       | Err _ => mret ()
       end);
  data ← sysRead dir "state.yaml";
  match unmarshal data with
  | Err err => throw (Errorf ("unmarshal workflow state: " ++ Error err) (Some err))
  | Ok state =>
      if decide (ws_ContentHash state = "") then mret state
      else
        let expected := ws_ContentHash state in
        match marshal (wsSetHash "" state) with
        | Err err => throw (Errorf ("compute content hash: " ++ Error err) (Some err))
        | Ok data =>
            let got := SHA256 data in
            if decide (expected ≠ got)
            then throw (Errorf ("state file integrity check failed: content hash mismatch (file=" ++
                                expected ++ " computed=" ++ got ++ ")") None)
            else mret state
        end
  end.

Definition RemoveWorkflowState (dir : string) : M unit :=
  wrapIO ("remove workflow state dir " ++ dir) (sysRemoveAll dir).
End Persist.

(** ** Invariants of every intermediate state *)
Section Crash.
Context {Data : Type}.

(** What holds of the directories throughout: before, after, and between any two
    system calls of a computation. *)
Definition throughout (I : Dirs Data → Prop) {A} (m : GoM (Fs Data) error A) : Prop :=
  ∀ w r w', I (dirs w) → m w = (r, w') →
  I (dirs w') ∧ ∃ h, history w' = (history w ++ h)%list ∧ Forall I h.

Context (I : Dirs Data → Prop).

Lemma throughout_ret {A} (a : A) : throughout I (mret a).
Proof. intros w r w' Hi [= <- <-]. split; [done|]. exists []. by rewrite app_nil_r. Qed.

Lemma throughout_throw {A} e : throughout I (throw (A := A) e).
Proof. intros w r w' Hi [= <- <-]. split; [done|]. exists []. by rewrite app_nil_r. Qed.

Lemma throughout_bind {A B} (m : GoM (Fs Data) error A) (k : A → GoM (Fs Data) error B) :
  throughout I m → (∀ a, throughout I (k a)) → throughout I (m ≫= k).
Proof.
  intros Hm Hk w r w' Hi. rewrite bind_unfold. destruct (m w) as [[a|e] w1] eqn:E.
  - destruct (Hm _ _ _ Hi E) as (Hi1 & h1 & E1 & H1). intros E'.
    destruct (Hk _ _ _ _ Hi1 E') as (Hi2 & h2 & E2 & H2). split; [done|].
    exists (h1 ++ h2)%list. rewrite E2, E1, app_assoc. split; [done|]. by apply Forall_app.
  - intros [= <- <-]. by eapply Hm.
Qed.

Lemma throughout_try {A} (m : GoM (Fs Data) error A) : throughout I m → throughout I (try m).
Proof. intros Hm w r w' Hi. unfold try. destruct (m w) as [r0 w0] eqn:E. intros [= <- <-]. by eapply Hm. Qed.

Lemma throughout_wrapIO {A} msg (m : GoM (Fs Data) error A) : throughout I m → throughout I (wrapIO msg m).
Proof.
  intros Hm w r w' Hi. unfold wrapIO. destruct (m w) as [[a|e] w0] eqn:E; intros [= <- <-]; by eapply Hm.
Qed.

Lemma throughout_syscall {A} (f : Dirs Data → result error (A * Dirs Data)) :
  (∀ d a d', I d → f d = Ok (a, d') → I d') → throughout I (syscall f).
Proof.
  intros Hf w r w' Hi. unfold syscall.
  destruct (ioFaults w) as [|[e|] fs]; [|intros [= <- <-]; simpl; split; [done|]; eexists; split; [done|by repeat constructor]|];
    (destruct (f (dirs w)) as [[a d]|e] eqn:E; intros [= <- <-]; simpl; split; try done;
     [by eapply Hf|eexists; split; [done|repeat constructor; by eapply Hf]|
      eexists; split; [done|by repeat constructor]]).
Qed.
End Crash.

Create HintDb crash.
#[export] Hint Resolve throughout_ret throughout_throw throughout_bind throughout_try throughout_wrapIO : crash.

(** ** The state file is replaced at once *)
Section Atomic.
Context {Data : Type} (emptyFile : Data) (notExist : string → error).
Context (marshal : WorkflowState → result error Data) (unmarshal : Data → result error WorkflowState).
Context (SHA256 : Data → string).
Context (dir : string) (d0 : Dirs Data).

#[local] Notation stateFile d := (fileAt d dir "state.yaml").

(** The state file holds [x], and the other directories are untouched. *)
Definition holds (x : option Data) (d : Dirs Data) : Prop :=
  stateFile d = x ∧ ∀ dir', dir' ≠ dir → d !! dir' = d0 !! dir'.

(** From [old], success brings [new], failure leaves [old], and nothing else shows
    in between. *)
Definition replaces (old new : option Data) {A} (m : GoM (Fs Data) error A) : Prop :=
  ∀ w r w', holds old (dirs w) → m w = (r, w') →
  (∃ h, history w' = (history w ++ h)%list ∧ Forall (λ d, holds old d ∨ holds new d) h) ∧
  match r with Ok _ => holds new (dirs w') | Err _ => holds old (dirs w') end.

Lemma replaces_bind {A B} old new (m : GoM (Fs Data) error A) (k : A → GoM (Fs Data) error B) :
  throughout (holds old) m → (∀ a, replaces old new (k a)) → replaces old new (m ≫= k).
Proof.
  intros Hm Hk w r w' Hi. rewrite bind_unfold. destruct (m w) as [[a|e] w1] eqn:E.
  - destruct (Hm _ _ _ Hi E) as (Hi1 & h1 & E1 & H1). intros E'.
    destruct (Hk _ _ _ _ Hi1 E') as ((h2 & E2 & H2) & Hr). split; [|done].
    exists (h1 ++ h2)%list. rewrite E2, E1, app_assoc. split; [done|]. apply Forall_app. split; [|done].
    eapply Forall_impl; [exact H1|]. auto.
  - intros [= <- <-]. destruct (Hm _ _ _ Hi E) as (Hi1 & h1 & E1 & H1). split; [|done].
    exists h1. split; [done|]. eapply Forall_impl; [exact H1|]. auto.
Qed.

Lemma replaces_throw {A} old new e : replaces old new (throw (A := A) e).
Proof. intros w r w' Hi [= <- <-]. split; [|done]. exists []. by rewrite app_nil_r. Qed.

Lemma holds_alter x (f : gmap string Data → gmap string Data) d :
  (∀ fs, f fs !! "state.yaml" = fs !! "state.yaml") → holds x d → holds x (alter f dir d).
Proof.
  intros Hf [Hx Ho]. split.
  - unfold fileAt in *. rewrite lookup_alter_eq. destruct (d !! dir) as [fs|]; simpl in *; [by rewrite Hf|done].
  - intros dir' Hne. rewrite lookup_alter_ne by done. auto.
Qed.

Lemma setFile_other name data : name ≠ "state.yaml" →
  ∀ fs : gmap string Data, <[name := data]> fs !! "state.yaml" = fs !! "state.yaml".
Proof. intros Hne fs. by apply lookup_insert_ne. Qed.

(** Calls on the other files of the directory. *)
Lemma other_calls x name data :
  name ≠ "state.yaml" →
  throughout (holds x) (sysMkdirAll dir) ∧ throughout (holds x) (sysOpenCreate emptyFile notExist dir name) ∧
  throughout (holds x) (sysTruncate emptyFile notExist dir name) ∧
  throughout (holds x) (sysFill dir name data) ∧ throughout (holds x) (sysRemove notExist dir name).
Proof.
  intros Hne. split_and!; apply throughout_syscall; intros d a d' Hd.
  - intros [= <- <-]. destruct (d !! dir) eqn:E; [done|]. destruct Hd as [Hx Ho]. split.
    + unfold fileAt in *. rewrite lookup_insert_eq. simpl. by rewrite E in Hx.
    + intros dir' Hd'. rewrite lookup_insert_ne by done. auto.
  - destruct (d !! dir) as [fs|]; [|done]. destruct (fs !! name); intros [= <- <-]; [done|].
    apply holds_alter; [by apply setFile_other|done].
  - destruct (d !! dir) as [fs|]; [|done]. intros [= <- <-]. apply holds_alter; [by apply setFile_other|done].
  - intros [= <- <-]. apply holds_alter; [by apply setFile_other|done].
  - destruct (fileAt d dir name); [|done]. intros [= <- <-]. apply holds_alter; [|done].
    intros fs. by apply lookup_delete_ne.
Qed.

Lemma read_calls x name : throughout (holds x) (sysStat notExist dir name) ∧
  throughout (holds x) (sysRead notExist dir name) ∧ throughout (holds x) sysNop.
Proof.
  split_and!; apply throughout_syscall; intros d a d' Hd; [destruct (fileAt _ _ _); [|done]..|];
    by intros [= <- <-].
Qed.

Lemma copyVia_throughout x how : throughout (holds x) (copyVia emptyFile notExist how dir "state.yaml" "state.yaml.backup").
Proof.
  unfold copyVia. apply throughout_bind; [apply throughout_wrapIO, read_calls|]. intros data.
  destruct (other_calls x "state.yaml.backup" data) as (_ & _ & Ht & Hf & _); [done|].
  apply throughout_bind; [by apply throughout_wrapIO|]. intros _. case_decide; [by apply throughout_wrapIO|done].
Qed.

Lemma CopyFile_throughout x : throughout (holds x) (CopyFile emptyFile notExist dir "state.yaml" "state.yaml.backup").
Proof.
  unfold CopyFile. destruct (read_calls x "state.yaml.backup") as (_ & Hread & Hnop).
  apply throughout_bind; [apply throughout_try, copyVia_throughout|]. intros r.
  apply throughout_bind.
  { destruct r; [eauto with crash|]. apply throughout_bind; [apply throughout_try, copyVia_throughout|].
    intros []; eauto with crash. }
  intros _. apply throughout_bind; [by apply throughout_try|]. intros []; [|eauto with crash].
  apply throughout_bind; [by apply throughout_try|]. intros []; eauto with crash.
Qed.

Lemma acquireLock_throughout x : throughout (holds x) (acquireLock emptyFile notExist dir).
Proof.
  unfold acquireLock. destruct (other_calls x ".lock" emptyFile) as (_ & Ho & _); [done|].
  destruct (read_calls x ".lock") as (_ & _ & Hnop). eauto with crash.
Qed.

Lemma WriteFile_throughout x data : throughout (holds x) (WriteFile emptyFile notExist dir "state.yaml.tmp" data).
Proof.
  destruct (other_calls x "state.yaml.tmp" data) as (_ & _ & Ht & Hf & _); [done|].
  unfold WriteFile. eauto with crash.
Qed.

Lemma syscall_Ok {A} (f : Dirs Data → result error (A * Dirs Data)) w a w' :
  syscall f w = (Ok a, w') → f (dirs w) = Ok (a, dirs w') ∧ history w' = (history w ++ [dirs w'])%list.
Proof.
  unfold syscall. destruct (ioFaults w) as [|[e|] fs]; [|done|];
    destruct (f (dirs w)) as [[b d]|e]; intros [= <- <-]; done.
Qed.

Lemma WriteFile_Ok name data w w' :
  WriteFile emptyFile notExist dir name data w = (Ok (), w') → fileAt (dirs w') dir name = Some data.
Proof.
  unfold WriteFile. rewrite bind_unfold. destruct (sysTruncate _ _ _ _ w) as [[[]|e] w1] eqn:E1; [|done].
  intros E2. apply syscall_Ok in E1 as [E1 _], E2 as [E2 _]. destruct (dirs w !! dir) as [fs|] eqn:Ed; [|done].
  injection E1 as E1. injection E2 as E2. rewrite <-E2, <-E1. unfold fileAt, setFile.
  rewrite !lookup_alter_eq, Ed. simpl. by rewrite lookup_insert_eq.
Qed.

(** Removing the temporary file and failing leaves the state file alone. *)
Lemma cleanup_replaces old new e :
  replaces old new (_ ← try (sysRemove notExist dir "state.yaml.tmp"); throw (A := unit) e).
Proof.
  destruct (other_calls old "state.yaml.tmp" emptyFile) as (_ & _ & _ & _ & Hrm); [done|].
  apply replaces_bind; [by apply throughout_try|]. intros r. apply replaces_throw.
Qed.

Lemma replaces_weaken {A} old new (m : GoM (Fs Data) error A) w r w' h1 w1 :
  replaces old new m → holds old (dirs w1) → m w1 = (r, w') →
  history w1 = (history w ++ h1)%list → Forall (holds old) h1 →
  (∃ h, history w' = (history w ++ h)%list ∧ Forall (λ d, holds old d ∨ holds new d) h) ∧
  match r with Ok _ => holds new (dirs w') | Err _ => holds old (dirs w') end.
Proof.
  intros Hm Hi E E1 H1. destruct (Hm _ _ _ Hi E) as ((h2 & E2 & H2) & Hr). split; [|done].
  exists (h1 ++ h2)%list. rewrite E2, E1, app_assoc. split; [done|]. apply Forall_app. split; [|done].
  eapply Forall_impl; [exact H1|]. auto.
Qed.

(** Renaming a temporary file that holds the data. *)
Lemma rename_replaces old data (msg : error → error) w r w' :
  holds old (dirs w) → fileAt (dirs w) dir "state.yaml.tmp" = Some data →
  (r' ← try (sysRename notExist dir "state.yaml.tmp" "state.yaml");
   match r' with
   | Err err => _ ← try (sysRemove notExist dir "state.yaml.tmp"); throw (msg err)
   | Ok _ => mret ()
   end) w = (r, w') →
  (∃ h, history w' = (history w ++ h)%list ∧ Forall (λ d, holds old d ∨ holds (Some data) d) h) ∧
  match r with Ok _ => holds (Some data) (dirs w') | Err _ => holds old (dirs w') end.
Proof.
  intros Hold Htmp. rewrite bind_try.
  destruct (sysRename notExist dir "state.yaml.tmp" "state.yaml" w) as [[[]|e] w1] eqn:E1; cbn [fst snd].
  - intros [= <- <-]. apply syscall_Ok in E1 as [E1 Eh]. rewrite Htmp in E1. injection E1 as E1.
    assert (holds (Some data) (dirs w1)) as Hnew.
    { destruct Hold as [_ Ho]. rewrite <-E1. split.
      - unfold fileAt in *. rewrite lookup_alter_eq. destruct (dirs w !! dir); [|done]. simpl.
        by rewrite lookup_insert_eq.
      - intros dir' Hne. rewrite lookup_alter_ne by done. auto. }
    split; [|done]. eexists. split; [exact Eh|]. constructor; [by right|constructor].
  - assert (dirs w1 = dirs w ∧ history w1 = (history w ++ [dirs w])%list) as [Ed Eh].
    { revert E1. unfold sysRename, syscall. rewrite Htmp.
      destruct (ioFaults w) as [|[e'|] fs]; by intros [= <- <-]. }
    intros E2. eapply replaces_weaken; [apply cleanup_replaces|rewrite Ed; exact Hold|exact E2|exact Eh|].
    by constructor.
Qed.

(** The calls before the temporary file is written. *)
Lemma prefix_replaces old new (rest : GoM (Fs Data) error unit) :
  replaces old new rest →
  replaces old new
    (_ ← wrapIO ("create workflow state dir " ++ dir) (sysMkdirAll dir);
     _ ← wrapIO "lock workflow state" (acquireLock emptyFile notExist dir);
     st ← try (sysStat notExist dir "state.yaml");
     _ ← (match st with
          | Ok _ => wrapIO ("backup state file " ++ path dir "state.yaml")
                      (CopyFile emptyFile notExist dir "state.yaml" "state.yaml.backup")
          | Err _ => mret ()
          end); rest).
Proof.
  intros Hrest. destruct (other_calls old ".lock" emptyFile) as (Hmk & _); [done|].
  apply replaces_bind; [by apply throughout_wrapIO|]. intros _.
  apply replaces_bind; [apply throughout_wrapIO, acquireLock_throughout|]. intros _.
  apply replaces_bind; [apply throughout_try, read_calls|]. intros st.
  apply replaces_bind; [|done].
  destruct st; [apply throughout_wrapIO, CopyFile_throughout|apply throughout_ret].
Qed.

Lemma write_replaces old state data :
  marshal state = Ok data →
  replaces old (Some data) (WriteWorkflowState emptyFile notExist marshal dir state).
Proof.
  intros Em. unfold WriteWorkflowState. rewrite Em. apply prefix_replaces.
  destruct (other_calls old "state.yaml.tmp" emptyFile) as (_ & _ & _ & _ & Hrm); [done|].
  apply replaces_bind; [by apply throughout_try|].
  intros _ w1 r1 w2 Hi1. rewrite bind_try.
  destruct (WriteFile emptyFile notExist dir "state.yaml.tmp" data w1) as [r0 w3] eqn:Ew.
  destruct (WriteFile_throughout old data _ _ _ Hi1 Ew) as (Hi3 & h & Eh & Hh). cbn [fst snd].
  destruct r0 as [[]|e].
  - intros E2. eapply rename_replaces in E2 as [(h2 & Eh2 & Hh2) Hr]; [|exact Hi3|by eapply WriteFile_Ok].
    split; [|exact Hr]. exists (h ++ h2)%list. rewrite Eh2, Eh, app_assoc. split; [done|].
    apply Forall_app. split; [|done]. eapply Forall_impl; [exact Hh|]. auto.
  - intros E2. by eapply replaces_weaken; [apply cleanup_replaces|..].
Qed.

(** C32. [WriteWorkflowState] is atomic: whatever fails, and wherever the process
    is killed, the state file holds either what it held before or the whole new
    state; it holds the new state when the call succeeds and the old one when
    it fails, and no other workflow's directory changes. *)
Theorem WriteWorkflowState_atomic state w r w' :
  dirs w = d0 → WriteWorkflowState emptyFile notExist marshal dir state w = (r, w') →
  match marshal state with
  | Ok data =>
      (∃ h, history w' = (history w ++ h)%list ∧
        Forall (λ d, holds (stateFile d0) d ∨ holds (Some data) d) h) ∧
      match r with Ok _ => holds (Some data) (dirs w') | Err _ => holds (stateFile d0) (dirs w') end
  | Err _ => holds (stateFile d0) (dirs w')
  end.
Proof.
  intros Ed E. assert (holds (stateFile d0) (dirs w)) as Hi by (by rewrite Ed).
  destruct (marshal state) as [data|e] eqn:Em; [by eapply write_replaces|].
  unfold WriteWorkflowState in E. rewrite Em in E.
  eapply prefix_replaces in E as [_ Hr]; [by destruct r|apply replaces_throw|exact Hi].
Qed.

(** ** Reading back *)

Lemma syscall_healthy {A} (f : Dirs Data → result error (A * Dirs Data)) w :
  ioFaults w = [] →
  syscall f w = match f (dirs w) with
                | Ok (a, d) => (Ok a, Fs_ d [] (history w ++ [d])%list)
                | Err e => (Err e, Fs_ (dirs w) [] (history w ++ [dirs w])%list)
                end.
Proof. unfold syscall. by intros ->. Qed.

(** Taking the lock of a directory that exists works, and changes no other file. *)
Lemma acquireLock_healthy x w :
  ioFaults w = [] → holds (Some x) (dirs w) →
  ∃ w', acquireLock emptyFile notExist dir w = (Ok (), w') ∧ ioFaults w' = [] ∧ holds (Some x) (dirs w').
Proof.
  intros Hno Hx. destruct (acquireLock emptyFile notExist dir w) as [r w'] eqn:E.
  destruct (acquireLock_throughout (Some x) _ _ _ Hx E) as [Hx' _].
  unfold acquireLock in E. rewrite bind_unfold in E. unfold wrapIO at 1, sysOpenCreate in E.
  rewrite syscall_healthy in E by done. destruct Hx as [Hf _]. unfold fileAt in Hf.
  destruct (dirs w !! dir) as [fs|]; [|done]. simpl in E.
  destruct (fs !! ".lock"); simpl in E; unfold wrapIO, sysNop in E;
    rewrite syscall_healthy in E by done; simpl in E; injection E as <- <-; eauto.
Qed.

(** What a write leaves in the state file. *)
Lemma write_file state w r w' :
  dirs w = d0 → WriteWorkflowState emptyFile notExist marshal dir state w = (r, w') →
  match r with
  | Ok _ => ∃ data, marshal state = Ok data ∧ stateFile (dirs w') = Some data
  | Err _ => stateFile (dirs w') = stateFile (dirs w)
  end.
Proof.
  intros Ed E. assert (holds (stateFile d0) (dirs w)) as Hi by (by rewrite Ed).
  destruct (marshal state) as [data|e] eqn:Em.
  - destruct (write_replaces _ _ _ Em _ _ _ Hi E) as [_ Hr].
    destruct r; [exists data|]; rewrite ?Ed; by destruct Hr.
  - unfold WriteWorkflowState in E. rewrite Em in E. pose proof E as E'.
    eapply (prefix_replaces _ None) in E as [_ HN]; [|apply replaces_throw|exact Hi].
    eapply (prefix_replaces _ (Some emptyFile)) in E' as [_ HS]; [|apply replaces_throw|exact Hi].
    destruct r; [destruct HN, HS; congruence|]. rewrite Ed. apply HN.
Qed.

Lemma sysRead_Ok name (w : Fs Data) data w' :
  sysRead notExist dir name w = (Ok data, w') → fileAt (dirs w) dir name = Some data.
Proof.
  intros [E _]%syscall_Ok. by destruct (fileAt (dirs w) dir name); [injection E as -> _|].
Qed.

(** A read keeps the state file, and answers what is in it. *)
Lemma read_file w r w' :
  dirs w = d0 → ReadWorkflowState emptyFile notExist marshal unmarshal SHA256 dir w = (r, w') →
  stateFile (dirs w') = stateFile d0 ∧
  ∀ state, r = Ok state → ∃ data, stateFile d0 = Some data ∧ unmarshal data = Ok state.
Proof.
  intros Ed. unfold ReadWorkflowState. rewrite bind_try, bind_unfold.
  set (lock := match _ with Ok _ => wrapIO _ _ | Err _ => _ end).
  destruct (read_calls (stateFile d0) ".lock") as (Hstat & _ & _).
  destruct (read_calls (stateFile d0) "state.yaml") as (_ & Hread & _).
  assert (holds (stateFile d0) (dirs w)) as Hi by (by rewrite Ed).
  destruct (sysStat notExist dir ".lock" w) as [l w1] eqn:E1. simpl in *.
  destruct (Hstat _ _ _ Hi E1) as [Hi1 _]. destruct (lock w1) as [o w2] eqn:E2.
  assert (holds (stateFile d0) (dirs w2)) as Hi2.
  { assert (throughout (holds (stateFile d0)) lock) as Hl.
    { subst lock. destruct l; eauto using acquireLock_throughout with crash. }
    by destruct (Hl _ _ _ Hi1 E2). }
  destruct o as [[]|e]; [|intros [= <- <-]; split; [apply Hi2|done]].
  rewrite bind_unfold. destruct (sysRead notExist dir "state.yaml" w2) as [x w3] eqn:E3.
  destruct (Hread _ _ _ Hi2 E3) as [[Hi3 _] _]. destruct x as [data|e]; [|intros [= <- <-]; split; [apply Hi3|done]].
  apply sysRead_Ok in E3. rewrite (proj1 Hi2) in E3. intros E.
  destruct (unmarshal data) as [state|e] eqn:Eu; [|injection E as <- <-; by split].
  assert (w3 = w' ∧ (r = Ok state ∨ ∃ e, r = Err e)) as [<- Hr].
  { case_decide; [injection E as <- <-; auto|].
    destruct (marshal _); [case_decide|]; injection E as <- <-; eauto. }
  split; [done|]. intros state' ->. destruct Hr as [[= ->]|[? [=]]]. eauto.
Qed.

(** C33. What [WriteWorkflowState] saved, [ReadWorkflowState] reads back, when no
    call of the read fails; for a state without content hash, as the program
    writes them. *)
Theorem Write_Read_roundtrip state w w1 :
  (∀ data, marshal state = Ok data → unmarshal data = Ok state) → ws_ContentHash state = "" →
  dirs w = d0 → WriteWorkflowState emptyFile notExist marshal dir state w = (Ok (), w1) → ioFaults w1 = [] →
  ∃ w2, ReadWorkflowState emptyFile notExist marshal unmarshal SHA256 dir w1 = (Ok state, w2).
Proof.
  intros Hyaml Hhash Ed E Hno. assert (holds (stateFile d0) (dirs w)) as Hi by (by rewrite Ed).
  destruct (write_file _ _ _ _ Ed E) as (data & Em & _).
  destruct (write_replaces _ _ _ Em _ _ _ Hi E) as [_ Hd].
  unfold ReadWorkflowState. rewrite bind_try.
  assert (∃ r w2, sysStat notExist dir ".lock" w1 = (r, w2) ∧ ioFaults w2 = [] ∧ dirs w2 = dirs w1)
    as (r & w2 & E2 & Hno2 & Ed2).
  { unfold sysStat. rewrite syscall_healthy by done. destruct (fileAt (dirs w1) dir _); eexists _, _; (split; [reflexivity|by split]). }
  rewrite E2. cbn [fst snd]. rewrite bind_unfold.
  assert (∃ w3, (match r with
                 | Ok _ => wrapIO "acquire shared lock" (acquireLock emptyFile notExist dir)
                 | Err _ => mret ()
                 end) w2 = (Ok (), w3) ∧ ioFaults w3 = [] ∧ holds (Some data) (dirs w3)) as (w3 & E3 & Hno3 & Hd3).
  { destruct r as [[]|e]; [|exists w2; by rewrite Ed2].
    destruct (acquireLock_healthy data w2) as (w3 & E3 & ?); [done|by rewrite Ed2|].
    exists w3. unfold wrapIO. by rewrite E3. }
  rewrite E3, bind_unfold. unfold sysRead. rewrite syscall_healthy by done. destruct Hd3 as [-> _].
  rewrite (Hyaml data Em), decide_True by done. by eexists.
Qed.
End Atomic.

(** ** Instances *)

Module PersistExamples.
Definition noFile (p : string) : error := Errorf ("open " ++ p ++ ": no such file or directory") None.

(** Files hold a state, or nothing. *)
Definition encodeState (s : WorkflowState) : result error (option WorkflowState) := Ok (Some s).
Definition decodeState (d : option WorkflowState) : result error WorkflowState :=
  match d with Some s => Ok s | None => Err (Errorf "EOF" None) end.
Definition noHash (d : option WorkflowState) : string := "".
Definition oldState : WorkflowState := WorkflowState_ "wf" "env.yaml" "1.0" "t0" "t0" "" [].
Definition newState : WorkflowState := WorkflowState_ "wf" "env.yaml" "1.0" "t0" "t1" "" [].
Definition before : Dirs (option WorkflowState) := {[ "/wf" := {[ "state.yaml" := Some oldState ]} ]}.
Definition disk : Fs (option WorkflowState) := Fs_ before [] [].

(** Thirteen calls work, and the next, the renaming, fails. *)
Definition failing : Fs (option WorkflowState) :=
  Fs_ before (replicate 13 None ++ [Some (Errorf "no space left on device" None)]) [].
Notation write w := (WriteWorkflowState None noFile encodeState "/wf" newState w).

Lemma WriteWorkflowState_atomic_witness :
  is_Ok (write failing).1 = false ∧ fileAt (dirs (write failing).2) "/wf" "state.yaml" = Some (Some oldState).
Proof.
  split; [vm_compute; reflexivity|].
  destruct (write failing) as [r w'] eqn:E.
  pose proof (WriteWorkflowState_atomic None noFile encodeState "/wf" before newState failing r w' eq_refl E) as [_ H].
  assert (is_Ok r = false) as Hr by (change r with (r, w').1; rewrite <-E; vm_compute; reflexivity).
  destruct r; [discriminate Hr|]. exact (proj1 H).
Defined.

Lemma Write_Read_roundtrip_witness :
  ∃ w2, ReadWorkflowState None noFile encodeState decodeState noHash "/wf" (write disk).2 = (Ok newState, w2).
Proof.
  assert (write disk = (Ok (), (write disk).2)) as E by (vm_compute; reflexivity).
  apply (Write_Read_roundtrip None noFile encodeState decodeState noHash "/wf" before newState disk _);
    [by intros data [= <-]|reflexivity|reflexivity|exact E|vm_compute; reflexivity].
Defined.
End PersistExamples.
