(* ===== verification/Env.v ===== *)
(** * Environments: [internal/workflow/env/env.go, utils.go, spec.go]

    [Apply] provisions the resources of a spec with a pipeline, saving the state of
    each step as soon as the step has done its work; [Destroy] tears down what the
    saved state lists; [Diff] compares the two.  The steps themselves, which call
    the API, are programs over a world of their own that may ask for their state
    to be saved. *)

From Stdlib Require Import Ascii.
From stdpp Require Import gmap strings list relations sorting.
From S2P Require Import Prelude GoStrings Errs Model Dag Pipeline Persist Sql.
#[local] Open Scope string_scope.

(** ** Names ([utils.go], [spec.go]) *)

(** [strings.Index(s, ":")] and the slice before it. *)
Definition InferStepType (stepName : string) : string :=
  match Cut stepName ":" with
  | Some (t, _) => if decide (t = "") then "unknown" else t
  | None => "unknown"
  end.

Definition FormatStepName (stepType name : string) : string := stepType ++ ":" ++ name.

(** [strings.CutPrefix]. *)
Fixpoint CutPrefix (s prefix : string) : option string :=
  match prefix, s with
  | "", _ => Some s
  | String c p, String d r => if Ascii.eqb c d then CutPrefix r p else None
  | String _ _, "" => None
  end.

Definition BareStepName (stepName stepType : string) : string :=
  match CutPrefix stepName (stepType ++ ":") with
  | Some after => if decide (after = "") then stepName else after
  | None => stepName
  end.

Definition TrimPrefix (s prefix : string) : string := default s (CutPrefix s prefix).

(** The list of a YAML value is changed in place; no other value aliases it. *)
Definition stripRefPrefix (v : any) : any :=
  match v with
  | AnyString s => AnyString (TrimPrefix s "@")
  | AnyList l => AnyList ((λ item, match item with AnyString s => AnyString (TrimPrefix s "@") | _ => item end) <$> l)
  | _ => v
  end.

Definition stripSpecRefs (spec : ResourceMap) : ResourceMap := stripRefPrefix <$> spec.

Definition stripBareName (s : string) : string :=
  match Cut s ":" with
  | Some (_, after) => if decide (after = "") then s else after
  | None => s
  end.

(** ** Steps that save their state *)

(** The body of a step's method: calls on its own world [D], and calls of the
    [StateWriter]. *)
Inductive sprog (D : Type) : Type :=
  | SRet (err : option error)
  | SDo (X : Type) (m : D → X * D) (k : X → sprog D)
  | SWrite (data : ResourceState) (k : option error → sprog D).
Arguments SRet {D}.
Arguments SDo {D}.
Arguments SWrite {D}.

(** The contract of [StateWriter] ([step.go]): a step that answers nil has saved
    its state, and one whose state could not be saved answers an error. *)
Fixpoint saves {D} (p : sprog D) : Prop :=
  match p with
  | SRet err => err ≠ None
  | SDo X m k => ∀ x, saves (k x)
  | SWrite data k => ∀ e, saves (k (Some e))
  end.

Class EnvStep (D A : Type) := {
  applyProg : A → ResourceState → sprog D;
  destroyProg : A → ResourceState → sprog D;
  stateData : A → D → ResourceState;
  specHash : A → string;
  removes : A → list string;
}.

(** ** The world of a run *)

(** The steps' world, the variables [resources] and [createdAt] of [Apply] (or
    [resources] of [Destroy]), the disk, and what [infra.Now] answers. *)
Record EWorld (D Data : Type) := EWorld_ {
  ew_dom : D;
  ew_resources : list AppliedResource;
  ew_createdAt : string;
  ew_fs : Fs Data;
  ew_now : string;
}.
Arguments EWorld_ {D Data}.
Arguments ew_dom {D Data}.
Arguments ew_resources {D Data}.
Arguments ew_createdAt {D Data}.
Arguments ew_fs {D Data}.
Arguments ew_now {D Data}.

Section Lift.
Context {D Data : Type}.
#[local] Notation W := (EWorld D Data).

Definition onDom {X} (m : D → X * D) (w : W) : X * W :=
  let '(x, d) := m (ew_dom w) in
  (x, EWorld_ d (ew_resources w) (ew_createdAt w) (ew_fs w) (ew_now w)).

(** A step in the pipeline; [env] always passes a writer. *)
Fixpoint lift (write : StateWriter W) (p : sprog D) : prog W :=
  match p with
  | SRet err => PRet err
  | SDo X m k => PDo X (onDom m) (λ x, lift write (k x))
  | SWrite data k =>
      match write with
      | Some wr => PDo (option error) (wr data) (λ r, lift write (k r))
      | None => PRet (Some (Errorf "nil writer" None))
      end
  end.

#[export] Instance EnvStep_Runnable A `{EnvStep D A} : Runnable W A := {|
  Apply := λ s saved write, lift write (applyProg s saved);
  Destroy := λ s saved write, lift write (destroyProg s saved);
  StateData := λ s w, stateData s (ew_dom w);
  SpecHash := specHash;
  Removes := removes;
|}.
End Lift.

(** ** [env.go] *)
Section Env.
Context {D Data A : Type} `{Step A, !EnvStep D A}.
Context (emptyFile : Data) (notExist : string → error) (IsNotExist : error → bool).
Context (marshal : WorkflowState → result error Data) (unmarshal : Data → result error WorkflowState).
Context (SHA256 : Data → string).

(** The workflow's id, its spec and its directory. *)
Context (wfID specPath stateDir : string).

#[local] Notation W := (EWorld D Data).
#[local] Notation write := (WriteWorkflowState emptyFile notExist marshal stateDir).
#[local] Notation read := (ReadWorkflowState emptyFile notExist marshal unmarshal SHA256 stateDir).

Definition envStateSchemaVersion : string := "1.0".

Definition appliedResource {B} `{Step B} (step : B) (data : ResourceState) : AppliedResource :=
  AppliedResource_ (Name step) (Type_ step) (Dependencies step) data.

(** [onStepComplete] of [Apply]; the whole of it under its mutex. *)
Definition applyStepComplete (step : A) (data : ResourceState) (w : W) : option error * W :=
  let createdAt := if decide (ew_createdAt w = "") then ew_now w else ew_createdAt w in
  let resources := (ew_resources w ++ [appliedResource step data])%list in
  let wfState := WorkflowState_ wfID specPath envStateSchemaVersion createdAt (ew_now w) "" resources in
  let '(r, fs) := write wfState (ew_fs w) in
  let w' := EWorld_ (ew_dom w) resources createdAt fs (ew_now w) in
  match r with
  | Ok _ => (None, w')
  | Err pErr => (Some (Errorf ("persist workflow state after step " ++ Quote (Name step) ++ ": " ++ Error pErr)
                         (Some pErr)), w')
  end.

Definition withoutResource (name : string) (resources : list AppliedResource) : list AppliedResource :=
  filter (λ r, ar_Name r ≠ name) resources.

(** [onStepComplete] of [Destroy]; [saved] is the state it read. *)
Definition destroyStepComplete {B} `{Step B} (saved : WorkflowState) (step : B) (data : ResourceState) (w : W)
    : option error * W :=
  let resources := withoutResource (Name step) (ew_resources w) in
  let updatedState := WorkflowState_ wfID (ws_SpecPath saved) envStateSchemaVersion
                        (ws_CreatedAt saved) (ew_now w) "" resources in
  let '(r, fs) := write updatedState (ew_fs w) in
  let w' := EWorld_ (ew_dom w) resources (ew_createdAt w) fs (ew_now w) in
  match r with
  | Ok _ => (None, w')
  | Err pErr => (Some (Errorf ("persist workflow state after destroy step " ++ Quote (Name step) ++ ": " ++ Error pErr)
                         (Some pErr)), w')
  end.

(** The calls of [op] that remove a target, by the type in its name; [None] is
    the default case, which only warns. *)
Context (removeTarget : string → string → option (D → option error * D)).

(** The removal of one target of a step, and its record in the state. *)
Definition removeOne (w : W) (target : string) : W :=
  let stepType := InferStepType target in
  let name := BareStepName target stepType in
  let '(removeErr, w1) :=
    match removeTarget stepType name with
    | Some m => onDom m w
    | None => (None, w)
    end in
  match removeErr with
  | Some _ => w1
  | None =>
      let resources := withoutResource target (ew_resources w1) in
      let wfState := WorkflowState_ wfID specPath envStateSchemaVersion (ew_createdAt w1) (ew_now w1) "" resources in
      let '(_, fs) := write wfState (ew_fs w1) in
      EWorld_ (ew_dom w1) resources (ew_createdAt w1) fs (ew_now w1)
  end.

Definition removeAll (steps : list A) (w : W) : W :=
  foldl (λ w step, foldl removeOne w (removes step)) w steps.

(** The saved resources of an earlier run, for re-apply detection: read once, and
    nil when they cannot be read. *)
Definition prevResources (w : W) : list AppliedResource * W :=
  let '(r, fs) := read (ew_fs w) in
  (match r with Ok st => ws_Resources st | Err _ => [] end,
   EWorld_ (ew_dom w) (ew_resources w) (ew_createdAt w) fs (ew_now w)).

(** [Apply] from the resolved steps on, without the deferred destruction of an
    ephemeral environment: the variables start empty, the pipeline runs in some
    interleaving, and the removals follow a success. *)
Inductive ApplySteps (ctxErr : error) (steps : list A) (w : W) : option error → W → Prop :=
  | as_empty :
      steps = [] →
      ApplySteps ctxErr steps w (Some (EDomain (New CodeValidationFailed "env spec contains no resources" []))) w
  | as_badPipeline err :
      steps ≠ [] → NewPipeline steps = Some (Err err) →
      ApplySteps ctxErr steps w
        (Some (EDomain (WrapMsg CodeInternal
          ("build pipeline for " ++ specPath ++ ": " ++ Error err) err []))) w
  | as_run p prev w0 st :
      steps ≠ [] → NewPipeline steps = Some (Ok p) →
      prevResources (EWorld_ (ew_dom w) [] "" (ew_fs w) (ew_now w)) = (prev, w0) →
      rtc (Execute_step prev (Some applyStepComplete) ctxErr) (Execute_init p w0) st →
      ctl st = CReturn None →
      ApplySteps ctxErr steps w None (removeAll steps (mworld st))
  | as_failed p prev w0 st err :
      steps ≠ [] → NewPipeline steps = Some (Ok p) →
      prevResources (EWorld_ (ew_dom w) [] "" (ew_fs w) (ew_now w)) = (prev, w0) →
      rtc (Execute_step prev (Some applyStepComplete) ctxErr) (Execute_init p w0) st →
      ctl st = CReturn (Some err) →
      ApplySteps ctxErr steps w
        (Some (EDomain (WrapMsg CodeInternal
          ("env apply " ++ specPath ++ " failed: " ++ Error err) err []))) (mworld st).

(** [Registry], less the constructors from a spec; the key is also the step type. *)
Context (registry : gmap string (string → ResourceState → list string → result error A)).

(** The loop that reconstructs the saved steps, and the names of those it could. *)
Fixpoint reconstruct (resources : list AppliedResource) : result error (list A * gset string) :=
  match resources with
  | [] => Ok ([], ∅)
  | res :: rest =>
      match registry !! ar_Type res with
      | None => reconstruct rest
      | Some fromState =>
          match fromState (BareStepName (ar_Name res) (ar_Type res)) (ar_State res) (ar_Dependencies res) with
          | Err err =>
              Err (EDomain (WrapMsg CodeInternal
                ("reconstruct step " ++ Quote (ar_Name res) ++ ": " ++ Error err) err []))
          | Ok step =>
              '(steps, names) ← reconstruct rest;
              mret (step :: steps, {[ar_Name res]} ∪ names)
          end
      end
  end.

(** [Destroy] of the workflow [specOrID] names. *)
Inductive DestroyWorkflow (ctxErr : error) (specOrID : string) (w : W) : option error → W → Prop :=
  | dw_unread err fs :
      read (ew_fs w) = (Err err, fs) →
      DestroyWorkflow ctxErr specOrID w
        (Some (if IsNotExist err
               then EDomain (NotFound CodeValidationFailed
                      ("no saved workflow state found for " ++ Quote specOrID) [])
               else EDomain (WrapMsg CodeInternal
                      ("read workflow state " ++ stateDir ++ ": " ++ Error err) err [])))
        (EWorld_ (ew_dom w) (ew_resources w) (ew_createdAt w) fs (ew_now w))
  | dw_badStep saved fs err :
      read (ew_fs w) = (Ok saved, fs) → reconstruct (ws_Resources saved) = Err err →
      DestroyWorkflow ctxErr specOrID w (Some err)
        (EWorld_ (ew_dom w) (ew_resources w) (ew_createdAt w) fs (ew_now w))
  | dw_empty saved fs names :
      read (ew_fs w) = (Ok saved, fs) → reconstruct (ws_Resources saved) = Ok ([], names) →
      DestroyWorkflow ctxErr specOrID w
        (Some (EDomain (New CodeValidationFailed "no reconstructable steps in saved state" [])))
        (EWorld_ (ew_dom w) (ew_resources w) (ew_createdAt w) fs (ew_now w))
  | dw_badPipeline saved fs steps names err :
      read (ew_fs w) = (Ok saved, fs) → reconstruct (ws_Resources saved) = Ok (steps, names) → steps ≠ [] →
      NewDestroyPipeline steps names = Some (Err err) →
      DestroyWorkflow ctxErr specOrID w
        (Some (EDomain (WrapMsg CodeInternal
          ("build destroy pipeline for " ++ specOrID ++ ": " ++ Error err) err [])))
        (EWorld_ (ew_dom w) (ew_resources w) (ew_createdAt w) fs (ew_now w))
  | dw_failed saved fs steps names p st err :
      read (ew_fs w) = (Ok saved, fs) → reconstruct (ws_Resources saved) = Ok (steps, names) → steps ≠ [] →
      NewDestroyPipeline steps names = Some (Ok p) →
      rtc (Destroy_step (ws_Resources saved) (Some (destroyStepComplete saved)) ctxErr)
        (Destroy_init p (EWorld_ (ew_dom w) (ws_Resources saved) (ew_createdAt w) fs (ew_now w))) st →
      ctl st = CReturn (Some err) →
      DestroyWorkflow ctxErr specOrID w
        (Some (EDomain (WrapMsg CodeInternal
          ("env destroy " ++ specOrID ++ " failed: " ++ Error err) err []))) (mworld st)
  | dw_done saved fs steps names p st :
      read (ew_fs w) = (Ok saved, fs) → reconstruct (ws_Resources saved) = Ok (steps, names) → steps ≠ [] →
      NewDestroyPipeline steps names = Some (Ok p) →
      rtc (Destroy_step (ws_Resources saved) (Some (destroyStepComplete saved)) ctxErr)
        (Destroy_init p (EWorld_ (ew_dom w) (ws_Resources saved) (ew_createdAt w) fs (ew_now w))) st →
      ctl st = CReturn None →
      DestroyWorkflow ctxErr specOrID w None
        (EWorld_ (ew_dom (mworld st)) (ew_resources (mworld st)) (ew_createdAt (mworld st))
          (RemoveWorkflowState stateDir (ew_fs (mworld st))).2 (ew_now (mworld st))).
End Env.

(** ** [Diff] *)

Record DiffResult := DiffResult_ {
  diff_New : list string;
  diff_Removed : list string;
  diff_Existing : list string;
  diff_Drifted : list string;
}.

(** Hashes by name; the last of a name wins. *)
Definition hashesOf (entries : list (string * string)) : gmap string string :=
  foldl (λ m e, <[e.1 := e.2]> m) ∅ entries.

Definition drifted (specHash stateHash : string) : Prop :=
  specHash ≠ "" ∧ stateHash ≠ "" ∧ specHash ≠ stateHash.

#[export] Instance drifted_dec a b : Decision (drifted a b).
Proof. unfold drifted. apply _. Defined.

(** [sort.Strings] of the names of a map whose entries satisfy [P]. *)
Definition sortedNames (m : gmap string string) (P : string → string → bool) : list string :=
  orderBy id (fst <$> filter (λ e, P e.1 e.2) (map_to_list m)).

(** From the names and hashes of the spec's steps and of the saved resources. *)
Definition diffOf (specSteps stateResources : list (string * string)) : DiffResult :=
  let specByName := hashesOf specSteps in
  let stateByName := hashesOf stateResources in
  DiffResult_
    (sortedNames specByName (λ n _, bool_decide (stateByName !! n = None)))
    (sortedNames stateByName (λ n _, bool_decide (specByName !! n = None)))
    (sortedNames specByName (λ n h, match stateByName !! n with
                                    | Some h' => negb (bool_decide (drifted h h')) | None => false end))
    (sortedNames specByName (λ n h, match stateByName !! n with
                                    | Some h' => bool_decide (drifted h h') | None => false end)).

(** ** What the saved state says during a run *)

(** One action of a program. *)
Definition pnext {W} (p : prog W) (w : W) (q : prog W) (w' : W) : Prop :=
  match p with
  | PRet _ => False
  | PDo X m k => ∃ x, m w = (x, w') ∧ q = k x
  end.

Section SavedState.
Context {D Data : Type}.
Context (emptyFile : Data) (notExist : string → error).
Context (marshal : WorkflowState → result error Data) (unmarshal : Data → result error WorkflowState).
Context (wfID specPath stateDir : string).
Context (yaml_roundtrip : ∀ wf data, marshal wf = Ok data → unmarshal data = Ok wf).

#[local] Notation W := (EWorld D Data).

(** A read of the state file would list the resource. *)
Definition onDisk (n : string) (w : W) : Prop :=
  ∃ data wf, fileAt (dirs (ew_fs w)) stateDir "state.yaml" = Some data ∧ unmarshal data = Ok wf ∧
    n ∈ ar_Name <$> ws_Resources wf.

Lemma onDisk_same n w w' :
  fileAt (dirs (ew_fs w')) stateDir "state.yaml" = fileAt (dirs (ew_fs w)) stateDir "state.yaml" →
  onDisk n w' ↔ onDisk n w.
Proof. unfold onDisk. by intros ->. Qed.

Lemma onDisk_written n w wf data :
  marshal wf = Ok data → fileAt (dirs (ew_fs w)) stateDir "state.yaml" = Some data →
  onDisk n w ↔ n ∈ ar_Name <$> ws_Resources wf.
Proof.
  intros Em Ef. unfold onDisk. rewrite Ef. split.
  - intros (d & wf' & [= <-] & Hu & Hn). rewrite (yaml_roundtrip _ _ Em) in Hu. by injection Hu as <-.
  - intros Hn. exists data, wf. eauto using yaml_roundtrip.
Qed.

Lemma onDom_state {X} (m : D → X * D) (w : W) x w' :
  onDom m w = (x, w') → ew_resources w' = ew_resources w ∧ ew_fs w' = ew_fs w.
Proof. unfold onDom. destruct (m (ew_dom w)). by intros [= <- <-]. Qed.

(** The programs of lifted steps: an action is the step's own or a call of the writer. *)
Lemma lift_next (wr : ResourceState → W → option error * W) (sp : sprog D) w q w' :
  pnext (lift (Some wr) sp) w q w' →
  (∃ X m k x, sp = SDo X m k ∧ onDom m w = (x, w') ∧ q = lift (Some wr) (k x)) ∨
  (∃ data k r, sp = SWrite data k ∧ wr data w = (r, w') ∧ q = lift (Some wr) (k r)).
Proof.
  destruct sp as [e|X m k|data k]; simpl; [done|..].
  - intros (x & Hm & ->). left. do 4 eexists. eauto.
  - intros (r & Hm & ->). right. do 3 eexists. eauto.
Qed.

Lemma lift_ret (wr : ResourceState → W → option error * W) (sp : sprog D) r : PRet r = lift (Some wr) sp → sp = SRet r.
Proof. destruct sp; simpl; [by intros [= ->]|done|done]. Qed.
End SavedState.

(** ** Runs of lifted steps

    [good]: what an answered [StateWriter] call of a step establishes for good;
    [kept]: what only the calls of the step itself can undo. *)
Section Durable.
Context {D Data A : Type} `{Step A}.
#[local] Notation W := (EWorld D Data).
Context (sp_ : A → sprog D) (cb : A → ResourceState → W → option error * W).
Context (halts : bool) (startMsg doneMsg : string) (wrap : string → error → error) (ctxErr : error).
Context (good kept : string → W → Prop).
Context (good_dom : ∀ X (m : D → X * D) w x w' n, onDom m w = (x, w') → good n w → good n w').
Context (kept_dom : ∀ X (m : D → X * D) w x w' n, onDom m w = (x, w') → kept n w → kept n w').
Context (good_cb : ∀ s data w r w' n, cb s data w = (r, w') → good n w ∨ (n = Name s ∧ r = None) → good n w').
Context (kept_cb : ∀ s data w r w' n, cb s data w = (r, w') → n ≠ Name s → kept n w → kept n w').
Context (all_save : ∀ s, saves (sp_ s)).

#[local] Notation body := (λ s, lift (Some (cb s)) (sp_ s)).
#[local] Notation mstep := (mstep body halts startMsg doneMsg wrap ctxErr).

(** Where a goroutine stands: its state is saved, or still must be. *)
Definition savedPhase (ev : list Progress) (w : W) (s : A) (ph : gphase (W := W)) : Prop :=
  match ph with
  | GRunning p => runningEvent startMsg s ∈ ev ∧
      ∃ sp, p = lift (Some (cb s)) sp ∧ (saves sp ∨ good (Name s) w)
  | GReturned None => good (Name s) w
  | _ => True
  end.

Record durableInv (w0 : W) (st : mstate (W := W) (A := A)) : Prop := {
  du_good : ∀ n, Progress_ n "complete" doneMsg ∈ events st → good n (mworld st);
  du_kept : ∀ n, kept n w0 → Progress_ n "running" startMsg ∈ events st ∨ kept n (mworld st);
  du_phases : ∀ gs left i s ph, ctl st = CLevel gs left → gs !! i = Some (s, ph) →
    savedPhase (events st) (mworld st) s ph;
}.

Lemma savedPhase_mono ev evs w w' s ph :
  (good (Name s) w → good (Name s) w') → savedPhase ev w s ph → savedPhase (ev ++ evs)%list w' s ph.
Proof.
  intros Hm. destruct ph as [|p|[e|]|r|r]; simpl; try done.
  intros (He & sp & -> & Hs). split; [apply elem_of_app; by left|]. exists sp. tauto.
Qed.

(** A step of one goroutine, given what it does to the world. *)
Lemma durable_update w0 gs left i s ph ph' fe fe' ev evs w w' :
  durableInv w0 (MState (CLevel gs left) fe ev w) → gs !! i = Some (s, ph) →
  (∀ n, good n w → good n w') →
  (∀ n, kept n w → Progress_ n "running" startMsg ∈ (ev ++ evs)%list ∨ kept n w') →
  savedPhase (ev ++ evs)%list w' s ph' →
  (∀ n, Progress_ n "complete" doneMsg ∈ evs → good n w') →
  durableInv w0 (MState (CLevel (<[i := (s, ph')]> gs) left) fe' (ev ++ evs)%list w').
Proof.
  intros [Hg Hk Hp] Hi Hm Hm' Hph Hev. split; simpl in *.
  - intros n [Hn|Hn]%elem_of_app; auto.
  - intros n [Hn|Hn]%Hk; [left; apply elem_of_app; by left|auto].
  - intros gs' left' j t pt [= <- <-] Hj. rewrite list_lookup_insert in Hj. case_decide.
    + by injection Hj as <- <-.
    + eapply savedPhase_mono; [apply Hm|by eapply Hp].
Qed.

Lemma durable_silent w0 gs left i s ph ph' fe fe' ev w :
  durableInv w0 (MState (CLevel gs left) fe ev w) → gs !! i = Some (s, ph) →
  savedPhase ev w s ph' →
  durableInv w0 (MState (CLevel (<[i := (s, ph')]> gs) left) fe' ev w).
Proof.
  intros Hinv Hi Hph. rewrite <-(app_nil_r ev) in Hph.
  pose proof (durable_update _ _ _ _ _ _ ph' _ fe' _ [] w w Hinv Hi) as Hu. rewrite !app_nil_r in Hu, Hph.
  apply Hu; [done|by right|done|intros n Hn; by apply elem_of_nil in Hn].
Qed.

Lemma lifted_action ev s X m (k : X → prog W) x w w' :
  savedPhase ev w s (GRunning (PDo X m k)) → m w = (x, w') →
  (∀ n, good n w → good n w') ∧ (∀ n, kept n w → Progress_ n "running" startMsg ∈ ev ∨ kept n w') ∧
  savedPhase ev w' s (GRunning (k x)).
Proof.
  intros (He & sp & Ep & Hs) Hm. assert (pnext (PDo X m k) w (k x) w') as Hn by (simpl; eauto).
  rewrite Ep in Hn. apply lift_next in Hn as [(Y & m' & k' & y & -> & Hd & Eq)|(data & k' & r & -> & Hd & Eq)].
  - split_and!; [eauto|eauto|]. split; [done|]. exists (k' y). split; [done|].
    destruct Hs as [Hs|Hs]; [left; apply Hs|right; eauto].
  - assert (∀ n, good n w → good n w') as Hmono by (intros n Hn; eapply good_cb; eauto).
    split_and!; [done| |].
    + intros n Hn. destruct (decide (n = Name s)) as [->|Hne]; [by left|right; eauto].
    + split; [done|]. exists (k' r). split; [done|]. destruct Hs as [Hs|Hs]; [|right; auto].
      destruct r as [e|]; [left; apply Hs|right; eapply good_cb; eauto].
Qed.

(** Leaving or entering a level changes neither events nor world. *)
Lemma durable_ctl w0 c c' fe fe' ev w :
  durableInv w0 (MState c fe ev w) →
  (∀ gs left i s ph, c' = CLevel gs left → gs !! i = Some (s, ph) → ph = GPending) →
  durableInv w0 (MState c' fe' ev w).
Proof.
  intros [Hg Hk _] Hc. split; [done..|]. simpl. intros gs left i s ph E Hi. by rewrite (Hc _ _ _ _ _ E Hi).
Qed.

Lemma durable_step w0 st st' : mstep st st' → durableInv w0 st → durableInv w0 st'.
Proof.
  intros Hst Hinv. inversion Hst; subst; clear Hst.
  - by eapply durable_ctl.
  - eapply durable_ctl; [exact Hinv|]. intros gs left' i s ph [= <- <-] Hi. rewrite list_lookup_fmap in Hi.
    destruct (l !! i); [by injection Hi as _ <-|done].
  - by eapply durable_ctl.
  - eapply durable_update; [exact Hinv|eassumption|done|by right| |].
    + split; [apply elem_of_app; right; by left|]. exists (sp_ s). auto.
    + intros n Hn%list_elem_of_singleton. discriminate Hn.
  - pose proof (du_phases _ _ Hinv _ _ _ _ _ eq_refl H0) as Hph.
    edestruct lifted_action as (Hg & Hk & Hph'); [exact Hph|eassumption|].
    rewrite <-(app_nil_r ev). eapply durable_update; [exact Hinv|eassumption|done| |by rewrite app_nil_r|].
    + intros n Hn. rewrite app_nil_r. by apply Hk.
    + intros n Hn. by apply elem_of_nil in Hn.
  - pose proof (du_phases _ _ Hinv _ _ _ _ _ eq_refl H0) as (He & sp & ->%lift_ret & Hs).
    eapply durable_silent; [exact Hinv|eassumption|]. destruct r as [e|]; [done|]. by destruct Hs.
  - pose proof (du_phases _ _ Hinv _ _ _ _ _ eq_refl H0) as Hph.
    eapply durable_update; [exact Hinv|eassumption|done|by right|done|].
    intros n Hn%list_elem_of_singleton. destruct r as [e|]; [discriminate Hn|by injection Hn as ->].
  - by eapply durable_silent.
  - eapply durable_ctl; [exact Hinv|]. intros gs' left' i s ph E. by destruct (halts && _).
Qed.

Lemma durable_reach lvls w0 st : rtc mstep (minit lvls w0) st → durableInv w0 st.
Proof.
  assert (durableInv w0 (minit lvls w0)) as H0.
  { split; simpl; [intros n Hn; by apply elem_of_nil in Hn|by right|done]. }
  intros Hr. revert H0. induction Hr; eauto using durable_step.
Qed.
End Durable.

(** ** Applying and destroying *)
Section Workflow.
Context {D Data A : Type} `{Step A, !EnvStep D A}.
Context (emptyFile : Data) (notExist : string → error).
Context (marshal : WorkflowState → result error Data) (unmarshal : Data → result error WorkflowState).
Context (SHA256 : Data → string).
Context (wfID specPath stateDir : string).
Context (yaml_roundtrip : ∀ wf data, marshal wf = Ok data → unmarshal data = Ok wf).

#[local] Notation W := (EWorld D Data).
#[local] Notation onDisk := (onDisk unmarshal stateDir).
#[local] Notation read := (ReadWorkflowState emptyFile notExist marshal unmarshal SHA256 stateDir).
#[local] Notation applied := (applyStepComplete emptyFile notExist marshal wfID specPath stateDir).
#[local] Notation destroyed := (destroyStepComplete emptyFile notExist marshal wfID stateDir).

Definition listed (n : string) (w : W) : Prop := n ∈ ar_Name <$> ew_resources w.

Lemma onDom_same {X} (m : D → X * D) (w : W) x w' n :
  onDom m w = (x, w') → (onDisk n w' ↔ onDisk n w) ∧ (listed n w' ↔ listed n w).
Proof. intros [Er Ef]%onDom_state. unfold listed. rewrite Er. split; [|done]. apply onDisk_same. by rewrite Ef. Qed.

(** What a call of the writer leaves on the disk. *)
Lemma write_cases wf (fs fs' : Fs Data) r (w w' : W) :
  WriteWorkflowState emptyFile notExist marshal stateDir wf fs = (r, fs') → ew_fs w = fs → ew_fs w' = fs' →
  ew_resources w' = ws_Resources wf →
  match r with
  | Ok _ => ∀ n, onDisk n w' ↔ listed n w'
  | Err _ => ∀ n, onDisk n w' ↔ onDisk n w
  end.
Proof.
  intros E <- <- Er. pose proof (write_file _ _ _ _ _ wf _ _ _ eq_refl E) as Hw.
  destruct r as [[]|e]; intros n.
  - destruct Hw as (d & Em & Ef). unfold listed. rewrite Er.
    by eapply (onDisk_written marshal unmarshal stateDir yaml_roundtrip n _ wf d).
  - by apply onDisk_same.
Qed.

Lemma applied_cases (s : A) data w r w' :
  applied s data w = (r, w') →
  ew_resources w' = (ew_resources w ++ [appliedResource s data])%list ∧
  match r with
  | None => ∀ n, onDisk n w' ↔ listed n w'
  | Some _ => ∀ n, onDisk n w' ↔ onDisk n w
  end.
Proof.
  unfold applyStepComplete. set (wf := WorkflowState_ _ _ _ _ _ _ _).
  destruct (WriteWorkflowState _ _ _ _ wf (ew_fs w)) as [a fs] eqn:E. set (w'' := EWorld_ _ _ _ fs _).
  pose proof (write_cases wf _ _ _ w w'' E eq_refl eq_refl eq_refl) as Hw.
  destruct a as [[]|e]; by intros [= <- <-].
Qed.

Lemma applied_file (s : A) data (w : W) r w' :
  applied s data w = (r, w') → r = None ∨
  fileAt (dirs (ew_fs w')) stateDir "state.yaml" = fileAt (dirs (ew_fs w)) stateDir "state.yaml".
Proof.
  unfold applyStepComplete. set (wf := WorkflowState_ _ _ _ _ _ _ _).
  destruct (WriteWorkflowState _ _ _ _ wf (ew_fs w)) as [a fs] eqn:E.
  pose proof (write_file _ _ _ _ _ wf _ _ _ eq_refl E) as Hw.
  destruct a as [[]|e]; intros [= <- <-]; [by left|by right].
Qed.

Lemma destroyed_cases {B} `{Step B} saved (s : B) data w r w' :
  destroyed saved s data w = (r, w') →
  ew_resources w' = withoutResource (Name s) (ew_resources w) ∧
  match r with
  | None => ∀ n, onDisk n w' ↔ listed n w'
  | Some _ => ∀ n, onDisk n w' ↔ onDisk n w
  end.
Proof.
  unfold destroyStepComplete. set (wf := WorkflowState_ _ _ _ _ _ _ _).
  destruct (WriteWorkflowState _ _ _ _ wf (ew_fs w)) as [a fs] eqn:E. set (w'' := EWorld_ _ _ _ fs _).
  pose proof (write_cases wf _ _ _ w w'' E eq_refl eq_refl eq_refl) as Hw.
  destruct a as [[]|e]; by intros [= <- <-].
Qed.

Lemma elem_withoutResource n m (l : list AppliedResource) :
  n ∈ ar_Name <$> withoutResource m l ↔ n ≠ m ∧ n ∈ ar_Name <$> l.
Proof.
  unfold withoutResource. rewrite !list_elem_of_fmap. split.
  - intros (r & -> & [Hr ?]%list_elem_of_filter). eauto.
  - intros (Hne & r & -> & ?). exists r. rewrite list_elem_of_filter. eauto.
Qed.

(** The removals of a step touch only their target. *)
Lemma removeOne_keeps (removeTarget : string → string → option (D → option error * D)) target (w : W) n :
  n ≠ target → onDisk n w ∧ listed n w →
  let w' := removeOne emptyFile notExist marshal wfID specPath stateDir removeTarget w target in
  onDisk n w' ∧ listed n w'.
Proof.
  intros Hne Hn. unfold removeOne. set (call := match removeTarget _ _ with Some m => onDom m w | None => (None, w) end).
  destruct call as [err w1] eqn:Ec. assert (onDisk n w1 ∧ listed n w1) as [Hd Hl].
  { subst call. destruct (removeTarget _ _) as [m|]; [|by injection Ec as _ <-].
    by destruct (onDom_same m w err w1 n Ec) as [-> ->]. }
  destruct err as [e|]; [done|]. set (wf := WorkflowState_ _ _ _ _ _ _ _).
  destruct (WriteWorkflowState _ _ _ _ wf (ew_fs w1)) as [r fs] eqn:Ew. set (w2 := EWorld_ _ _ _ _ _).
  pose proof (write_cases wf _ _ _ w1 w2 Ew eq_refl eq_refl eq_refl) as Hw. simpl.
  assert (listed n w2) by (unfold listed; simpl; by rewrite elem_withoutResource).
  split; [|done]. destruct r; by apply Hw.
Qed.

(** The removals of all steps are one sequence of removals. *)
Lemma removeAll_targets removeTarget (ss : list A) (w : W) :
  removeAll emptyFile notExist marshal wfID specPath stateDir removeTarget ss w =
    foldl (removeOne emptyFile notExist marshal wfID specPath stateDir removeTarget) w (ss ≫= removes).
Proof.
  unfold removeAll. revert w. induction ss as [|t ss IH]; intros w; [done|]. cbn [foldl mbind list_bind]. by rewrite foldl_app, IH.
Qed.

Lemma removals_keep removeTarget targets (w : W) n :
  n ∉ targets → onDisk n w ∧ listed n w →
  onDisk n (foldl (removeOne emptyFile notExist marshal wfID specPath stateDir removeTarget) w targets).
Proof.
  revert w. induction targets as [|x targets IH]; intros w Hn Hw; [apply Hw|]. cbn [foldl].
  apply not_elem_of_cons in Hn as [Hx Hn]. apply IH; [done|]. by apply removeOne_keeps.
Qed.

Lemma Apply_recorded prev ctxErr p (w : W) st n :
  (∀ (s : A) saved, saves (applyProg s saved)) →
  rtc (Execute_step prev (Some applied) ctxErr) (Execute_init p w) st →
  Progress_ n "complete" "done" ∈ events st → onDisk n (mworld st) ∧ listed n (mworld st).
Proof.
  intros Hsaves Hr Hc.
  eapply (durable_reach (λ s, applyProg s (savedState prev s)) applied true "starting" "done" stepError ctxErr
    (λ n w, onDisk n w ∧ listed n w) (λ _ _, True)) in Hr as [Hg _ _]; [by apply Hg| |done| |done|by intros s].
  - intros X m w1 x w2 m' Hd. by destruct (onDom_same m w1 x w2 m' Hd) as [-> ->].
  - intros s data w1 r w2 m [Er Hd]%applied_cases Hm.
    assert (listed m w2) as Hin.
    { unfold listed in *. rewrite Er, fmap_app. apply elem_of_app.
      destruct Hm as [[_ ?]|[-> _]]; [by left|right; by left]. }
    split; [|done]. destruct r as [e|]; apply Hd; [|done]. by destruct Hm as [[? _]|[_ [=]]].
Qed.

(** C11. An interrupted [Destroy] can be run again: at every moment of it, in
    every interleaving, the state file no longer lists a step reported
    destroyed, and still lists every saved resource whose step has not started. *)
Theorem Destroy_saves_remaining saved fs ctxErr (p : Pipeline (stepDepOverride A)) (w : W) st n :
  (∀ (s : A) sv, saves (destroyProg s sv)) →
  read (ew_fs w) = (Ok saved, fs) →
  rtc (Destroy_step (ws_Resources saved) (Some (destroyed saved)) ctxErr)
    (Destroy_init p (EWorld_ (ew_dom w) (ws_Resources saved) (ew_createdAt w) fs (ew_now w))) st →
  (Progress_ n "complete" "destroyed" ∈ events st → ¬ onDisk n (mworld st)) ∧
  (n ∈ ar_Name <$> ws_Resources saved → Progress_ n "running" "destroying" ∈ events st ∨ onDisk n (mworld st)).
Proof.
  intros Hsaves Hread Hr. set (w0 := EWorld_ _ _ _ fs _) in Hr.
  assert (∀ m, m ∈ ar_Name <$> ws_Resources saved → onDisk m w0) as H0.
  { destruct (read_file _ _ _ _ _ _ _ _ _ _ eq_refl Hread) as [Ef Hs]. destruct (Hs saved eq_refl) as (d & Ed & Eu).
    intros m Hm. exists d, saved. subst w0. simpl. by rewrite Ef. }
  eapply (durable_reach (λ s, destroyProg (sdo_Step s) (savedState (ws_Resources saved) s)) (destroyed saved)
    false "destroying" "destroyed" destroyError ctxErr
    (λ n w, ¬ onDisk n w ∧ ¬ listed n w) (λ n w, onDisk n w ∧ listed n w)) in Hr as [Hg Hk _];
    [| | | | |by intros s].
  - split; [by intros [? _]%Hg|]. intros Hn. destruct (Hk n) as [?|[? _]]; [by split; [apply H0|]|by left|by right].
  - intros X m w1 x w2 m' Hd. by destruct (onDom_same m w1 x w2 m' Hd) as [-> ->].
  - intros X m w1 x w2 m' Hd. by destruct (onDom_same m w1 x w2 m' Hd) as [-> ->].
  - intros s data w1 r w2 m [Er Hd]%destroyed_cases Hm.
    assert (¬ listed m w2) as Hin.
    { unfold listed in *. rewrite Er, elem_withoutResource. intros [Hne Hin].
      destruct Hm as [[_ ?]|[-> _]]; done. }
    split; [|done]. destruct r as [e|]; rewrite Hd; [|done]. by destruct Hm as [[? _]|[_ [=]]].
  - intros s data w1 r w2 m [Er Hd]%destroyed_cases Hne [Hdisk Hl].
    assert (listed m w2) as Hin by (unfold listed in *; by rewrite Er, elem_withoutResource).
    split; [|done]. destruct r as [e|]; by apply Hd.
Qed.
(** A run forgets the one before: the resources an earlier [Apply] saved are
    not merged, so once a run has saved anything, a resource of an earlier run
    whose step has not started is no longer in the state file. *)
Lemma Apply_forgets_prior prev ctxErr p d createdAt fs now st n :
  (∀ (s : A) saved, saves (applyProg s saved)) →
  rtc (Execute_step prev (Some applied) ctxErr) (Execute_init p (EWorld_ d [] createdAt fs now)) st →
  Progress_ n "running" "starting" ∉ events st →
  fileAt (dirs (ew_fs (mworld st))) stateDir "state.yaml" = fileAt (dirs fs) stateDir "state.yaml" ∨
  ¬ onDisk n (mworld st).
Proof.
  set (w0 := EWorld_ d [] createdAt fs now). set (file := λ w : W, fileAt (dirs (ew_fs w)) stateDir "state.yaml").
  intros Hsaves Hr Hn.
  eapply (durable_reach (λ s, applyProg s (savedState prev s)) applied true "starting" "done" stepError ctxErr
    (λ _ _, True) (λ n w, ¬ listed n w ∧ (file w = file w0 ∨ ¬ onDisk n w))) in Hr as [_ Hk _];
    [|done| |done| |by intros s].
  - destruct (Hk n) as [?|[_ ?]]; [|done..]. split; [apply not_elem_of_nil|by left].
  - intros X m w1 x w2 m' Hd. destruct (onDom_same m w1 x w2 m' Hd) as [-> ->].
    apply onDom_state in Hd as [_ Ef]. subst file. simpl. by rewrite Ef.
  - intros s data w1 r w2 m E Hne [Hl Hf]. pose proof (applied_file _ _ _ _ _ E) as Hfile.
    apply applied_cases in E as [Er Hd].
    assert (¬ listed m w2) as Hl'.
    { unfold listed in *. rewrite Er, fmap_app. intros [?|Hm%list_elem_of_singleton]%elem_of_app; done. }
    split; [done|]. destruct r as [e|]; [|right; by rewrite Hd].
    rewrite Hd. subst file. simpl in *. destruct Hfile as [[=]|Hfile]. by rewrite Hfile.
Qed.

(** When [Apply] answers nil, in whatever order its steps ran, the state
    file lists every step of the spec, except those some step removes. *)
Lemma Apply_nil_saved removeTarget ctxErr (ss : list A) (w w' : W) s :
  (∀ (s : A) saved, saves (applyProg s saved)) →
  ApplySteps emptyFile notExist marshal unmarshal SHA256 wfID specPath stateDir removeTarget ctxErr ss w None w' →
  s ∈ ss → (∀ t, t ∈ ss → Name s ∉ removes t) → onDisk (Name s) w'.
Proof.
  intros Hsaves Hrun Hs Hrem. inversion Hrun as [| |p prev w0 st Hne HP Hprev Hr Hret|]; subst.
  rewrite removeAll_targets. apply removals_keep.
  { intros (t & Ht & Hin)%list_elem_of_bind. by eapply Hrem. }
  eapply Apply_recorded; [done|exact Hr|].
  apply (eventsOf_elem (Name s)). rewrite (Execute_nil ss p HP _ _ _ _ _ Hr Hret s Hs). right; left.
Qed.
(** C10. The state of completed steps is persisted.  At every moment of the pipeline
    of [Apply], in every interleaving, reading the state file would list each step
    reported complete, whether the run fails later, or the process is killed; and
    so it is at every moment of the loop over [removes] that follows, when
    [targets] have been handled, for each step that is not one of them.  At the end
    of a run that answers nil the file lists every step of the spec, except those
    some step removes.  (The destruction of an ephemeral environment comes after
    that, and is [Destroy]'s.) *)
Theorem Apply_saves_completed removeTarget ctxErr :
  (∀ (s : A) saved, saves (applyProg s saved)) →
  (∀ prev p (w : W) st n targets,
     rtc (Execute_step prev (Some applied) ctxErr) (Execute_init p w) st →
     Progress_ n "complete" "done" ∈ events st → n ∉ targets →
     onDisk n (foldl (removeOne emptyFile notExist marshal wfID specPath stateDir removeTarget) (mworld st) targets)) ∧
  (∀ (ss : list A) (w w' : W) s,
     ApplySteps emptyFile notExist marshal unmarshal SHA256 wfID specPath stateDir removeTarget ctxErr ss w None w' →
     s ∈ ss → (∀ t, t ∈ ss → Name s ∉ removes t) → onDisk (Name s) w').
Proof.
  intros Hsaves. split.
  - intros prev p w st n targets Hr Hc Hn. apply removals_keep; [done|]. by eapply Apply_recorded.
  - intros ss w w' s. by apply Apply_nil_saved.
Qed.
End Workflow.

(** ** Names *)

Lemma CutPrefix_app s t : CutPrefix (s ++ t) s = Some t.
Proof. induction s as [|c s IH]; simpl; [by destruct t|by rewrite Ascii.eqb_refl]. Qed.

(** A step name gives its type and its bare name back. *)
Lemma step_names t n :
  allChars (λ d, negb (Ascii.eqb d ":")) t = true → t ≠ "" → n ≠ "" →
  InferStepType (FormatStepName t n) = t ∧ BareStepName (FormatStepName t n) t = n ∧
  stripBareName (FormatStepName t n) = n ∧
  stripRefPrefix (AnyString ("@" ++ FormatStepName t n)) = AnyString (FormatStepName t n).
Proof.
  intros Ht Hnt Hnn.
  assert (Cut (FormatStepName t n) ":" = Some (t, n)) as E by (by apply Cut_char).
  unfold InferStepType, BareStepName, stripBareName. rewrite E, !decide_False by done.
  assert (FormatStepName t n = (t ++ ":") ++ n) as -> by (unfold FormatStepName; by rewrite sapp_assoc).
  rewrite CutPrefix_app, decide_False by done. split_and!; try done.
  simpl. unfold TrimPrefix. simpl. by destruct ((t ++ ":") ++ n).
Qed.

(** ** [Diff] *)

Lemma hashesOf_dom l n : n ∈ dom (hashesOf l) ↔ n ∈ l.*1.
Proof.
  unfold hashesOf. assert (∀ m : gmap string string, n ∈ dom (foldl (λ m e, <[e.1 := e.2]> m) m l) ↔ n ∈ dom m ∨ n ∈ l.*1) as H.
  { induction l as [|[k h] l IH]; intros m; simpl; [set_solver|]. rewrite IH. set_solver. }
  rewrite H. set_solver.
Qed.

Lemma hashesOf_None l n : hashesOf l !! n = None ↔ n ∉ l.*1.
Proof. by rewrite <-hashesOf_dom, not_elem_of_dom. Qed.

Lemma sortedNames_elem m P n : n ∈ sortedNames m P ↔ ∃ h, m !! n = Some h ∧ P n h = true.
Proof.
  unfold sortedNames. rewrite orderBy_perm, list_elem_of_fmap. split.
  - intros ([k h] & -> & [HP Hin%elem_of_map_to_list]%list_elem_of_filter).
    exists h. split; [done|by apply Is_true_true].
  - intros (h & Hm & HP). exists (n, h). rewrite list_elem_of_filter, elem_of_map_to_list. simpl. by rewrite HP.
Qed.

Lemma sortedNames_NoDup m P : NoDup (sortedNames m P).
Proof.
  unfold sortedNames. rewrite orderBy_perm. pose proof (NoDup_fst_map_to_list m) as Hnd.
  revert Hnd. generalize (map_to_list m). intros l. induction l as [|[k h] l IH]; [done|].
  simpl. intros [Hk Hl]%NoDup_cons. rewrite filter_cons. case_decide; [|auto]. simpl. constructor; [|auto].
  intros (e & -> & [_ He]%list_elem_of_filter)%list_elem_of_fmap. by apply Hk, list_elem_of_fmap_2.
Qed.

Lemma ex_Some {A} (x : A) (P : A → Prop) : (∃ y, Some x = Some y ∧ P y) ↔ P x.
Proof. split; [by intros (y & [= <-] & Hy)|by exists x]. Qed.

Lemma ex_None {A} (P : A → Prop) : (∃ y, None = Some y ∧ P y) ↔ False.
Proof. split; [by intros (y & [=] & _)|done]. Qed.

(** The lists of [Diff], name by name. *)
Lemma diffOf_elem specSteps stateResources n :
  let r := diffOf specSteps stateResources in
  let sp := hashesOf specSteps !! n in
  let sv := hashesOf stateResources !! n in
  (n ∈ diff_New r ↔ is_Some sp ∧ sv = None) ∧ (n ∈ diff_Removed r ↔ sp = None ∧ is_Some sv) ∧
  (n ∈ diff_Existing r ↔ ∃ h, sp = Some h ∧ ∃ h', sv = Some h' ∧ ¬ drifted h h') ∧
  (n ∈ diff_Drifted r ↔ ∃ h, sp = Some h ∧ ∃ h', sv = Some h' ∧ drifted h h').
Proof.
  simpl. rewrite !sortedNames_elem.
  generalize (hashesOf specSteps !! n), (hashesOf stateResources !! n). intros a b.
  destruct a as [h|], b as [h'|]; rewrite ?ex_Some, ?ex_None, ?negb_true_iff, ?bool_decide_eq_true, ?bool_decide_eq_false;
    split_and!; split; try done; try (by intros [[] ?]); try (by intros [? []]); by eauto.
Qed.

#[local] Notation alphabetical := (Sorted (λ x y, String.leb x y = true)).

(** [Diff] puts every name of the spec or of the saved state in exactly one
    of its lists: new and removed by presence, drifted when both hashes are known
    and differ, existing otherwise; each list is sorted, without repetition. *)
Lemma diffOf_spec specSteps stateResources :
  let r := diffOf specSteps stateResources in
  (∀ n, n ∈ diff_New r ↔ n ∈ specSteps.*1 ∧ n ∉ stateResources.*1) ∧
  (∀ n, n ∈ diff_Removed r ↔ n ∈ stateResources.*1 ∧ n ∉ specSteps.*1) ∧
  (∀ n, n ∈ diff_Drifted r ↔ ∃ h h', hashesOf specSteps !! n = Some h ∧
    hashesOf stateResources !! n = Some h' ∧ drifted h h') ∧
  (∀ n, n ∈ diff_Existing r ↔ n ∈ specSteps.*1 ∧ n ∈ stateResources.*1 ∧ n ∉ diff_Drifted r) ∧
  NoDup (diff_New r ++ diff_Removed r ++ diff_Existing r ++ diff_Drifted r)%list ∧
  Forall alphabetical [diff_New r; diff_Removed r; diff_Existing r; diff_Drifted r].
Proof.
  intros r. pose proof (diffOf_elem specSteps stateResources) as He. cbv zeta in He. fold r in He.
  assert (∀ n l, n ∈ l.*1 ↔ is_Some (hashesOf l !! n)) as Hin by (intros n l; by rewrite <-hashesOf_dom, elem_of_dom).
  split_and!.
  - intros n. destruct (He n) as (-> & _). rewrite <-hashesOf_None, Hin. done.
  - intros n. destruct (He n) as (_ & -> & _). rewrite <-hashesOf_None, Hin. tauto.
  - intros n. destruct (He n) as (_ & _ & _ & ->). split; [intros (h & ? & h' & ?)|intros (h & h' & ? & ?)]; eauto 10.
  - intros n. destruct (He n) as (_ & _ & -> & ->). rewrite !Hin. unfold is_Some. naive_solver.
  - rewrite !NoDup_app. split_and!; try apply sortedNames_NoDup; intros n; rewrite ?elem_of_app;
      destruct (He n) as (E1 & E2 & E3 & E4); rewrite ?E1, ?E2, ?E3, ?E4; unfold is_Some; naive_solver.
  - repeat constructor; apply (orderBy_sorted id).
Qed.

(** ** Instances *)

Module EnvExamples.
Import PersistExamples.

(** Steps that only save their state; there is no other world. *)
Record mark := Mark { mk_name : string; mk_deps : list string }.
#[export] Instance mark_Step : Step mark :=
  {| Name := mk_name; Type_ := λ _, "mark"; Dependencies := mk_deps |}.
#[export] Instance mark_EnvStep : EnvStep unit mark := {|
  applyProg := λ s saved, SWrite saved SRet;
  destroyProg := λ s saved, SWrite saved SRet;
  stateData := λ _ _, zeroState;
  specHash := λ _, "";
  removes := λ _, [];
|}.

Lemma mark_saves : (∀ (s : mark) sv, saves (applyProg s sv)) ∧ (∀ (s : mark) sv, saves (destroyProg s sv)).
Proof. split; intros s sv e; done. Qed.

Lemma codec_roundtrip wf data : encodeState wf = Ok data → decodeState data = Ok wf.
Proof. by intros [= <-]. Qed.

Definition a : mark := Mark "mark:a" [].
Definition b : mark := Mark "mark:b" [].
Definition stop : error := Errorf "context canceled" None.

(** The state file of an earlier run lists [b]. *)
Definition savedB : WorkflowState :=
  WorkflowState_ "wf" "env.yaml" "1.0" "t0" "t0" "" [AppliedResource_ "mark:b" "mark" [] zeroState].
Definition withB : Fs (option WorkflowState) := Fs_ {[ "/wf" := {[ "state.yaml" := Some savedB ]} ]} [] [].
Definition start : EWorld unit (option WorkflowState) := EWorld_ tt [] "" withB "t1".

Definition applied := applyStepComplete (D := unit) (A := mark) None noFile encodeState "wf" "env.yaml" "/wf".
Definition afterA : EWorld unit (option WorkflowState) := (applied a zeroState start).2.

(** Runs the only step of a level to the end; its call of the writer leads to [w']. *)
Ltac one_save w' :=
  eapply rtc_l; [apply m_level|]; eapply rtc_l; [eapply (m_start _ _ _ _ _ _ _ _ 0); reflexivity|];
  eapply rtc_l; [eapply (m_act _ _ _ _ _ _ _ _ 0 _ _ _ _ None w'); [reflexivity|vm_compute; reflexivity]|];
  eapply rtc_l; [eapply (m_return _ _ _ _ _ _ _ _ 0); reflexivity|];
  eapply rtc_l; [eapply (m_report _ _ _ _ _ _ _ _ 0); reflexivity|];
  eapply rtc_l; [eapply (m_done _ _ _ _ _ _ _ _ 0); reflexivity|];
  eapply rtc_l; [eapply m_wait; repeat constructor; eexists; reflexivity|]; simpl.

Lemma run_a : rtc (Execute_step [] (Some applied) stop) (Execute_init (Pipeline_ [a; b] [[a]; [b]]) start)
  (MState (CHead [[b]]) None
    [Progress_ "mark:a" "running" "starting"; Progress_ "mark:a" "complete" "done"] afterA).
Proof. one_save afterA. apply rtc_refl. Qed.

(** The state of [b] is lost as soon as the state of [a] is saved. *)
Lemma Apply_forgets_prior_witness :
  onDisk decodeState "/wf" "mark:b" start ∧ ¬ onDisk decodeState "/wf" "mark:b" afterA.
Proof.
  split.
  - exists (Some savedB), savedB. split_and!; [vm_compute; reflexivity|reflexivity|left].
  - destruct (Apply_forgets_prior None noFile encodeState decodeState "wf" "env.yaml" "/wf" codec_roundtrip [] stop
      (Pipeline_ [a; b] [[a]; [b]]) tt "" withB "t1" _ "mark:b" (proj1 mark_saves) run_a) as [E|H];
      [|vm_compute in E; discriminate E|exact H].
    intros [H|[H|H%elem_of_nil]%elem_of_cons]%elem_of_cons; [discriminate H|discriminate H|exact H].
Defined.

Definition prevB := prevResources (D := unit) None noFile encodeState decodeState noHash "/wf" start.
Definition upA : Pipeline mark := Pipeline_ [a] [[a]].
Definition doneA : EWorld unit (option WorkflowState) := (applied a zeroState prevB.2).2.

Lemma run_whole : ApplySteps None noFile encodeState decodeState noHash "wf" "env.yaml" "/wf"
  (λ _ _, None) stop [a] start None doneA.
Proof.
  refine (as_run None noFile encodeState decodeState noHash "wf" "env.yaml" "/wf" _ stop [a] start upA prevB.1 prevB.2
    (MState (CReturn None) None [Progress_ "mark:a" "running" "starting"; Progress_ "mark:a" "complete" "done"] doneA) _ _ _ _ _);
    [discriminate|vm_compute; reflexivity|vm_compute; reflexivity| |reflexivity].
  one_save doneA. eapply rtc_l; [apply m_end|apply rtc_refl].
Qed.

Lemma Apply_nil_saved_witness : onDisk decodeState "/wf" "mark:a" doneA.
Proof.
  refine (Apply_nil_saved None noFile encodeState decodeState noHash "wf" "env.yaml" "/wf" codec_roundtrip
    (λ _ _, None) stop [a] start doneA a (proj1 mark_saves) run_whole _ _); [left|].
  intros t _ H%elem_of_nil. exact H.
Defined.

(** After the step [a], also when [b] has been removed. *)
Lemma Apply_saves_completed_witness :
  onDisk decodeState "/wf" "mark:a" afterA ∧
  onDisk decodeState "/wf" "mark:a" (removeOne None noFile encodeState "wf" "env.yaml" "/wf" (λ _ _, None) afterA "mark:b") ∧
  onDisk decodeState "/wf" "mark:a" doneA.
Proof.
  destruct (Apply_saves_completed None noFile encodeState decodeState noHash "wf" "env.yaml" "/wf" codec_roundtrip
    (λ _ _, None) stop (proj1 mark_saves)) as [Hall Hnil].
  assert (Progress_ "mark:a" "complete" "done" ∈
    [Progress_ "mark:a" "running" "starting"; Progress_ "mark:a" "complete" "done"]) as Hdone by (right; left).
  split_and!.
  - apply (Hall [] (Pipeline_ [a; b] [[a]; [b]]) start _ "mark:a" [] run_a Hdone). apply not_elem_of_nil.
  - apply (Hall [] (Pipeline_ [a; b] [[a]; [b]]) start _ "mark:a" ["mark:b"] run_a Hdone).
    intros H%list_elem_of_singleton. discriminate H.
  - apply (Hnil [a] start doneA a run_whole); [left|]. intros t _ H%elem_of_nil. exact H.
Defined.

Definition savedAB : WorkflowState :=
  WorkflowState_ "wf" "env.yaml" "1.0" "t0" "t0" ""
    [AppliedResource_ "mark:b" "mark" [] zeroState; AppliedResource_ "mark:a" "mark" [] zeroState].
Definition withAB : Fs (option WorkflowState) := Fs_ {[ "/wf" := {[ "state.yaml" := Some savedAB ]} ]} [] [].
Definition destroyed := destroyStepComplete (D := unit) None noFile encodeState "wf" "/wf" (B := stepDepOverride mark) savedAB.
Definition readAB := ReadWorkflowState None noFile encodeState decodeState noHash "/wf" withAB.
Definition startAB : EWorld unit (option WorkflowState) := EWorld_ tt (ws_Resources savedAB) "" readAB.2 "t1".
Definition afterB : EWorld unit (option WorkflowState) := (destroyed (StepDepOverride b []) zeroState startAB).2.
Definition downAB : Pipeline (stepDepOverride mark) :=
  Pipeline_ [] [[StepDepOverride a []]; [StepDepOverride b []]].

Lemma run_b : rtc (Destroy_step (ws_Resources savedAB) (Some destroyed) stop) (Destroy_init downAB startAB)
  (MState (CHead [[StepDepOverride a []]]) None
    [Progress_ "mark:b" "running" "destroying"; Progress_ "mark:b" "complete" "destroyed"] afterB).
Proof. one_save afterB. apply rtc_refl. Qed.

Lemma Destroy_saves_remaining_witness :
  ¬ onDisk decodeState "/wf" "mark:b" afterB ∧ onDisk decodeState "/wf" "mark:a" afterB.
Proof.
  assert (readAB = (Ok savedAB, readAB.2)) as Hread by (vm_compute; reflexivity).
  pose (P := λ n, Destroy_saves_remaining None noFile encodeState decodeState noHash "wf" "/wf" codec_roundtrip
    savedAB readAB.2 stop downAB (EWorld_ tt [] "" withAB "t1") _ n (proj2 mark_saves) Hread run_b).
  split.
  - apply (proj1 (P "mark:b")). right; left.
  - destruct (proj2 (P "mark:a")) as [[H|[H|H%elem_of_nil]%elem_of_cons]%elem_of_cons|H];
      [right; left|discriminate H|discriminate H|destruct H|exact H].
Defined.
End EnvExamples.
