(* ===== verification/EnvSteps.v ===== *)
(** * The steps of an environment: [internal/workflow/env/step_*.go, factory.go, spec.go]

    Ten types of steps, each a program over the operations of [pkg/api] (the class
    [EnvAPI]), its own object and the shared state; the factories that make them
    from a spec or from a saved state; and the resolution of a spec into steps.
    Every step type is an instance of [Env.EnvStep], and keeps the contract
    [Env.saves]. *)

From Stdlib Require Import Ascii.
From stdpp Require Import gmap strings list.
From S2P Require Import Prelude GoStrings Errs Model Inputs Dag Pipeline Env.
#[local] Open Scope string_scope.

(** ** The operations the steps call ([pkg/api]) *)

Record ExecResult := ExecResult_ { er_Stdout : string; er_Stderr : string; er_ExitCode : Z }.

(** [O]: the world of the operations.  A lookup that answers no error answers an item. *)
Class EnvAPI (O : Type) := {
  NetworkGet : NetworkInput → O → result error NetworkItem * O;
  NetworkCreate : NetworkCreateInput → O → result error NetworkItem * O;
  NetworkRemove : NetworkInput → bool → O → option error * O;
  KeyGet : KeyInput → O → result error SSHKeyItem * O;
  KeyCreate : KeyCreateInput → O → result error SSHKeyItem * O;
  KeyRemove : KeyInput → bool → O → BatchResult * O;
  ImageGet : ImageInput → O → result error ImageItem * O;
  ImagePull : ImagePullInput → O → result error ImageItem * O;
  ImageImport : ImageImportInput → O → result error ImageItem * O;
  KernelGet : string → O → result error KernelItem * O;
  KernelPull : KernelPullInput → O → result error KernelItem * O;
  BinaryGet : BinaryInput → O → result error (list BinaryItem) * O;
  BinaryPull : BinaryPullInput → O → result error (list BinaryItem) * O;
  ImageRemove : ImageInput → bool → O → BatchResult * O;
  KernelRemove : KernelInput → O → BatchResult * O;
  BinaryRemove : BinaryInput → bool → O → BatchResult * O;
  VolumeRemove : VolumeInput → bool → O → BatchResult * O;
  SnapshotRemove : SnapshotInput → O → BatchResult * O;
  VMGet : VMInput → O → result error VMItem * O;
  VMCreate : VMCreateInput → O → result error (list VMItem) * O;
  VMRemove : VMInput → O → BatchResult * O;
  SSHConnect : SSHInput → O → option error * O;
  Exec : ExecInput → O → result error (option ExecResult) * O;
  CPCopy : CPInput → O → option error * O;
}.

(** ** Persisted states *)

Record NetworkState := NetworkState_ { ns_NetworkID : string; ns_Subnet : string }.
Record KeyState := KeyState_ { ks_KeyID : string }.
Record ImageState := ImageState_ { is_ImageID : string }.
Record ImageImportState := ImageImportState_ { iis_ImageID : string }.
Record KernelState := KernelState_ { krs_KernelID : string }.
Record BinaryState := BinaryState_ { bs_BinaryID : string }.
Record VMState := VMState_ { vs_VMID : string; vs_VMDir : string; vs_NocloudPort : Z; vs_TapName : string }.
Record SSHState := SSHState_ { ss_Command : string }.
Record ExecState := ExecState_ { es_Command : string }.
Record CPState := CPState_ { cs_Source : string }.

(** The values of [s.saved] and of the shared state. *)
Inductive StepState :=
  | SNetwork (s : NetworkState)
  | SKey (s : KeyState)
  | SImage (s : ImageState)
  | SImageImport (s : ImageImportState)
  | SKernel (s : KernelState)
  | SBinary (s : BinaryState)
  | SVM (s : VMState)
  | SSSH (s : SSHState)
  | SExec (s : ExecState)
  | SCopy (s : CPState).

(** The type parameter of [StateFromMap]. *)
Inductive StepKind :=
  | KNetwork | KKey | KImage | KImageImport | KKernel | KBinary | KVM | KSSH | KExec | KCopy.

Definition kindOf (s : StepState) : StepKind :=
  match s with
  | SNetwork _ => KNetwork | SKey _ => KKey | SImage _ => KImage | SImageImport _ => KImageImport
  | SKernel _ => KKernel | SBinary _ => KBinary | SVM _ => KVM | SSSH _ => KSSH | SExec _ => KExec
  | SCopy _ => KCopy
  end.

(** What the steps use of [gopkg.in/yaml.v3] and of SHA-256: a state through its map
    and back, and the text of a spec entry with what it decodes to. *)
Class StepCodec (T : Type) := {
  stateToMap : StepState → ResourceMap;
  stateOfMap : StepKind → ResourceMap → option StepState;
  marshalSpec : ResourceMap → result error T;
  asNetworkCreate : T → result error NetworkCreateInput;
  asKeyCreate : T → result error KeyCreateInput;
  asImagePull : T → result error ImagePullInput;
  asImageImport : T → result error ImageImportInput;
  asKernelPull : T → result error KernelPullInput;
  asBinaryPull : T → result error BinaryPullInput;
  asVMCreate : T → result error VMCreateInput;
  asSSH : T → result error SSHInput;
  asExec : T → result error ExecInput;
  asCP : T → result error CPInput;
  specSum : T → string;
}.

(** A state survives its map, which is not empty: every state has a field that is
    written even when it is the empty string. *)
Class StepCodecLaws (T : Type) `{StepCodec T} := {
  state_roundtrip : ∀ s, stateOfMap (kindOf s) (stateToMap s) = Some s;
  state_kind : ∀ k m s, stateOfMap k m = Some s → kindOf s = k;
  state_nonempty : ∀ s, stateToMap s ≠ ∅;
}.

(** ** Steps *)

(** The fields of a step that change, [saved] and [meta]. *)
Record StepObj := StepObj_ { so_saved : option StepState; so_meta : ResourceMeta }.

Definition newObj : StepObj := StepObj_ None (ResourceMeta_ false "").

(** The fields the types share; [st_obj] is what [saved] and [meta] are at first, and
    [op] is never nil: the factories refuse it. *)
Record StepOf (I : Type) := StepOf_ {
  st_stepType : string;
  st_name : string;
  st_deps : list string;
  st_removes : list string;
  st_specHash : string;
  st_input : I;
  st_inputSpec : ResourceMap;
  st_obj : StepObj;
}.
Arguments StepOf_ {I}.
Arguments st_stepType {I}.
Arguments st_name {I}.
Arguments st_deps {I}.
Arguments st_removes {I}.
Arguments st_specHash {I}.
Arguments st_input {I}.
Arguments st_inputSpec {I}.
Arguments st_obj {I}.

Definition NetworkStep := StepOf NetworkCreateInput.
Definition KeyStep := StepOf KeyCreateInput.
Definition ImageStep := StepOf ImagePullInput.
Definition ImageImportStep := StepOf ImageImportInput.
Definition KernelStep := StepOf KernelPullInput.
Definition BinaryStep := StepOf BinaryPullInput.
Definition VMStep := StepOf VMCreateInput.
Definition SSHStep := StepOf SSHInput.
(** With [ignoreErrors]. *)
Definition ExecStep := StepOf (ExecInput * bool).
Definition CopyStep := StepOf CPInput.

(** [Name], of every type. *)
Definition stepName {I} (s : StepOf I) : string := FormatStepName (st_stepType s) (st_name s).

(** The world of the steps: the operations, the objects by step name, the shared state. *)
Record StepWorld (O : Type) := StepWorld_ {
  sw_op : O;
  sw_objs : gmap string StepObj;
  sw_shared : SharedState StepState;
}.
Arguments StepWorld_ {O}.
Arguments sw_op {O}.
Arguments sw_objs {O}.
Arguments sw_shared {O}.

Notation "x ⇐ m ; p" := (SDo _ m (λ x, p)) (at level 100, m at next level, right associativity).

Section Steps.
Context {O T : Type} `{!EnvAPI O, !StepCodec T}.

#[local] Notation D := (StepWorld O).
#[local] Notation P := (sprog D).

(** A call of an operation. *)
Definition api {X} (f : O → X * O) (d : D) : X * D :=
  let '(x, o) := f (sw_op d) in (x, StepWorld_ o (sw_objs d) (sw_shared d)).

Definition objOf {I} (s : StepOf I) (d : D) : StepObj := default (st_obj s) (sw_objs d !! stepName s).

(** [StateData], of every type. *)
Definition StateDataOf {I} (s : StepOf I) (d : D) : ResourceState :=
  let obj := objOf s d in
  match so_saved obj with
  | None => zeroState
  | Some st => ResourceState_ (st_inputSpec s) (stateToMap st) (so_meta obj)
  end.

(** [s.saved = st; s.meta = ...; state.Set(s.Name(), s.saved)]. *)
Definition setSaved {I} (s : StepOf I) (st : StepState) (wasCreated : bool) (d : D) : ResourceState * D :=
  let d' := StepWorld_ (sw_op d)
              (<[stepName s := StepObj_ (Some st) (ResourceMeta_ wasCreated (st_specHash s))]> (sw_objs d))
              (SetValue (stepName s) st (sw_shared d)) in
  (StateDataOf s d', d').

(** [if err := write(ctx, data); err != nil { return fmt.Errorf(msg+": %w", err) }; return nil]. *)
Definition persist (msg : string) (data : ResourceState) : P :=
  SWrite data (λ r, SRet ((λ err, Errorf (msg ++ ": " ++ Error err) (Some err)) <$> r)).

(** The end of [Apply]. *)
Definition finish {I} (s : StepOf I) (st : StepState) (wasCreated : bool) (msg : string) : P :=
  data ⇐ setSaved s st wasCreated; persist msg data.

(** [StateFromMap]; a nil map is the empty one. *)
Definition StateFromMap (k : StepKind) (m : ResourceMap) : option StepState :=
  if decide (m = ∅) then None else stateOfMap k m.

(** The state of a saved resource: its output, else its spec. *)
Definition savedFrom (k : StepKind) (saved : ResourceState) : option StepState :=
  match StateFromMap k (rs_Output saved) with
  | Some st => Some st
  | None => StateFromMap k (rs_Spec saved)
  end.

(** The beginning of [Destroy]: an object without state takes the saved one. *)
Definition loadSaved {I} (k : StepKind) (s : StepOf I) (saved : ResourceState) (d : D) : StepObj * D :=
  let obj := objOf s d in
  match so_saved obj with
  | Some _ => (obj, d)
  | None =>
      let obj' := StepObj_ (savedFrom k saved) (rs_Meta saved) in
      (obj', StepWorld_ (sw_op d) (<[stepName s := obj']> (sw_objs d)) (sw_shared d))
  end.

(** [write(ctx, s.StateData())] and its error. *)
Definition persistNow {I} (s : StepOf I) (msg : string) : P :=
  data ⇐ (λ d, (StateDataOf s d, d)); persist msg data.

(** [Destroy] of the types without teardown. *)
Definition destroyNothing {I} (k : StepKind) (s : StepOf I) (saved : ResourceState) : P :=
  _ ⇐ loadSaved k s saved; persistNow s "persist step state after destroy".

(** [errs.IsNotFound(err)]; its loop always stops. *)
Definition isNotFound (err : error) : bool := default false (IsNotFound err).

(** The answer of a lookup: an item, none, or an error to return. *)
Inductive found (X : Type) := Found (x : X) | Missing | Failed (err : error).
Arguments Found {X}.
Arguments Missing {X}.
Arguments Failed {X}.

(** [if err != nil && !errs.IsNotFound(err) { return ... }]. *)
Definition lookup_ {X} (what : string) (r : result error X) : found X :=
  match r with
  | Ok x => Found x
  | Err err => if isNotFound err then Missing
               else Failed (EDomain (WrapMsg CodeDatabaseError (what ++ ": " ++ Error err) err []))
  end.

(** *** Networks *)

Definition NetworkStep_Apply (s : NetworkStep) (saved : ResourceState) : P :=
  let wasCreated := rm_WasCreated (rs_Meta saved) in
  let name := nci_Name (st_input s) in
  existing ⇐ api (NetworkGet (NetworkInput_ [name] false false));
  match lookup_ ("check network " ++ Quote name) existing with
  | Failed err => SRet (Some err)
  | Found existing =>
      finish s (SNetwork (NetworkState_ (nw_ID existing) (nw_Subnet existing))) wasCreated
        "persist step state after skip"
  | Missing =>
      net ⇐ api (NetworkCreate (st_input s));
      match net with
      | Err err => SRet (Some err)
      | Ok net => finish s (SNetwork (NetworkState_ (nw_ID net) (nw_Subnet net))) true "persist step state"
      end
  end.

(** The network id in [s.saved]. *)
Definition networkID (st : StepState) : string := match st with SNetwork st => ns_NetworkID st | _ => "" end.

Definition NetworkStep_Destroy (s : NetworkStep) (saved : ResourceState) : P :=
  obj ⇐ loadSaved KNetwork s saved;
  let remove (id : string) : P :=
    err ⇐ api (NetworkRemove (NetworkInput_ [id] true true) true);
    match err with
    | Some err => if isNotFound err then persistNow s "persist step state after destroy skip" else SRet (Some err)
    | None => persistNow s "persist step state after destroy"
    end in
  let skip := persistNow s "persist step state after destroy skip" in
  match so_saved obj with
  | None => skip
  | Some st =>
      let id := networkID st in
      if rm_WasCreated (so_meta obj) then remove id
      else if decide (id = "") then skip
      else
        existing ⇐ api (NetworkGet (NetworkInput_ [id] false true));
        match existing with
        | Ok existing => if nw_IsPresent existing then skip else remove id
        | Err _ => skip
        end
  end.

(** *** Keys *)

(** The first [ToError] that is not nil. *)
Definition firstError (result : BatchResult) : option error :=
  head (omap (λ r, EDomain <$> ToError (Some r)) (if HasErrors result then Errors result else [])).

Definition KeyStep_Apply (s : KeyStep) (saved : ResourceState) : P :=
  let wasCreated := rm_WasCreated (rs_Meta saved) in
  let name := kci_Name (st_input s) in
  existing ⇐ api (KeyGet (KeyInput_ [name]));
  match lookup_ ("check key " ++ Quote name) existing with
  | Failed err => SRet (Some err)
  | Found existing => finish s (SKey (KeyState_ (key_ID existing))) wasCreated "persist step state after skip"
  | Missing =>
      key ⇐ api (KeyCreate (st_input s));
      match key with
      | Err err => SRet (Some err)
      | Ok key => finish s (SKey (KeyState_ (key_ID key))) true "persist step state"
      end
  end.

Definition keyID (st : StepState) : string := match st with SKey st => ks_KeyID st | _ => "" end.

Definition KeyStep_Destroy (s : KeyStep) (saved : ResourceState) : P :=
  obj ⇐ loadSaved KKey s saved;
  match so_saved obj, rm_WasCreated (so_meta obj) with
  | Some st, true =>
      result ⇐ api (KeyRemove (KeyInput_ [keyID st]) true);
      match firstError result with
      | Some err => if isNotFound err then persistNow s "persist step state after destroy skip" else SRet (Some err)
      | None => persistNow s "persist step state after destroy"
      end
  | _, _ => persistNow s "persist step state after destroy skip"
  end.

(** *** Images *)

Definition ImageStep_Apply (s : ImageStep) (saved : ResourceState) : P :=
  let wasCreated := rm_WasCreated (rs_Meta saved) in
  let type := ipi_Type (st_input s) in
  existing ⇐ api (ImageGet (ImageInput_ [type] false));
  match lookup_ ("check image type " ++ Quote type) existing with
  | Failed err => SRet (Some err)
  | Found existing => finish s (SImage (ImageState_ (img_ID existing))) wasCreated "persist step state after skip"
  | Missing =>
      img ⇐ api (ImagePull (st_input s));
      match img with
      | Err err => SRet (Some err)
      | Ok img => finish s (SImage (ImageState_ (img_ID img))) true "persist step state"
      end
  end.

Definition ImageStep_Destroy (s : ImageStep) : ResourceState → P := destroyNothing KImage s.

Definition ImageImportStep_Apply (s : ImageImportStep) (saved : ResourceState) : P :=
  img ⇐ api (ImageImport (st_input s));
  match img with
  | Err err => SRet (Some err)
  | Ok img => finish s (SImageImport (ImageImportState_ (img_ID img))) true "persist step state"
  end.

Definition ImageImportStep_Destroy (s : ImageImportStep) : ResourceState → P := destroyNothing KImageImport s.

(** *** Kernels *)

Definition KernelStep_Apply (s : KernelStep) (saved : ResourceState) : P :=
  let wasCreated := rm_WasCreated (rs_Meta saved) in
  let type := kpi_KernelType (st_input s) in
  existing ⇐ api (KernelGet type);
  match lookup_ ("check kernel type " ++ Quote type) existing with
  | Failed err => SRet (Some err)
  | Found existing => finish s (SKernel (KernelState_ (krn_ID existing))) wasCreated "persist step state after skip"
  | Missing =>
      krnl ⇐ api (KernelPull (st_input s));
      match krnl with
      | Err err => SRet (Some err)
      | Ok krnl => finish s (SKernel (KernelState_ (krn_ID krnl))) true "persist step state"
      end
  end.

Definition KernelStep_Destroy (s : KernelStep) : ResourceState → P := destroyNothing KKernel s.

(** *** Binaries *)

Definition BinaryStep_Apply (s : BinaryStep) (saved : ResourceState) : P :=
  let wasCreated := rm_WasCreated (rs_Meta saved) in
  let type := bpi_Type (st_input s) in
  let pull : P :=
    binaries ⇐ api (BinaryPull (st_input s));
    match binaries with
    | Err err => SRet (Some err)
    | Ok [] => SRet (Some (EDomain (New CodeInternal ("binary pull returned no items for " ++ Quote type) [])))
    | Ok (b :: _) => finish s (SBinary (BinaryState_ (bin_ID b))) true "persist step state"
    end in
  existing ⇐ api (BinaryGet (BinaryInput_ [type] None false));
  match lookup_ ("check binary " ++ Quote type) existing with
  | Failed err => SRet (Some err)
  | Found existing =>
      match head (filter (λ b, bin_Version b = bpi_Version (st_input s)) existing) with
      | Some b => finish s (SBinary (BinaryState_ (bin_ID b))) wasCreated "persist step state after skip"
      | None => pull
      end
  | Missing => pull
  end.

Definition BinaryStep_Destroy (s : BinaryStep) : ResourceState → P := destroyNothing KBinary s.

(** *** Virtual machines *)

(** [resolveStepRef]: a reference to a step of this run gives the id in its state. *)
Definition resolveStepRef (stepType stepName : string) (d : D) : option string * D :=
  (if decide (stepName = "") then None
   else
     Some match GetValue (stepType ++ ":" ++ stepName) (sw_shared d) with
     | Some (SNetwork st) => ns_NetworkID st
     | Some (SKernel st) => krs_KernelID st
     | Some (SImage st) => is_ImageID st
     | Some (SBinary st) => bs_BinaryID st
     | _ => stepName
     end, d).

(** [if s.input.X != nil { s.input.X = resolveStepRef(stepType, *s.input.X) }]. *)
Definition resolveRef (stepType : string) (ref : option string) (d : D) : option string * D :=
  match ref with Some name => resolveStepRef stepType name d | None => (None, d) end.

Definition VMStep_Apply (s : VMStep) (saved : ResourceState) : P :=
  let input := st_input s in
  kernel ⇐ resolveRef "kernel" (vci_KernelID input);
  binary ⇐ resolveRef "binary" (vci_BinaryID input);
  image ⇐ resolveRef "image" (vci_ImageID input);
  network ⇐ resolveRef "network" (vci_NetworkID input);
  let input := vci_setRefs network image kernel binary input in
  let wasCreated := rm_WasCreated (rs_Meta saved) in
  existing ⇐ api (VMGet (VMInput_ [st_name s] false));
  match lookup_ ("check vm " ++ Quote (st_name s)) existing with
  | Failed err => SRet (Some err)
  | Found existing =>
      finish s (SVM (VMState_ (vm_ID existing) (vm_RootfsPath existing) 0 "")) wasCreated
        "persist step state after skip"
  | Missing =>
      vms ⇐ api (VMCreate input);
      match vms with
      | Err err => SRet (Some err)
      | Ok [] => SRet (Some (EDomain (New CodeInternal
                   ("vm create returned zero VMs for " ++ Quote (vci_Name input)) [])))
      | Ok (vm :: _) =>
          finish s (SVM (VMState_ (vm_ID vm) (vm_RootfsPath vm) (default 0%Z (vm_NocloudNetPort vm)) (vm_TapDevice vm)))
            true "persist step state"
      end
  end.

Definition vmStateID (st : option StepState) : string := match st with Some (SVM st) => vs_VMID st | _ => "" end.

Definition VMStep_Destroy (s : VMStep) (saved : ResourceState) : P :=
  obj ⇐ loadSaved KVM s saved;
  let vmID := if decide (vmStateID (so_saved obj) = "") then st_name s else vmStateID (so_saved obj) in
  existing ⇐ api (VMGet (VMInput_ [vmID] false));
  match existing with
  | Err err =>
      if isNotFound err then persistNow s "persist step state after destroy skip"
      else SRet (Some (EDomain (WrapMsg CodeDatabaseError
             ("check vm " ++ Quote vmID ++ " for destroy: " ++ Error err) err [])))
  | Ok _ =>
      result ⇐ api (VMRemove (VMInput_ [vmID] true));
      match firstError result with
      | Some err => SRet (Some err)
      | None => persistNow s "persist step state after destroy"
      end
  end.

(** *** Commands and copies *)

Definition SSHStep_Apply (s : SSHStep) (saved : ResourceState) : P :=
  err ⇐ api (SSHConnect (st_input s));
  match err with
  | Some err => SRet (Some err)
  | None => finish s (SSSH (SSHState_ (default "" (ssi_Cmd (st_input s))))) true "persist step state"
  end.

Definition SSHStep_Destroy (s : SSHStep) : ResourceState → P := destroyNothing KSSH s.

Definition ExecStep_Apply (s : ExecStep) (saved : ResourceState) : P :=
  let '(input, ignoreErrors) := st_input s in
  if decide (exi_Command input = "") then SRet (Some (Errorf (stepName s ++ ": empty command") None))
  else
    result ⇐ api (Exec input);
    match result with
    | Err err => SRet (Some err)
    | Ok result =>
        let exitCode := default 0%Z (er_ExitCode <$> result) in
        if bool_decide (exitCode ≠ 0%Z) && negb ignoreErrors
        then SRet (Some (Errorf (stepName s ++ ": command exited with code " ++ Itoa exitCode) None))
        else finish s (SExec (ExecState_ (exi_Command input))) true "persist step state"
    end.

Definition ExecStep_Destroy (s : ExecStep) : ResourceState → P := destroyNothing KExec s.

Definition CopyStep_Apply (s : CopyStep) (saved : ResourceState) : P :=
  err ⇐ api (CPCopy (st_input s));
  match err with
  | Some err => SRet (Some err)
  | None => finish s (SCopy (CPState_ (default "" (head (cpi_Sources (st_input s)))))) true "persist step state"
  end.

Definition CopyStep_Destroy (s : CopyStep) : ResourceState → P := destroyNothing KCopy s.

(** ** From a spec *)

(** [if s, ok := spec[ref].(string); ok { spec[ref] = stripBareName(s) }]. *)
Definition stripRef (spec : ResourceMap) (ref : string) : ResourceMap :=
  match spec !! ref with
  | Some (AnyString s) => <[ref := AnyString (stripBareName s)]> spec
  | _ => spec
  end.

Definition stringList (spec : ResourceMap) (key : string) : list string := default [] (GetStringList spec key).

(** The struct literal at the end of each constructor. *)
Definition specStep {I} (stepType name : string) (spec : ResourceMap) (data : T) (input : I) : StepOf I :=
  StepOf_ stepType name (stringList spec "depends_on") (stringList spec "removes") (specSum data) input spec newObj.

Definition newNetworkStepFromSpec (stepType name : string) (spec : ResourceMap) : result error NetworkStep :=
  data ← marshalSpec spec;
  input ← asNetworkCreate data;
  let input := if decide (nci_Name input = "") then nci_setName name input else input in
  let input := nci_setNAT true input in
  let input := match spec !! "nat_enabled" with Some _ => nci_setNAT (GetBool spec "nat_enabled") input | None => input end in
  mret (specStep stepType name spec data input).

Definition newKeyStepFromSpec (stepType name : string) (spec : ResourceMap) : result error KeyStep :=
  data ← marshalSpec spec;
  input ← asKeyCreate data;
  let input := if decide (kci_Name input = "") then kci_setName name input else input in
  mret (specStep stepType name spec data input).

Definition newImageStepFromSpec (stepType name : string) (spec : ResourceMap) : result error ImageStep :=
  data ← marshalSpec spec;
  input ← asImagePull data;
  mret (specStep stepType name spec data input).

Definition newImageImportStepFromSpec (stepType name : string) (spec : ResourceMap) : result error ImageImportStep :=
  let spec := stripRef spec "source" in
  data ← marshalSpec spec;
  input ← asImageImport data;
  let input := if decide (iii_Name input = "") then iii_setName name input else input in
  mret (specStep stepType name spec data input).

Definition newKernelStepFromSpec (stepType name : string) (spec : ResourceMap) : result error KernelStep :=
  data ← marshalSpec spec;
  input ← asKernelPull data;
  let kernelType := GetString spec "type" in
  let input := if decide (kernelType = "") then input else kpi_setType kernelType input in
  mret (specStep stepType name spec data input).

Definition newBinaryStepFromSpec (stepType name : string) (spec : ResourceMap) : result error BinaryStep :=
  data ← marshalSpec spec;
  input ← asBinaryPull data;
  mret (specStep stepType name spec data input).

(** [if *p != nil && **p == "" { *p = nil }]. *)
Definition nonEmpty (p : option string) : option string :=
  match p with Some s => if decide (s = "") then None else p | None => None end.

Definition newVMStepFromSpec (stepType name : string) (spec : ResourceMap) : result error VMStep :=
  let spec := foldl stripRef spec ["network"; "key"; "image"; "kernel"; "binary"] in
  data ← marshalSpec spec;
  input ← asVMCreate data;
  let input := if decide (vci_Name input = "") then vci_setName name input else input in
  let key := GetString spec "key" in
  let input := if bool_decide (key ≠ "") && bool_decide (vci_SSHKeys input = []) then vci_setSSHKeys [key] input else input in
  let input := vci_setRefs (nonEmpty (vci_NetworkID input)) (nonEmpty (vci_ImageID input))
                 (nonEmpty (vci_KernelID input)) (nonEmpty (vci_BinaryID input)) input in
  mret (specStep stepType name spec data input).

Definition newSSHStepFromSpec (stepType name : string) (spec : ResourceMap) : result error SSHStep :=
  let spec := foldl stripRef spec ["target"; "key"] in
  data ← marshalSpec spec;
  input ← asSSH data;
  mret (specStep stepType name spec data input).

Definition newExecStepFromSpec (stepType name : string) (spec : ResourceMap) : result error ExecStep :=
  let spec := stripRef spec "target" in
  data ← marshalSpec spec;
  input ← asExec data;
  mret (specStep stepType name spec data (input, GetBool spec "ignore_errors")).

(** The hash is of the entry as written, the input of the entry with a list of
    sources; the error of the second marshalling is dropped, and its text empty. *)
Definition newCopyStepFromSpec (emptyText : T) (stepType name : string) (spec : ResourceMap) : result error CopyStep :=
  let src := GetString spec "src" in
  let norm := if decide (src = "") then spec else <["src" := AnyList [AnyString src]]> spec in
  data ← marshalSpec norm;
  input ← asCP data;
  let specData := match marshalSpec spec with Ok d => d | Err _ => emptyText end in
  mret (StepOf_ stepType name (stringList spec "depends_on") (stringList spec "removes") (specSum specData) input norm newObj).

(** ** From a saved state *)

(** The struct literal at the end of each constructor. *)
Definition stateStep {I} (k : StepKind) (stepType name : string) (saved : ResourceState) (deps : list string)
    (input : I) : StepOf I :=
  StepOf_ stepType name deps [] "" input ∅ (StepObj_ (savedFrom k saved) (rs_Meta saved)).

Definition newNetworkStepFromState (stepType name : string) (saved : ResourceState) (deps : list string) : NetworkStep :=
  stateStep KNetwork stepType name saved deps (nci_setName name nciZero).
Definition newKeyStepFromState (stepType name : string) (saved : ResourceState) (deps : list string) : KeyStep :=
  stateStep KKey stepType name saved deps (kci_setName name kciZero).
Definition newImageStepFromState (stepType name : string) (saved : ResourceState) (deps : list string) : ImageStep :=
  stateStep KImage stepType name saved deps ipiZero.
Definition newImageImportStepFromState (stepType name : string) (saved : ResourceState) (deps : list string)
    : ImageImportStep :=
  stateStep KImageImport stepType name saved deps iiiZero.
Definition newKernelStepFromState (stepType name : string) (saved : ResourceState) (deps : list string) : KernelStep :=
  stateStep KKernel stepType name saved deps kpiZero.
Definition newBinaryStepFromState (stepType name : string) (saved : ResourceState) (deps : list string) : BinaryStep :=
  stateStep KBinary stepType name saved deps (bpi_setType name bpiZero).
Definition newVMStepFromState (stepType name : string) (saved : ResourceState) (deps : list string) : VMStep :=
  stateStep KVM stepType name saved deps (vci_setName name vciZero).
Definition newSSHStepFromState (stepType name : string) (saved : ResourceState) (deps : list string) : SSHStep :=
  stateStep KSSH stepType name saved deps ssiZero.
Definition newExecStepFromState (stepType name : string) (saved : ResourceState) (deps : list string) : ExecStep :=
  stateStep KExec stepType name saved deps (exiZero, false).
Definition newCopyStepFromState (stepType name : string) (saved : ResourceState) (deps : list string) : CopyStep :=
  stateStep KCopy stepType name saved deps cpiZero.

(** [MergeEnv]: the new entries win; a nil map is the empty one. *)
Definition MergeEnv (kv : gmap string string) (s : ExecStep) : ExecStep :=
  let '(input, ignoreErrors) := st_input s in
  StepOf_ (st_stepType s) (st_name s) (st_deps s) (st_removes s) (st_specHash s)
    (exi_setEnv (kv ∪ exi_Env input) input, ignoreErrors) (st_inputSpec s) (st_obj s).
End Steps.

(** ** Removals after a run ([env.go]) *)
Section Removals.
Context {O : Type} `{!EnvAPI O}.

(** The loop that keeps the last [ToError] that is not nil. *)
Definition lastError (result : BatchResult) : option error :=
  last (omap (λ r, EDomain <$> ToError (Some r)) (if HasErrors result then Errors result else [])).

(** The switch of [Apply] on the type of a target; the default case only warns. *)
Definition removeTarget (stepType name : string) : option (StepWorld O → option error * StepWorld O) :=
  let batch (f : O → BatchResult * O) := Some (λ d, let '(result, d') := api f d in (lastError result, d')) in
  if decide (stepType = "vm") then batch (VMRemove (VMInput_ [name] false))
  else if bool_decide (stepType = "image") || bool_decide (stepType = "image_import") then
    batch (ImageRemove (ImageInput_ [name] true) true)
  else if decide (stepType = "network") then Some (api (NetworkRemove (NetworkInput_ [name] true true) true))
  else if decide (stepType = "volume") then batch (VolumeRemove (VolumeInput_ [name] "") true)
  else if decide (stepType = "key") then batch (KeyRemove (KeyInput_ [name]) true)
  else if decide (stepType = "kernel") then batch (KernelRemove (KernelInput_ [name] false true))
  else if decide (stepType = "binary") then batch (BinaryRemove (BinaryInput_ [name] None true) true)
  else if decide (stepType = "snapshot") then batch (SnapshotRemove (SnapshotInput_ [name] false))
  else None.
End Removals.

(** ** The sum of the types, and the registry *)

Inductive AnyStep :=
  | ANetwork (s : NetworkStep)
  | AKey (s : KeyStep)
  | AImage (s : ImageStep)
  | AKernel (s : KernelStep)
  | ABinary (s : BinaryStep)
  | AVM (s : VMStep)
  | ASSH (s : SSHStep)
  | AExec (s : ExecStep)
  | ACopy (s : CopyStep)
  | AImageImport (s : ImageImportStep).

(** Apply [f] to the step, whatever its type. *)
Definition onStep {X} (f : ∀ I, StepOf I → X) (s : AnyStep) : X :=
  match s with
  | ANetwork s => f _ s | AKey s => f _ s | AImage s => f _ s | AKernel s => f _ s | ABinary s => f _ s
  | AVM s => f _ s | ASSH s => f _ s | AExec s => f _ s | ACopy s => f _ s | AImageImport s => f _ s
  end.

(** [VMStep.Dependencies] copies the list; the others answer it. *)
#[export] Instance AnyStep_Step : Step AnyStep := {|
  Name := onStep (λ _, stepName);
  Type_ := onStep (λ _, st_stepType);
  Dependencies := onStep (λ _, st_deps);
|}.

Section Registry.
Context {O T : Type} `{!EnvAPI O, !StepCodec T} (emptyText : T).

Definition anyApply (s : AnyStep) : ResourceState → sprog (StepWorld O) :=
  match s with
  | ANetwork s => NetworkStep_Apply s
  | AKey s => KeyStep_Apply s
  | AImage s => ImageStep_Apply s
  | AKernel s => KernelStep_Apply s
  | ABinary s => BinaryStep_Apply s
  | AVM s => VMStep_Apply s
  | ASSH s => SSHStep_Apply s
  | AExec s => ExecStep_Apply s
  | ACopy s => CopyStep_Apply s
  | AImageImport s => ImageImportStep_Apply s
  end.

Definition anyDestroy (s : AnyStep) : ResourceState → sprog (StepWorld O) :=
  match s with
  | ANetwork s => NetworkStep_Destroy s
  | AKey s => KeyStep_Destroy s
  | AImage s => ImageStep_Destroy s
  | AKernel s => KernelStep_Destroy s
  | ABinary s => BinaryStep_Destroy s
  | AVM s => VMStep_Destroy s
  | ASSH s => SSHStep_Destroy s
  | AExec s => ExecStep_Destroy s
  | ACopy s => CopyStep_Destroy s
  | AImageImport s => ImageImportStep_Destroy s
  end.

#[export] Instance AnyStep_EnvStep : EnvStep (StepWorld O) AnyStep := {|
  applyProg := anyApply;
  destroyProg := anyDestroy;
  stateData := λ s d, onStep (λ _ s, StateDataOf s d) s;
  specHash := onStep (λ _, st_specHash);
  removes := onStep (λ _, st_removes);
|}.

(** [Registry] and [StepFactory.FromSpec], by the type's key. *)
Definition FromSpec (key name : string) (spec : ResourceMap) : option (result error AnyStep) :=
  let on {I} (C : StepOf I → AnyStep) (r : result error (StepOf I)) := Some (C <$> r) in
  if decide (key = "network") then on ANetwork (newNetworkStepFromSpec key name spec)
  else if decide (key = "key") then on AKey (newKeyStepFromSpec key name spec)
  else if decide (key = "image") then on AImage (newImageStepFromSpec key name spec)
  else if decide (key = "kernel") then on AKernel (newKernelStepFromSpec key name spec)
  else if decide (key = "binary") then on ABinary (newBinaryStepFromSpec key name spec)
  else if decide (key = "vm") then on AVM (newVMStepFromSpec key name spec)
  else if decide (key = "ssh") then on ASSH (newSSHStepFromSpec key name spec)
  else if decide (key = "exec") then on AExec (newExecStepFromSpec key name spec)
  else if decide (key = "copy") then on ACopy (newCopyStepFromSpec emptyText key name spec)
  else if decide (key = "image_import") then on AImageImport (newImageImportStepFromSpec key name spec)
  else None.

(** [Registry] and [StepFactory.FromState], which never fail. *)
Definition FromState : gmap string (string → ResourceState → list string → result error AnyStep) :=
  list_to_map
    [("network", λ name saved deps, Ok (ANetwork (newNetworkStepFromState "network" name saved deps)));
     ("key", λ name saved deps, Ok (AKey (newKeyStepFromState "key" name saved deps)));
     ("image", λ name saved deps, Ok (AImage (newImageStepFromState "image" name saved deps)));
     ("kernel", λ name saved deps, Ok (AKernel (newKernelStepFromState "kernel" name saved deps)));
     ("binary", λ name saved deps, Ok (ABinary (newBinaryStepFromState "binary" name saved deps)));
     ("vm", λ name saved deps, Ok (AVM (newVMStepFromState "vm" name saved deps)));
     ("ssh", λ name saved deps, Ok (ASSH (newSSHStepFromState "ssh" name saved deps)));
     ("exec", λ name saved deps, Ok (AExec (newExecStepFromState "exec" name saved deps)));
     ("copy", λ name saved deps, Ok (ACopy (newCopyStepFromState "copy" name saved deps)));
     ("image_import", λ name saved deps, Ok (AImageImport (newImageImportStepFromState "image_import" name saved deps)))].

Definition registryKeys : list string :=
  ["network"; "key"; "image"; "kernel"; "binary"; "vm"; "ssh"; "exec"; "copy"; "image_import"].

(** ** Resolving a spec ([spec.go]) *)

Record EnvSpec := EnvSpec_ {
  env_Version : string;
  env_Ephemeral : bool;
  env_Steps : gmap string (gmap string ResourceMap);
}.

(** The entries under the keys of the registry. *)
Definition specEntries (spec : EnvSpec) : list (string * string * ResourceMap) :=
  registryKeys ≫= λ key,
    (λ e : string * ResourceMap, (key, e.1, e.2)) <$> map_to_list (default ∅ (env_Steps spec !! key)).

(** The loops of [resolveSpecV1], over the entries in the order of the maps'
    iteration. *)
Fixpoint resolveEntries (entries : list (string * string * ResourceMap)) : result error (list AnyStep) :=
  match entries with
  | [] => Ok []
  | (key, name, entry) :: rest =>
      if decide (name = "") then Err (Errorf ("env spec " ++ Quote key ++ " entry has empty name key") None)
      else
        match FromSpec key name (stripSpecRefs entry) with
        | None => resolveEntries rest
        | Some r => step ← r; steps ← resolveEntries rest; mret (step :: steps)
        end
  end.

(** Go iterates over maps in any order. *)
Definition resolveSpecV1 (spec : EnvSpec) (r : result error (list AnyStep)) : Prop :=
  ∃ order, order ≡ₚ specEntries spec ∧ r = resolveEntries order.

(** [os.ReadFile] or [GetBody], [os.IsNotExist], [yaml.Unmarshal] of a spec. *)
Context (readSpec : string → result error T) (IsNotExist : error → bool) (asEnvSpec : T → result error EnvSpec).

(** With the error of the context, if it is done. *)
Definition ResolveSpec (ctxErr : option error) (specPath : string) (r : result error (EnvSpec * list AnyStep)) : Prop :=
  match ctxErr with
  | Some err => r = Err (EDomain (WrapMsg CodeInternal ("resolve env spec " ++ specPath ++ ": " ++ Error err) err []))
  | None =>
      match readSpec specPath with
      | Err err =>
          r = Err (if IsNotExist err
                   then EDomain (New CodeValidationFailed ("env spec file not found: " ++ specPath) [])
                   else EDomain (WrapMsg CodeInternal ("read env spec " ++ specPath ++ ": " ++ Error err) err []))
      | Ok data =>
          match asEnvSpec data with
          | Err err => r = Err (EDomain (New CodeValidationFailed ("env spec validation: invalid YAML: " ++ Error err) []))
          | Ok spec =>
              if decide (env_Version spec = "") then
                r = Err (EDomain (New CodeValidationFailed "env spec version is required" []))
              else if decide (env_Version spec = "1") then
                ∃ steps, resolveSpecV1 spec steps ∧ r = ((spec,.) <$> steps)
              else
                r = Err (EDomain (New CodeValidationFailed
                      ("unsupported env spec version: " ++ Quote (env_Version spec) ++ " (supported: " ++ Quote "1" ++ ")") []))
          end
      end
  end.

End Registry.

(** ** A whole run *)
Section Run.
Context {O T Data : Type} `{!EnvAPI O, !StepCodec T} (emptyText : T).
Context (emptyFile : Data) (notExist : string → error) (IsNotExist : error → bool).
Context (marshal : Model.WorkflowState → result error Data) (unmarshal : Data → result error Model.WorkflowState).
Context (SHA256 : Data → string).
Context (readSpec : string → result error T) (asEnvSpec : T → result error EnvSpec).
(** [crypto.WorkflowID], [infra.GetWorkflowsStateDirByID]. *)
Context (WorkflowID : string → string) (stateDirOf : string → string).

(** [ResolveWorkflowID]; [exists_] is the first [os.Stat], [entries] the names of the
    directories that [os.ReadDir] lists, if it can. *)
Definition ResolveWorkflowID (exists_ : string → bool) (entries : option (list string)) (specOrID : string) : string :=
  if Contains specOrID "/" || Contains specOrID "\" || Contains specOrID "." then WorkflowID specOrID
  else if exists_ specOrID then specOrID
  else match entries with
       | None => specOrID
       | Some names => default specOrID (head (filter (λ n, HasPrefix n specOrID) names))
       end.

#[local] Notation W := (EWorld (StepWorld O) Data).
#[local] Notation steps_ := (@AnyStep_EnvStep O T _ _).

(** The loop that merges [--env] into the exec steps. *)
Definition mergeEnvs (extraEnv : gmap string string) (steps : list AnyStep) : list AnyStep :=
  (λ s, match s with AExec s => AExec (MergeEnv extraEnv s) | _ => s end) <$> steps.

Definition applySteps (ctxErr : error) (specPath : string) : list AnyStep → W → option error → W → Prop :=
  let wfID := WorkflowID specPath in
  ApplySteps (EnvStep0 := steps_) emptyFile notExist marshal unmarshal SHA256 wfID specPath (stateDirOf wfID)
    removeTarget ctxErr.

Definition destroyWorkflow (ctxErr : error) (wfID specOrID : string) : W → option error → W → Prop :=
  DestroyWorkflow (EnvStep0 := steps_) emptyFile notExist IsNotExist marshal unmarshal SHA256 wfID (stateDirOf wfID)
    (FromState (T := T)) ctxErr specOrID.

(** [Apply]; an ephemeral environment is destroyed once its pipeline has run, and the
    error of that is only logged. *)
Inductive ApplyWorkflow (ctxDone : option error) (ctxErr : error) (specPath : string) (extraEnv : gmap string string)
    (exists_ : string → bool) (entries : option (list string)) (w : W) : option error → W → Prop :=
  | apply_unresolved err :
      ResolveSpec emptyText readSpec IsNotExist asEnvSpec ctxDone specPath (Err err) →
      ApplyWorkflow ctxDone ctxErr specPath extraEnv exists_ entries w
        (Some (EDomain (WrapMsg CodeInternal ("resolve env spec " ++ specPath ++ ": " ++ Error err) err []))) w
  | apply_kept spec steps r w' :
      ResolveSpec emptyText readSpec IsNotExist asEnvSpec ctxDone specPath (Ok (spec, steps)) →
      applySteps ctxErr specPath (mergeEnvs extraEnv steps) w r w' →
      env_Ephemeral spec = false ∨ steps = [] ∨ (∀ p, NewPipeline (mergeEnvs extraEnv steps) ≠ Some (Ok p)) →
      ApplyWorkflow ctxDone ctxErr specPath extraEnv exists_ entries w r w'
  | apply_ephemeral spec steps p r w1 r2 w' :
      ResolveSpec emptyText readSpec IsNotExist asEnvSpec ctxDone specPath (Ok (spec, steps)) →
      applySteps ctxErr specPath (mergeEnvs extraEnv steps) w r w1 →
      env_Ephemeral spec = true → steps ≠ [] → NewPipeline (mergeEnvs extraEnv steps) = Some (Ok p) →
      destroyWorkflow ctxErr (ResolveWorkflowID exists_ entries specPath) specPath w1 r2 w' →
      ApplyWorkflow ctxDone ctxErr specPath extraEnv exists_ entries w r w'.
End Run.

(** ** The contract of the steps *)

(** Run a step alone, with a writer that answers [write]. *)
Fixpoint runStep {D} (write : ResourceState → option error) (p : sprog D) (d : D) : option error * D :=
  match p with
  | SRet err => (err, d)
  | SDo X m k => let '(x, d') := m d in runStep write (k x) d'
  | SWrite data k => runStep write (k (write data)) d
  end.

Section Contract.
Context {O T : Type} `{!EnvAPI O, !StepCodec T}.
#[local] Notation D := (StepWorld O).

Lemma saves_persist msg data : saves (D := D) (persist msg data).
Proof. by intros e. Qed.

Lemma saves_finish {I} (s : StepOf I) st b msg : saves (D := D) (finish s st b msg).
Proof. intros data. apply saves_persist. Qed.

Lemma saves_now {I} (s : StepOf I) msg : saves (D := D) (persistNow s msg).
Proof. intros data. apply saves_persist. Qed.

Lemma saves_nothing {I} k (s : StepOf I) saved : saves (D := D) (destroyNothing k s saved).
Proof. intros obj. apply saves_now. Qed.

Create HintDb saves.
#[local] Hint Resolve saves_persist saves_finish saves_now saves_nothing : saves.

(** Follow a program: what an action answers, and the cases on it. *)
Ltac saves_step :=
  match goal with
  | |- Some _ ≠ None => discriminate
  | |- forall _, _ => intros ?
  | |- saves (SDo _ _ _) => intros ?
  | |- saves (SRet (Some _)) => discriminate
  | |- saves (match ?x with _ => _ end) => destruct x
  | |- saves (let _ := _ in _) => cbv zeta
  | |- saves _ => solve [eauto with saves]
  end.

(** C12. Every step type keeps the contract of [StateWriter]: a step that answers
    nil, from [Apply] or from [Destroy], has had its state saved. *)
Theorem steps_save (s : AnyStep) (saved : ResourceState) :
  saves (D := D) (anyApply s saved) ∧ saves (D := D) (anyDestroy s saved).
Proof.
  destruct s as [s|s|s|s|s|s|s|s|s|s]; simpl; (split; [|try apply saves_nothing]);
    unfold NetworkStep_Apply, NetworkStep_Destroy, KeyStep_Apply, KeyStep_Destroy, ImageStep_Apply,
      ImageImportStep_Apply, KernelStep_Apply, BinaryStep_Apply, VMStep_Apply, VMStep_Destroy, SSHStep_Apply,
      ExecStep_Apply, CopyStep_Apply; repeat saves_step.
Qed.
End Contract.

(** ** Steps from specs and states *)
Section Factories.
Context {O T : Type} `{!EnvAPI O, !StepCodec T, !StepCodecLaws T} (emptyText : T).
#[local] Notation D := (StepWorld O).

(** The kind of the states a step keeps. *)
Definition anyKind (s : AnyStep) : StepKind :=
  match s with
  | ANetwork _ => KNetwork | AKey _ => KKey | AImage _ => KImage | AKernel _ => KKernel | ABinary _ => KBinary
  | AVM _ => KVM | ASSH _ => KSSH | AExec _ => KExec | ACopy _ => KCopy | AImageImport _ => KImageImport
  end.

(** The key of the registry for a kind. *)
Definition keyOf (k : StepKind) : string :=
  match k with
  | KNetwork => "network" | KKey => "key" | KImage => "image" | KKernel => "kernel" | KBinary => "binary"
  | KVM => "vm" | KSSH => "ssh" | KExec => "exec" | KCopy => "copy" | KImageImport => "image_import"
  end.

(** Take apart the monadic steps of a constructor. *)
Ltac factory_step :=
  match goal with
  | H : Some _ = Some _ |- _ => apply (inj Some) in H
  | H : Ok _ = Ok _ |- _ => injection H as <-
  | H : Err _ = Ok _ |- _ => discriminate H
  | H : context [mbind _ ?r] |- _ => destruct r eqn:?; cbn [mbind result_bind] in H
  | H : context [_ <$> ?r] |- _ => destruct r eqn:?; cbn [fmap result_fmap] in H
  end.

Lemma FromSpec_id key name spec s :
  FromSpec emptyText key name spec = Some (Ok s) →
  Name s = FormatStepName key name ∧ Type_ s = key ∧ keyOf (anyKind s) = key.
Proof.
  unfold FromSpec. intros H.
  repeat (case_decide as Hk; [subst key|clear Hk]); [..|discriminate H];
    unfold newNetworkStepFromSpec, newKeyStepFromSpec, newImageStepFromSpec, newImageImportStepFromSpec,
      newKernelStepFromSpec, newBinaryStepFromSpec, newVMStepFromSpec, newSSHStepFromSpec, newExecStepFromSpec,
      newCopyStepFromSpec, mret, result_ret in H; cbv zeta in H; repeat factory_step; done.
Qed.
Lemma keyOf_plain k : allChars (λ c, negb (Ascii.eqb c ":")) (keyOf k) = true ∧ keyOf k ≠ "".
Proof. by destruct k. Qed.

Lemma FromState_keyOf k name saved deps :
  ∃ f s, FromState (T := T) !! keyOf k = Some f ∧ f name saved deps = Ok s ∧
    Name s = FormatStepName (keyOf k) name ∧ Type_ s = keyOf k ∧ Dependencies s = deps ∧
    onStep (λ _, st_obj) s = StepObj_ (savedFrom k saved) (rs_Meta saved).
Proof. destruct k; (eexists _, _; split; [reflexivity|]); done. Qed.

(** The step has a state of its type. *)
Definition hasState (d : D) (s : AnyStep) : Prop :=
  ∃ st, so_saved (onStep (λ _ s, objOf s d) s) = Some st ∧ kindOf st = anyKind s.

(** The same step, whose object starts with the state [s] had. *)
Definition restored (d : D) (s s' : AnyStep) : Prop :=
  Name s' = Name s ∧ Type_ s' = Type_ s ∧ Dependencies s' = Dependencies s ∧
  onStep (λ _, st_obj) s' = onStep (λ _ s, objOf s d) s.

Lemma savedFrom_state {I} (s : StepOf I) (d : D) st k :
  so_saved (objOf s d) = Some st → kindOf st = k →
  savedFrom k (StateDataOf s d) = Some st ∧ rs_Meta (StateDataOf s d) = so_meta (objOf s d).
Proof.
  intros Est <-. unfold StateDataOf. rewrite Est. simpl. split; [|done].
  unfold savedFrom, StateFromMap. simpl. by rewrite decide_False, state_roundtrip by apply state_nonempty.
Qed.

Lemma savedFrom_any (s : AnyStep) (d : D) st :
  so_saved (onStep (λ _ s, objOf s d) s) = Some st → kindOf st = anyKind s →
  StepObj_ (savedFrom (anyKind s) (stateData s d)) (rs_Meta (stateData s d)) = onStep (λ _ s, objOf s d) s.
Proof.
  intros Est Ek. destruct s as [s|s|s|s|s|s|s|s|s|s]; simpl in *; destruct (savedFrom_state s d st _ Est Ek) as [E1 E2];
    rewrite E1, E2; destruct (objOf s d); simpl in *; by subst.
Qed.

Lemma reconstruct_one key name spec s (d : D) rest :
  FromSpec emptyText key name spec = Some (Ok s) → name ≠ "" → hasState d s →
  ∃ s', restored d s s' ∧
    reconstruct (FromState (T := T)) (appliedResource s (stateData s d) :: rest) =
      ('(ss, names) ← reconstruct (FromState (T := T)) rest; mret (s' :: ss, {[Name s]} ∪ names)).
Proof.
  intros (En & Et & Ek)%FromSpec_id Hname (st & Est & Ekind).
  destruct (FromState_keyOf (anyKind s) name (stateData s d) (Dependencies s)) as (f & s' & Ef & Es' & En' & Et' & Ed' & Eo).
  exists s'. destruct (keyOf_plain (anyKind s)) as [Hplain Hne]. rewrite Ek in *. split.
  - unfold restored. rewrite En', Et', Ed', Eo, En, Et. split_and!; try done. by apply (savedFrom_any s d st).
  - cbn [reconstruct appliedResource ar_Type ar_Name ar_State ar_Dependencies]. rewrite Et, Ef, En.
    destruct (step_names key name Hplain Hne Hname) as (_ & -> & _). by rewrite Es'.
Qed.

(** C13. [Destroy] gets back the steps [Apply] had: from the resources saved for
    steps of a spec, it reconstructs a step of the same name, type, dependencies
    and state for each, and skips none. *)
Theorem reconstruct_applied (d : D) (steps : list AnyStep) :
  Forall (λ s, hasState d s ∧ ∃ key name spec, name ≠ "" ∧ FromSpec emptyText key name spec = Some (Ok s)) steps →
  ∃ steps', reconstruct (FromState (T := T)) ((λ s, appliedResource s (stateData s d)) <$> steps) =
      Ok (steps', list_to_set (Name <$> steps)) ∧
    Forall2 (restored d) steps steps'.
Proof.
  induction 1 as [|s steps (Hs & key & name & spec & Hname & Hspec) _ (steps' & E & Hall)].
  - exists []. by split; [|constructor].
  - destruct (reconstruct_one key name spec s d ((λ s, appliedResource s (stateData s d)) <$> steps) Hspec Hname Hs)
      as (s' & Hr & Eq).
    exists (s' :: steps'). rewrite fmap_cons, Eq, E. split; [done|by constructor].
Qed.
End Factories.

(** ** What a step leaves *)
Section Effects.
Context {O T : Type} `{!EnvAPI O, !StepCodec T} (write : ResourceState → option error).
#[local] Notation D := (StepWorld O).

(** [Q] holds of the world in which [p] answers nil. *)
Definition ends (Q : D → Prop) (p : sprog D) : Prop := ∀ d d', runStep write p d = (None, d') → Q d'.

Lemma run_do {X} (m : D → X * D) k (d d' : D) x :
  m d = (x, d') → runStep write (SDo X m k) d = runStep write (k x) d'.
Proof. simpl. by intros ->. Qed.

(** An operation in a step. *)
Lemma run_api {X} (f : O → X * O) k (d : D) x op :
  f (sw_op d) = (x, op) → runStep write (SDo X (api f) k) d = runStep write (k x) (StepWorld_ op (sw_objs d) (sw_shared d)).
Proof. simpl. unfold api. by intros ->. Qed.

Lemma ends_do Q X (m : D → X * D) k : (∀ x, ends Q (k x)) → ends Q (SDo X m k).
Proof. intros Hk d d'. simpl. destruct (m d) as [x d1]. by apply Hk. Qed.

Lemma ends_err Q err : ends Q (SRet (Some err)).
Proof. by intros d d'. Qed.

Lemma run_persist msg data (d : D) r d' : runStep write (persist msg data) d = (r, d') → d' = d.
Proof. by intros [= _ <-]. Qed.

Lemma ends_finish {I} Q (s : StepOf I) st b msg :
  (∀ d, objOf s d = StepObj_ (Some st) (ResourceMeta_ b (st_specHash s)) → Q d) → ends Q (finish s st b msg).
Proof.
  intros HQ d d'. unfold finish. cbn [runStep setSaved]. intros ->%run_persist. apply HQ.
  unfold objOf. simpl. by rewrite lookup_insert_eq.
Qed.

Ltac ends_step :=
  match goal with
  | |- ends _ (SDo _ _ _) => apply ends_do; intros ?
  | |- ends _ (SRet (Some _)) => apply ends_err
  | |- ends _ (finish _ _ _ _) => apply ends_finish; intros ? E; eexists; split; [simpl; rewrite E; reflexivity|reflexivity]
  | |- ends _ (match ?x with _ => _ end) => destruct x
  | |- ends _ (let _ := _ in _) => cbv zeta
  end.

(** A step that was applied has a state of its type. *)
Lemma apply_hasState (s : AnyStep) saved d d' :
  runStep write (anyApply s saved) d = (None, d') → hasState d' s.
Proof.
  revert d d'. change (ends (λ d, hasState d s) (anyApply s saved)).
  destruct s as [s|s|s|s|s|s|s|s|s|s]; simpl;
    unfold NetworkStep_Apply, KeyStep_Apply, ImageStep_Apply, ImageImportStep_Apply, KernelStep_Apply,
      BinaryStep_Apply, VMStep_Apply, SSHStep_Apply, ExecStep_Apply, CopyStep_Apply; repeat ends_step.
Qed.

Lemma run_persistNow {I} (s : StepOf I) msg (d : D) : (runStep write (persistNow s msg) d).2 = d.
Proof. unfold persistNow. cbn [runStep]. by destruct (runStep write (persist msg (StateDataOf s d)) d) eqn:E; apply run_persist in E as ->. Qed.

Lemma loadSaved_op {I} k (s : StepOf I) saved (d : D) obj d' :
  loadSaved k s saved d = (obj, d') → sw_op d' = sw_op d.
Proof. unfold loadSaved. destruct (so_saved (objOf s d)); by intros [= _ <-]. Qed.

(** What was there before is not torn down: the teardown of a key that
    [Apply] did not create calls no operation, and that of a network at most
    looks it up, unless the lookup finds that it was deleted meanwhile. *)
Lemma preexisting_kept (k : KeyStep) (n : NetworkStep) saved (d : D) :
  (rm_WasCreated (so_meta (loadSaved KKey k saved d).1) = false →
   sw_op (runStep write (KeyStep_Destroy k saved) d).2 = sw_op d) ∧
  (rm_WasCreated (so_meta (loadSaved KNetwork n saved d).1) = false →
   let op' := sw_op (runStep write (NetworkStep_Destroy n saved) d).2 in
   op' = sw_op d ∨
   ∃ id found op1, NetworkGet (NetworkInput_ [id] false true) (sw_op d) = (found, op1) ∧
     (op' = op1 ∨ ∃ net, found = Ok net ∧ nw_IsPresent net = false)).
Proof.
  split.
  - unfold KeyStep_Destroy. destruct (loadSaved KKey k saved d) as [obj d1] eqn:E. rewrite (run_do _ _ _ _ _ E).
    apply loadSaved_op in E as <-. cbn [fst]. intros ->. destruct (so_saved obj); by rewrite run_persistNow.
  - unfold NetworkStep_Destroy. destruct (loadSaved KNetwork n saved d) as [obj d1] eqn:E. rewrite (run_do _ _ _ _ _ E).
    apply loadSaved_op in E as <-. cbn [fst]. intros ->.
    destruct (so_saved obj) as [st|]; [|left; by rewrite run_persistNow].
    case_decide; [left; by rewrite run_persistNow|]. right.
    destruct (NetworkGet (NetworkInput_ [networkID st] false true) (sw_op d1)) as [found op1] eqn:Eg.
    exists (networkID st), found, op1. split; [done|]. rewrite (run_api _ _ _ _ _ Eg).
    destruct found as [net|e]; [|left; by rewrite run_persistNow].
    destruct (nw_IsPresent net) eqn:Ep; [left; by rewrite run_persistNow|right; eauto].
Qed.

(** A VM has no such protection: its teardown removes the VM it finds,
    whether or not [Apply] created it. *)
Lemma VMStep_Destroy_removes (s : VMStep) saved (d : D) vm op1 :
  let id := vmStateID (so_saved (loadSaved KVM s saved d).1) in
  let id := if decide (id = "") then st_name s else id in
  VMGet (VMInput_ [id] false) (sw_op d) = (Ok vm, op1) →
  sw_op (runStep write (VMStep_Destroy s saved) d).2 = (VMRemove (VMInput_ [id] true) op1).2.
Proof.
  unfold VMStep_Destroy. destruct (loadSaved KVM s saved d) as [obj d1] eqn:E. rewrite (run_do _ _ _ _ _ E).
  apply loadSaved_op in E as <-. cbn [fst]. intros Eg. rewrite (run_api _ _ _ _ _ Eg).
  destruct (VMRemove _ op1) as [res op2] eqn:Er. cbn iota.
  rewrite (run_api (VMRemove _) _ (StepWorld_ op1 _ _) _ _ Er).
  destruct (firstError res); [done|]. by rewrite run_persistNow.
Qed.
End Effects.

(** ** Resolution *)
Section Resolution.
Context {T : Type} `{!StepCodec T} (emptyText : T).

(** The step of an entry. *)
Definition entryStep (e : string * string * ResourceMap) : option AnyStep :=
  let '(key, name, entry) := e in
  if decide (name = "") then None
  else match FromSpec emptyText key name (stripSpecRefs entry) with Some (Ok s) => Some s | _ => None end.

(** Its name. *)
Definition entryName (e : string * string * ResourceMap) : string := FormatStepName e.1.1 e.1.2.

Lemma FromSpec_registered key name spec : key ∈ registryKeys → is_Some (FromSpec emptyText key name spec).
Proof.
  intros Hk. unfold FromSpec. repeat (case_decide; [by eexists|]). exfalso. unfold registryKeys in Hk. set_solver.
Qed.

Lemma resolveEntries_Ok es steps :
  Forall (λ e, e.1.1 ∈ registryKeys) es →
  resolveEntries emptyText es = Ok steps ↔ entryStep <$> es = Some <$> steps.
Proof.
  intros Hes. revert steps. induction Hes as [|[[key name] entry] es Hkey _ IH]; intros steps.
  - simpl. split; [by intros [= <-]|]. by destruct steps.
  - cbn [resolveEntries]. rewrite fmap_cons. cbn [entryStep]. simpl in Hkey. case_decide; [by destruct steps|].
    destruct (FromSpec_registered key name (stripSpecRefs entry) Hkey) as [[s|e] ->]; [|by destruct steps].
    cbn [mbind result_bind]. destruct (resolveEntries emptyText es) as [ss|e].
    + cbn [mbind result_bind]. destruct steps as [|s' steps]; [done|]. rewrite fmap_cons. split.
      * intros [= <- <-]. by rewrite (proj1 (IH ss) eq_refl).
      * intros [= -> H']. apply IH in H' as [= ->]. done.
    + split; [done|]. destruct steps as [|s' steps]; [done|]. rewrite fmap_cons. intros [= _ H'].
      by apply IH in H'.
Qed.

Lemma entryStep_name e s : entryStep e = Some s → Name s = entryName e ∧ e.1.2 ≠ "".
Proof.
  destruct e as [[key name] entry]. cbn [entryStep]. case_decide; [done|].
  destruct (FromSpec _ _ _ _) as [[s'|]|] eqn:E; [|done..]. intros [= <-].
  by apply FromSpec_id in E as (-> & _).
Qed.

Lemma specEntries_keys spec : Forall (λ e, e.1.1 ∈ registryKeys) (specEntries spec).
Proof.
  unfold specEntries. apply Forall_forall. intros e (key & He & Hkey)%list_elem_of_bind.
  by apply list_elem_of_fmap in He as ([name entry] & -> & _).
Qed.

(** Keys of the registry have no colon, so that a name gives its parts back. *)
Lemma entryName_inj e e' :
  e.1.1 ∈ registryKeys → e'.1.1 ∈ registryKeys → e.1.2 ≠ "" → e'.1.2 ≠ "" →
  entryName e = entryName e' → e.1 = e'.1.
Proof.
  destruct e as [[key name] m], e' as [[key' name'] m']. unfold entryName. simpl. intros Hk Hk' Hn Hn' E.
  assert (∀ k, k ∈ registryKeys → allChars (λ c, negb (Ascii.eqb c ":")) k = true ∧ k ≠ "") as Hplain.
  { apply Forall_forall. unfold registryKeys. by repeat constructor. }
  destruct (Hplain _ Hk) as [P1 P2], (Hplain _ Hk') as [P1' P2'].
  destruct (step_names key name P1 P2 Hn) as (E1 & _ & E2 & _).
  destruct (step_names key' name' P1' P2' Hn') as (E1' & _ & E2' & _).
  rewrite E in E1, E2. congruence.
Qed.

Lemma specEntries_NoDup spec : NoDup (fst <$> specEntries spec).
Proof.
  unfold specEntries.
  assert (NoDup registryKeys) as Hnd by (apply (bool_decide_unpack _); vm_compute; exact I).
  revert Hnd. induction registryKeys as [|key keys IH]; [constructor|]. intros [Hk Hnd]%NoDup_cons.
  rewrite bind_cons, fmap_app. apply NoDup_app. split_and!; [| |by apply IH].
  - rewrite <-list_fmap_compose.
    rewrite (list_fmap_ext _ ((key,.) ∘ fst)) by done. rewrite list_fmap_compose.
    apply NoDup_fmap_2; [intros ?? [=]; done|apply NoDup_fst_map_to_list].
  - intros kn (e & -> & ([name entry] & -> & _)%list_elem_of_fmap)%list_elem_of_fmap.
    intros (e & Ee & (key' & He & Hkey')%list_elem_of_bind)%list_elem_of_fmap.
    apply list_elem_of_fmap in He as ([name' entry'] & -> & _). simpl in Ee. by injection Ee as <- _.
Qed.

(** Resolving a spec does not depend on the order of Go's maps: if it
    succeeds in one order it does in every other, with the same steps; and the
    steps of a spec have distinct names, so that a pipeline can be built. *)
Lemma resolveSpecV1_order spec steps :
  resolveSpecV1 emptyText spec (Ok steps) →
  NoDup (Name <$> steps) ∧ Name <$> steps ≡ₚ entryName <$> specEntries spec ∧
  ∀ r, resolveSpecV1 emptyText spec r → ∃ steps', r = Ok steps' ∧ steps' ≡ₚ steps.
Proof.
  intros (order & Hord & E). symmetry in E. pose proof (specEntries_keys spec) as Hkeys.
  assert (Forall (λ e, e.1.1 ∈ registryKeys) order) as Hkeys' by (by rewrite Hord).
  apply resolveEntries_Ok in E; [|done].
  assert (∀ e, e ∈ order → ∃ s, entryStep e = Some s ∧ s ∈ steps) as Hsome.
  { intros e He. apply (list_elem_of_fmap_2 entryStep) in He. rewrite E in He.
    apply list_elem_of_fmap in He as (s & -> & Hs). eauto. }
  assert (Name <$> steps = entryName <$> order) as En.
  { clear -E. revert steps E. induction order as [|e order IH]; intros [|s steps] E; try done.
    rewrite !fmap_cons in E. injection E as E1 E2. apply entryStep_name in E1 as [E1 _].
    rewrite !fmap_cons, E1. f_equal. by apply IH. }
  split_and!.
  - rewrite En. apply NoDup_fmap_2_strong; [|by rewrite Hord; apply (NoDup_fmap_1 fst), specEntries_NoDup].
    intros e e' He He' Hee. pose proof (specEntries_NoDup spec) as Hnd. rewrite <-Hord in Hnd.
    eapply (elem_of_fmap_inj fst order); [done..|].
    destruct (Hsome e He) as (s & [_ Hs]%entryStep_name & _), (Hsome e' He') as (s' & [_ Hs']%entryStep_name & _).
    rewrite Forall_forall in Hkeys'. apply entryName_inj; auto.
  - by rewrite En, Hord.
  - intros r (order' & Hord' & ->).
    assert (entryStep <$> order' ≡ₚ Some <$> steps) as Hp by (by rewrite <-E, Hord, Hord').
    apply Permutation_map_inv in Hp as (steps' & E' & Hp).
    exists steps'. split; [|by symmetry]. apply resolveEntries_Ok; [by rewrite Hord'|exact E'].
Qed.
End Resolution.

(** A path without separators and dots is taken for an id, never hashed: the workflow
    [Apply] makes for such a spec is not the one [Destroy] looks for. *)
Lemma ResolveWorkflowID_bare WorkflowID exists_ entries s :
  Contains s "/" = false → Contains s "\" = false → Contains s "." = false →
  let id := ResolveWorkflowID WorkflowID exists_ entries s in
  id = s ∨ ∃ names, entries = Some names ∧ id ∈ names ∧ HasPrefix id s = true.
Proof.
  intros E1 E2 E3. unfold ResolveWorkflowID. rewrite E1, E2, E3. simpl. destruct (exists_ s); [by left|].
  destruct entries as [names|]; [|by left]. destruct (filter _ names) as [|n ns] eqn:E; [by left|]. right.
  assert (n ∈ filter (λ n, HasPrefix n s) names) as [HP Hin]%list_elem_of_filter by (rewrite E; left).
  exists names. split_and!; [done|done|by apply Is_true_true].
Qed.

(** ** Instances *)

Module EnvStepsExamples.
(** Every field is written. *)
Definition toMap (s : StepState) : ResourceMap :=
  match s with
  | SNetwork s => {[ "network_id" := AnyString (ns_NetworkID s); "subnet" := AnyString (ns_Subnet s) ]}
  | SKey s => {[ "key_id" := AnyString (ks_KeyID s) ]}
  | SImage s => {[ "image_id" := AnyString (is_ImageID s) ]}
  | SImageImport s => {[ "image_id" := AnyString (iis_ImageID s) ]}
  | SKernel s => {[ "kernel_id" := AnyString (krs_KernelID s) ]}
  | SBinary s => {[ "binary_id" := AnyString (bs_BinaryID s) ]}
  | SVM s => {[ "vm_id" := AnyString (vs_VMID s); "vm_dir" := AnyString (vs_VMDir s);
                "nocloud_port" := AnyInt (vs_NocloudPort s); "tap_name" := AnyString (vs_TapName s) ]}
  | SSSH s => {[ "command" := AnyString (ss_Command s) ]}
  | SExec s => {[ "command" := AnyString (es_Command s) ]}
  | SCopy s => {[ "source" := AnyString (cs_Source s) ]}
  end.

Definition ofMap (k : StepKind) (m : ResourceMap) : option StepState :=
  Some match k with
  | KNetwork => SNetwork (NetworkState_ (GetString m "network_id") (GetString m "subnet"))
  | KKey => SKey (KeyState_ (GetString m "key_id"))
  | KImage => SImage (ImageState_ (GetString m "image_id"))
  | KImageImport => SImageImport (ImageImportState_ (GetString m "image_id"))
  | KKernel => SKernel (KernelState_ (GetString m "kernel_id"))
  | KBinary => SBinary (BinaryState_ (GetString m "binary_id"))
  | KVM => SVM (VMState_ (GetString m "vm_id") (GetString m "vm_dir") (GetInt m "nocloud_port") (GetString m "tap_name"))
  | KSSH => SSSH (SSHState_ (GetString m "command"))
  | KExec => SExec (ExecState_ (GetString m "command"))
  | KCopy => SCopy (CPState_ (GetString m "source"))
  end.

(** Inputs with nothing in them. *)
#[export] Instance codec : StepCodec unit := {|
  stateToMap := toMap; stateOfMap := ofMap; marshalSpec := λ _, Ok ();
  asNetworkCreate := λ _, Ok nciZero; asKeyCreate := λ _, Ok kciZero; asImagePull := λ _, Ok ipiZero;
  asImageImport := λ _, Ok iiiZero; asKernelPull := λ _, Ok kpiZero; asBinaryPull := λ _, Ok bpiZero;
  asVMCreate := λ _, Ok vciZero; asSSH := λ _, Ok ssiZero; asExec := λ _, Ok exiZero; asCP := λ _, Ok cpiZero;
  specSum := λ _, "sum";
|}.

#[export] Instance codec_laws : StepCodecLaws unit.
Proof.
  split.
  - intros [[]|[]|[]|[]|[]|[]|[]|[]|[]|[]]; vm_compute; reflexivity.
  - by intros [] m s [= <-].
  - intros s E. destruct s as [s|s|s|s|s|s|s|s|s|s]; simpl in E;
      first [by apply insert_non_empty in E|by apply map_non_empty_singleton in E].
Qed.

(** A host with one VM; the log of the calls that change something. *)
Definition no : error := EDomain (NotFound CodeNetworkNotFound "not found" []).
#[export] Instance host : EnvAPI (list string) := {|
  NetworkGet := λ _ o, (Err no, o); NetworkCreate := λ _ o, (Err no, o); NetworkRemove := λ _ _ o, (None, "network" :: o);
  KeyGet := λ _ o, (Err no, o); KeyCreate := λ _ o, (Err no, o);
  KeyRemove := λ _ _ o, (BatchResult_ [] [] ∅, "key" :: o);
  ImageGet := λ _ o, (Err no, o); ImagePull := λ _ o, (Err no, o); ImageImport := λ _ o, (Err no, o);
  KernelGet := λ _ o, (Err no, o); KernelPull := λ _ o, (Err no, o);
  BinaryGet := λ _ o, (Err no, o); BinaryPull := λ _ o, (Err no, o);
  ImageRemove := λ _ _ o, (BatchResult_ [] [] ∅, o); KernelRemove := λ _ o, (BatchResult_ [] [] ∅, o);
  BinaryRemove := λ _ _ o, (BatchResult_ [] [] ∅, o); VolumeRemove := λ _ _ o, (BatchResult_ [] [] ∅, o);
  SnapshotRemove := λ _ o, (BatchResult_ [] [] ∅, o);
  VMGet := λ _ o, (Ok vmZero, o); VMCreate := λ _ o, (Err no, o);
  VMRemove := λ _ o, (BatchResult_ [] [] ∅, "vm" :: o);
  SSHConnect := λ _ o, (None, o); Exec := λ _ o, (Ok None, o); CPCopy := λ _ o, (None, o);
|}.

Definition aNetwork : AnyStep :=
  ANetwork (StepOf_ "network" "default" [] [] "sum" (nci_setNAT true (nci_setName "default" nciZero)) ∅ newObj).
Definition before : ResourceMeta := ResourceMeta_ false "sum".
Definition world : StepWorld (list string) :=
  StepWorld_ [] {[ "network:default" := StepObj_ (Some (SNetwork (NetworkState_ "id1" "10.0.0.0/24"))) before ]} ∅.

Lemma reconstruct_applied_witness :
  ∃ steps', reconstruct (FromState (T := unit)) [appliedResource aNetwork (stateData aNetwork world)] =
      Ok (steps', list_to_set (Name <$> [aNetwork])) ∧
    Forall2 (restored world) [aNetwork] steps'.
Proof.
  apply (reconstruct_applied (O := list string) (T := unit) () world [aNetwork]).
  constructor; [|constructor]. split.
  - exists (SNetwork (NetworkState_ "id1" "10.0.0.0/24")). split; reflexivity.
  - exists "network", "default", ∅. split; [discriminate|vm_compute; reflexivity].
Defined.

Definition aKey : KeyStep := newKeyStepFromState "key" "k" (ResourceState_ ∅ ∅ before) [].
Definition theNetwork : NetworkStep := newNetworkStepFromState "network" "default" (ResourceState_ ∅ ∅ before) [].

Lemma preexisting_kept_witness :
  sw_op (runStep (λ _, None) (KeyStep_Destroy aKey (ResourceState_ ∅ ∅ before)) world).2 = [].
Proof.
  refine (proj1 (preexisting_kept (λ _, None) aKey theNetwork (ResourceState_ ∅ ∅ before) world) _). vm_compute. reflexivity.
Defined.

(** A VM that was there before [Apply]. *)
Definition aVM : VMStep := newVMStepFromState "vm" "web" (ResourceState_ ∅ ∅ before) [].

Lemma VMStep_Destroy_removes_witness :
  rm_WasCreated (so_meta (st_obj aVM)) = false ∧
  sw_op (runStep (λ _, None) (VMStep_Destroy aVM (ResourceState_ ∅ ∅ before)) world).2 = ["vm"].
Proof.
  split; [reflexivity|].
  refine (VMStep_Destroy_removes (λ _, None) aVM (ResourceState_ ∅ ∅ before) world vmZero [] _). vm_compute. reflexivity.
Defined.

Definition aSpec : EnvSpec := EnvSpec_ "1" false {[ "network" := {[ "default" := ∅ ]} ]}.

Lemma resolveSpecV1_order_witness : NoDup (Name <$> [aNetwork]).
Proof.
  refine (proj1 (resolveSpecV1_order () aSpec [aNetwork] _)).
  exists (specEntries aSpec). split; [reflexivity|vm_compute; reflexivity].
Defined.
End EnvStepsExamples.
